(* ===== verification/_CoqProject ===== *)
-Q . S2P
Prelude.v
Dict.v
Utf8.v
Sha256.v
PyValue.v
JsonText.v
JsonParse.v
Targets.v
Shlex.v
Base64.v
Seal.v
Protocol.v
Canonical.v
Management.v
HelperJournal.v
Worker.v
WorkerSafety.v
WorkerOutput.v
Endpoint.v
Privileged.v
PrivilegedSafety.v
Ranges.v
TextLines.v
FileSystem.v
SwapRace.v
SessionData.v
SessionState.v
SessionSafety.v
SessionGrants.v
Contracts.v
FileCache.v
FileEdit.v
EditSafety.v
FileWrite.v
FileRead.v
ReadSafety.v
FileRegistry.v
RegistrySafety.v
LifecycleTable.v
Lifecycle.v
ExecutionGate.v
GateSafety.v
Admission.v
HostTransfer.v
WorkerFiles.v
TransferSafety.v
RemoteFiles.v
RemoteFilesSafety.v
Router.v
RouterSafety.v
RouterRuns.v
OutputCache.v
Recovery.v
Slot.v
SlotSafety.v
Observations.v
ObservationSafety.v
Approval.v
ApprovalSafety.v
Connection.v
ConnectionSafety.v
Hub.v
Adapter.v
AdapterSafety.v
Retirement.v
ToolContract.v
ToolSafety.v
Transport.v
TransportSafety.v
Invocation.v
Polling.v
Completions.v
CompletionSafety.v
Commands.v
CommandSafety.v
Regex.v
Diagnostics.v
DiagnosticSafety.v
