(* ===== verification/Prelude.v ===== *)
(** * pal-shell-native: a verification development

    pal-shell-native gives an agent host a shell: commands and file tools on the local
    machine and on remote targets.  The host side is a plugin
    ([src/pal_plugin/pal_shell_native]), which talks to a hub with one slot per remote
    target ([src/pal_plugin/pal_shell_remote]); a slot talks over an authenticated
    connection to a worker process on the target ([src/python/pal_shell_worker]), which
    runs commands through a native runtime and edits files through a file engine
    ([_file_core]).  Host and worker can each restart, requests and replies can be lost,
    repeated or delayed, and an agent must neither run a command twice, nor forget one
    that may have started, nor change text it has never been shown.  These are the
    properties proved here.

    ** Foundations

    - [Prelude]: outcomes of fallible code ([res]), a state and error monad ([M]) with
      its Hoare triples ([triple], [keeps]), the notation of the development, its
      tactics, its hint database, and lemmas on lists and integers.
    - [Dict]: Python dictionaries as insertion-ordered association lists.
    - [Utf8], [Base64], [Sha256], [Seal]: text and its encoding, base64 in both
      alphabets, SHA-256 and HMAC, and the sealed tokens of [worker.py].
    - [PyValue], [JsonText], [JsonParse]: JSON values with Python's equality, the output
      of [json.dumps], and the parser of [json.loads] with its round trip; [Canonical]: the
      same for the sorted form that is hashed and signed.
    - [Shlex]: [shlex.split], [shlex.quote] and [shlex.join].
    - [Regex]: the part of Python's [re] that is used, matched by backtracking.
    - [Ranges], [TextLines]: line ranges, visible fragments and logical lines.

    ** Components, and the code they model

    - [LifecycleTable], [Lifecycle]: the generated tables of
      [pal_shell_contracts/_remote_transitions.py] and the functions of
      [remote_lifecycle.py], next to the operators of the TLA+ specification in [docs].
    - [ExecutionGate], [GateSafety]: [execution_gate.py], every method as a function of
      the gate's state; [gate_step] is a call of any of them.
    - [Admission]: [admission.py], with waiting, timeouts and cancellations as steps.
    - [Slot], [SlotSafety]: [RemoteSlot.request] and the parts of [_request] and
      [_connect] that change state, over the gate; the checks of [hub.py].
    - [Targets]: [pal_shell_contracts/__init__.py].
    - [Protocol], [Management], [HelperJournal]: [protocol.py], [management.py],
      [input.py] and [management_helper.py].
    - [Worker], [WorkerSafety], [WorkerOutput]: [worker.py] and [privilege.py].  A
      handler that awaits is cut at its awaits; the pieces are the steps.
    - [FileSystem], [SwapRace], [FileCache]: [file_state.py]; files, links, failing calls
      and a crash in the middle of a replacement are part of the model.
    - [SessionData], [SessionState], [SessionSafety], [SessionGrants]:
      [session_state.py], all records with their dictionary forms and all methods.
    - [Contracts], [FileEdit], [EditSafety], [FileWrite], [FileRead], [ReadSafety]: the
      tools [file_edit.py], [file_write.py] and [file_read.py].
    - [FileRegistry], [RegistrySafety]: [file_registry.py].
    - [WorkerFiles], [TransferSafety]: [files.py] of the worker, over [Worker] and
      [FileRegistry].
    - [HostTransfer], [RemoteFiles], [RemoteFilesSafety]: [files.py] of the plugin, and
      its composition with the registry of a worker.
    - [Router], [RouterSafety], [RouterRuns]: [router.py] without its local shell; its
      composition with the gate.
    - [OutputCache]: [ShellRouter.materialize] and the cache, and their composition with
      the worker's [output] handler.
    - [Recovery]: [retry_read] of [recovery.py].
    - [Observations], [ObservationSafety]: [observation_owner.py],
      [snapshot_delivery.py] and [output_contract.py], the delivery of outputs in
      [runtime.py], [_run] of [events.py], and the state that [session_async] and
      [shell_async] of [capabilities.py] keep around them ([owner_step]).
    - [Approval], [ApprovalSafety]: [approval.py], the card with its fenced blocks, the
      controls, and local commands under [sudo] ([approval_step]).
    - [Connection], [ConnectionSafety]: the exchanges and the reader of [client.py], the
      queue of [transport.py], and the authentication and dispatch of [worker.py]
      ([connection_step], [server_step]).
    - [Hub]: the routing of [hub.py] and the answers of [port.py].
    - [Adapter], [AdapterSafety]: the local shell of [adapter.py]; a command is the machine
      [run_machine], the runtime around it [local_step].
    - [Retirement]: the end of temporary turns, interruption and detaching in
      [runtime.py] and [observation_owner.py].
    - [ToolContract], [ToolSafety]: the input models of [capabilities.py] with their
      validators, their published JSON Schemas and what a schema accepts; the results of
      [output_contract.py] and the tools of [tools.py].
    - [Transport], [TransportSafety]: [_connect], [_disconnect] and [close] of [slot.py],
      cut at their awaits ([transport_step], [system_step]).
    - [Invocation]: the result of a tool call on its way through [runtime.py].
    - [Polling]: the polls of [router.py], and the reconciliation of temporary turns.
    - [Privileged], [PrivilegedSafety]: the command lines of [privilege.py], the checks of
      [askpass.py], the main program of [management_helper.py] and the owners of trusted
      files ([user_step]).
    - [Completions], [CompletionSafety]: from [drain] to the end of [_run] in [events.py]
      ([turns_step]), and the waiting of [role_sessions.py] ([role_step]).
    - [Commands], [CommandSafety]: the arguments of commands and controls from the input
      models of [tools.py] to the calls of the native runtimes.
    - [Diagnostics], [DiagnosticSafety]: [diagnostics.py], the redaction of secrets.
    - [Endpoint]: the configuration of a worker, and its socket under workers that start, stop
      and crash ([endpoint_step]).

    A class is a record of its attributes, a method a function in [M], an exception a
    value of an error type with the source's code and effect.  Code that runs without an
    await is one step.  Interleavings are step relations ([race_step], [worker_step],
    [admission_step], [helper_step], [scope_step], [router_step], [slot_step],
    [cache_step] and those named above), and their theorems speak of every reachable state.

    ** What the theorems show

    - Commands run once and are not forgotten: the tables are the specification, the gate
      only moves along them, retired operations stay retired, a signature is granted
      once, a worker starts an operation once, approvals and helper grants are used once,
      and the slot and the router keep what may have started.
    - Runtimes are fenced: neither gate nor router lets a reply of one runtime touch
      operations of another, and a replaced runtime is never believed again.
    - Edits are authorized: an edit or write changes only text that the session was
      shown, grants are exactly the delivered lines, deliveries only narrow staged
      proofs, and the worker executes under the authority the host dispatched with.
    - Files change all or nothing, and concurrent writers linearize.
    - Data arrives: transfers and outputs are reproduced exactly; records and JSON text
      survive their round trips.
    - Resources are bounded: admission, retained outputs, transfer accounts, the output
      cache, the helper journal; and loops end: downloads, recoveries, matching.
    - Nothing is lost on its way to the agent: a worker's output is released only after
      its delivery was committed, an event that was delivered is never offered again, a
      result that cannot be shown comes with a call that reads it, the end of a
      temporary turn keeps what it could not confirm, an event gets one turn, and no role
      waits while an event can be shown.
    - Only the owner decides: a privileged request is granted only by the human of its
      conversation on a card that shows exactly what will run, a worker serves only the
      enrolled client, a password is handed out only for an approved command, and an
      approved action reaches the protected helper as it was approved.
    - Connections are sound: each request gets its own reply or an honest error, a slot
      leaks neither connections nor tunnels, and a command of the local shell cleans up.
    - Interfaces agree: the published schemas accept what the validators accept, the host
      has a tool exactly for the targets the hub routes, and a command or control means the
      same for a local and a remote target.
    - Recognized secrets do not show in diagnostics.

    ** Fuel

    Loops that are not structural carry fuel, and each has a theorem or lemma that the
    fuel suffices: the JSON parser has the length of the text, [receive] the declared
    size of the blob ([download_terminates]), [fetch] the size of the stream
    ([output_delivered_exactly]), [_match_offsets] the length of the text
    ([match_offsets_exact]), [retry_from] the attempts left, [redact] the length of the text
    ([full_text_eq]), [render] the number of exceptions ([exception_summary_ends]).

    ** Parameters

    What the sources only call is an argument: the platform's path rules, the diffs of
    [difflib], the wording of diagnostics, Ed25519 verification, the random names and
    keys, clocks, the events of the native runtime, the contents of output files, the
    delivery and rendering of the host runtime, and the other side of a connection
    ([HostTransfer.Transport], [OutputPort]).  Where a theorem needs
    something of them it is a hypothesis, and its witness instantiates them.

    ** Not modelled, and why

    - Sockets, the bytes of msgpack, the arguments of ssh, process start and exit,
      installers, the keychain, host metadata: input and output with the operating system,
      no logic of their own beyond it.
    - Prompts, descriptions, skills and manuals of the plugin; the scripts, packaging and
      the C++ runtime.

*)

From stdpp Require Export base tactics option list list_numbers numbers strings sorting relations.
From Stdlib Require Export ZArith Lia.

(** ** Outcomes of fallible Python code *)

(** [Ok a] is a normal return, [Raise e] an exception that leaves the call. *)
Inductive res (E A : Type) : Type :=
| Ok (a : A)
| Raise (e : E).
Arguments Ok {E A} a.
Arguments Raise {E A} e.

Definition rbind {E A B : Type} (m : res E A) (f : A -> res E B) : res E B :=
  match m with
  | Ok a => f a
  | Raise e => Raise e
  end.

Definition rmap {E A B : Type} (f : A -> B) (m : res E A) : res E B :=
  rbind m (fun a => Ok (f a)).

Definition is_ok {E A : Type} (m : res E A) : bool :=
  match m with
  | Ok _ => true
  | Raise _ => false
  end.

(** [if cond: raise e] followed by the rest of the body. *)
Definition rguard {E : Type} (cond : bool) (e : E) : res E unit :=
  if cond then Raise e else Ok tt.

Declare Scope py_scope.
Delimit Scope py_scope with py.
Notation "'let!' x ':=' m 'in' k" := (rbind m (fun x => k))
  (at level 10, x pattern, m at level 99, k at level 200) : py_scope.
Notation "'raise_if' c 'with' e ';;' k" := (rbind (rguard c e) (fun _ => k))
  (at level 10, c at level 99, e at level 99, k at level 200) : py_scope.
Open Scope py_scope.

(** A [for] loop whose body may raise. *)
Fixpoint rfold {E A S : Type} (f : S -> A -> res E S) (s : S) (l : list A) : res E S :=
  match l with
  | [] => Ok s
  | x :: l => let! s' := f s x in rfold f s' l
  end.

(** [[f(x) for x in l]] where [f] may raise. *)
Fixpoint rmapM {E A B : Type} (f : A -> res E B) (l : list A) : res E (list B) :=
  match l with
  | [] => Ok []
  | x :: l => let! y := f x in let! ys := rmapM f l in Ok (y :: ys)
  end.

(** ** Code with state and exceptions

    A method that updates its object and may raise: the state it leaves behind is
    kept when it raises. *)
Definition M (S E A : Type) : Type := S -> S * res E A.

Definition sret {S E A : Type} (a : A) : M S E A := fun s => (s, Ok a).
Definition sthrow {S E A : Type} (e : E) : M S E A := fun s => (s, Raise e).
Definition sget {S E : Type} : M S E S := fun s => (s, Ok s).
Definition smodify {S E : Type} (f : S -> S) : M S E unit := fun s => (f s, Ok tt).
Definition slift {S E A : Type} (r : res E A) : M S E A := fun s => (s, r).
Definition sbind {S E A B : Type} (m : M S E A) (k : A -> M S E B) : M S E B :=
  fun s =>
    match m s with
    | (s', Ok a) => k a s'
    | (s', Raise e) => (s', Raise e)
    end.
Definition sguard {S E : Type} (cond : bool) (e : E) : M S E unit :=
  if cond then sthrow e else sret tt.

Notation "'do!' x '<-' m ';;' k" := (sbind m (fun x => k))
  (at level 10, x pattern, m at level 99, k at level 200) : py_scope.
Notation "'seq!' m ';;' k" := (sbind m (fun _ => k))
  (at level 10, m at level 99, k at level 200) : py_scope.

(** [for x in l: f(x)] *)
Fixpoint sfor {S E A : Type} (f : A -> M S E unit) (l : list A) : M S E unit :=
  match l with
  | [] => sret tt
  | x :: l => seq! f x ;; sfor f l
  end.

(** Python's [x or y] on optional values and on strings. *)
Definition str_or (s t : string) : string := if decide (s = "") then t else s.
Definition str_truthy (s : string) : bool := bool_decide (s <> "").
Definition opt_truthy (o : option string) : bool :=
  match o with
  | Some s => str_truthy s
  | None => false
  end.

(** [max(items, default=d)] on integers. *)
Definition zmax_list (d : Z) (l : list Z) : Z :=
  match l with
  | [] => d
  | x :: l => foldl Z.max x l
  end.

(** ** The tactics of the development *)

(** Split the [rbind]s and guards of a hypothesis [H : m = Ok _] down to its facts. *)
Ltac inv_res H :=
  unfold rmap, rguard in H;
  repeat (
    simpl in H;
    match type of H with
    | rbind ?m _ = _ =>
        let E := fresh "E" in
        let a := fresh "a" in
        destruct m as [a|] eqn:E; simpl in H; [|discriminate H]
    | (if ?c then _ else _) = _ =>
        let E := fresh "E" in destruct c eqn:E; try discriminate H
    | Ok _ = Ok _ => injection H as H
    | Raise _ = Ok _ => discriminate H
    end).

(** Decide every boolean test of the goal and of the context, then try arithmetic. *)
Ltac bool_to_prop :=
  repeat match goal with
  | H : (_ && _) = true |- _ => apply andb_true_iff in H as [? ?]
  | H : (_ || _) = false |- _ => apply orb_false_iff in H as [? ?]
  | H : negb _ = true |- _ => apply negb_true_iff in H
  | H : negb _ = false |- _ => apply negb_false_iff in H
  | H : bool_decide _ = true |- _ => apply bool_decide_eq_true in H
  | H : bool_decide _ = false |- _ => apply bool_decide_eq_false in H
  | H : (_ =? _)%Z = true |- _ => apply Z.eqb_eq in H
  | H : (_ =? _)%Z = false |- _ => apply Z.eqb_neq in H
  | H : (_ <=? _)%Z = true |- _ => apply Z.leb_le in H
  | H : (_ <=? _)%Z = false |- _ => apply Z.leb_gt in H
  | H : (_ <? _)%Z = true |- _ => apply Z.ltb_lt in H
  | H : (_ <? _)%Z = false |- _ => apply Z.ltb_ge in H
  | H : (_ >? _)%Z = true |- _ => rewrite Z.gtb_ltb in H; apply Z.ltb_lt in H
  | H : (_ >? _)%Z = false |- _ => rewrite Z.gtb_ltb in H; apply Z.ltb_ge in H
  | H : (_ >=? _)%Z = true |- _ => rewrite Z.geb_leb in H; apply Z.leb_le in H
  | H : (_ >=? _)%Z = false |- _ => rewrite Z.geb_leb in H; apply Z.leb_gt in H
  end.

Ltac case_if :=
  match goal with
  | |- context [if ?c then _ else _] =>
      let E := fresh "E" in destruct c eqn:E
  end.

(** The database of facts that close the routine goals of the components. *)
Create HintDb pal discriminated.
#[export] Hint Extern 1 (_ <= _)%Z => lia : pal.
#[export] Hint Extern 1 (_ < _)%Z => lia : pal.

(** ** Shared lemmas *)

Lemma rbind_ok {E A B} (m : res E A) (f : A -> res E B) b :
  rbind m f = Ok b <-> exists a, m = Ok a /\ f a = Ok b.
Proof. destruct m; simpl; naive_solver. Qed.

Lemma rbind_assoc {E A B C} (m : res E A) (f : A -> res E B) (g : B -> res E C) :
  rbind (rbind m f) g = rbind m (fun a => rbind (f a) g).
Proof. by destruct m. Qed.

Lemma rguard_ok {E} c (e : E) : rguard c e = Ok tt <-> c = false.
Proof. destruct c; simpl; naive_solver. Qed.

Lemma raise_if_ok {E A} c (e : E) (k : res E A) b :
  rbind (rguard c e) (fun _ => k) = Ok b <-> c = false /\ k = Ok b.
Proof. destruct c; simpl; naive_solver. Qed.

(** An invariant kept by the body of a loop is kept by the loop. *)
Lemma rfold_inv {E A S} (P : S -> Prop) (f : S -> A -> res E S) l s s' :
  P s ->
  (forall s x s', x ∈ l -> P s -> f s x = Ok s' -> P s') ->
  rfold f s l = Ok s' -> P s'.
Proof.
  revert s. induction l as [|x l IH]; intros s Hs Hf H; simpl in H; [naive_solver|].
  apply rbind_ok in H as (s1 & H1 & H2).
  eapply IH; [|intros; eapply Hf; [by apply list_elem_of_further|done..]|exact H2].
  eapply Hf; [apply list_elem_of_here|done..].
Qed.

Lemma foldl_inv {A S} (P : S -> Prop) (f : S -> A -> S) l s :
  P s -> (forall s x, x ∈ l -> P s -> P (f s x)) -> P (foldl f s l).
Proof.
  revert s. induction l as [|x l IH]; intros s Hs Hf; simpl; [done|].
  apply IH; [apply Hf; [apply list_elem_of_here|done]|]. intros; apply Hf; [by apply list_elem_of_further|done].
Qed.

(** A loop whose body never raises on good states never raises. *)
Lemma rfold_total {E A S} (P : S -> Prop) (f : S -> A -> res E S) l s :
  P s ->
  (forall s x, x ∈ l -> P s -> exists s', f s x = Ok s' /\ P s') ->
  exists s', rfold f s l = Ok s' /\ P s'.
Proof.
  revert s. induction l as [|x l IH]; intros s Hs Hf; simpl; [eauto|].
  destruct (Hf s x) as (s1 & -> & H1); [apply list_elem_of_here|done|].
  apply IH; [done|]. intros; apply Hf; [by apply list_elem_of_further|done].
Qed.

Lemma rfold_app {E A S} (f : S -> A -> res E S) l1 l2 s :
  rfold f s (l1 ++ l2) = rbind (rfold f s l1) (fun s' => rfold f s' l2).
Proof.
  revert s. induction l1 as [|x l1 IH]; intros s; simpl; [done|].
  destruct (f s x); simpl; auto.
Qed.

Lemma rmapM_ok {E A B} (f : A -> res E B) l ys :
  rmapM f l = Ok ys <-> Forall2 (fun x y => f x = Ok y) l ys.
Proof.
  revert ys. induction l as [|x l IH]; intros ys; simpl.
  { split; [intros [= <-]; constructor|]. by intros H%Forall2_nil_inv_l; subst. }
  rewrite rbind_ok. setoid_rewrite rbind_ok. split.
  - intros (y & Hy & ys' & Hys & [= <-]). constructor; [done|by apply IH].
  - intros (y & ys' & Hy & Hys & ->)%Forall2_cons_inv_l.
    exists y; split; [done|]. exists ys'; split; [by apply IH|done].
Qed.

Lemma rmapM_map {E A B} (f : A -> res E B) (g : B -> A) ys :
  (forall y, y ∈ ys -> f (g y) = Ok y) -> rmapM f (g <$> ys) = Ok ys.
Proof.
  intros H. apply rmapM_ok. induction ys as [|y ys IH]; simpl; constructor.
  - apply H, list_elem_of_here.
  - apply IH. intros; apply H. by apply list_elem_of_further.
Qed.

Lemma str_truthy_spec s : str_truthy s = true <-> s <> "".
Proof. unfold str_truthy. apply bool_decide_eq_true. Qed.

Lemma foldl_max_ge l a : (a <= foldl Z.max a l)%Z.
Proof.
  revert a. induction l as [|x l IH]; intros a; simpl; [lia|].
  etransitivity; [|apply IH]. lia.
Qed.

Lemma foldl_max_elem l a x : x ∈ l -> (x <= foldl Z.max a l)%Z.
Proof.
  revert a. induction l as [|y l IH]; intros a; [by intros ?%elem_of_nil|].
  intros [->|H]%elem_of_cons; simpl; [|by apply IH].
  etransitivity; [|apply foldl_max_ge]. lia.
Qed.

Lemma zmax_list_ge d l x : x ∈ l -> (x <= zmax_list d l)%Z.
Proof.
  destruct l as [|y l]; [by intros ?%elem_of_nil|].
  intros [->|H]%elem_of_cons; simpl; [apply foldl_max_ge|by apply foldl_max_elem].
Qed.

(** ** Reasoning about code with state

    [keeps R m]: whatever [m] does, raising included, relates the state before to
    the state after by the preorder [R].  [triple P m Q]: from a state in [P], [m]
    ends with an outcome and a state in [Q]. *)
Definition keeps {S E A : Type} (R : relation S) (m : M S E A) : Prop :=
  forall s, R s (m s).1.

Definition triple {S E A : Type} (P : S -> Prop) (m : M S E A) (Q : res E A -> S -> Prop) : Prop :=
  forall s, P s -> Q (m s).2 (m s).1.

Section keeps.
Context {S E : Type} (R : relation S) `{!PreOrder R}.

Lemma keeps_ret {A} (a : A) : keeps (E := E) R (sret a).
Proof. intros s. reflexivity. Qed.

Lemma keeps_throw {A} (e : E) : keeps (A := A) R (sthrow e).
Proof. intros s. reflexivity. Qed.

Lemma keeps_get : keeps (E := E) R sget.
Proof. intros s. reflexivity. Qed.

Lemma keeps_lift {A} (r : res E A) : keeps R (slift r).
Proof. intros s. reflexivity. Qed.

Lemma keeps_guard c (e : E) : keeps R (sguard c e).
Proof. intros s. destruct c; reflexivity. Qed.

Lemma keeps_bind {A B} (m : M S E A) (k : A -> M S E B) :
  keeps R m -> (forall a, keeps R (k a)) -> keeps R (sbind m k).
Proof.
  intros Hm Hk s. specialize (Hm s). unfold sbind. destruct (m s) as [s' [a|e]]; simpl in *; [|done].
  etransitivity; [exact Hm|apply Hk].
Qed.

Lemma keeps_for {A} (f : A -> M S E unit) l :
  (forall x, x ∈ l -> keeps R (f x)) -> keeps R (sfor f l).
Proof.
  induction l as [|x l IH]; intros H; simpl; [apply keeps_ret|].
  apply keeps_bind; [apply H, list_elem_of_here|]. intros _. apply IH.
  intros; apply H. by apply list_elem_of_further.
Qed.
End keeps.

Lemma triple_bind {S E A B} (P : S -> Prop) (m : M S E A) (k : A -> M S E B)
    (I : A -> S -> Prop) (Q : res E B -> S -> Prop) :
  triple P m (fun r s => match r with Ok a => I a s | Raise e => Q (Raise e) s end) ->
  (forall a, triple (I a) (k a) Q) -> triple P (sbind m k) Q.
Proof.
  intros Hm Hk s Hs. specialize (Hm s Hs). unfold sbind.
  destruct (m s) as [s' [a|e]]; simpl in *; [|done]. by apply Hk.
Qed.

Lemma triple_for {S E A} (P : S -> Prop) (f : A -> M S E unit) l :
  (forall x, x ∈ l -> triple P (f x) (fun r s => r = Ok tt /\ P s)) ->
  triple P (sfor f l) (fun r s => r = Ok tt /\ P s).
Proof.
  induction l as [|x l IH]; intros H; simpl; [by intros s Hs|].
  eapply (triple_bind _ _ _ (fun _ => P)).
  - intros s Hs. destruct (H x (list_elem_of_here _ _) s Hs) as [-> ?]. done.
  - intros _. apply IH. intros; apply H. by apply list_elem_of_further.
Qed.

(** A loop whose invariant speaks of the elements still to visit. *)
Lemma triple_for_todo {S E A} (I : list A -> S -> Prop) (f : A -> M S E unit) l :
  (forall x l, triple (I (x :: l)) (f x) (fun r s => r = Ok tt /\ I l s)) ->
  triple (I l) (sfor f l) (fun r s => r = Ok tt /\ I [] s).
Proof.
  intros H. induction l as [|x l IH]; simpl; [by intros s Hs|].
  eapply (triple_bind _ _ _ (fun _ => I l)).
  - intros s Hs. destruct (H x l s Hs) as [-> ?]. done.
  - intros _. exact IH.
Qed.

#[export] Hint Resolve keeps_ret keeps_throw keeps_get keeps_lift keeps_guard : pal.
