(* ===== verification/Dict.v ===== *)
(** * Insertion-ordered dictionaries

    Python's [dict] (and [OrderedDict]) as the program uses them: a list of
    key/value pairs in insertion order.  Updating a present key keeps its place,
    a fresh key goes to the end, [pop] removes a key, iteration follows the list. *)

From S2P Require Import Prelude.

Abbreviation dict K V := (list (K * V)).

Section operations.
Context {K V : Type} `{EqDecision K}.
Implicit Types (k : K) (v : V) (d : dict K V).

(** [d.get(k)] *)
Fixpoint dget k d : option V :=
  match d with
  | [] => None
  | (k', v) :: d => if decide (k' = k) then Some v else dget k d
  end.

(** [d[k] = v] *)
Fixpoint dset k v d : dict K V :=
  match d with
  | [] => [(k, v)]
  | (k', v') :: d => if decide (k' = k) then (k, v) :: d else (k', v') :: dset k v d
  end.

(** [d.pop(k, None)] *)
Definition ddel k d : dict K V := filter (fun p => p.1 <> k) d.

(** [k in d] *)
Definition dmem k d : bool :=
  match dget k d with
  | Some _ => true
  | None => false
  end.

Definition dkeys d : list K := fst <$> d.
Definition dvals d : list V := snd <$> d.

(** [d.setdefault(k, v)]: the dictionary after the call. *)
Definition dsetdefault k v d : dict K V :=
  match dget k d with
  | Some _ => d
  | None => dset k v d
  end.

(** [d.move_to_end(k)] of an [OrderedDict], for a present key. *)
Definition dmove_to_end k d : dict K V :=
  match dget k d with
  | Some v => ddel k d ++ [(k, v)]
  | None => d
  end.

(** The keys of a Python dictionary are distinct. *)
Definition dwf d : Prop := NoDup (dkeys d).

End operations.

Section laws.
Context {K V : Type} `{EqDecision K}.
Implicit Types (k : K) (v : V) (d : dict K V).

Lemma dget_dset k k' v d :
  dget k' (dset k v d) = if decide (k = k') then Some v else dget k' d.
Proof.
  induction d as [|[k0 v0] d IH]; simpl; [by repeat case_decide; subst|].
  destruct (decide (k0 = k)) as [->|Hne]; simpl.
  - by case_decide.
  - rewrite IH. repeat case_decide; congruence.
Qed.

Lemma dget_dset_eq k v d : dget k (dset k v d) = Some v.
Proof. rewrite dget_dset. by case_decide. Qed.

Lemma dget_dset_ne k k' v d : k <> k' -> dget k' (dset k v d) = dget k' d.
Proof. rewrite dget_dset. by case_decide. Qed.

Lemma dset_dset k v w d : dset k w (dset k v d) = dset k w d.
Proof.
  induction d as [|[k0 v0] d IH]; simpl; [by case_decide|].
  destruct (decide (k0 = k)) as [->|Hne]; simpl; [by case_decide|].
  case_decide; [done|]. by rewrite IH.
Qed.

Lemma dget_ddel k k' d :
  dget k' (ddel k d) = if decide (k = k') then None else dget k' d.
Proof.
  unfold ddel. induction d as [|[k0 v0] d IH]; simpl; [by case_decide|].
  rewrite filter_cons; simpl.
  destruct (decide (k0 <> k)) as [Hne|Heq]; simpl; rewrite ?IH.
  - repeat case_decide; congruence.
  - apply dec_stable in Heq. subst. by case_decide.
Qed.

Lemma dget_ddel_eq k d : dget k (ddel k d) = None.
Proof. rewrite dget_ddel. by case_decide. Qed.

Lemma dget_ddel_ne k k' d : k <> k' -> dget k' (ddel k d) = dget k' d.
Proof. rewrite dget_ddel. by case_decide. Qed.

Lemma dget_app k d1 d2 :
  dget k (d1 ++ d2) = match dget k d1 with Some v => Some v | None => dget k d2 end.
Proof. induction d1 as [|[k0 v0] d1 IH]; simpl; [done|]. by case_decide. Qed.

Lemma dget_elem k v d : dget k d = Some v -> (k, v) ∈ d.
Proof.
  induction d as [|[k0 v0] d IH]; simpl; [done|].
  case_decide; intros; simplify_eq; rewrite elem_of_cons; auto.
Qed.

Lemma dget_None k d : dget k d = None <-> k ∉ dkeys d.
Proof.
  induction d as [|[k0 v0] d IH]; simpl.
  { split; [intros _ ?%elem_of_nil|]; done. }
  rewrite elem_of_cons. case_decide; naive_solver.
Qed.

Lemma dget_is_Some k d : is_Some (dget k d) <-> k ∈ dkeys d.
Proof.
  rewrite <- not_eq_None_Some, dget_None. split; [|naive_solver].
  intros H. by destruct (decide (k ∈ dkeys d)).
Qed.

Lemma dmem_spec k d : dmem k d = true <-> k ∈ dkeys d.
Proof.
  unfold dmem. rewrite <- dget_is_Some. destruct (dget k d); split; eauto; done.
Qed.

Lemma dmem_false k d : dmem k d = false <-> dget k d = None.
Proof. unfold dmem. by destruct (dget k d). Qed.

Lemma dmem_true k d : dmem k d = true <-> exists v, dget k d = Some v.
Proof. unfold dmem. destruct (dget k d); naive_solver. Qed.

Lemma elem_dget k v d : dwf d -> (k, v) ∈ d -> dget k d = Some v.
Proof.
  unfold dwf. induction d as [|[k0 v0] d IH]; simpl; [by intros _ ?%elem_of_nil|].
  intros [Hn Hd]%NoDup_cons [H|H]%elem_of_cons; simplify_eq; [by case_decide|].
  case_decide; [|by apply IH]. subst. exfalso. apply Hn.
  by apply (list_elem_of_fmap_2 fst) in H.
Qed.

Lemma dkeys_cons k v d : dkeys ((k, v) :: d) = k :: dkeys d.
Proof. done. Qed.

Lemma dkeys_dset k v d :
  dkeys (dset k v d) = if decide (k ∈ dkeys d) then dkeys d else dkeys d ++ [k].
Proof.
  induction d as [|[k0 v0] d IH].
  { destruct (decide (k ∈ dkeys [])) as [H|H]; [by apply elem_of_nil in H|done]. }
  cbn [dset]. destruct (decide (k0 = k)) as [->|Hne]; rewrite !dkeys_cons.
  - destruct (decide (k ∈ k :: dkeys d)) as [H|H]; [done|].
    exfalso. apply H, list_elem_of_here.
  - rewrite IH. destruct (decide (k ∈ dkeys d)), (decide (k ∈ k0 :: dkeys d));
      rewrite ?elem_of_cons in *; naive_solver.
Qed.

Lemma elem_dkeys_dset k k' v d : k' ∈ dkeys (dset k v d) <-> k' = k \/ k' ∈ dkeys d.
Proof.
  rewrite dkeys_dset. destruct (decide (k ∈ dkeys d)); [naive_solver|].
  rewrite elem_of_app, list_elem_of_singleton. naive_solver.
Qed.

Lemma dkeys_ddel k d : dkeys (ddel k d) = filter (fun k' => k' <> k) (dkeys d).
Proof.
  unfold ddel. induction d as [|[k0 v0] d IH]; simpl; [done|].
  rewrite !filter_cons; simpl. case_decide; simpl; by rewrite <- IH.
Qed.

Lemma elem_dkeys_ddel k k' d : k' ∈ dkeys (ddel k d) <-> k' <> k /\ k' ∈ dkeys d.
Proof. rewrite dkeys_ddel, list_elem_of_filter. done. Qed.

Lemma dwf_nil : dwf (@nil (K * V)).
Proof. constructor. Qed.

Lemma dwf_dset k v d : dwf d -> dwf (dset k v d).
Proof.
  unfold dwf. rewrite dkeys_dset. destruct (decide (k ∈ dkeys d)); [done|]. intros Hd.
  apply NoDup_app. split; [done|]. split; [|apply NoDup_singleton].
  intros x Hx ->%list_elem_of_singleton. done.
Qed.

Lemma dwf_ddel k d : dwf d -> dwf (ddel k d).
Proof. unfold dwf. rewrite dkeys_ddel. apply NoDup_filter. Qed.

Lemma dwf_filter (P : K * V -> Prop) `{forall x, Decision (P x)} d :
  dwf d -> dwf (filter P d).
Proof.
  unfold dwf. induction d as [|p d IH]; simpl; [done|].
  intros [Hn Hd]%NoDup_cons. rewrite filter_cons. case_decide; [|auto].
  simpl. apply NoDup_cons. split; [|auto].
  intros (q & Hpq & Hq)%list_elem_of_fmap. apply Hn. rewrite Hpq.
  apply list_elem_of_filter in Hq as [_ Hq]. by apply (list_elem_of_fmap_2 fst).
Qed.

Lemma dget_filter (P : K * V -> Prop) `{forall x, Decision (P x)} k d :
  dwf d ->
  dget k (filter P d) =
    match dget k d with Some v => if decide (P (k, v)) then Some v else None | None => None end.
Proof.
  intros Hd. destruct (dget k d) as [v|] eqn:E.
  - case_decide as HP.
    + apply elem_dget; [by apply dwf_filter|]. apply list_elem_of_filter.
      split; [done|]. by apply dget_elem.
    + apply dget_None. intros Hk. apply dget_is_Some in Hk as [v' Hv'].
      apply dget_elem, list_elem_of_filter in Hv' as [HP' Hv'].
      apply (elem_dget _ _ _ Hd) in Hv'. congruence.
  - apply dget_None. intros Hk. apply dget_is_Some in Hk as [v' Hv'].
    apply dget_elem, list_elem_of_filter in Hv' as [_ Hv'].
    apply (elem_dget _ _ _ Hd) in Hv'. congruence.
Qed.

(** A filter on the keys. *)
Lemma dget_filter_key (P : K -> Prop) `{forall k, Decision (P k)} k d :
  dget k (filter (fun p => P p.1) d) = if decide (P k) then dget k d else None.
Proof.
  induction d as [|[k' v] d IH]; [by case_decide|]. rewrite filter_cons. cbn [fst].
  destruct (decide (P k')) as [Hp|Hp]; simpl; rewrite ?IH; destruct (decide (k' = k)) as [->|]; try done.
  - by destruct (decide (P k)).
  - by destruct (decide (P k)).
Qed.

Lemma elem_dset k v d p : p ∈ dset k v d -> p = (k, v) \/ p ∈ d.
Proof.
  induction d as [|[k' v'] d IH]; simpl; [intros H; left; by apply list_elem_of_singleton in H|].
  destruct (decide (k' = k)); intros [->|H]%elem_of_cons.
  - by left.
  - right. by right.
  - right. by left.
  - destruct (IH H); [by left|right; by right].
Qed.

Lemma dset_fresh k v d : k ∉ dkeys d -> dset k v d = d ++ [(k, v)].
Proof.
  induction d as [|[k' v'] d IH]; simpl; [done|]. intros H. unfold dkeys in H. simpl in H.
  apply not_elem_of_cons in H as [H1 H2]. rewrite decide_False by done. by rewrite IH.
Qed.

Lemma ddel_absent k d : dget k d = None -> ddel k d = d.
Proof.
  induction d as [|[k' v'] d IH]; simpl; [done|]. case_decide as Hk; [done|]. intros H. unfold ddel.
  rewrite filter_cons_True by done. f_equal. by apply IH.
Qed.

Lemma length_dset k v d :
  length (dset k v d) = if dmem k d then length d else S (length d).
Proof.
  unfold dmem. induction d as [|[k0 v0] d IH]; simpl; [done|].
  case_decide; simpl; [done|]. rewrite IH. by destruct (dget k d).
Qed.

Lemma elem_dvals v d : v ∈ dvals d <-> exists k, (k, v) ∈ d.
Proof.
  unfold dvals. rewrite list_elem_of_fmap. split.
  - intros ([k v'] & -> & H). eauto.
  - intros [k H]. by exists (k, v).
Qed.

Lemma Forall_dset (P : K * V -> Prop) k v d :
  P (k, v) -> Forall P d -> Forall P (dset k v d).
Proof.
  intros Hk Hd. induction Hd as [|[k0 v0] d H0 Hd IH]; simpl; [by constructor|].
  case_decide; by constructor.
Qed.

Lemma Forall_ddel (P : K * V -> Prop) k d : Forall P d -> Forall P (ddel k d).
Proof. intros H. apply Forall_forall. intros x [_ Hx]%list_elem_of_filter. by eapply Forall_forall in H. Qed.

Lemma dsetdefault_get k v k' d :
  dget k' (dsetdefault k v d) =
    match dget k' d with Some w => Some w | None => if decide (k = k') then Some v else None end.
Proof.
  unfold dsetdefault. destruct (dget k d) eqn:E.
  - destruct (dget k' d) eqn:E'; [done|]. case_decide; congruence.
  - rewrite dget_dset. case_decide; subst; [by rewrite E|]. by destruct (dget k' d).
Qed.

Lemma dwf_dsetdefault k v d : dwf d -> dwf (dsetdefault k v d).
Proof. unfold dsetdefault. destruct (dget k d); auto using dwf_dset. Qed.

Lemma dget_move_to_end k k' d : dget k' (dmove_to_end k d) = dget k' d.
Proof.
  unfold dmove_to_end. destruct (dget k d) as [v|] eqn:E; [|done].
  rewrite dget_app, dget_ddel. simpl. case_decide; subst.
  - by rewrite E.
  - by destruct (dget k' d).
Qed.

Lemma dwf_move_to_end k d : dwf d -> dwf (dmove_to_end k d).
Proof.
  unfold dmove_to_end. destruct (dget k d) as [v|] eqn:E; [|done]. intros Hd.
  unfold dwf, dkeys. rewrite fmap_app. simpl.
  apply NoDup_app. split; [by apply dwf_ddel|]. split; [|apply NoDup_singleton].
  intros x Hx ->%list_elem_of_singleton. by apply elem_dkeys_ddel in Hx as [? _].
Qed.

End laws.

#[export] Hint Resolve dwf_nil dwf_dset dwf_ddel dwf_dsetdefault dwf_move_to_end : pal.

(** [dict.fromkeys(l)] *)
Definition remove_dups_keep_first (l : list string) : list string :=
  foldl (fun acc x => if decide (x ∈ acc) then acc else acc ++ [x]) [] l.

Lemma fromkeys_spec l acc :
  NoDup acc ->
  NoDup (foldl (fun acc x => if decide (x ∈ acc) then acc else acc ++ [x]) acc l) /\
  forall x, x ∈ foldl (fun acc x => if decide (x ∈ acc) then acc else acc ++ [x]) acc l <-> x ∈ acc \/ x ∈ (l : list string).
Proof.
  revert acc. induction l as [|y l IH]; intros acc Hnd; simpl; [split; [done|set_solver]|]. case_decide as Hy.
  - destruct (IH acc Hnd) as [H1 H2]. split; [done|]. intros x. rewrite H2. set_solver.
  - destruct (IH (acc ++ [y])) as [H1 H2].
    { apply NoDup_app. split_and!; [done|set_solver|apply NoDup_singleton]. }
    split; [done|]. intros x. rewrite H2. set_solver.
Qed.

Lemma elem_of_remove_dups_keep_first x l : x ∈ remove_dups_keep_first l <-> x ∈ l.
Proof. unfold remove_dups_keep_first. rewrite (proj2 (fromkeys_spec l [] (NoDup_nil_2))). set_solver. Qed.

Lemma NoDup_remove_dups_keep_first l : NoDup (remove_dups_keep_first l).
Proof. apply fromkeys_spec, NoDup_nil_2. Qed.

(** ** Sums over dictionaries *)

Section sums.
Local Open Scope Z_scope.
Context {K V : Type} `{EqDecision K} (g : V -> Z).

Definition dsum (d : dict K V) : Z := foldr (fun p n => g p.2 + n) 0 d.

Lemma dsum_fresh k v d : dget k d = None -> dsum (dset k v d) = dsum d + g v.
Proof.
  induction d as [|[k' v'] d IH]; simpl; [lia|]. case_decide as Hk; [done|]. intros H. simpl. rewrite IH by done. lia.
Qed.

Lemma dsum_replace k v v0 d : dget k d = Some v0 -> dsum (dset k v d) = dsum d - g v0 + g v.
Proof.
  induction d as [|[k' v'] d IH]; simpl; [done|]. case_decide as Hk; [intros [= ->]; simpl; lia|].
  intros H. simpl. rewrite IH by done. lia.
Qed.

Lemma dsum_ddel k v d : dwf d -> dget k d = Some v -> dsum (ddel k d) = dsum d - g v.
Proof.
  unfold dwf. induction d as [|[k' v'] d IH]; [done|]. rewrite dkeys_cons, NoDup_cons. intros [Hn Hd]. simpl.
  unfold ddel. case_decide as Hk.
  - intros [= ->]. subst. rewrite filter_cons_False by (simpl; tauto).
    change (filter _ d) with (ddel k d). rewrite ddel_absent by (by apply dget_None). lia.
  - intros H. rewrite filter_cons_True by done. simpl. change (filter _ d) with (ddel k d). rewrite IH by done. lia.
Qed.
End sums.

Lemma dsum_mono {V} (g h : V -> Z) (d : dict string V) :
  dwf d -> (forall k v, dget k d = Some v -> (g v <= h v)%Z) -> (dsum g d <= dsum h d)%Z.
Proof.
  intros Hwf Hle. assert (Hall : Forall (fun p => (g p.2 <= h p.2)%Z) d).
  { apply Forall_forall. intros [k v] Hin. apply (Hle k). by apply elem_dget. }
  clear Hwf Hle. induction Hall as [|p d Hp _ IH]; simpl; lia.
Qed.

(** A dictionary whose entries are covered by those of another has the smaller sum. *)
Lemma dsum_covered {V W} (g : V -> Z) (h : W -> Z) (d1 : dict string V) (d2 : dict string W) :
  dwf d1 -> dwf d2 -> (forall k w, dget k d2 = Some w -> (0 <= h w)%Z) ->
  (forall k v, dget k d1 = Some v -> exists w, dget k d2 = Some w /\ (g v <= h w)%Z) -> (dsum g d1 <= dsum h d2)%Z.
Proof.
  revert d2. induction d1 as [|[k v] d1 IH]; intros d2 Hw1 Hw2 Hpos Hc; simpl.
  - clear Hc Hw1. induction d2 as [|[k w] d2 IH2]; simpl; [lia|]. unfold dwf in Hw2. rewrite dkeys_cons, NoDup_cons in Hw2.
    destruct Hw2 as [Hn Hw2]. assert (0 <= h w)%Z by (apply (Hpos k); simpl; by rewrite decide_True).
    assert (0 <= dsum h d2)%Z; [|lia]. apply IH2; [done|]. intros k' w' Hg. apply (Hpos k'). simpl.
    rewrite decide_False; [done|]. intros ->. apply Hn, dget_is_Some. by eexists.
  - unfold dwf in Hw1. rewrite dkeys_cons, NoDup_cons in Hw1. destruct Hw1 as [Hn Hw1].
    destruct (Hc k v) as (w & Hw & Hle); [simpl; by rewrite decide_True|].
    pose proof (dsum_ddel h k w d2 Hw2 Hw) as Hs. assert (dsum g d1 <= dsum h (ddel k d2))%Z; [|lia].
    apply IH; [done|by apply dwf_ddel| |].
    + intros k' w'. rewrite dget_ddel. case_decide; [done|]. apply Hpos.
    + intros k' v' Hg. assert (Hne : k <> k') by (intros ->; apply Hn, dget_is_Some; by eexists).
      destruct (Hc k' v') as (w' & Hw' & ?); [simpl; by rewrite decide_False|]. exists w'. by rewrite dget_ddel_ne.
Qed.
