(* ===== verification/Utf8.v ===== *)
(** * Text and its UTF-8 encoding

    File contents are Python strings: lists of code points.  [str.encode("utf-8")]
    fails on lone surrogates, [bytes.decode("utf-8")] is strict.  Identifiers, paths
    and digests are [string]s of UTF-8 bytes. *)

From S2P Require Import Prelude.
From Stdlib Require Import Ascii.
Open Scope Z_scope.

Abbreviation text := (list Z).
Abbreviation bytes := (list Z).

(** Code points that UTF-8 can carry. *)
Definition scalar (c : Z) : bool :=
  (0 <=? c) && (c <=? 1114111) && negb ((55296 <=? c) && (c <=? 57343)).

Definition encode_char (c : Z) : bytes :=
  if c <? 128 then [c]
  else if c <? 2048 then [192 + c / 64; 128 + c mod 64]
  else if c <? 65536 then [224 + c / 4096; 128 + (c / 64) mod 64; 128 + c mod 64]
  else [240 + c / 262144; 128 + (c / 4096) mod 64; 128 + (c / 64) mod 64; 128 + c mod 64].

(** [t.encode("utf-8")]; [None] is [UnicodeEncodeError]. *)
Fixpoint utf8_encode (t : text) : option bytes :=
  match t with
  | [] => Some []
  | c :: t => if scalar c then (app (encode_char c)) <$> utf8_encode t else None
  end.

Definition continuation (b : Z) : bool := (128 <=? b) && (b <=? 191).

(** [bs.decode("utf-8")]; [None] is [UnicodeDecodeError]. *)
Fixpoint utf8_decode (bs : bytes) : option text :=
  match bs with
  | [] => Some []
  | b0 :: r0 =>
      if (0 <=? b0) && (b0 <? 128) then (cons b0) <$> utf8_decode r0
      else
        match r0 with
        | [] => None
        | b1 :: r1 =>
            if negb (continuation b1) then None
            else if (192 <=? b0) && (b0 <? 224) then
              let c := (b0 - 192) * 64 + (b1 - 128) in
              if 128 <=? c then (cons c) <$> utf8_decode r1 else None
            else
              match r1 with
              | [] => None
              | b2 :: r2 =>
                  if negb (continuation b2) then None
                  else if (224 <=? b0) && (b0 <? 240) then
                    let c := (b0 - 224) * 4096 + (b1 - 128) * 64 + (b2 - 128) in
                    if (2048 <=? c) && scalar c then (cons c) <$> utf8_decode r2 else None
                  else
                    match r2 with
                    | [] => None
                    | b3 :: r3 =>
                        if negb (continuation b3) then None
                        else if (240 <=? b0) && (b0 <? 248) then
                          let c := (b0 - 240) * 262144 + (b1 - 128) * 4096 + (b2 - 128) * 64
                                   + (b3 - 128) in
                          if (65536 <=? c) && scalar c then (cons c) <$> utf8_decode r3 else None
                        else None
                    end
              end
        end
  end.

(** The bytes of an identifier. *)
Fixpoint string_bytes (s : string) : bytes :=
  match s with
  | EmptyString => []
  | String c s => Z.of_nat (nat_of_ascii c) :: string_bytes s
  end.

(** The text of a literal written in the source. *)
Definition lit (s : string) : text := string_bytes s.

(** ** Round trip *)

Lemma ltb_t a b : a < b -> (a <? b) = true.
Proof. apply Z.ltb_lt. Qed.
Lemma ltb_f a b : b <= a -> (a <? b) = false.
Proof. apply Z.ltb_ge. Qed.
Lemma leb_t a b : a <= b -> (a <=? b) = true.
Proof. apply Z.leb_le. Qed.

Lemma continuation_ok x : continuation (128 + x mod 64) = true.
Proof. unfold continuation. rewrite !leb_t; [done|..]; pose proof (Z.mod_pos_bound x 64); lia. Qed.

Lemma decode_encode_char c rest :
  scalar c = true -> utf8_decode (encode_char c ++ rest) = (cons c) <$> utf8_decode rest.
Proof.
  intros Hc. pose proof Hc as Hs. unfold scalar in Hs. bool_to_prop.
  unfold encode_char. destruct (c <? 128) eqn:E1; bool_to_prop.
  { simpl. by rewrite leb_t, ltb_t by lia. }
  destruct (c <? 2048) eqn:E2; bool_to_prop.
  { cbn [app utf8_decode]. rewrite continuation_ok; cbn [negb andb].
    rewrite (ltb_f (192 + c / 64)), andb_false_r by (pose proof (Z.div_pos c 64); lia).
    rewrite leb_t, ltb_t by (pose proof (Z.div_mod c 64); pose proof (Z.mod_pos_bound c 64); lia).
    cbn [andb]. replace ((192 + c / 64 - 192) * 64 + (128 + c mod 64 - 128)) with c
      by (pose proof (Z.div_mod c 64); lia).
    by rewrite leb_t by lia. }
  destruct (c <? 65536) eqn:E3; bool_to_prop.
  { cbn [app utf8_decode]. rewrite !continuation_ok; cbn [negb andb].
    assert (Hd : c = 4096 * (c / 4096) + 64 * ((c / 64) mod 64) + c mod 64).
    { replace (c / 4096) with (c / 64 / 64) by (rewrite Z.div_div by lia; done).
      pose proof (Z.div_mod c 64). pose proof (Z.div_mod (c / 64) 64). lia. }
    pose proof (Z.mod_pos_bound c 64). pose proof (Z.mod_pos_bound (c / 64) 64).
    rewrite (ltb_f (224 + c / 4096) 128), (ltb_f (224 + c / 4096) 224), !andb_false_r by lia.
    rewrite leb_t, ltb_t by lia. cbn [andb].
    replace (_ + _ + _) with c by lia. by rewrite leb_t, Hc by lia. }
  cbn [app utf8_decode]. rewrite !continuation_ok; cbn [negb andb].
  assert (Hd : c = 262144 * (c / 262144) + 4096 * ((c / 4096) mod 64) + 64 * ((c / 64) mod 64) + c mod 64).
  { replace (c / 262144) with (c / 4096 / 64) by (rewrite Z.div_div by lia; done).
    pose proof (Z.div_mod (c / 4096) 64).
    replace (c / 4096) with (c / 64 / 64) in * by (rewrite Z.div_div by lia; done).
    pose proof (Z.div_mod c 64). pose proof (Z.div_mod (c / 64) 64). lia. }
  pose proof (Z.mod_pos_bound c 64). pose proof (Z.mod_pos_bound (c / 64) 64).
  pose proof (Z.mod_pos_bound (c / 4096) 64).
  rewrite (ltb_f (240 + c / 262144) 128), (ltb_f (240 + c / 262144) 224),
    (ltb_f (240 + c / 262144) 240), !andb_false_r by lia.
  rewrite leb_t, ltb_t by lia. cbn [andb].
  replace (_ + _ + _ + _) with c by lia. by rewrite leb_t, Hc by lia.
Qed.

Lemma decode_encode t bs : utf8_encode t = Some bs -> utf8_decode bs = Some t.
Proof.
  revert bs. induction t as [|c t IH]; simpl; intros bs H; [by injection H as <-|].
  destruct (scalar c) eqn:Hc; [|done].
  destruct (utf8_encode t) as [bs'|]; simpl in H; [|done]. injection H as <-.
  rewrite decode_encode_char by done. by rewrite (IH bs').
Qed.

Lemma encode_inj t1 t2 bs : utf8_encode t1 = Some bs -> utf8_encode t2 = Some bs -> t1 = t2.
Proof. intros H1%decode_encode H2%decode_encode. congruence. Qed.

Lemma encode_scalar t : is_Some (utf8_encode t) <-> Forall (fun c => scalar c = true) t.
Proof.
  induction t as [|c t IH]; simpl; [split; eauto; by intros; constructor|].
  rewrite Forall_cons, <- IH. destruct (scalar c); [|split; [by intros [? ?]|naive_solver]].
  destruct (utf8_encode t); simpl; split; try naive_solver; by intros [? ?].
Qed.

Lemma scalar_low c : 0 <= c < 55296 -> scalar c = true.
Proof.
  intros H. unfold scalar. rewrite (leb_t 0), (leb_t c), (proj2 (Z.leb_gt 55296 c)) by lia. done.
Qed.

(** Strict decoding only produces text that encodes back. *)
Lemma decode_scalar_aux n bs t :
  (length bs <= n)%nat -> utf8_decode bs = Some t -> Forall (fun c => scalar c = true) t.
Proof.
  revert bs t. induction n as [|n IH]; intros bs t Hn H.
  { destruct bs; simpl in *; [injection H as <-; constructor|lia]. }
  destruct bs as [|b0 r0]; simpl in H; [injection H as <-; constructor|]. simpl in Hn.
  assert (Hrec : forall r c, (length r <= n)%nat -> scalar c = true ->
    (cons c) <$> utf8_decode r = Some t -> Forall (fun c => scalar c = true) t).
  { intros r c Hr Hc Ht. destruct (utf8_decode r) as [t'|] eqn:E; simpl in Ht; [|done].
    injection Ht as <-. constructor; [done|]. by eapply IH. }
  destruct ((0 <=? b0) && (b0 <? 128)) eqn:E0.
  { apply Hrec in H; [done|lia|]. bool_to_prop. apply scalar_low. lia. }
  destruct r0 as [|b1 r1]; [done|]. simpl in Hn.
  destruct (continuation b1) eqn:C1; simpl in H; [|done]. unfold continuation in C1.
  destruct ((192 <=? b0) && (b0 <? 224)) eqn:E1.
  { destruct (128 <=? (b0 - 192) * 64 + (b1 - 128)) eqn:E2; [|done]. apply Hrec in H; [done|lia|]. bool_to_prop.
    apply scalar_low. lia. }
  destruct r1 as [|b2 r2]; [done|]. simpl in Hn.
  destruct (continuation b2); simpl in H; [|done].
  destruct ((224 <=? b0) && (b0 <? 240)) eqn:E2.
  { destruct (_ && scalar _) eqn:E3; [|done]. bool_to_prop. apply Hrec in H; [done|lia|done]. }
  destruct r2 as [|b3 r3]; [done|]. simpl in Hn.
  destruct (continuation b3); simpl in H; [|done].
  destruct ((240 <=? b0) && (b0 <? 248)) eqn:E3; [|done].
  destruct (_ && scalar _) eqn:E4; [|done]. bool_to_prop. apply Hrec in H; [done|lia|done].
Qed.

Lemma decode_scalar bs t : utf8_decode bs = Some t -> is_Some (utf8_encode t).
Proof. intros H. apply encode_scalar. by eapply decode_scalar_aux. Qed.
