(* ===== verification/Sha256.v ===== *)
(** * SHA-256

    [hashlib.sha256] on byte strings, and its hexadecimal digest.  Words are
    integers modulo 2^32. *)

From S2P Require Import Prelude Utf8.
From Stdlib Require Import Ascii.
Open Scope Z_scope.

Definition w32 (x : Z) : Z := x mod 4294967296.
Definition add32 (a b : Z) : Z := w32 (a + b).
Definition rotr (n x : Z) : Z := w32 (Z.lor (Z.shiftr x n) (Z.shiftl x (32 - n))).
Definition not32 (x : Z) : Z := Z.lxor x 4294967295.

Definition sha_k : list Z := [
  1116352408; 1899447441; 3049323471; 3921009573; 961987163; 1508970993; 2453635748; 2870763221;
  3624381080; 310598401; 607225278; 1426881987; 1925078388; 2162078206; 2614888103; 3248222580;
  3835390401; 4022224774; 264347078; 604807628; 770255983; 1249150122; 1555081692; 1996064986;
  2554220882; 2821834349; 2952996808; 3210313671; 3336571891; 3584528711; 113926993; 338241895;
  666307205; 773529912; 1294757372; 1396182291; 1695183700; 1986661051; 2177026350; 2456956037;
  2730485921; 2820302411; 3259730800; 3345764771; 3516065817; 3600352804; 4094571909; 275423344;
  430227734; 506948616; 659060556; 883997877; 958139571; 1322822218; 1537002063; 1747873779;
  1955562222; 2024104815; 2227730452; 2361852424; 2428436474; 2756734187; 3204031479; 3329325298].

Definition sha_h0 : list Z := [
  1779033703; 3144134277; 1013904242; 2773480762; 1359893119; 2600822924; 528734635; 1541459225].

(** Big-endian conversions. *)
Definition be (n : nat) (x : Z) : list Z :=
  (fun i => Z.land (Z.shiftr x (8 * Z.of_nat i)) 255) <$> reverse (seq 0 n).
Fixpoint words (n : nat) (l : list Z) : list Z :=
  match n, l with
  | S n, a :: b :: c :: d :: l =>
      (Z.shiftl a 24 + Z.shiftl b 16 + Z.shiftl c 8 + d) :: words n l
  | _, _ => []
  end.

Definition pad (m : bytes) : bytes :=
  let n := Z.of_nat (length m) in
  m ++ [128] ++ replicate (Z.to_nat ((55 - n) mod 64)) 0 ++ be 8 (8 * n).

(** The message schedule, newest word first. *)
Fixpoint schedule (n : nat) (w : list Z) : list Z :=
  match n with
  | O => w
  | S n =>
      let g i := nth i w 0 in
      let s0 := Z.lxor (Z.lxor (rotr 7 (g 14%nat)) (rotr 18 (g 14%nat))) (Z.shiftr (g 14%nat) 3) in
      let s1 := Z.lxor (Z.lxor (rotr 17 (g 1%nat)) (rotr 19 (g 1%nat))) (Z.shiftr (g 1%nat) 10) in
      schedule n (w32 (g 15%nat + s0 + g 6%nat + s1) :: w)
  end.

Definition round (st : list Z) (kw : Z * Z) : list Z :=
  match st with
  | [a; b; c; d; e; f; g; h] =>
      let s1 := Z.lxor (Z.lxor (rotr 6 e) (rotr 11 e)) (rotr 25 e) in
      let ch := Z.lxor (Z.land e f) (Z.land (not32 e) g) in
      let t1 := w32 (h + s1 + ch + kw.1 + kw.2) in
      let s0 := Z.lxor (Z.lxor (rotr 2 a) (rotr 13 a)) (rotr 22 a) in
      let maj := Z.lxor (Z.lxor (Z.land a b) (Z.land a c)) (Z.land b c) in
      [add32 t1 (add32 s0 maj); a; b; c; add32 d t1; e; f; g]
  | _ => st
  end.

Definition compress (st : list Z) (block : bytes) : list Z :=
  let w := reverse (schedule 48 (reverse (words 16 block))) in
  zip_with add32 st (foldl round st (zip sha_k w)).

Fixpoint blocks (fuel : nat) (m : bytes) : list bytes :=
  match fuel with
  | O => []
  | S fuel => match m with [] => [] | _ => take 64 m :: blocks fuel (drop 64 m) end
  end.

Definition sha256 (m : bytes) : bytes :=
  let p := pad m in foldl compress sha_h0 (blocks (length p) p) ≫= be 4.

Definition hex_char (n : Z) : ascii :=
  ascii_of_nat (Z.to_nat (if n <? 10 then 48 + n else 87 + n)).
Fixpoint hex (l : bytes) : string :=
  match l with
  | [] => EmptyString
  | b :: l => String (hex_char (b / 16)) (String (hex_char (b mod 16)) (hex l))
  end.

(** [hashlib.sha256(m).hexdigest()] *)
Definition sha256_hex (m : bytes) : string := hex (sha256 m).

Example sha256_abc :
  sha256_hex (string_bytes "abc") = "ba7816bf8f01cfea414140de5dae2223b00361a396177a9cb410ff61f20015ad".
Proof. vm_compute. reflexivity. Qed.

Example sha256_two_blocks :
  sha256_hex (string_bytes "abcdbcdecdefdefgefghfghighijhijkijkljklmklmnlmnomnopnopq") =
    "248d6a61d20638b8e5c026930c3e6039a33ce45964ff2167f6ecedd419db06c1".
Proof. vm_compute. reflexivity. Qed.

(** ** The shape of a digest *)

Lemma be_length n x : length (be n x) = n.
Proof. unfold be. by rewrite length_fmap, length_reverse, length_seq. Qed.

Lemma be_bytes n x : Forall (fun b => 0 <= b < 256) (be n x).
Proof.
  unfold be. apply Forall_fmap, Forall_forall. intros i _. simpl. change 255 with (Z.ones 8).
  rewrite Z.land_ones by lia. apply Z.mod_pos_bound. lia.
Qed.

Lemma round_length st kw : length (round st kw) = length st.
Proof. do 9 (destruct st as [|? st]; [done|]). done. Qed.

Lemma compress_length st block : length (compress st block) = length st.
Proof.
  unfold compress. rewrite length_zip_with. assert (H : forall l s, length (foldl round s l) = length s).
  { induction l as [|x l IH]; intros s; simpl; [done|]. by rewrite IH, round_length. }
  rewrite H. lia.
Qed.

Lemma digest_words m : length (foldl compress sha_h0 m) = 8%nat.
Proof.
  assert (H : forall l s, length (foldl compress s l) = length s).
  { induction l as [|x l IH]; intros s; simpl; [done|]. by rewrite IH, compress_length. }
  by rewrite H.
Qed.

Lemma sha256_shape m : length (sha256 m) = 32%nat /\ Forall (fun b => 0 <= b < 256) (sha256 m).
Proof.
  unfold sha256. cbv zeta. pose proof (digest_words (blocks (length (pad m)) (pad m))) as H. split.
  - revert H. generalize (foldl compress sha_h0 (blocks (length (pad m)) (pad m))). intros l Hl.
    do 9 (destruct l as [|? l]; try discriminate Hl). cbn [mbind list_bind]. by rewrite !length_app, !be_length.
  - apply Forall_bind, Forall_forall. intros w _. apply be_bytes.
Qed.

Lemma hex_char_not_nul n : 0 <= n < 16 -> hex_char n <> zero.
Proof.
  intros H E. apply (f_equal nat_of_ascii) in E. unfold hex_char in E. rewrite nat_ascii_embedding in E.
  - change (nat_of_ascii zero) with 0%nat in E. destruct (n <? 10); lia.
  - destruct (n <? 10); lia.
Qed.

Lemma sha256_hex_shape m :
  String.length (sha256_hex m) = 64%nat /\ forall i c, String.get i (sha256_hex m) = Some c -> c <> zero.
Proof.
  unfold sha256_hex. destruct (sha256_shape m) as [Hl Hb]. split.
  - assert (H : forall l, String.length (hex l) = (2 * length l)%nat) by (induction l as [|x l IH]; simpl; lia).
    rewrite H, Hl. done.
  - clear Hl. induction Hb as [|b l Hb _ IH]; [by intros []|]. intros [|[|i]] c; simpl.
    + intros [= <-]. apply hex_char_not_nul. Z.to_euclidean_division_equations. lia.
    + intros [= <-]. apply hex_char_not_nul. Z.to_euclidean_division_equations. lia.
    + apply IH.
Qed.
