(* ===== verification/PyValue.v ===== *)
(** * Dynamic values

    The values that cross a serialization boundary: what [json.loads] and msgpack
    produce, without floating-point numbers.  Dictionaries keep insertion order and
    are read with [dict.get].  The coercions [int(x)], [str(x)] and [bool(x)] are
    Python's on these values; [int] of text accepts ASCII digits. *)

From S2P Require Import Prelude Dict.
From stdpp Require Export pretty.
From Stdlib Require Import Ascii.
Delimit Scope char_scope with char.
Open Scope Z_scope.

Inductive json :=
| JNull
| JBool (b : bool)
| JInt (z : Z)
| JStr (s : string)
| JList (l : list json)
| JObj (d : list (string * json)).

(** A dictionary with string keys. *)
Abbreviation obj := (list (string * json)).

(** [TypeError], [ValueError], [KeyError] and the like, raised by coercions. *)
Inductive py_error :=
| TypeError
| ValueError (what : string).

Definition truthy (v : json) : bool :=
  match v with
  | JNull => false
  | JBool b => b
  | JInt z => negb (z =? 0)
  | JStr s => str_truthy s
  | JList l => match l with [] => false | _ => true end
  | JObj d => match d with [] => false | _ => true end
  end.

(** [d.get(k)] with [None] for a missing key. *)
Definition jget (k : string) (d : list (string * json)) : json := default JNull (dget k d).

(** [x or y] *)
Definition jor (x y : json) : json := if truthy x then x else y.

(** ** [int(x)] *)

Definition is_space (c : Ascii.ascii) : bool :=
  let n := Z.of_nat (Ascii.nat_of_ascii c) in ((9 <=? n) && (n <=? 13)) || ((28 <=? n) && (n <=? 32)).

Definition digit (c : Ascii.ascii) : option Z :=
  let n := Z.of_nat (Ascii.nat_of_ascii c) in
  if (48 <=? n) && (n <=? 57) then Some (n - 48) else None.

Fixpoint chars (s : string) : list Ascii.ascii :=
  match s with
  | EmptyString => []
  | String c s => c :: chars s
  end.

Fixpoint of_chars (l : list Ascii.ascii) : string :=
  match l with
  | [] => EmptyString
  | c :: l => String c (of_chars l)
  end.
Lemma of_chars_chars s : of_chars (chars s) = s.
Proof. by induction s as [|c s IH]; simpl; [|rewrite IH]. Qed.
Lemma chars_of_chars l : chars (of_chars l) = l.
Proof. by induction l as [|c l IH]; simpl; [|rewrite IH]. Qed.

Fixpoint drop_space (l : list Ascii.ascii) : list Ascii.ascii :=
  match l with
  | c :: l' => if is_space c then drop_space l' else l
  | [] => []
  end.

(** [s.strip()] on ASCII white space. *)
Definition strip_chars (l : list Ascii.ascii) : list Ascii.ascii :=
  reverse (drop_space (reverse (drop_space l))).
Definition strip (s : string) : string := of_chars (strip_chars (chars s)).

(** Digits with single underscores between them. *)
Fixpoint digits (acc : Z) (after_digit : bool) (l : list Ascii.ascii) : option Z :=
  match l with
  | [] => if after_digit then Some acc else None
  | c :: l =>
      match digit c with
      | Some n => digits (10 * acc + n) true l
      | None => if after_digit && bool_decide (c = "_"%char)
                then match l with [] => None | _ => digits acc false l end
                else None
      end
  end.

Definition int_of_chars (l : list Ascii.ascii) : option Z :=
  match l with
  | "-"%char :: l => Z.opp <$> digits 0 false l
  | "+"%char :: l => digits 0 false l
  | _ => digits 0 false l
  end.

Definition py_int (v : json) : res py_error Z :=
  match v with
  | JInt z => Ok z
  | JBool b => Ok (if b then 1 else 0)
  | JStr s =>
      match int_of_chars (strip_chars (chars s)) with
      | Some z => Ok z
      | None => Raise (ValueError "invalid literal for int()")
      end
  | JNull | JList _ | JObj _ => Raise TypeError
  end.

(** ** [str(x)] *)

Definition hex_digit (n : nat) : Ascii.ascii :=
  if (n <? 10)%nat then Ascii.ascii_of_nat (48 + n) else Ascii.ascii_of_nat (87 + n).

Definition escape_char (quote c : Ascii.ascii) : list Ascii.ascii :=
  let n := Ascii.nat_of_ascii c in
  if bool_decide (c = quote) || bool_decide (c = "\"%char) then ["\"%char; c]
  else if (n =? 10)%nat then ["\"%char; "n"%char]
  else if (n =? 13)%nat then ["\"%char; "r"%char]
  else if (n =? 9)%nat then ["\"%char; "t"%char]
  else if (n <? 32)%nat || (n =? 127)%nat
  then ["\"%char; "x"%char; hex_digit (n / 16); hex_digit (n mod 16)]
  else [c].

Definition single_quote : Ascii.ascii := "'"%char.
Definition double_quote : Ascii.ascii := Ascii.ascii_of_nat 34.

Definition repr_str (s : string) : string :=
  let l := chars s in
  let q := if bool_decide (single_quote ∈ l) && negb (bool_decide (double_quote ∈ l))
           then double_quote else single_quote in
  of_chars ([q] ++ (l ≫= escape_char q) ++ [q]).

Fixpoint join (sep : string) (l : list string) : string :=
  match l with
  | [] => ""
  | [x] => x
  | x :: l => (x +:+ sep +:+ join sep l)%stdpp
  end.

Fixpoint py_repr (v : json) : string :=
  match v with
  | JNull => "None"
  | JBool b => if b then "True" else "False"
  | JInt z => pretty z
  | JStr s => repr_str s
  | JList l => ("[" +:+ join ", " (map py_repr l) +:+ "]")%stdpp
  | JObj d =>
      ("{" +:+ join ", " (map (fun p => (repr_str p.1 +:+ ": " +:+ py_repr p.2)%stdpp) d) +:+ "}")%stdpp
  end.

Definition py_str (v : json) : string :=
  match v with
  | JStr s => s
  | _ => py_repr v
  end.

(** [str(d.get(k) or "")] and [max(low, int(d.get(k) or fallback))]. *)
Definition get_str (k : string) (d : list (string * json)) : string :=
  py_str (jor (jget k d) (JStr "")).
Definition get_int (low fallback : Z) (k : string) (d : list (string * json)) : res py_error Z :=
  rmap (Z.max low) (py_int (jor (jget k d) (JInt fallback))).
Definition get_bool (k : string) (d : list (string * json)) : bool := truthy (jget k d).

(** [list(d.get(k) or ())]: a list, the characters of a text, the keys of a dictionary. *)
Definition py_list (v : json) : res py_error (list json) :=
  match v with
  | JList l => Ok l
  | JStr s => Ok ((fun c => JStr (String c EmptyString)) <$> chars s)
  | JObj d => Ok (JStr <$> dkeys d)
  | _ => Raise TypeError
  end.
Definition get_list (k : string) (d : list (string * json)) : res py_error (list json) :=
  py_list (jor (jget k d) (JList [])).

(** [dict(v or {})]: a mapping, or a list whose items are pairs with a text first. *)
Fixpoint pairs_dict (acc : list (string * json)) (l : list json) : res py_error (list (string * json)) :=
  match l with
  | [] => Ok acc
  | v :: l =>
      match py_list v with
      | Ok [JStr k; x] => pairs_dict (dset k x acc) l
      | Ok _ => Raise (ValueError "dictionary update sequence element has wrong length")
      | Raise e => Raise e
      end
  end.

Definition py_dict (v : json) : res py_error (list (string * json)) :=
  match v with
  | JObj d => Ok d
  | JList l => pairs_dict [] l
  | _ => if truthy v then Raise TypeError else Ok []
  end.

(** ** Reading back what was written *)

Lemma get_str_of k s d : jget k d = JStr s -> get_str k d = s.
Proof.
  intros H. unfold get_str, jor. rewrite H. simpl. unfold str_truthy.
  case_bool_decide; simpl; congruence.
Qed.

Lemma get_int_of low k z d : jget k d = JInt z -> low <= z -> get_int low 0 k d = Ok z.
Proof.
  intros H Hz. unfold get_int, jor, rmap. rewrite H. simpl.
  destruct (z =? 0) eqn:E; bool_to_prop; simpl; f_equal; lia.
Qed.

Lemma get_int_pos low fb k z d : jget k d = JInt z -> low <= z -> z <> 0 -> get_int low fb k d = Ok z.
Proof.
  intros H Hz Hne. unfold get_int, jor, rmap. rewrite H. simpl.
  rewrite (proj2 (Z.eqb_neq z 0)) by done. simpl. f_equal; lia.
Qed.

Lemma get_bool_of k b d : jget k d = JBool b -> get_bool k d = b.
Proof. intros H. unfold get_bool. by rewrite H. Qed.

Lemma get_list_of k l d : jget k d = JList l -> get_list k d = Ok l.
Proof. intros H. unfold get_list, jor. rewrite H. by destruct l. Qed.

#[export] Hint Resolve get_str_of get_int_of get_bool_of get_list_of : pal.

Example py_int_text : py_int (JStr " -1_2 ") = Ok (-12).
Proof. reflexivity. Qed.
Example py_str_value : py_str (JList [JStr "a"; JInt 2; JBool true]) = "['a', 2, True]".
Proof. reflexivity. Qed.

(** ** [x == y] *)

(** Booleans are integers; dictionaries compare without order. *)
Fixpoint py_eq (x y : json) : bool :=
  match x, y with
  | JNull, JNull => true
  | JBool a, JBool b => Bool.eqb a b
  | JBool a, JInt z => (if a then 1 else 0) =? z
  | JInt z, JBool a => (if a then 1 else 0) =? z
  | JInt a, JInt b => a =? b
  | JStr a, JStr b => bool_decide (a = b)
  | JList l, JList m =>
      (fix lists l m := match l, m with
                        | [], [] => true
                        | a :: l, b :: m => py_eq a b && lists l m
                        | _, _ => false
                        end) l m
  | JObj d, JObj e =>
      Nat.eqb (length d) (length e) &&
      forallb (fun p => match dget p.1 e with Some v => py_eq p.2 v | None => false end) d
  | _, _ => false
  end.
