(* ===== verification/JsonText.v ===== *)
(** * JSON text

    [json.dumps(value, sort_keys=True)] with ASCII escapes, in its default and its
    compact form, as bytes: what digests and fingerprints are computed from. *)

From S2P Require Import Prelude Dict Utf8 Sha256 PyValue.
From Stdlib Require Import Ascii.
Open Scope Z_scope.

Definition hex4 (n : Z) : bytes :=
  (fun i => Z.of_nat (nat_of_ascii (hex_char ((n / 16 ^ i) mod 16)))) <$> [3; 2; 1; 0].

(** One character inside a string literal. *)
Definition json_char (c : Z) : bytes :=
  if c =? 34 then lit "\" ++ [34]
  else if c =? 92 then lit "\\"
  else if c =? 10 then lit "\n"
  else if c =? 13 then lit "\r"
  else if c =? 9 then lit "\t"
  else if c =? 8 then lit "\b"
  else if c =? 12 then lit "\f"
  else if (32 <=? c) && (c <=? 126) then [c]
  else if c <? 65536 then lit "\u" ++ hex4 c
  else lit "\u" ++ hex4 (55296 + (c - 65536) / 1024) ++ lit "\u" ++ hex4 (56320 + (c - 65536) mod 1024).

Definition json_string (s : string) : bytes :=
  [34] ++ (default (string_bytes s) (utf8_decode (string_bytes s)) ≫= json_char) ++ [34].

Fixpoint join_bytes (sep : bytes) (l : list bytes) : bytes :=
  match l with
  | [] => []
  | [x] => x
  | x :: l => x ++ sep ++ join_bytes sep l
  end.

Definition key_le (p q : string * bytes) : Prop := String.le p.1 q.1.

#[export] Instance key_le_dec : RelDecision key_le.
Proof. intros p q. unfold key_le. apply _. Defined.

Fixpoint json_dumps (compact : bool) (v : json) : bytes :=
  let comma := if compact then lit "," else lit ", " in
  let colon := if compact then lit ":" else lit ": " in
  match v with
  | JNull => lit "null"
  | JBool b => if b then lit "true" else lit "false"
  | JInt z => lit (pretty z)
  | JStr s => json_string s
  | JList l => lit "[" ++ join_bytes comma (map (json_dumps compact) l) ++ lit "]"
  | JObj d =>
      let items := merge_sort key_le (map (fun p => (p.1, json_dumps compact p.2)) d) in
      lit "{" ++ join_bytes comma (map (fun p => json_string p.1 ++ colon ++ p.2) items) ++ lit "}"
  end.

Example json_dumps_sorted :
  json_dumps false (JObj [("b", JInt 1); ("a", JList [JStr "x"; JNull])]) =
    lit "{" ++ [34; 97; 34] ++ lit ": [" ++ [34; 120; 34] ++ lit ", null], " ++ [34; 98; 34] ++ lit ": 1}".
Proof. vm_compute. reflexivity. Qed.

(** [json.dumps(value, ensure_ascii=False)] as text: insertion order, default separators. *)
Definition json_char_plain (c : Z) : text :=
  if c =? 34 then lit "\" ++ [34]
  else if c =? 92 then lit "\\"
  else if c =? 10 then lit "\n"
  else if c =? 13 then lit "\r"
  else if c =? 9 then lit "\t"
  else if c =? 8 then lit "\b"
  else if c =? 12 then lit "\f"
  else if c <? 32 then lit "\u" ++ hex4 c
  else [c].

Definition json_string_plain (s : string) : text :=
  [34] ++ (default (string_bytes s) (utf8_decode (string_bytes s)) ≫= json_char_plain) ++ [34].

Fixpoint json_text (v : json) : text :=
  match v with
  | JNull => lit "null"
  | JBool b => if b then lit "true" else lit "false"
  | JInt z => lit (pretty z)
  | JStr s => json_string_plain s
  | JList l => lit "[" ++ join_bytes (lit ", ") (map json_text l) ++ lit "]"
  | JObj d =>
      lit "{" ++ join_bytes (lit ", ") (map (fun p => json_string_plain p.1 ++ lit ": " ++ json_text p.2) d) ++ lit "}"
  end.
