(* ===== verification/JsonParse.v ===== *)
(** * JSON text, read back

    [json.dumps(value, ensure_ascii=False, separators=(',', ':'))] and [json.loads].
    The value model has no floating-point numbers and no lone surrogates: a text that
    denotes one is refused here, like a text that is not JSON.  [json.loads] also guesses
    UTF-16 and UTF-32; only UTF-8 input is modelled. *)

From S2P Require Import Prelude Dict Utf8 Sha256 PyValue JsonText.
From Stdlib Require Import Ascii.
Open Scope Z_scope.

(** ** Writing *)

(** The text of a value, members in their order; [quote] writes a string literal, [sp] is
    written after a comma or a colon. *)
Fixpoint json_write (quote : string -> text) (sp : text) (v : json) : text :=
  match v with
  | JNull => lit "null"
  | JBool b => if b then lit "true" else lit "false"
  | JInt z => lit (pretty z)
  | JStr s => quote s
  | JList l => lit "[" ++ join_bytes (lit "," ++ sp) (map (json_write quote sp) l) ++ lit "]"
  | JObj d =>
      lit "{" ++ join_bytes (lit "," ++ sp) (map (fun p => quote p.1 ++ (lit ":" ++ sp) ++ json_write quote sp p.2) d) ++ lit "}"
  end.

Abbreviation json_compact := (json_write json_string_plain []).

(** [json.dumps(...).encode('utf-8')]; a string of the model is always encodable. *)
Definition json_dumps_bytes (v : json) : bytes := default [] (utf8_encode (json_compact v)).

(** ** Reading *)

Fixpoint skip_space (t : text) : text :=
  match t with
  | c :: t' => if (c =? 32) || (c =? 9) || (c =? 10) || (c =? 13) then skip_space t' else t
  | [] => []
  end.

Definition hex_value (c : Z) : option Z :=
  if (48 <=? c) && (c <=? 57) then Some (c - 48)
  else if (97 <=? c) && (c <=? 102) then Some (c - 87)
  else if (65 <=? c) && (c <=? 70) then Some (c - 55)
  else None.

(** Four hexadecimal digits. *)
Definition parse_hex4 (t : text) : option (Z * text) :=
  match t with
  | a :: b :: c :: d :: t =>
      match hex_value a, hex_value b, hex_value c, hex_value d with
      | Some a, Some b, Some c, Some d => Some (a * 4096 + b * 256 + c * 16 + d, t)
      | _, _, _, _ => None
      end
  | _ => None
  end.

(** What follows a backslash and [u]: one code point, written as a surrogate pair if it
    is beyond the first plane. *)
Definition parse_unicode (t : text) : option (Z * text) :=
  match parse_hex4 t with
  | Some (u, t) =>
      if (55296 <=? u) && (u <=? 56319) then
        match t with
        | b :: k :: t =>
            if (b =? 92) && (k =? 117) then
              match parse_hex4 t with
              | Some (l, t) => if (56320 <=? l) && (l <=? 57343)
                               then Some (65536 + (u - 55296) * 1024 + (l - 56320), t) else None
              | None => None
              end
            else None
        | _ => None
        end
      else if (56320 <=? u) && (u <=? 57343) then None
      else Some (u, t)
  | None => None
  end.

(** The character a one-letter escape stands for. *)
Definition escaped (c : Z) : option Z :=
  if c =? 34 then Some 34 else if c =? 92 then Some 92 else if c =? 47 then Some 47
  else if c =? 98 then Some 8 else if c =? 102 then Some 12 else if c =? 110 then Some 10
  else if c =? 114 then Some 13 else if c =? 116 then Some 9 else None.

(** The rest of a string literal, after its opening quote. *)
Fixpoint parse_string (fuel : nat) (t : text) : option (text * text) :=
  match fuel, t with
  | S fuel, c :: t =>
      if c =? 34 then Some ([], t)
      else if c =? 92 then
        match t with
        | k :: t' =>
            match (if k =? 117 then parse_unicode t' else (fun c => (c, t')) <$> escaped k) with
            | Some (c, t) => match parse_string fuel t with Some (s, t) => Some (c :: s, t) | None => None end
            | None => None
            end
        | [] => None
        end
      else if c <? 32 then None
      else match parse_string fuel t with Some (s, t) => Some (c :: s, t) | None => None end
  | _, _ => None
  end.

Fixpoint string_of_bytes (bs : bytes) : string :=
  match bs with
  | [] => EmptyString
  | b :: bs => String (ascii_of_nat (Z.to_nat b)) (string_of_bytes bs)
  end.
Definition text_string (t : text) : option string := string_of_bytes <$> utf8_encode t.

Fixpoint parse_digits (acc : Z) (t : text) : Z * text :=
  match t with
  | c :: t' => if (48 <=? c) && (c <=? 57) then parse_digits (10 * acc + (c - 48)) t' else (acc, t)
  | [] => (acc, t)
  end.

(** [0] or a digit sequence that does not start with [0]. *)
Definition parse_natural (t : text) : option (Z * text) :=
  match t with
  | c :: t' => if c =? 48 then Some (0, t')
               else if (49 <=? c) && (c <=? 57) then Some (parse_digits 0 t) else None
  | [] => None
  end.

Definition parse_number (t : text) : option (json * text) :=
  match t with
  | c :: t' =>
      if c =? 45 then match parse_natural t' with Some (n, t) => Some (JInt (- n), t) | None => None end
      else match parse_natural t with Some (n, t) => Some (JInt n, t) | None => None end
  | [] => None
  end.

(** [strip_literal word t]: the text after [word]. *)
Fixpoint strip_literal (word t : text) : option text :=
  match word, t with
  | [], t => Some t
  | a :: word, b :: t => if a =? b then strip_literal word t else None
  | _, [] => None
  end.

Definition parse_word (word : text) (v : json) (t : text) : option (json * text) :=
  (fun t => (v, t)) <$> strip_literal word t.

Definition parse_key (t : text) : option (string * text) :=
  match t with
  | c :: t =>
      if c =? 34 then
        match parse_string (S (length t)) t with
        | Some (s, t) => (fun s => (s, t)) <$> text_string s
        | None => None
        end
      else None
  | [] => None
  end.

(** A value, the elements of a list after its first bracket, and the members of an
    object; [fuel] bounds the number of characters they take. *)
Fixpoint parse_value (fuel : nat) (t : text) : option (json * text) :=
  match fuel with
  | O => None
  | S fuel =>
      match t with
      | [] => None
      | c :: t' =>
          if c =? 34 then (fun p => (JStr p.1, p.2)) <$> parse_key t
          else if c =? 91 then
            match skip_space t' with
            | [] => None
            | d :: t1 => if d =? 93 then Some (JList [], t1)
                         else (fun p => (JList p.1, p.2)) <$> parse_elements fuel (skip_space t')
            end
          else if c =? 123 then
            match skip_space t' with
            | [] => None
            | d :: t1 => if d =? 125 then Some (JObj [], t1)
                         else (fun p => (JObj p.1, p.2)) <$> parse_members fuel [] (skip_space t')
            end
          else if c =? 110 then parse_word (lit "null") JNull t
          else if c =? 116 then parse_word (lit "true") (JBool true) t
          else if c =? 102 then parse_word (lit "false") (JBool false) t
          else parse_number t
      end
  end
with parse_elements (fuel : nat) (t : text) : option (list json * text) :=
  match fuel with
  | O => None
  | S fuel =>
      match parse_value fuel t with
      | Some (v, t) =>
          match skip_space t with
          | d :: t1 => if d =? 93 then Some ([v], t1)
                       else if d =? 44 then (fun p => (v :: p.1, p.2)) <$> parse_elements fuel (skip_space t1)
                       else None
          | [] => None
          end
      | None => None
      end
  end
with parse_members (fuel : nat) (d : list (string * json)) (t : text) : option (list (string * json) * text) :=
  match fuel with
  | O => None
  | S fuel =>
      match parse_key t with
      | Some (k, t) =>
          match skip_space t with
          | c :: t1 =>
              if c =? 58 then
                match parse_value fuel (skip_space t1) with
                | Some (v, t) =>
                    match skip_space t with
                    | c :: t1 => if c =? 125 then Some (dset k v d, t1)
                                 else if c =? 44 then parse_members fuel (dset k v d) (skip_space t1)
                                 else None
                    | [] => None
                    end
                | None => None
                end
              else None
          | [] => None
          end
      | None => None
      end
  end.

Definition parse_json (t : text) : option json :=
  match parse_value (S (length t)) (skip_space t) with
  | Some (v, t) => match skip_space t with [] => Some v | _ => None end
  | None => None
  end.

(** [json.loads(data)] *)
Definition json_loads (data : bytes) : option json :=
  match utf8_decode data with Some t => parse_json t | None => None end.

Example json_loads_example :
  json_loads (lit " { " ++ [34; 97; 34] ++ lit " : [1, -20, true] , " ++ [34; 92; 117; 48; 48; 101; 57; 34] ++ lit ": null}") =
    Some (JObj [("a", JList [JInt 1; JInt (-20); JBool true]); (string_of_bytes [195; 169], JNull)]).
Proof. vm_compute. reflexivity. Qed.

Example json_loads_refuses : json_loads (lit "[1.5]") = None /\ json_loads (lit "[01]") = None /\ json_loads (lit "[1,]") = None.
Proof. vm_compute. done. Qed.

(** ** Round trip *)

(** Induction through the lists inside a value. *)
Lemma json_nested_ind (P : json -> Prop) :
  P JNull -> (forall b, P (JBool b)) -> (forall z, P (JInt z)) -> (forall s, P (JStr s)) ->
  (forall l, Forall P l -> P (JList l)) -> (forall d, Forall (fun p => P p.2) d -> P (JObj d)) ->
  forall v, P v.
Proof.
  intros Hn Hb Hi Hs Hl Ho. fix IH 1. intros [|b|z|s|l|d]; [exact Hn|apply Hb|apply Hi|apply Hs|..].
  - apply Hl. induction l; constructor; [apply IH|assumption].
  - apply Ho. induction d as [|[k v] d]; constructor; [apply IH|assumption].
Qed.

(** A value that Python can hold: strings are text, keys are distinct. *)
Definition text_ok (s : string) : Prop := exists t, utf8_encode t = Some (string_bytes s).

Fixpoint json_ok (v : json) : Prop :=
  match v with
  | JStr s => text_ok s
  | JList l => foldr (fun v P => json_ok v /\ P) True l
  | JObj d => dwf d /\ foldr (fun p P => text_ok p.1 /\ json_ok p.2 /\ P) True d
  | _ => True
  end.

(** *** Numbers *)

Definition not_digit (t : text) : Prop :=
  match t with c :: _ => (48 <=? c) && (c <=? 57) = false | [] => True end.

Lemma parse_digits_stop z t : not_digit t -> parse_digits z t = (z, t).
Proof. destruct t as [|c t]; simpl; [done|]. by intros ->. Qed.

Lemma string_bytes_app s1 s2 : string_bytes (s1 +:+ s2) = string_bytes s1 ++ string_bytes s2.
Proof. induction s1 as [|c s1 IH]; simpl; [done|]. by rewrite <- IH. Qed.

Lemma digit_char_code n : (n < 10)%N -> Z.of_nat (nat_of_ascii (pretty_N_char n)) = 48 + Z.of_N n.
Proof.
  intros H. destruct n as [|p]; [done|]. do 4 (destruct p as [p|p|]; [| |done]; try lia).
Qed.

Lemma parse_digits_pretty x s rest :
  parse_digits 0 (string_bytes (pretty_N_go x s) ++ rest) = parse_digits (Z.of_N x) (string_bytes s ++ rest).
Proof.
  revert s. induction (N.lt_wf_0 x) as [x _ IH]. intros s.
  destruct (decide (x = 0)%N) as [->|Hx]; [done|].
  rewrite pretty_N_go_step, IH by (try apply N.div_lt; lia). simpl.
  pose proof (N.mod_lt x 10 ltac:(lia)) as Hm. rewrite digit_char_code by done.
  replace (Z.of_N x) with (10 * Z.of_N (x `div` 10) + Z.of_N (x `mod` 10))
    by (rewrite (N.div_mod x 10) at 3 by lia; lia).
  generalize dependent (x `mod` 10)%N. intros m Hm. rewrite !leb_t by lia. simpl. f_equal. lia.
Qed.

Lemma pretty_first_digit x s : (0 < x)%N ->
  exists c s', pretty_N_go x s = String c s' /\ 49 <= Z.of_nat (nat_of_ascii c) <= 57.
Proof.
  revert s. induction (N.lt_wf_0 x) as [x _ IH]. intros s Hx. rewrite pretty_N_go_step by done.
  destruct (decide (x / 10 = 0)%N) as [E|E].
  - rewrite E, pretty_N_go_0. do 2 eexists. split; [done|]. pose proof (N.mod_lt x 10 ltac:(lia)) as Hm.
    rewrite digit_char_code by done. pose proof (N.div_mod x 10 ltac:(lia)) as Hd. rewrite E in Hd.
    generalize dependent (x `mod` 10)%N. intros. lia.
  - apply IH; [by apply N.div_lt|by apply N.neq_0_lt_0].
Qed.

Lemma parse_natural_pretty x rest :
  not_digit rest -> parse_natural (string_bytes (pretty x) ++ rest) = Some (Z.of_N x, rest).
Proof.
  intros Hr. unfold pretty, pretty_N. destruct (decide (x = 0)%N) as [->|Hx]; [done|].
  destruct (pretty_first_digit x "" ltac:(lia)) as (c & s & E & Hc). pose proof (parse_digits_pretty x "" rest) as Hp.
  rewrite E in *. simpl in Hp |- *. rewrite (proj2 (Z.eqb_neq _ _)) by lia.
  rewrite (leb_t 48), (leb_t _ 57) in Hp by lia. rewrite (leb_t 48), (leb_t 49), (leb_t _ 57) by lia. cbn [andb] in *.
  by rewrite Hp, parse_digits_stop.
Qed.

Lemma parse_number_pretty z rest :
  not_digit rest -> parse_number (lit (pretty z) ++ rest) = Some (JInt z, rest).
Proof.
  intros Hr. unfold lit. destruct z as [|p|p]; [done| |].
  - change (pretty (Z.pos p)) with (pretty (N.pos p)). pose proof (parse_natural_pretty (N.pos p) rest Hr) as H.
    destruct (string_bytes (pretty (N.pos p)) ++ rest) as [|c t] eqn:E; [done|]. unfold parse_number.
    destruct (c =? 45) eqn:Ec; [|by rewrite H]. apply Z.eqb_eq in Ec as ->. done.
  - change (pretty (Z.neg p)) with ("-" +:+ pretty (N.pos p)). rewrite string_bytes_app. simpl.
    by rewrite parse_natural_pretty.
Qed.

(** *** Strings *)

Lemma parse_control c t : 0 <= c < 32 -> parse_unicode (hex4 c ++ t) = Some (c, t).
Proof.
  intros H. destruct c as [|p|p]; [done| |lia].
  do 4 (destruct p as [p|p|]; [| |reflexivity]); destruct p as [p|p|]; reflexivity || lia.
Qed.

Lemma parse_string_char n c t :
  0 <= c -> parse_string (S n) (json_char_plain c ++ t) =
    match parse_string n t with Some (s, t) => Some (c :: s, t) | None => None end.
Proof.
  intros Hc. unfold json_char_plain.
  repeat (match goal with |- context [if ?c =? ?k then _ else _] => destruct (Z.eqb_spec c k) as [->|?]; [reflexivity|] end).
  destruct (c <? 32) eqn:E; bool_to_prop.
  - change (lit "\u" ++ hex4 c) with (92 :: 117 :: hex4 c). rewrite <- !app_comm_cons.
    cbn [parse_string Z.eqb Pos.eqb]. by rewrite parse_control by lia.
  - simpl. rewrite (proj2 (Z.eqb_neq c 34)), (proj2 (Z.eqb_neq c 92)), (ltb_f c 32) by lia. done.
Qed.

Lemma string_of_string_bytes s : string_of_bytes (string_bytes s) = s.
Proof. induction s as [|c s IH]; simpl; [done|]. by rewrite Nat2Z.id, ascii_nat_embedding, IH. Qed.

(** The characters of a well-formed string. *)
Lemma text_ok_chars s : text_ok s ->
  exists t, utf8_decode (string_bytes s) = Some t /\ utf8_encode t = Some (string_bytes s) /\
            Forall (fun c => scalar c = true) t.
Proof.
  intros (t & Ht). exists t. split_and!; [by apply decode_encode|done|]. apply encode_scalar. by rewrite Ht.
Qed.

(** String literals, for any way to write a character that the parser reads back. *)
Section quoted.
Variable f : Z -> text.
Hypothesis f_nonempty : forall c, (1 <= length (f c))%nat.
Hypothesis f_parses : forall n c t, scalar c = true ->
  parse_string (S n) (f c ++ t) = match parse_string n t with Some (s, t) => Some (c :: s, t) | None => None end.

Lemma parse_string_text s n rest :
  Forall (fun c => scalar c = true) s -> (length s < n)%nat -> parse_string n ((s ≫= f) ++ 34 :: rest) = Some (s, rest).
Proof.
  revert n. induction s as [|c s IH]; intros [|n] Hs Hn; simpl in Hn; try lia; [done|].
  apply Forall_cons in Hs as [Hc Hs]. rewrite bind_cons, <- app_assoc, f_parses, IH; [done|done|lia|done].
Qed.

Lemma bind_length_le s : (length s <= length (s ≫= f))%nat.
Proof. induction s as [|c s IH]; [done|]. rewrite bind_cons, length_app. pose proof (f_nonempty c). simpl. lia. Qed.

Lemma parse_key_quoted s rest :
  text_ok s -> parse_key (([34] ++ (default (string_bytes s) (utf8_decode (string_bytes s)) ≫= f) ++ [34]) ++ rest) = Some (s, rest).
Proof.
  intros (t & Hd & He & Hs)%text_ok_chars. rewrite Hd. cbn [default from_option id].
  rewrite <- !app_assoc. cbn [app]. unfold parse_key. rewrite Z.eqb_refl, parse_string_text.
  - unfold text_string. rewrite He. simpl. by rewrite string_of_string_bytes.
  - done.
  - rewrite length_app. pose proof (bind_length_le t). unfold mbind in *. simpl. lia.
Qed.
End quoted.

Lemma parse_key_plain s rest : text_ok s -> parse_key (json_string_plain s ++ rest) = Some (s, rest).
Proof.
  apply parse_key_quoted.
  - intros c. unfold json_char_plain. repeat case_match; simpl; lia.
  - intros n c t Hc. apply parse_string_char. unfold scalar in Hc. bool_to_prop. lia.
Qed.

(** *** Values *)

Section written.
(** How strings are written, and that the parser reads them back. *)
Variable quote : string -> text.
Hypothesis quote_opens : forall s, exists t, quote s = 34 :: t.
Hypothesis parse_quoted : forall s rest, text_ok s -> parse_key (quote s ++ rest) = Some (s, rest).

Variable sp : text.
Hypothesis sp_skipped : forall t, skip_space (sp ++ t) = skip_space t.

Abbreviation written := (json_write quote sp).

Definition parses (v : json) : Prop :=
  json_ok v -> forall n rest, (length (written v) < n)%nat -> not_digit rest ->
  parse_value n (written v ++ rest) = Some (v, rest).

(** The first character of a value is no white space and no closing bracket. *)
Definition starts (t : text) : Prop :=
  exists c t', t = c :: t' /\ c <> 32 /\ c <> 9 /\ c <> 10 /\ c <> 13 /\ c <> 93 /\ c <> 125.

Lemma starts_app t rest : starts t -> starts (t ++ rest).
Proof. intros (c & t' & -> & ?). by exists c, (t' ++ rest). Qed.

Lemma starts_skip t : starts t -> skip_space t = t.
Proof. intros (c & t' & -> & ?). simpl. by rewrite !(proj2 (Z.eqb_neq _ _)) by tauto. Qed.

Lemma pretty_starts (z : Z) : starts (lit (pretty z)).
Proof.
  assert (Hp : forall p, starts (string_bytes (pretty (N.pos p)))).
  { intros p. unfold pretty, pretty_N. simpl. destruct (pretty_first_digit (N.pos p) "" ltac:(lia)) as (c & s & E & ?).
    rewrite E. simpl. do 2 eexists. split; [done|]. lia. }
  unfold lit. destruct z as [|p|p]; [by do 2 eexists|apply Hp|by do 2 eexists].
Qed.

Lemma quote_starts s : starts (quote s).
Proof. destruct (quote_opens s) as [t ->]. by do 2 eexists. Qed.

Lemma compact_starts v : starts (written v).
Proof.
  destruct v as [|[]|z|s|l|d]; [| | |apply pretty_starts|apply quote_starts|..]; by do 2 eexists.
Qed.

Lemma compact_nonempty v : (1 <= length (written v))%nat.
Proof. destruct (compact_starts v) as (c & t & -> & _). simpl. lia. Qed.

Lemma join_cons sep x l :
  join_bytes sep (x :: l) = x ++ match l with [] => [] | _ => sep ++ join_bytes sep l end.
Proof. destruct l; simpl; [by rewrite app_nil_r|done]. Qed.

Lemma parse_elements_more n v t t' :
  parse_value n t = Some (v, 44 :: sp ++ t') -> starts t' ->
  parse_elements (S n) t = (fun p => (v :: p.1, p.2)) <$> parse_elements n t'.
Proof. intros H Hs. cbn [parse_elements]. rewrite H.
  change (skip_space (44 :: ?t)) with (44 :: t). cbn -[parse_elements skip_space]. by rewrite sp_skipped, (starts_skip t'). Qed.

Lemma parse_elements_compact l n rest :
  Forall parses l -> json_ok (JList l) -> l <> [] -> (length (join_bytes (lit "," ++ sp) (map written l)) + 1 < n)%nat ->
  parse_elements n (join_bytes (lit "," ++ sp) (map written l) ++ lit "]" ++ rest) = Some (l, rest).
Proof.
  revert n. induction l as [|v l IH]; intros [|n] HP Hok Hne Hn; try done; try lia.
  apply Forall_cons in HP as [Hv HP]. destruct Hok as [Hok Hoks]. cbn [map] in *. rewrite join_cons in *.
  rewrite length_app in Hn. rewrite <- app_assoc.
  destruct l as [|w l]; [cbn [parse_elements]; by rewrite Hv by (done || lia)|]. cbn [map] in *.
  rewrite !length_app in Hn. change (length (lit ",")) with 1%nat in Hn. rewrite <- !app_assoc. erewrite parse_elements_more.
  - rewrite IH; [done|done|done|done|lia].
  - rewrite Hv; [reflexivity|done|lia|done].
  - apply starts_app. rewrite join_cons. apply starts_app, compact_starts.
Qed.

Definition member (p : string * json) : text := quote p.1 ++ (lit ":" ++ sp) ++ written p.2.

Lemma member_starts p : starts (member p).
Proof. unfold member. apply starts_app, quote_starts. Qed.

Lemma parse_members_key n d0 k t :
  text_ok k -> starts t ->
  parse_members (S n) d0 (quote k ++ lit ":" ++ sp ++ t) =
    match parse_value n t with
    | Some (v, t) =>
        match skip_space t with
        | c :: t1 => if c =? 125 then Some (dset k v d0, t1)
                     else if c =? 44 then parse_members n (dset k v d0) (skip_space t1)
                     else None
        | [] => None
        end
    | None => None
    end.
Proof.
  intros Hk Ht. cbn [parse_members]. rewrite parse_quoted by done.
  change (skip_space (lit ":" ++ sp ++ t)) with (58 :: sp ++ t). cbn -[parse_members parse_value skip_space].
  by rewrite sp_skipped, (starts_skip t).
Qed.

Lemma parse_members_compact d n d0 rest :
  Forall (fun p => parses p.2) d -> foldr (fun p P => text_ok p.1 /\ json_ok p.2 /\ P) True d -> dwf (d0 ++ d) -> d <> [] ->
  (length (join_bytes (lit "," ++ sp) (map member d)) + 1 < n)%nat ->
  parse_members n d0 (join_bytes (lit "," ++ sp) (map member d) ++ lit "}" ++ rest) = Some (d0 ++ d, rest).
Proof.
  revert n d0. induction d as [|[k v] d IH]; intros [|n] d0 HP Hok Hwf Hne Hn; try done; try lia.
  apply Forall_cons in HP as [Hv HP]. destruct Hok as (Hk & Hok & Hoks). simpl in Hv, Hk, Hok.
  assert (Hfresh : dset k v d0 = d0 ++ [(k, v)]).
  { apply dset_fresh. unfold dwf, dkeys in *. rewrite fmap_app in Hwf. apply NoDup_app in Hwf as (_ & Hd & _).
    intros Hin. apply (Hd k Hin). left. }
  cbn [map] in *. rewrite join_cons in *. unfold member at 1 in Hn. unfold member at 1. cbn [fst snd] in *.
  rewrite !length_app in Hn. rewrite <- !app_assoc.
  rewrite parse_members_key by (try apply starts_app, compact_starts; done).
  destruct d as [|q d]; [rewrite Hv by (done || (simpl in Hn; lia)); cbn; by rewrite Hfresh|].
  cbn [map] in *. rewrite !length_app in Hn. change (length (lit ",")) with 1%nat in Hn.
  assert (Hs : starts (join_bytes (lit "," ++ sp) (member q :: map member d) ++ lit "}" ++ rest))
    by (apply starts_app; rewrite join_cons; apply starts_app, member_starts).
  rewrite Hv by (done || lia). rewrite <- !app_assoc, Hfresh.
  change (lit "," ++ ?t) with (44 :: t). change (skip_space (44 :: ?t)) with (44 :: t).
  change (44 =? 125) with false. change (44 =? 44) with true. cbv iota.
  rewrite sp_skipped, starts_skip, IH by (done || (rewrite <- ?app_assoc; done) || lia). by rewrite <- app_assoc.
Qed.

Lemma parse_value_compact v : parses v.
Proof.
  induction v as [|b|z|s|l IH|d IH] using json_nested_ind; intros Hok [|n] rest Hn Hr; try lia.
  - done.
  - by destruct b.
  - destruct (pretty_starts z) as (c & t & E & _). pose proof (parse_number_pretty z rest Hr) as Hp.
    cbn [json_write]. rewrite E in *. cbn [app] in *. cbn [parse_value].
    repeat (match goal with |- context [if ?a =? ?k then _ else _] => destruct (Z.eqb_spec a k) as [->|?]; [discriminate Hp|] end).
    done.
  - cbn in Hok. pose proof (parse_quoted s rest Hok) as Hk.
    destruct (quote_opens s) as [t E]. cbn [json_write]. rewrite E in *. cbn [app] in *. cbn [parse_value]. by rewrite Z.eqb_refl, Hk.
  - destruct l as [|v l]; [done|]. cbn [json_write] in *. rewrite !length_app in Hn. simpl length in Hn at 1.
    rewrite <- !app_assoc. change (lit "[" ++ ?t) with (91 :: t). cbn [parse_value].
    change (91 =? 34) with false. change (91 =? 91) with true. cbv iota.
    pose proof (parse_elements_compact (v :: l) n rest IH Hok ltac:(done)) as H. cbn [map] in *.
    assert (Hs : starts (join_bytes (lit "," ++ sp) (written v :: map written l) ++ lit "]" ++ rest))
      by (apply starts_app; rewrite join_cons; apply starts_app, compact_starts).
    rewrite starts_skip by done. rewrite H by (simpl in Hn |- *; lia). destruct Hs as (c & t & -> & ?).
    by rewrite (proj2 (Z.eqb_neq c 93)) by tauto.
  - destruct d as [|p d]; [done|]. destruct Hok as [Hwf Hoks]. cbn [json_write] in *. rewrite !length_app in Hn.
    rewrite <- !app_assoc. change (lit "{" ++ ?t) with (123 :: t). cbn [parse_value].
    change (123 =? 34) with false. change (123 =? 91) with false. change (123 =? 123) with true. cbv iota.
    change (map _ (p :: d)) with (map member (p :: d)) in *.
    pose proof (parse_members_compact (p :: d) n [] rest IH Hoks Hwf ltac:(done)) as H. cbn [map] in *.
    assert (Hs : starts (join_bytes (lit "," ++ sp) (member p :: map member d) ++ lit "}" ++ rest))
      by (apply starts_app; rewrite join_cons; apply starts_app, member_starts).
    rewrite starts_skip by done. rewrite H by (simpl in Hn |- *; lia). destruct Hs as (c & t & -> & ?).
    by rewrite (proj2 (Z.eqb_neq c 125)) by tauto.
Qed.

(** What was written is read back, also with space after it. *)
Lemma parse_written v space : json_ok v -> skip_space space = [] -> parse_json (written v ++ space) = Some v.
Proof.
  intros Hok Hs. unfold parse_json. rewrite starts_skip by apply starts_app, compact_starts.
  assert (Hd : not_digit space).
  { destruct space as [|c l]; [done|]. cbn in Hs |- *. destruct ((c =? 32) || (c =? 9) || (c =? 10) || (c =? 13)) eqn:E; [|done].
    apply andb_false_iff. left. apply Z.leb_gt. rewrite !orb_true_iff, !Z.eqb_eq in E. lia. }
  rewrite (parse_value_compact v Hok _ space) by (rewrite ?length_app; done || lia). by rewrite Hs.
Qed.
End written.

(** *** Encoding *)

Abbreviation scalars := (Forall (fun c => scalar c = true)).

Lemma scalars_string s : scalars (string_bytes s).
Proof.
  induction s as [|c s IH]; simpl; constructor; [|done]. apply scalar_low. pose proof (nat_ascii_bounded c). lia.
Qed.

Lemma scalars_join sep l : scalars sep -> Forall (fun t : text => scalars t) l -> scalars (join_bytes sep l).
Proof.
  intros Hs. induction 1 as [|x l Hx Hl IH]; [constructor|]. rewrite join_cons. apply Forall_app. split; [done|].
  destruct l; [constructor|]. by apply Forall_app.
Qed.

Lemma scalars_char c : scalar c = true -> scalars (json_char_plain c).
Proof.
  intros Hc. unfold json_char_plain.
  repeat match goal with |- context [if ?b then _ else _] => destruct b end; try (by repeat constructor).
  apply Forall_app. split; [by repeat constructor|].
  unfold hex4. apply Forall_fmap, Forall_forall. intros i _. simpl.
  apply scalar_low. pose proof (nat_ascii_bounded (hex_char ((c / 16 ^ i) mod 16))). lia.
Qed.

Lemma scalars_plain s : scalars (json_string_plain s).
Proof.
  assert (H : scalars (default (string_bytes s) (utf8_decode (string_bytes s)))).
  { destruct (utf8_decode (string_bytes s)) as [t|] eqn:E; [|apply scalars_string].
    by apply encode_scalar, (decode_scalar (string_bytes s)). }
  unfold json_string_plain. apply Forall_app. split; [by repeat constructor|]. apply Forall_app. split; [|by repeat constructor].
  apply Forall_bind. eapply Forall_impl; [exact H|]. apply scalars_char.
Qed.

Lemma scalars_compact v : scalars (json_compact v).
Proof.
  induction v as [|b|z|s|l IH|d IH] using json_nested_ind; cbn [json_write].
  - apply scalars_string.
  - destruct b; apply scalars_string.
  - apply scalars_string.
  - apply scalars_plain.
  - repeat (apply Forall_app; split); try apply scalars_string. apply scalars_join; [by repeat constructor|].
    by apply Forall_map.
  - repeat (apply Forall_app; split); try apply scalars_string. apply scalars_join; [by repeat constructor|].
    apply Forall_map. eapply Forall_impl; [exact IH|]. intros p Hp. cbn beta in *.
    apply Forall_app. split; [apply scalars_plain|]. apply Forall_app. split; [by repeat constructor|done].
Qed.

Lemma json_compact_encodes v : utf8_encode (json_compact v) = Some (json_dumps_bytes v).
Proof. unfold json_dumps_bytes. by destruct (proj2 (encode_scalar _) (scalars_compact v)) as [bs ->]. Qed.

(** What was written is read back. *)
Lemma json_loads_dumps v : json_ok v -> json_loads (json_dumps_bytes v) = Some v.
Proof.
  intros Hok. unfold json_loads. rewrite (decode_encode _ _ (json_compact_encodes v)), <- (app_nil_r (json_compact v)).
  apply parse_written; [by eexists|apply parse_key_plain|done|done|done].
Qed.
