(* ===== verification/Targets.v ===== *)
(** * Remote targets

    [pal_shell_contracts/__init__.py]: the checks of a configured [Target] and the exact
    lookup [resolve_target], which every remote request starts from. *)

From S2P Require Import Prelude Dict Utf8 Sha256 PyValue JsonText.
From Stdlib Require Import Ascii.
Open Scope Z_scope.

Record Target := mkTarget {
  tg_target : Z;
  tg_name : string;
  tg_worker_id : string;
  tg_client_id : string;
  tg_client_key : string;
  tg_socket_path : string;
  tg_shortcut : string;
  tg_ssh_host : string;
  tg_ssh_port : Z;
  tg_ssh_identity : string;
  tg_known_hosts : string;
  tg_static : obj;
  tg_start_actions : obj;
  tg_worker_port : Z
}.

(** ** The checks of [__post_init__] *)

Definition code (c : ascii) : Z := Z.of_nat (nat_of_ascii c).
Definition letter_or_digit (c : ascii) : bool :=
  let n := code c in ((65 <=? n) && (n <=? 90)) || ((97 <=? n) && (n <=? 122)) || ((48 <=? n) && (n <=? 57)).

(** [re.fullmatch(r'[A-Za-z0-9_-]{1,54}', s)] *)
Definition shortcut_text (s : string) : bool :=
  forallb (fun c => letter_or_digit c || (code c =? 95) || (code c =? 45)) (chars s) &&
  (1 <=? Z.of_nat (length (chars s))) && (Z.of_nat (length (chars s)) <=? 54).

(** [re.fullmatch(r'[A-Za-z0-9_.@-]+', s)] *)
Definition host_text (s : string) : bool :=
  forallb (fun c => letter_or_digit c || (code c =? 95) || (code c =? 46) || (code c =? 64) || (code c =? 45)) (chars s) &&
  str_truthy s.

Definition absolute (s : string) : bool := match chars s with c :: _ => code c =? 47 | [] => false end.
Definition begins_with_dash (s : string) : bool := match chars s with c :: _ => code c =? 45 | [] => false end.

Definition argv_ok (v : json) : bool :=
  match v with
  | JList ((JStr program :: _) as l) => absolute program && forallb (fun x => match x with JStr _ => true | _ => false end) l
  | _ => false
  end.

Definition target_ok (t : Target) : bool :=
  (0 <? tg_target t) &&
  (negb (str_truthy (tg_shortcut t)) || shortcut_text (tg_shortcut t)) &&
  (1 <=? tg_ssh_port t) && (tg_ssh_port t <=? 65535) &&
  (negb (str_truthy (tg_ssh_host t)) ||
     (host_text (tg_ssh_host t) && negb (begins_with_dash (tg_ssh_host t)) && str_truthy (tg_ssh_identity t) &&
      str_truthy (tg_known_hosts t))) &&
  (0 <=? tg_worker_port t) && (tg_worker_port t <=? 65535) &&
  ((tg_worker_port t =? 0) || str_truthy (tg_ssh_host t)) &&
  (negb (tg_worker_port t =? 0) ||
     (absolute (tg_socket_path t) && forallb (fun c => negb (code c =? 58) && negb (code c =? 10)) (chars (tg_socket_path t)))) &&
  forallb (fun p => argv_ok p.2) (tg_start_actions t).

(** ** [resolve_target] *)

Inductive target_error := InvalidTarget | AmbiguousTarget.

(** Whether a target answers to a value; no coercion between numbers and texts. *)
Definition answers (value : json) (t : Target) : bool :=
  match value with
  | JInt n => tg_target t =? n
  | JStr s => str_truthy s && (bool_decide (s = tg_name t) || bool_decide (s = tg_shortcut t))
  | _ => false
  end.

(** [asdict(target)] *)
Definition target_dict (t : Target) : obj :=
  [("target", JInt (tg_target t)); ("name", JStr (tg_name t)); ("worker_id", JStr (tg_worker_id t));
   ("client_id", JStr (tg_client_id t)); ("client_key", JStr (tg_client_key t)); ("socket_path", JStr (tg_socket_path t));
   ("shortcut", JStr (tg_shortcut t)); ("ssh_host", JStr (tg_ssh_host t)); ("ssh_port", JInt (tg_ssh_port t));
   ("ssh_identity", JStr (tg_ssh_identity t)); ("known_hosts", JStr (tg_known_hosts t)); ("static", JObj (tg_static t));
   ("start_actions", JObj (tg_start_actions t)); ("worker_port", JInt (tg_worker_port t))].

Definition binding (t : Target) : string := sha256_hex (json_dumps false (JObj (target_dict t))).

Record resolution := Resolution { rl_target : Z; rl_target_name : string; rl_worker_id : string; rl_binding : string }.

Definition resolve_target (targets : list Target) (value : json) : res target_error resolution :=
  let matches := foldl (fun d t => dset (tg_target t) t d) [] (filter (fun t => answers value t = true) targets) in
  match matches with
  | [] => Raise InvalidTarget
  | [(_, t)] => Ok (Resolution (tg_target t) (tg_name t) (tg_worker_id t) (binding t))
  | _ => Raise AmbiguousTarget
  end.

(** ** The lookup is exact *)

Definition keyed (d : dict Z Target) : Prop := dwf d /\ forall n t, (n, t) ∈ d -> n = tg_target t.

Lemma dict_of_targets l d :
  keyed d ->
  let d' := foldl (fun d t => dset (tg_target t) t d) d l in
  keyed d' /\ (forall n, n ∈ dkeys d' <-> n ∈ dkeys d \/ exists t, t ∈ l /\ n = tg_target t) /\
  (forall p, p ∈ d' -> p ∈ d \/ p.2 ∈ l).
Proof.
  revert d. induction l as [|t l IH]; intros d Hd; simpl.
  - split_and!; [done| |by left]. intros n. split; [by left|]. intros [?|(t & Ht & _)]; [done|by apply elem_of_nil in Ht].
  - assert (Hd' : keyed (dset (tg_target t) t d)).
    { destruct Hd as [Hw Hk]. split; [by apply dwf_dset|]. intros n u [E|H]%elem_dset; [by injection E as -> ->|by apply Hk]. }
    destruct (IH _ Hd') as (H1 & H2 & H3). split_and!; [done| |].
    + intros n. rewrite H2, elem_dkeys_dset. setoid_rewrite elem_of_cons. naive_solver.
    + intros p Hp. destruct (H3 p Hp) as [H|H]; [|right; by right]. apply elem_dset in H as [->|H]; [right; by left|by left].
Qed.

(** The lookup of a value succeeds exactly when all configured targets that answer to it
    have one number, and then returns one of them; otherwise it says whether there was
    none or more than one. *)
Theorem resolve_target_exact targets value :
  match resolve_target targets value with
  | Ok r => exists t, t ∈ targets /\ answers value t = true /\
      r = Resolution (tg_target t) (tg_name t) (tg_worker_id t) (binding t) /\
      forall u, u ∈ targets -> answers value u = true -> tg_target u = tg_target t
  | Raise InvalidTarget => forall u, u ∈ targets -> answers value u = false
  | Raise AmbiguousTarget => exists t u, t ∈ targets /\ u ∈ targets /\ answers value t = true /\ answers value u = true /\
      tg_target t <> tg_target u
  end.
Proof.
  unfold resolve_target. set (l := filter (fun t => answers value t = true) targets).
  assert (Hl : forall t, t ∈ l <-> answers value t = true /\ t ∈ targets) by (intros t; unfold l; by rewrite list_elem_of_filter).
  destruct (dict_of_targets l []) as ([Hw Hk] & Hkeys & Hin); [split; [apply dwf_nil|by intros n t H%elem_of_nil]|].
  set (d := foldl _ [] l) in *. assert (Hkeys' : forall n, n ∈ dkeys d <-> exists t, t ∈ l /\ n = tg_target t).
  { intros n. rewrite Hkeys. split; [|by right]. intros [H|?]; [by apply elem_of_nil in H|done]. }
  assert (Hval : forall p, p ∈ d -> p.2 ∈ l) by (intros p Hp; destruct (Hin p Hp) as [H|H]; [by apply elem_of_nil in H|done]).
  destruct d as [|[n t] [|[m u] d']] eqn:Ed.
  - intros u Hu. destruct (answers value u) eqn:E; [|done]. assert (Hn : tg_target u ∈ dkeys (@nil (Z * Target))).
    { apply Hkeys'. exists u. split; [by apply Hl|done]. } by apply elem_of_nil in Hn.
  - assert (Ht : t ∈ l) by (apply (Hval (n, t)); left). exists t. pose proof (proj1 (Hl t) Ht) as [? ?]. split_and!; [done..|].
    intros u Hu Ha. assert (Hn : tg_target u ∈ dkeys [(n, t)]) by (apply Hkeys'; exists u; split; [by apply Hl|done]).
    apply list_elem_of_singleton in Hn. rewrite Hn. apply Hk. left.
  - exists t, u. assert (Ht : t ∈ l) by (apply (Hval (n, t)); left). assert (Hu : u ∈ l) by (apply (Hval (m, u)); right; left).
    apply Hl in Ht as [? ?]. apply Hl in Hu as [? ?]. split_and!; [done..|].
    rewrite <- (Hk n t), <- (Hk m u) by (left || (right; left)). unfold dwf, dkeys in Hw. simpl in Hw.
    apply NoDup_cons in Hw as [Hw _]. intros ->. apply Hw. left.
Qed.
