(* ===== verification/Shlex.v ===== *)
(** * Splitting a command line

    [shlex.split(command)] of the Standard Library as [management.py] uses it: POSIX
    rules, splitting at whitespace, no comments.  [None] is the [ValueError] of an open
    quotation or a final backslash. *)

From S2P Require Import Prelude Dict PyValue.
From Stdlib Require Import Ascii.

Inductive lex_state :=
| Between                       (* ' ' *)
| InWord                        (* 'a' *)
| Quoted (quote : ascii)
| Escaped (back : lex_state).   (* after a backslash; the state to return to *)

Definition backslash : ascii := ascii_of_nat 92.
Definition lex_space (c : ascii) : bool :=
  let n := nat_of_ascii c in (n =? 32)%nat || (n =? 9)%nat || (n =? 13)%nat || (n =? 10)%nat.
Definition is_quote (c : ascii) : bool := Ascii.eqb c single_quote || Ascii.eqb c double_quote.

(** [token]: the characters so far, last first; [quoted]: a quotation was opened. *)
Fixpoint lex (st : lex_state) (token : list ascii) (quoted : bool) (l : list ascii) : option (list string) :=
  let emit rest := if quoted || negb (bool_decide (token = []))
                   then cons (of_chars (reverse token)) <$> rest else rest in
  match l with
  | [] =>
      match st with
      | Between | InWord => emit (Some [])
      | Quoted _ | Escaped _ => None
      end
  | c :: l =>
      match st with
      | Between | InWord =>
          if lex_space c then emit (lex Between [] false l)
          else if is_quote c then lex (Quoted c) token quoted l
          else if Ascii.eqb c backslash then lex (Escaped InWord) token quoted l
          else lex InWord (c :: token) quoted l
      | Quoted q =>
          if Ascii.eqb c q then lex InWord token true l
          else if Ascii.eqb c backslash && Ascii.eqb q double_quote then lex (Escaped (Quoted q)) token true l
          else lex (Quoted q) (c :: token) true l
      | Escaped back =>
          let kept := match back with
                      | Quoted q => if negb (Ascii.eqb c backslash) && negb (Ascii.eqb c q) then backslash :: token else token
                      | _ => token
                      end in
          lex back (c :: kept) quoted l
      end
  end.

Definition shlex_split (command : string) : option (list string) := lex Between [] false (chars command).

Example shlex_split_words : shlex_split "apt  install 'a b' c\ d" = Some ["apt"; "install"; "a b"; "c d"].
Proof. reflexivity. Qed.
Example shlex_split_open : shlex_split "apt 'x" = None.
Proof. reflexivity. Qed.

(** Words of plain characters, joined by single spaces, are read back. *)
Definition plain_char (c : ascii) : bool := negb (lex_space c || is_quote c || Ascii.eqb c backslash).
Definition plain_word (w : string) : Prop := w <> "" /\ Forall (fun c => plain_char c = true) (chars w).

Lemma lex_plain w st token quoted l :
  st = Between \/ st = InWord -> Forall (fun c => plain_char c = true) w -> w <> [] ->
  lex st token quoted (w ++ l) = lex InWord (reverse w ++ token) quoted l.
Proof.
  revert st token. induction w as [|c w IH]; intros st token Hst Hw Hne; [done|].
  apply Forall_cons in Hw as [Hc Hw]. unfold plain_char in Hc. apply negb_true_iff in Hc.
  apply orb_false_iff in Hc as [Hc Hb]. apply orb_false_iff in Hc as [Hs Hq].
  assert (E : lex st token quoted ((c :: w) ++ l) = lex InWord (c :: token) quoted (w ++ l)).
  { destruct Hst as [-> | ->]; cbn [app lex]; by rewrite Hs, Hq, Hb. }
  rewrite E. destruct w as [|c' w]; [done|]. rewrite IH; [|by right|done|done].
  by rewrite (reverse_cons (c' :: w) c), <- app_assoc.
Qed.

(** ** [shlex.quote] and [shlex.join] *)

(** [[\w@%+=:,./-]] with [re.ASCII] *)
Definition safe_char (c : ascii) : bool :=
  let n := nat_of_ascii c in
  ((48 <=? n)%nat && (n <=? 57)%nat) || ((65 <=? n)%nat && (n <=? 90)%nat) || ((97 <=? n)%nat && (n <=? 122)%nat) ||
  bool_decide (c ∈ chars "_@%+=:,./-").

(** [c.replace("'", "'\"'\"'")] *)
Definition quote_char (c : ascii) : list ascii :=
  if Ascii.eqb c single_quote then [single_quote; double_quote; single_quote; double_quote; single_quote] else [c].

Definition shlex_quote (s : string) : string :=
  if decide (s = "") then of_chars [single_quote; single_quote]
  else if forallb safe_char (chars s) then s
  else of_chars ([single_quote] ++ (chars s ≫= quote_char) ++ [single_quote]).

Definition shlex_join (args : list string) : string := join " " (shlex_quote <$> args).

Example shlex_join_words : shlex_join ["sh"; "-c"; "echo 'a b' > x"; ""] =
  ("sh -c 'echo '" +:+ of_chars [double_quote] +:+ "'" +:+ of_chars [double_quote] +:+ "'a b'" +:+
   of_chars [double_quote] +:+ "'" +:+ of_chars [double_quote] +:+ "' > x' ''")%stdpp.
Proof. reflexivity. Qed.

Lemma chars_app a b : chars (a +:+ b) = chars a ++ chars b.
Proof. induction a as [|c a IH]; [done|]. simpl. by rewrite IH. Qed.

Lemma safe_char_plain c : safe_char c = true -> plain_char c = true.
Proof. destruct c as [[] [] [] [] [] [] [] []]; vm_compute; congruence. Qed.

Lemma lex_quoted s token quoted l :
  lex (Quoted single_quote) token quoted ((s ≫= quote_char) ++ single_quote :: l) = lex InWord (reverse s ++ token) true l.
Proof.
  revert token quoted. induction s as [|c s IH]; intros token quoted; [done|].
  assert (Er : reverse (c :: s) ++ token = reverse s ++ c :: token) by (by rewrite reverse_cons, <- app_assoc).
  rewrite Er, bind_cons, <- app_assoc. unfold quote_char at 1. destruct (Ascii.eqb c single_quote) eqn:E.
  - apply Ascii.eqb_eq in E as ->. exact (IH (single_quote :: token) true).
  - cbn [app lex]. rewrite E. replace (Ascii.eqb single_quote double_quote) with false by done.
    rewrite andb_false_r. apply IH.
Qed.

(** A text that is read as one word. *)
Definition reads (t word : string) : Prop := forall l,
  exists quoted, lex Between [] false (chars t ++ l) = lex InWord (reverse (chars word)) quoted l /\
    (quoted || negb (bool_decide (reverse (chars word) = []))) = true.

Lemma plain_reads w : plain_word w -> reads w w.
Proof.
  intros [Hne Hw] l. exists false. assert (Hch : chars w <> []) by (by destruct w). rewrite lex_plain; [|by left|done|done].
  rewrite app_nil_r. split; [done|]. apply negb_true_iff, bool_decide_eq_false. intros Hr. apply Hch.
  by rewrite <- (reverse_involutive (chars w)), Hr.
Qed.

(** A quoted argument is read as one word, whatever its characters. *)
Lemma quote_reads s : reads (shlex_quote s) s.
Proof.
  intros l. unfold shlex_quote. destruct (decide (s = "")) as [-> | Hne].
  - exists true. by rewrite chars_of_chars.
  - destruct (forallb safe_char (chars s)) eqn:E.
    + apply plain_reads. split; [done|]. apply Forall_forall. intros c Hc. apply safe_char_plain. rewrite forallb_forall in E. apply E. by apply list_elem_of_In.
    + exists true. rewrite chars_of_chars, <- !app_assoc. cbn [app lex].
      replace (lex_space single_quote) with false by done. replace (is_quote single_quote) with true by done.
      rewrite lex_quoted. by rewrite app_nil_r.
Qed.

Lemma split_reads texts words : Forall2 reads texts words -> shlex_split (join " " texts) = Some words.
Proof.
  unfold shlex_split. induction 1 as [|t w texts words Hr Hrs IH]; [done|]. destruct texts as [|t2 texts].
  - inversion Hrs; subst. cbn [join]. rewrite <- (app_nil_r (chars _)). destruct (Hr []) as (quoted & -> & H).
    cbn [lex]. rewrite H. cbn. by rewrite reverse_involutive, of_chars_chars.
  - change (join " " (t :: t2 :: texts)) with (t +:+ " " +:+ join " " (t2 :: texts)).
    rewrite !chars_app. destruct (Hr (chars " " ++ chars (join " " (t2 :: texts)))) as (quoted & -> & H).
    cbn [chars app lex]. simpl lex_space. cbn match. rewrite H, IH. cbn. by rewrite reverse_involutive, of_chars_chars.
Qed.

Lemma quotes_read args : Forall2 reads (shlex_quote <$> args) args.
Proof. induction args; constructor; [apply quote_reads|done]. Qed.

(** [shlex.split] reads back what [shlex.join] wrote. *)
Lemma shlex_split_join args : shlex_split (shlex_join args) = Some args.
Proof. apply split_reads, quotes_read. Qed.

Lemma shlex_split_plain words : Forall plain_word words -> shlex_split (join " " words) = Some words.
Proof. intros H. apply split_reads. induction H; constructor; [by apply plain_reads|done]. Qed.
