(* ===== verification/Base64.v ===== *)
(** * Base64

    [base64.b64encode] and [base64.b64decode(..., validate=True)] of the Standard
    Library, on lists of bytes. *)

From S2P Require Import Prelude Dict Utf8 Sha256 PyValue JsonText JsonParse.
From Stdlib Require Import Ascii.
Open Scope Z_scope.

Definition b64_char (n : Z) : Z :=
  if n <? 26 then 65 + n else if n <? 52 then 71 + n else if n <? 62 then n - 4 else if n =? 62 then 43 else 47.

Definition b64_value (c : Z) : option Z :=
  if (65 <=? c) && (c <=? 90) then Some (c - 65)
  else if (97 <=? c) && (c <=? 122) then Some (c - 71)
  else if (48 <=? c) && (c <=? 57) then Some (c + 4)
  else if c =? 43 then Some 62
  else if c =? 47 then Some 63
  else None.

Fixpoint b64encode (l : bytes) : bytes :=
  match l with
  | a :: b :: c :: l =>
      [b64_char (a / 4); b64_char (a mod 4 * 16 + b / 16); b64_char (b mod 16 * 4 + c / 64); b64_char (c mod 64)]
        ++ b64encode l
  | [a; b] => [b64_char (a / 4); b64_char (a mod 4 * 16 + b / 16); b64_char (b mod 16 * 4); 61]
  | [a] => [b64_char (a / 4); b64_char (a mod 4 * 16); 61; 61]
  | [] => []
  end.

(** The two bytes every group starts with. *)
Definition b64_first (x y : Z) : Z := x * 4 + y / 16.
Definition b64_second (y z : Z) : Z := y mod 16 * 16 + z / 4.

Fixpoint b64decode (l : bytes) : option bytes :=
  match l with
  | [] => Some []
  | a :: b :: c :: d :: l =>
      match b64_value a, b64_value b with
      | Some x, Some y =>
          if d =? 61 then
            match l, b64_value c with
            | [], Some z => Some [b64_first x y; b64_second y z]
            | [], None => if c =? 61 then Some [b64_first x y] else None
            | _, _ => None
            end
          else
            match b64_value c, b64_value d, b64decode l with
            | Some z, Some t, Some rest => Some (b64_first x y :: b64_second y z :: z mod 4 * 64 + t :: rest)
            | _, _, _ => None
            end
      | _, _ => None
      end
  | _ => None
  end.

Example b64encode_man : b64encode (lit "Man, a") = lit "TWFuLCBh".
Proof. reflexivity. Qed.
Example b64decode_man : b64decode (lit "TWFuLCA=") = Some (lit "Man, ").
Proof. reflexivity. Qed.

Lemma b64_value_char n : 0 <= n < 64 -> b64_value (b64_char n) = Some n.
Proof.
  intros H. assert (Hall : forallb (fun n => bool_decide (b64_value (b64_char (Z.of_nat n)) = Some (Z.of_nat n))) (seq 0 64) = true)
    by (vm_compute; reflexivity).
  rewrite forallb_forall in Hall. specialize (Hall (Z.to_nat n)). rewrite Z2Nat.id in Hall by lia.
  eapply bool_decide_eq_true_1, Hall, list_elem_of_In, elem_of_seq. lia.
Qed.

Lemma b64_char_not_pad n : 0 <= n < 64 -> b64_char n <> 61.
Proof.
  intros H. unfold b64_char. destruct (n <? 26) eqn:?, (n <? 52) eqn:?, (n <? 62) eqn:?, (n =? 62) eqn:?; bool_to_prop; lia.
Qed.

Definition byte (x : Z) : Prop := 0 <= x < 256.

Lemma b64_group a b c : byte a -> byte b -> byte c ->
  b64_first (a / 4) (a mod 4 * 16 + b / 16) = a /\
  b64_second (a mod 4 * 16 + b / 16) (b mod 16 * 4 + c / 64) = b /\
  (b mod 16 * 4 + c / 64) mod 4 * 64 + c mod 64 = c.
Proof. unfold byte, b64_first, b64_second. intros. Z.to_euclidean_division_equations. lia. Qed.

Lemma b64_ranges a b c : byte a -> byte b -> byte c ->
  0 <= a / 4 < 64 /\ 0 <= a mod 4 * 16 + b / 16 < 64 /\ 0 <= b mod 16 * 4 + c / 64 < 64 /\ 0 <= c mod 64 < 64.
Proof. unfold byte. intros. Z.to_euclidean_division_equations. lia. Qed.

(** Decoding an encoding gives the bytes back. *)
Lemma b64_roundtrip l : Forall byte l -> b64decode (b64encode l) = Some l.
Proof.
  induction l as [l IH] using (induction_ltof1 _ (@length Z)). unfold ltof in IH.
  destruct l as [|a [|b [|c l]]]; rewrite ?Forall_cons; [done|..].
  - intros [Ha _]. pose proof (b64_ranges a 0 0 Ha ltac:(done) ltac:(done)) as (? & ? & _).
    pose proof (b64_group a 0 0 Ha ltac:(done) ltac:(done)) as (Hg & _). rewrite Z.div_0_l, Z.add_0_r in * by lia.
    cbn [b64encode b64decode]. rewrite !b64_value_char by lia. simpl. by rewrite Hg.
  - intros (Ha & Hb & _). pose proof (b64_ranges a b 0 Ha Hb ltac:(done)) as (? & ? & ? & _).
    pose proof (b64_group a b 0 Ha Hb ltac:(done)) as (Hg & Hg' & _). rewrite (Z.div_0_l 64), !Z.add_0_r in * by lia.
    cbn [b64encode b64decode]. rewrite !b64_value_char by lia. simpl. by rewrite Hg, Hg'.
  - intros (Ha & Hb & Hc & Hl). pose proof (b64_ranges a b c Ha Hb Hc) as (? & ? & ? & ?).
    pose proof (b64_group a b c Ha Hb Hc) as (Hg1 & Hg2 & Hg3).
    cbn [b64encode b64decode app]. rewrite !b64_value_char by lia.
    rewrite (proj2 (Z.eqb_neq _ _)) by (by apply b64_char_not_pad).
    rewrite IH by (simpl; try lia; done). by rewrite Hg1, Hg2, Hg3.
Qed.

(** The encoding of bytes is ASCII text. *)
Lemma b64encode_length l : Z.of_nat (length (b64encode l)) = 4 * ((Z.of_nat (length l) + 2) / 3).
Proof.
  induction l as [l IH] using (induction_ltof1 _ (@length Z)). unfold ltof in IH.
  destruct l as [|a [|b [|c l]]]; [done..|]. cbn [b64encode]. rewrite length_app, Nat2Z.inj_add, (IH l) by (simpl; lia).
  change (Z.of_nat (length [_; _; _; _])) with 4. simpl length. rewrite !Nat2Z.inj_succ.
  replace (Z.succ (Z.succ (Z.succ (Z.of_nat (length l)))) + 2) with (Z.of_nat (length l) + 2 + 1 * 3) by lia. rewrite Z.div_add by lia. lia.
Qed.

Lemma b64_char_byte n : 0 <= n < 64 -> byte (b64_char n).
Proof. intros H. unfold byte, b64_char. repeat case_match; bool_to_prop; lia. Qed.

Lemma b64encode_bytes l : Forall byte l -> Forall byte (b64encode l).
Proof.
  assert (Hz : byte 0) by done. assert (Hp : byte 61) by done.
  induction l as [l IH] using (induction_ltof1 _ (@length Z)). unfold ltof in IH.
  destruct l as [|a [|b [|c l]]]; rewrite ?Forall_cons; [done|..].
  - intros [Ha _]. pose proof (b64_ranges a 0 0 Ha Hz Hz) as (? & ? & _). rewrite Z.div_0_l, Z.add_0_r in * by lia.
    cbn [b64encode]. repeat constructor; done || by apply b64_char_byte.
  - intros (Ha & Hb & _). pose proof (b64_ranges a b 0 Ha Hb Hz) as (? & ? & ? & _). rewrite (Z.div_0_l 64), Z.add_0_r in * by lia.
    cbn [b64encode]. repeat constructor; done || by apply b64_char_byte.
  - intros (Ha & Hb & Hc & Hl). pose proof (b64_ranges a b c Ha Hb Hc) as (? & ? & ? & ?).
    cbn [b64encode]. apply Forall_app. split; [repeat constructor; by apply b64_char_byte|]. apply IH; [simpl; lia|done].
Qed.

(** Bytes that travel as a string. *)
Lemma string_bytes_of_bytes bs : Forall byte bs -> string_bytes (string_of_bytes bs) = bs.
Proof.
  induction 1 as [|b bs Hb _ IH]; simpl; [done|]. unfold byte in Hb. rewrite IH. f_equal.
  rewrite Ascii.nat_ascii_embedding by lia. lia.
Qed.
