(* ===== verification/Seal.v ===== *)
(** * Sealed output snapshots

    How a worker seals the lengths of an output ([worker.py], [_snapshot]) so that it can
    later serve exactly these bytes without keeping state: [hmac.new(key, raw, sha256)]
    and the URL-safe base64 of the Standard Library. *)

From S2P Require Import Prelude Dict Utf8 Sha256 PyValue JsonText JsonParse Base64.
Open Scope Z_scope.

(** ** HMAC-SHA256 *)

Definition block_key (key : bytes) : bytes :=
  let k := if (64 <? length key)%nat then sha256 key else key in k ++ repeat 0 (64 - length k).
Definition hmac_sha256 (key msg : bytes) : bytes :=
  sha256 ((Z.lxor 92 <$> block_key key) ++ sha256 ((Z.lxor 54 <$> block_key key) ++ msg)).

(** ** URL-safe base64 *)

Definition to_url (c : Z) : Z := if c =? 43 then 45 else if c =? 47 then 95 else c.
Definition from_url (c : Z) : Z := if c =? 45 then 43 else if c =? 95 then 47 else c.

Definition urlsafe_b64encode (l : bytes) : bytes := to_url <$> b64encode l.

(** [binascii.a2b_base64] without [strict_mode]: characters outside of the alphabet are
    skipped, and enough padding ends the input.  [pos] counts the characters of the
    current group, [left] holds the bits that are not yet part of a byte. *)
Fixpoint a2b (pos left pads : Z) (l : bytes) : option bytes :=
  match l with
  | [] => if pos =? 0 then Some [] else None
  | c :: l =>
      if c =? 61 then
        if 2 <=? pos then if 4 <=? pos + (pads + 1) then Some [] else a2b pos left (pads + 1) l
        else a2b pos left pads l
      else
        match b64_value c with
        | None => a2b pos left pads l
        | Some v =>
            if pos =? 0 then a2b 1 v 0 l
            else if pos =? 1 then cons (left * 4 + v / 16) <$> a2b 2 (v mod 16) 0 l
            else if pos =? 2 then cons (left * 16 + v / 4) <$> a2b 3 (v mod 4) 0 l
            else cons (left * 64 + v) <$> a2b 0 0 0 l
        end
  end.

Definition urlsafe_b64decode (l : bytes) : option bytes := a2b 0 0 0 (from_url <$> l).

(** ** Seals *)

(** [base64.urlsafe_b64encode(signature + raw).decode()] *)
Definition seal (key raw : bytes) : string := string_of_bytes (urlsafe_b64encode (hmac_sha256 key raw ++ raw)).

(** The check of the [output] request: the sealed bytes, or [None]. *)
Definition unseal (key : bytes) (snapshot : string) : option bytes :=
  match urlsafe_b64decode (string_bytes snapshot) with
  | Some raw => if bool_decide (take 32 raw = hmac_sha256 key (drop 32 raw)) then Some (drop 32 raw) else None
  | None => None
  end.

(** ** A seal opens *)

Lemma a2b_char pos left pads n l :
  0 <= n < 64 ->
  a2b pos left pads (b64_char n :: l) =
    if pos =? 0 then a2b 1 n 0 l
    else if pos =? 1 then cons (left * 4 + n / 16) <$> a2b 2 (n mod 16) 0 l
    else if pos =? 2 then cons (left * 16 + n / 4) <$> a2b 3 (n mod 4) 0 l
    else cons (left * 64 + n) <$> a2b 0 0 0 l.
Proof. intros H. cbn [a2b]. rewrite (proj2 (Z.eqb_neq _ _)) by (by apply b64_char_not_pad). by rewrite b64_value_char. Qed.

Lemma a2b_encode l : Forall byte l -> a2b 0 0 0 (b64encode l) = Some l.
Proof.
  assert (Hz : byte 0) by done. induction l as [l IH] using (induction_ltof1 _ (@length Z)). unfold ltof in IH.
  destruct l as [|a [|b [|c l]]]; rewrite ?Forall_cons; [done|..].
  - intros [Ha _]. pose proof (b64_ranges a 0 0 Ha Hz Hz) as (? & ? & _). pose proof (b64_group a 0 0 Ha Hz Hz) as (Hg & _).
    rewrite Z.div_0_l, Z.add_0_r in * by lia. cbn [b64encode]. rewrite !a2b_char by lia. simpl. unfold b64_first in Hg. by rewrite Hg.
  - intros (Ha & Hb & _). pose proof (b64_ranges a b 0 Ha Hb Hz) as (? & ? & ? & _). pose proof (b64_group a b 0 Ha Hb Hz) as (Hg & Hg' & _).
    rewrite (Z.div_0_l 64), !Z.add_0_r in * by lia. cbn [b64encode]. rewrite !a2b_char by lia. simpl.
    unfold b64_first, b64_second in *. by rewrite Hg, Hg'.
  - intros (Ha & Hb & Hc & Hl). pose proof (b64_ranges a b c Ha Hb Hc) as (? & ? & ? & ?).
    pose proof (b64_group a b c Ha Hb Hc) as (Hg1 & Hg2 & Hg3). cbn [b64encode app]. rewrite !a2b_char by lia. cbn [Z.eqb].
    rewrite IH by (simpl; try lia; done). simpl. unfold b64_first, b64_second in *. by rewrite Hg1, Hg2, Hg3.
Qed.

Lemma b64_char_plain n : 0 <= n < 64 -> b64_char n <> 45 /\ b64_char n <> 95.
Proof. intros H. unfold b64_char. repeat case_match; bool_to_prop; lia. Qed.

Lemma b64encode_plain l : Forall byte l -> Forall (fun c => c <> 45 /\ c <> 95) (b64encode l).
Proof.
  assert (Hz : byte 0) by done. induction l as [l IH] using (induction_ltof1 _ (@length Z)). unfold ltof in IH.
  destruct l as [|a [|b [|c l]]]; rewrite ?Forall_cons; [done|..].
  - intros [Ha _]. pose proof (b64_ranges a 0 0 Ha Hz Hz) as (? & ? & _). rewrite Z.div_0_l, Z.add_0_r in * by lia.
    cbn [b64encode]. repeat constructor; (by apply b64_char_plain) || done.
  - intros (Ha & Hb & _). pose proof (b64_ranges a b 0 Ha Hb Hz) as (? & ? & ? & _). rewrite (Z.div_0_l 64), Z.add_0_r in * by lia.
    cbn [b64encode]. repeat constructor; (by apply b64_char_plain) || done.
  - intros (Ha & Hb & Hc & Hl). pose proof (b64_ranges a b c Ha Hb Hc) as (? & ? & ? & ?).
    cbn [b64encode]. apply Forall_app. split; [repeat constructor; by apply b64_char_plain|]. apply IH; [simpl; lia|done].
Qed.

Lemma url_plain l : Forall (fun c => c <> 45 /\ c <> 95) l -> from_url <$> (to_url <$> l) = l.
Proof.
  induction 1 as [|c l [H1 H2] _ IH]; [done|]. rewrite !fmap_cons, IH. f_equal. unfold from_url, to_url.
  destruct (c =? 43) eqn:E1; [bool_to_prop; by subst|]. destruct (c =? 47) eqn:E2; [bool_to_prop; by subst|].
  by rewrite (proj2 (Z.eqb_neq c 45)), (proj2 (Z.eqb_neq c 95)).
Qed.

Lemma urlsafe_roundtrip l : Forall byte l -> urlsafe_b64decode (urlsafe_b64encode l) = Some l.
Proof.
  intros H. unfold urlsafe_b64decode, urlsafe_b64encode. rewrite url_plain by (by apply b64encode_plain). by apply a2b_encode.
Qed.

Lemma to_url_byte c : byte c -> byte (to_url c).
Proof. unfold byte, to_url. intros. repeat case_match; lia. Qed.

Lemma hmac_shape key msg : length (hmac_sha256 key msg) = 32%nat /\ Forall byte (hmac_sha256 key msg).
Proof. apply sha256_shape. Qed.

(** The worker opens its own seals. *)
Lemma unseal_seal key raw : Forall byte raw -> unseal key (seal key raw) = Some raw.
Proof.
  intros Hr. destruct (hmac_shape key raw) as [Hl Hb]. unfold unseal, seal.
  assert (Hall : Forall byte (hmac_sha256 key raw ++ raw)) by (by apply Forall_app).
  rewrite string_bytes_of_bytes, urlsafe_roundtrip; [|done|].
  - rewrite <- Hl. rewrite take_app_length, drop_app_length. by rewrite bool_decide_true.
  - unfold urlsafe_b64encode. apply Forall_fmap. eapply Forall_impl; [by apply b64encode_bytes|]. intros c. apply to_url_byte.
Qed.
