(* ===== verification/Protocol.v ===== *)
(** * Errors, digests and argument checks of the worker protocol

    [python/pal_shell_worker/protocol.py]: the structured error every component raises,
    the canonical form that fingerprints and signatures are computed from, the frame
    limits, and the two argument validators.  msgpack is a parameter of [encode] and
    [decode]. *)

From S2P Require Import Prelude Dict Utf8 Sha256 PyValue JsonText.
From Stdlib Require Import Ascii.
Open Scope Z_scope.

(** [RemoteError]: the message is for people and is left out. *)
Record RemoteError := remote_error {
  re_code : string;
  re_effect : string;
  re_operation_id : string
}.

#[export] Instance RemoteError_eq_dec : EqDecision RemoteError.
Proof. solve_decision. Defined.

(** [RemoteError(code, ...)] with the default effect and operation. *)
Definition remote (code : string) : RemoteError := remote_error code "not_started" "".
(** [RemoteError(code, ..., effect='unknown')] *)
Definition remote_unknown (code : string) : RemoteError := remote_error code "unknown" "".

Definition MAX_FRAME : Z := 1024 * 1024.
Definition CHUNK_BYTES : Z := 256 * 1024.
Definition OUTPUT_BYTES : Z := 8 * 1024 * 1024.
Definition RETAINED_BYTES : Z := 128 * 1024 * 1024.

(** [TERMINAL], the states in which a command is over. *)
Definition TERMINAL_STATES : list string := ["exited"; "cancelled"; "timed_out"; "failed"].

(** ** Canonical form *)

Definition canonical_json (value : json) : bytes := json_dumps true value.
Definition digest (value : json) : string := sha256_hex (canonical_json value).
Definition auth_message (nonce worker_id epoch client_id : string) : bytes :=
  canonical_json (JList [JStr "pal-shell-auth-v1"; JStr nonce; JStr worker_id; JStr epoch; JStr client_id]).

(** ** Frames *)

Section frames.
Variable packb : json -> bytes.                 (* msgpack.packb *)
Variable unpackb : bytes -> option json.        (* msgpack.unpackb *)

Definition encode (value : json) : res RemoteError bytes :=
  let raw := packb value in
  raise_if MAX_FRAME - 128 <? Z.of_nat (length raw) with remote "frame_limit" ;;
  Ok raw.

(** [None]: msgpack's own exception. *)
Definition decode (raw : bytes) : option (res RemoteError (list (string * json))) :=
  if MAX_FRAME <? Z.of_nat (length raw) then Some (Raise (remote "frame_limit"))
  else
    match unpackb raw with
    | None => None
    | Some (JObj d) => Some (Ok d)
    | Some _ => Some (Raise (remote "invalid_request"))
    end.
End frames.

(** ** Argument checks *)

Definition MAX_INT : Z := 2 ^ 31 - 1.

Definition integer (value : json) (low high : Z) : res RemoteError Z :=
  match value with
  | JInt z => if (low <=? z) && (z <=? high) then Ok z else Raise (remote "invalid_request")
  | _ => Raise (remote "invalid_request")
  end.

Definition TEXT_LIMIT : Z := 65536.

(** The function [text]; a string of the model is its UTF-8 bytes. *)
Definition text_value (value : json) (empty : bool) (limit : Z) : res RemoteError string :=
  match value with
  | JStr s =>
      if existsb (Ascii.eqb zero) (chars s) || (negb empty && negb (str_truthy s)) ||
         (limit <? Z.of_nat (String.length s))
      then Raise (remote "invalid_request")
      else Ok s
  | _ => Raise (remote "invalid_request")
  end.

Lemma integer_ok value low high z : integer value low high = Ok z <-> value = JInt z /\ low <= z <= high.
Proof.
  unfold integer. destruct value; try (split; [done|by intros [? _]]).
  destruct (_ && _) eqn:E; bool_to_prop.
  - split; [intros [= <-]; split; [done|lia]|]. by intros [[= ->] _].
  - split; [done|]. intros [[= ->] H]. apply andb_false_iff in E. rewrite !Z.leb_gt in E. lia.
Qed.

Lemma text_value_ok value empty limit s :
  text_value value empty limit = Ok s ->
  value = JStr s /\ (empty = false -> s <> "") /\ Z.of_nat (String.length s) <= limit.
Proof.
  unfold text_value. destruct value as [| | |s'| |]; try done. destruct (_ || _ || _) eqn:E; [done|]. intros [= <-].
  apply orb_false_iff in E as [E Hl]. apply orb_false_iff in E as [_ E]. bool_to_prop. split_and!; [done| |lia].
  intros ->. simpl in E. apply negb_false_iff in E. by apply str_truthy_spec.
Qed.

#[export] Hint Resolve text_value_ok : pal.
