(* ===== verification/Canonical.v ===== *)
(** * Canonical JSON is read back

    [canonical] of [protocol.py] writes a value with sorted keys and ASCII escapes; digests
    and signatures are taken of its bytes, and envelopes travel in this form.  A reader gets
    the value with its keys in order ([sort_keys]), which Python cannot tell from the value
    that was written: it compares equal, has the same canonical bytes and the same digest. *)

From S2P Require Import Prelude Dict Utf8 Sha256 PyValue JsonText JsonParse Protocol Base64.
From Stdlib Require Import Ascii.
Open Scope Z_scope.

Definition member_le (p q : string * json) : Prop := String.le p.1 q.1.

#[export] Instance member_le_dec : RelDecision member_le.
Proof. intros p q. unfold member_le. apply _. Defined.

Fixpoint sort_keys (v : json) : json :=
  match v with
  | JList l => JList (map sort_keys l)
  | JObj d => JObj (merge_sort member_le (map (fun p => (p.1, sort_keys p.2)) d))
  | _ => v
  end.

(** The members of a dictionary in the order of their keys. *)
Definition sorted_members (d : obj) : obj := merge_sort member_le (map (fun p => (p.1, sort_keys p.2)) d).

(** ** Sorting commutes with a map that keeps the order *)

Section sort_map.
Context {A B} (R : relation A) (R' : relation B) `{!RelDecision R, !RelDecision R'} (g : A -> B).
Hypothesis same_order : forall x y, R' (g x) (g y) <-> R x y.

Lemma list_merge_map l1 l2 : list_merge R' (map g l1) (map g l2) = map g (list_merge R l1 l2).
Proof.
  revert l2. induction l1 as [|x l1 IH]; [by intros []|]. induction l2 as [|y l2 IH2]; [done|]. cbn [map].
  change (list_merge R' (g x :: map g l1) (g y :: map g l2)) with
    (if decide (R' (g x) (g y)) then g x :: list_merge R' (map g l1) (map g (y :: l2)) else g y :: list_merge R' (map g (x :: l1)) (map g l2)).
  change (list_merge R (x :: l1) (y :: l2)) with
    (if decide (R x y) then x :: list_merge R l1 (y :: l2) else y :: list_merge R (x :: l1) l2).
  pose proof (same_order x y). destruct (decide (R' (g x) (g y))), (decide (R x y)); try tauto; [rewrite (IH (y :: l2))|rewrite IH2]; done.
Qed.

Lemma merge_stack_map st : merge_stack R' (map (option_map (map g)) st) = map g (merge_stack R st).
Proof. induction st as [|[l|] st IH]; cbn [map option_map merge_stack]; [done|by rewrite IH, list_merge_map|done]. Qed.

Lemma merge_to_stack_map st l :
  merge_list_to_stack R' (map (option_map (map g)) st) (map g l) = map (option_map (map g)) (merge_list_to_stack R st l).
Proof. revert l. induction st as [|[x|] st IH]; intros l; cbn; [done| |done]. by rewrite list_merge_map, IH. Qed.

Lemma merge_sort_map l : merge_sort R' (map g l) = map g (merge_sort R l).
Proof.
  unfold merge_sort. change (@nil (option (list B))) with (map (option_map (map g)) []). generalize (@nil (option (list A))).
  induction l as [|x l IH]; intros st; cbn [map merge_sort_aux]; [apply merge_stack_map|].
  change [g x] with (map g [x]). rewrite merge_to_stack_map. apply IH.
Qed.
End sort_map.

(** ** The canonical bytes are the text of the sorted value *)

Lemma canonical_written v : canonical_json v = json_write json_string [] (sort_keys v).
Proof.
  unfold canonical_json. induction v as [|b|z|s|l IH|d IH] using json_nested_ind; cbn [json_dumps sort_keys json_write]; try done.
  - do 3 f_equal. rewrite map_map. by apply map_ext_Forall.
  - do 3 f_equal. rewrite (map_ext_Forall _ (fun p => (p.1, json_write json_string [] (sort_keys p.2)))) by
      (eapply Forall_impl; [exact IH|]; intros p ->; done).
    change (map (fun p => (p.1, json_write json_string [] (sort_keys p.2))) d) with
      (map (fun p : string * json => ((fun q => (q.1, json_write json_string [] q.2)) ((fun q => (q.1, sort_keys q.2)) p))) d).
    rewrite <- map_map, (merge_sort_map member_le key_le) by done. by rewrite map_map.
Qed.

(** ** Escaped strings are read back *)

Lemma hex_value_char d : 0 <= d < 16 -> hex_value (Z.of_nat (nat_of_ascii (hex_char d))) = Some d.
Proof.
  intros H. assert (H' : d ∈ (Z.of_nat <$> seq 0 16)) by (apply list_elem_of_fmap; exists (Z.to_nat d); rewrite elem_of_seq; lia).
  clear H. revert d H'. apply Forall_forall. by repeat constructor.
Qed.

Lemma parse_hex4_of n t : 0 <= n < 65536 -> parse_hex4 (hex4 n ++ t) = Some (n, t).
Proof.
  intros H. unfold hex4. cbn [fmap list_fmap app parse_hex4].
  rewrite !hex_value_char by (apply Z.mod_pos_bound; lia). f_equal. f_equal.
  change (16 ^ 3) with 4096. change (16 ^ 2) with 256. change (16 ^ 1) with 16. change (16 ^ 0) with 1. rewrite Z.div_1_r.
  rewrite (Z.mod_small (n / 4096)) by (split; [apply Z.div_pos; lia|apply Z.div_lt_upper_bound; lia]).
  replace (n / 4096) with (n / 16 / 16 / 16) by (rewrite !Z.div_div by lia; done).
  replace (n / 256) with (n / 16 / 16) by (rewrite !Z.div_div by lia; done).
  pose proof (Z.div_mod n 16 ltac:(lia)). pose proof (Z.div_mod (n / 16) 16 ltac:(lia)). pose proof (Z.div_mod (n / 16 / 16) 16 ltac:(lia)). lia.
Qed.

Lemma parse_string_escaped n c t :
  scalar c = true -> parse_string (S n) (json_char c ++ t) =
    match parse_string n t with Some (s, t) => Some (c :: s, t) | None => None end.
Proof.
  unfold scalar. intros Hc. bool_to_prop. unfold json_char.
  repeat (match goal with |- context [if ?c =? ?k then _ else _] => destruct (Z.eqb_spec c k) as [->|?]; [reflexivity|] end).
  destruct ((32 <=? c) && (c <=? 126)) eqn:E; bool_to_prop.
  { simpl. by rewrite (proj2 (Z.eqb_neq c 34)), (proj2 (Z.eqb_neq c 92)), (ltb_f c 32) by lia. }
  destruct (c <? 65536) eqn:E2; bool_to_prop; rewrite <- !app_assoc; change (lit "\u" ++ ?x) with (92 :: 117 :: x); cbn [parse_string Z.eqb Pos.eqb]; unfold parse_unicode.
  - rewrite parse_hex4_of by lia. destruct ((55296 <=? c) && (c <=? 56319)) eqn:E3; [bool_to_prop; lia|].
    destruct ((56320 <=? c) && (c <=? 57343)) eqn:E4; [bool_to_prop; lia|]. done.
  - assert (Hh : 0 <= (c - 65536) / 1024 < 1024) by (split; [apply Z.div_pos|apply Z.div_lt_upper_bound]; lia).
    pose proof (Z.mod_pos_bound (c - 65536) 1024 ltac:(lia)) as Hl. pose proof (Z.div_mod (c - 65536) 1024 ltac:(lia)) as Hd.
    rewrite parse_hex4_of by lia. rewrite (leb_t 55296), (leb_t _ 56319) by lia.
    change (lit "\u" ++ ?x) with (92 :: 117 :: x). cbn [andb Z.eqb Pos.eqb].
    rewrite parse_hex4_of by lia. rewrite (leb_t 56320), (leb_t _ 57343) by lia. cbn [andb].
    replace (65536 + _ + _) with c by lia. done.
Qed.

Lemma json_char_nonempty c : (1 <= length (json_char c))%nat.
Proof. unfold json_char. repeat case_match; simpl; lia. Qed.

Lemma parse_key_escaped s rest : text_ok s -> parse_key (json_string s ++ rest) = Some (s, rest).
Proof. apply parse_key_quoted; [apply json_char_nonempty|apply parse_string_escaped]. Qed.

(** ** The bytes are ASCII *)

Definition ascii_text (t : text) : Prop := Forall (fun c => 0 <= c < 128) t.

Lemma encode_ascii t : ascii_text t -> utf8_encode t = Some t.
Proof.
  induction 1 as [|c t Hc _ IH]; [done|]. cbn [utf8_encode]. rewrite scalar_low by lia. rewrite IH. unfold encode_char.
  by rewrite (proj2 (Z.ltb_lt _ _)) by lia.
Qed.

Lemma digits_ascii x s : ascii_text (string_bytes s) -> ascii_text (string_bytes (pretty_N_go x s)).
Proof.
  revert s. induction (N.lt_wf_0 x) as [x _ IH]. intros s Hs. destruct (decide (x = 0)%N) as [->|Hx]; [done|].
  rewrite pretty_N_go_step by lia. apply IH; [apply N.div_lt; lia|]. cbn [string_bytes]. constructor; [|done].
  pose proof (N.mod_lt x 10 ltac:(lia)) as Hm. rewrite digit_char_code by done. generalize dependent (x `mod` 10)%N. intros. lia.
Qed.

Lemma natural_ascii (n : N) : ascii_text (string_bytes (pretty n)).
Proof. unfold pretty, pretty_N. case_decide; [repeat constructor; simpl; lia|]. apply digits_ascii. constructor. Qed.

Lemma integer_ascii (z : Z) : ascii_text (lit (pretty z)).
Proof.
  unfold lit. destruct z as [|p|p]; [repeat constructor; simpl; lia|exact (natural_ascii (N.pos p))|].
  change (pretty (Z.neg p)) with ("-" +:+ pretty (N.pos p)). rewrite string_bytes_app. apply Forall_app.
  split; [repeat constructor; simpl; lia|apply natural_ascii].
Qed.

Lemma hex_char_ascii d : 0 <= d < 16 -> 0 <= Z.of_nat (nat_of_ascii (hex_char d)) < 128.
Proof. intros H%hex_value_char. unfold hex_value in H. repeat case_match; bool_to_prop; try done; lia. Qed.

Lemma hex4_ascii n : ascii_text (hex4 n).
Proof. unfold hex4. apply Forall_fmap, Forall_forall. intros i _. apply hex_char_ascii, Z.mod_pos_bound. lia. Qed.

Lemma json_char_ascii c : ascii_text (json_char c).
Proof.
  unfold json_char. repeat case_match; bool_to_prop; try (by repeat constructor; lia).
  all: repeat first [apply hex4_ascii|apply Forall_app; split|by repeat constructor; lia].
Qed.

Lemma json_string_ascii s : ascii_text (json_string s).
Proof.
  unfold json_string. repeat (apply Forall_app; split); try (by repeat constructor; lia).
  apply Forall_bind, Forall_forall. intros c _. apply json_char_ascii.
Qed.

Lemma ascii_join sep l : ascii_text sep -> Forall ascii_text l -> ascii_text (join_bytes sep l).
Proof.
  intros Hs. induction 1 as [|x l Hx Hl IH]; [constructor|]. rewrite join_cons. apply Forall_app. split; [done|].
  destruct l; [constructor|]. by apply Forall_app.
Qed.

Lemma written_ascii sp v : ascii_text sp -> ascii_text (json_write json_string sp v).
Proof.
  intros Hsp.
  assert (Hl : forall s, s ∈ ["null"; "true"; "false"; "["; "]"; "{"; "}"; ","; ":"] -> ascii_text (lit s)).
  { apply Forall_forall. repeat (constructor; [by repeat constructor; simpl; lia|]). constructor. }
  assert (Hsep : forall s, s ∈ [","; ":"] -> ascii_text (lit s ++ sp)).
  { intros s Hs. apply Forall_app. split; [apply Hl; set_solver|done]. }
  induction v as [|b|z|s|l IH|d IH] using json_nested_ind; cbn [json_write].
  - apply Hl. set_solver.
  - destruct b; apply Hl; set_solver.
  - apply integer_ascii.
  - apply json_string_ascii.
  - repeat (apply Forall_app; split); try (apply Hl; set_solver). apply ascii_join; [apply Hsep; set_solver|]. by apply Forall_map.
  - repeat (apply Forall_app; split); try (apply Hl; set_solver). apply ascii_join; [apply Hsep; set_solver|].
    apply Forall_map. eapply Forall_impl; [exact IH|]. intros p Hp. apply Forall_app. split; [apply json_string_ascii|].
    apply Forall_app. split; [apply Hsep; set_solver|done].
Qed.

(** Printable ASCII without quotes and backslashes, as identifiers and digests are. *)
Definition plain_text (s : string) : Prop := Forall (fun c => 32 <= c <= 126 /\ c <> 34 /\ c <> 92) (string_bytes s).

Lemma plain_ascii s : plain_text s -> ascii_text (string_bytes s).
Proof. intros H. eapply Forall_impl; [exact H|]. cbv beta. intros c. lia. Qed.

Lemma plain_ok s : plain_text s -> text_ok s.
Proof. intros Hs. exists (string_bytes s). by apply encode_ascii, plain_ascii. Qed.

Lemma plain_json s : plain_text s -> json_string s = [34] ++ string_bytes s ++ [34].
Proof.
  intros Hs. unfold json_string. rewrite (decode_encode (string_bytes s) (string_bytes s)) by (by apply encode_ascii, plain_ascii).
  cbn [default from_option id]. do 2 f_equal. induction Hs as [|c l (Hc & H1 & H2) _ IH]; [done|]. rewrite bind_cons, IH. unfold json_char.
  by rewrite !(proj2 (Z.eqb_neq c _)), !(proj2 (Z.leb_le _ _)) by lia.
Qed.

(** [json.dumps(value)]: insertion order, default separators, ASCII escapes. *)
Definition json_printed (v : json) : bytes := json_write json_string [32] v.

Lemma printed_loads v space : json_ok v -> ascii_text space -> skip_space space = [] -> json_loads (json_printed v ++ space) = Some v.
Proof.
  intros Hok Ha Hs. unfold json_loads, json_printed.
  rewrite (decode_encode _ (json_write json_string [32] v ++ space)) by
    (apply encode_ascii, Forall_app; split; [apply written_ascii; repeat constructor; lia|done]).
  apply parse_written; [by eexists|apply parse_key_escaped|done..].
Qed.

(** ** Sorting the keys *)

Lemma dwf_sorted d : dwf d -> dwf (sorted_members d).
Proof.
  unfold dwf, dkeys, sorted_members. intros H. rewrite (merge_sort_Permutation member_le). change (map ?f d) with (f <$> d).
  rewrite <- list_fmap_compose. exact H.
Qed.

Lemma elem_of_sorted d k v : (k, v) ∈ sorted_members d <-> exists x, v = sort_keys x /\ (k, x) ∈ d.
Proof.
  unfold sorted_members. rewrite (merge_sort_Permutation member_le). change (map ?f d) with (f <$> d). rewrite list_elem_of_fmap. split.
  - intros ([k' x] & [= -> ->] & Hin). by exists x.
  - intros (x & -> & Hin). by exists (k, x).
Qed.

(** Reading a member of the sorted dictionary. *)
Lemma dget_sorted d k : dwf d -> dget k (sorted_members d) = sort_keys <$> dget k d.
Proof.
  intros Hwf. apply dwf_sorted in Hwf as Hwf'. destruct (dget k d) as [x|] eqn:E; cbn.
  - apply elem_dget; [done|]. apply elem_of_sorted. exists x. split; [done|]. by apply dget_elem.
  - apply dget_None. intros H. apply list_elem_of_fmap in H as ([k' v] & -> & (x & -> & Hin)%elem_of_sorted).
    apply dget_None in E. apply E. by apply list_elem_of_fmap; exists (k', x).
Qed.

Lemma jget_sorted d k : dwf d -> jget k (sorted_members d) = sort_keys (jget k d).
Proof. intros H. unfold jget. rewrite dget_sorted by done. by destruct (dget k d). Qed.

#[export] Instance member_le_trans : Transitive member_le.
Proof. intros p q r. unfold member_le. apply (transitivity (R := String.le)). Qed.

#[export] Instance member_le_total : Total member_le.
Proof. intros p q. unfold member_le. apply (total String.le). Qed.

Lemma sorted_unique d e : dwf d -> d ≡ₚ e -> StronglySorted member_le d -> StronglySorted member_le e -> d = e.
Proof.
  intros Hwf Hp Hd He. apply (StronglySorted_unique_strong member_le); [|done..]. intros [k v] [k' v'] H1 H2 L1 L2.
  unfold member_le in *. cbn in *. assert (k = k') as <- by (by apply (anti_symm String.le)).
  rewrite <- Hp in H2. apply (elem_dget _ _ _ Hwf) in H1, H2. congruence.
Qed.

(** [json_ok] of the members. *)
Lemma members_ok d : foldr (fun p P => text_ok p.1 /\ json_ok p.2 /\ P) True d <-> Forall (fun p => text_ok p.1 /\ json_ok p.2) d.
Proof. induction d as [|p d IH]; cbn [foldr]; [split; constructor|]. rewrite Forall_cons, IH. tauto. Qed.
Lemma elements_ok l : foldr (fun v P => json_ok v /\ P) True l <-> Forall json_ok l.
Proof. induction l as [|p d IH]; cbn [foldr]; [split; constructor|]. by rewrite Forall_cons, IH. Qed.

Lemma sort_keys_ok v : json_ok v -> json_ok (sort_keys v).
Proof.
  induction v as [|b|z|s|l IH|d IH] using json_nested_ind; cbn [json_ok sort_keys]; try done.
  - rewrite !elements_ok. intros H. apply Forall_map. rewrite Forall_forall in *. eauto.
  - rewrite !members_ok. intros [Hwf H]. split; [by apply dwf_sorted|]. apply Forall_forall. intros [k v] (x & -> & Hin)%elem_of_sorted.
    rewrite Forall_forall in H, IH. destruct (H _ Hin). split; [done|]. by apply (IH _ Hin).
Qed.

Lemma sort_keys_idem v : json_ok v -> sort_keys (sort_keys v) = sort_keys v.
Proof.
  induction v as [|b|z|s|l IH|d IH] using json_nested_ind; cbn [json_ok sort_keys]; try done.
  - rewrite elements_ok. intros H. f_equal. rewrite map_map. apply map_ext_Forall. rewrite Forall_forall in *. eauto.
  - rewrite members_ok. intros [Hwf H]. f_equal. symmetry. fold (sorted_members d). fold (sorted_members (sorted_members d)).
    assert (E : map (fun p => (p.1, sort_keys p.2)) (sorted_members d) = sorted_members d).
    { rewrite <- (map_id (sorted_members d)) at 2. apply map_ext_Forall, Forall_forall. intros [k v] (x & -> & Hin)%elem_of_sorted.
      rewrite Forall_forall in H, IH. pose proof (IH _ Hin (proj2 (H _ Hin))) as E. cbn in *. by rewrite E. }
    apply sorted_unique; [by apply dwf_sorted| | |].
    + unfold sorted_members at 2. by rewrite E, (merge_sort_Permutation member_le).
    + apply (StronglySorted_merge_sort member_le).
    + apply (StronglySorted_merge_sort member_le).
Qed.

(** A reader of canonical bytes gets the value with its keys sorted. *)
Lemma canonical_loads v space : json_ok v -> ascii_text space -> skip_space space = [] ->
  json_loads (canonical_json v ++ space) = Some (sort_keys v).
Proof.
  intros Hok Ha Hs. unfold json_loads. rewrite canonical_written.
  rewrite (decode_encode _ (json_write json_string [] (sort_keys v) ++ space)) by (apply encode_ascii, Forall_app; split; [apply written_ascii; constructor|done]).
  apply parse_written; [by eexists|apply parse_key_escaped|done|by apply sort_keys_ok|done].
Qed.

Lemma canonical_sorted v : json_ok v -> canonical_json (sort_keys v) = canonical_json v.
Proof. intros H. by rewrite !canonical_written, sort_keys_idem. Qed.

Lemma canonical_ascii v : ascii_text (canonical_json v).
Proof. rewrite canonical_written. apply written_ascii. constructor. Qed.

Lemma canonical_bytes v : Forall byte (canonical_json v).
Proof. eapply Forall_impl; [apply canonical_ascii|]. unfold byte. cbv beta. intros. lia. Qed.

(** Python cannot tell the two apart. *)
Lemma py_eq_sorted v : json_ok v -> py_eq (sort_keys v) v = true.
Proof.
  induction v as [|b|z|s|l IH|d IH] using json_nested_ind; cbn [json_ok sort_keys py_eq]; try done.
  - by destruct b.
  - intros _. apply Z.eqb_refl.
  - intros _. by apply bool_decide_eq_true.
  - rewrite elements_ok. induction l as [|x l IHl]; [done|]. cbn [map]. intros [Hx Hl]%Forall_cons. apply Forall_cons in IH as [Ix Il].
    rewrite Ix by done. by apply IHl.
  - rewrite members_ok. intros [Hwf H]. apply andb_true_iff. split.
    + apply Nat.eqb_eq. rewrite (merge_sort_Permutation member_le). apply length_map.
    + apply forallb_forall. intros [k v] Hin. apply list_elem_of_In in Hin. apply elem_of_sorted in Hin as (x & -> & Hin). cbn.
      rewrite (elem_dget k x d) by done. rewrite Forall_forall in H, IH. by apply (IH _ Hin), (H _ Hin).
Qed.
