(* ===== verification/Management.v ===== *)
(** * Privileged actions

    [input.py], [management.py] and the checks of [management_helper.py]: how a
    privileged request is normalized, and what the protected helper verifies before it
    executes anything.  Ed25519 verification and [/etc/machine-id] are parameters. *)

From S2P Require Import Prelude Dict Utf8 Sha256 PyValue JsonText Shlex Protocol.
From Stdlib Require Import Ascii.
Open Scope Z_scope.


(** ** [input.py] *)

(** [None]: the [ValueError]. *)
Definition stdin_bytes (value : json) : option (option bytes) :=
  match value with
  | JNull => Some None
  | JStr s => match utf8_decode (string_bytes s) with Some _ => Some (Some (string_bytes s)) | None => None end
  | _ => None
  end.

Definition stdin_identity (value : json) : option (option (Z * string)) :=
  match stdin_bytes value with
  | None => None
  | Some None => Some None
  | Some (Some raw) => Some (Some (Z.of_nat (length raw), sha256_hex raw))
  end.

(** ** [management.py] *)

Definition MAX_ENVELOPE_BYTES : Z := 65536.

Definition lower_alnum (c : ascii) : bool :=
  let n := Z.of_nat (nat_of_ascii c) in ((97 <=? n) && (n <=? 122)) || ((48 <=? n) && (n <=? 57)).
Definition package_char (c : ascii) : bool :=
  lower_alnum c || Ascii.eqb c "+"%char || Ascii.eqb c "."%char || Ascii.eqb c "-"%char.

(** [re.fullmatch(r'[a-z0-9][a-z0-9+.-]+', name)] *)
Definition package_name (name : string) : bool :=
  match chars name with
  | c :: ((_ :: _) as l) => lower_alnum c && forallb package_char l
  | _ => false
  end.

(** [re.escape] on the characters a package name may have. *)
Definition re_escape (name : string) : string :=
  of_chars (chars name ≫= (fun c => if lower_alnum c then [c] else [backslash; c])).

Definition literal_package_selector (name : string) : res RemoteError string :=
  raise_if negb (package_name name) with remote "privilege_command_unsupported" ;;
  Ok ("^" +:+ re_escape name +:+ "$").

Definition unsupported {A} : res RemoteError A := Raise (remote "privilege_command_unsupported").

Definition parse_apt (command : string) : res RemoteError obj :=
  if existsb (fun c => let n := nat_of_ascii c in (n =? 10)%nat || (n =? 13)%nat || (n =? 0)%nat) (chars command)
  then unsupported
  else
    match shlex_split command with
    | Some (program :: verb :: packages) =>
        if negb (bool_decide (program = "apt" \/ program = "apt-get")) then unsupported
        else if bool_decide (verb = "update" /\ packages = []) then
          Ok [("action", JStr "apt_update"); ("packages", JList [])]
        else if bool_decide (verb = "install") && (0 <? Z.of_nat (length packages)) &&
                (Z.of_nat (length packages) <=? 128) && forallb package_name packages then
          Ok [("action", JStr "apt_install"); ("packages", JList (JStr <$> remove_dups_keep_first packages))]
        else unsupported
    | _ => unsupported
    end.

Definition starts_with_slash (s : string) : bool := match s with String c _ => Ascii.eqb c "/"%char | "" => false end.

Definition normalize (args : obj) : res RemoteError obj :=
  match stdin_bytes (jget "stdin" args) with
  | None => Raise (remote "invalid_stdin")
  | Some _ =>
      if py_eq (jget "action" args) (JStr "shutdown") then
        raise_if negb (match jget "stdin" args with JNull => true | _ => false end) with remote "invalid_request" ;;
        Ok [("action", JStr "shutdown"); ("packages", JList [])]
      else if negb (py_eq (jget "action" args) (JStr "sudo")) || truthy (jget "tty" args) then unsupported
      else
        let! command := text_value (jget "cmd" args) false 32768 in
        let! cwd := text_value (default (JStr "") (dget "cwd" args)) true TEXT_LIMIT in
        if str_truthy cwd && negb (starts_with_slash cwd) then unsupported
        else
          let shell := [("action", JStr "shell_command"); ("cmd", JStr command); ("cwd", JStr (str_or cwd "/"))] in
          if str_truthy cwd then Ok shell
          else match parse_apt command with Ok apt => Ok apt | Raise _ => Ok shell end
  end.

(** The action a request normalizes to. *)
Definition action_name (action : obj) : string := match jget "action" action with JStr s => s | _ => "" end.

(** ** The verifier of [management_helper.py] *)

Record helper_config := HelperConfig {
  hc_client_public_key : string;
  hc_worker_id : string;
  hc_client_id : string;
  hc_target : Z;
  hc_allowed_actions : list string;
  hc_protected_machine_ids : list string
}.

Record envelope := Envelope { en_approval : obj; en_args : obj; en_signature : string }.

Section verifier.
Variable check_signature : string -> string -> bytes -> bool.  (* Ed25519 verification of hex texts *)
Variable machine_id : string.                                  (* /etc/machine-id, stripped *)

(** [None]: any exception. *)
Definition verify (config : helper_config) (e : envelope) (now : Z) : option obj :=
  let grant := en_approval e in
  let args := en_args e in
  if negb (check_signature (hc_client_public_key config) (en_signature e) (canonical_json (JObj grant))) then None
  else if negb (py_eq (jget "protocol" grant) (JStr "pal-shell-approval.v1") &&
                py_eq (jget "worker_id" grant) (JStr (hc_worker_id config)) &&
                py_eq (jget "client_id" grant) (JStr (hc_client_id config)) &&
                py_eq (jget "target" grant) (JInt (hc_target config)) &&
                py_eq (jget "target" args) (JInt (hc_target config)) &&
                truthy (jget "runtime_epoch" grant) &&
                (match jget "expires_at" grant with JInt t => (now <? t) && (t <=? now + 610) | _ => false end) &&
                py_eq (jget "fingerprint" grant) (JStr (digest (JList [JStr "privileged"; JObj args]))))
  then None
  else if negb (match jget "nonce" grant with
                | JStr n => 16 <=? Z.of_nat (length (default (string_bytes n) (utf8_decode (string_bytes n))))
                | _ => false
                end) then None
  else
    match normalize args with
    | Raise _ => None
    | Ok action =>
        if negb (bool_decide (action_name action ∈ hc_allowed_actions config)) then None
        else if negb (py_eq (jget "management" args) (JObj action)) then None
        else if bool_decide (action_name action = "shutdown") then
          let identity := "linux:" +:+ machine_id in
          if existsb (py_eq (jget "protected_machine_id" args)) [JNull; JStr ""; JStr identity] ||
             bool_decide (identity ∈ hc_protected_machine_ids config)
          then None else Some action
        else Some action
    end.
End verifier.

(** The argument vector of an action; [None]: [ValueError]. *)
Definition command (action : obj) : option (list string) :=
  let name := action_name action in
  if decide (name = "shell_command") then
    match jget "cmd" action with JStr c => Some ["/bin/sh"; "-c"; c] | _ => None end
  else if decide (name = "apt_update") then Some ["/usr/bin/apt-get"; "update"]
  else if decide (name = "apt_install") then
    match jget "packages" action with
    | JList l =>
        match rmapM (fun v => match v with JStr s => literal_package_selector s | _ => unsupported end) l with
        | Ok selectors => Some (["/usr/bin/apt-get"; "--assume-yes"; "--no-remove"; "install"; "--"] ++ selectors)
        | Raise _ => None
        end
    | _ => None
    end
  else if decide (name = "shutdown") then Some ["/usr/bin/systemctl"; "poweroff"]
  else None.
