(* ===== verification/HelperJournal.v ===== *)
(** * The protected management helper

    [management_helper.py]: [main] and [execute].  The helper runs as root, once per
    request; several may run at the same time and any of them may be killed at any
    point.  What they share is the journal directory: one record per operation, taken
    under a file lock. *)

From S2P Require Import Prelude Dict Utf8 Sha256 PyValue JsonText JsonParse Base64 Shlex Protocol Management.
Open Scope Z_scope.

(** ** The journal *)

Inductive entry_state := EntryPending | EntryNotStarted | EntryComplete.

#[export] Instance entry_state_eq_dec : EqDecision entry_state.
Proof. solve_decision. Defined.

Record entry := Entry {
  je_state : entry_state;
  je_fingerprint : string;
  je_expires_at : Z;
  je_returncode : option Z
}.

Abbreviation journal := (dict string entry).

Definition grant_text (key : string) (grant : obj) : string := match jget key grant with JStr s => s | _ => "" end.
Definition grant_expiry (grant : obj) : Z := match jget "expires_at" grant with JInt t => t | _ => 0 end.

(** [digest([client_id, runtime_epoch, operation_id])]: the name of the record. *)
Definition grant_key (grant : obj) : string :=
  digest (JList [jget "client_id" grant; jget "runtime_epoch" grant; jget "operation_id" grant]).

Definition RETENTION : Z := 86400.
Definition JOURNAL_LIMIT : Z := 4096.

(** Whether a record may be removed. *)
Definition stale (now : Z) (e : entry) : bool :=
  negb (bool_decide (je_state e = EntryPending)) && (je_expires_at e <? now - RETENTION).

Definition prune (now : Z) (j : journal) : journal := filter (fun p => stale now p.2 = false) j.

Definition pending_entry (grant : obj) : entry :=
  Entry EntryPending (grant_text "fingerprint" grant) (grant_expiry grant) None.

(** What [execute] does under the lock. *)
Inductive admission :=
| Replay (code : Z)        (* the record of an earlier request answers *)
| Conflict                 (* another request under the same identity *)
| JournalFull
| Recorded.                (* a pending record was written *)

Definition admit_grant (now : Z) (grant : obj) (j : journal) : journal * admission :=
  match dget (grant_key grant) j with
  | Some previous =>
      if bool_decide (je_fingerprint previous <> grant_text "fingerprint" grant) then (j, Conflict)
      else (j, Replay (default 125 (je_returncode previous)))
  | None =>
      let j := prune now j in
      if JOURNAL_LIMIT <=? Z.of_nat (length j) then (j, JournalFull)
      else (dset (grant_key grant) (pending_entry grant) j, Recorded)
  end.

(** [save(path, {**record, 'state': ..., 'returncode': ...})] *)
Definition save_outcome (grant : obj) (s : entry_state) (code : Z) (j : journal) : journal :=
  dset (grant_key grant) (Entry s (grant_text "fingerprint" grant) (grant_expiry grant) (Some code)) j.

(** The exit status [execute] returns. *)
Definition exit_status (code : Z) : Z := if 0 <=? code then code else 128 - code.

(** ** [main] *)

(** What one run of the helper does with its input; [None]: refused, exit status 126. *)
Inductive helper_request := AskStatus | AskJournal (key : string) | AskExecute (e : envelope).

Definition MAX_INPUT : Z := MAX_ENVELOPE_BYTES.

Definition parse_request (client_id : string) (raw : bytes) : option helper_request :=
  if MAX_INPUT <? Z.of_nat (length raw) then None
  else
    match b64decode raw with
    | None => None
    | Some data =>
        match json_loads data with
        | Some (JObj d) =>
            match default (JStr "execute") (dget "mode" d) with
            | JStr mode =>
                if decide (mode = "status") then Some AskStatus
                else if decide (mode = "query") then
                  match dget "runtime_epoch" d, dget "operation_id" d with
                  | Some epoch, Some oid => Some (AskJournal (digest (JList [JStr client_id; epoch; oid])))
                  | _, _ => None
                  end
                else if decide (mode = "execute") then
                  match dget "approval" d, dget "args" d, dget "signature" d with
                  | Some (JObj grant), Some (JObj args), Some (JStr signature) => Some (AskExecute (Envelope grant args signature))
                  | _, _, _ => None
                  end
                else None
            | _ => None
            end
        | _ => None
        end
    end.

(** ** Helpers at work *)

(** A helper that executes, by how far it has come. *)
Inductive stage :=
| Verified (at_time : Z)        (* before the lock *)
| Journaled                     (* the pending record is written; the worker is asked next *)
| Authorized                    (* the worker has granted the operation *)
| Running.                      (* the child process was created *)

Record helper := Helper { hp_envelope : envelope; hp_action : obj; hp_stage : stage }.

Record helpers := Helpers {
  hs_clock : Z;
  hs_journal : journal;
  hs_running : list helper;
  hs_started : list (obj * list string)    (* the grants whose command was started *)
}.

Section helper_runs.
Variable check_signature : string -> string -> bytes -> bool.
Variable machine_id : string.
Variable config : helper_config.

Abbreviation verified e now := (verify check_signature machine_id config e now).

(** Steps of the helpers; [l1 ++ h :: l2] picks the helper that moves.  Time does not run
    backwards, and no helper waits for the lock longer than a record is kept. *)
Inductive helper_step : helpers -> helpers -> Prop :=
| hs_tick t t' j l st : t <= t' -> helper_step (Helpers t j l st) (Helpers t' j l st)
| hs_begin t j l st e action :
    verified e t = Some action -> helper_step (Helpers t j l st) (Helpers t j (Helper e action (Verified t) :: l) st)
| hs_admit t j l1 l2 st e action t0 j' out :
    t <= t0 + RETENTION -> admit_grant t (en_approval e) j = (j', out) ->
    helper_step (Helpers t j (l1 ++ Helper e action (Verified t0) :: l2) st)
      (Helpers t j' (match out with Recorded => l1 ++ Helper e action Journaled :: l2 | _ => l1 ++ l2 end) st)
| hs_authorized t j l1 l2 st e action :
    helper_step (Helpers t j (l1 ++ Helper e action Journaled :: l2) st)
      (Helpers t j (l1 ++ Helper e action Authorized :: l2) st)
| hs_refused t j l1 l2 st e action :
    helper_step (Helpers t j (l1 ++ Helper e action Journaled :: l2) st)
      (Helpers t (save_outcome (en_approval e) EntryNotStarted 126 j) (l1 ++ l2) st)
| hs_start t j l1 l2 st e action argv :
    command action = Some argv ->
    helper_step (Helpers t j (l1 ++ Helper e action Authorized :: l2) st)
      (Helpers t j (l1 ++ Helper e action Running :: l2) ((en_approval e, argv) :: st))
| hs_finish t j l1 l2 st e action code :
    helper_step (Helpers t j (l1 ++ Helper e action Running :: l2) st)
      (Helpers t (save_outcome (en_approval e) EntryComplete code j) (l1 ++ l2) st)
| hs_killed t j l1 l2 st h : helper_step (Helpers t j (l1 ++ h :: l2) st) (Helpers t j (l1 ++ l2) st).

(** ** The invariant *)

Definition hp_grant (h : helper) : obj := en_approval (hp_envelope h).
Definition hp_key (h : helper) : string := grant_key (hp_grant h).

(** A grant is in hand when a helper has journaled it and has not started it yet. *)
Definition in_hand (h : helper) : option obj :=
  match hp_stage h with Journaled | Authorized => Some (hp_grant h) | _ => None end.
(** The record a helper works on. *)
Definition active_key (h : helper) : option string :=
  match hp_stage h with Verified _ => None | _ => Some (hp_key h) end.

Definition granted (s : helpers) : list obj := omap in_hand (hs_running s) ++ (hs_started s).*1.

(** Either the journal remembers a grant, or the grant expired long ago. *)
Definition remembered (t : Z) (j : journal) (grant : obj) : Prop :=
  (exists e, dget (grant_key grant) j = Some e /\ je_expires_at e = grant_expiry grant) \/
  grant_expiry grant < t - RETENTION.

Definition helper_ok (t : Z) (j : journal) (h : helper) : Prop :=
  exists t0, t0 <= t /\ verified (hp_envelope h) t0 = Some (hp_action h) /\
  match hp_stage h with
  | Verified t1 => t1 = t0
  | _ => exists e, dget (hp_key h) j = Some e /\ je_state e = EntryPending /\ je_expires_at e = grant_expiry (hp_grant h)
  end.

Definition justified_start (p : obj * list string) : Prop :=
  exists e t action, verified e t = Some action /\ en_approval e = p.1 /\ command action = Some p.2.

Definition helpers_ok (s : helpers) : Prop :=
  dwf (hs_journal s) /\
  Z.of_nat (length (hs_journal s)) <= JOURNAL_LIMIT /\
  NoDup (granted s) /\
  NoDup (omap active_key (hs_running s)) /\
  (forall grant, grant ∈ granted s -> remembered (hs_clock s) (hs_journal s) grant) /\
  (forall h, h ∈ hs_running s -> helper_ok (hs_clock s) (hs_journal s) h) /\
  (forall p, p ∈ hs_started s -> justified_start p).

(** *** The journal *)

Lemma verified_unexpired e t action : verified e t = Some action -> t < grant_expiry (en_approval e).
Proof.
  unfold verify, grant_expiry. destruct (check_signature _ _ _); [|done]. cbn [negb].
  destruct (negb _) eqn:E; [done|]. apply negb_false_iff in E. bool_to_prop. intros _.
  destruct (jget "expires_at" (en_approval e)); try done. bool_to_prop. done.
Qed.

Lemma dget_prune t j k : dwf j -> dget k (prune t j) = match dget k j with Some e => if stale t e then None else Some e | None => None end.
Proof.
  intros Hwf. unfold prune. rewrite dget_filter by done. destruct (dget k j) as [e|]; simpl; [|done].
  destruct (stale t e) eqn:E; case_decide; try done; congruence.
Qed.

Lemma prune_remembers t j grant : dwf j -> remembered t j grant -> remembered t (prune t j) grant.
Proof.
  intros Hwf [(e & He & Hx)|H]; [|by right]. unfold remembered. rewrite dget_prune, He by done.
  destruct (stale t e) eqn:E; [|left; by exists e]. right. unfold stale in E. bool_to_prop. lia.
Qed.

Lemma prune_pending t j k e : dwf j -> dget k j = Some e -> je_state e = EntryPending -> dget k (prune t j) = Some e.
Proof. intros Hwf He Hs. rewrite dget_prune, He by done. unfold stale. by rewrite bool_decide_true. Qed.

Lemma prune_length t j : (length (prune t j) <= length j)%nat.
Proof. apply length_filter. Qed.

(** *** Steps that leave the journal alone *)

Lemma remembered_later t t' j grant : t <= t' -> remembered t j grant -> remembered t' j grant.
Proof. intros Ht [?|?]; [by left|right; lia]. Qed.

Lemma helper_later t t' j h : t <= t' -> helper_ok t j h -> helper_ok t' j h.
Proof. intros Ht (t0 & H0 & H1 & H2). exists t0. split_and!; [lia|done|done]. Qed.

Ltac fields := cbn [hs_clock hs_journal hs_running hs_started hp_envelope hp_action hp_stage in_hand active_key fmap list_fmap fst] in *.

Lemma omap_middle {A B} (f : A -> option B) l1 x l2 :
  omap f (l1 ++ x :: l2) = omap f l1 ++ (match f x with Some y => [y] | None => [] end) ++ omap f l2.
Proof. rewrite omap_app. f_equal. simpl. by destruct (f x). Qed.

Lemma granted_drop t j l1 h l2 st t' j' :
  exists extra, granted (Helpers t j (l1 ++ h :: l2) st) ≡ₚ extra ++ granted (Helpers t' j' (l1 ++ l2) st) /\
    extra = match in_hand h with Some g => [g] | None => [] end.
Proof.
  eexists. split; [|done]. unfold granted. fields. rewrite omap_middle, omap_app.
  destruct (in_hand h); simpl; [|done]. by rewrite <- Permutation_middle.
Qed.

Lemma killed_ok t j l1 h l2 st : helpers_ok (Helpers t j (l1 ++ h :: l2) st) -> helpers_ok (Helpers t j (l1 ++ l2) st).
Proof.
  intros (H1 & H2 & H3 & H4 & H5 & H6 & H7). destruct (granted_drop t j l1 h l2 st t j) as (extra & Hp & _).
  unfold helpers_ok. fields. split_and!; try done.
  - rewrite Hp in H3. by apply NoDup_app in H3 as (_ & _ & ?).
  - rewrite omap_middle in H4. rewrite omap_app. apply NoDup_app in H4 as (? & Hd & H4). apply NoDup_app in H4 as (_ & _ & ?).
    apply NoDup_app. split_and!; [done| |done]. intros x Hx Hx'. apply (Hd x Hx). apply elem_of_app. by right.
  - intros g Hg. apply H5. rewrite Hp. apply elem_of_app. by right.
  - intros h' Hh. apply H6. apply elem_of_app in Hh as [Hh|Hh]; apply elem_of_app; [by left|right; by right].
Qed.

(** A record of an active helper is rewritten and the helper leaves. *)
Lemma saved_ok t j l1 h l2 st state code :
  (forall t0, hp_stage h <> Verified t0) -> helpers_ok (Helpers t j (l1 ++ h :: l2) st) ->
  helpers_ok (Helpers t (save_outcome (hp_grant h) state code j) (l1 ++ l2) st).
Proof.
  intros Hstage Hok. pose proof Hok as (_ & _ & _ & Ha & _ & Hh & _). destruct (Hh h) as (t0 & _ & _ & He);
    [apply elem_of_app; right; left|]. fields.
  assert (Hk : active_key h = Some (hp_key h)) by (unfold active_key; destruct (hp_stage h); done || by destruct (Hstage at_time)).
  assert (Hold : exists e, dget (hp_key h) j = Some e /\ je_expires_at e = grant_expiry (hp_grant h)).
  { destruct (hp_stage h); [by destruct (Hstage at_time)|..]; destruct He as (e & ? & _ & ?); by exists e. }
  destruct Hold as (e & Hold & Hexp).
  assert (Hother : forall h', h' ∈ l1 ++ l2 -> active_key h' = Some (hp_key h) -> False).
  { intros h' Hin Hk'. rewrite omap_middle, Hk in Ha. apply NoDup_app in Ha as (_ & Hd & Ha). apply NoDup_cons in Ha as [Hn _].
    apply elem_of_app in Hin as [Hin|Hin].
    - apply (Hd (hp_key h)); [apply list_elem_of_omap; eauto|]. left.
    - apply Hn, list_elem_of_omap. eauto. }
  destruct (killed_ok _ _ _ _ _ _ Hok) as (H1 & H2 & H3 & H4 & H5 & H6 & H7).
  unfold helpers_ok, save_outcome. fields. split_and!; try done.
  - by apply dwf_dset.
  - rewrite length_dset, (proj2 (dmem_true _ _)) by (by exists e). done.
  - intros g Hg. destruct (H5 g Hg) as [(e' & He' & Hx)|?]; [|by right]. left. rewrite dget_dset.
    case_decide as E; [|by exists e']. eexists. split; [done|]. fields. rewrite <- E in He'. unfold hp_key in Hold.
    rewrite Hold in He'. injection He' as <-. by rewrite <- Hexp.
  - intros h' Hin. destruct (H6 h' Hin) as (t1 & ? & ? & Hs). exists t1. split_and!; [done..|].
    destruct (hp_stage h') eqn:E; [done|..]; (destruct Hs as (e' & ? & ? & ?); exists e'; split_and!; [|done..];
      rewrite dget_dset_ne; [done|]; intros Ek; apply (Hother h' Hin); unfold active_key; rewrite E; by rewrite <- Ek).
Qed.

(** A helper takes the next stage; the record is untouched. *)
Lemma advanced_ok t j l1 e action s s' l2 st :
  (s = Journaled /\ s' = Authorized) -> helpers_ok (Helpers t j (l1 ++ Helper e action s :: l2) st) ->
  helpers_ok (Helpers t j (l1 ++ Helper e action s' :: l2) st).
Proof.
  intros [-> ->] (H1 & H2 & H3 & H4 & H5 & H6 & H7). unfold helpers_ok, granted in *. fields.
  rewrite !omap_middle in *. split_and!; try done.
  intros h [Hh|Hh]%elem_of_app; [apply H6, elem_of_app; by left|]. apply elem_of_cons in Hh as [->|Hh].
  - apply (H6 (Helper e action Journaled)), elem_of_app. right. left.
  - apply H6, elem_of_app. right. by right.
Qed.

Lemma start_step_ok t j l1 e action argv l2 st :
  command action = Some argv -> helpers_ok (Helpers t j (l1 ++ Helper e action Authorized :: l2) st) ->
  helpers_ok (Helpers t j (l1 ++ Helper e action Running :: l2) ((en_approval e, argv) :: st)).
Proof.
  intros Hc (H1 & H2 & H3 & H4 & H5 & H6 & H7). unfold helpers_ok, granted in *. fields.
  rewrite !omap_middle in *. unfold hp_grant in *. fields. simpl app in *.
  assert (Hp : (omap in_hand l1 ++ omap in_hand l2) ++ en_approval e :: st.*1 ≡ₚ
               (omap in_hand l1 ++ en_approval e :: omap in_hand l2) ++ st.*1).
  { rewrite <- !app_assoc. simpl. f_equiv. by rewrite <- Permutation_middle. }
  split_and!; try done.
  - by rewrite Hp.
  - intros g Hg. apply H5. by rewrite <- Hp.
  - intros h [Hh|Hh]%elem_of_app; [apply H6, elem_of_app; by left|]. apply elem_of_cons in Hh as [->|Hh].
    + apply (H6 (Helper e action Authorized)), elem_of_app. right. left.
    + apply H6, elem_of_app. right. by right.
  - intros p [->|Hp']%elem_of_cons; [|by apply H7].
    destruct (H6 (Helper e action Authorized)) as (t0 & _ & Hv & _); [apply elem_of_app; right; left|].
    by exists e, t0, action.
Qed.

(** A verified grant that is still within its retention is not in hand and was not started,
    unless the journal has its record. *)
Lemma fresh_grant s e t0 action :
  helpers_ok s -> verified e t0 = Some action -> hs_clock s <= t0 + RETENTION ->
  dget (grant_key (en_approval e)) (hs_journal s) = None -> en_approval e ∉ granted s.
Proof.
  intros (_ & _ & _ & _ & H5 & _) Hv Ht Hn Hin. apply verified_unexpired in Hv.
  destruct (H5 _ Hin) as [(e' & He' & _)|Hx]; [congruence|lia].
Qed.

Lemma pruned_helper t j h k x :
  dwf j -> dget k j = None -> helper_ok t j h -> helper_ok t (dset k x (prune t j)) h.
Proof.
  intros Hwf Hn (t0 & ? & ? & Hs). exists t0. split_and!; [done..|].
  destruct (hp_stage h); [done|..]; (destruct Hs as (e & He & Hp & Hx); exists e; split_and!; [|done..];
    rewrite dget_dset_ne by congruence; by apply prune_pending).
Qed.

Lemma recorded_ok t j l1 l2 st e action t0 :
  t <= t0 + RETENTION -> dget (grant_key (en_approval e)) j = None ->
  Z.of_nat (length (prune t j)) < JOURNAL_LIMIT ->
  helpers_ok (Helpers t j (l1 ++ Helper e action (Verified t0) :: l2) st) ->
  helpers_ok (Helpers t (dset (grant_key (en_approval e)) (pending_entry (en_approval e)) (prune t j))
                (l1 ++ Helper e action Journaled :: l2) st).
Proof.
  intros Ht Hn Hlen Hok. pose proof Hok as (H1 & H2 & H3 & H4 & H5 & H6 & H7). fields.
  assert (Hwp : dwf (prune t j)) by (by apply dwf_filter).
  destruct (H6 (Helper e action (Verified t0))) as (t1 & Ht1 & Hv & <-); [apply elem_of_app; right; left|]. fields.
  pose proof (fresh_grant _ e t0 action Hok Hv Ht Hn) as Hfresh.
  assert (Hp : granted (Helpers t j (l1 ++ Helper e action Journaled :: l2) st) ≡ₚ
               en_approval e :: granted (Helpers t j (l1 ++ Helper e action (Verified t0) :: l2) st)).
  { unfold granted. fields. rewrite !omap_middle. fields. simpl. by rewrite <- Permutation_middle. }
  assert (Hkey : grant_key (en_approval e) ∉ omap active_key (l1 ++ l2)).
  { intros (h & Hin & Hk)%list_elem_of_omap. destruct (H6 h) as (t1 & _ & _ & Hs).
    { apply elem_of_app in Hin as [?|?]; apply elem_of_app; [by left|right; by right]. }
    unfold active_key in Hk. destruct (hp_stage h); [done|..]; injection Hk as Hk; destruct Hs as (e' & He' & _); congruence. }
  unfold helpers_ok. fields. split_and!.
  - by apply dwf_dset.
  - rewrite length_dset. rewrite (proj2 (dmem_false _ _)); [lia|]. by rewrite dget_prune, Hn.
  - change (NoDup (granted (Helpers t j (l1 ++ Helper e action Journaled :: l2) st))). rewrite Hp. by apply NoDup_cons.
  - rewrite omap_middle in *. fields. simpl app in *. rewrite <- Permutation_middle. rewrite omap_app in Hkey. by apply NoDup_cons.
  - intros g Hg. change (g ∈ granted (Helpers t j (l1 ++ Helper e action Journaled :: l2) st)) in Hg. rewrite Hp in Hg.
    apply elem_of_cons in Hg as [->|Hg]; [left; eexists; by rewrite dget_dset_eq|].
    destruct (prune_remembers t j g H1 (H5 g Hg)) as [(e' & He' & Hx)|?]; [|by right]. left. exists e'.
    split; [|done]. rewrite dget_dset_ne; [done|]. intros E. rewrite <- E, dget_prune, Hn in He' by done. done.
  - intros h [Hh|Hh]%elem_of_app; [apply pruned_helper; [done|done|apply H6, elem_of_app; by left]|].
    apply elem_of_cons in Hh as [->|Hh]; [|apply pruned_helper; [done|done|apply H6, elem_of_app; right; by right]].
    exists t0. split_and!; [done|done|]. cbn [hp_stage]. eexists. split; [apply dget_dset_eq|done].
  - done.
Qed.

Lemma admit_ok t j l1 l2 st e action t0 j' out :
  t <= t0 + RETENTION -> admit_grant t (en_approval e) j = (j', out) ->
  helpers_ok (Helpers t j (l1 ++ Helper e action (Verified t0) :: l2) st) ->
  helpers_ok (Helpers t j' (match out with Recorded => l1 ++ Helper e action Journaled :: l2 | _ => l1 ++ l2 end) st).
Proof.
  intros Ht Ha Hok. unfold admit_grant in Ha. destruct (dget (grant_key (en_approval e)) j) as [previous|] eqn:E.
  - pose proof (killed_ok _ _ _ _ _ _ Hok). by case_bool_decide; injection Ha as <- <-.
  - destruct (JOURNAL_LIMIT <=? _) eqn:El; injection Ha as <- <-; bool_to_prop; [|by eapply recorded_ok].
    destruct (killed_ok _ _ _ _ _ _ Hok) as (H1 & H2 & H3 & H4 & H5 & H6 & H7). unfold helpers_ok. fields. split_and!; try done.
    + by apply dwf_filter.
    + pose proof (prune_length t j). lia.
    + intros g Hg. by apply prune_remembers, H5.
    + intros h Hh. destruct (H6 h Hh) as (t1 & ? & ? & Hs). exists t1. split_and!; [done..|].
      destruct (hp_stage h); [done|..]; (destruct Hs as (e' & He' & ? & ?); exists e'; split_and!; [by apply prune_pending|done..]).
Qed.

Lemma helper_step_ok s s' : helper_step s s' -> helpers_ok s -> helpers_ok s'.
Proof.
  intros [t t' j l st Ht|t j l st e action Hv|t j l1 l2 st e action t0 j' out Ht Ha|t j l1 l2 st e action|t j l1 l2 st e action|
          t j l1 l2 st e action argv Hc|t j l1 l2 st e action code|t j l1 l2 st h] Hok.
  - destruct Hok as (H1 & H2 & H3 & H4 & H5 & H6 & H7). unfold helpers_ok. fields. split_and!; try done.
    + intros g Hg. eapply remembered_later; [done|by apply H5].
    + intros h Hh. eapply helper_later; [done|by apply H6].
  - destruct Hok as (H1 & H2 & H3 & H4 & H5 & H6 & H7). unfold helpers_ok. fields. split_and!; try done.
    intros h [->|Hh]%elem_of_cons; [|by apply H6]. exists t. by split_and!.
  - by eapply admit_ok.
  - by eapply advanced_ok.
  - by apply (saved_ok t j l1 (Helper e action Journaled) l2 st).
  - by apply start_step_ok.
  - by apply (saved_ok t j l1 (Helper e action Running) l2 st).
  - by eapply killed_ok.
Qed.

Lemma reachable_helpers_ok t s : rtc helper_step (Helpers t [] [] []) s -> helpers_ok s.
Proof.
  intros H. apply (rtc_ind_r (R := helper_step) helpers_ok (Helpers t [] [] [])); [| |exact H].
  - unfold helpers_ok, granted. fields. split_and!; [apply dwf_nil|done|apply NoDup_nil_2|apply NoDup_nil_2|..];
      intros ? Hin; by apply elem_of_nil in Hin.
  - intros x y _ Hs Hx. by eapply helper_step_ok.
Qed.
End helper_runs.

(** ** Every verified action has a command *)

Lemma selectors_ok l : forallb package_name l = true ->
  exists selectors, rmapM (fun v => match v with JStr s => literal_package_selector s | _ => unsupported end) (JStr <$> l) = Ok selectors /\
    selectors = (fun p => "^" +:+ re_escape p +:+ "$") <$> l.
Proof.
  induction l as [|p l IH]; [by exists []|]. cbn [forallb]. intros [Hp Hl]%andb_true_iff. destruct (IH Hl) as (sel & E & Hs).
  exists (("^" +:+ re_escape p +:+ "$") :: sel). split; [|by rewrite Hs].
  change (JStr <$> p :: l) with (JStr p :: (JStr <$> l)). cbn [rmapM]. unfold literal_package_selector at 1. rewrite Hp. simpl.
  by rewrite E.
Qed.

Lemma dedup_packages l : forallb package_name l = true -> forallb package_name (remove_dups_keep_first l) = true.
Proof.
  intros H. apply forallb_forall. intros p Hp. rewrite forallb_forall in H. apply H.
  apply list_elem_of_In. apply list_elem_of_In in Hp. by apply elem_of_remove_dups_keep_first.
Qed.

(** The commands a normalized action can have. *)
Inductive management_command : list string -> Prop :=
| mc_shell c : c <> "" -> management_command ["/bin/sh"; "-c"; c]
| mc_update : management_command ["/usr/bin/apt-get"; "update"]
| mc_install packages :
    forallb package_name packages = true -> packages <> [] -> NoDup packages ->
    management_command (["/usr/bin/apt-get"; "--assume-yes"; "--no-remove"; "install"; "--"] ++
                        ((fun p => "^" +:+ re_escape p +:+ "$") <$> packages))
| mc_poweroff : management_command ["/usr/bin/systemctl"; "poweroff"].

Lemma normalized_command args action :
  normalize args = Ok action -> exists argv, command action = Some argv /\ management_command argv.
Proof.
  unfold normalize. destruct (stdin_bytes _); [|done]. destruct (py_eq _ (JStr "shutdown")).
  { intros H. apply raise_if_ok in H as [_ H]. injection H as <-. eexists. split; [done|constructor]. }
  destruct (_ || _); [done|]. intros H. apply rbind_ok in H as (cmd & Hcmd & H). apply rbind_ok in H as (cwd & _ & H).
  apply text_value_ok in Hcmd as (_ & Hne & _). specialize (Hne eq_refl).
  destruct (_ && _); [done|].
  assert (Hshell : forall w, exists argv, command [("action", JStr "shell_command"); ("cmd", JStr cmd); ("cwd", JStr w)] = Some argv /\
                     management_command argv) by (intros w; eexists; split; [done|by constructor]).
  destruct (str_truthy cwd); [injection H as <-; apply Hshell|].
  destruct (parse_apt cmd) as [apt|] eqn:E; injection H as <-; [|apply Hshell].
  unfold parse_apt in E. destruct (existsb _ _); [done|]. destruct (shlex_split cmd) as [[|program [|verb packages]]|]; try done.
  destruct (negb _); [done|]. destruct (bool_decide (verb = "update" /\ _)); [injection E as <-; eexists; split; [done|constructor]|].
  destruct (_ && _ && _ && _) eqn:Ei; [|done]. injection E as <-. bool_to_prop.
  destruct (selectors_ok (remove_dups_keep_first packages)) as (sel & Es & Hs); [by apply dedup_packages|].
  unfold command, action_name. simpl. rewrite Es. eexists. split; [done|]. rewrite Hs. apply mc_install.
  - by apply dedup_packages.
  - intros E. destruct packages as [|p l]; [simpl in *; lia|]. assert (Hin : p ∈ remove_dups_keep_first (p :: l)).
    { apply elem_of_remove_dups_keep_first. left. } rewrite E in Hin. by apply elem_of_nil in Hin.
  - apply NoDup_remove_dups_keep_first.
Qed.

Section theorems.
Variable check_signature : string -> string -> bytes -> bool.
Variable machine_id : string.
Variable config : helper_config.
Abbreviation verified e now := (verify check_signature machine_id config e now).

Lemma verified_facts e now action :
  verified e now = Some action ->
  check_signature (hc_client_public_key config) (en_signature e) (canonical_json (JObj (en_approval e))) = true /\
  py_eq (jget "fingerprint" (en_approval e)) (JStr (digest (JList [JStr "privileged"; JObj (en_args e)]))) = true /\
  normalize (en_args e) = Ok action /\ action_name action ∈ hc_allowed_actions config.
Proof.
  unfold verify. destruct (check_signature _ _ _); [|done]. cbn [negb]. destruct (negb _) eqn:E; [done|].
  apply negb_false_iff in E. apply andb_true_iff in E as [_ E]. destruct (negb _); [done|].
  destruct (normalize (en_args e)) as [a|]; [|done]. destruct (negb (bool_decide _)) eqn:Ea; [done|]. bool_to_prop.
  destruct (negb _); [done|]. intros H. assert (a = action) as ->.
  { destruct (bool_decide (action_name a = "shutdown")); [|congruence]. destruct (_ || _); [done|congruence]. }
  done.
Qed.

(** C18: the protected helper runs a signed action at most once.  Whatever helpers run at the
    same time, are refused by the worker or are killed, and however often an envelope is
    replayed: no grant has its command started twice; a started command belongs to an
    envelope whose grant carries a signature of the client's key, fixes the arguments by
    their fingerprint and names an allowed action; the command is the approved shell
    command, the fixed update or power-off command, or an installation whose arguments
    are all anchored literal selectors of distinct package names; and the journal never
    holds more than 4096 records. *)
Theorem grants_run_once t s :
  rtc (helper_step check_signature machine_id config) (Helpers t [] [] []) s ->
  NoDup (hs_started s).*1 /\
  (forall grant argv, (grant, argv) ∈ hs_started s ->
     management_command argv /\
     exists e action, en_approval e = grant /\ normalize (en_args e) = Ok action /\ command action = Some argv /\
       action_name action ∈ hc_allowed_actions config /\
       check_signature (hc_client_public_key config) (en_signature e) (canonical_json (JObj grant)) = true /\
       py_eq (jget "fingerprint" grant) (JStr (digest (JList [JStr "privileged"; JObj (en_args e)]))) = true) /\
  Z.of_nat (length (hs_journal s)) <= JOURNAL_LIMIT.
Proof.
  intros H. destruct (reachable_helpers_ok _ _ _ _ _ H) as (_ & Hlen & Hnd & _ & _ & _ & Hst). split_and!; [| |done].
  - unfold granted in Hnd. by apply NoDup_app in Hnd as (_ & _ & ?).
  - intros grant argv Hin. destruct (Hst _ Hin) as (e & now & action & Hv & Hg & Hc). cbn [fst snd] in *.
    apply verified_facts in Hv as (Hs & Hf & Hn & Ha). destruct (normalized_command _ _ Hn) as (argv' & Hc' & Hm).
    rewrite Hc in Hc'. injection Hc' as <-. split; [done|]. exists e, action. subst grant. by split_and!.
Qed.
End theorems.

(** ** A concrete run *)

Definition demo_helper : helper_config := HelperConfig "key" "w" "c" 1 ["apt_install"] [].
Definition demo_install : obj :=
  [("action", JStr "sudo"); ("target", JInt 1); ("cmd", JStr "apt install vim"); ("cwd", JStr "");
   ("management", JObj [("action", JStr "apt_install"); ("packages", JList [JStr "vim"])])].
Definition demo_grant : obj :=
  [("protocol", JStr "pal-shell-approval.v1"); ("client_id", JStr "c"); ("worker_id", JStr "w"); ("runtime_epoch", JStr "e");
   ("operation_id", JStr "o"); ("fingerprint", JStr (digest (JList [JStr "privileged"; JObj demo_install])));
   ("nonce", JStr "0123456789abcdef"); ("expires_at", JInt 700); ("target", JInt 1)].
Definition demo_envelope : envelope := Envelope demo_grant demo_install "good".
Definition demo_signed (key signature : string) (message : bytes) : bool := bool_decide (signature = "good").
Definition demo_action : obj := [("action", JStr "apt_install"); ("packages", JList [JStr "vim"])].
Definition demo_argv : list string := ["/usr/bin/apt-get"; "--assume-yes"; "--no-remove"; "install"; "--"; "^vim$"].
Definition demo_journal : journal := (admit_grant 100 demo_grant []).1.

Lemma demo_helper_run :
  rtc (helper_step demo_signed "m" demo_helper) (Helpers 100 [] [] [])
    (Helpers 100 demo_journal [Helper demo_envelope demo_action Running] [(demo_grant, demo_argv)]).
Proof.
  eapply rtc_l; [apply (hs_begin _ _ _ 100 [] [] [] demo_envelope demo_action); vm_compute; reflexivity|].
  eapply rtc_l; [apply (hs_admit _ _ _ 100 [] [] [] [] demo_envelope demo_action 100 demo_journal Recorded);
                 [vm_compute; discriminate|vm_compute; reflexivity]|].
  eapply rtc_l; [apply (hs_authorized _ _ _ 100 demo_journal [] [] [] demo_envelope demo_action)|].
  eapply rtc_l; [apply (hs_start _ _ _ 100 demo_journal [] [] [] demo_envelope demo_action demo_argv); vm_compute; reflexivity|].
  apply rtc_refl.
Qed.

Lemma grants_run_once_witness : management_command demo_argv.
Proof.
  destruct (grants_run_once demo_signed "m" demo_helper 100 _ demo_helper_run) as (_ & H & _).
  apply (H demo_grant). apply list_elem_of_here.
Defined.
