(* ===== verification/Worker.v ===== *)
(** * The worker process

    [worker.py]: the operation journal, retained outputs and their reservations, and the
    request handlers; [privilege.py]: preparation, commit and single use of a signed
    approval.  Code between two [await]s is one step.  A coroutine that waits is a [task]
    of the state, and what it does after the wait is a definition of its own. *)

From S2P Require Import Prelude Dict Utf8 Sha256 PyValue JsonText Shlex Protocol Management.
Open Scope Z_scope.

(** ** State *)

Record WorkerConfig := Config {
  cf_worker_id : string;
  cf_client_id : string;
  cf_client_public_key : string;
  cf_shell : string;
  cf_output_limit : Z;
  cf_retained_limit : Z;
  cf_operation_limit : Z;
  cf_shutdown_argv : list string;
  cf_protected_machine_ids : list string;
  cf_shutdown_policy : string;
  cf_privilege_helper : string;
  cf_askpass_helper : string;
  cf_management_helper : string;
  cf_management_actions : list string
}.

Inductive op_state := Pending | ApprovalRequired | Complete | Failed.

#[export] Instance op_state_eq_dec : EqDecision op_state.
Proof. solve_decision. Defined.

Definition state_name (s : op_state) : string :=
  match s with
  | Pending => "pending"
  | ApprovalRequired => "approval_required"
  | Complete => "complete"
  | Failed => "failed"
  end.

(** [done] is set exactly when the operation is finished. *)
Record Operation := Op {
  op_operation_id : string;
  op_fingerprint : string;
  op_method : string;
  op_args : obj;
  op_state_ : op_state;
  op_result : json;
  op_error : option RemoteError;
  op_nonce : string;
  op_expires_at : Z;
  op_auth_consumed : bool;
  op_auth_available : bool;
  op_approval_signature : string
}.

(** An event of the native runtime. *)
Record native_event := NativeEvent {
  ne_request_id : Z;
  ne_output_id : Z;
  ne_status : string;
  ne_stdout_total : Z;
  ne_stderr_total : Z;
  ne_watching : bool;         (* event.get('watching', True) *)
  ne_truncated : bool;        (* event.get('truncated', False) *)
  ne_fields : obj             (* every field of the event *)
}.

Record output := Output { ou_native_id : Z; ou_event : native_event }.

(** A coroutine at the point where it waits. *)
Inductive task :=
| T_execute (oid : string)          (* [_execute], scheduled *)
| T_native (oid : string)           (* [_execute], waiting for the runtime *)
| T_privileged (oid : string)       (* [execute_privileged], scheduled *)
| T_priv_native (oid : string)      (* the same, waiting for the runtime *)
| T_shutdown (oid : string)         (* waiting for the shutdown action *)
| T_file (oid : string)             (* a file operation in its thread *)
| T_release (token : string) (nid : Z).  (* [release], waiting for the runtime *)

#[export] Instance task_eq_dec : EqDecision task.
Proof. solve_decision. Defined.

Record Worker := mkWorker {
  wk_epoch : string;
  wk_operations : dict string Operation;
  wk_outputs : dict string output;
  wk_native_outputs : dict Z string;
  wk_native_owners : dict Z string;
  wk_events : dict Z (Z * obj);
  wk_cursor : Z;
  wk_draining : bool;
  wk_closed : bool;
  wk_reservations : list string;
  wk_tasks : list task
}.

Definition new_worker (epoch : string) : Worker := mkWorker epoch [] [] [] [] [] 0 false false [] [].

Definition set_operations (x : dict string Operation) (w : Worker) : Worker :=
  mkWorker (wk_epoch w) x (wk_outputs w) (wk_native_outputs w) (wk_native_owners w) (wk_events w) (wk_cursor w)
    (wk_draining w) (wk_closed w) (wk_reservations w) (wk_tasks w).
Definition set_outputs (x : dict string output) (w : Worker) : Worker :=
  mkWorker (wk_epoch w) (wk_operations w) x (wk_native_outputs w) (wk_native_owners w) (wk_events w) (wk_cursor w)
    (wk_draining w) (wk_closed w) (wk_reservations w) (wk_tasks w).
Definition set_native_outputs (x : dict Z string) (w : Worker) : Worker :=
  mkWorker (wk_epoch w) (wk_operations w) (wk_outputs w) x (wk_native_owners w) (wk_events w) (wk_cursor w)
    (wk_draining w) (wk_closed w) (wk_reservations w) (wk_tasks w).
Definition set_native_owners (x : dict Z string) (w : Worker) : Worker :=
  mkWorker (wk_epoch w) (wk_operations w) (wk_outputs w) (wk_native_outputs w) x (wk_events w) (wk_cursor w)
    (wk_draining w) (wk_closed w) (wk_reservations w) (wk_tasks w).
Definition set_events (x : dict Z (Z * obj)) (cursor : Z) (w : Worker) : Worker :=
  mkWorker (wk_epoch w) (wk_operations w) (wk_outputs w) (wk_native_outputs w) (wk_native_owners w) x cursor
    (wk_draining w) (wk_closed w) (wk_reservations w) (wk_tasks w).
Definition set_draining (x : bool) (w : Worker) : Worker :=
  mkWorker (wk_epoch w) (wk_operations w) (wk_outputs w) (wk_native_outputs w) (wk_native_owners w) (wk_events w)
    (wk_cursor w) x (wk_closed w) (wk_reservations w) (wk_tasks w).
Definition set_closed (x : bool) (w : Worker) : Worker :=
  mkWorker (wk_epoch w) (wk_operations w) (wk_outputs w) (wk_native_outputs w) (wk_native_owners w) (wk_events w)
    (wk_cursor w) (wk_draining w) x (wk_reservations w) (wk_tasks w).
Definition set_reservations (x : list string) (w : Worker) : Worker :=
  mkWorker (wk_epoch w) (wk_operations w) (wk_outputs w) (wk_native_outputs w) (wk_native_owners w) (wk_events w)
    (wk_cursor w) (wk_draining w) (wk_closed w) x (wk_tasks w).
Definition set_tasks (x : list task) (w : Worker) : Worker :=
  mkWorker (wk_epoch w) (wk_operations w) (wk_outputs w) (wk_native_outputs w) (wk_native_owners w) (wk_events w)
    (wk_cursor w) (wk_draining w) (wk_closed w) (wk_reservations w) x.

Definition set_op (op : Operation) (w : Worker) : Worker :=
  set_operations (dset (op_operation_id op) op (wk_operations w)) w.

(** Sets of strings: [add] and [discard]. *)
Definition set_insert (x : string) (l : list string) : list string := if decide (x ∈ l) then l else l ++ [x].
Definition set_discard (x : string) (l : list string) : list string := filter (fun y => y <> x) l.

Inductive worker_error := WRemote (e : RemoteError) | WCrash (what : string).
Abbreviation W := (M Worker worker_error).

Definition wfail {A} (code : string) : W A := sthrow (WRemote (remote code)).
Definition wlift {A} (r : res RemoteError A) : W A :=
  slift (match r with Ok a => Ok a | Raise e => Raise (WRemote e) end).

(** ** What the worker's surroundings decide during one step *)

Record surroundings := Surroundings {
  su_windows : bool;
  su_linux : bool;
  su_now : Z;                                     (* time.time() *)
  su_uuid : string;                               (* uuid4().hex *)
  su_nonce : string;                              (* secrets.token_hex(32) *)
  su_stdin_version : Z;                           (* native.STDIN_VERSION *)
  su_privileged_stdin : Z;                        (* privileged_stdin_version(worker) *)
  su_trusted : string -> bool;                    (* trusted_executable *)
  su_expanduser : string -> string;
  su_status : obj;                                (* management_status(worker) *)
  su_machine_identity : string;                   (* worker.info.get('machine_identity') *)
  su_signature : string -> string -> bytes -> bool;  (* Ed25519 verification *)
  su_seal : bytes -> string;                      (* the MAC and base64 of an output snapshot *)
  su_shell : json                                 (* worker.info['shell'] *)
}.

Section worker.
Variable config : WorkerConfig.

(** ** The journal *)

(** Returns the operation and whether it is new. *)
Definition _record (operation_id : json) (method : string) (args : obj) : W (Operation * bool) :=
  do! oid <- wlift (text_value operation_id false 128) ;;
  let fingerprint := digest (JList [JStr method; JObj args]) in
  do! w <- sget ;;
  match dget oid (wk_operations w) with
  | Some previous =>
      if bool_decide (op_fingerprint previous <> fingerprint) then wfail "operation_conflict"
      else sret (previous, false)
  | None =>
      if cf_operation_limit config <=? Z.of_nat (length (wk_operations w)) then wfail "operation_capacity"
      else
        let op := Op oid fingerprint method args Pending JNull None "" 0 false false "" in
        seq! smodify (set_op op) ;;
        sret (op, true)
  end.

(** The statuses after which no authentication is needed any more. *)
Definition settles (result : json) : bool :=
  match result with
  | JObj d => match jget "status" d with JStr s => bool_decide (s ∈ TERMINAL_STATES ++ ["accepted"]) | _ => false end
  | _ => false
  end.

Definition finished (result : json) (error : option RemoteError) (op : Operation) : Operation :=
  Op (op_operation_id op) (op_fingerprint op) (op_method op) (ddel "stdin" (op_args op))
    (match error with Some _ => Failed | None => Complete end) result error
    (op_nonce op) (op_expires_at op) (op_auth_consumed op)
    (match error with Some _ => false | None => if settles result then false else op_auth_available op end)
    (op_approval_signature op).

Definition _finish (oid : string) (result : json) (error : option RemoteError) (w : Worker) : Worker :=
  match dget oid (wk_operations w) with
  | Some op => set_op (finished result error op) w
  | None => w
  end.

Definition operation_snapshot (op : Operation) : obj :=
  [("operation_id", JStr (op_operation_id op)); ("state", JStr (state_name (op_state_ op)));
   ("result", op_result op);
   ("error", match op_error op with
             | Some e => JObj [("code", JStr (re_code e)); ("effect", JStr (re_effect e));
                               ("operation_id", JStr (re_operation_id e))]
             | None => JNull
             end)].

(** ** Outputs and events *)

Definition is_terminal (status : string) : bool := bool_decide (status ∈ TERMINAL_STATES).

(** [k.endswith(('_path', '_bytes'))] *)
Definition hidden_field (k : string) : bool :=
  let ends suffix := bool_decide (drop (length (chars k) - length (chars suffix)) (chars k) = chars suffix) in
  ends "_path" || ends "_bytes".

Definition public_fields (e : native_event) : obj :=
  filter (fun p => hidden_field p.1 = false /\ p.1 <> "request_id") (ne_fields e).

(** [auth_available = False] of the operation that owns a finished output. *)
Definition revoke_auth (oid : string) (w : Worker) : Worker :=
  match dget oid (wk_operations w) with
  | Some op => set_op (Op (op_operation_id op) (op_fingerprint op) (op_method op) (op_args op) (op_state_ op)
                         (op_result op) (op_error op) (op_nonce op) (op_expires_at op) (op_auth_consumed op) false
                         (op_approval_signature op)) w
  | None => w
  end.

(** The token of a native output, and the output under it after [event]: a terminal
    event is not overwritten by a later one that is not. *)
Definition output_token (su : surroundings) (e : native_event) (w : Worker) : string :=
  default (su_uuid su) (dget (ne_output_id e) (wk_native_outputs w)).
Definition updated_output (token : string) (e : native_event) (w : Worker) : output :=
  match dget token (wk_outputs w) with
  | Some previous =>
      if is_terminal (ne_status (ou_event previous)) && negb (is_terminal (ne_status e)) then previous
      else Output (ne_output_id e) e
  | None => Output (ne_output_id e) e
  end.

Definition track_output (su : surroundings) (e : native_event) (w : Worker) : Worker :=
  let token := output_token su e w in
  let out := updated_output token e w in
  let w1 := set_outputs (dset token out (wk_outputs w))
              (set_native_outputs (dsetdefault (ne_output_id e) token (wk_native_outputs w)) w) in
  if is_terminal (ne_status (ou_event out))
  then revoke_auth (default "" (dget (ne_output_id e) (wk_native_owners w1))) w1 else w1.

(** The worker after [_snapshot(event)] and its result. *)
Definition _snapshot (su : surroundings) (e : native_event) (w : Worker) : Worker * obj :=
  let nid := ne_output_id e in
  let w1 := if nid =? 0 then w else track_output su e w in
  let token := output_token su e w1 in
  let sealed := su_seal su (canonical_json (JList [JStr token; JInt (ne_stdout_total e); JInt (ne_stderr_total e);
                                                   JStr (wk_epoch w)])) in
  let visible := if nid =? 0 then public_fields e
                 else dset "output_complete" (JBool (negb (ne_truncated e)))
                        (dset "snapshot" (JStr sealed) (dset "output_id" (JStr token) (public_fields e))) in
  (w1, dset "execution_id" (JStr (default "" (dget nid (wk_native_owners w1))))
         (dset "shell" (su_shell su) (dset "runtime_epoch" (JStr (wk_epoch w)) visible))).

(** [_deliver] of an event that answers no request. *)
Definition _deliver (su : surroundings) (e : native_event) (w : Worker) : Worker :=
  let nid := ne_output_id e in
  if nid =? 0 then w
  else
    let '(w1, result) := _snapshot su e w in
    let cursor := wk_cursor w1 + 1 in
    if ne_watching e || is_terminal (ne_status e)
    then set_events (dset nid (cursor, result) (wk_events w1)) cursor w1
    else set_events (ddel nid (wk_events w1)) cursor w1.

(** ** [_execute] *)

(** What the runtime answers to a command: an event, a rejection, or an exception. *)
Inductive native_reply :=
| N_event (e : native_event)
| N_rejected (code : string)
| N_exception.

Definition unknown_outcome (oid : string) : RemoteError := remote_error "execution_unknown" "unknown" oid.

(** The end of an execution that owns a new output. *)
Definition adopt_output (su : surroundings) (oid : string) (e : native_event) (w : Worker) : Worker :=
  let nid := ne_output_id e in
  let w1 := set_native_owners (dset nid oid (wk_native_owners w)) w in
  let '(w2, snapshot) := _snapshot su e w1 in
  let w3 := match dget nid (wk_events w2) with
            | Some (cursor, result) =>
                set_events (dset nid (cursor, dset "execution_id" (JStr oid) result) (wk_events w2)) (wk_cursor w2) w2
            | None => w2
            end in
  _finish oid (JObj snapshot) None w3.

(** [_execute] of a submitted command, after the reply. *)
Definition submit_replied (su : surroundings) (oid : string) (r : native_reply) (w : Worker) : Worker :=
  match r with
  | N_event e =>
      if ne_output_id e =? 0
      then let '(w1, snapshot) := _snapshot su e w in _finish oid (JObj snapshot) None w1
      else adopt_output su oid e w
  | N_rejected code =>
      _finish oid JNull (Some (remote code)) (set_reservations (set_discard oid (wk_reservations w)) w)
  | N_exception => _finish oid JNull (Some (unknown_outcome oid)) w
  end.

(** [_execute] of a session action, after the reply. *)
Definition session_replied (su : surroundings) (oid : string) (op : Operation) (r : native_reply) (w : Worker) : Worker :=
  match r with
  | N_event e =>
      let '(w1, snapshot) := _snapshot su e w in
      let forget := match jget "action" (op_args op) with
                    | JStr a => bool_decide (a = "watch" \/ a = "unwatch")
                    | _ => false
                    end in
      let w2 := match forget, jget "session_id" (op_args op) with
                | true, JInt sid => set_events (ddel sid (wk_events w1)) (wk_cursor w1) w1
                | _, _ => w1
                end in
      _finish oid (JObj snapshot) None w2
  | N_rejected code => _finish oid JNull (Some (remote code)) w
  | N_exception => _finish oid JNull (Some (unknown_outcome oid)) w
  end.

Definition execute_replied (su : surroundings) (oid : string) (r : native_reply) (w : Worker) : Worker :=
  match dget oid (wk_operations w) with
  | Some op => if decide (op_method op = "submit") then submit_replied su oid r w else session_replied su oid op r w
  | None => w
  end.

(** ** Requests that execute a command *)

Definition only_keys (allowed : list string) (params : obj) : bool :=
  forallb (fun k => bool_decide (k ∈ allowed)) (dkeys params).

Definition submit_params (su : surroundings) (args : obj) : res RemoteError obj :=
  let params := ddel "operation_id" args in
  raise_if negb (only_keys ["cmd"; "cwd"; "tty"; "wait_ms"; "timeout_ms"; "stdin"] params)
    with remote "invalid_request" ;;
  let! _ := text_value (jget "cmd" params) false TEXT_LIMIT in
  let! _ := text_value (default (JStr "") (dget "cwd" params)) true TEXT_LIMIT in
  match default (JBool false) (dget "tty" params) with
  | JBool tty =>
      raise_if negb (match stdin_bytes (jget "stdin" params) with Some _ => true | None => false end)
        with remote "invalid_stdin" ;;
      let given := match jget "stdin" params with JNull => false | _ => true end in
      let params := if given then params else ddel "stdin" params in
      raise_if given && tty with remote "stdin_pty_conflict" ;;
      raise_if given && negb (su_stdin_version su =? 1) with remote "stdin_unsupported" ;;
      raise_if su_windows su && tty with remote "pty_unsupported" ;;
      let! wait := integer (default (JInt (if tty then 1000 else 300000)) (dget "wait_ms" params)) 0 300000 in
      let params := dset "wait_ms" (JInt wait) params in
      let! _ := integer (jor (jget "timeout_ms" params) (JInt 0)) 0 MAX_INT in
      Ok params
  | _ => Raise (remote "invalid_request")
  end.

(** The arguments each session action accepts; [None]: no such action. *)
Definition session_arguments (action : string) : option (list string) :=
  dget action [("read", ["wait_ms"]); ("write", ["text"]); ("resize", ["rows"; "columns"]); ("terminate", []);
               ("watch", ["wait_ms"; "extend_by_ms"]); ("extend", ["extend_by_ms"]); ("unwatch", [])].

Definition MAX_SESSION : Z := 2 ^ 63 - 1.

(** The checks of one action. *)
Definition session_action_ok (w : Worker) (sid : Z) (action : string) (params : obj) : res RemoteError unit :=
  let! _ :=
    (if decide (action = "watch" \/ action = "extend") then
       let! delta := integer (default (JInt 0) (dget "extend_by_ms" params))
                       (if decide (action = "extend") then 1 else 0) MAX_INT in
       let! _ := (if decide (action = "watch") then integer (jget "wait_ms" params) 1 300000 else Ok 0) in
       match dget (default "" (dget sid (wk_native_owners w))) (wk_operations w) with
       | Some owner => rguard (negb (delta =? 0) && bool_decide (op_method owner = "privileged"))
                         (remote "deadline_not_extendable")
       | None => Ok tt
       end
     else Ok tt) in
  let! _ := (if decide (action = "read") then integer (default (JInt 0) (dget "wait_ms" params)) 0 300000 else Ok 0) in
  let! _ := (if decide (action = "write") then text_value (jget "text" params) true TEXT_LIMIT else Ok "") in
  if decide (action = "resize") then
    let! _ := integer (jget "rows" params) 1 65535 in
    let! _ := integer (jget "columns" params) 1 65535 in
    Ok tt
  else Ok tt.

Definition session_params (w : Worker) (args : obj) : res RemoteError obj :=
  let params := ddel "operation_id" args in
  let! sid := integer (jget "session_id" params) 1 MAX_SESSION in
  raise_if negb (dmem sid (wk_native_outputs w)) with remote "invalid_session" ;;
  match default (JStr "read") (dget "action" params) with
  | JStr action =>
      match session_arguments action with
      | Some allowed =>
          raise_if negb (only_keys (["session_id"; "action"] ++ allowed) params) with remote "invalid_request" ;;
          let params := dset "action" (JStr action) params in
          let! _ := session_action_ok w sid action params in
          Ok params
      | None => Raise (remote "invalid_request")
      end
  | _ => Raise (remote "invalid_request")
  end.

(** Room for the output of one more command. *)
Definition output_room (w : Worker) : bool :=
  (Z.of_nat (length (wk_reservations w)) + 1) * cf_output_limit config <=? cf_retained_limit config.

Definition add_task (t : task) (w : Worker) : Worker := set_tasks (t :: wk_tasks w) w.

(** A fresh operation is refused at once or scheduled. *)
Definition admit_operation (oid method : string) (w : Worker) : Worker :=
  if wk_draining w then _finish oid JNull (Some (remote "worker_draining")) w
  else if bool_decide (method = "submit") && negb (output_room w)
  then _finish oid JNull (Some (remote "output_capacity")) w
  else add_task (T_execute oid)
         (if decide (method = "submit") then set_reservations (set_insert oid (wk_reservations w)) w else w).

Definition current_snapshot (oid : string) : W obj :=
  do! w <- sget ;;
  match dget oid (wk_operations w) with
  | Some op => sret (operation_snapshot op)
  | None => sthrow (WCrash "operation")
  end.

Definition handle_execute (su : surroundings) (method : string) (args : obj) : W obj :=
  do! w <- sget ;;
  do! params <- wlift (if decide (method = "submit") then submit_params su args else session_params w args) ;;
  do! recorded <- _record (jget "operation_id" args) method params ;;
  let oid := op_operation_id recorded.1 in
  seq! (if recorded.2 : bool then smodify (admit_operation oid method) else sret tt) ;;
  current_snapshot oid.

(** ** Queries and the release of outputs *)

(** [query], without its optional wait. *)
Definition handle_query (args : obj) : W obj :=
  do! oid <- wlift (text_value (jget "operation_id" args) false 128) ;;
  do! w <- sget ;;
  match dget oid (wk_operations w) with
  | None => sthrow (WRemote (unknown_outcome oid))
  | Some op =>
      do! _ <- wlift (integer (default (JInt 0) (dget "wait_ms" args)) 0 300000) ;;
      sret (operation_snapshot op)
  end.

(** [events], without its optional wait: the 32 oldest events after the cursor. *)
Definition event_le (a b : Z * obj) : Prop := a.1 <= b.1.
#[local] Instance event_le_dec : RelDecision event_le.
Proof. intros a b. unfold event_le. apply _. Defined.

Definition handle_events (args : obj) : W (list (Z * obj)) :=
  do! after <- wlift (integer (default (JInt 0) (dget "after" args)) 0 MAX_SESSION) ;;
  do! _ <- wlift (integer (default (JInt 30000) (dget "wait_ms" args)) 0 30000) ;;
  do! w <- sget ;;
  sret (take 32 (merge_sort event_le (filter (fun e => after < e.1) (dvals (wk_events w))))).

(** [release] up to the call of the runtime. *)
Definition handle_release (args : obj) : W obj :=
  do! token <- wlift (text_value (jget "output_id" args) false 128) ;;
  do! w <- sget ;;
  match dget token (wk_outputs w) with
  | Some item => seq! smodify (add_task (T_release token (ou_native_id item))) ;; sret []
  | None => sret [("status", JStr "output_released")]
  end.

(** [release] after the runtime has released the output. *)
Definition release_replied (token : string) (nid : Z) (w : Worker) : Worker :=
  let owner := default "" (dget nid (wk_native_owners w)) in
  set_reservations (set_discard owner (wk_reservations w))
    (set_native_owners (ddel nid (wk_native_owners w))
      (set_events (ddel nid (wk_events w)) (wk_cursor w)
        (set_native_outputs (ddel nid (wk_native_outputs w))
          (set_outputs (ddel token (wk_outputs w)) w)))).

(** ** Signed approvals: [privilege.py] *)

Definition approval_payload (w : Worker) (op : Operation) : obj :=
  [("protocol", JStr "pal-shell-approval.v1"); ("client_id", JStr (cf_client_id config));
   ("worker_id", JStr (cf_worker_id config)); ("runtime_epoch", JStr (wk_epoch w));
   ("operation_id", JStr (op_operation_id op)); ("fingerprint", JStr (op_fingerprint op));
   ("nonce", JStr (op_nonce op)); ("expires_at", JInt (op_expires_at op)); ("target", jget "target" (op_args op))].

(** [len(base64.b64encode(raw))] *)
Definition base64_length (n : Z) : Z := 4 * ((n + 2) / 3).

(** The checks of [prepare_privileged] that depend on the action. *)
Definition sudo_params (su : surroundings) (params : obj) : res RemoteError obj :=
  let! _ := text_value (jget "cmd" params) false 32768 in
  let! cwd := text_value (default (JStr "") (dget "cwd" params)) true TEXT_LIMIT in
  let params := dset "cwd" (JStr (su_expanduser su cwd)) params in
  let! _ := integer (default (JInt 300000) (dget "wait_ms" params)) 0 300000 in
  let! _ := integer (jor (jget "timeout_ms" params) (JInt 0)) 0 MAX_INT in
  raise_if negb (su_linux su) && negb (su_trusted su (cf_privilege_helper config) && su_trusted su (cf_askpass_helper config))
    with remote "privilege_unavailable" ;;
  Ok params.

Definition shutdown_params (su : surroundings) (params : obj) : res RemoteError obj :=
  raise_if bool_decide (cf_shutdown_policy config = "disabled") ||
           (negb (su_linux su) && bool_decide (cf_shutdown_argv config = []))
    with remote "shutdown_unsupported" ;;
  let own := su_machine_identity su in
  raise_if negb (str_truthy own) || negb (truthy (jget "protected_machine_id" params)) ||
           bool_decide (own ∈ cf_protected_machine_ids config) || py_eq (jget "protected_machine_id" params) (JStr own)
    with remote "protected_host" ;;
  Ok params.

(** On Linux the normalized action is part of what is signed. *)
Definition with_management (su : surroundings) (params : obj) : res RemoteError obj :=
  if su_linux su then
    let! action := normalize params in
    let params := dset "management" (JObj action) params in
    raise_if negb (bool_decide (action_name action ∈ cf_management_actions config)) ||
             negb (su_trusted su (cf_management_helper config))
      with remote "management_unavailable" ;;
    raise_if negb (truthy (jget "ok" (su_status su))) ||
             negb (existsb (fun v => py_eq v (JStr (action_name action)))
                     (match jget "allowed_actions" (su_status su) with JList l => l | _ => [] end))
      with remote "management_unavailable" ;;
    Ok params
  else Ok params.

Definition privileged_params (su : surroundings) (args : obj) : res RemoteError obj :=
  let params := ddel "operation_id" args in
  let action := match jget "action" params with JStr a => a | _ => "" end in
  raise_if negb (bool_decide (action = "sudo" \/ action = "shutdown")) ||
           negb (only_keys ["action"; "target"; "cmd"; "cwd"; "wait_ms"; "timeout_ms"; "protected_machine_id"; "stdin"] params)
    with remote "invalid_request" ;;
  raise_if negb (match stdin_bytes (jget "stdin" params) with Some _ => true | None => false end)
    with remote "invalid_stdin" ;;
  let given := match jget "stdin" params with JNull => false | _ => true end in
  let params := if given then params else ddel "stdin" params in
  raise_if given && negb (bool_decide (action = "sudo")) with remote "invalid_request" ;;
  let! _ := integer (jget "target" params) 1 MAX_INT in
  let! params := (if decide (action = "sudo") then sudo_params su params else shutdown_params su params) in
  let! params := with_management su params in
  raise_if given && negb (su_privileged_stdin su =? 1) with remote "stdin_unsupported" ;;
  Ok params.

(** A fresh preparation waits for its approval for ten minutes. *)
Definition prepared (su : surroundings) (op : Operation) : Operation :=
  Op (op_operation_id op) (op_fingerprint op) (op_method op) (op_args op) ApprovalRequired (op_result op) (op_error op)
    (su_nonce su) (su_now su + 600) (op_auth_consumed op) (op_auth_available op) (op_approval_signature op).

Definition zeros : string := of_chars (repeat (Ascii.ascii_of_nat 48) 128).
Definition envelope_length (w : Worker) (op : Operation) (params : obj) : Z :=
  base64_length (Z.of_nat (length (canonical_json (JObj
    [("approval", JObj (approval_payload w op)); ("args", JObj params); ("signature", JStr zeros)])))).

Definition prepare_privileged (su : surroundings) (args : obj) : W obj :=
  seq! sguard (su_windows su) (WRemote (remote "management_unsupported")) ;;
  do! params <- wlift (privileged_params su args) ;;
  do! recorded <- _record (jget "operation_id" args) "privileged" params ;;
  let op := recorded.1 in
  do! w <- sget ;;
  if recorded.2 : bool then
    let op := prepared su op in
    if (su_linux su || (match jget "stdin" params with JNull => false | _ => true end)) &&
       (MAX_ENVELOPE_BYTES <? envelope_length w op params)
    then seq! smodify (fun w => set_operations (ddel (op_operation_id op) (wk_operations w)) w) ;;
         wfail "privilege_command_unsupported"
    else seq! smodify (set_op op) ;;
         sret (operation_snapshot op ++ [("approval", JObj (approval_payload w op)); ("normalized_args", JObj params)])
  else sret (operation_snapshot op ++ [("approval", JObj (approval_payload w op)); ("normalized_args", JObj params)]).

(** The operation is approved: it is pending, with its single authentication available. *)
Definition approved (signature : string) (op : Operation) : Operation :=
  Op (op_operation_id op) (op_fingerprint op) (op_method op) (op_args op) Pending (op_result op) (op_error op)
    (op_nonce op) (op_expires_at op) (op_auth_consumed op) true signature.

Definition is_sudo (op : Operation) : bool := py_eq (jget "action" (op_args op)) (JStr "sudo").

Definition commit_privileged (su : surroundings) (args : obj) : W obj :=
  seq! sguard (su_windows su) (WRemote (remote "management_unsupported")) ;;
  do! oid <- wlift (text_value (jget "operation_id" args) false 128) ;;
  do! w <- sget ;;
  match dget oid (wk_operations w) with
  | Some op =>
      if negb (bool_decide (op_method op = "privileged")) then wfail "invalid_operation"
      else if negb (bool_decide (op_state_ op = ApprovalRequired)) then sret (operation_snapshot op)
      else if op_expires_at op <? su_now su then
        seq! smodify (_finish oid JNull (Some (remote "approval_expired"))) ;; current_snapshot oid
      else
        match default (JStr "") (dget "signature" args) with
        | JStr signature =>
            if negb (su_signature su (cf_client_public_key config) signature (canonical_json (JObj (approval_payload w op))))
            then wfail "approval_invalid"
            else if wk_draining w then wfail "worker_draining"
            else if is_sudo op && negb (output_room w) then wfail "output_capacity"
            else
              seq! smodify (set_op (approved signature op)) ;;
              seq! (if is_sudo op then smodify (fun w => set_reservations (set_insert oid (wk_reservations w)) w) else sret tt) ;;
              seq! smodify (add_task (T_privileged oid)) ;;
              sret (operation_snapshot (approved signature op))
        | _ => wfail "approval_invalid"
        end
  | None => wfail "invalid_operation"
  end.

Definition consumed (op : Operation) : Operation :=
  Op (op_operation_id op) (op_fingerprint op) (op_method op) (op_args op) (op_state_ op) (op_result op) (op_error op)
    (op_nonce op) (op_expires_at op) true false (op_approval_signature op).

(** [True]: the caller may authenticate, once. *)
Definition consume_authentication (su : surroundings) (management : bool) (args : obj) : W bool :=
  let grant := match default (JObj []) (dget "approval" args) with JObj d => d | _ => [] end in
  do! w <- sget ;;
  match jget "operation_id" grant with
  | JStr oid =>
      match dget oid (wk_operations w) with
      | Some op =>
          if negb (bool_decide (op_method op = "privileged")) || (negb management && negb (is_sudo op))
          then wfail "approval_invalid"
          else if wk_closed w || negb (op_auth_available op) || op_auth_consumed op || (op_expires_at op <? su_now su) ||
                  negb (py_eq (JObj grant) (JObj (approval_payload w op)))
          then wfail "approval_invalid"
          else
            match jget "signature" args with
            | JStr signature =>
                if su_signature su (cf_client_public_key config) signature (canonical_json (JObj grant))
                then seq! smodify (set_op (consumed op)) ;; sret true
                else wfail "approval_invalid"
            | _ => wfail "approval_invalid"
            end
      | None => wfail "approval_invalid"
      end
  | _ => wfail "approval_invalid"
  end.

(** *** [execute_privileged] *)

(** Other work that forbids a shutdown. *)
Definition busy (oid : string) (w : Worker) : bool :=
  negb (bool_decide (wk_reservations w = [])) || negb (bool_decide (wk_outputs w = [])) ||
  existsb (fun p => bool_decide (op_state_ p.2 = Pending) && negb (bool_decide (p.1 = oid))) (wk_operations w).

(** The result of an accepted shutdown. *)
Definition shutdown_result (oid : string) (w : Worker) : json :=
  JObj [("status", JStr "accepted"); ("operation_id", JStr oid); ("runtime_epoch", JStr (wk_epoch w));
        ("power_state", JStr "unconfirmed")].

(** Up to the first wait; [starts]: the operating system starts the action. *)
Definition privileged_started (su : surroundings) (starts : bool) (oid : string) (op : Operation) (w : Worker) : Worker :=
  if is_sudo op then add_task (T_priv_native oid) (set_reservations (set_insert oid (wk_reservations w)) w)
  else if busy oid w then
    _finish oid JNull (Some (remote "target_busy"))
      (set_reservations (set_discard oid (wk_reservations w)) (set_draining false w))
  else if negb starts then
    _finish oid JNull (Some (remote "shutdown_not_started"))
      (set_reservations (set_discard oid (wk_reservations w)) (set_draining false w))
  else
    let w1 := set_draining true w in
    add_task (T_shutdown oid) (if su_linux su then w1 else _finish oid (shutdown_result oid w) None w1).

(** After the reply to a privileged command. *)
Definition privileged_replied (su : surroundings) (oid : string) (r : native_reply) (w : Worker) : Worker :=
  match r with
  | N_event e => adopt_output su oid e w
  | N_rejected code =>
      _finish oid JNull (Some (remote code)) (set_reservations (set_discard oid (wk_reservations w)) w)
  | N_exception => _finish oid JNull (Some (unknown_outcome oid)) w
  end.

(** After the shutdown action has ended. *)
Definition shutdown_ended (su : surroundings) (oid : string) (success : bool) (w : Worker) : Worker :=
  if success then (if su_linux su then _finish oid (shutdown_result oid w) None w else w)
  else if su_linux su then
    _finish oid JNull (Some (remote_unknown "shutdown_unconfirmed"))
      (set_reservations (set_discard oid (wk_reservations w)) (set_draining false w))
  else _finish oid JNull (Some (remote_error "shutdown_failed" "applied" "")) (set_draining false w).
End worker.
