(* ===== verification/WorkerSafety.v ===== *)
(** * Theorems of the worker process

    The steps of a worker interleave freely: requests, the scheduler that runs a task to
    its next wait, replies and events of the runtime.  Along every run a command starts
    at most once, retained outputs stay within their limit, an approval is used once,
    and a shutdown runs alone. *)

From S2P Require Import Prelude Dict Utf8 Sha256 PyValue JsonText Shlex Protocol Management Worker.
Open Scope Z_scope.

(** The worker with its history: [sy_started] lists the operations whose command or
    action was started, [sy_authorized] the authentications that were granted. *)
Record system := Sys { sy_worker : Worker; sy_started : list string; sy_authorized : list string }.

(** The operation a task executes. *)
Definition exec_oid (t : task) : option string :=
  match t with
  | T_execute oid | T_native oid | T_privileged oid | T_priv_native oid | T_shutdown oid | T_file oid => Some oid
  | T_release _ _ => None
  end.
Definition executing (w : Worker) : list string := omap exec_oid (wk_tasks w).

Fixpoint remove_first (t : task) (l : list task) : list task :=
  match l with
  | [] => []
  | x :: l => if decide (x = t) then l else x :: remove_first t l
  end.
Definition drop_task (t : task) (w : Worker) : Worker := set_tasks (remove_first t (wk_tasks w)) w.

Definition grant_operation (args : obj) : string :=
  match default (JObj []) (dget "approval" args) with
  | JObj grant => match jget "operation_id" grant with JStr oid => oid | _ => "" end
  | _ => ""
  end.

Section safety.
Variable config : WorkerConfig.
Variable check : string -> string -> bytes -> bool.

(** The record and the task of a fresh file operation, with [_finish] at its end. *)
Definition file_execute (oid : json) (value : obj) : W obj :=
  do! w <- sget ;;
  seq! sguard (wk_closed w || wk_draining w) (WRemote (remote "worker_draining")) ;;
  do! recorded <- _record config oid "file_execute" value ;;
  seq! (if recorded.2 : bool then smodify (add_task (T_file (op_operation_id recorded.1))) else sret tt) ;;
  current_snapshot (op_operation_id recorded.1).

Definition started_by (su : surroundings) (starts : bool) (oid : string) (op : Operation) (w : Worker) : bool :=
  is_sudo op || (negb (busy oid w) && starts).

Inductive worker_step : system -> system -> Prop :=
| ws_submit w st au su args :
    worker_step (Sys w st au) (Sys (handle_execute config su "submit" args w).1 st au)
| ws_session w st au su args :
    worker_step (Sys w st au) (Sys (handle_execute config su "session" args w).1 st au)
| ws_prepare w st au su args :
    worker_step (Sys w st au) (Sys (prepare_privileged config su args w).1 st au)
| ws_commit w st au su args :
    su_signature su = check ->
    worker_step (Sys w st au) (Sys (commit_privileged config su args w).1 st au)
| ws_authorized w st au su management args :
    su_signature su = check -> (consume_authentication config su management args w).2 = Ok true ->
    worker_step (Sys w st au) (Sys (consume_authentication config su management args w).1 st (grant_operation args :: au))
| ws_release w st au args :
    worker_step (Sys w st au) (Sys (handle_release args w).1 st au)
| ws_file w st au oid value :
    worker_step (Sys w st au) (Sys (file_execute oid value w).1 st au)
| ws_run w st au oid :
    T_execute oid ∈ wk_tasks w ->
    worker_step (Sys w st au) (Sys (add_task (T_native oid) (drop_task (T_execute oid) w)) (oid :: st) au)
| ws_reply w st au su oid r :
    T_native oid ∈ wk_tasks w ->
    worker_step (Sys w st au) (Sys (execute_replied su oid r (drop_task (T_native oid) w)) st au)
| ws_privileged w st au su starts oid op :
    T_privileged oid ∈ wk_tasks w -> dget oid (wk_operations w) = Some op ->
    worker_step (Sys w st au)
      (Sys (privileged_started su starts oid op (drop_task (T_privileged oid) w))
           (if started_by su starts oid op w then oid :: st else st) au)
| ws_priv_reply w st au su oid r :
    T_priv_native oid ∈ wk_tasks w ->
    worker_step (Sys w st au) (Sys (privileged_replied su oid r (drop_task (T_priv_native oid) w)) st au)
| ws_shutdown w st au su oid success :
    T_shutdown oid ∈ wk_tasks w ->
    worker_step (Sys w st au) (Sys (shutdown_ended su oid success (drop_task (T_shutdown oid) w)) st au)
| ws_file_done w st au oid result error :
    T_file oid ∈ wk_tasks w ->
    worker_step (Sys w st au) (Sys (_finish oid result error (drop_task (T_file oid) w)) st au)
| ws_released w st au token nid :
    T_release token nid ∈ wk_tasks w ->
    worker_step (Sys w st au) (Sys (release_replied token nid (drop_task (T_release token nid) w)) st au)
| ws_release_failed w st au token nid :
    T_release token nid ∈ wk_tasks w ->
    worker_step (Sys w st au) (Sys (drop_task (T_release token nid) w) st au)
| ws_deliver w st au su e :
    worker_step (Sys w st au) (Sys (_deliver su e w) st au)
| ws_close w st au :
    worker_step (Sys w st au) (Sys (set_closed true w) st au).

(** ** The invariant *)

Definition signed (w : Worker) (op : Operation) : Prop :=
  check (cf_client_public_key config) (op_approval_signature op) (canonical_json (JObj (approval_payload config w op))) = true.

Definition op_ok (s : system) (oid : string) (op : Operation) : Prop :=
  op_operation_id op = oid /\ oid <> "" /\
  (op_state_ op = ApprovalRequired ->
     op_method op = "privileged" /\ op_auth_available op = false /\ op_auth_consumed op = false /\
     oid ∉ sy_started s /\ oid ∉ executing (sy_worker s)) /\
  (op_auth_available op = true -> op_auth_consumed op = false) /\
  (op_auth_available op = true \/ op_auth_consumed op = true -> signed (sy_worker s) op).

Definition reserved (s : system) (oid : string) : Prop := oid ∈ wk_reservations (sy_worker s).

Definition task_ok (s : system) (t : task) (oid : string) (op : Operation) : Prop :=
  match t with
  | T_execute _ => op_state_ op = Pending /\ oid ∉ sy_started s /\ (op_method op = "submit" -> reserved s oid)
  | T_native _ => op_state_ op = Pending /\ oid ∈ sy_started s /\ (op_method op = "submit" -> reserved s oid)
  | T_privileged _ => op_state_ op = Pending /\ oid ∉ sy_started s /\ (is_sudo op = true -> reserved s oid)
  | T_priv_native _ => op_state_ op = Pending /\ oid ∈ sy_started s /\ reserved s oid
  | T_shutdown _ => oid ∈ sy_started s
  | T_file _ => op_state_ op = Pending
  | T_release _ _ => True
  end.

Record worker_ok (s : system) : Prop := {
  wo_wf : dwf (wk_operations (sy_worker s));
  wo_limit : Z.of_nat (length (wk_operations (sy_worker s))) <= cf_operation_limit config;
  wo_ops : forall oid op, dget oid (wk_operations (sy_worker s)) = Some op -> op_ok s oid op;
  wo_distinct : NoDup (executing (sy_worker s));
  wo_task : forall t oid, t ∈ wk_tasks (sy_worker s) -> exec_oid t = Some oid ->
    exists op, dget oid (wk_operations (sy_worker s)) = Some op /\ task_ok s t oid op;
  wo_started : NoDup (sy_started s);
  wo_journal : forall oid, oid ∈ sy_started s -> is_Some (dget oid (wk_operations (sy_worker s)));
  wo_authorized : NoDup (sy_authorized s);
  wo_consumed : forall oid, oid ∈ sy_authorized s ->
    exists op, dget oid (wk_operations (sy_worker s)) = Some op /\ op_auth_consumed op = true;
  wo_reserved : NoDup (wk_reservations (sy_worker s));
  wo_room : Z.of_nat (length (wk_reservations (sy_worker s))) * cf_output_limit config <= cf_retained_limit config;
  wo_owners_wf : dwf (wk_native_owners (sy_worker s));
  wo_owners : NoDup (dvals (wk_native_owners (sy_worker s)));
  wo_owner : forall nid oid, dget nid (wk_native_owners (sy_worker s)) = Some oid ->
    oid ∈ sy_started s /\ reserved s oid /\ oid ∉ executing (sy_worker s);
  wo_alone : forall oid, T_shutdown oid ∈ wk_tasks (sy_worker s) ->
    wk_draining (sy_worker s) = true /\ wk_reservations (sy_worker s) = [] /\ executing (sy_worker s) = [oid]
}.

(** ** Preservation, one change at a time *)

(** The fields the invariant is about. *)
Definition core (w : Worker) :=
  (wk_epoch w, wk_operations w, wk_native_owners w, wk_draining w, wk_reservations w, wk_tasks w).

Lemma ok_core w w' st au : core w = core w' -> worker_ok (Sys w st au) -> worker_ok (Sys w' st au).
Proof.
  destruct w as [e o x1 x2 n x3 x4 d x5 r t], w' as [e' o' y1 y2 n' y3 y4 d' y5 r' t'].
  intros [= <- <- <- <- <- <-] H. destruct H. by split.
Qed.

Lemma ok_set_op w st au oid op op' :
  worker_ok (Sys w st au) -> dget oid (wk_operations w) = Some op -> op_ok (Sys w st au) oid op' ->
  (forall t, t ∈ wk_tasks w -> exec_oid t = Some oid -> task_ok (Sys w st au) t oid op -> task_ok (Sys w st au) t oid op') ->
  (op_auth_consumed op = true -> op_auth_consumed op' = true) ->
  worker_ok (Sys (set_op op' w) st au).
Proof.
  intros Hok Hop Hop' Ht Hc. pose proof (proj1 Hop') as Hid. unfold set_op. rewrite Hid. destruct Hok.
  split; simpl in *; try assumption.
  - by apply dwf_dset.
  - rewrite length_dset, (proj2 (dmem_true oid (wk_operations w))) by eauto. done.
  - intros oid0 op0. rewrite dget_dset. case_decide; [intros [= <-]; by subst|]. apply wo_ops0.
  - intros t oid0 Hin He. destruct (wo_task0 _ _ Hin He) as (op0 & H0 & Hok0). rewrite dget_dset.
    case_decide; [subst|by eauto]. exists op'. split; [done|]. apply Ht; [done|done|]. congruence.
  - intros oid0 H0. rewrite dget_dset. case_decide; [done|by apply wo_journal0].
  - intros oid0 H0. destruct (wo_consumed0 _ H0) as (op0 & ? & ?). rewrite dget_dset. case_decide; [|by eauto].
    subst. exists op'. split; [done|]. apply Hc. congruence.
Qed.

Lemma finished_ok w st au oid op result error :
  op_ok (Sys w st au) oid op -> op_ok (Sys w st au) oid (finished result error op).
Proof.
  intros (H1 & H2 & H3 & H4 & H5). assert (Ha : op_auth_available (finished result error op) = true -> op_auth_available op = true).
  { simpl. destruct error; [done|]. by destruct (settles result). }
  split_and!; [done|done| | |].
  - simpl. by destruct error.
  - intros H. by apply H4, Ha.
  - intros H. assert (Hs : signed w op) by (apply H5; destruct H; [left; by apply Ha|by right]).
    unfold signed, approval_payload in *. simpl in *.
    replace (jget "target" (ddel "stdin" (op_args op))) with (jget "target" (op_args op)); [done|].
    unfold jget. by rewrite dget_ddel_ne.
Qed.

Lemma finish_ok w st au oid result error :
  worker_ok (Sys w st au) -> (forall t, t ∈ wk_tasks w -> exec_oid t = Some oid -> t = T_shutdown oid) ->
  worker_ok (Sys (_finish oid result error w) st au).
Proof.
  intros Hok Ht. unfold _finish. destruct (dget oid (wk_operations w)) as [op|] eqn:E; [|done].
  eapply ok_set_op; [done|exact E|apply finished_ok; by apply (wo_ops _ Hok)| |done].
  intros t Hin He Hok'. rewrite (Ht _ Hin He) in *. done.
Qed.

Lemma revoke_auth_ok w st au oid : worker_ok (Sys w st au) -> worker_ok (Sys (revoke_auth oid w) st au).
Proof.
  intros Hok. unfold revoke_auth. destruct (dget oid (wk_operations w)) as [op|] eqn:E; [|done].
  destruct (wo_ops _ Hok _ _ E) as (H1 & H2 & H3 & H4 & H5). eapply ok_set_op; [done|exact E| |by intros []|done].
  split_and!; simpl; [done|done| |done|].
  - intros H. by destruct (H3 H) as (? & ? & ? & ? & ?).
  - intros [?|H]; [done|]. apply H5. by right.
Qed.

Lemma snapshot_ok w st au su e : worker_ok (Sys w st au) -> worker_ok (Sys (_snapshot su e w).1 st au).
Proof.
  intros Hok. unfold _snapshot. simpl. destruct (ne_output_id e =? 0); [done|]. unfold track_output.
  destruct (is_terminal _); [apply revoke_auth_ok|]; by apply (ok_core w).
Qed.

Lemma deliver_ok w st au su e : worker_ok (Sys w st au) -> worker_ok (Sys (_deliver su e w) st au).
Proof.
  intros Hok. unfold _deliver. destruct (ne_output_id e =? 0); [done|].
  pose proof (snapshot_ok w st au su e Hok) as H. destruct (_snapshot su e w) as [w1 result].
  destruct (_ || _); by apply (ok_core w1).
Qed.

(** What does not touch the tasks, the reservations, the owners and the flags. *)
Definition frame (w : Worker) := (wk_native_owners w, wk_draining w, wk_reservations w, wk_tasks w, wk_epoch w).

Lemma finish_frame oid result error w : frame (_finish oid result error w) = frame w.
Proof. unfold _finish. by destruct (dget oid (wk_operations w)). Qed.

Lemma snapshot_frame su e w : frame (_snapshot su e w).1 = frame w.
Proof.
  unfold _snapshot. simpl. destruct (_ =? 0); [done|]. unfold track_output. destruct (is_terminal _); [|done].
  unfold revoke_auth. by destruct (dget _ (wk_operations _)).
Qed.

(** *** Tasks *)

Lemma remove_first_subseteq t l x : x ∈ remove_first t l -> x ∈ l.
Proof.
  induction l as [|y l IH]; simpl; [done|]. destruct (decide (y = t)); [by right|].
  intros [->|H]%elem_of_cons; [left|right; by apply IH].
Qed.

Lemma remove_first_executing t l :
  t ∈ l -> omap exec_oid l ≡ₚ (match exec_oid t with Some oid => [oid] | None => [] end) ++ omap exec_oid (remove_first t l).
Proof.
  induction l as [|y l IH]; [by intros ?%elem_of_nil|]. simpl. destruct (decide (y = t)) as [->|Hne].
  - intros _. by destruct (exec_oid t).
  - intros [->|H]%elem_of_cons; [done|]. specialize (IH H). cbn [omap list_omap].
    destruct (exec_oid y) as [o|]; [|done]. rewrite IH. destruct (exec_oid t); simpl; [apply Permutation_swap|done].
Qed.

Lemma executing_drop w t oid :
  NoDup (executing w) -> t ∈ wk_tasks w -> exec_oid t = Some oid ->
  NoDup (executing (drop_task t w)) /\ oid ∉ executing (drop_task t w) /\
  forall o, o ∈ executing w <-> o = oid \/ o ∈ executing (drop_task t w).
Proof.
  unfold executing, drop_task. simpl. intros Hnd Hin He. pose proof (remove_first_executing t _ Hin) as Hp.
  rewrite He in Hp. simpl in Hp. rewrite Hp in Hnd. apply NoDup_cons in Hnd as [Hn Hd]. split_and!; [done..|].
  intros o. by rewrite Hp, elem_of_cons.
Qed.

Lemma executing_drop_none w t :
  t ∈ wk_tasks w -> exec_oid t = None -> executing (drop_task t w) ≡ₚ executing w.
Proof.
  unfold executing, drop_task. simpl. intros Hin He. pose proof (remove_first_executing t _ Hin) as Hp.
  rewrite He in Hp. by rewrite Hp.
Qed.

Lemma executing_task w t oid : t ∈ wk_tasks w -> exec_oid t = Some oid -> oid ∈ executing w.
Proof. intros Hin He. apply list_elem_of_omap. eauto. Qed.

(** A task that has been taken off the list is nobody else's. *)
Lemma drop_task_ok w st au t : worker_ok (Sys w st au) -> t ∈ wk_tasks w -> worker_ok (Sys (drop_task t w) st au).
Proof.
  intros Hok Hin. pose proof Hok as Hok0. destruct Hok0.
  assert (Hsub : forall o, o ∈ executing (drop_task t w) -> o ∈ executing w).
  { intros o. unfold executing. simpl. rewrite !list_elem_of_omap. intros (x & Hx & ?).
    exists x. split; [by eapply remove_first_subseteq|done]. }
  assert (Hnd : NoDup (executing (drop_task t w))).
  { destruct (exec_oid t) as [oid|] eqn:E; [by apply (executing_drop w t oid)|].
    by rewrite (executing_drop_none w t Hin E). }
  split; simpl in *; try assumption.
  - intros oid op H. destruct (wo_ops0 _ _ H) as (? & ? & H3 & ? & ?). split_and!; try done.
    intros Hw. destruct (H3 Hw) as (? & ? & ? & ? & Hx). split_and!; try done. intros Hx'. by apply Hx, Hsub.
  - intros t0 oid Ht0. apply wo_task0. by eapply remove_first_subseteq.
  - intros nid oid H. destruct (wo_owner0 _ _ H) as (? & ? & Hx). split_and!; [done..|]. intros Hx'. by apply Hx, Hsub.
  - intros oid Hs. pose proof (remove_first_subseteq _ _ _ Hs) as Hs'. destruct (wo_alone0 _ Hs') as (? & ? & Hx).
    split_and!; [done..|]. destruct (exec_oid t) as [o|] eqn:E.
    + exfalso. destruct (executing_drop w t o wo_distinct0 Hin E) as (_ & Hn & _).
      assert (o = oid). { pose proof (executing_task _ _ _ Hin E) as Ho. rewrite Hx in Ho. by apply list_elem_of_singleton in Ho. }
      subst. apply Hn. by eapply (executing_task (drop_task t w) (T_shutdown oid)).
    + pose proof (executing_drop_none w t Hin E) as Hp. rewrite Hx in Hp.
      by apply Permutation_singleton_r in Hp.
Qed.

(** Scheduling a task of an operation that has none; not while a shutdown runs. *)
Lemma add_task_ok w st au t oid op :
  worker_ok (Sys w st au) -> exec_oid t = Some oid -> dget oid (wk_operations w) = Some op ->
  task_ok (Sys w st au) t oid op -> op_state_ op <> ApprovalRequired -> oid ∉ executing w ->
  (forall nid, dget nid (wk_native_owners w) <> Some oid) ->
  (forall o, T_shutdown o ∉ wk_tasks w) ->
  (t = T_shutdown oid -> wk_draining w = true /\ wk_reservations w = [] /\ executing w = []) ->
  worker_ok (Sys (add_task t w) st au).
Proof.
  intros Hok He Hop Ht Hs Hn Ho Hsd Hsh. destruct Hok.
  assert (Hx : executing (add_task t w) = oid :: executing w) by (unfold executing; simpl; by rewrite He).
  split; simpl in *; try assumption.
  - intros o op0 H. destruct (wo_ops0 _ _ H) as (? & ? & H3 & ? & ?). split_and!; try done.
    intros Hw. destruct (H3 Hw) as (? & ? & ? & ? & Hx'). split_and!; try done. simpl. rewrite Hx.
    intros [->|?]%elem_of_cons; [congruence|done].
  - rewrite Hx. by constructor.
  - intros t0 o [->|Ht0]%elem_of_cons He0; [|by apply wo_task0]. exists op. by simplify_eq.
  - intros nid o H. destruct (wo_owner0 _ _ H) as (? & ? & Hx'). split_and!; [done..|]. rewrite Hx.
    intros [->|?]%elem_of_cons; [by apply (Ho nid)|done].
  - intros o [<-|H]%elem_of_cons; [|by apply Hsd in H]. simpl in He. injection He as <-.
    destruct (Hsh eq_refl) as (? & ? & Hnil). rewrite Hx, Hnil. done.
Qed.

Lemma add_release_ok w st au token nid :
  worker_ok (Sys w st au) -> worker_ok (Sys (add_task (T_release token nid) w) st au).
Proof.
  intros []. split; simpl in *; try assumption.
  - intros t o [->|?]%elem_of_cons He; [done|by apply wo_task0].
  - intros o [?|?]%elem_of_cons; [done|by apply wo_alone0].
Qed.

(** *** Reservations *)

Lemma NoDup_set_insert x l : NoDup l -> NoDup (set_insert x l).
Proof.
  intros H. unfold set_insert. case_decide; [done|]. apply NoDup_app. split_and!; [done| |apply NoDup_singleton].
  intros y Hy ->%list_elem_of_singleton. done.
Qed.

Lemma elem_set_insert x y l : y ∈ set_insert x l <-> y = x \/ y ∈ l.
Proof.
  unfold set_insert. case_decide; [split; [by right|by intros [->|?]]|].
  rewrite elem_of_app, list_elem_of_singleton. tauto.
Qed.

Lemma elem_set_discard x y l : y ∈ set_discard x l <-> y <> x /\ y ∈ l.
Proof. unfold set_discard. by rewrite list_elem_of_filter. Qed.

Lemma task_ok_reserve w st au t o op r :
  (forall x, x ∈ wk_reservations w -> x ∈ r) ->
  task_ok (Sys w st au) t o op -> task_ok (Sys (set_reservations r w) st au) t o op.
Proof. intros Hr. unfold task_ok, reserved. simpl. destruct t; naive_solver. Qed.

Lemma reserve_ok w st au oid :
  worker_ok (Sys w st au) -> output_room config w = true \/ oid ∈ wk_reservations w ->
  (forall o, T_shutdown o ∉ wk_tasks w) ->
  worker_ok (Sys (set_reservations (set_insert oid (wk_reservations w)) w) st au).
Proof.
  intros [] Hroom Hsd. assert (Hsub : forall x, x ∈ wk_reservations w -> x ∈ set_insert oid (wk_reservations w)).
  { intros x Hx. apply elem_set_insert. by right. }
  split; simpl in *; try assumption.
  - intros t o Ht He. destruct (wo_task0 _ _ Ht He) as (op & ? & Hk). exists op. split; [done|]. by apply task_ok_reserve.
  - by apply NoDup_set_insert.
  - unfold set_insert. case_decide; [done|]. destruct Hroom as [Hroom|]; [|done]. unfold output_room in Hroom.
    bool_to_prop. rewrite length_app. simpl. lia.
  - intros nid o H. destruct (wo_owner0 _ _ H) as (? & ? & ?). split_and!; [done| |done]. by apply Hsub.
  - intros o H. by apply Hsd in H.
Qed.

Lemma length_set_discard x l : (length (set_discard x l) <= length l)%nat.
Proof. apply length_filter. Qed.

(** The reservation of an operation that neither runs nor owns an output. *)
Lemma discard_ok w st au oid :
  0 <= cf_output_limit config ->
  worker_ok (Sys w st au) -> oid ∉ executing w -> (forall nid, dget nid (wk_native_owners w) <> Some oid) ->
  worker_ok (Sys (set_reservations (set_discard oid (wk_reservations w)) w) st au).
Proof.
  intros Hlim Hok Hx Ho. pose proof Hok as Hok0. destruct Hok0.
  assert (Hkeep : forall x, x <> oid -> x ∈ wk_reservations w -> x ∈ set_discard oid (wk_reservations w)).
  { intros x ? ?. by apply elem_set_discard. }
  split; simpl in *; try assumption.
  - intros t o Ht He. destruct (wo_task0 _ _ Ht He) as (op & Hop & Hk). exists op. split; [done|].
    assert (o <> oid) by (intros ->; apply Hx; by eapply executing_task).
    unfold task_ok, reserved in *. simpl in *. destruct t; naive_solver.
  - by apply NoDup_filter.
  - pose proof (length_set_discard oid (wk_reservations w)). nia.
  - intros nid o H. destruct (wo_owner0 _ _ H) as (? & Hr & ?). split_and!; [done| |done].
    apply Hkeep; [|done]. intros ->. by apply (Ho nid).
  - intros o H. destruct (wo_alone0 _ H) as (? & -> & ?). done.
Qed.

(** *** Owners of outputs *)

Lemma dvals_inj {K V} `{EqDecision K} (d : dict K V) k1 k2 v :
  NoDup (dvals d) -> dget k1 d = Some v -> dget k2 d = Some v -> k1 = k2.
Proof.
  induction d as [|[k x] d IH]; simpl; [done|]. intros [Hn Hd]%NoDup_cons.
  assert (Hnot : forall k', dget k' d = Some v -> v ∈ dvals d).
  { intros k' H. apply elem_dvals. exists k'. by apply dget_elem. }
  destruct (decide (k = k1)) as [E1|], (decide (k = k2)) as [E2|]; [congruence| | |by apply IH].
  - intros [= ->] Hk. by apply Hnot in Hk.
  - intros Hk [= ->]. by apply Hnot in Hk.
Qed.

Lemma NoDup_dvals_dset {K V} `{EqDecision K} (d : dict K V) k v :
  NoDup (dvals d) -> v ∉ dvals d -> NoDup (dvals (dset k v d)).
Proof.
  induction d as [|[k' x] d IH]; simpl.
  - intros _ _. apply NoDup_singleton.
  - intros [Hn Hd]%NoDup_cons [Hne Hv]%not_elem_of_cons. destruct (decide (k' = k)); simpl.
    + by constructor.
    + constructor; [|by apply IH]. intros Hx. apply elem_dvals in Hx as [k0 Hx].
      destruct (elem_dset _ _ _ _ Hx) as [[= -> ->]|Hin]; [done|]. apply Hn, elem_dvals. eauto.
Qed.

Lemma NoDup_dvals_ddel {K V} `{EqDecision K} (d : dict K V) k : NoDup (dvals d) -> NoDup (dvals (ddel k d)).
Proof.
  induction d as [|[k' x] d IH]; simpl; [done|]. intros [Hn Hd]%NoDup_cons. unfold ddel. rewrite filter_cons.
  destruct (decide _); [|by apply IH]. constructor; [|by apply IH]. intros Hx. apply Hn.
  apply elem_dvals in Hx as [k0 Hx]. apply list_elem_of_filter in Hx as [_ Hx]. apply elem_dvals. eauto.
Qed.

Definition unowned (w : Worker) (oid : string) : Prop := forall nid, dget nid (wk_native_owners w) <> Some oid.

Lemma unowned_dvals w oid : dwf (wk_native_owners w) -> unowned w oid -> oid ∉ dvals (wk_native_owners w).
Proof. intros Hwf H [nid Hin]%elem_dvals. apply (H nid). by apply elem_dget. Qed.

Lemma no_tasks w oid : oid ∉ executing w -> forall t, t ∈ wk_tasks w -> exec_oid t = Some oid -> t = T_shutdown oid.
Proof. intros H t Ht He. exfalso. apply H. by eapply executing_task. Qed.

Lemma own_ok w st au nid oid :
  worker_ok (Sys w st au) -> oid ∈ st -> oid ∈ wk_reservations w -> oid ∉ executing w -> unowned w oid ->
  worker_ok (Sys (set_native_owners (dset nid oid (wk_native_owners w)) w) st au).
Proof.
  intros Hok Hst Hr Hx Hu. pose proof Hok as Hok0. destruct Hok0. split; simpl in *; try assumption.
  - by apply dwf_dset.
  - apply NoDup_dvals_dset; [done|]. by apply unowned_dvals.
  - intros n o. rewrite dget_dset. case_decide; [|apply wo_owner0]. by intros [= <-].
Qed.

Lemma adopt_output_ok w st au su oid e :
  worker_ok (Sys w st au) -> oid ∈ st -> oid ∈ wk_reservations w -> oid ∉ executing w -> unowned w oid ->
  worker_ok (Sys (adopt_output su oid e w) st au).
Proof.
  intros Hok Hst Hr Hx Hu. unfold adopt_output. pose proof (own_ok w st au (ne_output_id e) oid Hok Hst Hr Hx Hu) as H1.
  set (w1 := set_native_owners _ w) in *. pose proof (snapshot_ok w1 st au su e H1) as H2.
  pose proof (snapshot_frame su e w1) as Hf. destruct (_snapshot su e w1) as [w2 snap]. simpl in *.
  assert (Hx2 : oid ∉ executing w2) by (injection Hf as _ _ _ Ht _; unfold executing; by rewrite Ht).
  destruct (dget _ (wk_events w2)) as [[c r]|]; apply finish_ok; try by apply no_tasks.
  - by apply (ok_core w2).
  - done.
Qed.

Lemma disown_ok w st au nid :
  worker_ok (Sys w st au) -> worker_ok (Sys (set_native_owners (ddel nid (wk_native_owners w)) w) st au).
Proof.
  intros []. split; simpl in *; try assumption.
  - by apply dwf_ddel.
  - by apply NoDup_dvals_ddel.
  - intros n o. rewrite dget_ddel. case_decide; [done|apply wo_owner0].
Qed.

Lemma executing_nonempty w st au : worker_ok (Sys w st au) -> "" ∉ executing w.
Proof.
  intros Hok (t & Ht & He)%list_elem_of_omap. destruct (wo_task _ Hok _ _ Ht He) as (op & Hop & _).
  by destruct (wo_ops _ Hok _ _ Hop) as (_ & ? & _).
Qed.

Lemma unowned_nonempty w st au : worker_ok (Sys w st au) -> unowned w "".
Proof.
  intros Hok nid H. destruct (wo_owner _ Hok _ _ H) as (Hs & _). destruct (wo_journal _ Hok _ Hs) as [op Hop].
  by destruct (wo_ops _ Hok _ _ Hop) as (_ & ? & _).
Qed.

Lemma release_replied_ok w st au token nid :
  0 <= cf_output_limit config -> worker_ok (Sys w st au) -> worker_ok (Sys (release_replied token nid w) st au).
Proof.
  intros Hlim Hok. pose proof (disown_ok w st au nid Hok) as H1. set (w1 := set_native_owners _ w) in *.
  assert (H2 : worker_ok (Sys (set_reservations (set_discard (default "" (dget nid (wk_native_owners w))) (wk_reservations w1)) w1) st au)).
  { apply discard_ok; [done|done| |].
    - destruct (dget nid (wk_native_owners w)) as [o|] eqn:E; simpl.
      + by destruct (wo_owner _ Hok _ _ E) as (_ & _ & ?).
      + by apply (executing_nonempty w st au).
    - destruct (dget nid (wk_native_owners w)) as [o|] eqn:E; simpl.
      + intros n. rewrite dget_ddel. case_decide; [done|]. intros Hn. by apply (dvals_inj _ n nid o (wo_owners _ Hok)) in Hn.
      + intros n. rewrite dget_ddel. case_decide; [done|]. by apply (unowned_nonempty w st au). }
  by apply (ok_core _ _ _ _) with (2 := H2).
Qed.

(** *** New operations *)

Definition fresh_op (oid method : string) (args : obj) : Operation :=
  Op oid (digest (JList [JStr method; JObj args])) method args Pending JNull None "" 0 false false "".

(** The operation is unknown to journal, scheduler and history. *)
Record untouched_id (s : system) (oid : string) : Prop := {
  ui_started : oid ∉ sy_started s;
  ui_executing : oid ∉ executing (sy_worker s);
  ui_unowned : unowned (sy_worker s) oid
}.

Lemma record_cases oidj method args w :
  match _record config oidj method args w with
  | (w', Raise _) => w' = w
  | (w', Ok (op, false)) => w' = w /\ exists oid, dget oid (wk_operations w) = Some op
  | (w', Ok (op, true)) =>
      exists oid, oid <> "" /\ op = fresh_op oid method args /\ dget oid (wk_operations w) = None /\
        Z.of_nat (length (wk_operations w)) < cf_operation_limit config /\ w' = set_op op w
  end.
Proof.
  unfold _record, sbind, wlift, slift, sget, wfail, sthrow, sret, smodify.
  destruct (text_value oidj false 128) as [oid|] eqn:Et; [|done]. apply text_value_ok in Et as (_ & Hne & _).
  destruct (dget oid (wk_operations w)) as [previous|] eqn:E.
  - destruct (bool_decide _); [done|by eauto].
  - destruct (_ <=? _) eqn:El; [done|]. bool_to_prop. exists oid. split_and!; [by apply Hne|done|done|done|done].
Qed.

Lemma unknown_untouched w st au oid :
  worker_ok (Sys w st au) -> dget oid (wk_operations w) = None -> untouched_id (Sys w st au) oid.
Proof.
  intros Hok Hn. assert (Hs : oid ∉ st).
  { intros H. destruct (wo_journal _ Hok _ H) as [op Hop]. simpl in Hop. congruence. }
  split; [done| |].
  - intros (t & Ht & He)%list_elem_of_omap. destruct (wo_task _ Hok _ _ Ht He) as (op & Hop & _). simpl in Hop. congruence.
  - intros nid H. by destruct (wo_owner _ Hok _ _ H) as (? & _).
Qed.

Lemma insert_op_ok w st au oid op :
  worker_ok (Sys w st au) -> dget oid (wk_operations w) = None ->
  Z.of_nat (length (wk_operations w)) < cf_operation_limit config ->
  op_ok (Sys w st au) oid op -> worker_ok (Sys (set_op op w) st au).
Proof.
  intros Hok Hn Hl Hop. pose proof (proj1 Hop) as Hid. unfold set_op. rewrite Hid. destruct Hok.
  split; simpl in *; try assumption.
  - by apply dwf_dset.
  - rewrite length_dset, (proj2 (dmem_false oid (wk_operations w)) Hn). lia.
  - intros o op0. rewrite dget_dset. case_decide; [intros [= <-]; by subst|apply wo_ops0].
  - intros t o Ht He. destruct (wo_task0 _ _ Ht He) as (op0 & ? & ?). exists op0. rewrite dget_dset_ne by congruence. done.
  - intros o Ho. destruct (wo_journal0 _ Ho) as [op0 ?]. exists op0. rewrite dget_dset_ne by congruence. done.
  - intros o Ho. destruct (wo_consumed0 _ Ho) as (op0 & ? & ?). exists op0. rewrite dget_dset_ne by congruence. done.
Qed.

Lemma fresh_op_ok s oid method args : oid <> "" -> op_ok s oid (fresh_op oid method args).
Proof. intros H. split_and!; simpl; try done. by intros [?|?]. Qed.

Lemma idle_no_shutdown w st au o :
  worker_ok (Sys w st au) -> wk_draining w = false -> T_shutdown o ∉ wk_tasks w.
Proof. intros Hok Hd H. destruct (wo_alone _ Hok _ H) as (H1 & _). simpl in H1. congruence. Qed.

Lemma admit_operation_ok w st au oid method args :
  worker_ok (Sys w st au) -> untouched_id (Sys w st au) oid ->
  dget oid (wk_operations w) = Some (fresh_op oid method args) ->
  worker_ok (Sys (admit_operation config oid method w) st au).
Proof.
  intros Hok [Hs Hx Hu] Hop. unfold admit_operation. simpl in *.
  destruct (wk_draining w) eqn:Ed; [apply finish_ok; [done|by apply no_tasks]|].
  destruct (_ && negb (output_room config w)) eqn:Er; [apply finish_ok; [done|by apply no_tasks]|].
  pose proof (fun o => idle_no_shutdown w st au o Hok Ed) as Hsd.
  destruct (decide (method = "submit")) as [->|Hm].
  - simpl in Er. apply negb_false_iff in Er.
    assert (H1 := reserve_ok w st au oid Hok (or_introl Er) Hsd).
    apply (add_task_ok _ _ _ (T_execute oid) oid (fresh_op oid "submit" args)); simpl; try done.
    split_and!; [done|done|]. intros _. apply elem_set_insert. by left.
  - by apply (add_task_ok _ _ _ (T_execute oid) oid (fresh_op oid method args)).
Qed.

Lemma current_snapshot_fst oid w : (current_snapshot oid w).1 = w.
Proof. unfold current_snapshot, sbind, sget. by destruct (dget oid (wk_operations w)). Qed.

Lemma handle_execute_ok w st au su method args :
  worker_ok (Sys w st au) -> worker_ok (Sys (handle_execute config su method args w).1 st au).
Proof.
  intros Hok. unfold handle_execute, sbind, sget, wlift, slift.
  destruct (if decide (method = "submit") then _ else _) as [params|]; [|done].
  pose proof (record_cases (jget "operation_id" args) method params w) as Hc.
  destruct (_record config _ method params w) as [w1 [[op [|]]|]]; simpl in *; [|rewrite current_snapshot_fst; by destruct Hc as [-> _]|by subst].
  destruct Hc as (oid & Hne & -> & Hn & Hl & ->). simpl.
  assert (H1 := insert_op_ok w st au oid _ Hok Hn Hl (fresh_op_ok _ oid method params Hne)).
  assert (H2 : worker_ok (Sys (admit_operation config oid method (set_op (fresh_op oid method params) w)) st au)).
  { apply (admit_operation_ok _ _ _ _ _ params); [done| |apply dget_dset_eq].
    destruct (unknown_untouched w st au oid Hok Hn). by split. }
  by rewrite current_snapshot_fst.
Qed.

Lemma file_execute_ok w st au oidj value :
  worker_ok (Sys w st au) -> worker_ok (Sys (file_execute oidj value w).1 st au).
Proof.
  intros Hok. unfold file_execute, sbind, sget, sguard. destruct (wk_closed w || wk_draining w) eqn:Ed; [done|]. simpl.
  apply orb_false_iff in Ed as [_ Ed].
  pose proof (record_cases oidj "file_execute" value w) as Hc.
  destruct (_record config oidj "file_execute" value w) as [w1 [[op [|]]|]]; simpl in *; [|rewrite current_snapshot_fst; by destruct Hc as [-> _]|by subst].
  destruct Hc as (oid & Hne & -> & Hn & Hl & ->). simpl.
  assert (H1 := insert_op_ok w st au oid _ Hok Hn Hl (fresh_op_ok _ oid "file_execute" value Hne)).
  destruct (unknown_untouched w st au oid Hok Hn) as [Hs Hx Hu].
  assert (H2 : worker_ok (Sys (add_task (T_file oid) (set_op (fresh_op oid "file_execute" value) w)) st au)).
  { apply (add_task_ok _ _ _ (T_file oid) oid (fresh_op oid "file_execute" value)); try done.
    - apply dget_dset_eq.
    - intros o. by apply (idle_no_shutdown w st au o). }
  by rewrite current_snapshot_fst.
Qed.

(** *** Approvals *)

Lemma ddel_dset_fresh {K V} `{EqDecision K} (d : dict K V) k v : dget k d = None -> ddel k (dset k v d) = d.
Proof.
  induction d as [|[k' x] d IH]; simpl; intros H; unfold ddel.
  - rewrite filter_cons. destruct (decide _) as [Hd|]; [by destruct Hd|done].
  - destruct (decide (k' = k)); [done|]. rewrite filter_cons. destruct (decide _) as [_|Hd]; [|by destruct Hd].
    f_equal. by apply IH.
Qed.

Lemma prepare_ok w st au su args :
  worker_ok (Sys w st au) -> worker_ok (Sys (prepare_privileged config su args w).1 st au).
Proof.
  intros Hok. unfold prepare_privileged, sbind, sguard, sget, wlift, slift. destruct (su_windows su); [done|]. simpl.
  destruct (privileged_params config su args) as [params|]; [|done].
  pose proof (record_cases (jget "operation_id" args) "privileged" params w) as Hc.
  destruct (_record config _ "privileged" params w) as [w1 [[op [|]]|]]; simpl in *; [|by destruct Hc as [-> _]|by subst].
  destruct Hc as (oid & Hne & -> & Hn & Hl & ->). simpl.
  assert (H1 := insert_op_ok w st au oid _ Hok Hn Hl (fresh_op_ok _ oid "privileged" params Hne)).
  destruct (unknown_untouched w st au oid Hok Hn) as [Hs Hx Hu]. destruct (_ && _).
  - simpl. unfold set_op. simpl. apply (ok_core w); [|done]. unfold core. simpl. by rewrite ddel_dset_fresh.
  - simpl. eapply (ok_set_op (set_op (fresh_op oid "privileged" params) w) st au oid (fresh_op oid "privileged" params));
      [exact H1|apply dget_dset_eq| | |done].
    + split_and!; simpl; try done. by intros [?|?].
    + intros t Ht He _. exfalso. apply Hx. by eapply executing_task.
Qed.

Lemma commit_ok w st au su args :
  su_signature su = check ->
  worker_ok (Sys w st au) -> worker_ok (Sys (commit_privileged config su args w).1 st au).
Proof.
  intros Hsu Hok. unfold commit_privileged, sbind, sguard, sget, wlift, slift. destruct (su_windows su); [done|]. simpl.
  destruct (text_value _ false 128) as [oid|]; [|done].
  destruct (dget oid (wk_operations w)) as [op|] eqn:E; [|done].
  destruct (negb (bool_decide (op_method op = _))); [done|].
  destruct (negb (bool_decide (op_state_ op = _))) eqn:Est; [done|]. bool_to_prop.
  destruct (wo_ops _ Hok _ _ E) as (Hid & Hne & Hw & _ & _). destruct (Hw Est) as (Hm & Hav & Hco & Hns & Hnx).
  destruct (op_expires_at op <? su_now su).
  { simpl. rewrite current_snapshot_fst. apply finish_ok; [done|by apply no_tasks]. }
  destruct (default _ (dget "signature" args)) as [| | |signature| |]; try done.
  rewrite Hsu. destruct (negb (check _ signature _)) eqn:Esig; [done|]. apply negb_false_iff in Esig.
  destruct (wk_draining w) eqn:Ed; [done|]. destruct (is_sudo op && _) eqn:Er; [done|].
  pose proof (fun o => idle_no_shutdown w st au o Hok Ed) as Hsd.
  assert (Hu : unowned w oid).
  { intros nid H. by destruct (wo_owner _ Hok _ _ H) as (? & _). }
  assert (H1 : worker_ok (Sys (set_op (approved signature op) w) st au)).
  { eapply ok_set_op; [exact Hok|exact E| | |].
    - by split_and!.
    - intros t Ht He _. exfalso. apply Hnx. by eapply executing_task.
    - simpl. congruence. }
  assert (Hop : dget oid (wk_operations (set_op (approved signature op) w)) = Some (approved signature op))
    by (simpl; rewrite Hid; apply dget_dset_eq).
  simpl. destruct (is_sudo op) eqn:Esu; simpl in *.
  - apply negb_false_iff in Er. assert (H2 := reserve_ok _ st au oid H1 (or_introl Er) Hsd).
    apply (add_task_ok _ _ _ (T_privileged oid) oid (approved signature op)); try done.
    simpl. split_and!; [done|done|]. intros _. apply elem_set_insert. by left.
  - apply (add_task_ok _ _ _ (T_privileged oid) oid (approved signature op)); try done.
    simpl. split_and!; [done|done|]. unfold is_sudo in *. simpl. by rewrite Esu.
Qed.

Lemma consume_true w su management args :
  (consume_authentication config su management args w).2 = Ok true ->
  exists op, dget (grant_operation args) (wk_operations w) = Some op /\ op_method op = "privileged" /\
    wk_closed w = false /\ op_auth_available op = true /\ op_auth_consumed op = false /\ su_now su <= op_expires_at op /\
    (consume_authentication config su management args w).1 = set_op (consumed op) w.
Proof.
  unfold consume_authentication, grant_operation, sbind, sget, wfail, sthrow.
  destruct (default (JObj []) (dget "approval" args)) as [| | | | |grant]; try done.
  destruct (jget "operation_id" grant) as [| | |oid| |]; try done.
  destruct (dget oid (wk_operations w)) as [op|]; [|done].
  destruct (_ || (negb management && _)) eqn:E1; [done|]. apply orb_false_iff in E1 as [E1 _]. bool_to_prop.
  destruct (_ || negb (py_eq _ _)) eqn:E2; [done|]. apply orb_false_iff in E2 as [E2 _].
  apply orb_false_iff in E2 as [E2 E3]. apply orb_false_iff in E2 as [E2 E4]. apply orb_false_iff in E2 as [E2 E5].
  bool_to_prop. destruct (jget "signature" args) as [| | |signature| |]; try done.
  destruct (su_signature su _ signature _); [|done]. intros _. exists op. split_and!; try done.
Qed.

Lemma consume_ok w st au su management args :
  worker_ok (Sys w st au) -> (consume_authentication config su management args w).2 = Ok true ->
  worker_ok (Sys (consume_authentication config su management args w).1 st (grant_operation args :: au)).
Proof.
  intros Hok H. destruct (consume_true _ _ _ _ H) as (op & Hop & Hm & _ & Ha & Hc & _ & ->).
  set (oid := grant_operation args) in *. destruct (wo_ops _ Hok _ _ Hop) as (Hid & Hne & Hw & Hav & Hsig).
  assert (H1 : worker_ok (Sys (set_op (consumed op) w) st au)).
  { eapply ok_set_op; [exact Hok|exact Hop| |by intros []|done]. split_and!; simpl; try done.
    - intros Hs. destruct (Hw Hs) as (_ & ? & _). congruence.
    - intros _. unfold signed, approval_payload in *. simpl. apply Hsig. by left. }
  assert (Hnew : dget oid (wk_operations (set_op (consumed op) w)) = Some (consumed op))
    by (simpl; rewrite Hid; apply dget_dset_eq).
  destruct H1. split; simpl in *; try assumption.
  - constructor; [|done]. intros Hin. destruct (wo_consumed _ Hok _ Hin) as (op' & Hop' & Hc'). simpl in Hop'. congruence.
  - intros o [->|Ho]%elem_of_cons; [by eauto|by apply wo_consumed0].
Qed.

(** *** Execution *)

(** A task at the head of its work: what is known once it is off the list. *)
Lemma take_task w st au t oid :
  worker_ok (Sys w st au) -> t ∈ wk_tasks w -> exec_oid t = Some oid ->
  exists op, dget oid (wk_operations w) = Some op /\ task_ok (Sys w st au) t oid op /\
    worker_ok (Sys (drop_task t w) st au) /\ oid ∉ executing (drop_task t w) /\ unowned w oid /\
    (forall o, o ∈ executing w <-> o = oid \/ o ∈ executing (drop_task t w)).
Proof.
  intros Hok Ht He. destruct (wo_task _ Hok _ _ Ht He) as (op & Hop & Hk).
  destruct (executing_drop w t oid (wo_distinct _ Hok) Ht He) as (_ & Hn & Hx).
  exists op. split_and!; [done|done|by apply drop_task_ok|done| |done].
  intros nid H. destruct (wo_owner _ Hok _ _ H) as (_ & _ & Hq). apply Hq. simpl. apply Hx. by left.
Qed.

(** Recording that an operation started: nothing else may mention it as not started. *)
Lemma started_ok w st au oid op :
  worker_ok (Sys w st au) -> dget oid (wk_operations w) = Some op -> op_state_ op <> ApprovalRequired ->
  oid ∉ st -> oid ∉ executing w -> worker_ok (Sys w (oid :: st) au).
Proof.
  intros Hok Hop Hs Hst Hx. destruct Hok. split; simpl in *; try assumption.
  - intros o op0 H. destruct (wo_ops0 _ _ H) as (? & ? & H3 & ? & ?). split_and!; try done.
    intros Hw. destruct (H3 Hw) as (? & ? & ? & ? & ?). split_and!; try done. simpl.
    intros [->|?]%elem_of_cons; [congruence|done].
  - intros t o Ht He. destruct (wo_task0 _ _ Ht He) as (op0 & ? & Hk). exists op0. split; [done|].
    assert (o <> oid) by (intros ->; apply Hx; by eapply executing_task).
    unfold task_ok, reserved in *. simpl in *. destruct t; rewrite ?elem_of_cons; naive_solver.
  - by constructor.
  - intros o [->|?]%elem_of_cons; [by rewrite Hop|by apply wo_journal0].
  - intros nid o H. destruct (wo_owner0 _ _ H) as (? & ? & ?). split_and!; [by right|done|done].
Qed.

Lemma remove_first_other t l x : x ∈ l -> x <> t -> x ∈ remove_first t l.
Proof.
  intros Hin Hne. induction l as [|y l IH]; simpl; [done|]. apply elem_of_cons in Hin as [<-|Hin].
  - destruct (decide (x = t)); [done|by left].
  - destruct (decide (y = t)); [done|right; by apply IH].
Qed.

(** While another task executes, no shutdown does. *)
Lemma works_alone w st au t oid :
  worker_ok (Sys w st au) -> t ∈ wk_tasks w -> exec_oid t = Some oid -> t <> T_shutdown oid ->
  forall o, T_shutdown o ∉ wk_tasks w.
Proof.
  intros Hok Ht He Hne o Hsd. destruct (wo_alone _ Hok _ Hsd) as (_ & _ & Ha). simpl in Ha.
  pose proof (executing_task _ _ _ Ht He) as Hin. rewrite Ha in Hin. apply list_elem_of_singleton in Hin as ->.
  destruct (executing_drop w t o (wo_distinct _ Hok) Ht He) as (_ & Hn & _).
  apply Hn, (executing_task (drop_task t w) (T_shutdown o)); [|done]. by apply remove_first_other.
Qed.

Lemma run_ok w st au oid :
  worker_ok (Sys w st au) -> T_execute oid ∈ wk_tasks w ->
  worker_ok (Sys (add_task (T_native oid) (drop_task (T_execute oid) w)) (oid :: st) au).
Proof.
  intros Hok Ht. destruct (take_task _ _ _ _ oid Hok Ht eq_refl) as (op & Hop & (Hp & Hst & Hr) & Hok1 & Hn & Hu & Hx).
  assert (H1 : worker_ok (Sys (drop_task (T_execute oid) w) (oid :: st) au)).
  { eapply started_ok; [done|exact Hop|congruence|done|done]. }
  apply (add_task_ok _ _ _ (T_native oid) oid op); try done.
  - simpl. split_and!; [done|apply list_elem_of_here|done].
  - congruence.
  - intros o Hsd%remove_first_subseteq. by apply (works_alone w st au (T_execute oid) oid) in Hsd.
Qed.

Lemma submit_replied_ok w st au su oid r :
  0 <= cf_output_limit config ->
  worker_ok (Sys w st au) -> oid ∉ executing w -> unowned w oid -> oid ∈ st -> oid ∈ wk_reservations w ->
  worker_ok (Sys (submit_replied su oid r w) st au).
Proof.
  intros Hlim Hok Hx Hu Hst Hr. destruct r as [e|code|]; unfold submit_replied.
  - destruct (ne_output_id e =? 0); [|by apply adopt_output_ok].
    pose proof (snapshot_ok w st au su e Hok) as H1. pose proof (snapshot_frame su e w) as Hf.
    destruct (_snapshot su e w) as [w1 snap]. apply finish_ok; [done|]. apply no_tasks.
    simpl in Hf. injection Hf as _ _ _ Ht _. unfold executing. by rewrite Ht.
  - apply finish_ok; [by apply discard_ok|]. by apply no_tasks.
  - apply finish_ok; [done|]. by apply no_tasks.
Qed.

Lemma session_replied_ok w st au su oid op r :
  worker_ok (Sys w st au) -> oid ∉ executing w -> worker_ok (Sys (session_replied su oid op r w) st au).
Proof.
  intros Hok Hx. destruct r as [e|code|]; unfold session_replied; [|apply finish_ok; [done|by apply no_tasks]..].
  pose proof (snapshot_ok w st au su e Hok) as H1. pose proof (snapshot_frame su e w) as Hf.
  destruct (_snapshot su e w) as [w1 snap]. simpl in Hf. injection Hf as _ _ _ Ht _.
  assert (Hx1 : oid ∉ executing w1) by (unfold executing; by rewrite Ht). simpl in H1.
  destruct (match jget "action" (op_args op) with JStr a => _ | _ => false end), (jget "session_id" (op_args op));
    apply finish_ok; try done; try (by apply no_tasks). by apply (ok_core w1).
Qed.

Lemma reply_ok w st au su oid r :
  0 <= cf_output_limit config -> worker_ok (Sys w st au) -> T_native oid ∈ wk_tasks w ->
  worker_ok (Sys (execute_replied su oid r (drop_task (T_native oid) w)) st au).
Proof.
  intros Hlim Hok Ht. destruct (take_task _ _ _ _ oid Hok Ht eq_refl) as (op & Hop & (Hp & Hst & Hr) & Hok1 & Hn & Hu & _).
  unfold execute_replied. simpl. rewrite Hop. destruct (decide (op_method op = "submit")) as [E|].
  - apply submit_replied_ok; try done. by apply Hr.
  - by apply session_replied_ok.
Qed.

Lemma priv_reply_ok w st au su oid r :
  0 <= cf_output_limit config -> worker_ok (Sys w st au) -> T_priv_native oid ∈ wk_tasks w ->
  worker_ok (Sys (privileged_replied su oid r (drop_task (T_priv_native oid) w)) st au).
Proof.
  intros Hlim Hok Ht. destruct (take_task _ _ _ _ oid Hok Ht eq_refl) as (op & Hop & (Hp & Hst & Hr) & Hok1 & Hn & Hu & _).
  destruct r as [e|code|]; unfold privileged_replied.
  - by apply adopt_output_ok.
  - apply finish_ok; [by apply discard_ok|]. by apply no_tasks.
  - apply finish_ok; [done|]. by apply no_tasks.
Qed.

Lemma draining_ok w st au b :
  worker_ok (Sys w st au) -> (forall o, T_shutdown o ∉ wk_tasks w) -> worker_ok (Sys (set_draining b w) st au).
Proof. intros [] Hsd. split; simpl in *; try assumption. intros o H. by apply Hsd in H. Qed.

(** No other operation is pending and nothing is retained: nothing executes. *)
Lemma idle_executing w st au oid :
  worker_ok (Sys w st au) -> busy oid w = false -> oid ∉ executing w -> (forall o, T_shutdown o ∉ wk_tasks w) ->
  executing w = [].
Proof.
  intros Hok Hb Hx Hsd. destruct (executing w) as [|o ex] eqn:E; [done|exfalso].
  assert (Ho : o ∈ executing w) by (rewrite E; apply list_elem_of_here).
  apply list_elem_of_omap in Ho as (t & Ht & He). destruct (wo_task _ Hok _ _ Ht He) as (op & Hop & Hk).
  assert (Hp : op_state_ op = Pending).
  { unfold task_ok in Hk. destruct t; simpl in He; try done; try (by destruct Hk). injection He as ->. by apply Hsd in Ht. }
  unfold busy in Hb. apply orb_false_iff in Hb as [_ Hb]. apply not_true_iff_false in Hb. apply Hb.
  apply existsb_exists. exists (o, op). split; [apply list_elem_of_In; by apply dget_elem|]. simpl.
  apply andb_true_iff. split; [by apply bool_decide_eq_true|]. apply negb_true_iff, bool_decide_eq_false.
  intros ->. apply Hx. left.
Qed.

(** A shutdown that is refused: nothing started, the reservation is dropped. *)
Lemma refuse_ok w st au oid e :
  0 <= cf_output_limit config ->
  worker_ok (Sys w st au) -> oid ∉ executing w -> unowned w oid -> (forall o, T_shutdown o ∉ wk_tasks w) ->
  worker_ok (Sys (_finish oid JNull (Some e)
    (set_reservations (set_discard oid (wk_reservations w)) (set_draining false w))) st au).
Proof.
  intros Hlim Hok Hx Hu Hsd. pose proof (draining_ok w st au false Hok Hsd) as H1.
  apply finish_ok; [by apply (discard_ok (set_draining false w))|]. by apply no_tasks.
Qed.

Lemma shutdown_starts_ok w st au su oid op :
  worker_ok (Sys w st au) -> dget oid (wk_operations w) = Some op -> op_state_ op = Pending -> oid ∉ st ->
  oid ∉ executing w -> unowned w oid -> (forall o, T_shutdown o ∉ wk_tasks w) -> busy oid w = false ->
  worker_ok (Sys (add_task (T_shutdown oid)
    (if su_linux su then set_draining true w else _finish oid (shutdown_result oid w) None (set_draining true w)))
    (oid :: st) au).
Proof.
  intros Hok Hop Hp Hst Hx Hu Hsd Hb. pose proof (idle_executing w st au oid Hok Hb Hx Hsd) as Hidle.
  assert (Hr : wk_reservations w = []).
  { unfold busy in Hb. apply orb_false_iff in Hb as [Hb _]. apply orb_false_iff in Hb as [Hb _]. by bool_to_prop. }
  assert (H1 : worker_ok (Sys (set_draining true w) (oid :: st) au)).
  { apply (started_ok _ _ _ oid op); try done; [by apply draining_ok|congruence]. }
  destruct (su_linux su).
  - apply (add_task_ok _ _ _ (T_shutdown oid) oid op); try done; [apply list_elem_of_here|congruence].
  - assert (H2 := finish_ok _ _ _ oid (shutdown_result oid w) None H1 (no_tasks (set_draining true w) oid Hx)).
    pose proof (finish_frame oid (shutdown_result oid w) None (set_draining true w)) as Hf.
    set (w2 := _finish oid _ None _) in *. unfold frame in Hf. simpl in Hf. injection Hf as Hfo Hfd Hfr Hft _.
    assert (Hex : executing w2 = []) by (unfold executing; by rewrite Hft).
    apply (add_task_ok _ _ _ (T_shutdown oid) oid (finished (shutdown_result oid w) None op)); try done.
    + unfold w2, _finish. simpl. rewrite Hop. destruct (wo_ops _ Hok _ _ Hop) as (Hid & _). simpl. rewrite Hid. apply dget_dset_eq.
    + apply list_elem_of_here.
    + rewrite Hex. apply not_elem_of_nil.
    + intros nid. rewrite Hfo. apply Hu.
    + intros o. rewrite Hft. apply Hsd.
    + intros _. by rewrite Hfd, Hfr.
Qed.

Lemma privileged_ok w st au su starts oid op :
  0 <= cf_output_limit config ->
  worker_ok (Sys w st au) -> T_privileged oid ∈ wk_tasks w -> dget oid (wk_operations w) = Some op ->
  worker_ok (Sys (privileged_started su starts oid op (drop_task (T_privileged oid) w))
                 (if started_by su starts oid op w then oid :: st else st) au).
Proof.
  intros Hlim Hok Ht Hop.
  destruct (take_task _ _ _ _ oid Hok Ht eq_refl) as (op' & Hop' & (Hp & Hst & Hr) & Hok1 & Hn & Hu & _).
  replace op' with op in * by (simpl in *; congruence).
  assert (Hsd : forall o, T_shutdown o ∉ wk_tasks (drop_task (T_privileged oid) w)).
  { intros o Hsd%remove_first_subseteq. by apply (works_alone w st au (T_privileged oid) oid) in Hsd. }
  unfold privileged_started, started_by. change (busy oid (drop_task (T_privileged oid) w)) with (busy oid w).
  set (w1 := drop_task (T_privileged oid) w) in *. destruct (is_sudo op) eqn:Es.
  - simpl. assert (H1 : worker_ok (Sys w1 (oid :: st) au)).
    { eapply started_ok; [done|exact Hop|congruence|done|done]. }
    assert (H2 := reserve_ok w1 _ au oid H1 (or_intror (Hr eq_refl)) Hsd).
    apply (add_task_ok _ _ _ (T_priv_native oid) oid op); try done; [|congruence].
    simpl. split_and!; [done|apply list_elem_of_here|]. apply elem_set_insert. by left.
  - destruct (busy oid w) eqn:Eb; [by apply refuse_ok|]. destruct starts; [|by apply refuse_ok]. simpl.
    by apply (shutdown_starts_ok w1 st au su oid op).
Qed.

Lemma shutdown_ended_ok w st au su oid success :
  0 <= cf_output_limit config -> worker_ok (Sys w st au) -> T_shutdown oid ∈ wk_tasks w ->
  worker_ok (Sys (shutdown_ended su oid success (drop_task (T_shutdown oid) w)) st au).
Proof.
  intros Hlim Hok Ht. destruct (take_task _ _ _ _ oid Hok Ht eq_refl) as (op & Hop & Hk & Hok1 & Hn & Hu & Hx).
  assert (Hsd : forall o, T_shutdown o ∉ wk_tasks (drop_task (T_shutdown oid) w)).
  { intros o Hsd. pose proof (remove_first_subseteq _ _ _ Hsd) as Hin. destruct (wo_alone _ Hok _ Hin) as (_ & _ & Ha).
    pose proof (executing_task _ _ _ Ht eq_refl) as Ho. simpl in Ha. rewrite Ha in Ho. apply list_elem_of_singleton in Ho as ->.
    apply Hn. by apply (executing_task _ (T_shutdown o)). }
  unfold shutdown_ended. destruct success, (su_linux su); [|done|by apply refuse_ok|].
  - apply finish_ok; [done|by apply no_tasks].
  - apply finish_ok; [by apply draining_ok|by apply no_tasks].
Qed.

Lemma worker_step_ok s s' : 0 <= cf_output_limit config -> worker_ok s -> worker_step s s' -> worker_ok s'.
Proof.
  intros Hlim Hok Hstep. destruct Hstep.
  - by apply handle_execute_ok.
  - by apply handle_execute_ok.
  - by apply prepare_ok.
  - by apply commit_ok.
  - by apply consume_ok.
  - unfold handle_release, sbind, wlift, slift, sget. destruct (text_value _ _ _) as [token|]; [|done].
    destruct (dget token (wk_outputs w)); [|done]. simpl. by apply add_release_ok.
  - by apply file_execute_ok.
  - by apply run_ok.
  - by apply reply_ok.
  - by apply privileged_ok.
  - by apply priv_reply_ok.
  - by apply shutdown_ended_ok.
  - match goal with H : T_file ?oid ∈ _ |- _ => destruct (take_task _ _ _ _ oid Hok H eq_refl) as (op & _ & _ & ? & ? & _) end.
    apply finish_ok; [done|by apply no_tasks].
  - apply release_replied_ok; [done|]. by apply drop_task_ok.
  - by apply drop_task_ok.
  - by apply deliver_ok.
  - by apply (ok_core w).
Qed.

Lemma new_worker_ok epoch :
  0 <= cf_operation_limit config -> 0 <= cf_retained_limit config -> worker_ok (Sys (new_worker epoch) [] []).
Proof.
  intros H1 H2. split; simpl; try done; try apply NoDup_nil_2; try lia; try (intros; by apply elem_of_nil in H).
  all: try (intros ? ? H; by apply elem_of_nil in H). all: intros ? H; by apply elem_of_nil in H.
Qed.

Definition limits_ok : Prop :=
  0 <= cf_output_limit config /\ 0 <= cf_operation_limit config /\ 0 <= cf_retained_limit config.

Lemma reachable_worker_ok epoch s :
  limits_ok -> rtc worker_step (Sys (new_worker epoch) [] []) s -> worker_ok s.
Proof.
  intros (H1 & H2 & H3) Hr. apply (rtc_ind_r (R := worker_step) worker_ok (Sys (new_worker epoch) [] [])); [| |exact Hr].
  - by apply new_worker_ok.
  - intros s1 s2 _ Hs Ho. by eapply worker_step_ok.
Qed.

(** ** Theorems *)

(** C33: a command starts at most once.  Whatever requests, replays, replies and events
    arrive in whatever order, no operation is started twice, and every operation that was
    started is in the journal, so a repeated request for it finds its record. *)
Theorem commands_start_once epoch s :
  limits_ok -> rtc worker_step (Sys (new_worker epoch) [] []) s ->
  NoDup (sy_started s) /\
  (forall oid, oid ∈ sy_started s -> is_Some (dget oid (wk_operations (sy_worker s)))) /\
  Z.of_nat (length (wk_operations (sy_worker s))) <= cf_operation_limit config.
Proof. intros Hl Hr. destruct (reachable_worker_ok _ _ Hl Hr). by split_and!. Qed.

(** Retained outputs stay within their limit.  The reservations times the limit of one
    output never exceed the retention limit, and every output that belongs to an
    operation is covered by a reservation of its own. *)
Theorem retained_outputs_bounded epoch s :
  limits_ok -> rtc worker_step (Sys (new_worker epoch) [] []) s ->
  let w := sy_worker s in
  Z.of_nat (length (wk_reservations w)) * cf_output_limit config <= cf_retained_limit config /\
  (forall nid oid, dget nid (wk_native_owners w) = Some oid -> oid ∈ wk_reservations w) /\
  Z.of_nat (length (wk_native_owners w)) * cf_output_limit config <= cf_retained_limit config.
Proof.
  intros Hl Hr w. destruct (reachable_worker_ok _ _ Hl Hr). destruct Hl as [Hlim _].
  assert (Hown : forall nid oid, dget nid (wk_native_owners w) = Some oid -> oid ∈ wk_reservations w).
  { intros nid oid H. by destruct (wo_owner0 _ _ H) as (_ & ? & _). }
  split_and!; [done|done|].
  assert (Hle : (length (wk_native_owners w) <= length (wk_reservations w))%nat).
  { rewrite <- (length_fmap snd (wk_native_owners w)). apply submseteq_length, NoDup_submseteq; [done|].
    intros oid (nid & Hin)%elem_dvals. apply (Hown nid). by apply elem_dget. }
  fold w in wo_room0. nia.
Qed.

(** C34: an approval is used once, and only with its signature.  No operation is authorized
    twice; an authorized operation carries a signature of the client's key over exactly
    its own approval (runtime, operation, fingerprint, nonce, expiry, target), and no
    authentication is left for it. *)
Theorem approval_used_once epoch s :
  limits_ok -> rtc worker_step (Sys (new_worker epoch) [] []) s ->
  NoDup (sy_authorized s) /\
  forall oid, oid ∈ sy_authorized s -> exists op,
    dget oid (wk_operations (sy_worker s)) = Some op /\ op_auth_available op = false /\
    check (cf_client_public_key config) (op_approval_signature op)
      (canonical_json (JObj (approval_payload config (sy_worker s) op))) = true.
Proof.
  intros Hl Hr. destruct (reachable_worker_ok _ _ Hl Hr). split; [done|]. intros oid H.
  destruct (wo_consumed0 _ H) as (op & Hop & Hc). destruct (wo_ops0 _ _ Hop) as (_ & _ & _ & Ha & Hs). exists op.
  split_and!; [done| |apply Hs; by right]. destruct (op_auth_available op); [|done]. by rewrite Ha in Hc.
Qed.

(** A shutdown runs alone.  While the shutdown action of an operation runs, the worker
    drains, no output is reserved, and no other operation executes or is scheduled. *)
Theorem shutdown_runs_alone epoch s oid :
  limits_ok -> rtc worker_step (Sys (new_worker epoch) [] []) s ->
  T_shutdown oid ∈ wk_tasks (sy_worker s) ->
  wk_draining (sy_worker s) = true /\ wk_reservations (sy_worker s) = [] /\
  wk_native_owners (sy_worker s) = [] /\ executing (sy_worker s) = [oid].
Proof.
  intros Hl Hr Ht. destruct (reachable_worker_ok _ _ Hl Hr). destruct (wo_alone0 _ Ht) as (? & Hres & ?).
  split_and!; try done. destruct (wk_native_owners (sy_worker s)) as [|[nid o] d] eqn:E; [done|].
  destruct (wo_owner0 nid o) as (_ & Hin & _); [by simpl; rewrite decide_True|].
  unfold reserved in Hin. rewrite Hres in Hin. by apply elem_of_nil in Hin.
Qed.
End safety.

(** ** Concrete runs *)

Definition demo_config : WorkerConfig :=
  Config "w" "c" "key" "/bin/sh" 10 25 4 ["/sbin/poweroff"] [] "approval" "/helper" "/askpass" "" [].
Definition demo_check (key signature : string) (message : bytes) : bool := bool_decide (signature = "good").
Definition demo_su : surroundings :=
  Surroundings false false 100 "token" "nonce" 1 1 (fun _ => true) (fun s => s) [] "machine" demo_check
    (fun _ => "sealed") JNull.
Definition demo_start : system := Sys (new_worker "epoch") [] [].
Abbreviation demo_step := (worker_step demo_config demo_check).

Definition demo_submit : obj := [("operation_id", JStr "op1"); ("cmd", JStr "ls")].
Definition demo_event : native_event := NativeEvent 1 7 "running" 0 0 true false [("status", JStr "running")].
Definition after_submit : Worker :=
  Eval vm_compute in (handle_execute demo_config demo_su "submit" demo_submit (new_worker "epoch")).1.
Definition after_run : Worker := Eval vm_compute in add_task (T_native "op1") (drop_task (T_execute "op1") after_submit).
Definition after_reply : Worker :=
  Eval vm_compute in execute_replied demo_su "op1" (N_event demo_event) (drop_task (T_native "op1") after_run).

Lemma demo_submit_run : rtc demo_step demo_start (Sys after_reply ["op1"] []).
Proof.
  eapply rtc_l with (Sys after_submit [] []).
  { assert (E : after_submit = (handle_execute demo_config demo_su "submit" demo_submit (new_worker "epoch")).1)
      by (vm_compute; reflexivity). rewrite E. apply ws_submit. }
  eapply rtc_l with (Sys after_run ["op1"] []).
  { assert (E : after_run = add_task (T_native "op1") (drop_task (T_execute "op1") after_submit)) by (vm_compute; reflexivity).
    rewrite E. apply ws_run. vm_compute. apply list_elem_of_here. }
  eapply rtc_l; [|apply rtc_refl].
  assert (E : after_reply = execute_replied demo_su "op1" (N_event demo_event) (drop_task (T_native "op1") after_run))
    by (vm_compute; reflexivity).
  rewrite E. apply ws_reply. vm_compute. apply list_elem_of_here.
Qed.

Lemma demo_limits : limits_ok demo_config.
Proof. unfold limits_ok. simpl. lia. Qed.

Lemma commands_start_once_witness : is_Some (dget "op1" (wk_operations after_reply)).
Proof.
  destruct (commands_start_once demo_config demo_check "epoch" _ demo_limits demo_submit_run) as (_ & H & _).
  apply H. apply list_elem_of_here.
Defined.

Lemma retained_outputs_bounded_witness :
  wk_native_owners after_reply = [(7, "op1")] /\ "op1" ∈ wk_reservations after_reply.
Proof.
  split; [vm_compute; reflexivity|].
  destruct (retained_outputs_bounded demo_config demo_check "epoch" _ demo_limits demo_submit_run) as (_ & H & _).
  apply (H 7). vm_compute. reflexivity.
Defined.

Definition demo_sudo : obj :=
  [("operation_id", JStr "p1"); ("action", JStr "sudo"); ("target", JInt 1); ("cmd", JStr "id")].
Definition demo_commit (oid : string) : obj := [("operation_id", JStr oid); ("signature", JStr "good")].
Definition after_prepare (args : obj) : Worker := (prepare_privileged demo_config demo_su args (new_worker "epoch")).1.
Definition sudo_committed : Worker :=
  Eval vm_compute in (commit_privileged demo_config demo_su (demo_commit "p1") (after_prepare demo_sudo)).1.
Definition sudo_grant : obj :=
  Eval vm_compute in match dget "p1" (wk_operations sudo_committed) with
                     | Some op => approval_payload demo_config sudo_committed op | None => [] end.
Definition sudo_consume : obj := [("approval", JObj sudo_grant); ("signature", JStr "good")].
Definition sudo_consumed : Worker :=
  Eval vm_compute in (consume_authentication demo_config demo_su false sudo_consume sudo_committed).1.

Lemma demo_commit_run args oid w :
  w = (commit_privileged demo_config demo_su (demo_commit oid) (after_prepare args)).1 ->
  rtc demo_step demo_start (Sys w [] []).
Proof.
  intros ->. eapply rtc_l with (Sys (after_prepare args) [] []); [apply ws_prepare|].
  eapply rtc_l; [|apply rtc_refl]. by apply ws_commit.
Qed.

Lemma demo_sudo_run : rtc demo_step demo_start (Sys sudo_consumed [] ["p1"]).
Proof.
  eapply rtc_r; [apply (demo_commit_run demo_sudo "p1" sudo_committed); vm_compute; reflexivity|].
  assert (E : sudo_consumed = (consume_authentication demo_config demo_su false sudo_consume sudo_committed).1)
    by (vm_compute; reflexivity).
  rewrite E. apply (ws_authorized demo_config demo_check sudo_committed [] [] demo_su false sudo_consume); [done|].
  vm_compute. reflexivity.
Qed.

Lemma approval_used_once_witness :
  exists op, dget "p1" (wk_operations sudo_consumed) = Some op /\ op_auth_available op = false.
Proof.
  destruct (approval_used_once demo_config demo_check "epoch" _ demo_limits demo_sudo_run) as (_ & H).
  destruct (H "p1") as (op & Hop & Ha & _); [apply list_elem_of_here|]. by exists op.
Defined.

Definition demo_shutdown : obj :=
  [("operation_id", JStr "s1"); ("action", JStr "shutdown"); ("target", JInt 1); ("protected_machine_id", JStr "host")].
Definition shutdown_committed : Worker :=
  Eval vm_compute in (commit_privileged demo_config demo_su (demo_commit "s1") (after_prepare demo_shutdown)).1.
Definition shutdown_op : Operation :=
  Eval vm_compute in default (fresh_op "" "" []) (dget "s1" (wk_operations shutdown_committed)).
Definition shutdown_running : Worker :=
  Eval vm_compute in privileged_started demo_su true "s1" shutdown_op (drop_task (T_privileged "s1") shutdown_committed).

Lemma demo_shutdown_run : rtc demo_step demo_start (Sys shutdown_running ["s1"] []).
Proof.
  eapply rtc_r; [apply (demo_commit_run demo_shutdown "s1" shutdown_committed); vm_compute; reflexivity|].
  pose proof (ws_privileged demo_config demo_check shutdown_committed [] [] demo_su true "s1" shutdown_op) as H.
  assert (E : shutdown_running = privileged_started demo_su true "s1" shutdown_op (drop_task (T_privileged "s1") shutdown_committed))
    by (vm_compute; reflexivity).
  rewrite E. apply H; [vm_compute; apply list_elem_of_here|vm_compute; reflexivity].
Qed.

Lemma shutdown_runs_alone_witness :
  wk_draining shutdown_running = true /\ executing shutdown_running = ["s1"].
Proof.
  destruct (shutdown_runs_alone demo_config demo_check "epoch" _ "s1" demo_limits demo_shutdown_run) as (H1 & _ & _ & H2).
  - vm_compute. apply list_elem_of_here.
  - by split.
Defined.
