(* ===== verification/WorkerOutput.v ===== *)
(** * Reading outputs of a worker

    [worker.py], the [observe] and [output] requests: reading a session without a journal
    entry, and serving a slice of a retained output under a sealed snapshot.  The files
    of the outputs are a parameter: what a read of a path finds. *)

From S2P Require Import Prelude Dict Utf8 Sha256 PyValue JsonText JsonParse Base64 Seal Protocol Canonical Management Worker.
Open Scope Z_scope.

(** ** [observe], up to its read of the native runtime *)

Definition handle_observe (args : obj) (w : Worker) : res RemoteError Z :=
  raise_if negb (bool_decide (dkeys args = ["session_id"])) with remote "invalid_request" ;;
  let! sid := integer (jget "session_id" args) 1 MAX_SESSION in
  raise_if negb (dmem sid (wk_native_outputs w)) with remote "invalid_session" ;;
  Ok sid.

(** ** [output] *)

(** The lengths and the owner of an output, as [_snapshot] writes them. *)
Definition snapshot_lengths (token : string) (out err : Z) (epoch : string) : bytes :=
  canonical_json (JList [JStr token; JInt out; JInt err; JStr epoch]).

Record slice_reply := SliceReply { sl_data : bytes; sl_offset : Z; sl_total : Z }.

Section output_request.
Variable snapshot_key : bytes.
Variable files : string -> option bytes.      (* a regular file that can be read *)

(** [None]: [ValueError] *)
Definition open_snapshot (epoch : string) (snapshot : json) : option (string * Z * Z) :=
  match snapshot with
  | JStr s =>
      match unseal snapshot_key s with
      | Some raw =>
          match json_loads raw with
          | Some (JList [JStr token; JInt out; JInt err; JStr e]) => if bool_decide (e = epoch) then Some (token, out, err) else None
          | _ => None
          end
      | None => None
      end
  | _ => None
  end.

(** [load]: [os.pread] of the slice; a short read is an [OSError]. *)
Definition load_slice (path : string) (offset length : Z) : option bytes :=
  match files path with
  | Some content =>
      let data := take (Z.to_nat length) (drop (Z.to_nat offset) content) in
      if Z.of_nat (List.length data) =? length then Some data else None
  | None => None
  end.

Definition remote_ok {A} (r : res RemoteError A) : res worker_error A :=
  match r with Ok a => Ok a | Raise e => Raise (WRemote e) end.

Definition handle_output (args : obj) (w : Worker) : res worker_error slice_reply :=
  match jget "snapshot" args with
  | JNull | JStr _ =>
      match open_snapshot (wk_epoch w) (jget "snapshot" args) with
      | None => Raise (WRemote (remote "invalid_output"))
      | Some (token, out, err) =>
          match dget token (wk_outputs w) with
          | None => Raise (WRemote (remote "output_released"))
          | Some item =>
              let! stream := match jget "stream" args with
                             | JStr s => if bool_decide (s ∈ ["stdout"; "stderr"]) then Ok s else Raise (WRemote (remote "invalid_request"))
                             | _ => Raise (WRemote (remote "invalid_request"))
                             end in
              let size := if bool_decide (stream = "stdout") then out else err in
              let! offset := remote_ok (integer (default (JInt 0) (dget "offset" args)) 0 size) in
              let! length := remote_ok (integer (default (JInt CHUNK_BYTES) (dget "length" args)) 1 CHUNK_BYTES) in
              match jget (stream +:+ "_path") (ne_fields (ou_event item)) with
              | JStr path =>
                  match load_slice path offset (Z.min length (size - offset)) with
                  | Some data => Ok (SliceReply data offset size)
                  | None => Raise (WRemote (remote_error "output_unavailable" "applied" ""))
                  end
              | _ => Raise (WCrash "path")
              end
          end
      end
  | _ => Raise (WCrash "snapshot")           (* no [encode] *)
  end.
End output_request.

(** ** A snapshot names its lengths *)

(** The worker opens the snapshots that it issued. *)
Lemma open_own_snapshot key token out err epoch :
  plain_text token -> plain_text epoch ->
  open_snapshot key epoch (JStr (seal key (snapshot_lengths token out err epoch))) = Some (token, out, err).
Proof.
  intros Ht%plain_ok He%plain_ok. unfold open_snapshot, snapshot_lengths. rewrite unseal_seal by apply canonical_bytes.
  rewrite <- (app_nil_r (canonical_json _)), canonical_loads; [|by split_and!|constructor|done]. cbn. by rewrite bool_decide_true.
Qed.
