(* ===== verification/Endpoint.v ===== *)
(** * The configuration and the endpoint of a worker

    [WorkerConfig.__post_init__], and [Worker.start], [_listen] and [close] as far as they
    work on the socket of the worker, on a POSIX system.  Several workers may be configured for
    the same path; they start, stop and crash in any order, each call to the file system is a
    step of its own, and a stale endpoint of a worker that is gone may be removed by hand. *)

From S2P Require Import Prelude Dict Utf8 PyValue Protocol Worker.
From Stdlib Require Import Ascii.
From stdpp Require Import functions.
Open Scope Z_scope.

(** ** The configuration *)

Inductive config_error := ConfigValue (what : string) | ConfigRemote (e : RemoteError).

Definition as_config {A} (m : res RemoteError A) : res config_error A := match m with Ok x => Ok x | Raise e => Raise (ConfigRemote e) end.

(** [is_absolute] is the rule of the platform, [public_key] the check of Ed25519. *)
Definition post_init (windows : bool) (is_absolute public_key : string -> bool) (socket_path : string) (tcp_port : option json) (config : WorkerConfig)
  : res config_error unit :=
  let! _ := match tcp_port with Some port => as_config (integer port 0 65535) | None => Ok 0 end in
  raise_if windows && (negb (bool_decide (cf_shutdown_argv config = [])) || str_truthy (cf_privilege_helper config) || str_truthy (cf_askpass_helper config) ||
                       str_truthy (cf_management_helper config) || negb (bool_decide (cf_management_actions config = [])))
    with ConfigValue "Windows worker has no power or privilege management" ;;
  raise_if negb (forallb (fun a => bool_decide (a ∈ ["apt_update"; "apt_install"; "shell_command"; "shutdown"])) (cf_management_actions config))
    with ConfigValue "Unsupported management action" ;;
  let! _ := as_config (text_value (JStr (cf_worker_id config)) false 128) in
  let! _ := as_config (text_value (JStr (cf_client_id config)) false 128) in
  raise_if negb (public_key (cf_client_public_key config)) with ConfigValue "client_public_key" ;;
  raise_if negb (is_absolute socket_path) with ConfigValue "Worker socket must be absolute" ;;
  raise_if match cf_shutdown_argv config with
           | [] => false
           | program :: _ => existsb (fun x => existsb (Ascii.eqb zero) (chars x)) (cf_shutdown_argv config) || negb (is_absolute program)
           end
    with ConfigValue "Shutdown action requires an absolute executable and literal argv" ;;
  raise_if negb (is_absolute (cf_shell config)) with ConfigValue "Worker shell must be absolute" ;;
  let! _ := as_config (integer (JInt (cf_output_limit config)) 1 OUTPUT_BYTES) in
  let! _ := as_config (integer (JInt (cf_retained_limit config)) (cf_output_limit config) MAX_INT) in
  let! _ := as_config (integer (JInt (cf_operation_limit config)) 1 100000) in
  raise_if bool_decide (cf_shutdown_policy config ∉ ["approval"; "preauthorized"; "disabled"]) with ConfigValue "Invalid shutdown policy" ;;
  Ok tt.

Lemma as_config_ok {A} (m : res RemoteError A) x : as_config m = Ok x -> m = Ok x.
Proof. by destruct m; [intros [= ->]|]. Qed.

Lemma post_init_limits windows is_absolute public_key socket_path tcp_port config :
  post_init windows is_absolute public_key socket_path tcp_port config = Ok tt ->
  1 <= cf_output_limit config <= OUTPUT_BYTES /\ cf_output_limit config <= cf_retained_limit config <= MAX_INT /\ 1 <= cf_operation_limit config <= 100000.
Proof.
  intros H. apply rbind_ok in H as (_ & _ & H). do 2 apply raise_if_ok in H as [_ H]. apply rbind_ok in H as (wid & _ & H). apply rbind_ok in H as (cid & _ & H). do 4 apply raise_if_ok in H as [_ H].
  apply rbind_ok in H as (x & H1 & H). apply rbind_ok in H as (y & H2 & H). apply rbind_ok in H as (z & H3 & _).
  apply as_config_ok, integer_ok in H1 as [[= <-] H1]. apply as_config_ok, integer_ok in H2 as [[= <-] H2]. apply as_config_ok, integer_ok in H3 as [[= <-] H3]. lia.
Qed.

(** A worker with a valid configuration can take a command: a fresh one records a valid
    request and schedules it, whatever the limits are. *)
Theorem configured_worker_takes_commands windows is_absolute public_key socket_path tcp_port config su epoch args params oid :
  post_init windows is_absolute public_key socket_path tcp_port config = Ok tt ->
  submit_params su args = Ok params -> jget "operation_id" args = JStr oid -> text_value (JStr oid) false 128 = Ok oid ->
  exists w snapshot, handle_execute config su "submit" args (new_worker epoch) = (w, Ok snapshot) /\ wk_tasks w = [T_execute oid] /\ wk_reservations w = [oid].
Proof.
  intros Hc Hp Ho Ht. destruct (post_init_limits _ _ _ _ _ _ Hc) as (H1 & H2 & H3).
  set (op := Op oid (digest (JList [JStr "submit"; JObj params])) "submit" params Pending JNull None "" 0 false false "").
  assert (Hr : _record config (JStr oid) "submit" params (new_worker epoch) = (set_op op (new_worker epoch), Ok (op, true))).
  { unfold _record, sbind, wlift, slift. rewrite Ht. unfold sget. cbn beta iota.
    change (dget oid (wk_operations (new_worker epoch))) with (@None Operation). cbn beta iota.
    change (Z.of_nat (length (wk_operations (new_worker epoch)))) with 0. by rewrite (proj2 (Z.leb_gt (cf_operation_limit config) 0)) by lia. }
  assert (Ha : admit_operation config oid "submit" (set_op op (new_worker epoch)) =
    add_task (T_execute oid) (set_reservations [oid] (set_op op (new_worker epoch)))).
  { unfold admit_operation. change (wk_draining (set_op op (new_worker epoch))) with false. cbn beta iota.
    assert (output_room config (set_op op (new_worker epoch)) = true) as -> by (apply Z.leb_le; change (length (wk_reservations _)) with 0%nat; lia).
    rewrite andb_false_r. by rewrite decide_True. }
  eexists _, _. split; [|split].
  - unfold handle_execute, sbind at 1 2 3, sget, wlift, slift. rewrite decide_True, Hp, Ho, Hr by done. cbn beta iota.
    unfold sbind, smodify. cbn [fst snd]. change (op_operation_id op) with oid. rewrite Ha. unfold current_snapshot, sbind, sget.
    change (wk_operations (add_task _ _)) with (dset oid op []). rewrite dget_dset_eq. reflexivity.
  - reflexivity.
  - reflexivity.
Qed.

(** ** The endpoint *)

(** Where a worker is; a number is an inode. *)
Inductive stage :=
| Idle
| Checked                             (* the path was free *)
| Bound (created : Z)                 (* its socket exists, but [socket_identity] is not set *)
| Serving (identity : Z)
| Closing (identity : option Z)       (* [close], before it looks at the path *)
| Matched (identity : Z)              (* [close], before [unlink] *)
| Gone.

Record places := Places {
  pl_files : dict string Z;
  pl_next : Z;                        (* no file has this inode yet *)
  pl_stage : nat -> stage
}.

(** The endpoint a worker answers for. *)
Definition held (s : stage) : option Z :=
  match s with Bound i | Serving i | Closing (Some i) | Matched i => Some i | _ => None end.

Section endpoints.
Variable path : nat -> string.        (* the configured path of each worker *)

(** [start]: the check of the path, [_listen], and the identity of the socket. *)
Definition start_check (file : option Z) : stage := match file with None => Checked | Some _ => Closing None end.
Definition start_bind (file : option Z) (next : Z) : stage := match file with None => Bound next | Some _ => Closing None end.
Definition start_identity (file : option Z) : stage := match file with Some i => Serving i | None => Closing None end.

(** [close], once the runtime is closed. *)
Definition close_look (identity file : option Z) : stage :=
  match file, identity with Some i, Some j => if i =? j then Matched j else Gone | _, _ => Gone end.

Inductive endpoint_step : places -> places -> Prop :=
| es_check f n g w : g w = Idle -> endpoint_step (Places f n g) (Places f n (<[w := start_check (dget (path w) f)]> g))
| es_bind f n g w : g w = Checked ->
    endpoint_step (Places f n g)
      (Places (match dget (path w) f with None => dset (path w) n f | Some _ => f end) (n + 1) (<[w := start_bind (dget (path w) f) n]> g))
| es_identity f n g w i : g w = Bound i -> endpoint_step (Places f n g) (Places f n (<[w := start_identity (dget (path w) f)]> g))
| es_failed f n g w i : g w = Bound i -> endpoint_step (Places f n g) (Places f n (<[w := Closing None]> g))
| es_stop f n g w i : g w = Serving i -> endpoint_step (Places f n g) (Places f n (<[w := Closing (Some i)]> g))
| es_look f n g w identity : g w = Closing identity ->
    endpoint_step (Places f n g) (Places f n (<[w := close_look identity (dget (path w) f)]> g))
| es_unlink f n g w i : g w = Matched i -> endpoint_step (Places f n g) (Places (ddel (path w) f) n (<[w := Gone]> g))
| es_crash f n g w : endpoint_step (Places f n g) (Places f n (<[w := Gone]> g))
| es_clean f n g p : (forall w, path w = p -> held (g w) = None) -> endpoint_step (Places f n g) (Places (ddel p f) n g).

Record places_ok (s : places) : Prop := {
  po_held : forall w i, held (pl_stage s w) = Some i -> dget (path w) (pl_files s) = Some i;
  po_own : forall w w' i, held (pl_stage s w) = Some i -> held (pl_stage s w') = Some i -> w = w';
  po_fresh : forall p i, dget p (pl_files s) = Some i -> i < pl_next s
}.

(** A step of one worker that keeps, sets or gives up its endpoint, with the files as they are. *)
Lemma stage_ok f n g w st :
  places_ok (Places f n g) -> (forall i, held st = Some i -> held (g w) = Some i) -> places_ok (Places f n (<[w := st]> g)).
Proof.
  intros [H1 H2 H3] Hs. constructor; cbn in *.
  - intros k i. destruct (decide (k = w)) as [-> | Hne]; [rewrite fn_lookup_insert; eauto|rewrite fn_lookup_insert_ne by done; eauto].
  - intros k k' i. destruct (decide (k = w)) as [-> | Hne], (decide (k' = w)) as [-> | Hne']; rewrite ?fn_lookup_insert, ?fn_lookup_insert_ne by done; eauto.
  - done.
Qed.

Lemma endpoint_step_ok s s' : places_ok s -> endpoint_step s s' -> places_ok s'.
Proof.
  intros Hok. destruct 1 as [f n g w Hw|f n g w Hw|f n g w i Hw|f n g w i Hw|f n g w i Hw|f n g w identity Hw|f n g w i Hw|f n g w|f n g p Hp].
  - apply stage_ok; [done|]. unfold start_check. by destruct (dget _ _).
  - destruct Hok as [H1 H2 H3]. unfold start_bind. cbn in *. destruct (dget (path w) f) as [j|] eqn:E; cbn.
    + assert (Hok : places_ok (Places f (n + 1) g)) by (constructor; cbn; eauto; intros p i Hp; specialize (H3 p i Hp); lia). by apply stage_ok.
    + assert (Hn : forall k i, held (g k) = Some i -> i < n) by (intros k i Hk; by eapply H3, H1). constructor; cbn.
      * intros k i. destruct (decide (k = w)) as [-> | Hne].
        -- rewrite fn_lookup_insert. cbn. intros [= <-]. apply dget_dset_eq.
        -- rewrite fn_lookup_insert_ne by done. intros Hk. apply H1 in Hk as Hf. rewrite dget_dset_ne; [done|]. congruence.
      * intros k k' i. destruct (decide (k = w)) as [-> | Hne], (decide (k' = w)) as [-> | Hne']; rewrite ?fn_lookup_insert, ?fn_lookup_insert_ne by done; [done|..|eauto].
        -- cbn. intros [= <-] Hk. apply Hn in Hk. lia.
        -- cbn. intros Hk [= <-]. apply Hn in Hk. lia.
      * intros p i. rewrite dget_dset. case_decide; [intros [= <-]; lia|]. intros Hp. specialize (H3 p i Hp). lia.
  - apply stage_ok; [done|]. intros j. unfold start_identity. rewrite Hw.
    pose proof (po_held _ Hok w i) as Hi. cbn in Hi. rewrite Hw in Hi. rewrite (Hi eq_refl). done.
  - by apply stage_ok.
  - apply stage_ok; [done|]. by rewrite Hw.
  - apply stage_ok; [done|]. intros j. rewrite Hw. unfold close_look. destruct (dget _ _) as [k|], identity as [m|]; try done. by destruct (k =? m).
  - destruct Hok as [H1 H2 H3]. cbn in *. constructor; cbn.
    + intros k j. destruct (decide (k = w)) as [-> | Hne]; [by rewrite fn_lookup_insert|]. rewrite fn_lookup_insert_ne by done. intros Hk. apply H1 in Hk as Hf.
      assert (Hi : dget (path w) f = Some i) by (apply H1; by rewrite Hw). rewrite dget_ddel_ne; [done|]. intros Ep. assert (i = j) as -> by congruence.
      apply Hne, (H2 k w j); [done|by rewrite Hw].
    + intros k k' j. destruct (decide (k = w)) as [-> | Hne], (decide (k' = w)) as [-> | Hne']; rewrite ?fn_lookup_insert, ?fn_lookup_insert_ne by done; try done. eauto.
    + intros p j. rewrite dget_ddel. case_decide; [done|apply H3].
  - by apply stage_ok.
  - destruct Hok as [H1 H2 H3]. cbn in *. constructor; cbn; [|eauto|].
    + intros k i Hk. apply H1 in Hk as Hf. rewrite dget_ddel_ne; [done|]. intros Ep. by rewrite (Hp k) in Hk.
    + intros q j. rewrite dget_ddel. case_decide; [done|apply H3].
Qed.

Definition no_workers : places := Places [] 0 (fun _ => Idle).

(** A worker keeps its endpoint: however workers start, stop and crash, also on the same
    path, the socket at the path of a serving worker is its own until it closes it; two
    workers never hold the same path; and [close] removes its own socket or none. *)
Theorem endpoint_is_exclusive s :
  rtc endpoint_step no_workers s ->
  (forall w i, pl_stage s w = Serving i \/ pl_stage s w = Matched i -> dget (path w) (pl_files s) = Some i) /\
  (forall w w' i i', held (pl_stage s w) = Some i -> held (pl_stage s w') = Some i' -> path w = path w' -> w = w').
Proof.
  intros Hrun. assert (Hok : places_ok s).
  { apply (rtc_ind_r (R := endpoint_step) places_ok no_workers); [by constructor| |exact Hrun]. intros a b _ Hs Ha. by apply (endpoint_step_ok a). }
  destruct Hok as [H1 H2 H3]. split.
  - intros w i [Hw | Hw]; apply H1; by rewrite Hw.
  - intros w w' i i' Hw Hw' Hp. apply H1 in Hw as Hf. apply H1 in Hw' as Hf'. rewrite Hp in Hf. assert (i = i') as -> by congruence. by apply (H2 w w' i').
Qed.
End endpoints.

(** ** Witnesses *)

(** Two workers on one path: the second one is refused. *)
Definition one_path (w : nat) : string := "/run/worker".
Definition two_workers : places := Places [("/run/worker", 0)] 1 (<[1%nat := Closing None]> (<[0%nat := Serving 0]> (<[0%nat := Bound 0]> (<[0%nat := Checked]> (fun _ => Idle))))).

Lemma endpoint_is_exclusive_witness : dget (one_path 0) (pl_files two_workers) = Some 0.
Proof.
  refine (proj1 (endpoint_is_exclusive one_path two_workers _) 0%nat 0 _); [|left; reflexivity].
  eapply rtc_l; [by apply (es_check one_path [] 0 (fun _ => Idle) 0)|].
  eapply rtc_l; [by apply (es_bind one_path [] 0 (<[0%nat := Checked]> (fun _ => Idle)) 0)|].
  eapply rtc_l; [by eapply (es_identity one_path [("/run/worker", 0)] 1 (<[0%nat := Bound 0]> (<[0%nat := Checked]> (fun _ => Idle))) 0 0)|].
  apply rtc_once. by apply (es_check one_path [("/run/worker", 0)] 1 (<[0%nat := Serving 0]> (<[0%nat := Bound 0]> (<[0%nat := Checked]> (fun _ => Idle)))) 1).
Defined.

Definition small_config : WorkerConfig := Config "w" "c" "key" "/bin/sh" 1000 1000 1 [] [] "approval" "" "" "" [].
Definition quiet_surroundings : surroundings :=
  Surroundings false true 0 "" "" 1 1 (fun _ => true) (fun s => s) [] "" (fun _ _ _ => false) (fun _ => "") JNull.

Lemma configured_worker_takes_commands_witness :
  exists w snapshot, handle_execute small_config quiet_surroundings "submit" [("operation_id", JStr "op"); ("cmd", JStr "true")] (new_worker "e") = (w, Ok snapshot) /\
    wk_tasks w = [T_execute "op"] /\ wk_reservations w = ["op"].
Proof.
  eapply (configured_worker_takes_commands false (fun _ => true) (fun _ => true) "/run/worker" None small_config quiet_surroundings "e"); vm_compute; reflexivity.
Defined.
