(* ===== verification/Privileged.v ===== *)
(** * The way of an approved command to root

    What [privilege.py] starts, and what checks it on the way: the owners of the helpers
    ([trusted_executable], [protected]), the command lines of [execute_privileged] and
    [execute_management], [askpass.py] on a machine that asks for a password, [main] and
    [run_child] of [management_helper.py], and [management_status].  The operating system
    (files, processes, clocks, signals) and Ed25519 are parameters. *)

From S2P Require Import Prelude Dict Utf8 Sha256 PyValue JsonText JsonParse Shlex Base64 Seal Protocol Canonical Management HelperJournal Worker.
From Stdlib Require Import Ascii.
Open Scope Z_scope.

(** ** Owners of files *)

(** The parts of a path below the root. *)
Abbreviation path := (list string).

(** What [lstat], [is_file], [is_dir] and [os.access] tell of an entry. *)
Record stat := Stat {
  st_uid : Z;
  st_mode : Z;
  st_link : bool;
  st_file : bool;
  st_directory : bool;
  st_executable : bool
}.

Fixpoint split_slash (word : list ascii) (l : list ascii) : list string :=
  match l with
  | [] => [of_chars (reverse word)]
  | c :: l => if Ascii.eqb c "/"%char then of_chars (reverse word) :: split_slash [] l else split_slash (c :: word) l
  end.

(** [Path(s)]: empty parts and dots do not count. *)
Definition path_parts (s : string) : path := filter (fun p => p <> "" /\ p <> ".") (split_slash [] (chars s)).

(** [(p, *p.parents)] *)
Definition lineage (p : path) : list path := (fun n => take n p) <$> reverse (seq 0 (S (length p))).

Section owners.
Variable lstat : path -> option stat.       (* [None]: [OSError] *)

(** One part of the walk: no link, of root, and writable by root alone. *)
Definition owned_by_root (p : path) : bool :=
  match lstat p with
  | Some s => negb (st_link s) && (st_uid s =? 0) && (Z.land (st_mode s) 18 =? 0)
  | None => false
  end.

Definition trusted_executable (name : string) : bool :=
  starts_with_slash name && forallb owned_by_root (lineage (path_parts name)) &&
  match lstat (path_parts name) with Some s => st_file s && st_executable s | None => false end.

(** [True]: [protected] returns. *)
Definition protected (directory : bool) (name : string) : bool :=
  starts_with_slash name && forallb owned_by_root (lineage (path_parts name)) &&
  implb directory (match lstat (path_parts name) with Some s => st_directory s | None => false end).
End owners.

(** ** The command lines *)

Definition has_stdin (args : obj) : bool := match jget "stdin" args with JNull => false | _ => true end.

Section commands.
Variable config : WorkerConfig.

(** [{'approval': ..., 'args': ..., 'signature': ...}] *)
Definition grant_envelope (w : Worker) (op : Operation) : obj :=
  [("approval", JObj (approval_payload config w op)); ("args", JObj (op_args op)); ("signature", JStr (op_approval_signature op))].

(** What the native runtime is asked to run. *)
Record native_run := NativeRun {
  nr_shell : string;
  nr_command : string;
  nr_cwd : json;
  nr_wait_ms : json;
  nr_timeout_ms : json;
  nr_output_limit : Z;
  nr_stdin : option json       (* [None]: the method without standard input *)
}.

(** [base64.b64encode(canonical(envelope)).decode()] *)
Definition management_payload (w : Worker) (op : Operation) : string :=
  string_of_bytes (b64encode (canonical_json (JObj (grant_envelope w op)))).

Definition helper_line : string := shlex_join ["/usr/bin/sudo"; "-n"; "--"; cf_management_helper config].

(** The shell command that feeds the envelope to the helper. *)
Definition management_line (w : Worker) (op : Operation) : string :=
  "printf %s " +:+ shlex_quote (management_payload w op) +:+ " | " +:+ helper_line.

(** [execute_management] of a command; a shutdown runs [management_line] itself. *)
Definition management_run (w : Worker) (op : Operation) : native_run :=
  let stdin := has_stdin (op_args op) in
  NativeRun "/bin/sh" (if stdin then "exec " +:+ helper_line else management_line w op) (JStr "")
    (default (JInt 300000) (dget "wait_ms" (op_args op))) (jor (jget "timeout_ms" (op_args op)) (JInt 0))
    (cf_output_limit config) (if stdin then Some (JStr (management_payload w op)) else None).

(** [execute_privileged] where a password is asked for. *)
Definition privileged_grant (w : Worker) (op : Operation) : string :=
  string_of_bytes (urlsafe_b64encode (canonical_json (JObj (grant_envelope w op)))).

(** The arguments of [sudo]; [None]: an exception. *)
Definition sudo_argv (helper shell : string) (args : obj) : option (list string) :=
  match stdin_identity (jget "stdin" args), dget "cmd" args with
  | Some identity, Some (JStr cmd) =>
      Some (["/usr/bin/sudo"; "-A"; "-k"; "--"; helper; shell; cmd] ++
            match identity with Some (n, hash) => [pretty n; hash] | None => [] end)
  | _, _ => None
  end.

Definition privileged_argv (w : Worker) (op : Operation) : option (list string) :=
  argv ← sudo_argv (cf_privilege_helper config) (cf_shell config) (op_args op);
  Some (["/usr/bin/env"; "SUDO_ASKPASS=" +:+ cf_askpass_helper config; "PAL_SHELL_APPROVAL=" +:+ privileged_grant w op] ++ argv).

Definition privileged_run (w : Worker) (op : Operation) : option native_run :=
  argv ← privileged_argv w op;
  Some (NativeRun (cf_shell config) ("exec " +:+ shlex_join argv) (default (JStr "") (dget "cwd" (op_args op)))
    (default (JInt 300000) (dget "wait_ms" (op_args op))) (jor (jget "timeout_ms" (op_args op)) (JInt 0))
    (cf_output_limit config) (if has_stdin (op_args op) then Some (jget "stdin" (op_args op)) else None)).
End commands.

(** [privileged_stdin_version]: the version of the platform [linux] or [darwin], and the
    probe of the helper that is remembered on a Mac; [answer]: exit status and output of the
    helper, [None] if it could not be run. *)
Definition privileged_stdin_version (native_version : Z) (linux darwin trusted : bool) (management_probe : obj)
    (remembered : option Z) (answer : option (Z * bytes)) : Z * option Z :=
  if negb (native_version =? 1) then (0, remembered)
  else if linux then
    (if truthy (jget "ok" management_probe) && py_eq (jget "stdin_version" management_probe) (JInt 1) then 1 else 0, remembered)
  else if darwin && trusted then
    match remembered with
    | Some v => (v, remembered)
    | None =>
        match answer with
        | Some (code, out) => let v := if (code =? 0) && bool_decide (out = lit "1" ++ [10]) then 1 else 0 in (v, Some v)
        | None => (0, None)
        end
    end
  else (0, remembered).

(** ** [askpass.py] *)

(** [str.isspace] *)
Definition text_space (c : Z) : bool :=
  ((9 <=? c) && (c <=? 13)) || ((28 <=? c) && (c <=? 32)) || (c =? 133) || (c =? 160) || (c =? 5760) ||
  ((8192 <=? c) && (c <=? 8202)) || (c =? 8232) || (c =? 8233) || (c =? 8239) || (c =? 8287) || (c =? 12288).

Fixpoint lstrip (t : text) : text :=
  match t with c :: t' => if text_space c then lstrip t' else t | [] => [] end.
Definition strip_text (t : text) : text := reverse (lstrip (reverse (lstrip t))).

(** The characters before the first space, and the rest. *)
Fixpoint until_space (t : text) : text * text :=
  match t with
  | c :: t' => if text_space c then ([], t) else let '(word, rest) := until_space t' in (c :: word, rest)
  | [] => ([], [])
  end.

(** [t.split(None, 1)] has two fields. *)
Definition split_two (t : text) : option (text * text) :=
  let '(word, rest) := until_space (lstrip t) in
  match word, lstrip rest with _ :: _, _ :: _ => Some (word, lstrip rest) | _, _ => None end.

Record askpass_config := AskpassConfig {
  ak_client_public_key : string;
  ak_worker_id : string;
  ak_client_id : string;
  ak_privilege_helper : string;
  ak_shell : string
}.

(** A string as text. *)
Definition text_of (s : string) : text := default (string_bytes s) (utf8_decode (string_bytes s)).

Section askpass.
Variable check_signature : string -> string -> bytes -> bool.
Variable config : askpass_config.

(** The checks of the envelope: the grant, the arguments and the signature. *)
Definition approved_grant (raw : string) (now : Z) : option (obj * obj * string) :=
  if 65536 <? Z.of_nat (length (text_of raw)) then None
  else
    data ← urlsafe_b64decode (string_bytes raw);
    match json_loads data with
    | Some (JObj envelope) =>
        match dget "approval" envelope, dget "args" envelope, dget "signature" envelope with
        | Some (JObj grant), Some (JObj args), Some (JStr signature) =>
            if check_signature (ak_client_public_key config) signature (canonical_json (JObj grant)) &&
               py_eq (jget "protocol" grant) (JStr "pal-shell-approval.v1") &&
               py_eq (jget "worker_id" grant) (JStr (ak_worker_id config)) &&
               py_eq (jget "client_id" grant) (JStr (ak_client_id config)) &&
               (match jget "expires_at" grant with JInt t => now <=? t | _ => false end) &&
               py_eq (jget "action" args) (JStr "sudo") &&
               py_eq (jget "fingerprint" grant) (JStr (digest (JList [JStr "privileged"; JObj args])))
            then Some (grant, args, signature) else None
        | _, _, _ => None
        end
    | _ => None
    end.

(** The process that asks: [observed] is the output of [ps], [same]: it is still the parent. *)
Definition parent_runs (args : obj) (observed : bytes) (same : bool) : bool :=
  match utf8_decode observed, sudo_argv (ak_privilege_helper config) (ak_shell config) args with
  | Some t, Some argv =>
      match split_two (strip_text t) with
      | Some (uid, line) => bool_decide (uid = lit "0") && bool_decide (line = text_of (join " " argv)) && same
      | None => false
      end
  | _, _ => false
  end.

(** [True] only if everything agrees; [consume] asks the worker for the single use. *)
Definition authorize (raw : string) (now : Z) (observed : bytes) (same : bool) (consume : obj -> string -> bool) : bool :=
  match approved_grant raw now with
  | Some (grant, args, signature) => if parent_runs args observed same then consume grant signature else false
  | None => false
  end.
End askpass.

(** ** [management_helper.py] *)

Record installation := Installation {
  in_worker_uid : Z;
  in_state_directory : string;
  in_policy : helper_config
}.

(** A record of the journal as it is stored and printed. *)
Definition entry_name (s : entry_state) : string :=
  match s with EntryPending => "pending" | EntryNotStarted => "not_started" | EntryComplete => "complete" end.

Definition stored_record (oid epoch : string) (e : entry) : obj :=
  [("state", JStr (entry_name (je_state e))); ("fingerprint", JStr (je_fingerprint e)); ("expires_at", JInt (je_expires_at e));
   ("operation_id", JStr oid); ("runtime_epoch", JStr epoch)] ++
  match je_returncode e with Some code => [("returncode", JInt code)] | None => [] end.

(** How a run of the helper ends, or the grant it goes on to execute. *)
Inductive main_outcome := Refused | Printed (out : bytes) | Executes (e : envelope).

Section main.
Variable lstat : path -> option stat.
Variable cfg : installation.

Definition status_reply : obj :=
  [("ok", JBool true); ("mode", JStr "signed_sudoers");
   ("allowed_actions", JList (JStr <$> hc_allowed_actions (in_policy cfg))); ("stdin_version", JInt 1)].

(** [stored]: the texts of the records, by their names. *)
Definition helper_main (euid : Z) (arguments : nat) (sudo_uid : string) (raw : bytes) (stored : dict string bytes) : main_outcome :=
  if negb (euid =? 0) || negb (Nat.eqb arguments 1) then Refused
  else if negb (protected lstat false "/usr/local/etc/pal-shell-management.toml") then Refused
  else if negb (bool_decide (sudo_uid = pretty (in_worker_uid cfg))) then Refused
  else
    match parse_request (hc_client_id (in_policy cfg)) raw with
    | None => Refused
    | Some (AskExecute e) => Executes e
    | Some AskStatus =>
        if protected lstat true (in_state_directory cfg)
        then Printed (json_printed (JObj status_reply) ++ [10]) else Refused
    | Some (AskJournal key) =>
        if protected lstat true (in_state_directory cfg)
        then Printed (default (lit "{" ++ [34] ++ lit "state" ++ [34] ++ lit ":" ++ [34] ++ lit "unknown" ++ [34] ++ lit "}") (dget key stored) ++ [10])
        else Refused
    end.
End main.

(** [management_status] of [privilege.py]: what the worker asks, and what it makes of the
    answer; [answer]: exit status and output, [None] for an [OSError] or a timeout. *)
Definition status_request (epoch : string) (operation : option string) : bytes :=
  b64encode (canonical_json (JObj
    match operation with
    | None => [("mode", JStr "status")]
    | Some oid => [("mode", JStr "query"); ("runtime_epoch", JStr epoch); ("operation_id", JStr oid)]
    end)).

Definition failed_status (reason : string) : json := JObj [("ok", JBool false); ("reason", JStr reason)].

Definition management_status (trusted : bool) (answer : option (Z * bytes)) : json :=
  if negb trusted then failed_status "protected_helper_missing"
  else
    match answer with
    | None => failed_status "helper_status_unavailable"
    | Some (code, raw) =>
        if 8192 <? Z.of_nat (length raw) then failed_status "helper_status_unavailable"
        else if negb (code =? 0) then failed_status "sudoers_or_helper_unavailable"
        else match json_loads raw with Some v => v | None => failed_status "helper_status_unavailable" end
    end.

(** ** [run_child] *)

(** What one turn of the loop sees: the exit status of the child, the signals received, the
    parent, the clock in milliseconds. *)
Record turn := Turn {
  tn_poll : option Z;
  tn_stopping : bool;
  tn_orphaned : bool;
  tn_now : Z
}.

Inductive group_signal := TERM | KILL.

#[export] Instance group_signal_eq_dec : EqDecision group_signal.
Proof. solve_decision. Defined.

Section child.
Variable timeout_ms : Z.           (* 0: none *)
Variable started : Z.

Definition must_stop (t : turn) : bool :=
  tn_stopping t || tn_orphaned t || (negb (timeout_ms =? 0) && (timeout_ms <=? tn_now t - started)).

(** The signals of the loop, and the exit status it returns. *)
Fixpoint supervise (stopping_at : option Z) (turns : list turn) : list group_signal * option Z :=
  match turns with
  | [] => ([], None)
  | t :: turns =>
      match tn_poll t with
      | Some code => ([], Some code)
      | None =>
          if must_stop t then
            let at_ := default (tn_now t) stopping_at in
            let '(signals, code) := supervise (Some at_) turns in
            ((if 2000 <? tn_now t - at_ then KILL else TERM) :: signals, code)
          else supervise stopping_at turns
      end
  end.

(** [finally]: the whole process group is killed. *)
Definition run_child (turns : list turn) : list group_signal * option Z :=
  let '(signals, code) := supervise None turns in (signals ++ [KILL], code).
End child.
