(* ===== verification/PrivilegedSafety.v ===== *)
(** * An approved command reaches root, and nothing else does

    The properties of [Privileged], over the worker, the helper and canonical JSON. *)

From S2P Require Import Prelude Dict Utf8 Sha256 PyValue JsonText JsonParse Shlex Base64 Seal Protocol Canonical Management HelperJournal Worker WorkerSafety Privileged.
From Stdlib Require Import Ascii.
Open Scope Z_scope.

(** ** Values that Python can hold *)

(** The keys of a dictionary that is written out. *)
Ltac distinct_keys :=
  lazymatch goal with |- dwf ?d => let l := eval cbv [dkeys fmap list_fmap fst] in (dkeys d) in
    change (NoDup l); apply (bool_decide_eq_true_1 (NoDup l)); vm_compute; reflexivity end.

Lemma json_ok_obj d : json_ok (JObj d) <-> dwf d /\ Forall (fun p => text_ok p.1 /\ json_ok p.2) d.
Proof. cbn [json_ok]. by rewrite members_ok. Qed.

(** One goal per key and per value. *)
Ltac ok_members :=
  apply json_ok_obj; split; [distinct_keys|]; repeat (apply Forall_cons_2; [cbn [fst snd]; split|]); try apply Forall_nil_2.

Lemma ok_ddel k d : json_ok (JObj d) -> json_ok (JObj (ddel k d)).
Proof. rewrite !json_ok_obj. intros [H1 H2]. split; [by apply dwf_ddel|by apply Forall_ddel]. Qed.

Lemma ok_dset k v d : text_ok k -> json_ok v -> json_ok (JObj d) -> json_ok (JObj (dset k v d)).
Proof. rewrite !json_ok_obj. intros Hk Hv [H1 H2]. split; [by apply dwf_dset|by apply Forall_dset]. Qed.

Lemma ok_dget k v d : json_ok (JObj d) -> dget k d = Some v -> json_ok v.
Proof. rewrite json_ok_obj, Forall_forall. intros [_ H] Hg%dget_elem. apply (H _ Hg). Qed.

Lemma ok_jget k d : json_ok (JObj d) -> json_ok (jget k d).
Proof. intros H. unfold jget. destruct (dget k d) as [v|] eqn:E; [|done]. by eapply ok_dget. Qed.

Lemma ascii_ok s : ascii_text (string_bytes s) -> text_ok s.
Proof. intros H. exists (string_bytes s). by apply encode_ascii. Qed.

Lemma sha256_ascii m : ascii_text (string_bytes (sha256_hex m)).
Proof.
  unfold sha256_hex. destruct (sha256_shape m) as [_ Hb]. induction Hb as [|b l Hb _ IH]; simpl; [constructor|].
  repeat constructor; try apply hex_char_ascii; try done; Z.to_euclidean_division_equations; lia.
Qed.

Lemma digest_ok v : text_ok (digest v).
Proof. apply ascii_ok, sha256_ascii. Qed.

(** ** What [normalize] depends on *)

Lemma text_value_sorted v empty limit : text_value (sort_keys v) empty limit = text_value v empty limit.
Proof. by destruct v. Qed.
Lemma stdin_bytes_sorted v : stdin_bytes (sort_keys v) = stdin_bytes v.
Proof. by destruct v. Qed.
Lemma py_eq_str_sorted v s : py_eq (sort_keys v) (JStr s) = py_eq v (JStr s).
Proof. by destruct v. Qed.
Lemma truthy_sorted v : truthy (sort_keys v) = truthy v.
Proof.
  destruct v as [| | | |l|d]; try done; [by destruct l|]. cbn [sort_keys].
  pose proof (merge_sort_Permutation member_le (map (fun p => (p.1, sort_keys p.2)) d)) as H.
  destruct d as [|p d]; [done|]. destruct (merge_sort _ _); [|done]. by apply Permutation_nil_cons in H.
Qed.

(** The order of the arguments does not matter. *)
Lemma normalize_sorted args : dwf args -> normalize (sorted_members args) = normalize args.
Proof.
  intros Hwf. unfold normalize. rewrite !jget_sorted, dget_sorted by done.
  rewrite stdin_bytes_sorted, !py_eq_str_sorted, truthy_sorted, text_value_sorted.
  replace (default (JStr "") (sort_keys <$> dget "cwd" args)) with (sort_keys (default (JStr "") (dget "cwd" args))) by (by destruct (dget "cwd" args)).
  rewrite text_value_sorted. by destruct (jget "stdin" args).
Qed.

(** Nor do arguments it does not read. *)
Lemma normalize_frame k v args : k ∉ ["stdin"; "action"; "tty"; "cmd"; "cwd"] -> normalize (dset k v args) = normalize args.
Proof.
  intros Hk. unfold normalize, jget. rewrite !dget_dset_ne by (intros ->; apply Hk; set_solver). done.
Qed.

Lemma package_ascii p : package_name p = true -> text_ok p.
Proof.
  intros H. apply ascii_ok. unfold package_name in H.
  assert (Hc : forall c, package_char c = true -> Z.of_nat (nat_of_ascii c) < 128) by
    (intros [[] [] [] [] [] [] [] []]; vm_compute; done).
  assert (Hall : forall s, forallb package_char (chars s) = true -> ascii_text (string_bytes s)).
  { induction s as [|c s IH]; cbn [chars forallb string_bytes]; [constructor|]. intros [H1 H2]%andb_true_iff. constructor; [|by apply IH].
    apply Hc in H1. lia. }
  apply Hall. destruct (chars p) as [|c [|c' l]]; try done. apply andb_true_iff in H as [H1 H2]. cbn [forallb] in *.
  apply andb_true_iff. split; [|done]. unfold package_char. by rewrite H1.
Qed.

Lemma normalize_ok args action : json_ok (JObj args) -> normalize args = Ok action -> json_ok (JObj action).
Proof.
  intros Hok. unfold normalize. destruct (stdin_bytes _); [|done].
  assert (Hk : forall k, k ∈ ["action"; "packages"; "cmd"; "cwd"; "shutdown"; "apt_update"; "apt_install"; "shell_command"; "/"] -> text_ok k).
  { intros k Hin. apply ascii_ok. revert k Hin. apply Forall_forall. repeat (constructor; [by repeat constructor; simpl; lia|]). constructor. }
  destruct (py_eq _ (JStr "shutdown")).
  { intros H. apply raise_if_ok in H as [_ H]. injection H as <-. ok_members. all: try done; apply Hk; set_solver. }
  destruct (_ || _); [done|]. intros H. apply rbind_ok in H as (cmd & Hcmd & H). apply rbind_ok in H as (cwd & Hcwd & H).
  apply text_value_ok in Hcmd as (Hcmd & _), Hcwd as (Hcwd & _).
  assert (Tcmd : text_ok cmd) by (pose proof (ok_jget "cmd" _ Hok) as X; by rewrite Hcmd in X).
  assert (Tcwd : text_ok (str_or cwd "/")).
  { unfold str_or. destruct (decide (cwd = "")) as [_ | Hne]; [apply Hk; set_solver|]. destruct (dget "cwd" args) as [v|] eqn:E; cbn in Hcwd; [|congruence].
    subst v. exact (ok_dget _ _ _ Hok E). }
  destruct (_ && _); [done|].
  assert (Hshell : json_ok (JObj [("action", JStr "shell_command"); ("cmd", JStr cmd); ("cwd", JStr (str_or cwd "/"))])).
  { ok_members. all: try done; apply Hk; set_solver. }
  destruct (str_truthy cwd); [by injection H as <-|].
  destruct (parse_apt cmd) as [apt|] eqn:Ea; injection H as <-; [|done]. clear Hshell. revert Ea. unfold parse_apt.
  destruct (existsb _ _); [done|]. destruct (shlex_split cmd) as [[|program [|verb packages]]|]; try done.
  destruct (negb _); [done|]. destruct (bool_decide _).
  { intros [= <-]. ok_members. all: try done; apply Hk; set_solver. }
  destruct (_ && _) eqn:E; [|done]. apply andb_true_iff in E as [_ E]. intros [= <-].
  ok_members. all: try done; try (apply Hk; set_solver). cbn [json_ok].
  apply elements_ok, Forall_fmap. apply dedup_packages in E. rewrite forallb_forall in E. apply Forall_forall. intros p Hp.
  apply package_ascii, E. by apply list_elem_of_In.
Qed.

Lemma py_eq_text v s : py_eq v (JStr s) = true -> v = JStr s.
Proof. destruct v; try done. cbn. by intros ->%bool_decide_eq_true. Qed.

Lemma normalize_shutdown args action : normalize args = Ok action -> action_name action = "shutdown" -> jget "action" args = JStr "shutdown".
Proof.
  unfold normalize. destruct (stdin_bytes _); [|done]. destruct (py_eq _ (JStr "shutdown")) eqn:E; [intros _ _; by apply py_eq_text|].
  destruct (_ || _); [done|]. intros H. apply rbind_ok in H as (cmd & _ & H). apply rbind_ok in H as (cwd & _ & H).
  destruct (_ && _); [done|]. destruct (str_truthy cwd); [by injection H as <-|].
  destruct (parse_apt cmd) as [apt|] eqn:Ea; injection H as <-; [|done]. revert Ea. unfold parse_apt.
  destruct (existsb _ _); [done|]. destruct (shlex_split cmd) as [[|program [|verb packages]]|]; try done.
  destruct (negb _); [done|]. destruct (bool_decide _); [by intros [= <-]|]. destruct (_ && _); [by intros [= <-]|done].
Qed.

(** ** What the worker prepares *)

Section linux.
Variable config : WorkerConfig.
Variable su : surroundings.
Hypothesis on_linux : su_linux su = true.
Hypothesis expands : forall s, text_ok s -> text_ok (su_expanduser su s).

Record params_good (params action : obj) : Prop := {
  pg_ok : json_ok (JObj params);
  pg_normal : normalize params = Ok action;
  pg_management : jget "management" params = JObj action;
  pg_target : exists z, jget "target" params = JInt z;
  pg_allowed : existsb (fun v => py_eq v (JStr (action_name action))) (match jget "allowed_actions" (su_status su) with JList l => l | _ => [] end) = true;
  pg_shutdown : action_name action = "shutdown" ->
    truthy (jget "protected_machine_id" params) = true /\ py_eq (jget "protected_machine_id" params) (JStr (su_machine_identity su)) = false /\
    su_machine_identity su ∉ cf_protected_machine_ids config
}.

Lemma linux_params args params : json_ok (JObj args) -> privileged_params config su args = Ok params -> exists action, params_good params action.
Proof.
  intros Hok. unfold privileged_params. set (p0 := ddel "operation_id" args). assert (H0 : json_ok (JObj p0)) by (by apply ok_ddel).
  set (act := match jget "action" p0 with JStr a => a | _ => "" end). intros H. apply raise_if_ok in H as [Hact H]. apply raise_if_ok in H as [_ H].
  set (given := match jget "stdin" p0 with JNull => false | _ => true end) in H. clearbody given. set (p1 := if given then p0 else ddel "stdin" p0) in H.
  assert (H1 : json_ok (JObj p1)) by (subst p1; destruct given; [done|by apply ok_ddel]).
  assert (G1 : forall k, k <> "stdin" -> dget k p1 = dget k p0) by (intros k Hk; subst p1; destruct given; [done|by apply dget_ddel_ne]).
  apply raise_if_ok in H as [_ H]. apply rbind_ok in H as (target & Ht & H). apply integer_ok in Ht as [Ht _].
  apply rbind_ok in H as (p2 & H2 & H). apply rbind_ok in H as (p3 & H3 & H). apply raise_if_ok in H as [_ H]. injection H as <-.
  assert (P2 : json_ok (JObj p2) /\ (forall k, k <> "cwd" -> dget k p2 = dget k p1) /\
    (act <> "sudo" -> truthy (jget "protected_machine_id" p2) = true /\ py_eq (jget "protected_machine_id" p2) (JStr (su_machine_identity su)) = false /\
      su_machine_identity su ∉ cf_protected_machine_ids config)).
  { destruct (decide (act = "sudo")).
    - unfold sudo_params in H2. apply rbind_ok in H2 as (? & _ & H2). apply rbind_ok in H2 as (cwd & Hc & H2). apply rbind_ok in H2 as (? & _ & H2).
      apply rbind_ok in H2 as (? & _ & H2). apply raise_if_ok in H2 as [_ H2]. injection H2 as <-. apply text_value_ok in Hc as (Hc & _).
      split_and!; [|intros k Hk; by apply dget_dset_ne|done]. apply ok_dset; [by apply ascii_ok; repeat constructor; simpl; lia| |done].
      apply expands. destruct (dget "cwd" p1) as [v|] eqn:E; cbn in Hc; [subst v; exact (ok_dget _ _ _ H1 E)|]. injection Hc as <-. by exists [].
    - unfold shutdown_params in H2. apply raise_if_ok in H2 as [_ H2]. apply raise_if_ok in H2 as [Hp H2]. injection H2 as <-.
      split_and!; [done..|]. intros _. apply orb_false_iff in Hp as [Hp E4]. apply orb_false_iff in Hp as [Hp E3]. apply orb_false_iff in Hp as [_ E2].
      bool_to_prop. done. }
  destruct P2 as (P2 & G2 & S2). unfold with_management in H3. rewrite on_linux in H3.
  apply rbind_ok in H3 as (action & Hn & H3). apply raise_if_ok in H3 as [_ H3]. apply raise_if_ok in H3 as [Hs H3]. injection H3 as <-.
  exists action. constructor.
  - apply ok_dset; [by apply ascii_ok; repeat constructor; simpl; lia|by eapply normalize_ok|done].
  - rewrite normalize_frame; [done|]. set_solver.
  - unfold jget. by rewrite dget_dset_eq.
  - exists target. unfold jget in *. by rewrite dget_dset_ne, G2.
  - apply orb_false_iff in Hs as [_ Hs]. by apply negb_false_iff in Hs.
  - intros Hsd. apply (normalize_shutdown _ _ Hn) in Hsd. unfold jget. rewrite dget_dset_ne by done. apply S2.
    unfold act. unfold jget in Hsd |- *. rewrite G2, G1 in Hsd by done. by rewrite Hsd.
Qed.
End linux.

(** ** The envelope on its way to the helper *)

Lemma recorded_id config oidj method args w w1 op fresh :
  _record config oidj method args w = (w1, Ok (op, fresh)) ->
  if fresh : bool then oidj = JStr (op_operation_id op) else w1 = w.
Proof.
  unfold _record, sbind, wlift, slift, sget, wfail, sthrow, sret, smodify.
  destruct (text_value oidj false 128) as [oid|] eqn:Et; [|done]. apply text_value_ok in Et as (-> & _).
  destruct (dget oid (wk_operations w)); [destruct (bool_decide _); [done|]; by intros [= <- <- <-]|].
  destruct (_ <=? _); [done|]. by intros [= <- <- <-].
Qed.

(** A preparation of an unknown operation. *)
Lemma prepared_fresh config su args w w1 reply oid op :
  prepare_privileged config su args w = (w1, Ok reply) -> su_linux su = true ->
  dget oid (wk_operations w) = None -> dget oid (wk_operations w1) = Some op ->
  exists params, privileged_params config su args = Ok params /\ jget "operation_id" args = JStr oid /\
    op = prepared su (fresh_op oid "privileged" params) /\ wk_epoch w1 = wk_epoch w /\
    envelope_length config w1 op params <= MAX_ENVELOPE_BYTES.
Proof.
  intros H Hl Hn Ho. unfold prepare_privileged, sbind, sguard, sget, wlift, slift, sret, smodify, wfail, sthrow in H.
  destruct (su_windows su); [done|]. cbv beta iota in H. destruct (privileged_params config su args) as [params|]; [|done].
  pose proof (record_cases config (jget "operation_id" args) "privileged" params w) as Hc.
  pose proof (recorded_id config (jget "operation_id" args) "privileged" params w) as Hi.
  destruct (_record config _ "privileged" params w) as [w2 [[op0 [|]]|]]; cbv beta iota in H; [| |done].
  - specialize (Hi _ _ _ eq_refl). destruct Hc as (oid' & Hne & -> & Hn' & _ & ->). cbn [fst snd] in H. rewrite Hl in H. cbn [orb andb] in H.
    destruct (_ <? _) eqn:Elen; [done|]. injection H as <- _. apply Z.ltb_ge in Elen. cbn in Hi. rewrite Hi. exists params.
    unfold set_op in Ho. cbn [wk_operations set_operations] in Ho. rewrite dget_dset in Ho. case_decide as E; [|rewrite dget_dset_ne in Ho by exact E; congruence].
    injection Ho as <-. cbn in E. subst oid'. split_and!; try done.
  - destruct Hc as [-> _]. injection H as <- _. congruence.
Qed.

(** A signature is 64 bytes in hexadecimal. *)
Definition hex_signature (s : string) : Prop := String.length s = 128%nat /\ plain_text s.

Lemma sorted_envelope config w op :
  sorted_members (grant_envelope config w op) =
    [("approval", sort_keys (JObj (approval_payload config w op))); ("args", sort_keys (JObj (op_args op))); ("signature", JStr (op_approval_signature op))].
Proof. reflexivity. Qed.

Lemma envelope_text a args s :
  canonical_json (JObj [("approval", a); ("args", args); ("signature", JStr s)]) =
    lit "{" ++ ((json_string "approval" ++ lit ":" ++ canonical_json a) ++ lit "," ++
      (json_string "args" ++ lit ":" ++ canonical_json args) ++ lit "," ++ (json_string "signature" ++ lit ":" ++ json_string s)) ++ lit "}".
Proof. reflexivity. Qed.

(** The length that [prepare_privileged] checked is the length that is sent. *)
Lemma envelope_fits config w op params signature :
  hex_signature signature -> envelope_length config w op params <= MAX_ENVELOPE_BYTES -> op_args op = params ->
  Z.of_nat (length (b64encode (canonical_json (JObj (grant_envelope config w (approved signature op)))))) <= MAX_ENVELOPE_BYTES.
Proof.
  intros [Hlen Hp] Hle Ha. rewrite b64encode_length. unfold envelope_length, base64_length in Hle. subst params.
  assert (Hz : hex_signature zeros).
  { split; [done|]. unfold plain_text. apply (Forall_impl (fun c => c = 48)); [|by intros ? ->]. by repeat constructor. }
  assert (E : forall s, hex_signature s -> length (json_string s) = 130%nat).
  { intros s [Hs Hps]. rewrite plain_json, !length_app by done. assert (H : length (string_bytes s) = String.length s) by (clear; induction s; simpl; congruence).
    rewrite H, Hs. done. }
  unfold grant_envelope. change (op_approval_signature _) with signature. rewrite envelope_text in Hle |- *. rewrite !length_app in Hle |- *.
  rewrite (E zeros Hz) in Hle. by rewrite (E signature) by done.
Qed.

(** The envelope as the helper reads it. *)
Definition received (config : WorkerConfig) (w : Worker) (op : Operation) : envelope :=
  Envelope (sorted_members (approval_payload config w op)) (sorted_members (op_args op)) (op_approval_signature op).

Lemma envelope_received config w op client :
  json_ok (JObj (grant_envelope config w op)) ->
  Z.of_nat (length (b64encode (canonical_json (JObj (grant_envelope config w op))))) <= MAX_ENVELOPE_BYTES ->
  parse_request client (string_bytes (management_payload config w op)) = Some (AskExecute (received config w op)).
Proof.
  intros Hok Hlen. unfold parse_request, management_payload. rewrite string_bytes_of_bytes by apply b64encode_bytes, canonical_bytes.
  rewrite (proj2 (Z.ltb_ge _ _)) by exact Hlen. rewrite b64_roundtrip by apply canonical_bytes.
  rewrite <- (app_nil_r (canonical_json _)), canonical_loads by (done || constructor). reflexivity.
Qed.

(** The identities and the epoch are text. *)
Record identities_ok (config : WorkerConfig) (w : Worker) : Prop := {
  io_client : text_ok (cf_client_id config);
  io_worker : text_ok (cf_worker_id config);
  io_epoch : text_ok (wk_epoch w)
}.

Lemma key_ok k : k ∈ ["protocol"; "client_id"; "worker_id"; "runtime_epoch"; "operation_id"; "fingerprint"; "nonce"; "expires_at"; "target";
    "pal-shell-approval.v1"; "approval"; "args"; "signature"; "state"; "returncode"; "mode"; "query"; "status"; "ok"; "signed_sudoers";
    "allowed_actions"; "stdin_version"; "privileged"; "pending"; "not_started"; "complete"; "unknown"] -> text_ok k.
Proof. intros H. apply ascii_ok. revert k H. apply Forall_forall. repeat (constructor; [by repeat constructor; simpl; lia|]). constructor. Qed.

Ltac ok_key := apply key_ok, (bool_decide_eq_true_1 (_ ∈ _)); vm_compute; reflexivity.

Lemma payload_ok config w op :
  identities_ok config w -> text_ok (op_operation_id op) -> text_ok (op_fingerprint op) -> text_ok (op_nonce op) -> json_ok (JObj (op_args op)) ->
  json_ok (JObj (approval_payload config w op)).
Proof. intros [H1 H2 H3] H4 H5 H6 H7. unfold approval_payload. ok_members. all: try done; try ok_key. by apply ok_jget. Qed.

Lemma grant_envelope_ok config w op :
  json_ok (JObj (approval_payload config w op)) -> json_ok (JObj (op_args op)) -> text_ok (op_approval_signature op) ->
  json_ok (JObj (grant_envelope config w op)).
Proof. intros H1 H2 H3. unfold grant_envelope. ok_members. all: try done; ok_key. Qed.

(** Digests of the read arguments are digests of the written ones. *)
Lemma digest_sorted method args : json_ok (JObj args) ->
  digest (JList [JStr method; JObj (sorted_members args)]) = digest (JList [JStr method; JObj args]).
Proof.
  intros H. unfold digest. f_equal. rewrite !canonical_written. f_equal.
  change (sort_keys (JList [JStr method; JObj (sorted_members args)])) with (JList [JStr method; sort_keys (sort_keys (JObj args))]).
  by rewrite sort_keys_idem.
Qed.

(** ** What the helper makes of it *)

Section helper.
Variable config : WorkerConfig.
Variable su : surroundings.
Variable check_signature : string -> string -> bytes -> bool.
Variable machine_id : string.
Variable cfg : installation.
Hypothesis on_linux : su_linux su = true.
Hypothesis expands : forall s, text_ok s -> text_ok (su_expanduser su s).
Hypothesis nonce_ok : plain_text (su_nonce su) /\ 16 <= Z.of_nat (length (string_bytes (su_nonce su))).
(** The helper was installed for this worker, and has told it its allowed actions. *)
Hypothesis same_client : hc_client_id (in_policy cfg) = cf_client_id config.
Hypothesis same_worker : hc_worker_id (in_policy cfg) = cf_worker_id config.
Hypothesis same_key : hc_client_public_key (in_policy cfg) = cf_client_public_key config.
Hypothesis same_machines : hc_protected_machine_ids (in_policy cfg) = cf_protected_machine_ids config.
Hypothesis same_machine : su_machine_identity su = "linux:" +:+ machine_id.
Hypothesis told : su_status su = status_reply cfg.

Lemma helper_verifies w oid params action signature now :
  params_good config su params action -> identities_ok config w -> text_ok oid -> wk_epoch w <> "" ->
  let op := approved signature (prepared su (fresh_op oid "privileged" params)) in
  jget "target" params = JInt (hc_target (in_policy cfg)) ->
  check_signature (cf_client_public_key config) signature (canonical_json (JObj (approval_payload config w op))) = true ->
  now < su_now su + 600 -> su_now su <= now + 10 ->
  verify check_signature machine_id (in_policy cfg) (received config w op) now = Some action.
Proof.
  intros [Hok Hnorm Hman _ Hall Hsd] Hid Hoid Hep op Ht Hsig Hn1 Hn2. set (pay := approval_payload config w op) in *.
  assert (Hpay : json_ok (JObj pay)).
  { apply payload_ok; try done; [apply digest_ok|]. by apply plain_ok, nonce_ok. }
  assert (Hpw : dwf pay) by apply Hpay. assert (Hwf : dwf params) by apply Hok.
  unfold verify, received. cbn [en_approval en_args en_signature]. fold pay. change (op_args op) with params. change (op_approval_signature op) with signature.
  change (JObj (sorted_members pay)) with (sort_keys (JObj pay)). rewrite canonical_sorted, same_key, Hsig by done. cbn [negb].
  rewrite !(jget_sorted pay), !(jget_sorted params) by done. rewrite Ht, digest_sorted, same_worker, same_client by done.
  change (jget "protocol" pay) with (JStr "pal-shell-approval.v1"). change (jget "worker_id" pay) with (JStr (cf_worker_id config)).
  change (jget "client_id" pay) with (JStr (cf_client_id config)). change (jget "target" pay) with (jget "target" params). rewrite Ht.
  change (jget "runtime_epoch" pay) with (JStr (wk_epoch w)). change (jget "expires_at" pay) with (JInt (su_now su + 600)).
  change (jget "fingerprint" pay) with (JStr (digest (JList [JStr "privileged"; JObj params]))). change (jget "nonce" pay) with (JStr (su_nonce su)).
  cbn [sort_keys py_eq truthy]. rewrite !(bool_decide_eq_true_2 (_ = _)), !Z.eqb_refl, (proj2 (str_truthy_spec _)) by done.
  rewrite (proj2 (Z.ltb_lt _ _)), (proj2 (Z.leb_le (su_now su + 600) _)) by lia. cbn [andb negb].
  rewrite (decode_encode (string_bytes (su_nonce su)) (string_bytes (su_nonce su))) by (by apply encode_ascii, plain_ascii, nonce_ok).
  cbn [default from_option id]. rewrite (proj2 (Z.leb_le 16 _)) by apply nonce_ok. cbn [negb].
  rewrite normalize_sorted, Hnorm by done.
  rewrite (bool_decide_eq_true_2 (_ ∈ hc_allowed_actions _)).
  2:{ rewrite told in Hall. cbn in Hall. apply existsb_exists in Hall as (v & Hin & He). apply list_elem_of_In, list_elem_of_fmap in Hin as (x & -> & Hx).
      cbn in He. apply bool_decide_eq_true in He as <-. done. }
  pose proof (ok_jget "management" _ Hok) as Hact. rewrite Hman in Hact |- *. rewrite py_eq_sorted by done. cbn [negb].
  case_bool_decide as Esd; [|done]. destruct (Hsd Esd) as (Htr & Hne & Hnin). rewrite same_machine in Hne, Hnin.
  rewrite (bool_decide_eq_false_2 (_ ∈ hc_protected_machine_ids _)) by (by rewrite same_machines).
  cbn [existsb]. rewrite !py_eq_str_sorted, Hne. destruct (jget "protected_machine_id" params) as [| | |m| |]; try done.
  cbn. rewrite (bool_decide_eq_false_2 (m = "")); [done|]. intros ->. done.
Qed.

(** The worker accepts the single use that the helper asks for. *)
Lemma helper_consumes w w2 su2 oid params signature :
  let op := approved signature (prepared su (fresh_op oid "privileged" params)) in
  json_ok (JObj (approval_payload config w op)) ->
  dget oid (wk_operations w2) = Some op -> wk_epoch w2 = wk_epoch w -> wk_closed w2 = false -> su_now su2 <= su_now su + 600 ->
  su_signature su2 (cf_client_public_key config) signature (canonical_json (JObj (approval_payload config w op))) = true ->
  let e := received config w op in
  consume_authentication config su2 true [("approval", JObj (en_approval e)); ("signature", JStr (en_signature e))] w2 = (set_op (consumed op) w2, Ok true).
Proof.
  intros op Hok Ho Hep Hc Ht Hsig e. unfold consume_authentication, sbind, sget, smodify, sret.
  assert (Epay : approval_payload config w2 op = approval_payload config w op) by (unfold approval_payload; by rewrite Hep).
  assert (Hwf : dwf (approval_payload config w op)) by apply Hok.
  change (dget "approval" [("approval", JObj (en_approval e)); ("signature", JStr (en_signature e))]) with (Some (JObj (en_approval e))).
  cbn [default from_option id]. change (en_approval e) with (sorted_members (approval_payload config w op)).
  rewrite jget_sorted by done. change (jget "operation_id" (approval_payload config w op)) with (JStr oid). cbn [sort_keys]. rewrite Ho.
  change (op_method op) with "privileged". rewrite bool_decide_eq_true_2 by done. cbn [negb orb andb]. rewrite Hc, Epay.
  change (op_auth_available op) with true. change (op_auth_consumed op) with false. change (op_expires_at op) with (su_now su + 600).
  rewrite (proj2 (Z.ltb_ge _ _)) by lia. change (JObj (sorted_members ?p)) with (sort_keys (JObj p)). rewrite py_eq_sorted, canonical_sorted by done.
  cbn [negb orb]. change (jget "signature" _) with (JStr signature). cbv beta iota. by rewrite Hsig.
Qed.
End helper.

(** What the shell makes of the command lines. *)
Lemma helper_words config : shlex_split (helper_line config) = Some ["/usr/bin/sudo"; "-n"; "--"; cf_management_helper config].
Proof. apply shlex_split_join. Qed.

Lemma management_words config w op :
  shlex_split (management_line config w op) =
    Some (["printf"; "%s"; management_payload config w op; "|"] ++ ["/usr/bin/sudo"; "-n"; "--"; cf_management_helper config]).
Proof.
  change (management_line config w op) with
    (join " " (["printf"; "%s"; shlex_quote (management_payload config w op); "|"] ++ (shlex_quote <$> ["/usr/bin/sudo"; "-n"; "--"; cf_management_helper config]))).
  apply split_reads, Forall2_app; [|apply quotes_read].
  assert (Hp : forall t, plain_word t -> reads t t) by apply plain_reads.
  repeat constructor; try apply quote_reads; apply Hp; by repeat constructor.
Qed.

(** ** From the approval to the command *)

(** The helper was installed for this worker and machine, and has told the worker which
    actions it allows. *)
Record installed_for (config : WorkerConfig) (su : surroundings) (machine_id : string) (cfg : installation) : Prop := {
  if_client : hc_client_id (in_policy cfg) = cf_client_id config;
  if_worker : hc_worker_id (in_policy cfg) = cf_worker_id config;
  if_key : hc_client_public_key (in_policy cfg) = cf_client_public_key config;
  if_machines : hc_protected_machine_ids (in_policy cfg) = cf_protected_machine_ids config;
  if_machine : su_machine_identity su = "linux:" +:+ machine_id;
  if_told : su_status su = status_reply cfg
}.

Definition CONFIG_PATH : string := "/usr/local/etc/pal-shell-management.toml".


(** ** The installed files stay what they are *)

Lemma elem_of_lineage p q : q ∈ lineage p <-> q `prefix_of` p.
Proof.
  unfold lineage. rewrite list_elem_of_fmap. setoid_rewrite elem_of_reverse. setoid_rewrite elem_of_seq. split.
  - intros (n & -> & _). exists (drop n p). by rewrite take_drop.
  - intros [r ->]. exists (length q). rewrite take_app_length, length_app. split; [done|]. lia.
Qed.

(** What an account other than root can do to a directory tree: anything below an entry of a
    directory that it owns or that others may write, and anything to an entry it owns. *)
Inductive user_step (uid : Z) (t t' : path -> option stat) : Prop :=
| us_entry d name s :
    t d = Some s -> st_uid s = uid \/ Z.land (st_mode s) 18 <> 0 -> (forall q, ~ d ++ [name] `prefix_of` q -> t' q = t q) -> user_step uid t t'
| us_own p s : t p = Some s -> st_uid s = uid -> (forall q, q <> p -> t' q = t q) -> user_step uid t t'.

Lemma root_owned t p : owned_by_root t p = true -> exists s, t p = Some s /\ st_uid s = 0 /\ Z.land (st_mode s) 18 = 0.
Proof. unfold owned_by_root. destruct (t p) as [s|]; [|done]. intros H. bool_to_prop. by exists s. Qed.

Lemma user_step_lineage uid t t' p :
  uid <> 0 -> forallb (owned_by_root t) (lineage p) = true -> user_step uid t t' -> forall q, q ∈ lineage p -> t' q = t q.
Proof.
  intros Hu H Hs. rewrite forallb_forall in H.
  assert (Hown : forall q, q `prefix_of` p -> exists s, t q = Some s /\ st_uid s = 0 /\ Z.land (st_mode s) 18 = 0).
  { intros q Hq. apply root_owned, H, list_elem_of_In. by apply elem_of_lineage. }
  intros q Hq%elem_of_lineage. destruct Hs as [d name s Hd Hw Hsame|r s Hr Hw Hsame]; apply Hsame.
  - intros Hp. destruct (Hown d) as (s' & E & E1 & E2); [etransitivity; [by eexists|]; by etransitivity|].
    rewrite Hd in E. injection E as <-. destruct Hw; [congruence|done].
  - intros ->. destruct (Hown r Hq) as (s' & E & E1 & _). rewrite Hr in E. injection E as <-. congruence.
Qed.

(** A helper that the worker trusts, and a file that the root helper reads, cannot be
    replaced by another account: whatever such an account does, every directory on the way
    and the file stay the same, and the check goes on to hold. *)
Theorem trusted_files_stay uid t t' name directory :
  uid <> 0 -> rtc (user_step uid) t t' ->
  (trusted_executable t name = true -> trusted_executable t' name = true /\ forall q, q ∈ lineage (path_parts name) -> t' q = t q) /\
  (protected t directory name = true -> protected t' directory name = true /\ forall q, q ∈ lineage (path_parts name) -> t' q = t q).
Proof.
  intros Hu Hr. set (p := path_parts name).
  assert (K : forallb (owned_by_root t) (lineage p) = true -> forall q, q ∈ lineage p -> t' q = t q).
  { induction Hr as [|t t1 t2 Hs _ IH]; [done|]. intros H q Hq. pose proof (user_step_lineage _ _ _ _ Hu H Hs) as H1.
    rewrite IH; [by apply H1| |done]. apply forallb_forall. intros r Hr%list_elem_of_In. rewrite forallb_forall in H.
    unfold owned_by_root. rewrite H1 by done. apply H. by apply list_elem_of_In. }
  assert (Hself : p ∈ lineage p) by (apply elem_of_lineage; by eexists []; rewrite app_nil_r).
  assert (K2 : (forall q, q ∈ lineage p -> t' q = t q) -> forallb (owned_by_root t') (lineage p) = forallb (owned_by_root t) (lineage p)).
  { intros H. apply eq_iff_eq_true. rewrite !forallb_forall. split; intros X q Hq; specialize (X q Hq); apply list_elem_of_In in Hq; unfold owned_by_root in *; by rewrite H in * by done. }
  split; unfold trusted_executable, protected; fold p; intros H.
  - assert (Hl : forallb (owned_by_root t) (lineage p) = true) by (bool_to_prop; done). specialize (K Hl). by rewrite (K2 K), K.
  - assert (Hl : forallb (owned_by_root t) (lineage p) = true) by (bool_to_prop; done). specialize (K Hl). by rewrite (K2 K), K.
Qed.

(** ** Where a password is needed *)

Lemma text_of_ok s : text_ok s -> utf8_decode (string_bytes s) = Some (text_of s).
Proof. intros (t & Hd & _)%text_ok_chars. unfold text_of. by rewrite Hd. Qed.

Lemma lstrip_spaces l t : Forall (fun c => text_space c = true) l -> lstrip (l ++ t) = lstrip t.
Proof. induction 1 as [|c l Hc _ IH]; [done|]. cbn. by rewrite Hc. Qed.

Lemma lstrip_word c t : text_space c = false -> lstrip (c :: t) = c :: t.
Proof. intros H. cbn. by rewrite H. Qed.

(** A line of [ps]: padding, the user, a gap, the command, the end of the line. *)
Lemma ps_fields pad gap c line :
  Forall (fun x => text_space x = true) pad -> Forall (fun x => text_space x = true) gap -> gap <> [] -> text_space c = false ->
  (forall x, last (c :: line) = Some x -> text_space x = false) ->
  split_two (strip_text (pad ++ lit "0" ++ gap ++ (c :: line) ++ [10])) = Some (lit "0", c :: line).
Proof.
  intros Hp Hg Hne Hc Hlast. unfold strip_text. change (lit "0") with [48]. rewrite lstrip_spaces by done. cbn [app].
  rewrite lstrip_word by done.
  replace (48 :: gap ++ c :: line ++ [10]) with ((48 :: gap ++ c :: line) ++ [10]) by (by cbn; rewrite <- app_assoc).
  rewrite reverse_snoc. cbn [lstrip]. change (text_space 10) with true. cbv iota.
  assert (E : lstrip (reverse (48 :: gap ++ c :: line)) = reverse (48 :: gap ++ c :: line)).
  { destruct (exists_last (l := c :: line)) as (l' & x & Ex); [done|]. rewrite Ex in Hlast |- *. specialize (Hlast x ltac:(by rewrite last_snoc)).
    rewrite reverse_cons, reverse_app, reverse_snoc. cbn [app]. by rewrite lstrip_word. }
  rewrite E, reverse_involutive. unfold split_two. rewrite lstrip_word by done. cbn [until_space]. change (text_space 48) with false. cbv iota.
  destruct gap as [|g gap]; [done|]. apply Forall_cons in Hg as [Hg1 Hg]. cbn [app until_space]. rewrite Hg1.
  change (g :: gap ++ c :: line) with ((g :: gap) ++ c :: line). rewrite lstrip_spaces by (by constructor). by rewrite lstrip_word.
Qed.

Section password.
Variable config : WorkerConfig.
Variable check : string -> string -> bytes -> bool.
Variable ask : askpass_config.

(** The checks of [approved_grant], one by one. *)
Lemma approved_grant_facts raw now grant args signature :
  approved_grant check ask raw now = Some (grant, args, signature) ->
  check (ak_client_public_key ask) signature (canonical_json (JObj grant)) = true /\ jget "action" args = JStr "sudo" /\
  jget "fingerprint" grant = JStr (digest (JList [JStr "privileged"; JObj args])) /\
  exists t, jget "expires_at" grant = JInt t /\ now <= t.
Proof.
  unfold approved_grant. destruct (_ <? _); [done|]. destruct (urlsafe_b64decode _) as [data|]; [|done]. cbn [mbind option_bind].
  destruct (json_loads data) as [[| | | | |env]|]; try done. destruct (dget "approval" env) as [[| | | | |g]|]; try done.
  destruct (dget "args" env) as [[| | | | |a]|]; try done. destruct (dget "signature" env) as [[| | |s| |]|]; try done.
  destruct (_ && _) eqn:E; [|done]. intros [= -> -> ->]. apply andb_true_iff in E as [E Hf]. apply andb_true_iff in E as [E Ha].
  apply andb_true_iff in E as [E Ht]. apply andb_true_iff in E as [E _]. apply andb_true_iff in E as [E _]. apply andb_true_iff in E as [E _].
  split_and!; [done|by apply py_eq_text|by apply py_eq_text|]. destruct (jget "expires_at" grant) as [| |t| | |]; try done. exists t. split; [done|lia].
Qed.

(** How the worker answers [consume_privileged]. *)
Definition worker_consumes (su : surroundings) (w : Worker) (grant : obj) (signature : string) : bool :=
  match (consume_authentication config su false [("approval", JObj grant); ("signature", JStr signature)] w).2 with Ok b => b | Raise _ => false end.

Lemma consumed_grant su w grant signature :
  worker_consumes su w grant signature = true ->
  exists oid op, dget oid (wk_operations w) = Some op /\ op_method op = "privileged" /\ is_sudo op = true /\
    op_auth_available op = true /\ op_auth_consumed op = false /\ su_now su <= op_expires_at op /\
    py_eq (JObj grant) (JObj (approval_payload config w op)) = true.
Proof.
  unfold worker_consumes, consume_authentication, sbind, sget, wfail, sthrow.
  change (dget "approval" _) with (Some (JObj grant)). cbn [default from_option id].
  destruct (jget "operation_id" grant) as [| | |oid| |]; try done. destruct (dget oid (wk_operations w)) as [op|] eqn:Eo; [|done].
  destruct (_ || (negb false && _)) eqn:E1; [done|]. apply orb_false_iff in E1 as [E1 E1']. cbn [negb andb] in E1'.
  destruct (_ || negb (py_eq _ _)) eqn:E2; [done|]. apply orb_false_iff in E2 as [E2 E3]. apply orb_false_iff in E2 as [E2 E4].
  apply orb_false_iff in E2 as [E2 E5]. apply orb_false_iff in E2 as [E2 E6]. apply negb_false_iff in E1, E1', E3, E6. apply bool_decide_eq_true in E1.
  intros _. exists oid, op. apply Z.ltb_ge in E4. done.
Qed.

(** C20: a password is given out only for an approved command: the worker holds a privileged
    operation whose single use was still open, its fingerprint is that of the arguments in
    the signed approval, and the process that asks is one of root whose command line is the
    one of these arguments. *)
Theorem password_only_for_approved_command su w raw now observed same :
  authorize check ask raw now observed same (worker_consumes su w) = true ->
  exists oid op grant args signature argv,
    dget oid (wk_operations w) = Some op /\ is_sudo op = true /\ op_auth_available op = true /\ op_auth_consumed op = false /\
    su_now su <= op_expires_at op /\
    check (ak_client_public_key ask) signature (canonical_json (JObj grant)) = true /\
    py_eq (JObj grant) (JObj (approval_payload config w op)) = true /\
    op_fingerprint op = digest (JList [JStr "privileged"; JObj args]) /\
    sudo_argv (ak_privilege_helper ask) (ak_shell ask) args = Some argv /\ same = true /\
    exists t, utf8_decode observed = Some t /\ split_two (strip_text t) = Some (lit "0", text_of (join " " argv)).
Proof.
  unfold authorize. destruct (approved_grant check ask raw now) as [[[grant args] signature]|] eqn:Eg; [|done].
  destruct (approved_grant_facts _ _ _ _ _ Eg) as (Hs & _ & Hf & _). destruct (parent_runs ask args observed same) eqn:Ep; [|done].
  intros (oid & op & Ho & _ & Hsudo & Ha & Hc & Ht & Heq)%consumed_grant.
  unfold parent_runs in Ep. destruct (utf8_decode observed) as [t|]; [|done]. destruct (sudo_argv _ _ args) as [argv|] eqn:Ea; [|done].
  destruct (split_two (strip_text t)) as [[uid line]|] eqn:E2; [|done]. bool_to_prop. subst uid line same.
  exists oid, op, grant, args, signature, argv. split_and!; try done; [|by exists t].
  cbn [py_eq] in Heq. apply andb_true_iff in Heq as [_ Heq]. rewrite forallb_forall in Heq. unfold jget in Hf.
  destruct (dget "fingerprint" grant) as [v|] eqn:Ef; [|done]. cbn [default from_option id] in Hf. subst v. apply dget_elem, list_elem_of_In in Ef. apply Heq in Ef. cbn [fst snd] in Ef.
  change (dget "fingerprint" (approval_payload config w op)) with (Some (JStr (op_fingerprint op))) in Ef. cbv beta iota in Ef.
  apply py_eq_text in Ef. by injection Ef.
Qed.
End password.

Lemma urlsafe_bytes l : Forall byte l -> Forall byte (urlsafe_b64encode l).
Proof. intros H. unfold urlsafe_b64encode. apply Forall_fmap. eapply Forall_impl; [by apply b64encode_bytes|]. intros c Hc. by apply to_url_byte. Qed.

Lemma text_of_slash s : exists t, text_of (String "/" s) = 47 :: t.
Proof.
  unfold text_of. change (string_bytes (String "/" s)) with (47 :: string_bytes s).
  change (utf8_decode (47 :: string_bytes s)) with (cons 47 <$> utf8_decode (string_bytes s)). destruct (utf8_decode _); by eexists.
Qed.

Lemma sudo_argv_sorted helper shell args : dwf args -> sudo_argv helper shell (sorted_members args) = sudo_argv helper shell args.
Proof.
  intros H. unfold sudo_argv, stdin_identity. rewrite jget_sorted, dget_sorted, stdin_bytes_sorted by done. by destruct (dget "cmd" args) as [[]|].
Qed.

Lemma sudo_starts helper shell args argv : sudo_argv helper shell args = Some argv -> exists s, join " " argv = String "/" s.
Proof.
  unfold sudo_argv. destruct (stdin_identity _) as [identity|]; [|done]. destruct (dget "cmd" args) as [[]|]; try done.
  intros [= <-]. by eexists.
Qed.

(** An approved command can authenticate: the shell starts [sudo] with the arguments and the
    grant of the operation, and when [ps] shows this process, the checks pass and the worker
    decides.  The command line must not end with space, which [ps] cannot show. *)
Theorem approved_command_authenticates config check ask w op run argv observed pad gap now :
  ak_client_public_key ask = cf_client_public_key config -> ak_worker_id ask = cf_worker_id config -> ak_client_id ask = cf_client_id config ->
  ak_privilege_helper ask = cf_privilege_helper config -> ak_shell ask = cf_shell config ->
  json_ok (JObj (approval_payload config w op)) -> json_ok (JObj (op_args op)) -> text_ok (op_approval_signature op) ->
  op_fingerprint op = digest (JList [JStr "privileged"; JObj (op_args op)]) -> is_sudo op = true ->
  check (cf_client_public_key config) (op_approval_signature op) (canonical_json (JObj (approval_payload config w op))) = true ->
  Z.of_nat (length (text_of (privileged_grant config w op))) <= 65536 -> now <= op_expires_at op ->
  sudo_argv (cf_privilege_helper config) (cf_shell config) (op_args op) = Some argv -> privileged_run config w op = Some run ->
  Forall (fun x => text_space x = true) pad -> Forall (fun x => text_space x = true) gap -> gap <> [] ->
  (forall x, last (text_of (join " " argv)) = Some x -> text_space x = false) ->
  utf8_decode observed = Some (pad ++ lit "0" ++ gap ++ text_of (join " " argv) ++ [10]) ->
  shlex_split (nr_command run) = Some (["exec"; "/usr/bin/env"; "SUDO_ASKPASS=" +:+ cf_askpass_helper config;
    "PAL_SHELL_APPROVAL=" +:+ privileged_grant config w op] ++ argv) /\
  forall consume, authorize check ask (privileged_grant config w op) now observed true consume =
    consume (sorted_members (approval_payload config w op)) (op_approval_signature op).
Proof.
  intros K1 K2 K3 K4 K5 Hpay Hargs Hsig Hf Hsudo Hchk Hlen Hexp Hargv Hrun Hp Hg Hne Hlast Hobs. split.
  - unfold privileged_run, privileged_argv in Hrun. rewrite Hargv in Hrun. cbn [mbind option_bind] in Hrun. injection Hrun as <-. cbn [nr_command].
    change ("exec " +:+ shlex_join ?a) with (join " " (["exec"] ++ (shlex_quote <$> a))).
    apply (split_reads _ (["exec"] ++ _)). apply Forall2_app; [|apply quotes_read]. constructor; [|constructor]. apply plain_reads. by repeat constructor.
  - intros consume.
    assert (Eg : approved_grant check ask (privileged_grant config w op) now =
      Some (sorted_members (approval_payload config w op), sorted_members (op_args op), op_approval_signature op)).
    { unfold approved_grant. rewrite (proj2 (Z.ltb_ge _ _)) by exact Hlen. unfold privileged_grant.
      rewrite string_bytes_of_bytes by apply urlsafe_bytes, canonical_bytes. rewrite urlsafe_roundtrip by apply canonical_bytes. cbn [mbind option_bind].
      rewrite <- (app_nil_r (canonical_json _)), canonical_loads by (done || (by apply grant_envelope_ok) || constructor).
      change (sort_keys (JObj (grant_envelope config w op))) with (JObj (sorted_members (grant_envelope config w op))). rewrite sorted_envelope. cbv beta iota.
      change (dget "approval" _) with (Some (sort_keys (JObj (approval_payload config w op)))). change (dget "args" _) with (Some (sort_keys (JObj (op_args op)))).
      change (dget "signature" _) with (Some (JStr (op_approval_signature op))). cbn [sort_keys]. fold (sorted_members (approval_payload config w op)). fold (sorted_members (op_args op)).
      assert (Hpw : dwf (approval_payload config w op)) by apply Hpay. assert (Haw : dwf (op_args op)) by apply Hargs.
      change (JObj (sorted_members (approval_payload config w op))) with (sort_keys (JObj (approval_payload config w op))).
      rewrite canonical_sorted, K1, Hchk, !jget_sorted, digest_sorted, <- Hf, K2, K3 by done. cbn [andb].
      change (jget "protocol" _) with (JStr "pal-shell-approval.v1"). change (jget "worker_id" _) with (JStr (cf_worker_id config)).
      change (jget "client_id" _) with (JStr (cf_client_id config)). change (jget "expires_at" _) with (JInt (op_expires_at op)).
      change (jget "fingerprint" _) with (JStr (op_fingerprint op)). rewrite (py_eq_str_sorted (jget "action" (op_args op))). unfold is_sudo in Hsudo. rewrite Hsudo.
      cbn [sort_keys py_eq]. by rewrite !bool_decide_eq_true_2, (proj2 (Z.leb_le _ _)) by done. }
    unfold authorize. rewrite Eg. unfold parent_runs. rewrite Hobs, sudo_argv_sorted, K4, K5, Hargv by apply Hargs.
    destruct (sudo_starts _ _ _ _ Hargv) as [s Es]. destruct (text_of_slash s) as [line El]. rewrite Es in *. rewrite El in *.
    by rewrite ps_fields, !bool_decide_eq_true_2 by done.
Qed.

(** The check compares lines, not arguments: a command line that ends with space is refused
    although it was approved, ... *)
Example trailing_space_is_refused :
  let ask := AskpassConfig "key" "w" "c" "/helper" "/bin/sh" in
  let args := [("action", JStr "sudo"); ("cmd", JStr "ls ")] in
  exists argv, sudo_argv "/helper" "/bin/sh" args = Some argv /\
    parent_runs ask args (lit "    0 " ++ string_bytes (join " " argv) ++ [10]) true = false.
Proof. eexists. split; [reflexivity|]. vm_compute. reflexivity. Qed.

(** ... and an approval of a command with input is also taken for a process that runs another
    command without input. *)
Example other_arguments_are_accepted :
  let ask := AskpassConfig "key" "w" "c" "/helper" "/bin/sh" in
  let args := [("action", JStr "sudo"); ("cmd", JStr "tee /etc/motd"); ("stdin", JStr "x")] in
  exists argv other, sudo_argv "/helper" "/bin/sh" args = Some argv /\ argv <> other /\ length other = 7%nat /\
    parent_runs ask args (lit "    0 " ++ string_bytes (join " " other) ++ [10]) true = true.
Proof.
  eexists. exists ["/usr/bin/sudo"; "-A"; "-k"; "--"; "/helper"; "/bin/sh"; "tee /etc/motd 1 " +:+ sha256_hex (lit "x")].
  split; [reflexivity|]. split_and!; [done|done|]. vm_compute. reflexivity.
Qed.

(** ** What the worker reads of the helper *)

Lemma status_request_read client epoch operation :
  match operation with Some oid => text_ok oid /\ text_ok epoch | None => True end ->
  Z.of_nat (length (status_request epoch operation)) <= MAX_INPUT ->
  parse_request client (status_request epoch operation) =
    Some match operation with None => AskStatus | Some oid => AskJournal (digest (JList [JStr client; JStr epoch; JStr oid])) end.
Proof.
  intros Hok Hlen. unfold parse_request. rewrite (proj2 (Z.ltb_ge _ _)) by exact Hlen. unfold status_request.
  rewrite b64_roundtrip by apply canonical_bytes. rewrite <- (app_nil_r (canonical_json _)), canonical_loads; [|destruct operation as [oid|]|constructor|done].
  - by destruct operation.
  - destruct Hok. ok_members. all: try done; ok_key.
  - ok_members. all: ok_key.
Qed.

(** The worker learns from the helper what the helper knows: its answer to a status request
    is the list of allowed actions, and its answer to a query is the record of the operation
    in the journal, or that there is none; the journal files this record under the grant of
    the operation. *)
Theorem worker_reads_helper_state lstat cfg stored epoch oid grant e :
  protected lstat false CONFIG_PATH = true -> protected lstat true (in_state_directory cfg) = true ->
  Forall text_ok (hc_allowed_actions (in_policy cfg)) -> text_ok oid -> text_ok epoch -> text_ok (je_fingerprint e) ->
  jget "client_id" grant = JStr (hc_client_id (in_policy cfg)) -> jget "runtime_epoch" grant = JStr epoch -> jget "operation_id" grant = JStr oid ->
  Z.of_nat (length (status_request epoch (Some oid))) <= MAX_INPUT ->
  let run request := helper_main lstat cfg 0 1 (pretty (in_worker_uid cfg)) request stored in
  (exists out, run (status_request epoch None) = Printed out /\
    (Z.of_nat (length out) <= 8192 -> management_status true (Some (0, out)) = JObj (status_reply cfg))) /\
  (exists out, run (status_request epoch (Some oid)) = Printed out /\
    (dget (grant_key grant) stored = Some (canonical_json (JObj (stored_record oid epoch e))) -> Z.of_nat (length out) <= 8192 ->
      management_status true (Some (0, out)) = sort_keys (JObj (stored_record oid epoch e))) /\
    (dget (grant_key grant) stored = None -> management_status true (Some (0, out)) = JObj [("state", JStr "unknown")])).
Proof.
  intros Hc Hd Hact Hoid Hep Hfp G1 G2 G3 Hlen run.
  assert (Hrun : forall request, run request = match parse_request (hc_client_id (in_policy cfg)) request with
    | None => Refused | Some (AskExecute x) => Executes x
    | Some AskStatus => Printed (json_printed (JObj (status_reply cfg)) ++ [10])
    | Some (AskJournal key) => Printed (default (lit "{" ++ [34] ++ lit "state" ++ [34] ++ lit ":" ++ [34] ++ lit "unknown" ++ [34] ++ lit "}") (dget key stored) ++ [10]) end).
  { intros request. unfold run, helper_main. fold CONFIG_PATH. rewrite Hc, Hd, bool_decide_eq_true_2 by done. cbn [negb orb Z.eqb Nat.eqb]. by repeat case_match. }
  assert (Hnl : ascii_text [10] /\ skip_space [10] = []) by (split; [repeat constructor; lia|done]).
  split.
  - rewrite Hrun, status_request_read; [|done|vm_compute; congruence]. eexists. split; [done|]. intros Hsz.
    unfold management_status. rewrite (proj2 (Z.ltb_ge _ _)) by lia. cbn [negb Z.eqb]. rewrite printed_loads; [done| |apply Hnl..].
    ok_members. all: try done; try ok_key. cbn [json_ok]. by apply elements_ok, Forall_fmap.
  - rewrite Hrun, status_request_read; [|by split|exact Hlen].
    assert (Ek : digest (JList [JStr (hc_client_id (in_policy cfg)); JStr epoch; JStr oid]) = grant_key grant) by (unfold grant_key; by rewrite G1, G2, G3).
    rewrite Ek. eexists. split; [done|]. split; intros Hg; rewrite Hg; cbn [default from_option id]; unfold management_status.
    + intros Hsz. rewrite (proj2 (Z.ltb_ge _ _)) by lia. cbn [negb Z.eqb]. rewrite canonical_loads; [done| |apply Hnl..].
      unfold stored_record. destruct (je_returncode e), (je_state e); ok_members. all: first [exact I|assumption|ok_key].
    + vm_compute. reflexivity.
Qed.

(** ** Stopping a child *)

(** The helper leaves a child alone until there is a reason to stop it, then asks it to
    end, kills it when it is still there two seconds later, and kills what is left of its
    process group in any case. *)
Theorem child_is_stopped timeout started quiet t0 rest after :
  Forall (fun t => tn_poll t = None /\ must_stop timeout started t = false) quiet ->
  Forall (fun t => tn_poll t = None /\ must_stop timeout started t = true) (t0 :: rest) ->
  match after with t :: _ => is_Some (tn_poll t) | [] => True end ->
  run_child timeout started (quiet ++ after) = ([KILL], match after with t :: _ => tn_poll t | [] => None end) /\
  run_child timeout started (quiet ++ (t0 :: rest) ++ after) =
    (((fun t => if 2000 <? tn_now t - tn_now t0 then KILL else TERM) <$> t0 :: rest) ++ [KILL], match after with t :: _ => tn_poll t | [] => None end).
Proof.
  intros Hq Hb Ha.
  assert (Skip : forall l, supervise timeout started None (quiet ++ l) = supervise timeout started None l).
  { intros l. induction Hq as [|t q [H1 H2] _ IH]; [done|]. cbn [app supervise]. by rewrite H1, H2. }
  assert (End : forall at_, supervise timeout started at_ after = ([], match after with t :: _ => tn_poll t | [] => None end)).
  { intros at_. destruct after as [|t after]; [done|]. cbn [supervise]. by destruct Ha as [code ->]. }
  assert (Stop : forall l, Forall (fun t => tn_poll t = None /\ must_stop timeout started t = true) l ->
    supervise timeout started (Some (tn_now t0)) (l ++ after) =
      ((fun t => if 2000 <? tn_now t - tn_now t0 then KILL else TERM) <$> l, match after with t :: _ => tn_poll t | [] => None end)).
  { intros l. induction 1 as [|t l [H1 H2] _ IH]; [apply End|]. cbn [app supervise]. rewrite H1, H2. cbn [default from_option id]. by rewrite IH. }
  unfold run_child. rewrite !Skip. split; [by rewrite End|]. apply Forall_cons in Hb as [[H1 H2] Hb].
  cbn [app supervise]. rewrite H1, H2. cbn [default from_option id]. rewrite (Stop rest Hb). done.
Qed.

(** ** Witnesses *)

(** A machine on which everything belongs to root, except [/tmp/x]. *)
Definition root_tree (p : path) : option stat :=
  if decide (p = ["tmp"; "x"]) then Some (Stat 7 420 false true false false)
  else if decide (length p <= 4)%nat then Some (Stat 0 493 false true true true) else None.

Definition linux_config : WorkerConfig :=
  Config "w" "c" "key" "/bin/sh" 10 25 4 ["/sbin/poweroff"] [] "approval" "" "" "/helper" ["shell_command"].
Definition linux_cfg : installation :=
  Installation 7 "/state" (HelperConfig "key" "w" "c" 1 ["shell_command"] []).
Definition linux_su : surroundings :=
  Surroundings false true 100 "token" "0123456789abcdef" 1 1 (fun _ => true) (fun s => s) (status_reply linux_cfg) "linux:m" (fun _ _ _ => true)
    (fun _ => "sealed") JNull.
Definition linux_args : obj := [("operation_id", JStr "p1"); ("action", JStr "sudo"); ("target", JInt 1); ("cmd", JStr "id")].
Definition linux_prepared : Worker := (prepare_privileged linux_config linux_su linux_args (new_worker "epoch")).1.
Definition linux_op : Operation :=
  prepared linux_su (fresh_op "p1" "privileged" [("action", JStr "sudo"); ("target", JInt 1); ("cmd", JStr "id"); ("cwd", JStr "");
    ("management", JObj [("action", JStr "shell_command"); ("cmd", JStr "id"); ("cwd", JStr "/")])]).

Lemma zeros_signature : hex_signature zeros.
Proof. split; [done|]. unfold plain_text. apply (Forall_impl (fun c => c = 48)); [|by intros ? ->]. by repeat constructor. Qed.

Lemma plain_example s : forallb (fun c => (32 <=? c) && (c <=? 126) && negb (c =? 34) && negb (c =? 92)) (string_bytes s) = true -> plain_text s.
Proof. intros H. apply Forall_forall. intros c Hc. rewrite forallb_forall in H. apply list_elem_of_In, H in Hc. bool_to_prop. lia. Qed.

Lemma linux_json_ok : json_ok (JObj linux_args).
Proof. unfold linux_args. ok_members. all: first [exact I|apply plain_ok, plain_example; reflexivity]. Qed.


Lemma trusted_files_stay_witness : trusted_executable (fun p => if decide (p = ["tmp"; "x"]) then None else root_tree p) "/helper" = true.
Proof.
  apply (trusted_files_stay 7 root_tree _ "/helper" false); [done| |vm_compute; reflexivity].
  apply rtc_once, (us_own _ _ _ ["tmp"; "x"] (Stat 7 420 false true false false)); [reflexivity|done|]. intros q Hq. by case_decide.
Defined.

Definition demo_ask : askpass_config := AskpassConfig "key" "w" "c" "/helper" "/bin/sh".
Definition demo_raw : string :=
  match dget "p1" (wk_operations sudo_committed) with Some op => privileged_grant demo_config sudo_committed op | None => "" end.
Definition demo_observed : bytes := lit "  0 /usr/bin/sudo -A -k -- /helper /bin/sh id" ++ [10].

Lemma password_only_for_approved_command_witness :
  exists oid op, dget oid (wk_operations sudo_committed) = Some op /\ is_sudo op = true /\ op_auth_available op = true.
Proof.
  destruct (password_only_for_approved_command demo_config demo_check demo_ask demo_su sudo_committed demo_raw 100 demo_observed true)
    as (oid & op & grant & args & signature & argv & H1 & H2 & H3 & _); [vm_compute; reflexivity|]. by exists oid, op.
Defined.
