(* ===== verification/Ranges.v ===== *)
(** * Line ranges and visible fragments

    The interval arithmetic that read authority rests on: the merge loops of
    [session_state.py] ([_merge_ranges], [_merge_zero_based_ranges],
    [_merge_line_fragments]), their copies in [file_state.py], [file_edit.py] and
    [file_read.py], and [_subtract_line_ranges] of [file_edit.py].

    Line ranges are closed and 1-based, fragments of a line are half-open and
    0-based.  Both are handled by one loop: the parameter [d] is 1 for closed
    ranges and 0 for half-open ones, and the range [(s, e)] stands for the points
    [s <= x < e + d]. *)

From S2P Require Import Prelude Dict.
Open Scope Z_scope.

Abbreviation range := (Z * Z)%type.

(** Python's order on pairs of integers. *)
Definition range_le (p q : range) : Prop := p.1 < q.1 \/ (p.1 = q.1 /\ p.2 <= q.2).

#[export] Instance range_le_dec : RelDecision range_le.
Proof. intros p q. unfold range_le. apply _. Defined.

(** The body of the merge loops.  The list is kept with [merged[-1]] at its head. *)
Definition merge_step (d : Z) (merged : list range) (r : range) : list range :=
  match merged with
  | [] => [r]
  | (ls, le) :: rest =>
      if le + d <? r.1 then r :: merged else (ls, Z.max le r.2) :: rest
  end.

Definition merge_sorted (d : Z) (l : list range) : list range :=
  reverse (foldl (merge_step d) [] l).

(** [sorted((max(1, start), max(1, end)) for start, end in ranges if end >= start)] *)
Definition line_normalized (ranges : list range) : list range :=
  merge_sort range_le
    ((fun r => (Z.max 1 r.1, Z.max 1 r.2)) <$> filter (fun r : range => r.1 <= r.2) ranges).

Definition _merge_ranges (ranges : list range) : list range :=
  merge_sorted 1 (line_normalized ranges).

Definition _merge_zero_based_ranges (ranges : list range) : list range :=
  merge_sorted 0 (merge_sort range_le
    ((fun r => (Z.max 0 r.1, Z.max 0 r.2)) <$> filter (fun r : range => r.1 < r.2) ranges)).

(** A fragment [(line, start, end, length)]: the characters [start..end) of a
    rendered line of [length] characters. *)
Record fragment := Fragment {
  fr_line : Z; fr_start : Z; fr_end : Z; fr_length : Z
}.

#[export] Instance fragment_eq_dec : EqDecision fragment.
Proof. solve_decision. Defined.

(** The grouping loop of [_merge_line_fragments]. *)
Definition group_fragment (grouped : dict range (list range)) (f : fragment)
    : dict range (list range) :=
  if (fr_line f <=? 0) || (fr_length f <=? 0) || (fr_end f <=? fr_start f) then grouped
  else
    let key := (fr_line f, fr_length f) in
    let old := default [] (dget key grouped) in
    dset key (old ++ [(Z.max 0 (fr_start f), Z.min (fr_length f) (fr_end f))]) grouped.

Definition group_key_le (p q : range * list range) : Prop := range_le p.1 q.1.

#[export] Instance group_key_le_dec : RelDecision group_key_le.
Proof. intros p q. unfold group_key_le. apply _. Defined.

(** [sorted(grouped.items())]: the keys are distinct, so only they are compared. *)
Definition sorted_groups (fragments : list fragment) : list (range * list range) :=
  merge_sort group_key_le (foldl group_fragment [] fragments).

Definition group_output (g : range * list range) : list fragment :=
  (fun r => Fragment g.1.1 r.1 r.2 g.1.2) <$> _merge_zero_based_ranges g.2.

Definition group_completed (g : range * list range) : list Z :=
  match _merge_zero_based_ranges g.2 with
  | (s, e) :: _ => if (s =? 0) && (g.1.2 <=? e) then [g.1.1] else []
  | [] => []
  end.

Definition _merge_line_fragments (fragments : list fragment) : list fragment * list Z :=
  (sorted_groups fragments ≫= group_output, sorted_groups fragments ≫= group_completed).

(** The inner loop of [_subtract_line_ranges] for one source range: the pieces it
    appends to [remaining] and the final [cursor]. *)
Fixpoint subtract_inner (source_end cursor : Z) (removed : list range) : list range * Z :=
  match removed with
  | [] => ([], cursor)
  | (remove_start, remove_end) :: removed' =>
      if (remove_end <? cursor) || (source_end <? remove_start)
      then subtract_inner source_end cursor removed'
      else
        let piece := if cursor <? remove_start
                     then [(cursor, Z.min source_end (remove_start - 1))] else [] in
        let cursor' := Z.max cursor (remove_end + 1) in
        if source_end <? cursor' then (piece, cursor')
        else let '(rest, c) := subtract_inner source_end cursor' removed' in (piece ++ rest, c)
  end.

Definition _subtract_line_ranges (sources removed : list range) : list range :=
  _merge_ranges sources ≫= (fun src =>
    let '(pieces, cursor) := subtract_inner src.2 src.1 (_merge_ranges removed) in
    pieces ++ (if cursor <=? src.2 then [(cursor, src.2)] else [])).

(** ** Meaning *)

Definition cov (d x : Z) (r : range) : Prop := r.1 <= x < r.2 + d.
Definition covers (d x : Z) (l : list range) : Prop := Exists (cov d x) l.

(** The lines the input of [_merge_ranges] stands for. *)
Definition line_in (x : Z) (l : list range) : Prop :=
  exists s e, (s, e) ∈ l /\ s <= e /\ Z.max 1 s <= x <= Z.max 1 e.

(** A normal form: nonempty ranges in order, with a gap between neighbours. *)
Definition gap (d : Z) (p q : range) : Prop := p.2 + d < q.1.
Definition nonempty (d : Z) (r : range) : Prop := r.1 < r.2 + d.
Definition canonical (d : Z) (l : list range) : Prop :=
  Sorted (gap d) l /\ Forall (nonempty d) l.

(** Two lists of ranges that stand for the same lines. *)
Definition same_lines (l1 l2 : list range) : Prop := forall x, line_in x l1 <-> line_in x l2.

(** The boolean test [any(s <= a and e >= b for s, e in ranges)]. *)
Definition any_contains (a b : Z) (l : list range) : bool :=
  existsb (fun r => (r.1 <=? a) && (b <=? r.2)) l.

(** The points of a fragment list: offset [x] of line [line] of length [length]. *)
Definition frag_in (line length x : Z) (l : list fragment) : Prop :=
  exists s e, Fragment line s e length ∈ l /\ 0 < line /\ 0 < length /\ s <= x < e /\ 0 <= x < length.

(** ** The order on ranges *)

#[export] Instance range_le_trans : Transitive range_le.
Proof. unfold range_le. intros p q r ??. lia. Qed.

#[export] Instance range_le_total : Total range_le.
Proof. unfold range_le. intros p q. lia. Qed.

#[export] Instance range_le_antisymm : AntiSymm (=) range_le.
Proof. intros [a b] [c e]. unfold range_le; simpl. intros. f_equal; lia. Qed.

#[export] Instance group_key_le_trans : Transitive group_key_le.
Proof. intros p q r. unfold group_key_le. apply transitivity. Qed.

#[export] Instance group_key_le_total : Total group_key_le.
Proof. intros p q. unfold group_key_le. apply (total range_le). Qed.

(** ** The merge loop *)

Lemma covers_cons d x r l : covers d x (r :: l) <-> cov d x r \/ covers d x l.
Proof. unfold covers. apply Exists_cons. Qed.

Lemma covers_app d x l1 l2 : covers d x (l1 ++ l2) <-> covers d x l1 \/ covers d x l2.
Proof. unfold covers. apply Exists_app. Qed.

Lemma covers_nil d x : ~ covers d x [].
Proof. intros H. inversion H. Qed.

Lemma covers_elem d x l : covers d x l <-> exists r, r ∈ l /\ cov d x r.
Proof. unfold covers. apply Exists_exists. Qed.

Lemma covers_reverse d x l : covers d x (reverse l) <-> covers d x l.
Proof. rewrite !covers_elem. setoid_rewrite elem_of_reverse. done. Qed.

(** What the loop keeps true of [merged], with its last element first. *)
Definition merge_inv (d : Z) (acc rest : list range) : Prop :=
  Sorted (flip (gap d)) acc /\ Forall (nonempty d) acc /\
  match acc with [] => True | r :: _ => Forall (fun q => r.1 <= q.1) rest end.

Lemma merge_step_inv d acc r l :
  0 <= d -> nonempty d r -> Forall (fun q => r.1 <= q.1) l ->
  merge_inv d acc (r :: l) -> merge_inv d (merge_step d acc r) l.
Proof.
  intros Hd Hr Hl (Hs & Hn & Hh). destruct acc as [|[ls le] acc]; simpl.
  { split; [by repeat constructor|]. split; [by repeat constructor|done]. }
  apply Forall_cons in Hh as [Hh1 Hh2]. simpl in *.
  destruct (le + d <? r.1) eqn:E; bool_to_prop.
  - split; [constructor; [done|by constructor]|]. split; [by constructor|done].
  - apply Forall_cons in Hn as [Hn1 Hn2]. split; [|split].
    + apply Sorted_inv in Hs as [Hs1 Hs2]. constructor; [done|].
      destruct Hs2; constructor. unfold gap, flip in *. simpl in *. lia.
    + constructor; [|done]. unfold nonempty in *; simpl in *. lia.
    + simpl. done.
Qed.

Lemma merge_step_covers d acc r x :
  match acc with [] => True | q :: _ => q.1 <= r.1 end ->
  covers d x (merge_step d acc r) <-> cov d x r \/ covers d x acc.
Proof.
  destruct acc as [|[ls le] acc]; simpl; intros Hh; [by rewrite covers_cons|].
  destruct (le + d <? r.1) eqn:E; bool_to_prop; rewrite !covers_cons; [done|].
  unfold cov; simpl. intuition lia.
Qed.

Lemma merge_loop_spec d l acc :
  0 <= d -> StronglySorted range_le l -> Forall (nonempty d) l -> merge_inv d acc l ->
  merge_inv d (foldl (merge_step d) acc l) [] /\
  forall x, covers d x (foldl (merge_step d) acc l) <-> covers d x l \/ covers d x acc.
Proof.
  intros Hd. revert acc. induction l as [|r l IH]; intros acc Hs Hn Hi; simpl.
  { split; [|intros x; pose proof (covers_nil d x); tauto].
    destruct Hi as (? & ? & _). split; [done|]. split; [done|]. by destruct acc. }
  apply StronglySorted_inv in Hs as [Hs Hr]. apply Forall_cons in Hn as [Hn Hl].
  assert (Hle : Forall (fun q => r.1 <= q.1) l).
  { eapply Forall_impl; [exact Hr|]. unfold range_le. intros; lia. }
  assert (Hh : match acc with [] => True | q :: _ => q.1 <= r.1 end).
  { destruct Hi as (_ & _ & Hi). destruct acc; [done|]. by apply Forall_cons in Hi as [Hi _]. }
  destruct (IH (merge_step d acc r)) as [IH1 IH2]; [done..| |].
  { by apply merge_step_inv. }
  split; [done|]. intros x. rewrite IH2, merge_step_covers, covers_cons by done. tauto.
Qed.

Lemma merge_sorted_spec d l :
  0 <= d -> StronglySorted range_le l -> Forall (nonempty d) l ->
  canonical d (merge_sorted d l) /\ forall x, covers d x (merge_sorted d l) <-> covers d x l.
Proof.
  intros Hd Hs Hn. destruct (merge_loop_spec d l [] Hd Hs Hn) as [(H1 & H2 & _) H3].
  { split; [constructor|]. by split. }
  unfold merge_sorted, canonical. split; [split|].
  - by apply Sorted_reverse in H1.
  - by apply Forall_reverse.
  - intros x. rewrite covers_reverse, H3. pose proof (covers_nil d x). tauto.
Qed.

(** ** Normal forms are unique *)

Lemma canonical_strong d l : 0 <= d -> canonical d l -> StronglySorted (gap d) l.
Proof.
  intros Hd [Hs Hn]. induction Hs as [|p l Hs IH Hp]; [constructor|].
  apply Forall_cons in Hn as [Hn1 Hn2]. specialize (IH Hn2). constructor; [done|].
  destruct Hp as [|q l Hp]; constructor; [done|].
  apply StronglySorted_inv in IH as [_ IH]. apply Forall_cons in Hn2 as [Hn2 _].
  eapply Forall_impl; [exact IH|]. unfold gap, nonempty in *. intros; lia.
Qed.

Lemma canonical_cons d p l :
  0 <= d -> canonical d (p :: l) ->
  nonempty d p /\ canonical d l /\ forall x, covers d x l -> p.2 + d < x.
Proof.
  intros Hd H. pose proof (canonical_strong _ _ Hd H) as HS.
  destruct H as [Hs Hn]. apply Forall_cons in Hn as [Hn1 Hn2].
  apply Sorted_inv in Hs as [Hs _]. split; [done|]. split; [done|].
  intros x Hx%covers_elem. destruct Hx as (q & Hq & Hx).
  apply StronglySorted_inv in HS as [_ HS].
  rewrite Forall_forall in HS. specialize (HS q Hq). unfold gap, cov in *. lia.
Qed.

Lemma canonical_head_eq d p q l1 l2 :
  0 <= d -> canonical d (p :: l1) -> canonical d (q :: l2) ->
  (forall x, covers d x (p :: l1) -> covers d x (q :: l2)) -> q.1 <= p.1.
Proof.
  intros Hd H1 H2 H.
  apply canonical_cons in H1 as (Hp & _ & _); [|done].
  apply canonical_cons in H2 as (Hq & _ & Hl2); [|done].
  specialize (H p.1). rewrite !covers_cons in H.
  unfold cov, nonempty in *. destruct H as [H|H%Hl2]; [left; lia|lia|lia].
Qed.

Lemma canonical_end_le d p q l1 l2 :
  0 <= d -> p.1 = q.1 -> canonical d (p :: l1) -> canonical d (q :: l2) ->
  (forall x, covers d x (p :: l1) -> covers d x (q :: l2)) -> p.2 <= q.2.
Proof.
  intros Hd Hpq H1 H2 H.
  apply canonical_cons in H1 as (Hp & _ & _); [|done].
  apply canonical_cons in H2 as (Hq & _ & Hl2); [|done].
  destruct (Z.le_gt_cases p.2 q.2) as [|Hlt]; [done|].
  specialize (H (q.2 + d)). rewrite !covers_cons in H.
  unfold cov, nonempty in *. destruct H as [H|H%Hl2]; [left; lia|lia|lia].
Qed.

Lemma canonical_unique d l1 l2 :
  0 <= d -> canonical d l1 -> canonical d l2 ->
  (forall x, covers d x l1 <-> covers d x l2) -> l1 = l2.
Proof.
  intros Hd. revert l2. induction l1 as [|p l1 IH]; intros [|q l2] H1 H2 H; [done| | |].
  - apply canonical_cons in H2 as (Hq & _); [|done]. exfalso.
    apply (covers_nil d q.1), H, covers_cons. left. unfold cov, nonempty in *. lia.
  - apply canonical_cons in H1 as (Hp & _); [|done]. exfalso.
    apply (covers_nil d p.1), H, covers_cons. left. unfold cov, nonempty in *. lia.
  - assert (Hs : p.1 = q.1) by (apply Z.le_antisymm; eapply canonical_head_eq; eauto; apply H).
    assert (He : p.2 = q.2) by (apply Z.le_antisymm; eapply canonical_end_le; eauto; apply H).
    assert (p = q) as -> by (destruct p, q; simpl in *; congruence).
    f_equal. apply canonical_cons in H1 as (_ & H1 & Hl1); [|done].
    apply canonical_cons in H2 as (_ & H2 & Hl2); [|done].
    apply IH; [done..|]. intros x. specialize (H x). rewrite !covers_cons in H.
    split; intros Hx.
    + destruct (proj1 H (or_intror Hx)) as [Hc|]; [|done].
      apply Hl1 in Hx. unfold cov in Hc. lia.
    + destruct (proj2 H (or_intror Hx)) as [Hc|]; [|done].
      apply Hl2 in Hx. unfold cov in Hc. lia.
Qed.

(** In a normal form, containment in one range is containment in the union. *)
Lemma canonical_contains l a b :
  canonical 1 l -> a <= b ->
  any_contains a b l = true <-> forall x, a <= x <= b -> covers 1 x l.
Proof.
  intros Hl Hab. unfold any_contains. rewrite existsb_exists. split.
  - intros (r & Hr%list_elem_of_In & H) x Hx. bool_to_prop. apply covers_elem.
    exists r. split; [done|]. unfold cov. lia.
  - intros H. induction l as [|p l IH].
    { exfalso. eapply covers_nil, (H a). lia. }
    apply canonical_cons in Hl as (Hp & Hl & Hgap); [|lia].
    assert (Hin : forall x, a <= x <= b -> cov 1 x p \/ covers 1 x l).
    { intros x Hx. apply covers_cons, H, Hx. }
    destruct (Z.le_gt_cases a p.2) as [Ha|Ha].
    + exists p. split; [by left|]. rewrite andb_true_iff, !Z.leb_le.
      assert (p.1 <= a) by (destruct (Hin a) as [?|?%Hgap]; [lia|unfold cov in *; lia|lia]).
      split; [done|]. destruct (Z.le_gt_cases b p.2) as [|Hb]; [done|].
      destruct (Hin (p.2 + 1)) as [?|?%Hgap]; [lia|unfold cov in *; lia|lia].
    + destruct IH as (r & Hr & H'); [done| |by exists r; split; [right|]].
      intros x Hx. destruct (Hin x Hx) as [Hc|]; [|done]. unfold cov in Hc. lia.
Qed.

(** ** [_merge_ranges] *)

Lemma sort_clamped_covers d c (P : range -> Prop) `{forall r, Decision (P r)} l x :
  covers d x (merge_sort range_le ((fun r => (Z.max c r.1, Z.max c r.2)) <$> filter P l)) <->
  exists s e, (s, e) ∈ l /\ P (s, e) /\ Z.max c s <= x < Z.max c e + d.
Proof.
  rewrite covers_elem. setoid_rewrite merge_sort_Permutation.
  setoid_rewrite list_elem_of_fmap. split.
  - intros (r & ([s e] & -> & Hr) & Hx). apply list_elem_of_filter in Hr as [HP Hr].
    exists s, e. done.
  - intros (s & e & Hin & HP & Hx). exists (Z.max c s, Z.max c e). split; [|done].
    exists (s, e). split; [done|]. by apply list_elem_of_filter.
Qed.

Lemma line_normalized_nonempty l : Forall (nonempty 1) (line_normalized l).
Proof.
  unfold line_normalized. rewrite merge_sort_Permutation. apply Forall_fmap, Forall_forall.
  intros r [Hr _]%list_elem_of_filter. unfold nonempty; simpl. lia.
Qed.

Lemma merge_ranges_spec l :
  canonical 1 (_merge_ranges l) /\ forall x, covers 1 x (_merge_ranges l) <-> line_in x l.
Proof.
  destruct (merge_sorted_spec 1 (line_normalized l)) as [H1 H2].
  - lia.
  - apply StronglySorted_merge_sort; apply _.
  - apply line_normalized_nonempty.
  - split; [done|]. intros x. unfold _merge_ranges. rewrite H2.
    unfold line_normalized. rewrite sort_clamped_covers. unfold line_in.
    split; intros (s & e & ? & ? & ?); exists s, e; simpl in *; repeat split; try done; lia.
Qed.

Lemma merge_ranges_canonical l : canonical 1 (_merge_ranges l).
Proof. apply merge_ranges_spec. Qed.

Lemma merge_ranges_covers l x : covers 1 x (_merge_ranges l) <-> line_in x l.
Proof. apply merge_ranges_spec. Qed.

Lemma line_in_app x l1 l2 : line_in x (l1 ++ l2) <-> line_in x l1 \/ line_in x l2.
Proof. unfold line_in. setoid_rewrite elem_of_app. naive_solver. Qed.

Lemma line_in_nil x : ~ line_in x [].
Proof. intros (? & ? & H & _). by apply elem_of_nil in H. Qed.

Lemma line_in_singleton x s e : line_in x [(s, e)] <-> s <= e /\ Z.max 1 s <= x <= Z.max 1 e.
Proof.
  unfold line_in. setoid_rewrite list_elem_of_singleton. split.
  - intros (? & ? & [= -> ->] & ?). done.
  - intros ?. by exists s, e.
Qed.

Lemma line_in_pos x l : line_in x l -> 1 <= x.
Proof. intros (? & ? & _ & ? & ?). lia. Qed.

#[export] Instance same_lines_equiv : Equivalence same_lines.
Proof.
  unfold same_lines. split; [by intros l x|intros l1 l2 H x; by rewrite H|].
  intros l1 l2 l3 H1 H2 x. by rewrite H1.
Qed.

#[export] Instance merge_ranges_proper : Proper (same_lines ==> eq) _merge_ranges.
Proof.
  intros l1 l2 H. apply (canonical_unique 1); [lia|apply merge_ranges_canonical..|].
  intros x. rewrite !merge_ranges_covers. apply H.
Qed.

#[export] Instance same_lines_app : Proper (same_lines ==> same_lines ==> same_lines) app.
Proof.
  intros l1 l1' H1 l2 l2' H2 x. rewrite !line_in_app. specialize (H1 x). specialize (H2 x). tauto.
Qed.

Lemma merged_line_in l x : line_in x (_merge_ranges l) <-> line_in x l.
Proof.
  rewrite <- (merge_ranges_covers l). rewrite covers_elem. split.
  - intros (s & e & Hin & Hse & Hx). exists (s, e). split; [done|].
    assert (Hs : 1 <= s); [|unfold cov; simpl; lia].
    apply (line_in_pos s l), merge_ranges_covers, covers_elem.
    exists (s, e). split; [done|]. unfold cov; simpl. lia.
  - intros ([s e] & Hin & Hx). assert (1 <= x).
    { apply (line_in_pos x l), merge_ranges_covers, covers_elem. by exists (s, e). }
    unfold cov in Hx; simpl in Hx. exists s, e. split; [done|]. lia.
Qed.

Lemma same_lines_merge l : same_lines (_merge_ranges l) l.
Proof. intros x. apply merged_line_in. Qed.

Lemma same_lines_permutation l1 l2 : l1 ≡ₚ l2 -> same_lines l1 l2.
Proof. intros H x. unfold line_in. by setoid_rewrite H. Qed.

(** ** [_merge_zero_based_ranges] and [_merge_line_fragments] *)

Lemma merge_zero_based_spec l :
  (forall r, r ∈ l -> 0 <= r.1) ->
  canonical 0 (_merge_zero_based_ranges l) /\
  forall x, covers 0 x (_merge_zero_based_ranges l) <-> covers 0 x l.
Proof.
  intros Hl. unfold _merge_zero_based_ranges.
  destruct (merge_sorted_spec 0 (merge_sort range_le
    ((fun r => (Z.max 0 r.1, Z.max 0 r.2)) <$> filter (fun r : range => r.1 < r.2) l))) as [H1 H2].
  - lia.
  - apply StronglySorted_merge_sort; apply _.
  - rewrite merge_sort_Permutation. apply Forall_fmap, Forall_forall.
    intros r [Hr Hin]%list_elem_of_filter. specialize (Hl r Hin). unfold nonempty; simpl. lia.
  - split; [done|]. intros x. rewrite H2, sort_clamped_covers, covers_elem. split.
    + intros (s & e & Hin & Hse & Hx). exists (s, e). split; [done|].
      specialize (Hl _ Hin). unfold cov; simpl in *. lia.
    + intros ([s e] & Hin & Hx). specialize (Hl _ Hin). unfold cov in Hx; simpl in *.
      exists s, e. repeat split; [done|lia..].
Qed.

(** What a group holds after the grouping loop. *)
Definition group_covers (line length x : Z) (grouped : dict range (list range)) : Prop :=
  exists rs, dget (line, length) grouped = Some rs /\ covers 0 x rs.

Definition groups_ok (grouped : dict range (list range)) : Prop :=
  dwf grouped /\
  forall k rs, dget k grouped = Some rs ->
    0 < k.1 /\ 0 < k.2 /\ forall r, r ∈ rs -> 0 <= r.1 /\ r.2 <= k.2.

Lemma group_fragment_ok g f : groups_ok g -> groups_ok (group_fragment g f).
Proof.
  intros [Hwf Hg]. unfold group_fragment.
  destruct (_ || _) eqn:E; [by split|]. bool_to_prop.
  split; [by apply dwf_dset|]. intros k rs. rewrite dget_dset.
  case_decide as Hk; [intros [= <-]; subst k|by apply Hg]. simpl.
  split; [lia|]. split; [lia|]. intros r [Hr|Hr]%elem_of_app.
  - destruct (dget _ g) as [old|] eqn:Eo; simpl in Hr; [|by apply elem_of_nil in Hr].
    apply Hg in Eo as (_ & _ & Ho). by apply Ho in Hr.
  - apply list_elem_of_singleton in Hr as ->. simpl. lia.
Qed.

Lemma group_fragment_covers g f line length x :
  group_covers line length x (group_fragment g f) <->
  group_covers line length x g \/ frag_in line length x [f].
Proof.
  unfold group_fragment, frag_in. setoid_rewrite list_elem_of_singleton.
  destruct f as [fl fs fe fn]; simpl. destruct (_ || _) eqn:E.
  { split; [by left|]. intros [?|(s & e & [= <- <- <- <-] & ?)]; [done|].
    rewrite !orb_true_iff, !Z.leb_le in E. lia. }
  bool_to_prop. unfold group_covers at 1. rewrite dget_dset. case_decide as Hk; simplify_eq.
  - split.
    + intros (rs & [= <-] & Hx). apply covers_app in Hx as [Hx|Hx].
      * left. unfold group_covers. destruct (dget _ g) as [old|]; simpl in Hx;
          [by exists old|by apply covers_nil in Hx].
      * right. apply covers_cons in Hx as [Hx|Hx]; [|by apply covers_nil in Hx].
        unfold cov in Hx; simpl in Hx. exists fs, fe. split; [done|]. lia.
    + intros Hx. eexists. split; [done|]. apply covers_app. destruct Hx as [(rs & -> & Hx)|Hx]; [by left|].
      destruct Hx as (s & e & [= <- <-] & Hx). right. apply covers_cons. left.
      unfold cov; simpl. lia.
  - split; [by left|]. intros [?|(s & e & [= -> -> -> ->] & ?)]; done.
Qed.

Lemma frag_in_cons line length x f l :
  frag_in line length x (f :: l) <-> frag_in line length x [f] \/ frag_in line length x l.
Proof.
  unfold frag_in. setoid_rewrite elem_of_cons. setoid_rewrite elem_of_nil. naive_solver.
Qed.

Lemma group_loop_spec l g :
  groups_ok g ->
  groups_ok (foldl group_fragment g l) /\
  forall line length x, group_covers line length x (foldl group_fragment g l) <->
    group_covers line length x g \/ frag_in line length x l.
Proof.
  revert g. induction l as [|f l IH]; intros g Hg; simpl.
  { split; [done|]. intros. unfold frag_in. setoid_rewrite elem_of_nil. naive_solver. }
  destruct (IH (group_fragment g f)) as [IH1 IH2]; [by apply group_fragment_ok|].
  split; [done|]. intros. rewrite IH2, group_fragment_covers, (frag_in_cons _ _ _ f l). tauto.
Qed.

Lemma groups_ok_nil : groups_ok [].
Proof. split; [apply dwf_nil|]. intros k rs. discriminate. Qed.

Lemma sorted_groups_elem l k rs :
  (k, rs) ∈ sorted_groups l <-> dget k (foldl group_fragment [] l) = Some rs.
Proof.
  unfold sorted_groups. rewrite merge_sort_Permutation.
  destruct (group_loop_spec l [] groups_ok_nil) as [[Hwf _] _].
  split; [by apply elem_dget|apply dget_elem].
Qed.

Lemma sorted_groups_spec l k rs :
  (k, rs) ∈ sorted_groups l ->
  0 < k.1 /\ 0 < k.2 /\ canonical 0 (_merge_zero_based_ranges rs) /\
  (forall r, r ∈ rs -> 0 <= r.1 /\ r.2 <= k.2) /\
  forall x, covers 0 x (_merge_zero_based_ranges rs) <-> frag_in k.1 k.2 x l.
Proof.
  rewrite sorted_groups_elem. intros Hk.
  destruct (group_loop_spec l [] groups_ok_nil) as [[Hwf Hg] Hc].
  destruct (Hg _ _ Hk) as (H1 & H2 & Hrs).
  destruct (merge_zero_based_spec rs) as [Hcan Hcov]; [intros r Hr; apply Hrs, Hr|].
  split; [done|]. split; [done|]. split; [done|]. split; [done|]. intros x. split.
  - intros Hx%Hcov. destruct k as [kl kn]; simpl in *.
    destruct (proj1 (Hc kl kn x)) as [(? & [=] & _)|]; [by exists rs|done].
  - intros Hx. apply Hcov. destruct k as [kl kn]; simpl in *.
    destruct (proj2 (Hc kl kn x) (or_intror Hx)) as (rs' & Hrs' & ?). congruence.
Qed.

Lemma frag_in_group l line length x :
  frag_in line length x l -> exists rs, ((line, length), rs) ∈ sorted_groups l.
Proof.
  intros Hx. destruct (group_loop_spec l [] groups_ok_nil) as [_ Hc].
  destruct (proj2 (Hc line length x) (or_intror Hx)) as (rs & Hrs & _).
  exists rs. by apply sorted_groups_elem.
Qed.

(** The merged fragments stand for the same characters. *)
Lemma merged_fragments_covers l line length x :
  frag_in line length x (_merge_line_fragments l).1 <-> frag_in line length x l.
Proof.
  unfold _merge_line_fragments; simpl. split.
  - intros (s & e & Hin & Hl & Hn & Hx & Hxn).
    apply list_elem_of_bind in Hin as ([k rs] & Hin & Hk).
    apply list_elem_of_fmap in Hin as (r & [= -> -> -> ->] & Hr).
    apply sorted_groups_spec in Hk as (_ & _ & _ & _ & Hc). apply Hc, covers_elem.
    exists r. split; [done|]. unfold cov. lia.
  - intros Hx. assert (Hxn : 0 < line /\ 0 < length /\ 0 <= x < length).
    { destruct Hx as (? & ? & ? & ?). tauto. }
    pose proof (frag_in_group _ _ _ _ Hx) as [rs Hk].
    pose proof (sorted_groups_spec _ _ _ Hk) as (H1 & H2 & Hcan & Hb & Hc).
    apply Hc, covers_elem in Hx as (r & Hr & Hx). simpl in *.
    exists r.1, r.2. split; [|unfold cov in Hx; lia].
    apply list_elem_of_bind. exists (line, length, rs). split; [|done].
    unfold group_output; simpl. apply list_elem_of_fmap. by exists r.
Qed.

Lemma canonical_first_full l n :
  canonical 0 l -> 0 < n -> (forall x, covers 0 x l -> 0 <= x < n) ->
  (match l with (s, e) :: _ => (s =? 0) && (n <=? e) | [] => false end = true <->
   forall x, 0 <= x < n -> covers 0 x l).
Proof.
  intros Hl Hn Hb. destruct l as [|[s e] l].
  { split; [done|]. intros H. exfalso. eapply (covers_nil 0 0), H. lia. }
  apply canonical_cons in Hl as (Hp & _ & Hgap); [|lia]. unfold nonempty in Hp; simpl in *.
  rewrite andb_true_iff, Z.eqb_eq, Z.leb_le. split.
  - intros [-> He] x Hx. apply covers_cons. left. unfold cov; simpl. lia.
  - intros H. assert (Hs : s = 0).
    { destruct (proj1 (covers_cons _ _ _ _) (H 0 ltac:(lia))) as [Hc|Hc].
      - specialize (Hb s). rewrite covers_cons in Hb. unfold cov in *; simpl in *. lia.
      - apply Hgap in Hc. specialize (Hb s). rewrite covers_cons in Hb. unfold cov in *; simpl in *. lia. }
    split; [done|]. destruct (Z.le_gt_cases n e) as [|He]; [done|].
    destruct (proj1 (covers_cons _ _ _ _) (H e ltac:(lia))) as [Hc|Hc].
    + unfold cov in Hc; simpl in Hc. lia.
    + apply Hgap in Hc. lia.
Qed.

(** A line is reported complete exactly when all its characters were visible. *)
Lemma completed_lines_spec l line :
  line ∈ (_merge_line_fragments l).2 <->
  exists length, 0 < length /\ forall x, 0 <= x < length -> frag_in line length x l.
Proof.
  unfold _merge_line_fragments; simpl.
  assert (Hkey : forall k rs, (k, rs) ∈ sorted_groups l ->
    (line ∈ group_completed (k, rs) <-> line = k.1 /\ forall x, 0 <= x < k.2 -> frag_in k.1 k.2 x l)).
  { intros k rs Hk. apply sorted_groups_spec in Hk as (H1 & H2 & Hcan & Hb & Hc).
    pose proof (canonical_first_full _ k.2 Hcan H2) as Hf. unfold group_completed; simpl.
    setoid_rewrite Hc in Hf.
    destruct (_merge_zero_based_ranges rs) as [|[s e] rest]; simpl.
    - rewrite elem_of_nil. split; [done|]. intros [_ H]. exfalso.
      apply Hf in H; [done|]. intros x (?&?&?&?&?&?&?). lia.
    - destruct ((s =? 0) && (k.2 <=? e)); rewrite ?list_elem_of_singleton, ?elem_of_nil.
      + split; [|by intros [-> _]]. intros ->. split; [done|]. apply Hf; [|done].
        intros x (?&?&?&?&?&?&?). lia.
      + split; [done|]. intros [_ H]. exfalso. apply Hf in H; [done|].
        intros x (?&?&?&?&?&?&?). lia. }
  split.
  - intros ([k rs] & Hin & Hk)%list_elem_of_bind. apply (Hkey _ _ Hk) in Hin as [-> Hall].
    exists k.2. split; [|done]. by apply sorted_groups_spec in Hk as (_ & ? & _).
  - intros (n & Hn & Hall). destruct (frag_in_group l line n 0) as [rs Hk]; [apply Hall; lia|].
    apply list_elem_of_bind. exists (line, n, rs). split; [|done].
    by apply (Hkey _ _ Hk).
Qed.

(** ** [_subtract_line_ranges] *)

Lemma subtract_inner_spec removed source_end cursor x :
  canonical 1 removed ->
  (covers 1 x (subtract_inner source_end cursor removed).1 \/
   (subtract_inner source_end cursor removed).2 <= x <= source_end) <->
  cursor <= x <= source_end /\ ~ covers 1 x removed.
Proof.
  revert cursor. pose proof (covers_nil 1 x) as Hnil.
  induction removed as [|[rs re] removed IH]; intros cursor Hc; simpl; [tauto|].
  apply canonical_cons in Hc as (Hp & Hc & Hgap); [|lia]. unfold nonempty in Hp; simpl in *.
  rewrite covers_cons. unfold cov; simpl. specialize (Hgap x).
  destruct (_ || _) eqn:E.
  - specialize (IH cursor Hc). rewrite IH. rewrite orb_true_iff, !Z.ltb_lt in E. intuition lia.
  - bool_to_prop.
    assert (Hpiece : covers 1 x (if cursor <? rs then [(cursor, Z.min source_end (rs - 1))] else [])
      <-> cursor <= x <= source_end /\ x < rs).
    { destruct (cursor <? rs) eqn:Ers; bool_to_prop; [|split; [done|lia]].
      rewrite covers_cons. unfold cov; simpl. intuition lia. }
    destruct (source_end <? Z.max cursor (re + 1)) eqn:Eb; bool_to_prop; simpl.
    + rewrite Hpiece. intuition lia.
    + specialize (IH (Z.max cursor (re + 1)) Hc).
      destruct subtract_inner as [pieces c]; simpl in *. rewrite covers_app, Hpiece.
      split.
      * intros Hx.
        assert ((cursor <= x <= source_end /\ x < rs) \/
                (Z.max cursor (re + 1) <= x <= source_end /\ ~ covers 1 x removed)) as [?|[? ?]]
          by (rewrite <- IH; tauto).
        -- split; [lia|]. intros [|?%Hgap]; lia.
        -- split; [lia|]. intros [|?]; [lia|done].
      * intros [Hx Hn]. destruct (Z.lt_ge_cases x rs); [left; left; lia|].
        assert (covers 1 x pieces \/ c <= x <= source_end); [|tauto].
        apply IH. split; [|tauto]. destruct (Z.le_gt_cases x re); [|lia]. exfalso. apply Hn. lia.
Qed.

Lemma subtract_line_ranges_covers sources removed x :
  covers 1 x (_subtract_line_ranges sources removed) <->
  line_in x sources /\ ~ line_in x removed.
Proof.
  rewrite <- !merge_ranges_covers. unfold _subtract_line_ranges.
  generalize (_merge_ranges sources) as src; intros src.
  pose proof (merge_ranges_canonical removed) as Hr.
  revert Hr. generalize (_merge_ranges removed) as rem; intros rem Hr.
  induction src as [|[s e] src IH]; simpl; [pose proof (covers_nil 1 x); tauto|].
  rewrite covers_app, IH, covers_cons. clear IH.
  pose proof (subtract_inner_spec rem e s x Hr) as H.
  destruct (subtract_inner e s rem) as [pieces c]; simpl in *. rewrite covers_app.
  assert (Hlast : covers 1 x (if c <=? e then [(c, e)] else []) <-> c <= x <= e).
  { destruct (c <=? e) eqn:E; bool_to_prop.
    - rewrite covers_cons. pose proof (covers_nil 1 x). unfold cov; simpl. intuition lia.
    - pose proof (covers_nil 1 x). split; [done|lia]. }
  rewrite Hlast. unfold cov; simpl. rewrite H. split.
  - intros [Hx|Hx]; [|tauto]. split; [left; lia|tauto].
  - intros [[Hx|Hx] Hn]; [left; split; [lia|done]|by right].
Qed.

Lemma merge_ranges_same_lines l l' : same_lines l l' <-> _merge_ranges l = _merge_ranges l'.
Proof.
  split.
  - intros H. apply (canonical_unique 1); [lia|apply merge_ranges_canonical..|].
    intros x. rewrite !merge_ranges_covers. apply H.
  - intros H. rewrite <- (same_lines_merge l), H. apply same_lines_merge.
Qed.

(** The range arithmetic is exact.  [_merge_ranges] returns the one normal form (sorted,
    nonempty, no two ranges overlapping or adjacent) of the lines its input stands for,
    equal for two inputs exactly when they stand for the same lines; [_subtract_line_ranges]
    leaves exactly the lines of the sources that were not removed; and
    [_merge_line_fragments] keeps exactly the characters of its fragments and calls a line
    completed exactly when fragments of one line length cover all its characters. *)
Theorem range_arithmetic_exact l l' fragments :
  canonical 1 (_merge_ranges l) /\
  (forall x, covers 1 x (_merge_ranges l) <-> line_in x l) /\
  (_merge_ranges l = _merge_ranges l' <-> same_lines l l') /\
  (forall x, covers 1 x (_subtract_line_ranges l l') <-> line_in x l /\ ~ line_in x l') /\
  (forall line length x, frag_in line length x (_merge_line_fragments fragments).1 <-> frag_in line length x fragments) /\
  (forall line, line ∈ (_merge_line_fragments fragments).2 <->
     exists length, 0 < length /\ forall x, 0 <= x < length -> frag_in line length x fragments).
Proof.
  split_and!.
  - apply merge_ranges_canonical.
  - apply merge_ranges_covers.
  - symmetry. apply merge_ranges_same_lines.
  - apply subtract_line_ranges_covers.
  - apply merged_fragments_covers.
  - apply completed_lines_spec.
Qed.
