(* ===== verification/TextLines.v ===== *)
(** * Logical lines

    The line arithmetic of [_file_core/file_state.py] on top of Python's
    [str.splitlines(keepends=True)]: offsets are character offsets, line numbers start
    at 1.  Loops over the lines are structural recursions that carry the cursor. *)

From S2P Require Import Prelude Utf8 Ranges.
Open Scope Z_scope.

(** Line boundaries: LF, VT, FF, CR, FS, GS, RS, NEL, LS, PS. *)
Definition BOUNDARIES : list Z := [10; 11; 12; 13; 28; 29; 30; 133; 8232; 8233].
Definition boundary (c : Z) : bool := bool_decide (c ∈ BOUNDARIES).

(** [cur] is the line read so far, last character first. *)
Fixpoint split_from (cur : text) (t : text) : list text :=
  match t with
  | [] => match cur with [] => [] | _ => [reverse cur] end
  | c :: t1 =>
      if c =? 13 then
        match t1 with
        | d :: t2 =>
            if d =? 10 then reverse (d :: c :: cur) :: split_from [] t2
            else reverse (c :: cur) :: split_from [] t1
        | [] => [reverse (c :: cur)]
        end
      else if boundary c then reverse (c :: cur) :: split_from [] t1
      else split_from (c :: cur) t1
  end.
Definition splitlines (t : text) : list text := split_from [] t.

Definition zlen {A} (l : list A) : Z := Z.of_nat (length l).

Definition count_text_lines (content : text) : Z := zlen (splitlines content).

Fixpoint starts_from (cursor : Z) (lines : list text) : list Z :=
  match lines with
  | [] => []
  | line :: lines => cursor :: starts_from (cursor + zlen line) lines
  end.
Definition text_line_starts (content : text) : list Z := starts_from 0 (splitlines content).

(** The loop of [line_number_at_offset]; [index] is the number of the first line of
    [lines], the result for a position past the end is the last line. *)
Fixpoint line_at (lines : list text) (position cursor index : Z) : Z :=
  match lines with
  | [] => index - 1
  | line :: lines =>
      let fin := cursor + zlen line in
      if position <? fin then index else line_at lines position fin (index + 1)
  end.

Definition line_number_at_offset (content : text) (offset : Z) : Z :=
  match splitlines content with
  | [] => 1
  | lines => line_at lines (Z.min (Z.max 0 offset) (zlen content)) 0 1
  end.

Definition last_char (line : text) : option Z := last line.
Definition ends_with_boundary (line : text) : bool :=
  match last line with Some c => boundary c | None => false end.

(** The loop that extends a range whose end falls on a line terminator. *)
Fixpoint extend_end (lines : list text) (fin cursor index total end_line : Z) : Z :=
  match lines with
  | [] => end_line
  | line :: lines =>
      let cursor' := cursor + zlen line in
      if (fin =? cursor') && (index <? total) then
        if ends_with_boundary line then index + 1 else end_line
      else extend_end lines fin cursor' (index + 1) total end_line
  end.

Definition line_range_for_offsets (content : text) (start_offset end_offset : Z) : range :=
  match splitlines content with
  | [] => (1, 1)
  | lines =>
      let start := Z.min (Z.max 0 start_offset) (zlen content) in
      let fin := Z.min (Z.max start end_offset) (zlen content) in
      let start_line := line_number_at_offset content start in
      if fin =? start then (start_line, start_line)
      else
        let end_line := line_number_at_offset content (fin - 1) in
        let end_line := extend_end lines fin 0 1 (zlen lines) end_line in
        (start_line, Z.max start_line end_line)
  end.

(** ** Splitting is lossless *)

(** One step of the splitter: it emits the line that ends at the next boundary. *)
Lemma split_from_ind (P : text -> text -> list text -> Prop) :
  P [] [] [] ->
  (forall c cur, P (c :: cur) [] [reverse (c :: cur)]) ->
  (forall c cur t, boundary c = false -> P (c :: cur) t (split_from (c :: cur) t) ->
     P cur (c :: t) (split_from (c :: cur) t)) ->
  (forall c cur t, boundary c = true -> (c = 13 -> head t <> Some 10) -> P [] t (split_from [] t) ->
     P cur (c :: t) (reverse (c :: cur) :: split_from [] t)) ->
  (forall cur t, P [] t (split_from [] t) ->
     P cur (13 :: 10 :: t) (reverse (10 :: 13 :: cur) :: split_from [] t)) ->
  forall t cur, P cur t (split_from cur t).
Proof.
  intros H1 H2 H3 H4 H5 t. remember (length t) as n eqn:Hn. revert t Hn.
  induction n as [n IH] using lt_wf_ind. intros t Hn cur. destruct t as [|c t1].
  { destruct cur; simpl; auto. }
  assert (IH1 : forall t' cur, (length t' < n)%nat -> P cur t' (split_from cur t')) by (intros; eapply IH; eauto).
  simpl in Hn. cbn [split_from]. destruct (c =? 13) eqn:E1; [apply Z.eqb_eq in E1 as ->|].
  - destruct t1 as [|d t2].
    + apply (H4 13 cur []); [done|done|]. apply IH1. lia.
    + destruct (d =? 10) eqn:E2; [apply Z.eqb_eq in E2 as ->|].
      * apply H5, IH1. simpl in Hn. lia.
      * apply H4; [done| |apply IH1; lia]. apply Z.eqb_neq in E2. simpl. congruence.
  - apply Z.eqb_neq in E1. destruct (boundary c) eqn:E2.
    + apply H4; [done|done|]. apply IH1. lia.
    + apply H3; [done|]. apply IH1. lia.
Qed.

Lemma split_from_concat t cur : concat (split_from cur t) = reverse cur ++ t.
Proof.
  apply (split_from_ind (fun cur t lines => concat lines = reverse cur ++ t)); clear.
  - done.
  - intros c cur. simpl. by rewrite !app_nil_r.
  - intros c cur t _ ->. by rewrite reverse_cons, <- app_assoc.
  - intros c cur t _ _ IH. simpl. rewrite IH. by rewrite reverse_cons, <- app_assoc.
  - intros cur t IH. simpl. rewrite IH. by rewrite !reverse_cons, <- !app_assoc.
Qed.

Lemma splitlines_concat t : concat (splitlines t) = t.
Proof. unfold splitlines. by rewrite split_from_concat. Qed.

(** No line is empty, and every line but the last ends with a boundary. *)
Definition lines_ok (lines : list text) : Prop :=
  Forall (fun l => l <> []) lines /\
  forall i l, lines !! i = Some l -> (S i < length lines)%nat -> ends_with_boundary l = true.

Lemma ends_with_boundary_reverse c cur : boundary c = true -> ends_with_boundary (reverse (c :: cur)) = true.
Proof. intros H. unfold ends_with_boundary. rewrite reverse_cons, last_snoc. done. Qed.

Lemma lines_ok_cons l lines : l <> [] -> ends_with_boundary l = true -> lines_ok lines -> lines_ok (l :: lines).
Proof.
  intros H1 H2 [H3 H4]. split; [by constructor|]. intros [|i] l' Hl Hi; simpl in *; [congruence|].
  apply (H4 i); [done|lia].
Qed.

Lemma reverse_nonempty {A} (x : A) l : reverse (x :: l) <> [].
Proof. rewrite reverse_cons. by destruct (reverse l). Qed.

Lemma split_from_ok t cur : lines_ok (split_from cur t).
Proof.
  apply (split_from_ind (fun cur t lines => lines_ok lines)); clear.
  - by split.
  - intros c cur. split; [constructor; [apply reverse_nonempty|done]|]. intros [|i] l Hl Hi; simpl in *; [lia|done].
  - done.
  - intros c cur t Hc _ IH. apply lines_ok_cons; [apply reverse_nonempty|by apply ends_with_boundary_reverse|done].
  - intros cur t IH. apply lines_ok_cons; [apply reverse_nonempty|by apply ends_with_boundary_reverse|done].
Qed.

Lemma splitlines_ok t : lines_ok (splitlines t).
Proof. apply split_from_ok. Qed.

Lemma splitlines_nil t : splitlines t = [] <-> t = [].
Proof.
  split; [|by intros ->]. intros H. rewrite <- (splitlines_concat t), H. done.
Qed.

(** ** Lines and offsets *)

(** The offset at which line number [n] starts (and line [n - 1] ends). *)
Definition line_offset (lines : list text) (n : Z) : Z := zlen (concat (take (Z.to_nat (n - 1)) lines)).

Lemma zlen_nonneg {A} (l : list A) : 0 <= zlen l.
Proof. unfold zlen. lia. Qed.

Lemma zlen_app {A} (l1 l2 : list A) : zlen (l1 ++ l2) = zlen l1 + zlen l2.
Proof. unfold zlen. rewrite length_app. lia. Qed.

Lemma zlen_cons {A} (x : A) l : zlen (x :: l) = zlen l + 1.
Proof. unfold zlen. simpl. lia. Qed.

Lemma line_at_spec lines position cursor index :
  cursor <= position < cursor + zlen (concat lines) ->
  let n := line_at lines position cursor index in
  index <= n < index + zlen lines /\
  cursor + line_offset lines (n - index + 1) <= position < cursor + line_offset lines (n - index + 2).
Proof.
  revert cursor index. induction lines as [|l lines IH]; intros cursor index Hp n.
  { unfold zlen in Hp; simpl in Hp. lia. }
  subst n. cbn [line_at]. rewrite zlen_cons. cbn [concat] in Hp. rewrite zlen_app in Hp.
  pose proof (zlen_nonneg lines). destruct (position <? _) eqn:E; bool_to_prop.
  - split; [lia|]. unfold line_offset.
    replace (Z.to_nat (index - index + 1 - 1)) with 0%nat by lia.
    replace (Z.to_nat (index - index + 2 - 1)) with 1%nat by lia. simpl. rewrite app_nil_r.
    unfold zlen at 1. simpl. lia.
  - destruct (IH (cursor + zlen l) (index + 1)) as [H1 H2]; [lia|]. split; [lia|].
    set (n := line_at lines position (cursor + zlen l) (index + 1)) in *. unfold line_offset in *.
    replace (Z.to_nat (n - index + 1 - 1)) with (S (Z.to_nat (n - (index + 1) + 1 - 1))) by lia.
    replace (Z.to_nat (n - index + 2 - 1)) with (S (Z.to_nat (n - (index + 1) + 2 - 1))) by lia.
    cbn [take concat]. rewrite !zlen_app. lia.
Qed.

Lemma line_offset_mono lines m n : m <= n -> line_offset lines m <= line_offset lines n.
Proof.
  intros H. unfold line_offset.
  replace (take (Z.to_nat (m - 1)) lines) with (take (Z.to_nat (m - 1)) (take (Z.to_nat (n - 1)) lines))
    by (rewrite take_take; f_equal; lia).
  set (l := take (Z.to_nat (n - 1)) lines).
  rewrite <- (take_drop (Z.to_nat (m - 1)) l) at 2. rewrite concat_app, zlen_app.
  pose proof (zlen_nonneg (concat (drop (Z.to_nat (m - 1)) l))). lia.
Qed.

Lemma line_offset_first lines : line_offset lines 1 = 0.
Proof. unfold line_offset. by rewrite Z.sub_diag. Qed.

Lemma line_offset_end lines : line_offset lines (zlen lines + 1) = zlen (concat lines).
Proof. unfold line_offset, zlen. rewrite take_ge by lia. done. Qed.

(** Line [n] takes the offsets from its start to the start of the next line. *)
Definition on_line (content : text) (n p : Z) : Prop :=
  1 <= n <= count_text_lines content /\
  line_offset (splitlines content) n <= p < line_offset (splitlines content) (n + 1).

Lemma on_line_unique content m n p : on_line content m p -> on_line content n p -> m = n.
Proof.
  intros [Hm1 Hm2] [Hn1 Hn2]. destruct (Z.lt_trichotomy m n) as [H|[H|H]]; [|done|].
  - pose proof (line_offset_mono (splitlines content) (m + 1) n). lia.
  - pose proof (line_offset_mono (splitlines content) (n + 1) m). lia.
Qed.

Lemma line_number_clamp content p :
  0 <= p <= zlen content -> content <> [] ->
  line_number_at_offset content p = line_at (splitlines content) p 0 1.
Proof.
  intros Hp Hc. unfold line_number_at_offset. rewrite Z.max_r, Z.min_l by lia.
  destruct (splitlines content) eqn:E; [|done]. by apply splitlines_nil in E.
Qed.

Lemma line_number_on_line content p : 0 <= p < zlen content -> on_line content (line_number_at_offset content p) p.
Proof.
  intros Hp. assert (Hc : content <> []) by (intros ->; unfold zlen in Hp; simpl in Hp; lia).
  rewrite line_number_clamp by (done || lia).
  destruct (line_at_spec (splitlines content) p 0 1) as [H1 H2]; [by rewrite splitlines_concat|].
  set (n := line_at (splitlines content) p 0 1) in *. unfold on_line, count_text_lines.
  replace (n - 1 + 1) with n in H2 by lia. replace (n - 1 + 2) with (n + 1) in H2 by lia. lia.
Qed.

Lemma line_number_iff content n p :
  0 <= p < zlen content -> line_number_at_offset content p = n <-> on_line content n p.
Proof.
  intros Hp. split; [intros <-; by apply line_number_on_line|]. intros H.
  eapply on_line_unique; [by apply line_number_on_line|done].
Qed.

Lemma line_number_mono content p q :
  0 <= p <= q -> q < zlen content -> line_number_at_offset content p <= line_number_at_offset content q.
Proof.
  intros Hpq Hq. destruct (line_number_on_line content p) as [Hp1 Hp2]; [lia|].
  destruct (line_number_on_line content q) as [Hq1 Hq2]; [lia|].
  set (m := line_number_at_offset content p) in *. set (n := line_number_at_offset content q) in *.
  destruct (Z.lt_trichotomy m n) as [H|[H|H]]; [lia|lia|].
  pose proof (line_offset_mono (splitlines content) (n + 1) m). lia.
Qed.

(** ** Ranges of lines *)

(** [p] is the first offset of a line. *)
Definition line_start (content : text) (p : Z) : Prop :=
  exists n, 1 <= n <= count_text_lines content /\ p = line_offset (splitlines content) n.

Lemma extend_end_spec lines fin cursor index total end_line :
  lines_ok lines -> total = index + zlen lines - 1 -> cursor < fin ->
  (exists n, index < n <= total /\ fin = cursor + line_offset lines (n - index + 1) /\
     extend_end lines fin cursor index total end_line = n) \/
  ((forall n, index < n <= total -> fin <> cursor + line_offset lines (n - index + 1)) /\
   extend_end lines fin cursor index total end_line = end_line).
Proof.
  revert cursor index. induction lines as [|l lines IH]; intros cursor index [Hne Hb] Ht Hf.
  { right. rewrite Ht. unfold zlen; simpl. split; [lia|done]. }
  cbn [extend_end]. rewrite zlen_cons in Ht. pose proof (zlen_nonneg lines).
  assert (Hoff : forall n, index < n -> line_offset (l :: lines) (n - index + 1) =
            zlen l + line_offset lines (n - (index + 1) + 1)).
  { intros n Hn. unfold line_offset.
    replace (Z.to_nat (n - index + 1 - 1)) with (S (Z.to_nat (n - (index + 1) + 1 - 1))) by lia.
    cbn [take concat]. by rewrite zlen_app. }
  destruct (fin =? cursor + zlen l) eqn:E1; simpl; bool_to_prop.
  - destruct (index <? total) eqn:E2; bool_to_prop; simpl.
    + rewrite (Hb 0%nat l) by (done || (simpl; unfold zlen in *; lia)). left.
      exists (index + 1). split; [lia|]. split; [|done]. rewrite Hoff by lia.
      replace (index + 1 - (index + 1) + 1) with 1 by lia. rewrite line_offset_first. lia.
    + assert (lines = []) as -> by (destruct lines; [done|rewrite zlen_cons in *; pose proof (zlen_nonneg lines); lia]).
      right. split; [lia|done].
  - assert (Hlines : lines_ok lines).
    { split; [by inversion Hne|]. intros i l' Hl Hi. apply (Hb (S i)); [done|simpl; lia]. }
    destruct (decide (cursor + zlen l < fin)) as [Hlt|Hge].
    + destruct (IH (cursor + zlen l) (index + 1) Hlines) as [(n & Hn & Hfin & He)|[Hno He]]; [lia|done| |].
      * left. exists n. split; [lia|]. split; [|done]. rewrite Hoff by lia. lia.
      * right. split; [|done]. intros n Hn. rewrite Hoff by lia.
        destruct (decide (n = index + 1)) as [->|]; [|specialize (Hno n); lia].
        replace (index + 1 - (index + 1) + 1) with 1 by lia. rewrite line_offset_first. lia.
    + assert (Hno : forall n, index < n -> cursor + line_offset (l :: lines) (n - index + 1) <> fin).
      { intros n Hn. rewrite Hoff by done. pose proof (zlen_nonneg (concat (take (Z.to_nat (n - (index + 1) + 1 - 1)) lines))).
        unfold line_offset. lia. }
      right. split; [intros n Hn He; by apply (Hno n); [lia|]|].
      clear IH Hb Hne Hoff Hlines. assert (Hlt : fin < cursor + zlen l) by lia. clear Hge E1 Hno Hf.
      revert Hlt. generalize (cursor + zlen l). generalize (index + 1). clear.
      induction lines as [|l' lines IH]; intros i c Hc; cbn [extend_end]; [done|].
      pose proof (zlen_nonneg l'). rewrite (proj2 (Z.eqb_neq fin (c + zlen l'))) by lia. simpl. apply IH. lia.
Qed.

Lemma line_range_first content s e :
  0 <= s < e -> e <= zlen content -> (line_range_for_offsets content s e).1 = line_number_at_offset content s.
Proof.
  intros H1 H2. assert (Hc : content <> []) by (intros ->; unfold zlen in *; simpl in *; lia).
  unfold line_range_for_offsets. destruct (splitlines content) as [|l lines] eqn:E;
    [by apply splitlines_nil in E|].
  rewrite (Z.max_r 0 s), (Z.min_l s), (Z.max_r s e), (Z.min_l e) by lia.
  by rewrite (proj2 (Z.eqb_neq e s)) by lia.
Qed.

Lemma line_start_number content e :
  0 <= e < zlen content -> line_start content e ->
  e = line_offset (splitlines content) (line_number_at_offset content e).
Proof.
  intros He (n & Hn & Hoff). destruct (line_number_on_line content e He) as [Hm Hm2].
  set (m := line_number_at_offset content e) in *.
  destruct (Z.lt_trichotomy n m) as [H|[H|H]]; [|congruence|].
  - pose proof (line_offset_mono (splitlines content) n m). lia.
  - pose proof (line_offset_mono (splitlines content) (m + 1) n). lia.
Qed.

Lemma line_range_last content s e :
  0 <= s < e -> e <= zlen content ->
  ((e < zlen content /\ line_start content e) /\
   (line_range_for_offsets content s e).2 = line_number_at_offset content e) \/
  (~ (e < zlen content /\ line_start content e) /\
   (line_range_for_offsets content s e).2 = line_number_at_offset content (e - 1)).
Proof.
  intros H1 H2. assert (Hc : content <> []) by (intros ->; unfold zlen in *; simpl in *; lia).
  assert (Hs : line_number_at_offset content s <= line_number_at_offset content (e - 1))
    by (apply line_number_mono; lia).
  pose proof (extend_end_spec (splitlines content) e 0 1 (zlen (splitlines content))
    (line_number_at_offset content (e - 1)) (splitlines_ok content)) as Hext.
  pose proof (line_offset_end (splitlines content)) as Hlast. rewrite splitlines_concat in Hlast.
  assert (Hsplit : (line_range_for_offsets content s e).2 =
    Z.max (line_number_at_offset content s)
      (extend_end (splitlines content) e 0 1 (zlen (splitlines content)) (line_number_at_offset content (e - 1)))).
  { unfold line_range_for_offsets. destruct (splitlines content) as [|l lines] eqn:E;
      [by apply splitlines_nil in E|].
    rewrite (Z.max_r 0 s), (Z.min_l s), (Z.max_r s e), (Z.min_l e) by lia.
    by rewrite (proj2 (Z.eqb_neq e s)) by lia. }
  rewrite Hsplit.
  destruct Hext as [(n & Hn & Hfin & ->)|[Hno ->]]; [lia|lia| |].
  - replace (n - 1 + 1) with n in Hfin by lia. left.
    assert (He : on_line content n e).
    { split; [unfold count_text_lines; lia|]. split; [lia|].
      pose proof (splitlines_ok content) as [Hne _].
      destruct (lookup_lt_is_Some_2 (splitlines content) (Z.to_nat (n - 1))) as [l Hl]; [unfold zlen in *; lia|].
      rewrite Forall_forall in Hne. assert (Hl0 : l <> []) by (apply Hne; by eapply list_elem_of_lookup_2).
      unfold line_offset in *. replace (Z.to_nat (n + 1 - 1)) with (S (Z.to_nat (n - 1))) by lia.
      rewrite (take_S_r _ _ _ Hl), concat_app, zlen_app. simpl. rewrite app_nil_r.
      destruct l; [done|]. rewrite zlen_cons. pose proof (zlen_nonneg l). lia. }
    assert (e < zlen content).
    { destruct He as [_ He]. pose proof (line_offset_mono (splitlines content) (n + 1) (zlen (splitlines content) + 1)).
      lia. }
    assert (Hne : line_number_at_offset content e = n) by (apply line_number_iff; [lia|done]).
    split; [|rewrite Hne; pose proof (line_number_mono content s e); lia].
    split; [done|]. exists n. split; [apply He|lia].
  - right. split; [|lia]. intros [He (n & Hn & Hoff)].
    destruct (decide (n = 1)) as [->|]; [rewrite line_offset_first in Hoff; lia|].
    unfold count_text_lines in Hn. apply (Hno n); [lia|]. replace (n - 1 + 1) with n by lia. lia.
Qed.

(** The line range of an edit is exactly the lines it can affect.  It spans every line
    that holds a character of the interval, and the following line too exactly when the
    interval consumes the terminator before it; for every text and every interval inside
    it, whatever line terminators the text uses. *)
Theorem line_range_exact content s e :
  0 <= s < e -> e <= zlen content ->
  let r := line_range_for_offsets content s e in
  (forall p, s <= p < e -> r.1 <= line_number_at_offset content p <= r.2) /\
  r.1 = line_number_at_offset content s /\
  (e < zlen content -> line_start content e -> r.2 = line_number_at_offset content e) /\
  (~ (e < zlen content /\ line_start content e) -> r.2 = line_number_at_offset content (e - 1)).
Proof.
  intros H1 H2. cbv zeta. pose proof (line_range_first content s e H1 H2) as Hf.
  assert (Hle : line_number_at_offset content (e - 1) <= (line_range_for_offsets content s e).2).
  { destruct (line_range_last content s e H1 H2) as [[[? _] ->]|[_ ->]]; [|lia].
    apply line_number_mono; lia. }
  split_and!.
  - intros p Hp. rewrite Hf. pose proof (line_number_mono content s p).
    pose proof (line_number_mono content p (e - 1)). lia.
  - done.
  - intros He Hst. by destruct (line_range_last content s e H1 H2) as [[_ ->]|[[] _]].
  - intros Hno. by destruct (line_range_last content s e H1 H2) as [[? _]|[_ ->]].
Qed.

Lemma line_range_exact_witness :
  line_range_for_offsets (lit "ab" ++ [13; 10] ++ lit "cd" ++ [10]) 1 4 = (1, 2) /\
  forall p, 1 <= p < 4 -> 1 <= line_number_at_offset (lit "ab" ++ [13; 10] ++ lit "cd" ++ [10]) p <= 2.
Proof.
  split; [reflexivity|].
  apply (line_range_exact (lit "ab" ++ [13; 10] ++ lit "cd" ++ [10]) 1 4);
    [lia|vm_compute; discriminate].
Defined.

(** Splitting a text into logical lines loses nothing: the lines joined are the text,
    no line is empty, every line but the last ends with a terminator, and
    [line_number_at_offset] returns, for an offset of the text, the one line that holds it. *)
Theorem splitlines_partition content :
  concat (splitlines content) = content /\ lines_ok (splitlines content) /\
  (forall n p, 0 <= p < zlen content -> line_number_at_offset content p = n <-> on_line content n p) /\
  (forall i p, text_line_starts content !! i = Some p -> p = line_offset (splitlines content) (Z.of_nat i + 1)).
Proof.
  split_and!; [apply splitlines_concat|apply splitlines_ok|intros; by apply line_number_iff|].
  unfold text_line_starts, line_offset. intros i p.
  assert (Hg : forall lines c, starts_from c lines !! i = Some p ->
    p = c + zlen (concat (take i lines))); [|intros H%Hg; replace (Z.to_nat (Z.of_nat i + 1 - 1)) with i by lia; lia].
  clear. induction i as [|i IH]; intros [|l lines] c H; simpl in *; try done.
  - injection H as <-. unfold zlen; simpl. lia.
  - apply IH in H. rewrite zlen_app. lia.
Qed.
