(* ===== verification/FileSystem.v ===== *)
(** * The file system and the atomic replacement of a file

    [resolve_file_path], [file_cache_key], [read_utf8_text_exact] and
    [atomic_compare_and_swap_utf8] of [_file_core/file_state.py] over a file system that
    maps resolved paths to nodes.  What the operating system decides is an argument:
    how a path spelling resolves, the name [mkstemp] picks, which calls fail with
    [OSError], and what other processes do to the files before the pre-image check.
    Both lock stripes are held from there to the replacement, so no cooperating writer
    acts in between; writers that ignore the advisory lock are not modelled there.  The
    lock directory and its files live under the system's temporary directory and are no
    nodes of the model; the calls on them appear by their failures. *)

From S2P Require Import Prelude Dict Utf8 Sha256 PyValue.
From Stdlib Require Import Ascii.
Open Scope Z_scope.

Inductive node :=
| RegularFile (data : bytes) (mode mtime_ns : Z)
| Directory
| Special.

Record fs := FS { nodes : dict string node; clock : Z }.

Inductive io_error :=
| OSError (what : string)
| PathValueError                  (* ValueError of a path operation *)
| PathRuntimeError                (* RuntimeError of a path operation *)
| UnicodeError
| FileContentChangedError (why : string)
| FileSnapshotReadError
| ToolExecutionError (error_code : string) (details : list (string * json)).  (* receipt: applied *)

Abbreviation F := (M fs io_error).

(** ** Paths *)

(** A path operation raises [OSError], [ValueError] or [RuntimeError]. *)
Inductive path_error := path_os | path_value | path_runtime.

Record platform := Platform {
  windows : bool;
  expand_resolve : string -> res path_error string;   (* Path(p).expanduser().resolve() *)
  expand_absolute : string -> res path_error string;  (* Path(p).expanduser().absolute() *)
  normcase : string -> string                       (* os.path.normcase *)
}.

Definition resolve_file_path (pf : platform) (file_path : string) : res io_error string :=
  match expand_resolve pf file_path with
  | Ok p => Ok p
  | Raise path_os => Raise (OSError "resolve")
  | Raise path_value => Raise PathValueError
  | Raise path_runtime => Raise PathRuntimeError
  end.

Definition file_cache_key (pf : platform) (file_path : string) : string :=
  match resolve_file_path pf file_path with
  | Ok p => normcase pf p
  | Raise _ =>
      match expand_absolute pf file_path with
      | Ok p => p
      | Raise _ => file_path
      end
  end.

(** The text before and after the last slash. *)
Fixpoint split_path (acc : list ascii) (l : list ascii) : option (list ascii * list ascii) :=
  match l with
  | [] => None
  | c :: l' =>
      match split_path (c :: acc) l' with
      | Some r => Some r
      | None => if bool_decide (c = "/"%char) then Some (reverse acc, l') else None
      end
  end.

Definition parent_dir (p : string) : string :=
  match split_path [] (chars p) with
  | Some ([], _) => "/"
  | Some (dir, _) => of_chars dir
  | None => "."
  end.

(** ** Reading *)

Definition path_exists (s : fs) (p : string) : bool := dmem p (nodes s).
Definition is_file (s : fs) (p : string) : bool :=
  match dget p (nodes s) with Some (RegularFile _ _ _) => true | _ => false end.
Definition is_dir (s : fs) (p : string) : bool :=
  match dget p (nodes s) with Some Directory => true | _ => false end.

(** [unreadable] tells whether the operating system refuses the read. *)
Definition read_utf8_text_exact (unreadable : bool) (p : string) (s : fs) : res io_error text :=
  match dget p (nodes s) with
  | None => Raise (OSError "FileNotFoundError")
  | Some (RegularFile data _ _) =>
      if unreadable then Raise (OSError "PermissionError")
      else match utf8_decode data with Some t => Ok t | None => Raise UnicodeError end
  | Some _ => Raise (OSError "IsADirectoryError")
  end.

Definition st_mtime_ns (p : string) (s : fs) : Z :=
  match dget p (nodes s) with
  | Some (RegularFile _ _ m) => m
  | Some _ => 0
  | None => -1
  end.

(** ** Writing *)

Definition set_node (p : string) (n : node) (s : fs) : fs := FS (dset p n (nodes s)) (clock s).
Definition remove_node (p : string) (s : fs) : fs := FS (ddel p (nodes s)) (clock s).

(** [Path.mkdir(parents=True, exist_ok=True)] *)
Fixpoint mkdir_parents (fuel : nat) (p : string) : F unit :=
  do! s <- sget ;;
  match dget p (nodes s) with
  | Some Directory => sret tt
  | Some _ => sthrow (OSError "FileExistsError")
  | None =>
      match dget (parent_dir p) (nodes s), fuel with
      | Some Directory, _ => smodify (set_node p Directory)
      | Some _, _ => sthrow (OSError "NotADirectoryError")
      | None, O => sthrow (OSError "FileNotFoundError")
      | None, S fuel => seq! mkdir_parents fuel (parent_dir p) ;; smodify (set_node p Directory)
      end
  end.

(** Which system calls of one replacement fail, and what happens around it. *)
Record swap_env := SwapEnv {
  temp_name : string;          (* the name mkstemp picks *)
  other_writers : fs -> fs;    (* what other processes do before the pre-image check *)
  mkdir_fails : bool;
  mkstemp_fails : bool;
  write_fails : bool;          (* write, flush, fsync or close of the temporary file *)
  reread_fails : bool;
  chmod_fails : bool;
  replace_fails : bool;
  dir_open_fails : bool;
  dir_fsync_fails : bool;
  dir_close_fails : bool;
  unlink_fails : bool;         (* an OSError other than FileNotFoundError *)
  lock_root_fails : bool;      (* mkdir of the lock directory *)
  lock_open_fails : bool;
  lock_fails : bool;           (* flock(LOCK_EX), or its Windows counterpart *)
  unlock_fails : bool;
  lock_close_fails : bool
}.

(** [try: m finally: c] *)
Definition sfinally {A} (m : F A) (c : F unit) : F A :=
  fun s => let '(s1, r) := m s in
           match c s1 with
           | (s2, Ok _) => (s2, r)
           | (s2, Raise e) => (s2, Raise e)
           end.

Definition try_os (fails : bool) (what : string) : F unit := sguard fails (OSError what).

(** Write the replacement into the temporary file. *)
Definition stage_replacement (ev : swap_env) (new_content : text) : F unit :=
  do! data <- slift (match utf8_encode new_content with Some d => Ok d | None => Raise UnicodeError end) ;;
  seq! try_os (write_fails ev) "write" ;;
  smodify (fun s => set_node (temp_name ev) (RegularFile data 384 (clock s)) s).

(** The final pre-image check; a replaced file keeps its mode. *)
Definition check_pre_image (ev : swap_env) (resolved : string) (expected_content : option text) : F unit :=
  do! s <- sget ;;
  match expected_content with
  | None => sguard (path_exists s resolved) (FileContentChangedError "path appeared before commit")
  | Some expected =>
      seq! sguard (negb (path_exists s resolved) || negb (is_file s resolved))
             (FileContentChangedError "path disappeared or changed kind") ;;
      match read_utf8_text_exact (reread_fails ev) resolved s with
      | Raise _ => sthrow (FileContentChangedError "could not revalidate")
      | Ok current =>
          seq! sguard (bool_decide (current <> expected)) (FileContentChangedError "file changed before commit") ;;
          seq! try_os (chmod_fails ev) "chmod" ;;
          match dget resolved (nodes s), dget (temp_name ev) (nodes s) with
          | Some (RegularFile _ mode _), Some (RegularFile data _ m) =>
              smodify (set_node (temp_name ev) (RegularFile data (Z.land mode 4095) m))
          | _, _ => sthrow (OSError "chmod")
          end
      end
  end.

(** [os.replace(temporary, resolved)] *)
Definition replace_file (ev : swap_env) (resolved : string) : F unit :=
  seq! try_os (replace_fails ev) "replace" ;;
  do! s <- sget ;;
  match dget (temp_name ev) (nodes s) with
  | Some n => smodify (fun s => set_node resolved n (remove_node (temp_name ev) s))
  | None => sthrow (OSError "replace")
  end.

(** Make the directory entry durable; a failure here comes after the commit. *)
Definition sync_details (resolved : string) (directory_synced : bool) : list (string * json) :=
  [("file_path", JStr resolved); ("directory_synced", JBool directory_synced)].

Definition sync_directory (pf : platform) (ev : swap_env) (resolved : string) : F unit :=
  if windows pf then sret tt
  else
    seq! sguard (dir_open_fails ev || dir_fsync_fails ev)
           (ToolExecutionError "DURABILITY_FAILED" (sync_details resolved false)) ;;
    sguard (dir_close_fails ev) (ToolExecutionError "DIRECTORY_CLOSE_FAILED" (sync_details resolved true)).

(** A missing temporary file is ignored; any other failure leaves the call, whether the
    file is still there or was already renamed. *)
Definition unlink_temporary (ev : swap_env) : F unit :=
  seq! try_os (unlink_fails ev) "unlink" ;;
  do! s <- sget ;;
  if path_exists s (temp_name ev) then smodify (remove_node (temp_name ev)) else sret tt.

(** The directory must exist, or is created first. *)
Definition prepare_parent (ev : swap_env) (parent : string) (create_parents : bool) : F unit :=
  seq! (if create_parents
        then seq! try_os (mkdir_fails ev) "mkdir" ;; mkdir_parents (String.length parent) parent
        else sret tt) ;;
  do! s <- sget ;;
  seq! sguard (negb (is_dir s parent)) (OSError "NotADirectoryError") ;;
  try_os (mkstemp_fails ev) "mkstemp".

Definition swap_body (pf : platform) (ev : swap_env) (resolved : string)
    (expected_content : option text) (new_content : text) : F unit :=
  seq! smodify (fun s => set_node (temp_name ev) (RegularFile [] 384 (clock s)) s) ;;
  sfinally
    (seq! stage_replacement ev new_content ;;
     seq! smodify (other_writers ev) ;;
     seq! check_pre_image ev resolved expected_content ;;
     seq! replace_file ev resolved ;;
     sync_directory pf ev resolved)
    (unlink_temporary ev).

Definition _atomic_compare_and_swap_locked (pf : platform) (ev : swap_env) (resolved : string)
    (expected_content : option text) (new_content : text) (create_parents : bool) : F unit :=
  seq! prepare_parent ev (parent_dir resolved) create_parents ;;
  swap_body pf ev resolved expected_content new_content.

(** [with _process_file_lock(handle)]: an error of the unlocking replaces the outcome. *)
Definition _process_file_lock {A} (ev : swap_env) (body : F A) : F A :=
  seq! try_os (lock_fails ev) "flock" ;;
  sfinally body (try_os (unlock_fails ev) "flock").

(** The lock file is opened around the lock and closed after it. *)
Definition with_lock_file {A} (ev : swap_env) (body : F A) : F A :=
  seq! try_os (lock_root_fails ev) "mkdir" ;;
  seq! try_os (lock_open_fails ev) "open" ;;
  sfinally (_process_file_lock ev body) (try_os (lock_close_fails ev) "close").

Definition atomic_compare_and_swap_utf8 (pf : platform) (ev : swap_env) (file_path : string)
    (expected_content : option text) (new_content : text) (create_parents : bool) : F unit :=
  do! resolved <- slift (resolve_file_path pf file_path) ;;
  with_lock_file ev (_atomic_compare_and_swap_locked pf ev resolved expected_content new_content create_parents).

(** The lock stripe of a file: the first eight digest bytes, big endian, modulo 256. *)
Definition MUTATION_LOCK_BUCKET_COUNT : Z := 256.
Definition from_bytes_big (l : bytes) : Z := foldl (fun acc b => 256 * acc + b) 0 l.
Definition _mutation_lock_bucket (file_key : string) : Z :=
  from_bytes_big (take 8 (sha256 (string_bytes file_key))) mod MUTATION_LOCK_BUCKET_COUNT.

(** ** What a replacement does *)

(** The file system the pre-image check looks at. *)
Definition found (ev : swap_env) (data : bytes) (s : fs) : fs :=
  other_writers ev (set_node (temp_name ev) (RegularFile data 384 (clock s)) s).

(** The pre-image matches: the file holds the expected text, or there is no file. *)
Definition pre_image (s : fs) (resolved : string) (expected : option text) : Prop :=
  match expected with
  | None => dget resolved (nodes s) = None
  | Some t => exists data mode m, dget resolved (nodes s) = Some (RegularFile data mode m) /\ utf8_decode data = Some t
  end.

(** The permission bits of the new file: those of the file it replaces. *)
Definition mode_kept (s : fs) (resolved : string) (mode : Z) : Prop :=
  match dget resolved (nodes s) with
  | Some (RegularFile _ old _) => mode = Z.land old 4095
  | _ => mode = 384
  end.

(** What an outcome tells the caller about the file. *)
Inductive verdict := Applied | NotApplied | Uncertain.

#[export] Instance verdict_eq_dec : EqDecision verdict.
Proof. solve_decision. Defined.

(** A plain [OSError] may come from before the commit or from after it. *)
Definition swap_says (r : res io_error unit) : verdict :=
  match r with
  | Ok _ | Raise (ToolExecutionError _ _) => Applied
  | Raise (OSError _) => Uncertain
  | Raise _ => NotApplied
  end.

(** The calls after the commit whose failure is a plain [OSError]. *)
Definition late_failure (ev : swap_env) : bool := unlink_fails ev || unlock_fails ev || lock_close_fails ev.

(** The operating system gives the temporary file to this process alone. *)
Record private_temp (ev : swap_env) (resolved : string) (s : fs) : Prop := {
  pt_fresh : dget (temp_name ev) (nodes s) = None;
  pt_other : temp_name ev <> resolved;
  pt_untouched : forall s, dget (temp_name ev) (nodes (other_writers ev s)) = dget (temp_name ev) (nodes s)
}.

Definition applied (ev : swap_env) (resolved : string) (expected : option text) (new : text) (s s' : fs)
    : Prop :=
  exists data, utf8_encode new = Some data /\
    pre_image (found ev data s) resolved expected /\
    (exists mode m, dget resolved (nodes s') = Some (RegularFile data mode m) /\
       mode_kept (found ev data s) resolved mode) /\
    (forall p, p <> resolved -> p <> temp_name ev -> dget p (nodes s') = dget p (nodes (found ev data s))) /\
    dget (temp_name ev) (nodes s') = None.

(** Nothing of this process is left, except a temporary file whose removal failed. *)
Record refused (ev : swap_env) (base s' : fs) : Prop := {
  rf_others : forall p, p <> temp_name ev -> dget p (nodes s') = dget p (nodes base);
  rf_temp : unlink_fails ev = false -> dget (temp_name ev) (nodes s') = None
}.

(** The replacement did not take place: all files are those of [s], or what the other
    processes made of them. *)
Definition not_applied (ev : swap_env) (s s' : fs) : Prop :=
  s' = s \/ exists base, (base = s \/ exists data, base = found ev data s) /\ refused ev base s'.

(** What is known of a replacement from its outcome. *)
Definition swap_outcome (ev : swap_env) (resolved : string) (expected : option text) (new : text)
    (s s' : fs) (says : verdict) : Prop :=
  (says <> Applied /\ not_applied ev s s') \/
  (says <> NotApplied /\ (says = Uncertain -> late_failure ev = true) /\ applied ev resolved expected new s s').

Lemma not_applied_refl ev s : not_applied ev s s.
Proof. by left. Qed.

Lemma unlink_refused ev base s :
  (forall p, p <> temp_name ev -> dget p (nodes s) = dget p (nodes base)) ->
  refused ev base (unlink_temporary ev s).1.
Proof.
  intros H. unfold unlink_temporary, sbind, sget, path_exists, try_os, sguard.
  destruct (unlink_fails ev) eqn:Eu; simpl; [by split; [apply H|congruence]|].
  destruct (dmem (temp_name ev) (nodes s)) eqn:E; split; simpl; try done; intros.
  - rewrite dget_ddel_ne by done. by apply H.
  - apply dget_ddel_eq.
  - by apply dmem_false.
Qed.

(** A [finally] block keeps the outcome or replaces it by its own [OSError]. *)
Definition only_os_errors (c : F unit) : Prop := forall s e, (c s).2 = Raise e -> exists w, e = OSError w.

Lemma try_os_errors b w : only_os_errors (try_os b w).
Proof. intros s e. unfold try_os, sguard. destruct b; [|done]. intros [= <-]. by eexists. Qed.

Lemma try_os_state b w s : (try_os b w s).1 = s.
Proof. unfold try_os, sguard. by destruct b. Qed.

Lemma unlink_errors ev : only_os_errors (unlink_temporary ev).
Proof.
  intros s e. unfold unlink_temporary, sbind, sget, try_os, sguard.
  destruct (unlink_fails ev); simpl; [intros [= <-]; by eexists|]. by destruct (path_exists _ _).
Qed.

Lemma finally_os {A} (m : F A) c s :
  only_os_errors c ->
  (sfinally m c s).1 = (c (m s).1).1 /\
  (((c (m s).1).2 = Ok tt /\ (sfinally m c s).2 = (m s).2) \/
   (exists w, (c (m s).1).2 = Raise (OSError w) /\ (sfinally m c s).2 = Raise (OSError w))).
Proof.
  intros Hc. unfold sfinally. destruct (m s) as [s1 r]. cbn [fst snd]. pose proof (Hc s1) as Hs.
  destruct (c s1) as [s2 [[]|e]]; cbn [fst snd] in *; split; try done; [by left|].
  right. destruct (Hs e eq_refl) as [w ->]. by exists w.
Qed.

Definition plain (e : io_error) : Prop := forall c b, e <> ToolExecutionError c b.

Lemma check_spec ev resolved expected data m sX :
  dget (temp_name ev) (nodes sX) = Some (RegularFile data 384 m) -> temp_name ev <> resolved ->
  let '(sY, r) := check_pre_image ev resolved expected sX in
  (exists e, r = Raise e /\ plain e /\ sY = sX) \/
  (r = Ok tt /\ pre_image sX resolved expected /\
   (exists mode, dget (temp_name ev) (nodes sY) = Some (RegularFile data mode m) /\ mode_kept sX resolved mode) /\
   forall p, p <> temp_name ev -> dget p (nodes sY) = dget p (nodes sX)).
Proof.
  intros Ht Hne. unfold check_pre_image, sbind, sget, path_exists, is_file. destruct expected as [t|].
  - destruct (dget resolved (nodes sX)) as [[old mode m'| |]|] eqn:Er;
      [| by rewrite orb_true_r; left; eexists..].
    unfold dmem. rewrite Er. simpl. unfold read_utf8_text_exact. rewrite Er.
    destruct (reread_fails ev); [by left; eexists|].
    destruct (utf8_decode old) as [cur|] eqn:Ed; [|by left; eexists].
    unfold try_os, sguard. case_bool_decide as Hc; simpl; [by left; eexists|]. subst cur.
    destruct (chmod_fails ev); simpl; [by left; eexists|]. rewrite Ht. simpl. right. split_and!; [done| | |].
    + by exists old, mode, m'.
    + exists (Z.land mode 4095). rewrite dget_dset_eq. split; [done|]. unfold mode_kept. by rewrite Er.
    + intros p Hp. by rewrite dget_dset_ne by congruence.
  - unfold sguard. destruct (dmem resolved (nodes sX)) eqn:Em; simpl; [by left; eexists|].
    apply dmem_false in Em. right. split_and!; [done..| |done]. exists 384. split; [done|].
    unfold mode_kept. by rewrite Em.
Qed.

(** The part inside [try]: it fails before the commit, or commits. *)
Definition swap_try (pf : platform) (ev : swap_env) (resolved : string) (expected : option text) (new : text) : F unit :=
  seq! stage_replacement ev new ;;
  seq! smodify (other_writers ev) ;;
  seq! check_pre_image ev resolved expected ;;
  seq! replace_file ev resolved ;;
  sync_directory pf ev resolved.

Lemma swap_try_spec pf ev resolved expected new s n :
  private_temp ev resolved s ->
  let '(s', r) := swap_try pf ev resolved expected new (set_node (temp_name ev) n s) in
  (swap_says r = Applied /\ applied ev resolved expected new s s') \/
  (exists e, r = Raise e /\ plain e /\
     exists base, (base = s \/ exists data, base = found ev data s) /\
       forall p, p <> temp_name ev -> dget p (nodes s') = dget p (nodes base)).
Proof.
  intros [Hfresh Hne Hpriv]. unfold swap_try, sbind at 1, stage_replacement, sbind at 1, slift.
  assert (Hs : forall p, p <> temp_name ev -> dget p (nodes (set_node (temp_name ev) n s)) = dget p (nodes s))
    by (intros p Hp; simpl; by rewrite dget_dset_ne by congruence).
  destruct (utf8_encode new) as [data|] eqn:Enc; [|by right; eexists; split_and!; [..|exists s; split; [left|]]].
  unfold sbind at 1, try_os, sguard. destruct (write_fails ev);
    [by right; eexists; split_and!; [..|exists s; split; [left|]]|].
  cbn [sret smodify]. unfold sbind at 1, smodify at 1. cbn [fst snd].
  replace (set_node (temp_name ev) (RegularFile data 384 (clock (set_node (temp_name ev) n s)))
    (set_node (temp_name ev) n s)) with (set_node (temp_name ev) (RegularFile data 384 (clock s)) s)
    by (unfold set_node; simpl; by rewrite dset_dset).
  fold (found ev data s). set (sX := found ev data s).
  assert (HtX : dget (temp_name ev) (nodes sX) = Some (RegularFile data 384 (clock s))).
  { unfold sX, found. rewrite Hpriv. simpl. apply dget_dset_eq. }
  unfold sbind at 1. pose proof (check_spec ev resolved expected data (clock s) sX HtX Hne) as Hc.
  destruct (check_pre_image ev resolved expected sX) as [sY r].
  destruct Hc as [(e & -> & He & ->)|(-> & Hpre & (mode & HtY & Hmode) & HY)].
  { right. exists e. split_and!; [done..|]. exists sX. split; [right; by exists data|done]. }
  unfold sbind at 1, replace_file, sbind at 1, try_os, sguard. destruct (replace_fails ev).
  { right. eexists. split_and!; [done..|]. exists sX. split; [right; by exists data|done]. }
  cbn [sret]. unfold sbind, sget. rewrite HtY. unfold smodify. cbn [fst snd].
  set (s' := set_node resolved (RegularFile data mode (clock s)) (remove_node (temp_name ev) sY)).
  assert (Happ : applied ev resolved expected new s s').
  { exists data. fold sX. split_and!; [done|done| | |].
    - exists mode, (clock s). split; [|done]. unfold s'; simpl. by rewrite dget_dset_eq.
    - intros p Hp1 Hp2. unfold s'; simpl. rewrite dget_dset_ne, dget_ddel_ne by congruence. by apply HY.
    - unfold s'; simpl. rewrite dget_dset_ne by congruence. apply dget_ddel_eq. }
  unfold sync_directory, sbind, sguard.
  destruct (windows pf); [by left|]. destruct (dir_open_fails ev || dir_fsync_fails ev); [by left|]. simpl.
  destruct (dir_close_fails ev); by left.
Qed.

Lemma plain_not_applied e : plain e -> swap_says (Raise e) <> Applied.
Proof. intros He. destruct e; try done. by destruct (He error_code details). Qed.

Lemma swap_body_spec pf ev resolved expected new s :
  private_temp ev resolved s ->
  let out := swap_body pf ev resolved expected new s in
  swap_outcome ev resolved expected new s out.1 (swap_says out.2).
Proof.
  intros Hp. unfold swap_body. fold (swap_try pf ev resolved expected new). unfold sbind, smodify.
  pose proof (swap_try_spec pf ev resolved expected new s (RegularFile [] 384 (clock s)) Hp) as Ht.
  cbv zeta. cbn [fst snd]. set (sT := set_node _ _ s) in *.
  destruct (finally_os (swap_try pf ev resolved expected new) _ sT (unlink_errors ev)) as [Hs Hr]. rewrite Hs.
  destruct (swap_try pf ev resolved expected new sT) as [s1 r1]. cbn [fst snd] in *.
  destruct Ht as [[Hsay Ha]|(e & -> & He & base & Hb & Hn)].
  - assert (Hu : (unlink_temporary ev s1).1 = s1 /\ ((unlink_temporary ev s1).2 <> Ok tt -> unlink_fails ev = true)).
    { destruct Ha as (data & _ & _ & _ & _ & Hd). unfold unlink_temporary, sbind, sget, path_exists, try_os, sguard.
      destruct (unlink_fails ev); simpl; [done|]. by rewrite (proj2 (dmem_false _ _) Hd). }
    destruct Hu as [-> Hu]. right. unfold late_failure.
    destruct Hr as [[_ ->]|(w & Hw & ->)]; [by rewrite Hsay|]. split_and!; [done| |done].
    intros _. by rewrite Hu by (rewrite Hw; done).
  - left. split; [|right; exists base; split; [done|by apply unlink_refused]].
    destruct Hr as [[_ ->]|(w & _ & ->)]; [by apply plain_not_applied|done].
Qed.

(** A [finally] block that fails after the replacement makes the outcome uncertain. *)
Lemma late_outcome {ev resolved expected new s} (m : F unit) b w sm :
  (b = true -> late_failure ev = true) ->
  swap_outcome ev resolved expected new s (m sm).1 (swap_says (m sm).2) ->
  let out := sfinally m (try_os b w) sm in
  swap_outcome ev resolved expected new s out.1 (swap_says out.2).
Proof.
  intros Hb Hm. cbv zeta. unfold sfinally. destruct (m sm) as [s1 r]. cbn [fst snd] in Hm.
  unfold try_os, sguard. destruct b; [|done]. cbn [fst snd sthrow].
  destruct Hm as [[_ Hn]|(_ & _ & Ha)]; [by left|right]. split_and!; [done|by intros _; apply Hb|done].
Qed.

(** Creating the parents adds directories and changes nothing else. *)
Definition adds_directories (s s' : fs) : Prop :=
  forall p, dget p (nodes s') = dget p (nodes s) \/
            (dget p (nodes s) = None /\ dget p (nodes s') = Some Directory).

#[export] Instance adds_directories_preorder : PreOrder adds_directories.
Proof.
  split; [by left|]. intros s1 s2 s3 H12 H23 p.
  destruct (H12 p) as [E1|[E1 E2]], (H23 p) as [E3|[E3 E4]]; rewrite ?E1, ?E3 in *; auto; congruence.
Qed.

Lemma set_directory s p : dget p (nodes s) = None -> adds_directories s (set_node p Directory s).
Proof.
  intros H q. simpl. rewrite dget_dset. destruct (decide (p = q)) as [<-|]; [by right|by left].
Qed.

Lemma mkdir_adds_directories fuel p s : adds_directories s (mkdir_parents fuel p s).1.
Proof.
  revert p s. induction fuel as [|fuel IH]; intros p s; cbn [mkdir_parents]; unfold sbind, sget;
    destruct (dget p (nodes s)) as [[]|] eqn:E; try reflexivity;
    destruct (dget (parent_dir p) (nodes s)) as [[]|] eqn:Ep; try reflexivity;
    try (by apply set_directory).
  specialize (IH (parent_dir p) s). destruct (mkdir_parents fuel (parent_dir p) s) as [s1 [u|e]]; [|done].
  simpl in *. intros q. simpl. rewrite dget_dset. destruct (decide (p = q)) as [<-|]; [by right|apply IH].
Qed.

Lemma prepare_parent_adds ev parent b s : adds_directories s (prepare_parent ev parent b s).1.
Proof.
  unfold prepare_parent, sbind, sget, try_os, sguard. destruct b; simpl.
  - destruct (mkdir_fails ev); simpl; [reflexivity|].
    pose proof (mkdir_adds_directories (String.length parent) parent s) as H.
    destruct (mkdir_parents (String.length parent) parent s) as [s1 [u|e]]; simpl in *; [|done].
    destruct (negb _), (mkstemp_fails ev); done.
  - destruct (negb _), (mkstemp_fails ev); reflexivity.
Qed.

Lemma prepare_parent_plain ev parent b s e : (prepare_parent ev parent b s).2 = Raise e -> plain e.
Proof.
  assert (Hm : forall fuel p s e, (mkdir_parents fuel p s).2 = Raise e -> plain e).
  { clear. induction fuel as [|fuel IH]; intros p s e; cbn [mkdir_parents]; unfold sbind, sget;
      destruct (dget p (nodes s)) as [[]|]; try done; try (by intros [= <-]);
      destruct (dget (parent_dir p) (nodes s)) as [[]|]; try done; try (by intros [= <-]).
    specialize (IH (parent_dir p) s). destruct (mkdir_parents fuel (parent_dir p) s) as [s1 [u|e']]; [done|].
    simpl. intros [= <-]. by apply IH. }
  unfold prepare_parent, sbind, sget, try_os, sguard. destruct b; simpl.
  - destruct (mkdir_fails ev); simpl; [by intros [= <-]|].
    specialize (Hm (String.length parent) parent s).
    destruct (mkdir_parents (String.length parent) parent s) as [s1 [u|e']]; simpl in *.
    + destruct (negb _); simpl; [by intros [= <-]|]. destruct (mkstemp_fails ev); by intros [= <-].
    + intros [= <-]. by apply Hm.
  - destruct (negb _); simpl; [by intros [= <-]|]. destruct (mkstemp_fails ev); by intros [= <-].
Qed.

Lemma swap_locked_spec pf ev resolved expected new b s :
  let s0 := (prepare_parent ev (parent_dir resolved) b s).1 in
  private_temp ev resolved s0 ->
  let out := _atomic_compare_and_swap_locked pf ev resolved expected new b s in
  swap_outcome ev resolved expected new s0 out.1 (swap_says out.2).
Proof.
  intros s0 Hp. unfold _atomic_compare_and_swap_locked, sbind. subst s0.
  pose proof (prepare_parent_plain ev (parent_dir resolved) b s) as Hpl.
  destruct (prepare_parent ev (parent_dir resolved) b s) as [s1 [u|e]]; cbn [fst snd] in *.
  - by apply swap_body_spec.
  - left. split; [by apply plain_not_applied, Hpl|apply not_applied_refl].
Qed.

(** The call stops at the lock, before anything was touched, or the body runs under it. *)
Lemma with_lock_cases {A} ev (body : F A) s :
  (exists w, with_lock_file ev body s = (s, Raise (OSError w))) \/
  with_lock_file ev body s =
    sfinally (sfinally body (try_os (unlock_fails ev) "flock")) (try_os (lock_close_fails ev) "close") s.
Proof.
  unfold with_lock_file, _process_file_lock, sbind, sfinally, try_os, sguard.
  destruct (lock_root_fails ev); [left; by eexists|]. destruct (lock_open_fails ev); [left; by eexists|].
  destruct (lock_fails ev); [|by right]. left. destruct (lock_close_fails ev); by eexists.
Qed.

Lemma swap_spec pf ev path resolved expected new b s :
  resolve_file_path pf path = Ok resolved ->
  let s0 := (prepare_parent ev (parent_dir resolved) b s).1 in
  private_temp ev resolved s0 ->
  let out := atomic_compare_and_swap_utf8 pf ev path expected new b s in
  exists s1, (s1 = s \/ s1 = s0) /\ swap_outcome ev resolved expected new s1 out.1 (swap_says out.2).
Proof.
  intros Hres s0 Hp. unfold atomic_compare_and_swap_utf8, sbind, slift. rewrite Hres. cbv beta iota zeta.
  assert (Hstop : forall w, exists s1, (s1 = s \/ s1 = s0) /\
    swap_outcome ev resolved expected new s1 s (swap_says (Raise (OSError w)))).
  { intros w. exists s. split; [by left|]. left. split; [done|apply not_applied_refl]. }
  destruct (with_lock_cases ev (_atomic_compare_and_swap_locked pf ev resolved expected new b) s) as [[w ->]| ->];
    [apply Hstop|].
  exists s0. split; [by right|]. apply late_outcome.
  { intros H. unfold late_failure. by rewrite H, orb_true_r. }
  apply late_outcome; [|by apply swap_locked_spec].
  intros H. unfold late_failure. by rewrite H, orb_true_r.
Qed.

Lemma prepare_parent_false ev parent s : (prepare_parent ev parent false s).1 = s.
Proof. unfold prepare_parent, sbind, sget, try_os, sguard. simpl. by destruct (negb _), (mkstemp_fails ev). Qed.

(** Without parents to create, and for a path that is resolved already. *)
Lemma swap_in_place pf ev resolved expected new s :
  expand_resolve pf resolved = Ok resolved -> private_temp ev resolved s ->
  let out := atomic_compare_and_swap_utf8 pf ev resolved expected new false s in
  swap_outcome ev resolved expected new s out.1 (swap_says out.2).
Proof.
  intros Hres Hp. pose proof (swap_spec pf ev resolved resolved expected new false s) as H. cbv zeta in H.
  rewrite prepare_parent_false in H. unfold resolve_file_path in H. rewrite Hres in H.
  by destruct (H eq_refl Hp) as (s1 & [->| ->] & Ho).
Qed.

Lemma applied_reads_back ev resolved expected new s s' :
  applied ev resolved expected new s s' -> read_utf8_text_exact false resolved s' = Ok new.
Proof.
  intros (data & Henc & _ & (mode & m & Hd & _) & _). unfold read_utf8_text_exact. rewrite Hd.
  by rewrite (decode_encode _ _ Henc).
Qed.


Definition demo_fs : fs :=
  FS [("/", Directory); ("/d", Directory); ("/d/f", RegularFile (lit "old") 420 7)] 9.
Definition demo_env : swap_env :=
  SwapEnv "/d/.f.pal-1" (fun s => s) false false false false false false false false false false
    false false false false false.
Definition demo_platform : platform := Platform false (fun p => Ok p) (fun p => Ok p) (fun p => p).


(** The lock file cannot be closed after the commit: the caller gets an [OSError], the
    new text is in place. *)
Definition late_env : swap_env :=
  SwapEnv "/d/.f.pal-1" (fun s => s) false false false false false false false false false false
    false false false false true.

Example late_error_after_commit :
  let '(s', r) := atomic_compare_and_swap_utf8 demo_platform late_env "/d/f" (Some (lit "old")) (lit "new") false demo_fs in
  swap_says r = Uncertain /\ read_utf8_text_exact false "/d/f" s' = Ok (lit "new").
Proof. by vm_compute. Qed.
