(* ===== verification/SwapRace.v ===== *)
(** * Concurrent replacements

    Cooperating writers run [atomic_compare_and_swap_utf8] at the same time, in one
    process or several.  A writer takes the lock stripe of its file, stages its text,
    checks the pre-image and replaces the file; the stripe is held until it is done.
    The steps of different writers interleave freely. *)

From S2P Require Import Prelude Dict Utf8 FileSystem.
Open Scope Z_scope.

Inductive pc := Waiting | Locked | Checked | Done (committed : bool).

Record writer := Writer {
  wr_key : string;
  wr_expected : option text;
  wr_new : text;
  wr_pc : pc
}.

(** [ra_log]: the commits so far, newest first: file, pre-image, new text. *)
Record race := Race {
  ra_files : dict string text;
  ra_writers : dict nat writer;
  ra_log : list (string * option text * text)
}.

Definition holds_lock (w : writer) : bool :=
  match wr_pc w with Locked | Checked => true | _ => false end.

Definition bucket_free (r : race) (key : string) : Prop :=
  forall i w, dget i (ra_writers r) = Some w -> holds_lock w = true ->
    _mutation_lock_bucket (wr_key w) <> _mutation_lock_bucket key.

Definition move (i : nat) (w : writer) (p : pc) (r : race) : race :=
  Race (ra_files r) (dset i (Writer (wr_key w) (wr_expected w) (wr_new w) p) (ra_writers r)) (ra_log r).

Inductive race_step : race -> race -> Prop :=
| race_lock r i w :
    dget i (ra_writers r) = Some w -> wr_pc w = Waiting -> bucket_free r (wr_key w) ->
    race_step r (move i w Locked r)
| race_check r i w :
    dget i (ra_writers r) = Some w -> wr_pc w = Locked ->
    race_step r (move i w
      (if decide (dget (wr_key w) (ra_files r) = wr_expected w) then Checked else Done false) r)
| race_fail r i w : (* any other error of a writer that holds its stripe *)
    dget i (ra_writers r) = Some w -> holds_lock w = true ->
    race_step r (move i w (Done false) r)
| race_commit r i w :
    dget i (ra_writers r) = Some w -> wr_pc w = Checked ->
    race_step r (Race (dset (wr_key w) (wr_new w) (ra_files r))
      (dset i (Writer (wr_key w) (wr_expected w) (wr_new w) (Done true)) (ra_writers r))
      ((wr_key w, wr_expected w, wr_new w) :: ra_log r)).

(** The commits on a file form a chain from its first text to the current one. *)
Fixpoint replay (initial : dict string text) (log : list (string * option text * text)) : option (dict string text) :=
  match log with
  | [] => Some initial
  | (key, expected, new) :: log =>
      match replay initial log with
      | Some files => if decide (dget key files = expected) then Some (dset key new files) else None
      | None => None
      end
  end.

(** Stripes exclude each other, and a checked pre-image stays current. *)
Record race_ok (initial : dict string text) (r : race) : Prop := {
  ro_exclusive : forall i j w1 w2, dget i (ra_writers r) = Some w1 -> dget j (ra_writers r) = Some w2 ->
    holds_lock w1 = true -> holds_lock w2 = true ->
    _mutation_lock_bucket (wr_key w1) = _mutation_lock_bucket (wr_key w2) -> i = j;
  ro_checked : forall i w, dget i (ra_writers r) = Some w -> wr_pc w = Checked ->
    dget (wr_key w) (ra_files r) = wr_expected w;
  ro_replay : replay initial (ra_log r) = Some (ra_files r)
}.

(** Moving one writer, never into the lock, keeps the exclusion. *)
Lemma move_exclusive initial r i w p :
  race_ok initial r -> dget i (ra_writers r) = Some w ->
  (holds_lock (Writer (wr_key w) (wr_expected w) (wr_new w) p) = true -> holds_lock w = true \/ bucket_free r (wr_key w)) ->
  forall j k w1 w2, dget j (ra_writers (move i w p r)) = Some w1 -> dget k (ra_writers (move i w p r)) = Some w2 ->
    holds_lock w1 = true -> holds_lock w2 = true ->
    _mutation_lock_bucket (wr_key w1) = _mutation_lock_bucket (wr_key w2) -> j = k.
Proof.
  intros [Hex _ _] Hi Hl j k w1 w2. cbn [move ra_writers]. rewrite !dget_dset.
  destruct (decide (i = j)) as [<-|Hj], (decide (i = k)) as [<-|Hk]; [done| | |by eauto].
  - intros [= <-] H2 Hl1 Hl2 Hb. destruct (Hl Hl1) as [H|H]; [by eapply Hex|]. by destruct (H _ _ H2 Hl2).
  - intros H1 [= <-] Hl1 Hl2 Hb. destruct (Hl Hl2) as [H|H]; [by eapply Hex|]. by destruct (H _ _ H1 Hl1).
Qed.

Lemma race_step_ok initial r r' : race_ok initial r -> race_step r r' -> race_ok initial r'.
Proof.
  intros Hok Hstep. pose proof Hok as [Hex Hch Hre].
  destruct Hstep as [r i w Hi Hp Hfree|r i w Hi Hp|r i w Hi Hp|r i w Hi Hp].
  - split; [apply (move_exclusive initial); auto|..]; [|done].
    intros j w'. cbn [move ra_writers]. rewrite dget_dset. destruct (decide (i = j)); [by intros [= <-]|]. apply Hch.
  - split; [apply (move_exclusive initial); auto; left; unfold holds_lock; by rewrite Hp|..]; [|done].
    intros j w'. cbn [move ra_writers ra_files]. rewrite dget_dset. destruct (decide (i = j)) as [<-|]; [|apply Hch].
    intros [= <-]. cbn. by case_decide.
  - split; [apply (move_exclusive initial); auto|..]; [|done].
    intros j w'. cbn [move ra_writers]. rewrite dget_dset. destruct (decide (i = j)); [by intros [= <-]|]. apply Hch.
  - assert (Hl : holds_lock w = true) by (unfold holds_lock; by rewrite Hp). split.
    + apply (move_exclusive initial r i w (Done true) Hok Hi). by left.
    + intros j w'. cbn [ra_writers ra_files]. rewrite !dget_dset. destruct (decide (i = j)) as [<-|Hj]; [by intros [= <-]|].
      intros Hw' Hc. destruct (decide (wr_key w = wr_key w')) as [E|]; [|by apply Hch in Hw'].
      exfalso. apply Hj. eapply (Hex i j); [done|done|done|unfold holds_lock; by rewrite Hc|by rewrite E].
    + cbn. rewrite Hre. rewrite decide_True; [done|]. by apply (Hch i).
Qed.

(** C8: no update is lost.  However cooperating writers interleave, the commits on the files
    replay as a sequence in which every commit found exactly the pre-image its caller
    had read, and the files are the result of that sequence. *)
Theorem concurrent_swaps_linearize initial writers r :
  (forall i w, dget i writers = Some w -> wr_pc w = Waiting) ->
  rtc race_step (Race initial writers []) r ->
  replay initial (ra_log r) = Some (ra_files r).
Proof.
  intros Hw Hrun. apply (rtc_ind_r (R := race_step) (race_ok initial) (Race initial writers [])); [| |exact Hrun].
  - assert (Hn : forall i w, dget i writers = Some w -> holds_lock w = false)
      by (intros i w H; unfold holds_lock; by rewrite (Hw i w H)).
    split; cbn; [|intros i w Hi Hc; apply Hw in Hi; congruence|done].
    intros i j w1 w2 H1 _ Hl1. apply Hn in H1. congruence.
  - intros r1 r2 _ Hs Ho. by eapply race_step_ok.
Qed.

Definition two_writers : dict nat writer :=
  [(0%nat, Writer "/f" (Some (lit "a")) (lit "b") Waiting); (1%nat, Writer "/f" (Some (lit "a")) (lit "c") Waiting)].

Lemma concurrent_swaps_linearize_witness :
  exists r, rtc race_step (Race [("/f", lit "a")] two_writers []) r /\ ra_log r <> [] /\
    replay [("/f", lit "a")] (ra_log r) = Some (ra_files r).
Proof.
  set (r0 := Race [("/f", lit "a")] two_writers []).
  set (w := Writer "/f" (Some (lit "a")) (lit "b") Waiting).
  set (r1 := move 0 w Locked r0). set (w1 := Writer "/f" (Some (lit "a")) (lit "b") Locked).
  set (r2 := move 0 w1 Checked r1). set (w2 := Writer "/f" (Some (lit "a")) (lit "b") Checked).
  set (r3 := Race (dset "/f" (lit "b") (ra_files r2))
    (dset 0%nat (Writer "/f" (Some (lit "a")) (lit "b") (Done true)) (ra_writers r2)) [("/f", Some (lit "a"), lit "b")]).
  assert (Hrun : rtc race_step r0 r3).
  { eapply rtc_l; [apply (race_lock r0 0%nat w); [done|done|]|].
    - intros [|[|i]] w' Hw' Hl; cbn in Hw'; [injection Hw' as <-; discriminate Hl..|discriminate Hw'].
    - eapply rtc_l; [exact (race_check r1 0%nat w1 eq_refl eq_refl)|].
      apply rtc_once. exact (race_commit r2 0%nat w2 eq_refl eq_refl). }
  exists r3. split_and!; [done|done|].
  apply (concurrent_swaps_linearize [("/f", lit "a")] two_writers r3); [|done].
  intros [|[|i]] w' Hw'; simpl in Hw'; [by injection Hw' as <-|by injection Hw' as <-|done].
Defined.
