(* ===== verification/SessionData.v ===== *)
(** * The records of the logical execution session

    The frozen dataclasses of [_file_core/session_state.py] with their
    [to_dict]/[from_dict] pairs: delivery spans and manifests, grants, snapshots and
    result leases.  [from_dict] reads dynamic values with Python's coercions and may
    raise. *)

From S2P Require Import Prelude Dict Utf8 Sha256 PyValue JsonText Ranges.
Open Scope Z_scope.

Definition DEFAULT_RESULT_RETENTION_USER_TURNS : Z := 5.

Abbreviation P := (res py_error).

(** ** [LogicalExecutionContext] *)

Record LogicalExecutionContext := Context {
  cx_execution_lifetime_id : string;
  cx_input_id : string;
  cx_current_user_turn : Z;
  cx_retention_user_turns : Z
}.

Definition context_to_dict (c : LogicalExecutionContext) : obj :=
  [("execution_lifetime_id", JStr (cx_execution_lifetime_id c));
   ("input_id", JStr (cx_input_id c));
   ("current_user_turn", JInt (cx_current_user_turn c));
   ("retention_user_turns", JInt (cx_retention_user_turns c))].

Definition context_from_dict (v : obj) : P LogicalExecutionContext :=
  let! turn := get_int 0 0 "current_user_turn" v in
  let! retention := get_int 1 DEFAULT_RESULT_RETENTION_USER_TURNS "retention_user_turns" v in
  Ok (Context (get_str "execution_lifetime_id" v) (get_str "input_id" v) turn retention).

(** ** [FileDeliverySpan] *)

Record FileDeliverySpan := Span {
  sp_start_offset : Z;
  sp_end_offset : Z;
  sp_start_line : Z;
  sp_end_line : Z;
  sp_visible_start_in_line : Z;
  sp_visible_end_in_line : Z;
  sp_line_length : Z
}.

#[export] Instance span_eq_dec : EqDecision FileDeliverySpan.
Proof. solve_decision. Defined.

Definition span_to_dict (s : FileDeliverySpan) : obj :=
  [("start_offset", JInt (sp_start_offset s));
   ("end_offset", JInt (sp_end_offset s));
   ("start_line", JInt (sp_start_line s));
   ("end_line", JInt (sp_end_line s));
   ("visible_start_in_line", JInt (sp_visible_start_in_line s));
   ("visible_end_in_line", JInt (sp_visible_end_in_line s));
   ("line_length", JInt (sp_line_length s))].

Definition span_from_dict (v : obj) : P FileDeliverySpan :=
  let! start_offset := get_int 0 0 "start_offset" v in
  let! end_offset := get_int 0 0 "end_offset" v in
  let! line_length := get_int 0 (end_offset - start_offset) "line_length" v in
  let! visible_end :=
    match jget "visible_end_in_line" v with
    | JNull => Ok line_length
    | raw => py_int raw
    end in
  let! start_line := get_int 0 0 "start_line" v in
  let! end_line := get_int 0 0 "end_line" v in
  let! visible_start := get_int 0 0 "visible_start_in_line" v in
  Ok (Span start_offset end_offset start_line end_line visible_start (Z.max 0 visible_end) line_length).

(** ** Ranges, fragments and identifiers inside a dictionary *)

Definition pair_to_json (r : range) : json := JList [JInt r.1; JInt r.2].
Definition fragment_to_json (f : fragment) : json :=
  JList [JInt (fr_line f); JInt (fr_start f); JInt (fr_end f); JInt (fr_length f)].

(** [tuple((int(i[0]), int(i[1])) for i in list(v.get(k) or ()) if isinstance(i, list) and len(i) == 2)] *)
Fixpoint pairs_of (l : list json) : P (list range) :=
  match l with
  | [] => Ok []
  | JList [a; b] :: l =>
      let! x := py_int a in let! y := py_int b in let! rest := pairs_of l in Ok ((x, y) :: rest)
  | _ :: l => pairs_of l
  end.
Definition get_pairs (k : string) (v : obj) : P (list range) :=
  let! l := get_list k v in pairs_of l.

Fixpoint fragments_of (l : list json) : P (list fragment) :=
  match l with
  | [] => Ok []
  | JList [a; b; c; d] :: l =>
      let! x := py_int a in let! y := py_int b in let! z := py_int c in let! w := py_int d in
      let! rest := fragments_of l in Ok (Fragment x y z w :: rest)
  | _ :: l => fragments_of l
  end.
Definition get_fragments (k : string) (v : obj) : P (list fragment) :=
  let! l := get_list k v in fragments_of l.

(** [tuple(str(i) for i in list(v.get(k) or ()) if str(i))] *)
Definition get_ids (k : string) (v : obj) : P (list string) :=
  let! l := get_list k v in Ok (filter (fun s => s <> "") (py_str <$> l)).

(** ** [FileDeliveryManifest] *)

Record FileDeliveryManifest := Manifest {
  mf_file_key : string;
  mf_digest : string;
  mf_total_lines : Z;
  mf_spans : list FileDeliverySpan;
  mf_empty_file : bool;
  mf_empty_marker : string;
  mf_replay_result_ref : string;
  mf_operation : string;
  mf_before_digest : string;
  mf_inherited_ranges : list range;
  mf_parent_result_ids : list string;
  mf_complete_file : bool;
  mf_remote : obj
}.

Definition EMPTY_MARKER : string := "(empty file)".

Definition manifest_to_dict (m : FileDeliveryManifest) : obj :=
  [("kind", JStr "file_lines");
   ("file_key", JStr (mf_file_key m));
   ("digest", JStr (mf_digest m));
   ("total_lines", JInt (mf_total_lines m));
   ("spans", JList ((fun s => JObj (span_to_dict s)) <$> mf_spans m));
   ("empty_file", JBool (mf_empty_file m));
   ("empty_marker", JStr (mf_empty_marker m));
   ("replay_result_ref", JStr (mf_replay_result_ref m));
   ("operation", JStr (mf_operation m));
   ("before_digest", JStr (mf_before_digest m));
   ("inherited_ranges", JList (pair_to_json <$> mf_inherited_ranges m));
   ("parent_result_ids", JList (JStr <$> mf_parent_result_ids m));
   ("complete_file", JBool (mf_complete_file m));
   ("remote", JObj (mf_remote m))].

(** The items of [spans] that are mappings. *)
Fixpoint spans_of (l : list json) : P (list FileDeliverySpan) :=
  match l with
  | [] => Ok []
  | JObj d :: l => let! s := span_from_dict d in let! rest := spans_of l in Ok (s :: rest)
  | _ :: l => spans_of l
  end.

Definition str_default (k : string) (fallback : string) (v : obj) : string :=
  py_str (jor (jget k v) (JStr fallback)).

(** [None] is a payload of another kind. *)
Definition manifest_from_dict (v : obj) : P (option FileDeliveryManifest) :=
  match jget "kind" v with
  | JStr kind =>
      if decide (kind <> "file_lines") then Ok None else
      let! remote := py_dict (jor (jget "remote" v) (JObj [])) in
      let! total_lines := get_int 0 0 "total_lines" v in
      let! raw_spans := get_list "spans" v in
      let! spans := spans_of raw_spans in
      let! inherited := get_pairs "inherited_ranges" v in
      let! parents := get_ids "parent_result_ids" v in
      Ok (Some (Manifest (get_str "file_key" v) (get_str "digest" v) total_lines spans
        (get_bool "empty_file" v) (str_default "empty_marker" EMPTY_MARKER v)
        (get_str "replay_result_ref" v) (str_default "operation" "read" v)
        (get_str "before_digest" v) inherited parents (get_bool "complete_file" v) remote))
  | _ => Ok None
  end.

(** [FileDeliveryManifest.slice(start_offset, end_offset)]: one span of the window. *)
Definition slice_span (start_offset end_offset : Z) (s : FileDeliverySpan) : list FileDeliverySpan :=
  let visible_start := Z.max (sp_start_offset s) start_offset in
  let visible_end := Z.min (sp_end_offset s) end_offset in
  if visible_end <=? visible_start then []
  else [Span (visible_start - start_offset) (visible_end - start_offset)
          (sp_start_line s) (sp_end_line s)
          (sp_visible_start_in_line s + visible_start - sp_start_offset s)
          (sp_visible_start_in_line s + visible_end - sp_start_offset s)
          (sp_line_length s)].

Definition slice (m : FileDeliveryManifest) (start_offset end_offset : Z)
    : option FileDeliveryManifest :=
  let selected := mf_spans m ≫= slice_span start_offset end_offset in
  let proof_end := zmax_list 0 (sp_end_offset <$> mf_spans m) in
  let full_proof_visible :=
    (start_offset =? 0) && ((proof_end =? 0) || (proof_end <=? end_offset)) in
  let empty_visible := mf_empty_file m && full_proof_visible in
  let complete_visible := mf_complete_file m && full_proof_visible in
  let inherited_visible := if full_proof_visible then mf_inherited_ranges m else [] in
  if bool_decide (selected = []) && negb empty_visible && negb complete_visible
     && bool_decide (inherited_visible = [])
  then None
  else Some (Manifest (mf_file_key m) (mf_digest m) (mf_total_lines m) selected empty_visible
    (mf_empty_marker m) (mf_replay_result_ref m) (mf_operation m) (mf_before_digest m)
    inherited_visible (if bool_decide (inherited_visible = []) then [] else mf_parent_result_ids m)
    complete_visible (mf_remote m)).

(** ** [FileGrant] *)

Record FileGrant := Grant {
  gr_file_key : string;
  gr_digest : string;
  gr_total_lines : Z;
  gr_covered_ranges : list range;
  gr_empty_file : bool;
  gr_line_fragments : list fragment;
  gr_result_ids : list string
}.

Definition grant_complete (g : FileGrant) : bool :=
  if gr_total_lines g =? 0 then gr_empty_file g
  else existsb (fun r => (r.1 <=? 1) && (gr_total_lines g <=? r.2)) (gr_covered_ranges g).

Definition grant_to_dict (g : FileGrant) : obj :=
  [("file_key", JStr (gr_file_key g));
   ("digest", JStr (gr_digest g));
   ("total_lines", JInt (gr_total_lines g));
   ("covered_ranges", JList (pair_to_json <$> gr_covered_ranges g));
   ("empty_file", JBool (gr_empty_file g));
   ("line_fragments", JList (fragment_to_json <$> gr_line_fragments g));
   ("result_ids", JList (JStr <$> gr_result_ids g))].

Definition grant_from_dict (v : obj) : P FileGrant :=
  let! total_lines := get_int 0 0 "total_lines" v in
  let! covered := get_pairs "covered_ranges" v in
  let! fragments := get_fragments "line_fragments" v in
  let! ids := get_ids "result_ids" v in
  Ok (Grant (get_str "file_key" v) (get_str "digest" v) total_lines covered
        (get_bool "empty_file" v) fragments ids).

(** ** [FileSnapshot] *)

Record FileSnapshot := Snapshot {
  sn_file_key : string;
  sn_digest : string;
  sn_total_lines : Z;
  sn_complete : bool;
  sn_created_user_turn : Z;
  sn_expires_at_user_turn : Z;
  sn_source : string
}.

Definition snapshot_to_dict (s : FileSnapshot) : obj :=
  [("file_key", JStr (sn_file_key s));
   ("digest", JStr (sn_digest s));
   ("total_lines", JInt (sn_total_lines s));
   ("complete", JBool (sn_complete s));
   ("created_user_turn", JInt (sn_created_user_turn s));
   ("expires_at_user_turn", JInt (sn_expires_at_user_turn s));
   ("source", JStr (sn_source s))].

Definition normal_source (source : string) : string :=
  if decide (source = "mutation") then "mutation" else "delivery".

Definition snapshot_from_dict (v : obj) : P FileSnapshot :=
  let! total_lines := get_int 0 0 "total_lines" v in
  let! created := get_int 0 0 "created_user_turn" v in
  let! expires := get_int 0 0 "expires_at_user_turn" v in
  Ok (Snapshot (get_str "file_key" v) (get_str "digest" v) total_lines (get_bool "complete" v)
        created expires (normal_source (get_str "source" v))).

(** ** [FileResultLease] *)

Record FileResultLease := Lease {
  ls_result_id : string;
  ls_file_key : string;
  ls_digest : string;
  ls_total_lines : Z;
  ls_standalone_ranges : list range;
  ls_inherited_ranges : list range;
  ls_parent_result_ids : list string;
  ls_empty_file : bool;
  ls_complete_file : bool;
  ls_operation : string;
  ls_before_digest : string;
  ls_created_user_turn : Z;
  ls_line_fragments : list fragment
}.

Definition lease_to_dict (l : FileResultLease) : obj :=
  [("result_id", JStr (ls_result_id l));
   ("file_key", JStr (ls_file_key l));
   ("digest", JStr (ls_digest l));
   ("total_lines", JInt (ls_total_lines l));
   ("standalone_ranges", JList (pair_to_json <$> ls_standalone_ranges l));
   ("inherited_ranges", JList (pair_to_json <$> ls_inherited_ranges l));
   ("parent_result_ids", JList (JStr <$> ls_parent_result_ids l));
   ("empty_file", JBool (ls_empty_file l));
   ("complete_file", JBool (ls_complete_file l));
   ("operation", JStr (ls_operation l));
   ("before_digest", JStr (ls_before_digest l));
   ("created_user_turn", JInt (ls_created_user_turn l));
   ("line_fragments", JList (fragment_to_json <$> ls_line_fragments l))].

Definition lease_from_dict (v : obj) : P FileResultLease :=
  let! total_lines := get_int 0 0 "total_lines" v in
  let! standalone := get_pairs "standalone_ranges" v in
  let! inherited := get_pairs "inherited_ranges" v in
  let! parents := get_ids "parent_result_ids" v in
  let! created := get_int 0 0 "created_user_turn" v in
  let! fragments := get_fragments "line_fragments" v in
  Ok (Lease (get_str "result_id" v) (get_str "file_key" v) (get_str "digest" v) total_lines
        standalone inherited parents (get_bool "empty_file" v) (get_bool "complete_file" v)
        (str_default "operation" "read" v) (get_str "before_digest" v) created fragments).

(** ** Values that survive a round trip *)

(** An absent or zero line length is read as the offset difference. *)
Definition span_ok (s : FileDeliverySpan) : Prop :=
  0 <= sp_start_offset s /\ 0 <= sp_end_offset s /\ 0 <= sp_start_line s /\ 0 <= sp_end_line s /\
  0 <= sp_visible_start_in_line s /\ 0 <= sp_visible_end_in_line s /\ 0 <= sp_line_length s /\
  (sp_line_length s = 0 -> sp_end_offset s <= sp_start_offset s).

Definition ids_ok (ids : list string) : Prop := Forall (fun s => s <> "") ids.

Definition manifest_ok (m : FileDeliveryManifest) : Prop :=
  0 <= mf_total_lines m /\ Forall span_ok (mf_spans m) /\ mf_empty_marker m <> "" /\
  mf_operation m <> "" /\ ids_ok (mf_parent_result_ids m).

Definition grant_ok (g : FileGrant) : Prop := 0 <= gr_total_lines g /\ ids_ok (gr_result_ids g).

Definition snapshot_ok (s : FileSnapshot) : Prop :=
  0 <= sn_total_lines s /\ 0 <= sn_created_user_turn s /\ 0 <= sn_expires_at_user_turn s /\
  normal_source (sn_source s) = sn_source s.

Definition lease_ok (l : FileResultLease) : Prop :=
  0 <= ls_total_lines l /\ 0 <= ls_created_user_turn l /\ ls_operation l <> "" /\
  ids_ok (ls_parent_result_ids l).

Definition context_ok (c : LogicalExecutionContext) : Prop :=
  0 <= cx_current_user_turn c /\ 1 <= cx_retention_user_turns c.

(** ** Round trips *)

Lemma pairs_roundtrip l : pairs_of (pair_to_json <$> l) = Ok l.
Proof.
  induction l as [|[a b] l IH]; [done|]. rewrite fmap_cons. cbn [pairs_of pair_to_json fst snd].
  by rewrite IH.
Qed.

Lemma fragments_roundtrip l : fragments_of (fragment_to_json <$> l) = Ok l.
Proof.
  induction l as [|[a b c d] l IH]; [done|]. rewrite fmap_cons.
  cbn [fragments_of fragment_to_json fr_line fr_start fr_end fr_length]. by rewrite IH.
Qed.

Lemma get_pairs_of k v l : jget k v = JList (pair_to_json <$> l) -> get_pairs k v = Ok l.
Proof. intros H. unfold get_pairs. rewrite (get_list_of _ _ _ H). apply pairs_roundtrip. Qed.

Lemma get_fragments_of k v l :
  jget k v = JList (fragment_to_json <$> l) -> get_fragments k v = Ok l.
Proof. intros H. unfold get_fragments. rewrite (get_list_of _ _ _ H). apply fragments_roundtrip. Qed.

Lemma get_ids_of k v l : jget k v = JList (JStr <$> l) -> ids_ok l -> get_ids k v = Ok l.
Proof.
  intros H Hl. unfold get_ids. rewrite (get_list_of _ _ _ H). cbn [rbind]. f_equal. clear H.
  induction Hl as [|s l Hs Hl IH]; [done|]. rewrite !fmap_cons, filter_cons.
  rewrite decide_True by done. by rewrite IH.
Qed.

Lemma str_default_of k fb s v : jget k v = JStr s -> s <> "" -> str_default k fb v = s.
Proof.
  intros H Hs. unfold str_default, jor. rewrite H. simpl. by rewrite (proj2 (str_truthy_spec s)).
Qed.

Lemma span_roundtrip s : span_ok s -> span_from_dict (span_to_dict s) = Ok s.
Proof.
  destruct s as [a b c d e f g]. intros (H1 & H2 & H3 & H4 & H5 & H6 & H7 & H8); simpl in *.
  unfold span_from_dict.
  rewrite (get_int_of 0 "start_offset" a), (get_int_of 0 "end_offset" b), (get_int_of 0 "start_line" c),
    (get_int_of 0 "end_line" d), (get_int_of 0 "visible_start_in_line" e) by done. simpl.
  destruct (decide (g = 0)) as [->|Hg].
  - assert (Hl : get_int 0 (b - a) "line_length" (span_to_dict (Span a b c d e f 0)) = Ok 0).
    { unfold get_int, rmap, jor, jget; simpl. f_equal. lia. }
    rewrite Hl. simpl. f_equal. f_equal. lia.
  - rewrite (get_int_pos 0 (b - a) "line_length" g) by done. simpl. f_equal. f_equal. lia.
Qed.

Lemma spans_roundtrip l : Forall span_ok l -> spans_of ((fun s => JObj (span_to_dict s)) <$> l) = Ok l.
Proof.
  induction 1 as [|s l Hs Hl IH]; [done|]. cbn [fmap list_fmap spans_of].
  rewrite span_roundtrip by done. simpl. by rewrite IH.
Qed.

Lemma manifest_roundtrip m :
  manifest_ok m -> manifest_from_dict (manifest_to_dict m) = Ok (Some m).
Proof.
  intros (H1 & H2 & H3 & H4 & H5). unfold manifest_from_dict.
  set (v := manifest_to_dict m). change (jget "kind" v) with (JStr "file_lines").
  assert (Hr : py_dict (jor (jget "remote" v) (JObj [])) = Ok (mf_remote m)).
  { change (jget "remote" v) with (JObj (mf_remote m)). unfold jor. by destruct (mf_remote m). }
  rewrite Hr, (get_int_of 0 "total_lines" (mf_total_lines m)) by done. simpl.
  rewrite (get_list_of "spans" _ v eq_refl). simpl. rewrite spans_roundtrip by done. simpl.
  rewrite (get_pairs_of "inherited_ranges" v (mf_inherited_ranges m) eq_refl). simpl.
  rewrite (get_ids_of "parent_result_ids" v (mf_parent_result_ids m) eq_refl) by done. simpl.
  rewrite (get_str_of "file_key" (mf_file_key m)), (get_str_of "digest" (mf_digest m)),
    (get_bool_of "empty_file" (mf_empty_file m)), (get_str_of "replay_result_ref" (mf_replay_result_ref m)),
    (get_str_of "before_digest" (mf_before_digest m)), (get_bool_of "complete_file" (mf_complete_file m)),
    (str_default_of "empty_marker" EMPTY_MARKER (mf_empty_marker m)),
    (str_default_of "operation" "read" (mf_operation m)) by done.
  by destruct m.
Qed.

Lemma lease_roundtrip l : lease_ok l -> lease_from_dict (lease_to_dict l) = Ok l.
Proof.
  intros (H1 & H2 & H3 & H4). unfold lease_from_dict. set (v := lease_to_dict l).
  rewrite (get_int_of 0 "total_lines" (ls_total_lines l)) by done. simpl.
  rewrite (get_pairs_of "standalone_ranges" v (ls_standalone_ranges l) eq_refl). simpl.
  rewrite (get_pairs_of "inherited_ranges" v (ls_inherited_ranges l) eq_refl). simpl.
  rewrite (get_ids_of "parent_result_ids" v (ls_parent_result_ids l) eq_refl) by done. simpl.
  rewrite (get_int_of 0 "created_user_turn" (ls_created_user_turn l)) by done. simpl.
  rewrite (get_fragments_of "line_fragments" v (ls_line_fragments l) eq_refl). simpl.
  rewrite (get_str_of "result_id" (ls_result_id l)), (get_str_of "file_key" (ls_file_key l)),
    (get_str_of "digest" (ls_digest l)), (get_bool_of "empty_file" (ls_empty_file l)),
    (get_bool_of "complete_file" (ls_complete_file l)), (get_str_of "before_digest" (ls_before_digest l)),
    (str_default_of "operation" "read" (ls_operation l)) by done.
  by destruct l.
Qed.

Lemma snapshot_roundtrip s : snapshot_ok s -> snapshot_from_dict (snapshot_to_dict s) = Ok s.
Proof.
  intros (H1 & H2 & H3 & H4). unfold snapshot_from_dict.
  rewrite (get_int_of 0 "total_lines" (sn_total_lines s)),
    (get_int_of 0 "created_user_turn" (sn_created_user_turn s)),
    (get_int_of 0 "expires_at_user_turn" (sn_expires_at_user_turn s)) by done. simpl.
  rewrite (get_str_of "file_key" (sn_file_key s)), (get_str_of "digest" (sn_digest s)),
    (get_bool_of "complete" (sn_complete s)), (get_str_of "source" (sn_source s)) by done.
  rewrite H4. by destruct s.
Qed.

Lemma grant_roundtrip g : grant_ok g -> grant_from_dict (grant_to_dict g) = Ok g.
Proof.
  intros (H1 & H2). unfold grant_from_dict. set (v := grant_to_dict g).
  rewrite (get_int_of 0 "total_lines" (gr_total_lines g)) by done. simpl.
  rewrite (get_pairs_of "covered_ranges" v (gr_covered_ranges g) eq_refl). simpl.
  rewrite (get_fragments_of "line_fragments" v (gr_line_fragments g) eq_refl). simpl.
  rewrite (get_ids_of "result_ids" v (gr_result_ids g) eq_refl) by done. simpl.
  rewrite (get_str_of "file_key" (gr_file_key g)), (get_str_of "digest" (gr_digest g)),
    (get_bool_of "empty_file" (gr_empty_file g)) by done.
  by destruct g.
Qed.

Lemma context_roundtrip c : context_ok c -> context_from_dict (context_to_dict c) = Ok c.
Proof.
  intros (H1 & H2). unfold context_from_dict.
  rewrite (get_int_of 0 "current_user_turn" (cx_current_user_turn c)),
    (get_int_pos 1 DEFAULT_RESULT_RETENTION_USER_TURNS "retention_user_turns" (cx_retention_user_turns c))
    by (done || lia). simpl.
  rewrite (get_str_of "execution_lifetime_id" (cx_execution_lifetime_id c)),
    (get_str_of "input_id" (cx_input_id c)) by done.
  by destruct c.
Qed.

(** ** What a manifest proves visible *)

(** [shows m offset line position]: the character at [offset] of the delivered text is
    the character at [position] of the line block that starts at [line]. *)
Definition span_shows (s : FileDeliverySpan) (offset first last position : Z) : Prop :=
  sp_start_offset s <= offset < sp_end_offset s /\ sp_start_line s = first /\
  sp_end_line s = last /\ position = sp_visible_start_in_line s + offset - sp_start_offset s.

Definition shows (m : FileDeliveryManifest) (offset first last position : Z) : Prop :=
  exists s, s ∈ mf_spans m /\ span_shows s offset first last position.

Lemma slice_span_elem a b s t :
  t ∈ slice_span a b s <->
  Z.max (sp_start_offset s) a < Z.min (sp_end_offset s) b /\
  t = Span (Z.max (sp_start_offset s) a - a) (Z.min (sp_end_offset s) b - a)
        (sp_start_line s) (sp_end_line s)
        (sp_visible_start_in_line s + Z.max (sp_start_offset s) a - sp_start_offset s)
        (sp_visible_start_in_line s + Z.min (sp_end_offset s) b - sp_start_offset s)
        (sp_line_length s).
Proof.
  unfold slice_span. destruct (_ <=? _) eqn:E; bool_to_prop.
  - rewrite elem_of_nil. lia.
  - rewrite list_elem_of_singleton. intuition lia.
Qed.

Lemma slice_span_shows a b s offset first last position :
  (exists t, t ∈ slice_span a b s /\ span_shows t offset first last position) <->
  0 <= offset < b - a /\ span_shows s (offset + a) first last position.
Proof.
  setoid_rewrite slice_span_elem. unfold span_shows. split.
  - intros (t & (Hlt & ->) & H); simpl in H. lia.
  - intros (Ho & Hs & <- & <- & ->). eexists. split; [split; [|reflexivity]; lia|]. simpl. lia.
Qed.

Lemma slice_spans m a b m' :
  slice m a b = Some m' -> mf_spans m' = mf_spans m ≫= slice_span a b.
Proof. unfold slice. case_if; [done|]. by intros [= <-]. Qed.

(** A page of a delivery proves exactly the characters that are on the page.  Cutting
    the window [a, b) out of a manifest keeps a character visible at an offset of the
    page if and only if the manifest shows it at that offset of the whole text, at the
    same position of the same line; the marks that stand for text outside the page
    (a complete file, an empty file, inherited lines) survive only when the window
    starts at the beginning and reaches past every span. *)
Theorem slice_shows_exactly m a b m' :
  slice m a b = Some m' ->
  (forall offset first last position,
     shows m' offset first last position <->
     0 <= offset < b - a /\ shows m (offset + a) first last position) /\
  (mf_complete_file m' = true \/ mf_empty_file m' = true \/ mf_inherited_ranges m' <> [] ->
   a = 0 /\ Forall (fun s => sp_end_offset s <= b \/ sp_end_offset s <= 0) (mf_spans m)) /\
  mf_file_key m' = mf_file_key m /\ mf_digest m' = mf_digest m.
Proof.
  intros H. pose proof (slice_spans _ _ _ _ H) as Hs. split; [|split].
  - intros offset first last position. unfold shows. rewrite Hs.
    setoid_rewrite list_elem_of_bind. split.
    + intros (t & (s & Ht & Hin) & Hsh).
      destruct (proj1 (slice_span_shows a b s offset first last position)) as [Ho ?]; eauto 10.
    + intros (Ho & s & Hin & Hsh).
      destruct (proj2 (slice_span_shows a b s offset first last position)) as (t & Ht & ?); eauto 10.
  - unfold slice in H. destruct (_ && _ && _ && _) in H; [done|]. injection H as <-. simpl.
    set (p := zmax_list 0 (sp_end_offset <$> mf_spans m)).
    assert (Hp : Forall (fun s => sp_end_offset s <= p) (mf_spans m)).
    { apply Forall_forall. intros s Hin. apply zmax_list_ge, list_elem_of_fmap. eauto. }
    destruct ((a =? 0) && _) eqn:E; [|rewrite !andb_false_r; naive_solver].
    intros _. bool_to_prop. split; [done|]. apply orb_true_iff in H0 as [H0|H0]; bool_to_prop.
    + eapply Forall_impl; [exact Hp|]. simpl. lia.
    + eapply Forall_impl; [exact Hp|]. simpl. lia.
  - unfold slice in H. destruct (_ && _ && _ && _) in H; [done|]. by injection H as <-.
Qed.

Definition two_line_manifest : FileDeliveryManifest :=
  Manifest "/f" "d" 2 [Span 0 4 1 1 0 4 4; Span 4 9 2 2 0 5 5] false EMPTY_MARKER "" "read" ""
    [(7, 8)] ["r"] true [].

Lemma slice_shows_exactly_witness :
  exists m', slice two_line_manifest 2 6 = Some m' /\ shows m' 3 2 2 1.
Proof.
  eexists. split; [reflexivity|].
  apply (slice_shows_exactly two_line_manifest 2 6 _ eq_refl). split; [lia|].
  exists (Span 4 9 2 2 0 5 5). split; [apply list_elem_of_further, list_elem_of_here|].
  unfold span_shows; simpl. lia.
Defined.

(** Every record of the session survives its dictionary form.  Spans, manifests,
    grants, snapshots and leases with the values the code itself builds (counters that
    are not negative, identifiers that are not empty) are read back unchanged by
    [from_dict] from what [to_dict] wrote. *)
Theorem session_records_roundtrip :
  (forall m, manifest_ok m -> manifest_from_dict (manifest_to_dict m) = Ok (Some m)) /\
  (forall l, lease_ok l -> lease_from_dict (lease_to_dict l) = Ok l) /\
  (forall s, snapshot_ok s -> snapshot_from_dict (snapshot_to_dict s) = Ok s) /\
  (forall g, grant_ok g -> grant_from_dict (grant_to_dict g) = Ok g) /\
  (forall c, context_ok c -> context_from_dict (context_to_dict c) = Ok c).
Proof.
  split_and!; auto using manifest_roundtrip, lease_roundtrip, snapshot_roundtrip, grant_roundtrip,
    context_roundtrip.
Qed.

Lemma session_records_roundtrip_witness :
  manifest_from_dict (manifest_to_dict two_line_manifest) = Ok (Some two_line_manifest).
Proof.
  apply session_records_roundtrip. unfold manifest_ok; simpl. repeat split; try done.
  - repeat constructor; unfold span_ok; simpl; lia.
  - by repeat constructor.
Defined.
