(* ===== verification/SessionState.v ===== *)
(** * The logical execution session store

    [InMemoryLogicalExecutionState] of [_file_core/session_state.py]: one
    [_SessionState] per execution lifetime, the leases that delivered results hold on
    file content, and the grants computed from them.  Every method takes the lock for
    its whole body, so a method is one atomic step on the dictionary of sessions. *)

From S2P Require Import Prelude Dict Utf8 Sha256 PyValue JsonText Ranges SessionData.
Open Scope Z_scope.

(** ** [_SessionState] *)

Record _SessionState := SessionState {
  ss_current_user_turn : Z;
  ss_input_ids : dict string Z;
  ss_retention_user_turns : Z;
  ss_snapshots : dict string FileSnapshot;
  ss_file_results : dict string FileResultLease;
  ss_retired : bool
}.

Definition new_session : _SessionState :=
  SessionState 0 [] DEFAULT_RESULT_RETENTION_USER_TURNS [] [] false.

Abbreviation sessions := (dict string _SessionState).

Definition set_snapshots (x : dict string FileSnapshot) (s : _SessionState) : _SessionState :=
  SessionState (ss_current_user_turn s) (ss_input_ids s) (ss_retention_user_turns s) x
    (ss_file_results s) (ss_retired s).
Definition set_file_results (x : dict string FileResultLease) (s : _SessionState) : _SessionState :=
  SessionState (ss_current_user_turn s) (ss_input_ids s) (ss_retention_user_turns s)
    (ss_snapshots s) x (ss_retired s).
Definition set_retention (n : Z) (s : _SessionState) : _SessionState :=
  SessionState (ss_current_user_turn s) (ss_input_ids s) n (ss_snapshots s) (ss_file_results s)
    (ss_retired s).
Definition add_input (input_id : string) (s : _SessionState) : _SessionState :=
  if dmem input_id (ss_input_ids s) then s
  else
    let turn := ss_current_user_turn s + 1 in
    SessionState turn (dset input_id turn (ss_input_ids s)) (ss_retention_user_turns s)
      (ss_snapshots s) (ss_file_results s) (ss_retired s).

Inductive state_error :=
| Required (name : string)            (* ValueError: <name> is required *)
| SessionIsRetired                    (* RuntimeError *)
| BadPayload (e : py_error)           (* a coercion of a payload failed *)
| BadSnapshot (what : string).        (* ValueError of prepare_restore_state *)

Definition payload {A} (r : res py_error A) : res state_error A :=
  match r with Ok a => Ok a | Raise e => Raise (BadPayload e) end.

Definition _required (value name : string) : res state_error string :=
  let normalized := strip value in
  if str_truthy normalized then Ok normalized else Raise (Required name).

Definition _context (session_id input_id : string) (s : _SessionState) : LogicalExecutionContext :=
  Context session_id input_id (ss_current_user_turn s) (ss_retention_user_turns s).

Definition snapshot_alive (turn : Z) (s : FileSnapshot) : bool := turn <? sn_expires_at_user_turn s.

Definition _expire_file_snapshots (s : _SessionState) : _SessionState :=
  set_snapshots (filter (fun p => snapshot_alive (ss_current_user_turn s) p.2 = true) (ss_snapshots s)) s.

(** [self._sessions.setdefault(session_id, _SessionState())]: the session object. *)
Definition session_of (id : string) (d : sessions) : _SessionState := default new_session (dget id d).

Abbreviation W := (M sessions state_error).

Definition setdefault_session (id : string) : W _SessionState :=
  fun d => (dsetdefault id new_session d, Ok (session_of id d)).
Definition put_session (id : string) (s : _SessionState) : W unit := smodify (dset id s).

(** ** Delivery *)

Definition content_digest (content : text) : option string := sha256_hex <$> utf8_encode content.

Definition take_string (n : nat) (s : string) : string := of_chars (take n (chars s)).

Definition _delivery_result_id (delivery : obj) (m : FileDeliveryManifest) : string :=
  let explicit :=
    py_str (jor (jor (jget "result_id" delivery) (jget "_result_id" delivery))
                (JStr (mf_replay_result_ref m))) in
  if str_truthy explicit then explicit
  else
    let identity := JObj [("file_key", JStr (mf_file_key m)); ("digest", JStr (mf_digest m));
                          ("operation", JStr (mf_operation m))] in
    ("legacy:" +:+ take_string 16 (sha256_hex (json_dumps false identity)))%stdpp.

(** A span that shows its lines in full. *)
Definition span_full (s : FileDeliverySpan) : bool :=
  (0 <? sp_start_line s) && (sp_start_line s <=? sp_end_line s) &&
  (sp_visible_start_in_line s <=? 0) && (sp_line_length s <=? sp_visible_end_in_line s).
Definition span_range (s : FileDeliverySpan) : range := (sp_start_line s, sp_end_line s).

Definition span_partial (s : FileDeliverySpan) : bool :=
  (sp_start_line s =? sp_end_line s) && (0 <? sp_line_length s).
Definition span_fragment (s : FileDeliverySpan) : fragment :=
  Fragment (sp_start_line s) (sp_visible_start_in_line s) (sp_visible_end_in_line s) (sp_line_length s).

(** [sorted(set(ids))] *)
Definition sorted_set (ids : list string) : list string := merge_sort String.le (remove_dups ids).

Definition full_ranges (m : FileDeliveryManifest) : list range :=
  span_range <$> filter (fun s => span_full s = true) (mf_spans m).
Definition partial_fragments (m : FileDeliveryManifest) : list fragment :=
  span_fragment <$> filter (fun s => span_partial s = true) (mf_spans m).
Definition whole_file (complete : bool) (total : Z) : list range :=
  if complete && (0 <? total) then [(1, total)] else [].
Definition line_ranges (lines : list Z) : list range := (fun n => (n, n)) <$> lines.

(** The lease this result already holds, when it is about the same content. *)
Definition merged_lease (s : _SessionState) (result_id : string) (m : FileDeliveryManifest)
    (replace_existing : bool) : option FileResultLease :=
  match dget result_id (ss_file_results s) with
  | Some l =>
      if negb replace_existing && bool_decide (ls_digest l = mf_digest m) &&
         bool_decide (ls_file_key l = mf_file_key m)
      then Some l else None
  | None => None
  end.

Definition previous_of {A} (f : FileResultLease -> list A) (previous : option FileResultLease) : list A :=
  match previous with Some l => f l | None => [] end.

(** [ranges] and [fragments] of [_apply_delivery] when the lease is built. *)
Definition delivery_fragments (previous : option FileResultLease) (m : FileDeliveryManifest)
    : list fragment := previous_of ls_line_fragments previous ++ partial_fragments m.
Definition delivery_ranges (previous : option FileResultLease) (m : FileDeliveryManifest)
    : list range :=
  previous_of ls_standalone_ranges previous ++ full_ranges m ++
  line_ranges (_merge_line_fragments (delivery_fragments previous m)).2 ++
  whole_file (mf_complete_file m) (mf_total_lines m).

Definition build_lease (turn : Z) (result_id : string) (previous : option FileResultLease)
    (m : FileDeliveryManifest) : FileResultLease :=
  Lease result_id (mf_file_key m) (mf_digest m) (mf_total_lines m)
    (_merge_ranges (delivery_ranges previous m))
    (_merge_ranges (mf_inherited_ranges m ++ previous_of ls_inherited_ranges previous))
    (sorted_set (mf_parent_result_ids m ++ previous_of ls_parent_result_ids previous))
    (mf_empty_file m || match previous with Some l => ls_empty_file l | None => false end)
    (mf_complete_file m || match previous with Some l => ls_complete_file l | None => false end)
    (mf_operation m) (mf_before_digest m) turn
    (_merge_line_fragments (delivery_fragments previous m)).1.

(** A late read must not replace the snapshot a mutation left. *)
Definition keeps_mutation (previous : option FileSnapshot) (m : FileDeliveryManifest) : bool :=
  match previous with
  | Some p => bool_decide (sn_source p = "mutation") && bool_decide (sn_digest p <> mf_digest m) &&
              bool_decide (mf_operation m = "read")
  | None => false
  end.

Definition delivery_snapshot (s : _SessionState) (previous : option FileResultLease)
    (m : FileDeliveryManifest) : FileSnapshot :=
  let delivered := _merge_ranges (delivery_ranges previous m) in
  Snapshot (mf_file_key m) (mf_digest m) (mf_total_lines m)
    (mf_empty_file m || mf_complete_file m ||
     ((0 <? mf_total_lines m) && any_contains 1 (mf_total_lines m) delivered))
    (ss_current_user_turn s) (ss_current_user_turn s + ss_retention_user_turns s)
    (if decide (mf_operation m ∈ ["edit"; "write"]) then "mutation" else "delivery").

Definition _apply_delivery (s : _SessionState) (delivery : obj) (replace_existing : bool)
    : res py_error _SessionState :=
  let! parsed := manifest_from_dict delivery in
  match parsed with
  | None => Ok s
  | Some m =>
      if negb (str_truthy (mf_file_key m)) || negb (str_truthy (mf_digest m)) then Ok s
      else
        let result_id := _delivery_result_id delivery m in
        let previous := merged_lease s result_id m replace_existing in
        let s1 := set_file_results
          (dset result_id (build_lease (ss_current_user_turn s) result_id previous m)
             (ss_file_results s)) s in
        if keeps_mutation (dget (mf_file_key m) (ss_snapshots s)) m then Ok s1
        else Ok (set_snapshots (dset (mf_file_key m) (delivery_snapshot s previous m) (ss_snapshots s)) s1)
  end.

(** ** The methods *)

Definition begin_input (execution_lifetime_id input_id : string) (retention_user_turns : Z)
    : W LogicalExecutionContext :=
  do! session_id <- slift (_required execution_lifetime_id "execution_lifetime_id") ;;
  do! semantic_input <- slift (_required input_id "input_id") ;;
  do! s <- setdefault_session session_id ;;
  seq! sguard (ss_retired s) SessionIsRetired ;;
  let s' := _expire_file_snapshots (add_input semantic_input (set_retention (Z.max 1 retention_user_turns) s)) in
  seq! put_session session_id s' ;;
  sret (_context session_id semantic_input s').

Definition context (execution_lifetime_id : string) : W LogicalExecutionContext :=
  do! session_id <- slift (_required execution_lifetime_id "execution_lifetime_id") ;;
  do! s <- setdefault_session session_id ;;
  sret (_context session_id "" s).

Definition record_delivery (execution_lifetime_id : string) (delivery : obj)
    : W LogicalExecutionContext :=
  do! session_id <- slift (_required execution_lifetime_id "execution_lifetime_id") ;;
  do! s <- setdefault_session session_id ;;
  seq! sguard (ss_retired s) SessionIsRetired ;;
  do! s' <- slift (payload (_apply_delivery s delivery false)) ;;
  seq! put_session session_id s' ;;
  sret (_context session_id "" s').

(** [visible_result_ids is None or lease.result_id in visible_result_ids] *)
Definition visible (ids : option (list string)) (l : FileResultLease) : bool :=
  match ids with
  | None => true
  | Some ids => bool_decide (ls_result_id l ∈ ids)
  end.

Definition lease_key_le (a b : FileResultLease) : Prop :=
  ls_created_user_turn a < ls_created_user_turn b \/
  (ls_created_user_turn a = ls_created_user_turn b /\ String.le (ls_result_id a) (ls_result_id b)).

#[export] Instance lease_key_le_dec : RelDecision lease_key_le.
Proof. intros a b. unfold lease_key_le. apply _. Defined.

(** [max(candidates, key=...)]: the first of the greatest. *)
Definition newest (l : FileResultLease) (ls : list FileResultLease) : FileResultLease :=
  foldl (fun best x => if decide (lease_key_le x best) then best else x) l ls.

(** The parents of a lease are all live and about its file, one of them about the
    content the mutation started from. *)
Definition inherits (active : dict string FileResultLease) (l : FileResultLease) : bool :=
  let parents := (fun p => dget p active) <$> ls_parent_result_ids l in
  negb (bool_decide (ls_parent_result_ids l = [])) &&
  forallb (fun p => match p with Some q => bool_decide (ls_file_key q = ls_file_key l) | None => false end)
    parents &&
  existsb (fun p => match p with Some q => bool_decide (ls_digest q = ls_before_digest l) | None => false end)
    parents.

(** What one selected lease adds to [ranges] and [result_ids]. *)
Definition lease_ranges (active : dict string FileResultLease) (l : FileResultLease) : list range :=
  ls_standalone_ranges l ++ whole_file (ls_complete_file l) (ls_total_lines l) ++
  (if inherits active l then ls_inherited_ranges l else []).
Definition lease_ids (active : dict string FileResultLease) (l : FileResultLease) : list string :=
  ls_result_id l :: (if inherits active l then ls_parent_result_ids l else []).

Definition grant_of (active : dict string FileResultLease) (file_key digest : string)
    (selected : list FileResultLease) : option FileGrant :=
  let fragments := selected ≫= ls_line_fragments in
  let '(merged_fragments, completed) := _merge_line_fragments fragments in
  let merged := _merge_ranges ((selected ≫= lease_ranges active) ++ line_ranges completed) in
  let empty_file := existsb ls_empty_file selected in
  if bool_decide (merged = []) && negb empty_file && bool_decide (fragments = []) then None
  else Some (Grant file_key digest (zmax_list 0 (ls_total_lines <$> selected)) merged empty_file
               merged_fragments (sorted_set (selected ≫= lease_ids active))).

Definition active_leases (s : _SessionState) (visible_result_ids : option (list string))
    : dict string FileResultLease :=
  filter (fun p => visible visible_result_ids p.2 = true) (ss_file_results s).

Definition candidate (file_key digest : string) (l : FileResultLease) : bool :=
  bool_decide (ls_file_key l = file_key) &&
  (negb (str_truthy digest) || bool_decide (ls_digest l = digest)).

Definition session_grant (s : _SessionState) (file_key digest : string)
    (visible_result_ids : option (list string)) : option FileGrant :=
  let active := active_leases s visible_result_ids in
  match filter (fun l => candidate file_key digest l = true) (dvals active) with
  | [] => None
  | l :: ls =>
      let selected_digest := str_or digest (ls_digest (newest l ls)) in
      grant_of active file_key selected_digest
        (filter (fun l => ls_digest l = selected_digest) (l :: ls))
  end.

Definition file_grant (d : sessions) (execution_lifetime_id file_key digest : string)
    (visible_result_ids : option (list string)) : option FileGrant :=
  match dget execution_lifetime_id d with
  | Some s => if ss_retired s then None else session_grant s file_key digest visible_result_ids
  | None => None
  end.

Definition file_snapshot (d : sessions) (execution_lifetime_id file_key digest : string)
    : option FileSnapshot :=
  match dget execution_lifetime_id d with
  | Some s =>
      if ss_retired s then None else
      match dget file_key (ss_snapshots s) with
      | Some sn =>
          if sn_expires_at_user_turn sn <=? ss_current_user_turn s then None
          else if str_truthy digest && bool_decide (sn_digest sn <> digest) then None
          else Some sn
      | None => None
      end
  | None => None
  end.

Definition set_file_snapshot (execution_lifetime_id file_key digest : string) (total_lines : Z)
    (complete : bool) (source : string) : W unit :=
  do! s <- setdefault_session execution_lifetime_id ;;
  let sn := Snapshot file_key digest (Z.max 0 total_lines) complete (ss_current_user_turn s)
    (ss_current_user_turn s + ss_retention_user_turns s) (normal_source source) in
  put_session execution_lifetime_id (set_snapshots (dset file_key sn (ss_snapshots s)) s).

Definition forget_file (file_key : string) (s : _SessionState) : _SessionState :=
  set_file_results (filter (fun p => ls_file_key p.2 <> file_key) (ss_file_results s))
    (set_snapshots (ddel file_key (ss_snapshots s)) s).

Definition invalidate_file (execution_lifetime_id file_key : string) : W unit :=
  fun d =>
    match dget execution_lifetime_id d with
    | None => (d, Ok tt)
    | Some s => (dset execution_lifetime_id (forget_file file_key s) d, Ok tt)
    end.

Definition tombstone : _SessionState :=
  SessionState 0 [] DEFAULT_RESULT_RETENTION_USER_TURNS [] [] true.

Definition retire_session (execution_lifetime_id : string) : W unit :=
  put_session execution_lifetime_id tombstone.

Definition retire_results (execution_lifetime_id : string) (result_ids : list string)
    : W (list string) :=
  fun d =>
    match dget execution_lifetime_id d with
    | None => (d, Ok [])
    | Some s =>
        let retired := filter (fun r => dmem r (ss_file_results s) = true) result_ids in
        let s' := set_file_results (foldl (fun f r => ddel r f) (ss_file_results s) retired) s in
        (dset execution_lifetime_id s' d, Ok retired)
    end.

Definition reset_state : W unit := smodify (fun _ => []).
Definition install_prepared_state (prepared : sessions) : W unit := smodify (fun _ => prepared).

(** ** Snapshots of the store *)

Definition session_to_dict (s : _SessionState) : obj :=
  [("current_user_turn", JInt (ss_current_user_turn s));
   ("input_ids", JObj ((fun p => (p.1, JInt p.2)) <$> ss_input_ids s));
   ("retention_user_turns", JInt (ss_retention_user_turns s));
   ("snapshots", JObj ((fun p => (p.1, JObj (snapshot_to_dict p.2))) <$> ss_snapshots s));
   ("file_results", JObj ((fun p => (p.1, JObj (lease_to_dict p.2))) <$> ss_file_results s));
   ("retired", JBool (ss_retired s))].

Definition snapshot_state (d : sessions) : obj :=
  [("sessions", JObj ((fun p => (p.1, JObj (session_to_dict p.2))) <$> d))].

Definition allowed_fields : list string :=
  ["current_user_turn"; "context_epoch"; "input_ids"; "retention_user_turns"; "projection";
   "snapshots"; "grants"; "file_results"; "retired"].

(** [{str(key): f(value) for key, value in d.items() if keep(value)}] *)
Definition comprehend {A} (f : json -> res py_error (option A)) (d : obj) : res py_error (dict string A) :=
  rfold (fun acc p => let! v := f p.2 in
                      Ok (match v with Some v => dset p.1 v acc | None => acc end)) [] d.

Definition object_item {A} (f : obj -> res py_error A) (v : json) : res py_error (option A) :=
  match v with
  | JObj d => rmap Some (f d)
  | _ => Ok None
  end.

Definition bad_input (turn : Z) (p : string * Z) : bool :=
  negb (str_truthy p.1) || (p.2 <=? 0) || (turn <? p.2).
Definition bad_snapshot_id (p : string * FileSnapshot) : bool :=
  negb (str_truthy p.1) || bool_decide (sn_file_key p.2 <> p.1).
Definition bad_lease_id (p : string * FileResultLease) : bool :=
  negb (str_truthy p.1) || bool_decide (ls_result_id p.2 <> p.1) ||
  negb (str_truthy (ls_file_key p.2)) || negb (str_truthy (ls_digest p.2)).
Definition owns_state (s : _SessionState) : bool :=
  negb (bool_decide (ss_input_ids s = [] /\ ss_snapshots s = [] /\ ss_file_results s = [])).

Definition restore_session (raw : obj) : res state_error _SessionState :=
  raise_if negb (forallb (fun k => bool_decide (k ∈ allowed_fields)) (dkeys raw))
    with BadSnapshot "session has unknown fields" ;;
  let! turn := payload (get_int 0 0 "current_user_turn" raw) in
  let! raw_inputs := payload (py_dict (jor (jget "input_ids" raw) (JObj []))) in
  let! input_ids := payload (comprehend (fun v => rmap Some (py_int v)) raw_inputs) in
  raise_if existsb (bad_input turn) input_ids with BadSnapshot "invalid semantic input" ;;
  let! raw_snapshots := payload (py_dict (jor (jget "snapshots" raw) (JObj []))) in
  let! snapshots := payload (comprehend (object_item snapshot_from_dict) raw_snapshots) in
  raise_if negb (length snapshots =? length raw_snapshots)%nat || existsb bad_snapshot_id snapshots
    with BadSnapshot "file snapshot identity mismatch" ;;
  let! retention := payload (get_int 1 DEFAULT_RESULT_RETENTION_USER_TURNS "retention_user_turns" raw) in
  let! raw_results := payload (py_dict (jor (jget "file_results" raw) (JObj []))) in
  let! file_results := payload (comprehend (object_item lease_from_dict) raw_results) in
  let s := SessionState turn input_ids retention snapshots file_results (get_bool "retired" raw) in
  raise_if existsb bad_lease_id file_results with BadSnapshot "file result identity mismatch" ;;
  raise_if ss_retired s && owns_state s with BadSnapshot "retired lifetime retained owned state" ;;
  Ok s.

Definition restore_entry (restored : sessions) (p : string * json) : res state_error sessions :=
  let session_id := strip p.1 in
  match p.2 with
  | JObj raw =>
      raise_if negb (str_truthy session_id) with BadSnapshot "invalid session" ;;
      let! s := restore_session raw in
      Ok (dset session_id s restored)
  | _ => Raise (BadSnapshot "invalid session")
  end.

Definition prepare_restore_state (payload : obj) : res state_error sessions :=
  match jget "sessions" payload with
  | JObj raw =>
      let! restored := rfold restore_entry [] raw in
      Ok ((fun p => (p.1, _expire_file_snapshots p.2)) <$> restored)
  | _ => Raise (BadSnapshot "sessions must be an object")
  end.
