(* ===== verification/SessionSafety.v ===== *)
(** * Theorems of the session store

    The invariant of the store and its preservation, the round trip through a snapshot,
    the exact meaning of a grant, and the provenance of every granted line. *)

From S2P Require Import Prelude Dict Utf8 Sha256 PyValue JsonText Ranges SessionData SessionState.
From Stdlib Require Import Ascii.
Open Scope Z_scope.

(** ** Values read from a payload *)

Lemma pretty_N_go_cons x s c : exists c' s', pretty_N_go x (String c s) = String c' s'.
Proof.
  revert s c. induction x as [x IH] using (well_founded_induction N.lt_wf_0). intros s c.
  destruct (decide (0 < x)%N) as [Hx|Hx].
  - rewrite pretty_N_go_step by done. apply IH, N.div_lt; lia.
  - assert (x = 0%N) as -> by lia. rewrite pretty_N_go_0. eauto.
Qed.

Lemma pretty_Z_nonempty (z : Z) : pretty z <> "".
Proof.
  unfold pretty, pretty_Z. destruct z as [|p|p]; [done| |done].
  unfold pretty, pretty_positive, pretty, pretty_N. rewrite decide_False by done.
  rewrite pretty_N_go_step by lia.
  destruct (pretty_N_go_cons (Npos p `div` 10) "" (pretty_N_char (Npos p `mod` 10))) as (c & s & ->).
  done.
Qed.

Lemma py_str_truthy v : truthy v = true -> py_str v <> "".
Proof.
  destruct v as [|[]|z|s|l|d]; simpl; try done; intros H.
  - apply pretty_Z_nonempty.
  - by apply str_truthy_spec.
Qed.

Lemma str_default_nonempty k fb v : fb <> "" -> str_default k fb v <> "".
Proof.
  intros H. unfold str_default, jor. destruct (truthy _) eqn:E; [by apply py_str_truthy|done].
Qed.

Lemma get_int_ge low fb k v n : get_int low fb k v = Ok n -> low <= n.
Proof. unfold get_int. intros H. inv_res H. lia. Qed.

Lemma get_ids_nonempty k v l : get_ids k v = Ok l -> ids_ok l.
Proof.
  unfold get_ids. intros H. inv_res H. subst l. apply Forall_forall. intros s Hs.
  by apply list_elem_of_filter in Hs as [? _].
Qed.

Lemma manifest_from_dict_ok v m :
  manifest_from_dict v = Ok (Some m) ->
  0 <= mf_total_lines m /\ mf_operation m <> "" /\ ids_ok (mf_parent_result_ids m).
Proof.
  unfold manifest_from_dict. intros H.
  destruct (jget "kind" v) as [| | |k| |]; try done.
  destruct (decide (k <> "file_lines")); [done|].
  inv_res H. subst m; simpl. split_and!.
  - eauto using get_int_ge.
  - by apply str_default_nonempty.
  - eauto using get_ids_nonempty.
Qed.

(** ** The invariant of a session *)

Definition lease_entry_ok (p : string * FileResultLease) : Prop :=
  p.1 <> "" /\ ls_result_id p.2 = p.1 /\ ls_file_key p.2 <> "" /\ ls_digest p.2 <> "" /\ lease_ok p.2.
Definition snapshot_entry_ok (p : string * FileSnapshot) : Prop :=
  p.1 <> "" /\ sn_file_key p.2 = p.1 /\ snapshot_ok p.2.
Definition input_entry_ok (turn : Z) (p : string * Z) : Prop := p.1 <> "" /\ 1 <= p.2 <= turn.

Record session_ok (s : _SessionState) : Prop := {
  so_turn : 0 <= ss_current_user_turn s;
  so_retention : 1 <= ss_retention_user_turns s;
  so_inputs_wf : dwf (ss_input_ids s);
  so_snapshots_wf : dwf (ss_snapshots s);
  so_results_wf : dwf (ss_file_results s);
  so_inputs : Forall (input_entry_ok (ss_current_user_turn s)) (ss_input_ids s);
  so_snapshots : Forall snapshot_entry_ok (ss_snapshots s);
  so_results : Forall lease_entry_ok (ss_file_results s);
  so_retired : ss_retired s = true -> ss_input_ids s = [] /\ ss_file_results s = []
}.

(** A snapshot set on a retired lifetime: [set_file_snapshot] does not ask. *)
Definition late_snapshot (s : _SessionState) : bool :=
  ss_retired s && negb (bool_decide (ss_snapshots s = [])).

(** A lifetime identifier as [_required] returns it. *)
Definition normal_id (id : string) : Prop := id <> "" /\ strip id = id.

Record store_ok (d : sessions) : Prop := {
  st_wf : dwf d;
  st_entries : Forall (fun p => normal_id p.1 /\ session_ok p.2) d
}.

Lemma store_ok_dset id s d : normal_id id -> session_ok s -> store_ok d -> store_ok (dset id s d).
Proof. intros H1 H2 [H3 H4]. split; [by apply dwf_dset|by apply Forall_dset]. Qed.

Lemma store_ok_get id s d : store_ok d -> dget id d = Some s -> normal_id id /\ session_ok s.
Proof. intros [_ H] Hg. rewrite Forall_forall in H. by apply (H (id, s)), dget_elem. Qed.

Lemma new_session_ok : session_ok new_session.
Proof. by split; try constructor. Qed.

Lemma tombstone_ok : session_ok tombstone.
Proof. by split; try constructor. Qed.

Lemma session_of_ok id d : store_ok d -> session_ok (session_of id d).
Proof.
  intros H. unfold session_of. destruct (dget id d) eqn:E; simpl; [|apply new_session_ok].
  by eapply store_ok_get.
Qed.

Lemma store_ok_setdefault id d : normal_id id -> store_ok d -> store_ok (dsetdefault id new_session d).
Proof.
  intros H1 H2. unfold dsetdefault. destruct (dget id d); [done|].
  destruct H2 as [H3 H4]. destruct (store_ok_dset id new_session d H1 new_session_ok) as [H5 H6]; [done|].
  by split.
Qed.

(** [strip] is idempotent, so a normalized identifier is normal. *)
Lemma drop_space_idem l : drop_space (drop_space l) = drop_space l.
Proof. induction l as [|c l IH]; [done|]. simpl. destruct (is_space c) eqn:E; [done|]. simpl. by rewrite E. Qed.

Lemma drop_space_suffix l : exists p, l = p ++ drop_space l.
Proof.
  induction l as [|c l [p IH]]; [by exists []|]. simpl. destruct (is_space c); [|by exists []].
  exists (c :: p). simpl. congruence.
Qed.

Definition front_clean (l : list ascii) : Prop := match l with c :: _ => is_space c = false | [] => True end.

Lemma drop_space_clean l : front_clean (drop_space l).
Proof. induction l as [|c l IH]; simpl; [done|]. destruct (is_space c) eqn:E; simpl; done. Qed.

Lemma clean_drop_space l : front_clean l -> drop_space l = l.
Proof. destruct l as [|c l]; simpl; [done|]. by intros ->. Qed.

Lemma strip_chars_idem l : strip_chars (strip_chars l) = strip_chars l.
Proof.
  unfold strip_chars. set (a := drop_space l). set (b := drop_space (reverse a)).
  assert (Hf : front_clean (reverse b)).
  { destruct (drop_space_suffix (reverse a)) as [p Hp]. fold b in Hp.
    assert (Ha : a = reverse b ++ reverse p) by (rewrite <- reverse_app, <- Hp; by rewrite reverse_involutive).
    pose proof (drop_space_clean l) as Hc. fold a in Hc. rewrite Ha in Hc.
    by destruct (reverse b). }
  rewrite (clean_drop_space (reverse b)) by done. rewrite reverse_involutive.
  by rewrite (clean_drop_space b) by apply drop_space_clean.
Qed.

Lemma required_normal v n id : _required v n = Ok id -> normal_id id /\ id = strip v.
Proof.
  unfold _required. destruct (str_truthy (strip v)) eqn:E; [|done]. intros [= <-].
  split; [|done]. split; [by apply str_truthy_spec|]. unfold strip. by rewrite chars_of_chars, strip_chars_idem.
Qed.

Lemma normal_required id n : normal_id id -> _required id n = Ok id.
Proof. intros [H1 H2]. unfold _required. rewrite H2. by rewrite (proj2 (str_truthy_spec id)). Qed.

(** ** Preservation *)

Lemma Forall_dfilter {A} (P Q : A -> Prop) `{forall x, Decision (P x)} (l : list A) :
  Forall Q l -> Forall Q (filter P l).
Proof.
  intros H1. apply Forall_forall. intros x [_ Hx]%list_elem_of_filter.
  by eapply Forall_forall in H1.
Qed.

Lemma expire_ok s : session_ok s -> session_ok (_expire_file_snapshots s).
Proof.
  intros [H1 H2 H3 H4 H5 H6 H7 H8 H9]. split; simpl; try done.
  - by apply dwf_filter.
  - by apply Forall_dfilter.
Qed.

Lemma add_input_ok i s : i <> "" -> ss_retired s = false -> session_ok s -> session_ok (add_input i s).
Proof.
  intros Hi Hr [H1 H2 H3 H4 H5 H6 H7 H8 H9]. unfold add_input. destruct (dmem i _) eqn:E; [by split|].
  split; simpl; try done; try lia; try congruence.
  - by apply dwf_dset.
  - apply Forall_dset; [split; simpl; [done|lia]|].
    eapply Forall_impl; [exact H6|]. intros p [? ?]. split; [done|lia].
Qed.

Lemma set_retention_ok n s : 1 <= n -> session_ok s -> session_ok (set_retention n s).
Proof. intros Hn [H1 H2 H3 H4 H5 H6 H7 H8 H9]. by split. Qed.

Lemma sorted_set_elem x l : x ∈ sorted_set l <-> x ∈ l.
Proof. unfold sorted_set. rewrite merge_sort_Permutation. apply elem_of_remove_dups. Qed.

Lemma result_id_nonempty delivery m : _delivery_result_id delivery m <> "".
Proof. unfold _delivery_result_id. case_if; [by apply str_truthy_spec|done]. Qed.

Lemma merged_lease_get s r m b l :
  merged_lease s r m b = Some l ->
  dget r (ss_file_results s) = Some l /\ ls_digest l = mf_digest m /\ ls_file_key l = mf_file_key m.
Proof.
  unfold merged_lease. destruct (dget r _) as [l'|]; [|done].
  case_if; [|done]. intros [= ->]. by bool_to_prop.
Qed.

(** What an accepted delivery does: the manifest, the lease it builds, the snapshot. *)
Lemma apply_delivery_cases s delivery s' :
  _apply_delivery s delivery false = Ok s' ->
  s' = s \/
  exists m, manifest_from_dict delivery = Ok (Some m) /\ mf_file_key m <> "" /\ mf_digest m <> "" /\
    let r := _delivery_result_id delivery m in
    let previous := merged_lease s r m false in
    exists snapshots,
      s' = set_snapshots snapshots
             (set_file_results (dset r (build_lease (ss_current_user_turn s) r previous m) (ss_file_results s)) s) /\
      (snapshots = ss_snapshots s \/
       snapshots = dset (mf_file_key m) (delivery_snapshot s previous m) (ss_snapshots s)).
Proof.
  unfold _apply_delivery. intros H. apply rbind_ok in H as (parsed & Hm & H).
  destruct parsed as [m|]; [|left; congruence].
  destruct (negb _ || negb _) eqn:E in H; [left; congruence|]. bool_to_prop.
  right. exists m. split_and!; [done|by apply str_truthy_spec..|]. cbv zeta.
  destruct (keeps_mutation _ _); injection H as <-.
  - exists (ss_snapshots s). split; [by destruct s|by left].
  - eexists. split; [reflexivity|by right].
Qed.

Lemma build_lease_ok s delivery m :
  session_ok s -> manifest_from_dict delivery = Ok (Some m) -> mf_file_key m <> "" -> mf_digest m <> "" ->
  let r := _delivery_result_id delivery m in
  lease_entry_ok (r, build_lease (ss_current_user_turn s) r (merged_lease s r m false) m).
Proof.
  intros Hs Hm Hk Hd r. destruct (manifest_from_dict_ok _ _ Hm) as (H1 & H2 & H3).
  split_and!; simpl; try done; [apply result_id_nonempty|]. split_and!; simpl; try done; [apply Hs|].
  apply Forall_forall. intros x Hx. rewrite sorted_set_elem in Hx.
  apply elem_of_app in Hx as [Hx|Hx]; [by eapply Forall_forall in H3|].
  destruct (merged_lease s r m false) as [l|] eqn:E; simpl in Hx; [|by apply elem_of_nil in Hx].
  apply merged_lease_get in E as (E & _). apply dget_elem in E.
  destruct Hs as [_ _ _ _ _ _ _ Hl _]. rewrite Forall_forall in Hl.
  destruct (Hl _ E) as (_ & _ & _ & _ & (_ & _ & _ & Hp)). by eapply Forall_forall in Hp.
Qed.

Lemma delivery_snapshot_ok s previous m :
  session_ok s -> 0 <= mf_total_lines m -> mf_file_key m <> "" ->
  snapshot_entry_ok (mf_file_key m, delivery_snapshot s previous m).
Proof.
  intros Hs Ht Hk. split_and!; simpl; try done. split_and!; simpl; try done.
  - apply Hs.
  - destruct Hs. lia.
  - unfold normal_source. destruct (decide (mf_operation m ∈ _)); done.
Qed.

Lemma apply_delivery_ok s delivery s' :
  session_ok s -> ss_retired s = false -> _apply_delivery s delivery false = Ok s' -> session_ok s'.
Proof.
  intros Hs Hr H. destruct (apply_delivery_cases _ _ _ H) as [->|(m & Hm & Hk & Hd & sn & -> & Hsn)]; [done|].
  pose proof (build_lease_ok s delivery m Hs Hm Hk Hd) as Hl. cbv zeta in Hl.
  destruct (manifest_from_dict_ok _ _ Hm) as (Ht & _).
  pose proof (delivery_snapshot_ok s (merged_lease s (_delivery_result_id delivery m) m false) m Hs Ht Hk) as Hsnap.
  destruct Hs as [H1 H2 H3 H4 H5 H6 H7 H8 H9]. split; simpl; try done; try congruence.
  - destruct Hsn as [->| ->]; [done|by apply dwf_dset].
  - by apply dwf_dset.
  - destruct Hsn as [->| ->]; [done|by apply Forall_dset].
  - by apply Forall_dset.
Qed.

(** ** The round trip of the store *)

(** Rebuilding a dictionary entry by entry gives it back. *)
Lemma rebuild {E A B} (f : dict string A -> string * B -> res E (dict string A)) (g : A -> B) (l acc : dict string A) :
  dwf (acc ++ l) ->
  (forall acc k v, (k, v) ∈ l -> f acc (k, g v) = Ok (dset k v acc)) ->
  rfold f acc ((fun p => (p.1, g p.2)) <$> l) = Ok (acc ++ l).
Proof.
  revert acc. induction l as [|[k v] l IH]; intros acc Hwf Hf; [by rewrite app_nil_r|].
  rewrite fmap_cons. cbn [rfold fst snd]. rewrite Hf by apply list_elem_of_here. cbn [rbind].
  assert (Hk : k ∉ dkeys acc).
  { unfold dwf, dkeys in Hwf. rewrite fmap_app, NoDup_app in Hwf. destruct Hwf as (_ & Hd & _).
    intros Hin. apply (Hd k Hin). apply list_elem_of_here. }
  rewrite dset_fresh by done. rewrite IH.
  - by rewrite <- app_assoc.
  - by rewrite <- app_assoc.
  - intros acc' k' v' Hin. apply Hf. by apply list_elem_of_further.
Qed.

Lemma comprehend_roundtrip {A} (f : json -> res py_error (option A)) (g : A -> json) (d : dict string A) :
  dwf d -> (forall k v, (k, v) ∈ d -> f (g v) = Ok (Some v)) ->
  comprehend f ((fun p => (p.1, g p.2)) <$> d) = Ok d.
Proof.
  intros Hwf Hf. unfold comprehend. rewrite (rebuild _ g d []); [done|done|].
  intros acc k v Hin. simpl. by rewrite (Hf k v Hin).
Qed.

Lemma get_dict_of k v d : jget k v = JObj d -> py_dict (jor (jget k v) (JObj [])) = Ok d.
Proof. intros ->. unfold jor. by destruct d. Qed.

Lemma existsb_false {A} (f : A -> bool) l : Forall (fun x => f x = false) l -> existsb f l = false.
Proof. induction 1 as [|x l Hx Hl IH]; simpl; [done|]. by rewrite Hx. Qed.

Lemma bad_entries_false s :
  session_ok s ->
  existsb (bad_input (ss_current_user_turn s)) (ss_input_ids s) = false /\
  existsb bad_snapshot_id (ss_snapshots s) = false /\
  existsb bad_lease_id (ss_file_results s) = false.
Proof.
  intros [_ _ _ _ _ H6 H7 H8 _]. split_and!; apply existsb_false.
  - eapply Forall_impl; [exact H6|]. intros [k t] [Hk Ht]; simpl in *. unfold bad_input; simpl.
    rewrite (proj2 (str_truthy_spec k) Hk). simpl. apply orb_false_iff. lia.
  - eapply Forall_impl; [exact H7|]. intros [k t] (Hk & Hf & _); simpl in *. unfold bad_snapshot_id; simpl.
    rewrite (proj2 (str_truthy_spec k) Hk). simpl. apply bool_decide_eq_false. naive_solver.
  - eapply Forall_impl; [exact H8|]. intros [k l] (Hk & Hr & Hf & Hd & _); simpl in *.
    unfold bad_lease_id; simpl.
    rewrite (proj2 (str_truthy_spec k) Hk), (proj2 (str_truthy_spec _) Hf), (proj2 (str_truthy_spec _) Hd).
    simpl. rewrite !orb_false_r. apply bool_decide_eq_false. naive_solver.
Qed.

Definition LATE : state_error := BadSnapshot "retired lifetime retained owned state".

Lemma owns_late s : session_ok s -> ss_retired s && owns_state s = late_snapshot s.
Proof.
  intros Hs. unfold late_snapshot, owns_state. destruct (ss_retired s) eqn:Er; [|done].
  destruct (so_retired _ Hs Er) as [-> ->]. simpl. f_equal. apply bool_decide_ext. naive_solver.
Qed.

Lemma restore_session_roundtrip s :
  session_ok s -> restore_session (session_to_dict s) = if late_snapshot s then Raise LATE else Ok s.
Proof.
  intros Hs. destruct (bad_entries_false s Hs) as (B1 & B2 & B3). pose proof (owns_late s Hs) as Hlate.
  destruct Hs as [H1 H2 H3 H4 H5 H6 H7 H8 H9]. unfold restore_session.
  set (v := session_to_dict s). change (forallb _ (dkeys v)) with true. cbn [negb rguard rbind].
  rewrite (get_int_of 0 "current_user_turn" (ss_current_user_turn s)) by done. cbn [payload rbind].
  rewrite (get_dict_of "input_ids" v _ eq_refl). cbn [payload rbind].
  rewrite (comprehend_roundtrip _ JInt) by done. cbn [payload rbind]. rewrite B1. cbn [rguard rbind].
  rewrite (get_dict_of "snapshots" v _ eq_refl). cbn [payload rbind].
  rewrite (comprehend_roundtrip _ (fun x => JObj (snapshot_to_dict x))); [|done|].
  2:{ intros k x Hin. rewrite Forall_forall in H7. destruct (H7 _ Hin) as (_ & _ & Hx). cbn [object_item].
      by rewrite snapshot_roundtrip. }
  cbn [payload rbind]. rewrite length_fmap, Nat.eqb_refl, B2. cbn [negb orb rguard rbind].
  rewrite (get_int_pos 1 _ "retention_user_turns" (ss_retention_user_turns s)) by (done || lia).
  cbn [payload rbind]. rewrite (get_dict_of "file_results" v _ eq_refl). cbn [payload rbind].
  rewrite (comprehend_roundtrip _ (fun x => JObj (lease_to_dict x))); [|done|].
  2:{ intros k x Hin. rewrite Forall_forall in H8. destruct (H8 _ Hin) as (_ & _ & _ & _ & Hx).
      cbn [object_item]. by rewrite lease_roundtrip. }
  cbn [payload rbind]. rewrite B3. cbn [rguard rbind].
  rewrite (get_bool_of "retired" (ss_retired s)) by done.
  replace (SessionState _ _ _ _ _ _) with s by (by destruct s).
  rewrite Hlate. by destruct (late_snapshot s).
Qed.

Definition expired (d : sessions) : sessions := (fun p => (p.1, _expire_file_snapshots p.2)) <$> d.

(** The store is refused as a whole if a retired lifetime holds a snapshot. *)
Definition has_late_snapshot (d : sessions) : bool := existsb (fun p => late_snapshot p.2) d.

Lemma restore_entry_roundtrip acc k s :
  normal_id k -> session_ok s ->
  restore_entry acc (k, JObj (session_to_dict s)) = if late_snapshot s then Raise LATE else Ok (dset k s acc).
Proof.
  intros [Hk1 Hk2] Hs. unfold restore_entry; cbn [fst snd].
  rewrite Hk2, (proj2 (str_truthy_spec k) Hk1). cbn [negb rguard rbind].
  rewrite restore_session_roundtrip by done. by destruct (late_snapshot s).
Qed.

Lemma prepare_snapshot d :
  store_ok d ->
  prepare_restore_state (snapshot_state d) = if has_late_snapshot d then Raise LATE else Ok (expired d).
Proof.
  intros [Hwf Hd]. unfold prepare_restore_state.
  change (jget "sessions" (snapshot_state d))
    with (JObj ((fun p => (p.1, JObj (session_to_dict p.2))) <$> d)). cbv iota.
  destruct (has_late_snapshot d) eqn:El.
  - enough (E : forall acc, rfold restore_entry acc ((fun p => (p.1, JObj (session_to_dict p.2))) <$> d) = Raise LATE)
      by (by rewrite E).
    clear Hwf. induction Hd as [|[k s] d [Hk Hs] _ IH]; intros acc; [done|]. rewrite fmap_cons. cbn [rfold fst snd].
    rewrite restore_entry_roundtrip by done. cbn [has_late_snapshot existsb snd] in El.
    destruct (late_snapshot s); [done|]. by apply IH.
  - rewrite (rebuild restore_entry (fun s => JObj (session_to_dict s)) d []); [done|done|].
    intros acc k s Hin. rewrite Forall_forall in Hd. destruct (Hd _ Hin) as [Hk Hs]; simpl in *.
    rewrite restore_entry_roundtrip by done. destruct (late_snapshot s) eqn:E; [|done].
    exfalso. apply not_true_iff_false in El. apply El, existsb_exists. exists (k, s). split; [|done].
    by apply list_elem_of_In.
Qed.

Lemma dget_expired id d : dget id (expired d) = _expire_file_snapshots <$> dget id d.
Proof.
  unfold expired. induction d as [|[k s] d IH]; [done|]. rewrite fmap_cons. cbn [dget fst snd].
  case_decide; [done|]. exact IH.
Qed.

Lemma expired_ok d : store_ok d -> store_ok (expired d).
Proof.
  intros [Hwf Hd]. split.
  - unfold dwf, dkeys, expired in *. rewrite <- list_fmap_compose. exact Hwf.
  - unfold expired. apply Forall_fmap. eapply Forall_impl; [exact Hd|]. intros [k s] [? ?]; simpl in *.
    split; [done|by apply expire_ok].
Qed.

(** ** Runs of the store

    A run interleaves the methods in any order.  The history of a run is ghost state:
    the manifests whose delivery was accepted, with their lifetime and result. *)

Definition delivery_log : Type := list (string * string * FileDeliveryManifest).

Record world := World { w_history : delivery_log; w_sessions : sessions }.

Definition log_entry (lifetime : string) (delivery : obj) : delivery_log :=
  match manifest_from_dict delivery with
  | Ok (Some m) => [(strip lifetime, _delivery_result_id delivery m, m)]
  | _ => []
  end.

(** The identifiers given to [set_file_snapshot] and [retire_session], which do not
    normalize them, are stripped and nonempty, as the callers pass them. *)
Inductive store_step : world -> world -> Prop :=
| step_begin h d lid iid n :
    store_step (World h d) (World h (begin_input lid iid n d).1)
| step_context h d lid :
    store_step (World h d) (World h (context lid d).1)
| step_delivery h d lid delivery c :
    (record_delivery lid delivery d).2 = Ok c ->
    store_step (World h d) (World (log_entry lid delivery ++ h) (record_delivery lid delivery d).1)
| step_refused h d lid delivery e :
    (record_delivery lid delivery d).2 = Raise e ->
    store_step (World h d) (World h (record_delivery lid delivery d).1)
| step_snapshot h d lid key digest total complete source :
    normal_id lid -> key <> "" ->
    store_step (World h d) (World h (set_file_snapshot lid key digest total complete source d).1)
| step_invalidate h d lid key :
    store_step (World h d) (World h (invalidate_file lid key d).1)
| step_retire_session h d lid :
    normal_id lid -> store_step (World h d) (World h (retire_session lid d).1)
| step_retire_results h d lid ids :
    store_step (World h d) (World h (retire_results lid ids d).1)
| step_reset h d : store_step (World h d) (World h (reset_state d).1)
| step_restart h d d' :
    prepare_restore_state (snapshot_state d) = Ok d' ->
    store_step (World h d) (World h (install_prepared_state d' d).1).

(** How one step changes one session: it keeps its leases or drops some, or commits
    one delivery, or starts over. *)
Definition results_shrink (s s' : _SessionState) : Prop :=
  forall r l, dget r (ss_file_results s') = Some l -> dget r (ss_file_results s) = Some l.

Lemma results_shrink_refl s : results_shrink s s.
Proof. by intros r l. Qed.

Lemma dget_fold_ddel {A} r (rs : list string) (d : dict string A) :
  dget r (foldl (fun f r => ddel r f) d rs) = if decide (r ∈ rs) then None else dget r d.
Proof.
  revert d. induction rs as [|x rs IH]; intros d; cbn [foldl].
  { destruct (decide (r ∈ [])) as [H|]; [by apply elem_of_nil in H|done]. }
  rewrite IH, dget_ddel. destruct (decide (r ∈ rs)) as [H|H].
  - rewrite decide_True by (by right). done.
  - destruct (decide (x = r)) as [->|Hx].
    + rewrite decide_True by apply list_elem_of_here. done.
    + rewrite decide_False; [done|]. rewrite elem_of_cons. naive_solver.
Qed.

Lemma fold_ddel_Forall {A} (P : string * A -> Prop) (rs : list string) (d : dict string A) :
  Forall P d -> Forall P (foldl (fun f r => ddel r f) d rs).
Proof. revert d. induction rs as [|x rs IH]; intros d H; simpl; [done|]. by apply IH, Forall_ddel. Qed.

Lemma fold_ddel_wf {A} (rs : list string) (d : dict string A) :
  dwf d -> dwf (foldl (fun f r => ddel r f) d rs).
Proof. revert d. induction rs as [|x rs IH]; intros d H; simpl; [done|]. by apply IH, dwf_ddel. Qed.

(** Dropping leases and replacing snapshots keeps the invariant. *)
Lemma drop_results_ok s rs : session_ok s ->
  session_ok (set_file_results (foldl (fun f r => ddel r f) (ss_file_results s) rs) s).
Proof.
  intros [H1 H2 H3 H4 H5 H6 H7 H8 H9]. split; simpl; try done.
  - by apply fold_ddel_wf.
  - by apply fold_ddel_Forall.
  - intros [E1 E2]%H9. rewrite E2. split; [done|]. clear. by induction rs.
Qed.

Lemma forget_file_ok key s : session_ok s -> session_ok (forget_file key s).
Proof.
  intros [H1 H2 H3 H4 H5 H6 H7 H8 H9]. split; simpl; try done.
  - by apply dwf_ddel.
  - by apply dwf_filter.
  - by apply Forall_ddel.
  - by apply Forall_dfilter.
  - intros [E1 E2]%H9. by rewrite E2.
Qed.

Lemma set_file_snapshot_ok s key digest total complete source :
  session_ok s -> key <> "" ->
  session_ok (set_snapshots
    (dset key (Snapshot key digest (Z.max 0 total) complete (ss_current_user_turn s)
       (ss_current_user_turn s + ss_retention_user_turns s) (normal_source source)) (ss_snapshots s)) s).
Proof.
  intros [H1 H2 H3 H4 H5 H6 H7 H8 H9] Hk. split; simpl; try done.
  - by apply dwf_dset.
  - apply Forall_dset; [|done]. split_and!; simpl; try done. split_and!; simpl; try lia.
    unfold normal_source. by destruct (decide (source = "mutation")).
Qed.

(** The outcome of the methods that commit to a session. *)
Lemma begin_input_cases lid iid n d :
  (begin_input lid iid n d).1 = d \/
  exists id input, normal_id id /\ input <> "" /\
    ((begin_input lid iid n d).1 = dsetdefault id new_session d \/
     ss_retired (session_of id d) = false /\
     (begin_input lid iid n d).1 =
       dset id (_expire_file_snapshots (add_input input (set_retention (Z.max 1 n) (session_of id d))))
         (dsetdefault id new_session d)).
Proof.
  unfold begin_input, sbind, slift.
  destruct (_required lid _) as [id|] eqn:E1; [|by left]. apply required_normal in E1 as [E1 _].
  destruct (_required iid _) as [input|] eqn:E2; [|by left]. apply required_normal in E2 as [E2 _].
  right. exists id, input. split; [done|]. split; [apply E2|]. unfold setdefault_session, sguard.
  destruct (ss_retired _) eqn:E3; [by left|right; split; done].
Qed.

Lemma record_delivery_cases lid delivery d :
  ((record_delivery lid delivery d).1 = d /\ is_ok (record_delivery lid delivery d).2 = false) \/
  exists id, normal_id id /\ id = strip lid /\
    (((record_delivery lid delivery d).1 = dsetdefault id new_session d /\
      is_ok (record_delivery lid delivery d).2 = false) \/
     ss_retired (session_of id d) = false /\
     exists s', _apply_delivery (session_of id d) delivery false = Ok s' /\
       record_delivery lid delivery d = (dset id s' (dsetdefault id new_session d), Ok (_context id "" s'))).
Proof.
  unfold record_delivery, sbind, slift.
  destruct (_required lid _) as [id|] eqn:E1; [|by left]. apply required_normal in E1 as [E1 ->].
  right. exists (strip lid). split; [done|]. split; [done|]. unfold setdefault_session, sguard.
  destruct (ss_retired _) eqn:E3; [by left|].
  unfold payload. destruct (_apply_delivery _ _ _) as [s'|] eqn:E4; [|by left].
  right. split; [done|]. exists s'. by split.
Qed.

Lemma context_cases lid d :
  (context lid d).1 = d \/ exists id, normal_id id /\ (context lid d).1 = dsetdefault id new_session d.
Proof.
  unfold context, sbind, slift. destruct (_required lid _) as [id|] eqn:E1; [|by left].
  apply required_normal in E1 as [E1 _]. right. by exists id.
Qed.

Lemma store_step_ok w w' : store_step w w' -> store_ok (w_sessions w) -> store_ok (w_sessions w').
Proof.
  intros Hstep Hok. destruct Hstep as
    [h d lid iid n|h d lid|h d lid delivery c Hc|h d lid delivery e He|h d lid key digest total complete source H1 H2
    |h d lid key|h d lid H1|h d lid ids|h d|h d d' H1]; simpl in *.
  - destruct (begin_input_cases lid iid n d) as [->|(id & input & Hid & Hi & [->|[Hr ->]])]; [done|..].
    + by apply store_ok_setdefault.
    + apply store_ok_dset; [done| |by apply store_ok_setdefault].
      apply expire_ok, add_input_ok; [done..|]. apply set_retention_ok; [lia|by apply session_of_ok].
  - destruct (context_cases lid d) as [->|(id & Hid & ->)]; [done|by apply store_ok_setdefault].
  - destruct (record_delivery_cases lid delivery d) as [[-> _]|(id & Hid & _ & [[-> _]|(Hr & s' & Ha & ->)])];
      [done|by apply store_ok_setdefault|]. simpl.
    apply store_ok_dset; [done| |by apply store_ok_setdefault].
    eapply apply_delivery_ok; [by apply session_of_ok|done..].
  - destruct (record_delivery_cases lid delivery d) as [[-> _]|(id & Hid & _ & [[-> _]|(Hr & s' & Ha & Heq)])];
      [done|by apply store_ok_setdefault|]. by rewrite Heq in He.
  - apply store_ok_dset; [done| |by apply store_ok_setdefault].
    apply set_file_snapshot_ok; [by apply session_of_ok|done..].
  - unfold invalidate_file. destruct (dget lid d) as [s|] eqn:E; [|done]. simpl.
    destruct (store_ok_get _ _ _ Hok E). by apply store_ok_dset; [| apply forget_file_ok |].
  - apply store_ok_dset; [done|apply tombstone_ok|done].
  - unfold retire_results. destruct (dget lid d) as [s|] eqn:E; [|done]. simpl.
    destruct (store_ok_get _ _ _ Hok E). by apply store_ok_dset; [| apply drop_results_ok |].
  - split; [apply dwf_nil|done].
  - rewrite prepare_snapshot in H1 by done. destruct (has_late_snapshot d); [done|].
    injection H1 as <-. by apply expired_ok.
Qed.

(** The session after a step holds leases it held before, or commits one logged delivery. *)
Definition committed (h : delivery_log) (id : string) (s s' : _SessionState) : Prop :=
  exists r m, (id, r, m) ∈ h /\
    ss_file_results s' = dset r (build_lease (ss_current_user_turn s) r (merged_lease s r m false) m)
                           (ss_file_results s).

Lemma session_of_default id d s :
  dget id (dsetdefault id new_session d) = Some s -> s = session_of id d.
Proof.
  rewrite dsetdefault_get. unfold session_of. destruct (dget id d); [by intros [= ->]|].
  rewrite decide_True by done. by intros [= <-].
Qed.

Lemma session_of_get id d s : dget id d = Some s -> session_of id d = s.
Proof. unfold session_of. by intros ->. Qed.

(** Only the session [id] is touched, by [s']. *)
Lemma shrink_dset P d id s' id' s'' :
  (id = id' -> results_shrink (session_of id d) s' \/ P) ->
  dget id' (dset id s' (dsetdefault id new_session d)) = Some s'' ->
  (id' = id /\ s'' = s' /\ (results_shrink (session_of id' d) s'' \/ P)) \/
  (id' <> id /\ results_shrink (session_of id' d) s'').
Proof.
  intros H. rewrite dget_dset. destruct (decide (id = id')) as [<-|Hne].
  - intros [= <-]. left. eauto.
  - rewrite dsetdefault_get, decide_False by done. destruct (dget id' d) as [s|] eqn:E; [|done].
    intros [= ->]. right. rewrite (session_of_get _ _ _ E). split; [done|apply results_shrink_refl].
Qed.

Lemma shrink_default d id id' s :
  dget id' (dsetdefault id new_session d) = Some s -> results_shrink (session_of id' d) s.
Proof.
  rewrite dsetdefault_get. unfold session_of. destruct (dget id' d); simpl.
  - intros [= ->]. apply results_shrink_refl.
  - case_decide; [|done]. intros [= <-]. apply results_shrink_refl.
Qed.

Lemma shrink_same d id s : dget id d = Some s -> results_shrink (session_of id d) s.
Proof. intros H. rewrite (session_of_get _ _ _ H). apply results_shrink_refl. Qed.

Lemma shrink_update d id f id' s' s :
  dget id d = Some s -> results_shrink s (f s) -> dget id' (dset id (f s) d) = Some s' ->
  results_shrink (session_of id' d) s'.
Proof.
  intros Hs Hf. rewrite dget_dset. destruct (decide (id = id')) as [<-|]; [|apply shrink_same].
  intros [= <-]. by rewrite (session_of_get _ _ _ Hs).
Qed.

Lemma store_step_session h d h' d' id s' :
  store_ok d -> store_step (World h d) (World h' d') -> dget id d' = Some s' ->
  results_shrink (session_of id d) s' \/ committed h' id (session_of id d) s'.
Proof.
  intros Hok Hstep. inversion Hstep; subst; clear Hstep.
  - intros H. left. destruct (begin_input_cases lid iid n d) as [Hd|(i & input & _ & _ & [Hd|[_ Hd]])];
      rewrite Hd in H; [by apply shrink_same|by eapply shrink_default|].
    edestruct (shrink_dset False) as [(_ & _ & [?|[]])|[_ ?]]; [|exact H|done..].
    intros _. left. unfold _expire_file_snapshots, add_input, results_shrink. by case_if.
  - intros H. left. destruct (context_cases lid d) as [Hd|(i & _ & Hd)]; rewrite Hd in H; [by apply shrink_same|].
    by eapply shrink_default.
  - intros H. destruct (record_delivery_cases lid delivery d)
      as [[Hd _]|(i & _ & -> & [[Hd _]|(_ & s1 & Ha & Hd)])]; rewrite Hd in H; simpl in H.
    + left. by apply shrink_same.
    + left. by eapply shrink_default.
    + destruct (shrink_dset (committed (log_entry lid delivery ++ h) id (session_of id d) s1)
        d (strip lid) s1 id s') as [(_ & -> & ?)|[_ ?]]; [|exact H|done|by left].
      intros <-. destruct (apply_delivery_cases _ _ _ Ha) as [->|(m & Hm & _ & _ & sn & -> & _)];
        [left; apply results_shrink_refl|]. right. exists (_delivery_result_id delivery m), m.
      split; [|done]. apply elem_of_app. left. unfold log_entry. rewrite Hm. apply list_elem_of_here.
  - intros H. left. destruct (record_delivery_cases lid delivery d)
      as [[Hd _]|(i & _ & -> & [[Hd _]|(_ & s1 & Ha & Hd)])]; rewrite Hd in *; simpl in *; try done.
    + by apply shrink_same.
    + by eapply shrink_default.
  - intros H. left. edestruct (shrink_dset False) as [(_ & _ & [?|[]])|[_ ?]]; [|exact H|done..].
    intros _. left. by intros r l.
  - intros H. left. unfold invalidate_file in H. destruct (dget lid d) as [s|] eqn:E; [|by apply shrink_same].
    eapply (shrink_update _ _ (forget_file key)); [exact E| |exact H].
    destruct (store_ok_get _ _ _ Hok E) as [_ Hs]. intros r l. simpl.
    rewrite dget_filter by apply Hs. destruct (dget r _); [|done]. by case_decide.
  - intros H. left. unfold retire_session, put_session in H. simpl in H. rewrite dget_dset in H.
    destruct (decide (lid = id)); [injection H as <-|by apply shrink_same]. intros r l. done.
  - intros H. left. unfold retire_results in H. destruct (dget lid d) as [s|] eqn:E; [|by apply shrink_same].
    eapply (shrink_update _ _ (fun s => set_file_results _ s)); [exact E| |exact H].
    intros r l. simpl. rewrite dget_fold_ddel. by case_decide.
  - done.
  - rewrite prepare_snapshot in * by done. destruct (has_late_snapshot d); [done|]. simplify_eq. simpl. rewrite dget_expired.
    destruct (dget id d) as [s|] eqn:E; simpl; [|done]. intros [= <-]. left.
    rewrite (session_of_get _ _ _ E). by intros r l.
Qed.

Lemma store_step_history w w' : store_step w w' -> w_history w ⊆ w_history w'.
Proof. destruct 1; simpl; try done. intros x Hx. apply elem_of_app. by right. Qed.

(** ** Provenance: every granted line was delivered *)

(** The accepted manifests of a result about one content of one file. *)
Definition delivered (h : delivery_log) (id r key digest : string) (m : FileDeliveryManifest) : Prop :=
  (id, r, m) ∈ h /\ mf_file_key m = key /\ mf_digest m = digest.

(** Line [x] is in the block of a span of [m] that shows the block from its first
    character to its last, or [m] delivers the complete file. *)
Definition shows_line (m : FileDeliveryManifest) (x : Z) : Prop :=
  (exists s, s ∈ mf_spans m /\ 1 <= sp_start_line s <= x /\ x <= sp_end_line s /\
     sp_visible_start_in_line s <= 0 /\ sp_line_length s <= sp_visible_end_in_line s) \/
  mf_complete_file m = true.

(** The character [p] of the line [x] of length [n] is on a span of [m]. *)
Definition shows_char (m : FileDeliveryManifest) (x n p : Z) : Prop :=
  exists s, s ∈ mf_spans m /\ sp_start_line s = x /\ sp_end_line s = x /\ sp_line_length s = n /\
    sp_visible_start_in_line s <= p < sp_visible_end_in_line s.

(** The line was shown by the deliveries [D]: at once, or all its characters piecewise. *)
Definition line_shown (D : FileDeliveryManifest -> Prop) (x : Z) : Prop :=
  (exists m, D m /\ shows_line m x) \/
  (exists n, 0 < n /\ forall p, 0 <= p < n -> exists m, D m /\ shows_char m x n p).

Record lease_proven (h : delivery_log) (id r : string) (l : FileResultLease) : Prop := {
  lp_lines : forall x, line_in x (ls_standalone_ranges l) ->
    line_shown (delivered h id r (ls_file_key l) (ls_digest l)) x;
  lp_chars : forall x n p, frag_in x n p (ls_line_fragments l) ->
    exists m, delivered h id r (ls_file_key l) (ls_digest l) m /\ shows_char m x n p;
  lp_complete : ls_complete_file l = true ->
    exists m, delivered h id r (ls_file_key l) (ls_digest l) m /\ mf_complete_file m = true;
  lp_empty : ls_empty_file l = true ->
    exists m, delivered h id r (ls_file_key l) (ls_digest l) m /\ mf_empty_file m = true;
  lp_inherited : forall x, line_in x (ls_inherited_ranges l) ->
    exists m, delivered h id r (ls_file_key l) (ls_digest l) m /\ line_in x (mf_inherited_ranges m)
}.

Definition store_proven (w : world) : Prop :=
  forall id s r l, dget id (w_sessions w) = Some s -> dget r (ss_file_results s) = Some l ->
    lease_proven (w_history w) id r l.

Lemma line_shown_mono (D D' : FileDeliveryManifest -> Prop) x :
  (forall m, D m -> D' m) -> line_shown D x -> line_shown D' x.
Proof.
  intros H [(m & Hm & Hx)|(n & Hn & Hp)]; [left; eauto|right]. exists n. split; [done|].
  intros p Hpn. destruct (Hp p Hpn) as (m & Hm & ?). eauto.
Qed.

Lemma lease_proven_mono h h' id r l : h ⊆ h' -> lease_proven h id r l -> lease_proven h' id r l.
Proof.
  intros Hh [H1 H2 H3 H4 H5].
  assert (Hd : forall k g m, delivered h id r k g m -> delivered h' id r k g m).
  { intros k g m (Hin & ? & ?). by split_and!; [apply Hh| |]. }
  split.
  - intros x Hx. eapply line_shown_mono; [apply Hd|by apply H1].
  - intros x n p Hx. destruct (H2 _ _ _ Hx) as (m & ? & ?). eauto.
  - intros Hc. destruct (H3 Hc) as (m & ? & ?). eauto.
  - intros Hc. destruct (H4 Hc) as (m & ? & ?). eauto.
  - intros x Hx. destruct (H5 _ Hx) as (m & ? & ?). eauto.
Qed.

Lemma frag_in_app x n p l1 l2 : frag_in x n p (l1 ++ l2) <-> frag_in x n p l1 \/ frag_in x n p l2.
Proof. unfold frag_in. setoid_rewrite elem_of_app. naive_solver. Qed.

Lemma line_in_lines x lines : line_in x (line_ranges lines) -> exists y, y ∈ lines /\ x = Z.max 1 y.
Proof.
  intros (s & e & Hin & Hle & Hx). unfold line_ranges in Hin.
  apply list_elem_of_fmap in Hin as (y & [= -> ->] & Hy). exists y. split; [done|lia].
Qed.

Lemma whole_file_complete x b n : line_in x (whole_file b n) -> b = true /\ 1 <= x <= n.
Proof.
  unfold whole_file. destruct (b && _) eqn:E; [|by intros ?%line_in_nil].
  intros H%line_in_singleton. bool_to_prop. split; [done|lia].
Qed.

Lemma full_ranges_shown m x : line_in x (full_ranges m) -> shows_line m x.
Proof.
  intros (a & b & Hin & Hle & Hx). left. unfold full_ranges in Hin.
  apply list_elem_of_fmap in Hin as (s & [= -> ->] & Hs). apply list_elem_of_filter in Hs as [Hf Hs].
  unfold span_full in Hf. bool_to_prop. exists s. split_and!; [done|lia..].
Qed.

Lemma partial_fragments_shown m x n p : frag_in x n p (partial_fragments m) -> shows_char m x n p.
Proof.
  intros (a & b & Hin & Hx & Hn & Hp & _). unfold partial_fragments in Hin.
  apply list_elem_of_fmap in Hin as (s & [= -> -> -> ->] & Hs). apply list_elem_of_filter in Hs as [Hf Hs].
  unfold span_partial in Hf. bool_to_prop. exists s. split_and!; [done|lia..].
Qed.

(** A new lease is as well proven as the lease it extends. *)
Lemma build_lease_proven h id r turn previous m :
  (id, r, m) ∈ h ->
  (forall l, previous = Some l ->
     ls_file_key l = mf_file_key m /\ ls_digest l = mf_digest m /\ lease_proven h id r l) ->
  lease_proven h id r (build_lease turn r previous m).
Proof.
  intros Hin Hprev.
  assert (Hm : delivered h id r (mf_file_key m) (mf_digest m) m) by done.
  assert (Hfrag : forall x n p, frag_in x n p (delivery_fragments previous m) ->
    exists m', delivered h id r (mf_file_key m) (mf_digest m) m' /\ shows_char m' x n p).
  { intros x n p [Hp|Hp]%frag_in_app; [|exists m; split; [done|by apply partial_fragments_shown]].
    destruct previous as [l|]; simpl in Hp; [|by destruct Hp as (? & ? & ?%elem_of_nil & _)].
    destruct (Hprev l eq_refl) as (<- & <- & Hl). by apply Hl. }
  split; unfold build_lease;
    cbn [ls_standalone_ranges ls_file_key ls_digest ls_line_fragments ls_complete_file ls_empty_file
         ls_inherited_ranges].
  - intros x Hx. rewrite merged_line_in in Hx. unfold delivery_ranges in Hx. rewrite !line_in_app in Hx.
    destruct Hx as [Hx|[Hx|[Hx|Hx]]].
    + destruct previous as [l|]; simpl in Hx; [|by apply line_in_nil in Hx].
      destruct (Hprev l eq_refl) as (<- & <- & Hl). by apply Hl.
    + left. exists m. split; [done|by apply full_ranges_shown].
    + apply line_in_lines in Hx as (y & Hy & ->). right.
      apply completed_lines_spec in Hy as (n & Hn & Hy). exists n. split; [done|]. intros p Hp.
      destruct (Hy p Hp) as (s & e & He & Hpos & Hrest). rewrite Z.max_r by lia. apply Hfrag.
      by exists s, e.
    + apply whole_file_complete in Hx as [Hc _]. left. exists m. split; [done|by right].
  - intros x n p. rewrite merged_fragments_covers. apply Hfrag.
  - intros [Hc|Hc]%orb_true_iff; [by eauto|]. destruct previous as [l|]; [|done].
    destruct (Hprev l eq_refl) as (<- & <- & Hl). by apply Hl.
  - intros [Hc|Hc]%orb_true_iff; [by eauto|]. destruct previous as [l|]; [|done].
    destruct (Hprev l eq_refl) as (<- & <- & Hl). by apply Hl.
  - intros x. rewrite merged_line_in, line_in_app. intros [Hx|Hx]; [by eauto|].
    destruct previous as [l|]; simpl in Hx; [|by apply line_in_nil in Hx].
    destruct (Hprev l eq_refl) as (<- & <- & Hl). by apply Hl.
Qed.

Lemma store_step_proven w w' :
  store_ok (w_sessions w) -> store_proven w -> store_step w w' -> store_proven w'.
Proof.
  intros Hok Hp Hstep id s' r l Hs' Hl. pose proof (store_step_history _ _ Hstep) as Hh.
  destruct w as [h d], w' as [h' d']; simpl in *.
  assert (Hold : forall r l, dget r (ss_file_results (session_of id d)) = Some l -> lease_proven h' id r l).
  { intros r0 l0. unfold session_of. destruct (dget id d) as [s|] eqn:E; [|done]. simpl. intros H0.
    eapply lease_proven_mono; [exact Hh|]. by eapply Hp. }
  destruct (store_step_session _ _ _ _ _ _ Hok Hstep Hs') as [H|(r0 & m & Hin & Hres)]; [by eauto|].
  rewrite Hres, dget_dset in Hl. destruct (decide (r0 = r)) as [->|]; [|by eauto]. injection Hl as <-.
  apply build_lease_proven; [done|]. intros l0 Hl0.
  apply merged_lease_get in Hl0 as (? & ? & ?). by eauto.
Qed.
