(* ===== verification/SessionGrants.v ===== *)
(** * Grants

    What [file_grant] means: exactly which lines a grant covers, that each of them was
    delivered, and that authority dies with the result, the file or the lifetime that
    owns it. *)

From S2P Require Import Prelude Dict Utf8 Sha256 PyValue JsonText Ranges SessionData SessionState.
From S2P Require Import SessionSafety.
Open Scope Z_scope.

(** ** The leases a grant is made of *)

Definition selects (s : _SessionState) (vis : option (list string)) (key digest : string)
    (l : FileResultLease) : Prop :=
  exists r, dget r (ss_file_results s) = Some l /\ visible vis l = true /\
    ls_file_key l = key /\ ls_digest l = digest.

(** Every parent of the mutation is held and visible, about the same file, and one of
    them is about the content the mutation started from. *)
Definition parents_held (s : _SessionState) (vis : option (list string)) (l : FileResultLease) : Prop :=
  let held p q := dget p (ss_file_results s) = Some q /\ visible vis q = true in
  (forall p, p ∈ ls_parent_result_ids l -> exists q, held p q /\ ls_file_key q = ls_file_key l) /\
  (exists p q, p ∈ ls_parent_result_ids l /\ held p q /\ ls_digest q = ls_before_digest l).

(** The line [x] follows from the lease alone. *)
Definition lease_grants (s : _SessionState) (vis : option (list string)) (l : FileResultLease) (x : Z) : Prop :=
  line_in x (ls_standalone_ranges l) \/
  (ls_complete_file l = true /\ 1 <= x <= ls_total_lines l) \/
  (parents_held s vis l /\ line_in x (ls_inherited_ranges l)).

(** The line [x] follows from the selected leases. *)
Definition line_granted (s : _SessionState) (vis : option (list string)) (key digest : string) (x : Z)
    : Prop :=
  (exists l, selects s vis key digest l /\ lease_grants s vis l x) \/
  (exists n, 0 < n /\ forall p, 0 <= p < n ->
     exists l, selects s vis key digest l /\ frag_in x n p (ls_line_fragments l)).

Definition grants_line (g : option FileGrant) (x : Z) : Prop :=
  match g with
  | Some g => covers 1 x (gr_covered_ranges g)
  | None => False
  end.

Lemma active_elem s vis r l :
  dwf (ss_file_results s) ->
  dget r (active_leases s vis) = Some l <-> dget r (ss_file_results s) = Some l /\ visible vis l = true.
Proof.
  intros Hwf. unfold active_leases. rewrite dget_filter by done.
  destruct (dget r (ss_file_results s)) as [l'|]; [|naive_solver].
  case_decide; simpl in *; naive_solver.
Qed.

Lemma candidates_elem s vis key digest l :
  dwf (ss_file_results s) ->
  l ∈ filter (fun l => candidate key digest l = true) (dvals (active_leases s vis)) <->
  candidate key digest l = true /\ exists r, dget r (ss_file_results s) = Some l /\ visible vis l = true.
Proof.
  intros Hwf. rewrite list_elem_of_filter, elem_dvals. apply and_iff_compat_l. split.
  - intros (r & Hr). exists r. apply active_elem; [done|]. apply elem_dget; [|done].
    by apply dwf_filter.
  - intros (r & Hr). exists r. by apply dget_elem, active_elem.
Qed.

Lemma candidate_spec key digest l :
  candidate key digest l = true <-> ls_file_key l = key /\ (digest = "" \/ ls_digest l = digest).
Proof.
  unfold candidate. rewrite andb_true_iff, bool_decide_eq_true, orb_true_iff, negb_true_iff, bool_decide_eq_true.
  apply and_iff_compat_l. unfold str_truthy. rewrite bool_decide_eq_false.
  destruct (decide (digest = "")); naive_solver.
Qed.

(** The leases of the selected digest are the ones [selects] describes. *)
Lemma selected_elem s vis key digest d l :
  dwf (ss_file_results s) -> (digest = "" \/ d = digest) ->
  l ∈ filter (fun l => ls_digest l = d)
        (filter (fun l => candidate key digest l = true) (dvals (active_leases s vis))) <->
  selects s vis key d l.
Proof.
  intros Hwf Hd. rewrite list_elem_of_filter, candidates_elem, candidate_spec by done. unfold selects.
  naive_solver.
Qed.

Lemma frag_in_bind {A} (f : A -> list fragment) x n p (ls : list A) :
  frag_in x n p (ls ≫= f) <-> exists l, l ∈ ls /\ frag_in x n p (f l).
Proof. unfold frag_in. setoid_rewrite list_elem_of_bind. naive_solver. Qed.

Lemma line_in_bind {A} (f : A -> list range) x (ls : list A) :
  line_in x (ls ≫= f) <-> exists l, l ∈ ls /\ line_in x (f l).
Proof. unfold line_in. setoid_rewrite list_elem_of_bind. naive_solver. Qed.

Lemma line_ranges_completed x fr :
  line_in x (line_ranges (_merge_line_fragments fr).2) <->
  exists n, 0 < n /\ forall p, 0 <= p < n -> frag_in x n p fr.
Proof.
  rewrite <- completed_lines_spec. split.
  - intros (y & Hy & ->)%line_in_lines. pose proof Hy as Hy'.
    apply completed_lines_spec in Hy' as (n & Hn & Hp).
    destruct (Hp 0) as (? & ? & _ & ? & _); [lia|]. by rewrite Z.max_r by lia.
  - intros Hx. pose proof Hx as Hx'. apply completed_lines_spec in Hx' as (n & Hn & Hp).
    destruct (Hp 0) as (? & ? & _ & ? & _); [lia|].
    exists x, x. split; [|lia]. apply list_elem_of_fmap. eauto.
Qed.

(** The lines of the merged ranges of a set of leases. *)
Lemma grant_lines active (ls : list FileResultLease) x :
  covers 1 x (_merge_ranges ((ls ≫= lease_ranges active) ++
    line_ranges (_merge_line_fragments (ls ≫= ls_line_fragments)).2)) <->
  (exists l, l ∈ ls /\ line_in x (lease_ranges active l)) \/
  (exists n, 0 < n /\ forall p, 0 <= p < n -> exists l, l ∈ ls /\ frag_in x n p (ls_line_fragments l)).
Proof.
  rewrite merge_ranges_covers, line_in_app, line_in_bind, line_ranges_completed.
  by setoid_rewrite frag_in_bind.
Qed.

(** What [grant_of] returns. *)
Lemma grant_of_spec active key digest ls :
  let merged := _merge_ranges ((ls ≫= lease_ranges active) ++
    line_ranges (_merge_line_fragments (ls ≫= ls_line_fragments)).2) in
  (forall x, grants_line (grant_of active key digest ls) x <-> covers 1 x merged) /\
  forall g, grant_of active key digest ls = Some g ->
    gr_file_key g = key /\ gr_digest g = digest /\ gr_covered_ranges g = merged /\
    gr_result_ids g = sorted_set (ls ≫= lease_ids active) /\
    gr_empty_file g = existsb ls_empty_file ls /\
    gr_total_lines g = zmax_list 0 (ls_total_lines <$> ls).
Proof.
  cbv zeta. unfold grant_of.
  destruct (_merge_line_fragments (ls ≫= ls_line_fragments)) as [mf completed]. cbn [snd]. split.
  - intros x. destruct (bool_decide _ && _ && _) eqn:Ec; cbn [grants_line gr_covered_ranges]; [|done].
    bool_to_prop. split; [done|]. intros Hx. rewrite H in Hx. by apply covers_nil in Hx.
  - intros g. destruct (bool_decide _ && _ && _); [done|]. by intros [= <-].
Qed.

(** The selected digest and the selected leases. *)
Lemma session_grant_selected s vis key digest :
  dwf (ss_file_results s) ->
  (session_grant s key digest vis = None /\ forall l d, (digest = "" \/ d = digest) -> ~ selects s vis key d l) \/
  exists d ls, (digest = "" \/ d = digest) /\
    session_grant s key digest vis = grant_of (active_leases s vis) key d ls /\
    (forall l, l ∈ ls <-> selects s vis key d l).
Proof.
  intros Hwf. unfold session_grant.
  pose proof (fun d l => selected_elem s vis key digest d l Hwf) as Hsel.
  destruct (filter (fun l => candidate key digest l = true) _) as [|l0 ls] eqn:E.
  - left. split; [done|]. intros l d Hd Hl. apply Hsel in Hl; [|done].
    by apply list_elem_of_filter in Hl as [_ ?%elem_of_nil].
  - right. eexists _, _. split; [|split; [reflexivity|]].
    + unfold str_or. case_decide; auto.
    + intros l. apply Hsel. unfold str_or. case_decide; auto.
Qed.

Lemma inherits_spec active l :
  inherits active l = true <->
  (forall p, p ∈ ls_parent_result_ids l -> exists q, dget p active = Some q /\ ls_file_key q = ls_file_key l) /\
  (exists p q, p ∈ ls_parent_result_ids l /\ dget p active = Some q /\ ls_digest q = ls_before_digest l).
Proof.
  unfold inherits. rewrite !andb_true_iff, negb_true_iff, bool_decide_eq_false, forallb_forall, existsb_exists.
  setoid_rewrite <- list_elem_of_In. split.
  - intros ((_ & Hall) & (o & Ho & Hd)). split.
    + intros p Hp. assert (Hq : dget p active ∈ (fun p => dget p active) <$> ls_parent_result_ids l)
        by (apply list_elem_of_fmap; eauto).
      apply Hall in Hq. destruct (dget p active) as [q|].
      * exists q. split; [done|]. by bool_to_prop.
      * done.
    + apply list_elem_of_fmap in Ho as (p & -> & Hp). destruct (dget p active) as [q|] eqn:E; [|done].
      bool_to_prop. eauto 10.
  - intros (Hall & (p & q & Hp & Hq & Hd)). split_and!.
    + intros He. rewrite He in Hp. by apply elem_of_nil in Hp.
    + intros o (p' & -> & Hp')%list_elem_of_fmap. destruct (Hall p' Hp') as (q' & -> & ?).
      by apply bool_decide_eq_true.
    + exists (dget p active). split; [apply list_elem_of_fmap; eauto|]. rewrite Hq. by apply bool_decide_eq_true.
Qed.

Lemma whole_file_iff x b n : line_in x (whole_file b n) <-> b = true /\ 1 <= x <= n.
Proof.
  split; [apply whole_file_complete|]. intros [-> Hx]. unfold whole_file. simpl.
  rewrite (proj2 (Z.ltb_lt 0 n)) by lia. apply line_in_singleton. lia.
Qed.

Lemma lease_ranges_grants s vis l x :
  dwf (ss_file_results s) -> line_in x (lease_ranges (active_leases s vis) l) <-> lease_grants s vis l x.
Proof.
  intros Hwf. unfold lease_ranges, lease_grants. rewrite !line_in_app, whole_file_iff.
  assert (Hp : inherits (active_leases s vis) l = true <-> parents_held s vis l).
  { rewrite inherits_spec. unfold parents_held. by setoid_rewrite (active_elem s vis _ _ Hwf). }
  destruct (inherits (active_leases s vis) l); [tauto|].
  split; [intros [?|[?|H]]; [tauto|tauto|by apply line_in_nil in H]|].
  intros [?|[?|[H _]]]; [tauto|tauto|]. by apply Hp in H.
Qed.

Lemma session_grant_lines s vis key digest x :
  dwf (ss_file_results s) -> digest <> "" ->
  grants_line (session_grant s key digest vis) x <-> line_granted s vis key digest x.
Proof.
  intros Hwf Hd. unfold line_granted.
  destruct (session_grant_selected s vis key digest Hwf) as [[-> H]|(d & ls & Hds & -> & H)].
  - simpl. split; [done|]. intros [(l & Hl & _)|(n & Hn & Hp)]; [by eapply H; [right|]|].
    destruct (Hp 0) as (l & Hl & _); [lia|]. by eapply H; [right|].
  - destruct Hds as [?| ->]; [done|].
    rewrite (proj1 (grant_of_spec _ _ _ _)), grant_lines. setoid_rewrite H.
    by setoid_rewrite (lease_ranges_grants s vis _ x Hwf).
Qed.

Lemma lease_ids_elem active l r :
  r ∈ lease_ids active l <-> r = ls_result_id l \/ (inherits active l = true /\ r ∈ ls_parent_result_ids l).
Proof.
  unfold lease_ids. rewrite elem_of_cons. apply or_iff_compat_l.
  destruct (inherits active l); [naive_solver|]. rewrite elem_of_nil. naive_solver.
Qed.

(** ** Reachable stores *)

Definition start : world := World [] [].

Lemma start_ok : store_ok (w_sessions start).
Proof. split; [apply dwf_nil|constructor]. Qed.

Lemma reachable_ok w : rtc store_step start w -> store_ok (w_sessions w) /\ store_proven w.
Proof.
  intros H. apply (rtc_ind_r (R := store_step) (fun w => store_ok (w_sessions w) /\ store_proven w) start); [| |exact H].
  - split; [apply start_ok|]. by intros id s r l.
  - intros w1 w2 _ Hstep [Hok Hp]. split; [by eapply store_step_ok|by eapply store_step_proven].
Qed.

Lemma file_grant_session d id key digest vis g :
  file_grant d id key digest vis = Some g ->
  exists s, dget id d = Some s /\ ss_retired s = false /\ session_grant s key digest vis = Some g.
Proof.
  unfold file_grant. destruct (dget id d) as [s|]; [|done]. destruct (ss_retired s) eqn:E; [done|]. eauto.
Qed.

Lemma selects_entry d id s vis key digest l :
  store_ok d -> dget id d = Some s -> selects s vis key digest l ->
  dget (ls_result_id l) (ss_file_results s) = Some l.
Proof.
  intros Hok Hs (r & Hr & _). destruct (store_ok_get _ _ _ Hok Hs) as [_ Hso].
  destruct Hso as [_ _ _ _ _ _ _ Hl _]. rewrite Forall_forall in Hl.
  destruct (Hl _ (dget_elem _ _ _ Hr)) as (_ & E & _). simpl in E. by rewrite E.
Qed.

(** The deliveries a grant rests on: accepted, about its content, of a result it names. *)
Definition basis (h : delivery_log) (id : string) (g : FileGrant) (m : FileDeliveryManifest) : Prop :=
  exists r, r ∈ gr_result_ids g /\ delivered h id r (gr_file_key g) (gr_digest g) m.

(** A line a mutation carried over: the delivery of the mutation names it, and the
    results it was inherited from are all still held, one of them about the content the
    mutation started from. *)
Definition carried_over (h : delivery_log) (id : string) (s : _SessionState) (vis : option (list string))
    (g : FileGrant) (x : Z) : Prop :=
  exists l m, basis h id g m /\ line_in x (mf_inherited_ranges m) /\
    dget (ls_result_id l) (ss_file_results s) = Some l /\
    (forall p, p ∈ ls_parent_result_ids l -> p ∈ gr_result_ids g /\
       exists q, dget p (ss_file_results s) = Some q /\ visible vis q = true /\ ls_file_key q = gr_file_key g) /\
    (exists p q, p ∈ ls_parent_result_ids l /\ dget p (ss_file_results s) = Some q /\
       ls_digest q = ls_before_digest l).

Lemma granted_line_basis w id s vis key digest g d ls x :
  store_ok (w_sessions w) -> store_proven w -> dget id (w_sessions w) = Some s ->
  session_grant s key digest vis = Some g ->
  session_grant s key digest vis = grant_of (active_leases s vis) key d ls ->
  (forall l, l ∈ ls <-> selects s vis key d l) ->
  covers 1 x (gr_covered_ranges g) ->
  line_shown (basis (w_history w) id g) x \/ carried_over (w_history w) id s vis g x.
Proof.
  intros Hok Hp Hs Hg Hg' Hls Hx. rewrite Hg' in Hg.
  destruct (grant_of_spec (active_leases s vis) key d ls) as [_ Hspec].
  destruct (Hspec g Hg) as (Ek & Ed & Er & Ei & _ & _). clear Hspec Hg'.
  destruct (store_ok_get _ _ _ Hok Hs) as [_ Hso].
  assert (Hid : forall l r, l ∈ ls -> r ∈ lease_ids (active_leases s vis) l -> r ∈ gr_result_ids g).
  { intros l r Hl Hr. rewrite Ei, sorted_set_elem. apply list_elem_of_bind. eauto. }
  assert (Hbase : forall l m, l ∈ ls ->
    delivered (w_history w) id (ls_result_id l) (ls_file_key l) (ls_digest l) m -> basis (w_history w) id g m).
  { intros l m Hl Hm. exists (ls_result_id l). split.
    - apply (Hid l); [done|]. apply lease_ids_elem. by left.
    - apply Hls in Hl as (r & _ & _ & <- & <-). by rewrite Ek, Ed. }
  assert (Hlp : forall l, l ∈ ls -> lease_proven (w_history w) id (ls_result_id l) l).
  { intros l Hl. apply Hls in Hl. eapply Hp; [exact Hs|]. by eapply selects_entry. }
  rewrite Er in Hx. apply grant_lines in Hx as [(l & Hl & Hx)|(n & Hn & Hx)].
  - unfold lease_ranges in Hx. rewrite !line_in_app in Hx. destruct Hx as [Hx|[Hx|Hx]].
    + left. eapply line_shown_mono; [|by eapply lp_lines; [apply Hlp|]]. intros m. by apply Hbase.
    + apply whole_file_complete in Hx as [Hc _]. left. left.
      destruct (lp_complete _ _ _ _ (Hlp l Hl) Hc) as (m & Hm & Hmc). exists m. split; [by eapply Hbase|by right].
    + right. destruct (inherits _ l) eqn:Einh; [|by apply line_in_nil in Hx].
      destruct (lp_inherited _ _ _ _ (Hlp l Hl) x Hx) as (m & Hm & Hmx).
      pose proof (proj1 (inherits_spec _ _) Einh) as [Hall (p & q & Hp1 & Hq & Hd)].
      assert (Hkey : ls_file_key l = gr_file_key g) by (apply Hls in Hl as (? & _ & _ & <- & _); by rewrite Ek).
      exists l, m. split_and!; [by eapply Hbase|done|by eapply selects_entry; [| |apply Hls]| |].
      * intros p' Hp'. split; [apply (Hid l); [done|apply lease_ids_elem; by right]|].
        destruct (Hall p' Hp') as (q' & Hq' & Hk). apply active_elem in Hq' as [? ?]; [|apply Hso].
        exists q'. by rewrite <- Hkey.
      * apply active_elem in Hq as [? ?]; [|apply Hso]. eauto 10.
  - left. right. exists n. split; [done|]. intros p Hpn. destruct (Hx p Hpn) as (l & Hl & Hf).
    destruct (lp_chars _ _ _ _ (Hlp l Hl) _ _ _ Hf) as (m & Hm & Hmx). eauto.
Qed.

(** ** Revocation *)

Lemma fold_ddel_filter {A} (rs : list string) (d : dict string A) :
  foldl (fun f r => ddel r f) d rs = filter (fun p => p.1 ∉ rs) d.
Proof.
  revert d. induction rs as [|r rs IH]; intros d; cbn [foldl].
  - symmetry. induction d as [|p d IHd]; [done|]. rewrite filter_cons_True; [by rewrite IHd|].
    by intros ?%elem_of_nil.
  - rewrite IH. unfold ddel. rewrite list_filter_filter. apply list_filter_iff.
    intros p. rewrite elem_of_cons. naive_solver.
Qed.

Lemma filter_iff_on {A} (P Q : A -> Prop) `{forall x, Decision (P x), forall x, Decision (Q x)} (l : list A) :
  (forall x, x ∈ l -> P x <-> Q x) -> filter P l = filter Q l.
Proof.
  induction l as [|x l IH]; intros Hl; [done|]. rewrite !filter_cons.
  assert (E := Hl x (list_elem_of_here _ _)). rewrite IH by (intros y Hy; apply Hl; by right).
  destruct (decide (P x)), (decide (Q x)); naive_solver.
Qed.

Lemma retired_active s ids v :
  session_ok s ->
  let retired := filter (fun r => dmem r (ss_file_results s) = true) ids in
  active_leases (set_file_results (foldl (fun f r => ddel r f) (ss_file_results s) retired) s) (Some v) =
  active_leases s (Some (filter (fun r => r ∉ ids) v)).
Proof.
  intros Hs retired. unfold active_leases; simpl. rewrite fold_ddel_filter, list_filter_filter.
  destruct Hs as [_ _ _ _ Hwf _ _ Hl _]. rewrite Forall_forall in Hl.
  apply filter_iff_on. intros [r l] Hin. simpl.
  destruct (Hl _ Hin) as (_ & E & _). simpl in E. rewrite E.
  rewrite !bool_decide_eq_true, !list_elem_of_filter. subst retired.
  assert (Hm : dmem r (ss_file_results s) = true) by (apply dmem_true; exists l; by apply elem_dget).
  rewrite list_elem_of_filter. naive_solver.
Qed.

Lemma session_grant_active s s' key digest v v' :
  active_leases s v = active_leases s' v' -> session_grant s key digest v = session_grant s' key digest v'.
Proof. unfold session_grant. by intros ->. Qed.

(** Forgetting a file leaves the leases of the other files alone. *)
Lemma forget_other_inherits key s vis l :
  session_ok s -> ls_file_key l <> key ->
  inherits (active_leases (forget_file key s) vis) l = inherits (active_leases s vis) l.
Proof.
  intros Hs Hl. apply eq_true_iff_eq. rewrite !inherits_spec.
  assert (Hget : forall p q, dget p (active_leases (forget_file key s) vis) = Some q <->
    dget p (active_leases s vis) = Some q /\ ls_file_key q <> key).
  { intros p q. rewrite !active_elem; [|apply Hs|by apply dwf_filter, Hs]. simpl.
    rewrite dget_filter by apply Hs. destruct (dget p (ss_file_results s)); [|naive_solver].
    case_decide; simpl in *; naive_solver. }
  setoid_rewrite Hget. split.
  - intros [Hall (p & q & Hp & [Hq _] & Hd)]. split; [|eauto 10]. intros p' Hp'.
    destruct (Hall p' Hp') as (q' & [? _] & ?). eauto.
  - intros [Hall (p & q & Hp & Hq & Hd)]. split.
    + intros p' Hp'. destruct (Hall p' Hp') as (q' & ? & E). exists q'. rewrite E. auto.
    + exists p, q. destruct (Hall p Hp) as (q' & E & E'). split_and!; try done. congruence.
Qed.

Lemma forget_other_candidates key key' digest s vis :
  key' <> key ->
  filter (fun l => candidate key' digest l = true) (dvals (active_leases (forget_file key s) vis)) =
  filter (fun l => candidate key' digest l = true) (dvals (active_leases s vis)).
Proof.
  intros Hk. unfold active_leases; simpl. generalize (ss_file_results s) as d. unfold dvals.
  induction d as [|[r l] d IH]; [done|].
  rewrite (filter_cons (fun p => ls_file_key p.2 <> key)). cbn [snd].
  destruct (decide (ls_file_key l <> key)) as [Hl|Hl].
  - rewrite !(filter_cons (fun p : string * FileResultLease => visible vis p.2 = true)). cbn [snd].
    destruct (decide (visible vis l = true)); [|exact IH]. rewrite !fmap_cons, !filter_cons. cbn [snd].
    by rewrite IH.
  - rewrite IH, (filter_cons (fun p : string * FileResultLease => visible vis p.2 = true)). cbn [snd].
    destruct (decide (visible vis l = true)); [|done]. rewrite fmap_cons, filter_cons_False; [done|].
    cbn [snd]. rewrite candidate_spec. intros [? _]. apply Hl. congruence.
Qed.

Lemma grant_of_ext a a' key digest ls :
  (forall l, l ∈ ls -> inherits a l = inherits a' l) -> grant_of a key digest ls = grant_of a' key digest ls.
Proof.
  intros H. unfold grant_of.
  assert (H1 : ls ≫= lease_ranges a = ls ≫= lease_ranges a').
  { clear -H. induction ls as [|l ls IH]; [done|]. cbn [mbind list_bind]. unfold lease_ranges at 1 3.
    rewrite H by apply list_elem_of_here. rewrite IH; [done|]. intros; apply H; by right. }
  assert (H2 : ls ≫= lease_ids a = ls ≫= lease_ids a').
  { clear -H. induction ls as [|l ls IH]; [done|]. cbn [mbind list_bind]. unfold lease_ids at 1 3.
    rewrite H by apply list_elem_of_here. rewrite IH; [done|]. intros; apply H; by right. }
  by rewrite H1, H2.
Qed.

Lemma store_step_keeps_retired w w' id s :
  store_ok (w_sessions w) -> dget id (w_sessions w) = Some s -> ss_retired s = true -> store_step w w' ->
  w_sessions w' = [] \/ exists s', dget id (w_sessions w') = Some s' /\ ss_retired s' = true.
Proof.
  intros Hok Hs Hr Hstep.
  destruct Hstep; simpl in *; try (by left); right.
  - destruct (begin_input_cases lid iid n d) as [->|(i & input & _ & _ & [->|[Hr' ->]])]; [by eauto| |].
    + rewrite dsetdefault_get, Hs. eauto.
    + rewrite dget_dset. destruct (decide (i = id)) as [->|]; [|rewrite dsetdefault_get, Hs; eauto].
      rewrite (session_of_get _ _ _ Hs) in Hr'. congruence.
  - destruct (context_cases lid d) as [->|(i & _ & ->)]; [by eauto|]. rewrite dsetdefault_get, Hs. eauto.
  - destruct (record_delivery_cases lid delivery d) as [[-> _]|(i & _ & _ & [[-> _]|(Hr' & s1 & _ & ->)])];
      simpl; [by eauto|rewrite dsetdefault_get, Hs; by eauto|].
    rewrite dget_dset. destruct (decide (i = id)) as [->|]; [|rewrite dsetdefault_get, Hs; eauto].
    rewrite (session_of_get _ _ _ Hs) in Hr'. congruence.
  - destruct (record_delivery_cases lid delivery d) as [[-> _]|(i & _ & _ & [[-> _]|(Hr' & s1 & _ & Heq)])];
      simpl; [by eauto|rewrite dsetdefault_get, Hs; by eauto|]. by rewrite Heq in *.
  - rewrite dget_dset. destruct (decide (lid = id)) as [->|]; [|rewrite dsetdefault_get, Hs; eauto].
    rewrite (session_of_get _ _ _ Hs). by eexists.
  - unfold invalidate_file. destruct (dget lid d) as [s1|] eqn:E; simpl; [|by eauto].
    rewrite dget_dset. destruct (decide (lid = id)) as [->|]; [|by eauto]. rewrite Hs in E. simplify_eq. eauto.
  - rewrite dget_dset. destruct (decide (lid = id)); eauto.
  - unfold retire_results. destruct (dget lid d) as [s1|] eqn:E; simpl; [|by eauto].
    rewrite dget_dset. destruct (decide (lid = id)) as [->|]; [|by eauto]. rewrite Hs in E. simplify_eq. eauto.
  - rewrite prepare_snapshot in * by done. destruct (has_late_snapshot d); [done|]. simplify_eq. rewrite dget_expired, Hs. simpl. eauto.
Qed.

(** ** The theorems *)


(** C2: no line is granted that was not delivered.  In every reachable store, a line
    covered by a grant was shown in full by accepted deliveries of results the grant
    names, about exactly the granted file and digest (at once, as a complete file, or all
    its characters piecewise); or it was carried over by a mutation whose parent results
    are all still held and visible. *)
Theorem granted_lines_were_delivered w id key digest vis g x :
  rtc store_step start w ->
  file_grant (w_sessions w) id key digest vis = Some g ->
  covers 1 x (gr_covered_ranges g) ->
  line_shown (basis (w_history w) id g) x \/
  exists s, dget id (w_sessions w) = Some s /\ carried_over (w_history w) id s vis g x.
Proof.
  intros Hreach Hg Hx. destruct (reachable_ok _ Hreach) as [Hok Hp].
  destruct (file_grant_session _ _ _ _ _ _ Hg) as (s & Hs & _ & Hsg).
  destruct (store_ok_get _ _ _ Hok Hs) as [_ Hso].
  destruct (session_grant_selected s vis key digest) as [[Hn _]|(d & ls & _ & Hg' & Hls)]; [apply Hso|congruence|].
  destruct (granted_line_basis _ _ _ _ _ _ _ _ _ _ Hok Hp Hs Hsg Hg' Hls Hx); eauto.
Qed.

(** A grant covers exactly the lines its leases prove.  For a given digest, a line is
    covered if and only if the session is live and a visible lease on that content has it
    among its own ranges, its complete file or its inherited ranges (parents live), or
    the fragments of the visible leases together cover the line; the ranges are in normal
    form, and [complete] holds exactly when every line from 1 to the total is covered. *)
Theorem file_grant_exact d id key digest vis :
  store_ok d -> digest <> "" ->
  (forall x, grants_line (file_grant d id key digest vis) x <->
     exists s, dget id d = Some s /\ ss_retired s = false /\ line_granted s vis key digest x) /\
  (forall g, file_grant d id key digest vis = Some g ->
     gr_file_key g = key /\ gr_digest g = digest /\ canonical 1 (gr_covered_ranges g) /\
     (0 < gr_total_lines g ->
      grant_complete g = true <-> forall x, 1 <= x <= gr_total_lines g -> covers 1 x (gr_covered_ranges g))).
Proof.
  intros Hok Hd. split.
  - intros x. unfold file_grant. destruct (dget id d) as [s|] eqn:E; simpl;
      [|split; [done|by intros (? & ? & _)]].
    destruct (store_ok_get _ _ _ Hok E) as [_ Hs].
    destruct (ss_retired s) eqn:Er; simpl.
    + split; [done|]. intros (s0 & [= <-] & ? & _). congruence.
    + rewrite session_grant_lines by (done || apply Hs). split; [by eauto|]. by intros (s0 & [= <-] & _ & ?).
  - intros g Hg. destruct (file_grant_session _ _ _ _ _ _ Hg) as (s & Hs & _ & Hsg).
    destruct (store_ok_get _ _ _ Hok Hs) as [_ Hso].
    destruct (session_grant_selected s vis key digest) as [[Hn _]|(d' & ls & Hdd & Hg' & Hls)];
      [apply Hso|congruence|].
    rewrite Hg' in Hsg. destruct (grant_of_spec (active_leases s vis) key d' ls) as [_ Hspec].
    destruct (Hspec g Hsg) as (Ek & Ed & Er & _). destruct Hdd as [?| ->]; [done|].
    assert (Hc : canonical 1 (gr_covered_ranges g)) by (rewrite Er; apply merge_ranges_canonical).
    split_and!; [done..|]. intros Ht. unfold grant_complete.
    rewrite (proj2 (Z.eqb_neq _ 0)) by lia. apply (canonical_contains _ _ _ Hc). lia.
Qed.

(** Retiring results revokes what they proved.  After [retire_results], grants are
    exactly those computed before with the retired results made invisible: neither a
    retired result nor a line that rested on one, directly or as the parent of a
    mutation, remains. *)
Theorem retire_results_revokes d id ids key digest v :
  store_ok d ->
  file_grant (retire_results id ids d).1 id key digest (Some v) =
    file_grant d id key digest (Some (filter (fun r => r ∉ ids) v)).
Proof.
  intros Hok. unfold retire_results, file_grant. destruct (dget id d) as [s|] eqn:E; simpl; [|by rewrite E].
  rewrite dget_dset_eq. simpl. destruct (ss_retired s); [done|].
  apply session_grant_active, retired_active. by eapply store_ok_get.
Qed.

(** Invalidating a file drops its authority and no other.  Afterwards the session has
    no grant and no snapshot for the file, and the grants and snapshots of every other
    file are the ones it had. *)
Theorem invalidate_file_exact d id key key' digest vis :
  store_ok d ->
  let d' := (invalidate_file id key d).1 in
  file_grant d' id key digest vis = None /\ file_snapshot d' id key digest = None /\
  (key' <> key -> file_grant d' id key' digest vis = file_grant d id key' digest vis /\
                  file_snapshot d' id key' digest = file_snapshot d id key' digest).
Proof.
  intros Hok d'. subst d'. unfold invalidate_file, file_grant, file_snapshot.
  destruct (dget id d) as [s|] eqn:E; simpl; [|by rewrite !E].
  destruct (store_ok_get _ _ _ Hok E) as [_ Hs]. rewrite dget_dset_eq. simpl.
  destruct (ss_retired s); [done|]. split_and!.
  - destruct (session_grant_selected (forget_file key s) vis key digest) as [[-> _]|(dg & ls & _ & -> & Hls)];
      [by apply dwf_filter, Hs|done|].
    destruct ls as [|l ls]; [done|]. destruct (proj1 (Hls l)) as (r & Hr & _ & Hk & _); [apply list_elem_of_here|].
    simpl in Hr. rewrite dget_filter in Hr by apply Hs. destruct (dget r (ss_file_results s)); [|done].
    destruct (decide _) as [Hd|] in Hr; [|done]. injection Hr as ->. by simpl in Hd.
  - by rewrite dget_ddel_eq.
  - intros Hne. rewrite dget_ddel_ne by done. split; [|done]. unfold session_grant.
    rewrite forget_other_candidates by done.
    destruct (filter (fun l => candidate key' digest l = true) _) as [|l0 ls] eqn:Ef; [done|].
    apply grant_of_ext. intros l [_ Hl]%list_elem_of_filter. rewrite <- Ef in Hl.
    apply list_elem_of_filter in Hl as [Hl%candidate_spec _]. apply forget_other_inherits; [done|].
    destruct Hl as [-> _]. done.
Qed.

(** A retired lifetime stays dead.  No input and no delivery is accepted for it and
    both leave the store alone, it grants nothing, and every step of the store except a
    reset keeps its tombstone. *)
Theorem retired_lifetime_stays_dead w w' id s iid n delivery key digest vis :
  store_ok (w_sessions w) -> dget id (w_sessions w) = Some s -> ss_retired s = true ->
  file_grant (w_sessions w) id key digest vis = None /\
  file_snapshot (w_sessions w) id key digest = None /\
  (iid <> "" -> strip iid = iid ->
   begin_input id iid n (w_sessions w) = (w_sessions w, Raise SessionIsRetired)) /\
  record_delivery id delivery (w_sessions w) = (w_sessions w, Raise SessionIsRetired) /\
  (store_step w w' -> w_sessions w' = [] \/
     exists s', dget id (w_sessions w') = Some s' /\ ss_retired s' = true /\ ss_input_ids s' = [] /\ ss_file_results s' = []).
Proof.
  intros Hok Hs Hr. destruct (store_ok_get _ _ _ Hok Hs) as [Hid Hso].
  assert (Hdef : dsetdefault id new_session (w_sessions w) = w_sessions w) by (unfold dsetdefault; by rewrite Hs).
  split_and!.
  - unfold file_grant. by rewrite Hs, Hr.
  - unfold file_snapshot. by rewrite Hs, Hr.
  - intros H1 H2. unfold begin_input, sbind, slift, setdefault_session, sguard.
    rewrite normal_required, normal_required by done. rewrite (session_of_get _ _ _ Hs), Hr, Hdef. done.
  - unfold record_delivery, sbind, slift, setdefault_session, sguard.
    rewrite normal_required by done. by rewrite (session_of_get _ _ _ Hs), Hr, Hdef.
  - intros Hstep.
    destruct (store_step_keeps_retired _ _ _ _ Hok Hs Hr Hstep) as [?|(s' & Hs' & Hr')]; [by left|right]. exists s'.
    destruct (store_ok_get _ _ _ (store_step_ok _ _ Hstep Hok) Hs') as [_ Hs'ok].
    destruct (so_retired _ Hs'ok Hr'). by split_and!.
Qed.

Lemma file_snapshot_expired d id key digest :
  store_ok d -> file_snapshot (expired d) id key digest = file_snapshot d id key digest.
Proof.
  intros Hok. unfold file_snapshot. rewrite dget_expired. destruct (dget id d) as [s|] eqn:E; [|done]. simpl.
  destruct (store_ok_get _ _ _ Hok E) as [_ Hs]. destruct (ss_retired s); [done|].
  rewrite dget_filter by apply Hs. destruct (dget key (ss_snapshots s)) as [sn|]; [|done]. simpl.
  unfold snapshot_alive. case_decide as Ha.
  - done.
  - apply not_true_is_false, Z.ltb_ge in Ha. by rewrite (proj2 (Z.leb_le _ _) Ha).
Qed.


(** The one way to a store that cannot be restored: [set_file_snapshot] does not ask
    whether the lifetime is retired, and a snapshot set on the tombstone makes
    [prepare_restore_state] refuse the whole store that [snapshot_state] writes. *)
Theorem late_snapshot_blocks_restore d id key digest total complete source :
  store_ok d -> normal_id id -> key <> "" -> 0 < total ->
  let d1 := (retire_session id d).1 in
  let d2 := (set_file_snapshot id key digest total complete source d1).1 in
  exists raw,
    snapshot_state d2 = [("sessions", JObj raw)] /\
    exists v, dget id raw = Some (JObj v) /\
      restore_session v = Raise (BadSnapshot "retired lifetime retained owned state").
Proof.
  intros Hok Hid Hk Ht d1 d2. eexists. split; [reflexivity|].
  set (sn := Snapshot key digest total complete 0 5 (normal_source source)).
  assert (Hd2 : dget id d2 = Some (set_snapshots [(key, sn)] tombstone)).
  { unfold d2, d1, set_file_snapshot, retire_session, put_session, sbind, setdefault_session, smodify; simpl.
    unfold session_of. rewrite !dget_dset_eq. simpl. by rewrite Z.max_r by lia. }
  exists (session_to_dict (set_snapshots [(key, sn)] tombstone)). split.
  - clear -Hd2. clearbody d2. clear d1. induction d2 as [|[k s] d2 IH]; [done|]. rewrite fmap_cons. cbn [dget fst snd] in *.
    case_decide; [by injection Hd2 as ->|by apply IH].
  - unfold restore_session. set (v := session_to_dict _).
    change (forallb _ (dkeys v)) with true. cbn [negb rguard rbind].
    rewrite (get_int_of 0 "current_user_turn" 0) by done. cbn [payload rbind].
    rewrite (get_dict_of "input_ids" v [] eq_refl). cbn [payload rbind comprehend rfold existsb rguard].
    rewrite (get_dict_of "snapshots" v [(key, JObj (snapshot_to_dict sn))] eq_refl). cbn [payload rbind].
    unfold comprehend at 1. cbn [rfold snd object_item]. rewrite snapshot_roundtrip.
    2:{ split_and!; simpl; try lia. unfold normal_source. by destruct (decide (source = "mutation")). }
    cbn [rmap rbind payload dset fst length existsb]. unfold bad_snapshot_id; cbn [fst snd].
    rewrite (proj2 (str_truthy_spec key) Hk), bool_decide_eq_false_2 by (by intros ?). done.
Qed.

(** ** Witnesses *)

Definition demo_delivery : obj := manifest_to_dict two_line_manifest.
Definition demo_world : world :=
  World (log_entry "s" demo_delivery) (record_delivery "s" demo_delivery []).1.
Definition demo_digest : string := "d".

Lemma demo_reachable : rtc store_step start demo_world.
Proof.
  apply rtc_once. change demo_world with
    (World (log_entry "s" demo_delivery ++ []) (record_delivery "s" demo_delivery []).1).
  eapply step_delivery. vm_compute. reflexivity.
Qed.

Definition demo_grant : option FileGrant := file_grant (w_sessions demo_world) "s" "/f" "d" None.

(** The lifetime is retired while a write is under way, which then records its snapshot. *)
Definition late_world : world :=
  World (w_history demo_world)
    (set_file_snapshot "s" "/f" "d" 1 true "mutation" (retire_session "s" (w_sessions demo_world)).1).1.

Lemma late_reachable : rtc store_step start late_world.
Proof.
  etransitivity; [exact demo_reachable|]. eapply rtc_l; [apply (step_retire_session _ _ "s"); by vm_compute|].
  apply rtc_once, step_snapshot; by vm_compute.
Qed.


Lemma granted_lines_were_delivered_witness :
  exists g, demo_grant = Some g /\ covers 1 2 (gr_covered_ranges g) /\
    (line_shown (basis (w_history demo_world) "s" g) 2 \/
     exists s, dget "s" (w_sessions demo_world) = Some s /\ carried_over (w_history demo_world) "s" s None g 2).
Proof.
  assert (Hc : covers 1 2 [(1, 2)]) by (apply Exists_cons_hd; unfold cov; simpl; lia).
  eexists. split; [vm_compute; reflexivity|]. split; [exact Hc|].
  eapply (granted_lines_were_delivered demo_world "s" "/f" "d" None);
    [apply demo_reachable|vm_compute; reflexivity|exact Hc].
Defined.

Lemma file_grant_exact_witness :
  grants_line demo_grant 2 <->
  exists s, dget "s" (w_sessions demo_world) = Some s /\ ss_retired s = false /\ line_granted s None "/f" "d" 2.
Proof. apply (file_grant_exact (w_sessions demo_world) "s" "/f" "d" None); [apply reachable_ok, demo_reachable|done]. Defined.

Lemma retire_results_revokes_witness :
  let r := match dget "s" (w_sessions demo_world) with Some s => dkeys (ss_file_results s) | None => [] end in
  file_grant (retire_results "s" r (w_sessions demo_world)).1 "s" "/f" "d" (Some r) = None.
Proof.
  intros r. etransitivity; [|vm_compute; reflexivity].
  apply (retire_results_revokes (w_sessions demo_world) "s" r "/f" "d" r), reachable_ok, demo_reachable.
Defined.

Lemma invalidate_file_exact_witness :
  file_grant (invalidate_file "s" "/f" (w_sessions demo_world)).1 "s" "/f" "d" None = None /\ demo_grant <> None.
Proof.
  split; [|vm_compute; discriminate].
  apply (invalidate_file_exact (w_sessions demo_world) "s" "/f" "/f" "d" None
    (proj1 (reachable_ok _ demo_reachable))).
Defined.

Lemma demo_retired_ok : store_ok (retire_session "s" (w_sessions demo_world)).1.
Proof. by apply store_ok_dset, reachable_ok, demo_reachable; [|apply tombstone_ok]. Qed.

Lemma retired_lifetime_stays_dead_witness :
  let d := (retire_session "s" (w_sessions demo_world)).1 in
  begin_input "s" "i" 5 d = (d, Raise SessionIsRetired).
Proof.
  intros d. apply (retired_lifetime_stays_dead (World [] d) (World [] d) "s" tombstone "i" 5 [] "" "" None);
    [apply demo_retired_ok|apply dget_dset_eq|done..].
Defined.


Lemma late_snapshot_blocks_restore_witness :
  exists raw v, snapshot_state (set_file_snapshot "s" "/f" "d" 1 true "mutation" (retire_session "s" []).1).1 =
      [("sessions", JObj raw)] /\ dget "s" raw = Some (JObj v) /\
    restore_session v = Raise (BadSnapshot "retired lifetime retained owned state").
Proof.
  destruct (late_snapshot_blocks_restore [] "s" "/f" "d" 1 true "mutation") as (raw & H1 & v & H2 & H3);
    [apply start_ok|done|done|lia|]. eauto.
Defined.
