(* ===== verification/Contracts.v ===== *)
(** * Results of the file tools

    [RuntimeStatus], [EffectOutcome], [EffectReceipt] and [CapabilityResult] of
    [_file_core/contracts.py].  Displayed text is a list of code points; the strings of
    structured values are their UTF-8 bytes. *)

From S2P Require Import Prelude Dict Utf8 PyValue.
Open Scope Z_scope.

Inductive RuntimeStatus := OK | ERROR | INVALID | FORBIDDEN | NOT_FOUND.

Definition status_name (s : RuntimeStatus) : string :=
  match s with
  | OK => "ok" | ERROR => "error" | INVALID => "invalid" | FORBIDDEN => "forbidden" | NOT_FOUND => "not_found"
  end.

Inductive EffectOutcome := NONE | NOT_STARTED | NOT_APPLIED | APPLIED | UNKNOWN.

Definition outcome_name (o : EffectOutcome) : string :=
  match o with
  | NONE => "none" | NOT_STARTED => "not_started" | NOT_APPLIED => "not_applied" | APPLIED => "applied"
  | UNKNOWN => "unknown"
  end.

Record EffectReceipt := Receipt { er_outcome : EffectOutcome; er_receipt : list (string * json) }.

Record CapabilityResult := Result {
  cr_status : RuntimeStatus;
  cr_llm_text : text;
  cr_structured : list (string * json);
  cr_effect_receipt : option EffectReceipt;
  cr_recovery_hint : text;
  cr_context_delivery : option (list (string * json))
}.

(** The UTF-8 bytes of a text, as a string of bytes. *)
Definition byte_string (b : bytes) : string :=
  of_chars ((fun x => Ascii.ascii_of_nat (Z.to_nat x)) <$> b).
Definition text_string (t : text) : string := byte_string (default [] (utf8_encode t)).
Definition string_text (s : string) : text := default (string_bytes s) (utf8_decode (string_bytes s)).
Definition jtext (t : text) : json := JStr (text_string t).

(** Decimal digits of an integer in a message. *)
Definition zshow (z : Z) : text := lit (pretty z).
