(* ===== verification/FileCache.v ===== *)
(** * Read-before-mutate caches

    [FileState], [FileStateCache], [SessionFileStateCache] and [FileStateTool] of
    [_file_core/file_state.py].  The tools see either cache through one interface; the
    session cache in turn sees the session store through the interface the code calls
    [LogicalExecutionStateBackend]. *)

From S2P Require Import Prelude Dict Utf8 Sha256 PyValue Ranges TextLines FileSystem Contracts SessionData.
From S2P Require Import SessionState.
Open Scope Z_scope.

Record FileState := FState {
  fs_content : text;
  fs_mtime_ns : Z;
  fs_full_view : bool;
  fs_covered_ranges : list range;
  fs_authority_result_ids : list string
}.

Definition covers_lines (st : FileState) (start_line end_line : Z) : bool :=
  if fs_full_view st then true else any_contains start_line end_line (fs_covered_ranges st).

(** ** The interface the file tools use *)

Class ReadCache (C : Type) := {
  rc_contains : platform -> string -> C -> bool;
  rc_get_valid_state : platform -> bool -> string -> fs -> C -> C * res io_error (option FileState);
  rc_mark_read : platform -> string -> text -> bool -> list range -> fs -> C -> C * res io_error unit;
  rc_invalidate : platform -> string -> C -> C;
  rc_retire_if_changed : platform -> string -> string -> C -> C * bool;
  rc_len : C -> Z
}.

(** ** [FileStateCache] *)

Record FileStateCache := LruCache { ca_max : Z; ca_entries : dict string FileState }.

Definition MAX_ENTRIES : Z := 1000.
Definition new_cache (max_entries : Z) : FileStateCache := LruCache (Z.max max_entries 1) [].

(** [while len(self._cache) > self._max: self._cache.popitem(last=False)] *)
Fixpoint evict (max : Z) (c : dict string FileState) : dict string FileState :=
  match c with
  | [] => []
  | _ :: rest => if max <? zlen c then evict max rest else c
  end.

Definition whole_lines (total_lines : Z) : list range := [(1, total_lines)].

Definition merged_entry (previous : option FileState) (content : text) (mtime_ns : Z) (full_view : bool)
    (covered_ranges : list range) : FileState :=
  let total_lines := count_text_lines content in
  let visible := if full_view && (0 <? total_lines) then whole_lines total_lines
                 else _merge_ranges covered_ranges in
  let '(full, visible) :=
    match previous with
    | Some p =>
        if (fs_mtime_ns p =? mtime_ns) && bool_decide (fs_content p = content)
        then (full_view || fs_full_view p, _merge_ranges (fs_covered_ranges p ++ visible))
        else (full_view, visible)
    | None => (full_view, visible)
    end in
  FState content mtime_ns full (if full && (0 <? total_lines) then whole_lines total_lines else visible) [].

Definition cache_mark_read (pf : platform) (file_path : string) (content : text) (full_view : bool)
    (covered_ranges : list range) (s : fs) (c : FileStateCache) : FileStateCache :=
  let key := file_cache_key pf file_path in
  let entry := merged_entry (dget key (ca_entries c)) content (st_mtime_ns key s) full_view covered_ranges in
  LruCache (ca_max c) (evict (ca_max c) (dmove_to_end key (dset key entry (ca_entries c)))).

Definition cache_get_valid_state (pf : platform) (file_path : string) (s : fs) (c : FileStateCache)
    : FileStateCache * option FileState :=
  let key := file_cache_key pf file_path in
  match dget key (ca_entries c) with
  | None => (c, None)
  | Some entry =>
      if st_mtime_ns key s =? fs_mtime_ns entry
      then (LruCache (ca_max c) (dmove_to_end key (ca_entries c)), Some entry)
      else (LruCache (ca_max c) (ddel key (ca_entries c)), None)
  end.

Definition cache_get_valid (pf : platform) (file_path : string) (s : fs) (c : FileStateCache)
    : FileStateCache * option text :=
  let '(c', st) := cache_get_valid_state pf file_path s c in (c', fs_content <$> st).

Definition cache_get_valid_full (pf : platform) (file_path : string) (s : fs) (c : FileStateCache)
    : FileStateCache * option text :=
  let '(c', st) := cache_get_valid_state pf file_path s c in
  (c', match st with Some st => if fs_full_view st then Some (fs_content st) else None | None => None end).

Definition cache_invalidate (pf : platform) (file_path : string) (c : FileStateCache) : FileStateCache :=
  LruCache (ca_max c) (ddel (file_cache_key pf file_path) (ca_entries c)).
Definition cache_clear (c : FileStateCache) : FileStateCache := LruCache (ca_max c) [].
Definition cache_len (c : FileStateCache) : Z := zlen (ca_entries c).
Definition cache_contains (pf : platform) (file_path : string) (c : FileStateCache) : bool :=
  dmem (file_cache_key pf file_path) (ca_entries c).

#[export] Instance lru_read_cache : ReadCache FileStateCache := {|
  rc_contains := cache_contains;
  rc_get_valid_state := fun pf _ p s c => let '(c', st) := cache_get_valid_state pf p s c in (c', Ok st);
  rc_mark_read := fun pf p t full cov s c => (cache_mark_read pf p t full cov s c, Ok tt);
  rc_invalidate := cache_invalidate;
  rc_retire_if_changed := fun _ _ _ c => (c, false);
  rc_len := cache_len
|}.

(** ** The session store as the caches see it *)

Class LogicalExecutionStateBackend (B : Type) := {
  be_begin_input : string -> string -> Z -> M B state_error LogicalExecutionContext;
  be_context : string -> M B state_error LogicalExecutionContext;
  be_record_delivery : string -> obj -> M B state_error LogicalExecutionContext;
  be_file_grant : B -> string -> string -> string -> option (list string) -> option FileGrant;
  be_file_snapshot : B -> string -> string -> string -> option FileSnapshot;
  be_set_file_snapshot : string -> string -> string -> Z -> bool -> string -> M B state_error unit;
  be_invalidate_file : string -> string -> M B state_error unit;
  be_retire_session : string -> M B state_error unit;
  be_retire_results : string -> list string -> M B state_error (list string)
}.

#[export] Instance in_memory_backend : LogicalExecutionStateBackend sessions := {|
  be_begin_input := begin_input;
  be_context := context;
  be_record_delivery := record_delivery;
  be_file_grant := file_grant;
  be_file_snapshot := file_snapshot;
  be_set_file_snapshot := set_file_snapshot;
  be_invalidate_file := invalidate_file;
  be_retire_session := retire_session;
  be_retire_results := retire_results
|}.

(** ** [SessionFileStateCache] *)

Section session_cache.
Context {B : Type} `{LogicalExecutionStateBackend B}.

Record SessionFileStateCache := SessionCache {
  sc_backend : B;
  sc_context : LogicalExecutionContext;
  sc_visible_result_ids : option (list string)
}.

Definition sc_lifetime (c : SessionFileStateCache) : string := cx_execution_lifetime_id (sc_context c).
Definition sc_with (b : B) (c : SessionFileStateCache) : SessionFileStateCache :=
  SessionCache b (sc_context c) (sc_visible_result_ids c).

Definition session_mark_read (pf : platform) (file_path : string) (content : text) (full_view : bool)
    (c : SessionFileStateCache) : SessionFileStateCache * res io_error unit :=
  if full_view then
    match content_digest content with
    | None => (c, Raise UnicodeError)
    | Some digest =>
        (sc_with (be_set_file_snapshot (sc_lifetime c) (file_cache_key pf file_path) digest
                    (count_text_lines content) full_view "mutation" (sc_backend c)).1 c, Ok tt)
    end
  else (c, Ok tt).

Definition session_get_valid_state (pf : platform) (unreadable : bool) (file_path : string) (s : fs)
    (c : SessionFileStateCache) : res io_error (option FileState) :=
  let! resolved := resolve_file_path pf file_path in
  match read_utf8_text_exact unreadable resolved s with
  | Raise (OSError what) =>
      if decide (what = "FileNotFoundError") then Ok None else Raise FileSnapshotReadError
  | Raise _ => Raise FileSnapshotReadError
  | Ok content =>
      let digest := default "" (content_digest content) in
      match be_file_grant (sc_backend c) (sc_lifetime c) (file_cache_key pf resolved) digest
              (sc_visible_result_ids c) with
      | None => Ok None
      | Some g => Ok (Some (FState content (st_mtime_ns resolved s) (grant_complete g) (gr_covered_ranges g)
                              (gr_result_ids g)))
      end
  end.

Definition session_invalidate (pf : platform) (file_path : string) (c : SessionFileStateCache)
    : SessionFileStateCache :=
  sc_with (be_invalidate_file (sc_lifetime c) (file_cache_key pf file_path) (sc_backend c)).1 c.

Definition retire_if_observed_digest_changed (pf : platform) (file_path observed_digest : string)
    (c : SessionFileStateCache) : SessionFileStateCache * bool :=
  let file_key := file_cache_key pf file_path in
  let snapshot := be_file_snapshot (sc_backend c) (sc_lifetime c) file_key "" in
  let grant := be_file_grant (sc_backend c) (sc_lifetime c) file_key "" None in
  let known := filter (fun d => d <> "")
    (option_list (sn_digest <$> snapshot) ++ option_list (gr_digest <$> grant)) in
  if forallb (fun d => bool_decide (d = observed_digest)) known then (c, false)
  else (session_invalidate pf file_path c, true).

Definition session_contains (pf : platform) (file_path : string) (c : SessionFileStateCache) : bool :=
  match be_file_grant (sc_backend c) (sc_lifetime c) (file_cache_key pf file_path) "" None with
  | Some _ => true
  | None => false
  end.

#[export] Instance session_read_cache : ReadCache SessionFileStateCache := {|
  rc_contains := session_contains;
  rc_get_valid_state := fun pf u p s c => (c, session_get_valid_state pf u p s c);
  rc_mark_read := fun pf p t full _ _ c => session_mark_read pf p t full c;
  rc_invalidate := session_invalidate;
  rc_retire_if_changed := retire_if_observed_digest_changed;
  rc_len := fun _ => 0
|}.

End session_cache.
Arguments SessionFileStateCache B : clear implicits.

(** ** [FileStateTool] *)

Definition file_state_text (valid : option FileState) (was_cached : bool) (resolved : string) : text :=
  match valid with
  | Some st =>
      lit "file state cache has a current " ++ lit (if fs_full_view st then "complete" else "partial") ++
      lit " read snapshot for " ++ string_text resolved
  | None =>
      if was_cached
      then lit "file state cache had a stale snapshot for " ++ string_text resolved ++
           lit "; read the file again before editing"
      else lit "file state cache has no read snapshot for " ++ string_text resolved ++
           lit "; read the file before editing"
  end.

Definition FileStateTool_invoke {C} `{ReadCache C} (pf : platform) (unreadable : bool) (args : obj) (s : fs)
    (c : C) : C * res io_error CapabilityResult :=
  let file_path := strip (get_str "file_path" args) in
  let count := ("cached_file_count", JInt (rc_len c)) in
  if negb (str_truthy file_path) then
    let t := lit "file state cache contains " ++ zshow (rc_len c) ++ lit " cached file(s)" in
    (c, Ok (Result OK t [count] None [] None))
  else
    let resolved := file_cache_key pf file_path in
    let was_cached := rc_contains pf file_path c in
    match rc_get_valid_state pf unreadable file_path s c with
    | (c', Raise e) => (c', Raise e)
    | (c', Ok st) =>
        let payload :=
          [count; ("file_path", JStr resolved); ("cached", JBool was_cached);
           ("valid", JBool (match st with Some _ => true | None => false end));
           ("full_view", JBool (match st with Some st => fs_full_view st | None => false end));
           ("content_length", JInt (match st with Some st => zlen (fs_content st) | None => 0 end))] in
        (c', Ok (Result OK (file_state_text st was_cached resolved) payload None [] None))
    end.

(** ** The least-recently-used cache *)

Record cache_ok (c : FileStateCache) : Prop := {
  co_max : 1 <= ca_max c;
  co_wf : dwf (ca_entries c);
  co_bound : cache_len c <= ca_max c
}.

Lemma evict_drop max c : evict max c = drop (Z.to_nat (zlen c - max)) c.
Proof.
  induction c as [|p c IH]; [by rewrite drop_nil|]. cbn [evict]. rewrite zlen_cons.
  destruct (max <? zlen c + 1) eqn:E; bool_to_prop.
  - replace (Z.to_nat (zlen c + 1 - max)) with (S (Z.to_nat (zlen c - max))) by lia. exact IH.
  - by replace (Z.to_nat (zlen c + 1 - max)) with 0%nat by lia.
Qed.

Lemma ddel_dset k (v : FileState) (d : dict string FileState) : ddel k (dset k v d) = ddel k d.
Proof.
  unfold ddel. induction d as [|[k0 v0] d IH]; simpl.
  - rewrite filter_cons_False; [done|]. simpl. naive_solver.
  - destruct (decide (k0 = k)) as [->|Hne].
    + rewrite !filter_cons_False by (simpl; naive_solver). done.
    + rewrite !filter_cons_True by (simpl; done). by rewrite IH.
Qed.

Lemma touch_dset k (v : FileState) (d : dict string FileState) :
  dmove_to_end k (dset k v d) = ddel k d ++ [(k, v)].
Proof. unfold dmove_to_end. by rewrite dget_dset_eq, ddel_dset. Qed.

Lemma dwf_snoc_del k (v : FileState) (d : dict string FileState) : dwf d -> dwf (ddel k d ++ [(k, v)]).
Proof. intros Hd. rewrite <- touch_dset. by apply dwf_move_to_end, dwf_dset. Qed.

Lemma dwf_drop n (d : dict string FileState) : dwf d -> dwf (drop n d).
Proof.
  unfold dwf, dkeys. intros H. rewrite fmap_drop. rewrite <- (take_drop n (fst <$> d)) in H.
  by apply NoDup_app in H as (_ & _ & ?).
Qed.

Lemma length_del (k : string) (v : FileState) d : dwf d -> dget k d = Some v -> S (length (ddel k d)) = length d.
Proof.
  unfold dwf, ddel. induction d as [|[k0 v0] d IH]; intros Hwf Hg; [done|]. rewrite dkeys_cons, NoDup_cons in Hwf.
  destruct Hwf as [Hn Hwf]. simpl in Hg. destruct (decide (k0 = k)) as [->|Hne].
  - rewrite filter_cons_False by (simpl; naive_solver). simpl. f_equal. f_equal.
    clear -Hn. induction d as [|[k' v'] d IHd]; [done|]. rewrite dkeys_cons, elem_of_cons in Hn.
    rewrite filter_cons_True by (simpl; naive_solver). rewrite IHd; naive_solver.
  - rewrite filter_cons_True by done. simpl. by rewrite IH.
Qed.

Lemma length_touch (k : string) (v : FileState) d : dwf d -> dget k d = Some v -> length (dmove_to_end k d) = length d.
Proof.
  intros Hwf Hg. unfold dmove_to_end. rewrite Hg, length_app. simpl. rewrite <- (length_del k v d) by done. lia.
Qed.

(** The newest entry survives the eviction, which drops the oldest ones. *)
Lemma evict_touched max k (v : FileState) d :
  1 <= max -> exists n, evict max (d ++ [(k, v)]) = drop n d ++ [(k, v)] /\ zlen (drop n d ++ [(k, v)]) <= max.
Proof.
  intros Hm. rewrite evict_drop. exists (Z.to_nat (zlen (d ++ [(k, v)]) - max)).
  rewrite zlen_app. assert (H1 : zlen [(k, v)] = 1) by done. rewrite H1.
  rewrite drop_app_le by (unfold zlen; lia). split; [done|].
  rewrite zlen_app, H1. unfold zlen. rewrite length_drop. lia.
Qed.

(** The read cache is a bounded LRU cache of current snapshots.  After a file is marked
    as read the cache still holds at most its limit, the entries that were dropped are
    the least recently used ones, and the file is found with that content as long as
    its modification time stands; once the time differs the lookup answers nothing and
    forgets the entry. *)
Theorem lru_cache_contract pf path content full cov s s2 c :
  cache_ok c ->
  let key := file_cache_key pf path in
  let c' := cache_mark_read pf path content full cov s c in
  cache_ok c' /\
  (exists n entry, ca_entries c' = drop n (ddel key (ca_entries c)) ++ [(key, entry)] /\
     fs_content entry = content /\ (full = true -> fs_full_view entry = true)) /\
  (st_mtime_ns key s2 = st_mtime_ns key s ->
   (cache_get_valid pf path s2 c').2 = Some content /\ cache_ok (cache_get_valid pf path s2 c').1) /\
  (st_mtime_ns key s2 <> st_mtime_ns key s ->
   (cache_get_valid pf path s2 c').2 = None /\ cache_contains pf path (cache_get_valid pf path s2 c').1 = false).
Proof.
  intros [Hm Hwf Hb] key c'. unfold c', cache_mark_read. fold key.
  set (entry := merged_entry (dget key (ca_entries c)) content (st_mtime_ns key s) full cov).
  assert (He : fs_content entry = content /\ fs_mtime_ns entry = st_mtime_ns key s /\
               (full = true -> fs_full_view entry = true)).
  { unfold entry, merged_entry. destruct (dget key (ca_entries c)) as [p|]; [|done].
    destruct ((fs_mtime_ns p =? st_mtime_ns key s) && _); [|done]. simpl. split_and!; [done..|]. by intros ->. }
  destruct He as (He1 & He2 & He3). rewrite touch_dset.
  destruct (evict_touched (ca_max c) key entry (ddel key (ca_entries c)) Hm) as (n & -> & Hlen).
  assert (Hwf' : dwf (drop n (ddel key (ca_entries c)) ++ [(key, entry)])).
  { destruct (decide (n <= length (ddel key (ca_entries c)))%nat).
    - rewrite <- drop_app_le by done. by apply dwf_drop, dwf_snoc_del.
    - rewrite drop_ge by lia. unfold dwf, dkeys. simpl. apply NoDup_singleton. }
  set (d' := drop n (ddel key (ca_entries c)) ++ [(key, entry)]) in *.
  assert (Hget : dget key d' = Some entry).
  { apply elem_dget; [done|]. apply elem_of_app. right. apply list_elem_of_singleton. done. }
  split_and!; [by split|by exists n, entry|..].
  - intros Ht. unfold cache_get_valid, cache_get_valid_state. fold key. cbn [ca_entries ca_max]. rewrite Hget.
    rewrite Ht, He2, Z.eqb_refl. simpl. split; [by rewrite He1|]. split; simpl; [done|by apply dwf_move_to_end|].
    unfold cache_len, zlen in *; simpl in *. by rewrite (length_touch key entry).
  - intros Ht. unfold cache_get_valid, cache_get_valid_state. fold key. cbn [ca_entries ca_max]. rewrite Hget.
    rewrite (proj2 (Z.eqb_neq _ _)) by congruence. simpl. split; [done|].
    unfold cache_contains. fold key. simpl. apply dmem_false, dget_ddel_eq.
Qed.

Lemma lru_cache_contract_witness :
  cache_ok (new_cache 1) /\
  (cache_get_valid demo_platform "/d/f" demo_fs
     (cache_mark_read demo_platform "/d/f" (lit "old") true [] demo_fs (new_cache 1))).2 = Some (lit "old").
Proof.
  assert (Hok : cache_ok (new_cache 1)) by (split; [vm_compute; discriminate|apply dwf_nil|vm_compute; discriminate]).
  split; [exact Hok|].
  apply (lru_cache_contract demo_platform "/d/f" (lit "old") true [] demo_fs demo_fs (new_cache 1) Hok).
  reflexivity.
Defined.
