(* ===== verification/FileEdit.v ===== *)
(** * Exact replacements

    [_file_core/file_edit.py]: every edit is matched against one pre-image, the matches
    must lie in lines the caller has read, overlapping edits are refused, and the result
    is committed only if the pre-image is still on disk.  The rendering of a diff and of
    an exception are arguments: the code uses the former's length only. *)

From S2P Require Import Prelude Dict Utf8 Sha256 PyValue JsonText Ranges TextLines FileSystem Contracts.
From S2P Require Import SessionData SessionState FileCache.
Open Scope Z_scope.

(** ** Messages *)

Definition ERR_NOT_READ : string := "NOT_READ".
Definition ERR_PARTIAL_READ : string := "PARTIAL_READ".
Definition ERR_STALE_FILE : string := "STALE_FILE".
Definition ERR_MULTIPLE_MATCHES : string := "MULTIPLE_MATCHES".
Definition ERR_NOT_FOUND_MATCH : string := "NOT_FOUND_MATCH".
Definition ERR_EMPTY_OLD_STRING : string := "EMPTY_OLD_STRING".
Definition ERR_NO_CHANGE : string := "NO_CHANGE".

Definition edit_message (code : string) : text :=
  lit (default "" (dget code
    [(ERR_NOT_READ, "File has not been read yet. Read it first before editing.");
     (ERR_PARTIAL_READ, "The requested edit is outside the line ranges already read. Read the exact affected range before editing.");
     (ERR_STALE_FILE, "The current file version could not be confirmed against the read snapshot. Read it again before editing.");
     (ERR_MULTIPLE_MATCHES, "old_string appears multiple times in the file. Provide more context to uniquely identify the match.");
     (ERR_NOT_FOUND_MATCH, "old_string was not found in the file.");
     (ERR_EMPTY_OLD_STRING, "old_string must not be empty.");
     (ERR_NO_CHANGE, "new_string must be different from old_string.")])).

(** [d.update(u)] *)
Definition dupdate (d u : obj) : obj := foldl (fun d p => dset p.1 p.2 d) d u.

Definition edit_err (status : RuntimeStatus) (t : text) (reason : string) (structured : obj) : CapabilityResult :=
  let payload := dupdate (if str_truthy reason then [("reason", JStr reason)] else []) structured in
  let is_write_failed :=
    match jget "error_code" payload with JStr c => bool_decide (c = "WRITE_FAILED") | _ => false end in
  let payload := if is_write_failed then payload
                 else dsetdefault "applied_edit_indices" (JList []) payload in
  Result status t payload None [] None.

Definition code_err (status : RuntimeStatus) (code : string) (structured : obj) : CapabilityResult :=
  edit_err status (edit_message code) "" (("error_code", JStr code) :: structured).

Definition newline : text := [10].

(** ** Edits *)

Record edit := Edit { ed_old : text; ed_new : text; ed_replace_all : bool }.

Definition allowed_edit_fields : list string := ["old_string"; "new_string"; "replace_all"].

(** [_validate_edit]: the edit, or an error code and its message. *)
Definition _validate_edit (v : json) : (string * text) + edit :=
  match v with
  | JObj d =>
      if negb (forallb (fun k => bool_decide (k ∈ allowed_edit_fields)) (dkeys d))
      then inl ("INVALID_EDIT", lit "Expected old_string, new_string and optional replace_all.")
      else
        match jget "old_string" d with
        | JStr old =>
            match jget "new_string" d with
            | JStr new =>
                match default (JBool false) (dget "replace_all" d) with
                | JBool all =>
                    if negb (str_truthy old) then inl (ERR_EMPTY_OLD_STRING, edit_message ERR_EMPTY_OLD_STRING)
                    else if decide (old = new) then inl (ERR_NO_CHANGE, edit_message ERR_NO_CHANGE)
                    else inr (Edit (string_text old) (string_text new) all)
                | _ => inl ("INVALID_EDIT", lit "replace_all must be a boolean")
                end
            | _ => inl ("INVALID_EDIT", lit "new_string must be a string")
            end
        | _ => inl ("INVALID_EDIT", lit "old_string must be a string")
        end
  | _ => inl ("INVALID_EDIT", lit "Expected old_string, new_string and optional replace_all.")
  end.

(** ** Matches *)

Fixpoint is_prefix (p t : text) : bool :=
  match p, t with
  | [], _ => true
  | x :: p, y :: t => (x =? y) && is_prefix p t
  | _, _ => false
  end.

(** [content.find(search, cursor)], on the rest of the content at [i]. *)
Fixpoint find_in (search t : text) (i : Z) : option Z :=
  if is_prefix search t then Some i
  else match t with
       | [] => None
       | _ :: t' => find_in search t' (i + 1)
       end.
Definition find (content search : text) (cursor : Z) : option Z :=
  find_in search (drop (Z.to_nat cursor) content) cursor.

(** The loop of [_match_offsets]; every round moves the cursor past a match, so the
    length of the content bounds the rounds. *)
Fixpoint match_loop (fuel : nat) (content search : text) (cursor : Z) : list range :=
  match fuel with
  | O => []
  | S fuel =>
      match find content search cursor with
      | None => []
      | Some start => (start, start + zlen search) :: match_loop fuel content search (start + 1)
      end
  end.
Definition _match_offsets (content search : text) : list range :=
  match_loop (S (length content)) content search 0.

Definition _line_range_for_match (content : text) (r : range) : range :=
  line_range_for_offsets content r.1 r.2.

Definition range_json (r : range) : json := JList [JInt r.1; JInt r.2].

Definition _plan_exact_edit (content : text) (state : FileState) (e : edit) : CapabilityResult + list range :=
  match _match_offsets content (ed_old e) with
  | [] => inl (code_err ERROR ERR_NOT_FOUND_MATCH [])
  | matches =>
      if (1 <? zlen matches) && negb (ed_replace_all e)
      then inl (code_err ERROR ERR_MULTIPLE_MATCHES [("match_count", JInt (zlen matches))])
      else
        let ranges := _line_range_for_match content <$> matches in
        if negb (forallb (fun r => covers_lines state r.1 r.2) ranges)
        then inl (code_err FORBIDDEN ERR_PARTIAL_READ
               [("required_line_ranges", JList (range_json <$> ranges));
                ("covered_line_ranges", JList (range_json <$> fs_covered_ranges state))])
        else inr matches
  end.

(** ** Overlaps *)

Record replacement := Replacement { rp_start : Z; rp_end : Z; rp_text : text; rp_index : Z }.

Definition rp_le (a b : replacement) : Prop := range_le (rp_start a, rp_end a) (rp_start b, rp_end b).

#[export] Instance rp_le_dec : RelDecision rp_le.
Proof. intros a b. unfold rp_le. apply _. Defined.

(** The heap [active] of pairs (end, index), kept in order: its head is [active[0]]. *)
Fixpoint heappush (x : range) (h : list range) : list range :=
  match h with
  | [] => [x]
  | y :: h' => if decide (range_le x y) then x :: h else y :: heappush x h'
  end.

Definition owner_dec (owner : Z) (owners : dict Z Z) : dict Z Z :=
  let n := default 0 (dget owner owners) - 1 in
  if n =? 0 then ddel owner owners else dset owner n owners.
Definition owner_inc (owner : Z) (owners : dict Z Z) : dict Z Z :=
  dset owner (default 0 (dget owner owners) + 1) owners.

(** [while active and active[0][0] <= start: ...] *)
Fixpoint pop_ended (start : Z) (active : list range) (owners : dict Z Z) : list range * dict Z Z :=
  match active with
  | (fin, owner) :: rest =>
      if fin <=? start then pop_ended start rest (owner_dec owner owners) else (active, owners)
  | [] => ([], owners)
  end.

Definition set_add (x : Z) (s : list Z) : list Z := if decide (x ∈ s) then s else s ++ [x].
Definition add_conflict (i j : Z) (conflicts : dict Z (list Z)) : dict Z (list Z) :=
  dset i (set_add j (default [] (dget i conflicts))) conflicts.
Definition add_conflicts (index : Z) (owners : list Z) (conflicts : dict Z (list Z)) : dict Z (list Z) :=
  foldl (fun c owner => add_conflict owner index (add_conflict index owner c)) conflicts owners.

Record sweep_state := Sweep { sw_active : list range; sw_owners : dict Z Z; sw_conflicts : dict Z (list Z) }.

Definition sweep_step (s : sweep_state) (r : replacement) : sweep_state :=
  let '(active, owners) := pop_ended (rp_start r) (sw_active s) (sw_owners s) in
  Sweep (heappush (rp_end r, rp_index r) active) (owner_inc (rp_index r) owners)
    (add_conflicts (rp_index r) (dkeys owners) (sw_conflicts s)).

Definition _overlapping_edits (replacements : list replacement) : dict Z (list Z) :=
  sw_conflicts (foldl sweep_step (Sweep [] [] []) replacements).

(** ** Failures *)

Abbreviation failures := (dict Z CapabilityResult).

Definition index_le (a b : Z * CapabilityResult) : Prop := a.1 <= b.1.

#[export] Instance index_le_dec : RelDecision index_le.
Proof. intros a b. unfold index_le. apply _. Defined.

Definition failure_detail (p : Z * CapabilityResult) : obj :=
  dset "message" (jtext (cr_llm_text p.2))
    (dset "edit_index" (JInt p.1) (ddel "applied_edit_indices" (cr_structured p.2))).
Definition _failure_details (f : failures) : list obj := failure_detail <$> merge_sort index_le f.

Definition zmin_list (l : list Z) : Z := match l with [] => 0 | x :: l => foldl Z.min x l end.

Definition empty_result : CapabilityResult := Result ERROR [] [] None [] None.

Definition _batch_error (file_path : string) (f : failures) : CapabilityResult :=
  let first_index := zmin_list (dkeys f) in
  let first := default empty_result (dget first_index f) in
  let details := JList (JObj <$> _failure_details f) in
  edit_err (cr_status first) (lit "No edits applied." ++ newline ++ json_text details) ""
    (dupdate (cr_structured first)
       [("file_path", JStr file_path); ("edit_index", JInt first_index);
        ("applied_edit_indices", JList []); ("failed_edits", details)]).

(** ** Authority after an edit *)

Fixpoint new_affected_from (new_content : text) (delta : Z) (rs : list replacement) : list range * list range :=
  match rs with
  | [] => ([], [])
  | r :: rs =>
      let new_start := rp_start r + delta in
      let new_end := new_start + zlen (rp_text r) in
      let change := zlen (rp_text r) - (rp_end r - rp_start r) in
      let '(affected, deltas) := new_affected_from new_content (delta + change) rs in
      (line_range_for_offsets new_content new_start new_end :: affected, (rp_end r, change) :: deltas)
  end.

Definition shift (deltas : list range) (offset : Z) : Z :=
  foldl (fun acc d => if d.1 <=? offset then acc + d.2 else acc) offset deltas.

Definition inherit_fragment (old_starts : list Z) (new_content : text) (deltas : list range) (f : range) : list range :=
  if bool_decide (old_starts = []) || (zlen old_starts <? f.1) then []
  else
    let old_offset := default 0 (old_starts !! Z.to_nat (f.1 - 1)) in
    let new_start_line := line_number_at_offset new_content (shift deltas old_offset) in
    [(new_start_line, new_start_line + (f.2 - f.1))].

Definition _post_edit_authority (old_content new_content : text) (rs : list replacement)
    (covered_ranges : list range) : list range * list range :=
  let old_affected := (fun r => line_range_for_offsets old_content (rp_start r) (rp_end r)) <$> rs in
  let '(new_affected, deltas) := new_affected_from new_content 0 rs in
  let inherited := _subtract_line_ranges covered_ranges old_affected ≫=
    inherit_fragment (text_line_starts old_content) new_content deltas in
  (_merge_ranges new_affected, _merge_ranges inherited).

(** [cached_content[cursor:start]] and the replacement, then the rest. *)
Definition slice_text (t : text) (a b : Z) : text := take (Z.to_nat (b - a)) (drop (Z.to_nat a) t).
Fixpoint apply_replacements (content : text) (cursor : Z) (rs : list replacement) : text :=
  match rs with
  | [] => drop (Z.to_nat cursor) content
  | r :: rs => slice_text content cursor (rp_start r) ++ rp_text r ++ apply_replacements content (rp_end r) rs
  end.

(** ** [FileEditTool.invoke] *)

Definition indexed {A} (l : list A) : list (Z * A) := imap (fun i x => (Z.of_nat i, x)) l.

(** The first loop: edits that are malformed fail at once. *)
Definition validation_failures (edits : list json) : failures :=
  indexed edits ≫= (fun p =>
    match _validate_edit p.2 with
    | inl (code, message) => [(p.1, edit_err INVALID message "" [("error_code", JStr code)])]
    | inr _ => []
    end).

(** The second loop: replacements of the edits that match, failures of the others. *)
Definition plan_step (content : text) (state : FileState) (acc : list replacement * failures) (p : Z * json)
    : list replacement * failures :=
  let '(rs, f) := acc in
  match dget p.1 f, _validate_edit p.2 with
  | None, inr e =>
      match _plan_exact_edit content state e with
      | inl failure => (rs, dset p.1 failure f)
      | inr matches => (rs ++ ((fun m => Replacement m.1 m.2 (ed_new e) p.1) <$> matches), f)
      end
  | _, _ => (rs, f)
  end.
Definition plan_edits (content : text) (state : FileState) (edits : list json) (f : failures)
    : list replacement * failures :=
  foldl (plan_step content state) ([], f) (indexed edits).

Definition zsort (l : list Z) : list Z := merge_sort Z.le l.

Definition overlap_failure (conflicts : list Z) : CapabilityResult :=
  edit_err INVALID (lit "Overlapping edits were not applied.") ""
    [("error_code", JStr "OVERLAPPING_EDITS");
     ("conflicting_edit_indices", JList (JInt <$> zsort conflicts));
     ("conflicting_edit_index", JInt (zmin_list conflicts))].

Definition no_change_failure : CapabilityResult :=
  edit_err INVALID (lit "These edits together make no change.") "" [("error_code", JStr ERR_NO_CHANGE)].

(** [sorted({item[3] for item in replacements})] *)
Definition applied_indices (rs : list replacement) : list Z := zsort (remove_dups (rp_index <$> rs)).

(** The planned replacements of a batch: sorted, without the conflicting edits. *)
Definition plan_batch (content : text) (state : FileState) (edits : list json) (f0 : failures)
    : list replacement * failures :=
  let '(planned, f1) := plan_edits content state edits f0 in
  let sorted := merge_sort rp_le planned in
  let f2 := foldl (fun f p => dset p.1 (overlap_failure p.2) f) f1 (_overlapping_edits sorted) in
  (filter (fun r => dmem (rp_index r) f2 = false) sorted, f2).

(** Failed edits after a commit: their locations are re-computed in the new content. *)
Definition rename_key (key : string) (item : obj) : obj :=
  match dget key item with
  | Some v => dset ("original_" +:+ key)%stdpp v (ddel key item)
  | None => item
  end.
Definition current_matches (new_content old : text) : json :=
  JList ((fun m => range_json (_line_range_for_match new_content m)) <$> _match_offsets new_content old).
Definition relocate (new_content : text) (edits : list json) (item : obj) : obj :=
  let item := foldl (fun it k => rename_key k it) item
    ["required_line_ranges"; "covered_line_ranges"; "match_count"] in
  match jget "edit_index" item with
  | JInt i =>
      match edits !! Z.to_nat i with
      | Some (JObj e) =>
          match jget "old_string" e with
          | JStr old => if str_truthy old
                        then dset "current_match_line_ranges" (current_matches new_content (string_text old)) item
                        else item
          | _ => item
          end
      | _ => item
      end
  | _ => item
  end.

Definition join_text (sep : text) (l : list text) : text := join_bytes sep l.
Definition plural (l : list obj) (many one : string) : text := lit (if 1 <? zlen l then many else one).

(** The report above the patch, and the hint. *)
Definition edit_report (edits : list json) (applied : list Z) (failed : list obj) : text * text :=
  let body := json_text (JObj [("applied_edit_indices", JList (JInt <$> applied));
                               ("failed_edits", JList (JObj <$> failed))]) ++ newline in
  match failed with
  | [] => (body, [])
  | _ =>
      let indices := join_text (lit ", ") ((fun it => lit (py_str (jget "edit_index" it))) <$> failed) in
      let subject := plural failed "edits " "edit " ++ indices ++ plural failed " failed and were" " failed and was" in
      let codes := join_text (lit ", ")
        (lit <$> remove_dups_keep_first ((fun it => py_str (jor (jget "error_code" it) (JStr "unknown"))) <$> failed)) in
      (lit "Applied " ++ zshow (zlen applied) ++ lit " of " ++ zshow (zlen edits) ++ lit " edits; " ++ subject ++
         lit " not applied (" ++ codes ++ lit "; see failed_edits)." ++ newline ++ body,
       lit "Only the failed edits (" ++ indices ++
         lit ") need attention; do not resubmit applied edits. Use current_match_line_ranges and the patch below to re-plan them.")
  end.

Section invoke.
Context {C : Type} `{ReadCache C}.
Variable unified_diff : string -> text -> text -> text.
Variable exception_report : io_error -> text.

Definition sees_whole_file (state : FileState) (content : text) : list range :=
  if fs_full_view state && (0 <? count_text_lines content) then [(1, count_text_lines content)]
  else fs_covered_ranges state.

(** The proof of an applied edit: the patch shows the changed lines. *)
Definition edit_manifest (resolved : string) (state : FileState) (old new : text) (rs : list replacement)
    (report_length patch_length : Z) : FileDeliveryManifest :=
  let '(standalone, inherited) := _post_edit_authority old new rs (sees_whole_file state old) in
  let proof_length := Z.max 1 patch_length in
  Manifest resolved (default "" (content_digest new)) (count_text_lines new)
    ((fun r => Span report_length (report_length + proof_length) r.1 r.2 0 proof_length proof_length) <$> standalone)
    (bool_decide (new = [])) EMPTY_MARKER "" "edit" (default "" (content_digest old))
    inherited (fs_authority_result_ids state) false [].

(** Everything after the commit: record the content, report, prove. *)
Definition edit_success (pf : platform) (resolved : string) (state : FileState) (edits : list json)
    (old new : text) (rs : list replacement) (f : failures) : CapabilityResult :=
  let patch := unified_diff resolved old new in
  let applied := applied_indices rs in
  let failed := relocate new edits <$> _failure_details f in
  let '(report, hint) := edit_report edits applied failed in
  let manifest := edit_manifest resolved state old new rs (zlen report) (zlen patch) in
  Result OK (report ++ patch)
    [("file_path", JStr resolved); ("patch", jtext patch); ("match_count", JInt (zlen rs));
     ("edit_count", JInt (zlen applied)); ("applied_edit_indices", JList (JInt <$> applied));
     ("failed_edits", JList (JObj <$> failed))]
    None hint (Some (manifest_to_dict manifest)).

(** What the [except] clauses of the commit do. *)
Definition edit_commit_failed (pf : platform) (file_path : string) (rs : list replacement) (f : failures)
    (e : io_error) (c : C) : C * res io_error CapabilityResult :=
  match e with
  | ToolExecutionError code details =>
      (rc_invalidate pf file_path c,
       Raise (ToolExecutionError code
         (dupdate details [("applied_edit_indices", JList (JInt <$> applied_indices rs));
                           ("failed_edits", JList (JObj <$> _failure_details f))])))
  | FileContentChangedError _ =>
      (rc_invalidate pf file_path c,
       Ok (edit_err FORBIDDEN (edit_message ERR_STALE_FILE ++ newline ++ exception_report e) ""
             [("error_code", JStr ERR_STALE_FILE); ("file_path", JStr file_path)]))
  | OSError _ =>
      (rc_invalidate pf file_path c,
       Ok (edit_err ERROR (lit "File write reported an error. Commit outcome is uncertain; read the current file before retrying."
             ++ newline ++ exception_report e) ""
             [("error_code", JStr "WRITE_FAILED"); ("file_path", JStr file_path)]))
  | _ => (c, Raise e)
  end.

(** From a current read snapshot on: plan, assemble, commit. *)
Definition edit_authorized (pf : platform) (ev : swap_env) (file_path resolved : string) (edits : list json)
    (f0 : failures) (state : FileState) (s : fs) (c : C) : fs * (C * res io_error CapabilityResult) :=
  let old := fs_content state in
  let '(rs, f) := plan_batch old state edits f0 in
  if bool_decide (rs = []) then (s, (c, Ok (_batch_error file_path f)))
  else
    let new := apply_replacements old 0 rs in
    if bool_decide (new = old) then
      let f := foldl (fun f i => dset i no_change_failure f) f (remove_dups (rp_index <$> rs)) in
      (s, (c, Ok (_batch_error file_path f)))
    else
      match atomic_compare_and_swap_utf8 pf ev resolved (Some old) new false s with
      | (s', Raise e) => (s', edit_commit_failed pf file_path rs f e c)
      | (s', Ok _) =>
          let '(c', r) := rc_mark_read pf resolved new true [] s' c in
          (s', (c', match r with
                    | Ok _ => Ok (edit_success pf resolved state edits old new rs f)
                    | Raise e => Raise e
                    end))
      end.

Definition FileEditTool_invoke (pf : platform) (ev : swap_env) (unreadable : bool) (args : obj) (s : fs) (c : C)
    : fs * (C * res io_error CapabilityResult) :=
  let file_path := strip (get_str "file_path" args) in
  if negb (str_truthy file_path)
  then (s, (c, Ok (edit_err INVALID (lit "file_path is required") "missing_file_path" [])))
  else
    match forallb (fun k => bool_decide (k ∈ ["file_path"; "edits"])) (dkeys args), jget "edits" args with
    | true, JList (e :: es) =>
        let edits := e :: es in
        let f0 := validation_failures edits in
        if (length f0 =? length edits)%nat then (s, (c, Ok (_batch_error file_path f0)))
        else
          let had_record := rc_contains pf file_path c in
          match rc_get_valid_state pf unreadable file_path s c with
          | (c, Raise FileSnapshotReadError) =>
              (s, (c, Ok (edit_err ERROR (lit "Could not read the file before editing." ++ newline ++
                            exception_report FileSnapshotReadError) ""
                            [("error_code", JStr "READ_FAILED"); ("file_path", JStr file_path)])))
          | (c, Raise e) => (s, (c, Raise e))
          | (c, Ok None) =>
              (s, (c, Ok (code_err FORBIDDEN (if had_record then ERR_STALE_FILE else ERR_NOT_READ)
                            [("file_path", JStr file_path)])))
          | (c, Ok (Some state)) =>
              match resolve_file_path pf file_path with
              | Raise (OSError w) =>
                  (s, (c, Ok (edit_err ERROR (lit "Failed to resolve file before editing:" ++ newline ++
                                exception_report (OSError w)) ""
                                [("error_code", JStr "READ_FAILED"); ("file_path", JStr file_path)])))
              | Raise e => (s, (c, Raise e))
              | Ok resolved => edit_authorized pf ev file_path resolved edits f0 state s c
              end
          end
    | _, _ => (s, (c, Ok (edit_err INVALID (lit "Provide file_path and a nonempty edits array.") "bad_edits" [])))
    end.

End invoke.
