(* ===== verification/EditSafety.v ===== *)
(** * Theorems of the edit tool

    Matches are exactly the occurrences, the edits that survive the sweep are disjoint
    and no other edit is refused as overlapping, the assembled text differs from the
    pre-image only inside the matches, and a commit touches only lines that were read. *)

From S2P Require Import Prelude Dict Utf8 Sha256 PyValue JsonText Ranges TextLines FileSystem Contracts.
From S2P Require Import SessionData SessionState FileCache FileEdit.
Open Scope Z_scope.

(** ** Occurrences *)

(** [search] stands in [content] at offset [i]. *)
Definition occurs_at (content search : text) (i : Z) : Prop :=
  0 <= i /\ exists rest, drop (Z.to_nat i) content = search ++ rest.

Lemma is_prefix_spec p t : is_prefix p t = true <-> exists rest, t = p ++ rest.
Proof.
  revert t. induction p as [|x p IH]; intros t; simpl; [split; [by exists t|done]|].
  destruct t as [|y t]; [split; [done|by intros [? ?]]|]. rewrite andb_true_iff, Z.eqb_eq, IH.
  split; [intros [-> [r ->]]; by exists r|]. intros [r [= -> ->]]. split; [done|by exists r].
Qed.

Lemma find_in_spec search t i :
  match find_in search t i with
  | Some j => i <= j /\ (exists rest, drop (Z.to_nat (j - i)) t = search ++ rest) /\
      (j - i <= zlen t) /\
      forall k, i <= k < j -> ~ exists rest, drop (Z.to_nat (k - i)) t = search ++ rest
  | None => forall k, i <= k <= i + zlen t -> ~ exists rest, drop (Z.to_nat (k - i)) t = search ++ rest
  end.
Proof.
  revert i. induction t as [|c t IH]; intros i; cbn [find_in].
  - destruct (is_prefix search []) eqn:E.
    + apply is_prefix_spec in E. rewrite Z.sub_diag. split_and!; [lia|done|done|lia].
    + intros k Hk. unfold zlen in Hk; simpl in Hk. replace (k - i) with 0 by lia. simpl.
      rewrite <- is_prefix_spec. congruence.
  - destruct (is_prefix search (c :: t)) eqn:E.
    + apply is_prefix_spec in E. rewrite Z.sub_diag. split_and!; [lia|done|pose proof (zlen_nonneg (c :: t)); lia|lia].
    + assert (H0 : ~ exists rest, c :: t = search ++ rest) by (rewrite <- is_prefix_spec; congruence).
      assert (Hdrop : forall k, i < k -> drop (Z.to_nat (k - i)) (c :: t) = drop (Z.to_nat (k - (i + 1))) t).
      { intros k Hk. by replace (Z.to_nat (k - i)) with (S (Z.to_nat (k - (i + 1)))) by lia. }
      specialize (IH (i + 1)). rewrite zlen_cons. destruct (find_in search t (i + 1)) as [j|].
      * destruct IH as (Hj & Hr & Hl & Hn). split_and!; [lia|by rewrite Hdrop by lia|lia|].
        intros k Hk. destruct (decide (k = i)) as [->|]; [by rewrite Z.sub_diag|].
        rewrite Hdrop by lia. apply Hn. lia.
      * intros k Hk. destruct (decide (k = i)) as [->|]; [by rewrite Z.sub_diag|].
        rewrite Hdrop by lia. apply IH. lia.
Qed.

Lemma find_spec content search cursor :
  0 <= cursor -> search <> [] ->
  match find content search cursor with
  | Some j => cursor <= j < zlen content /\ occurs_at content search j /\
      forall k, cursor <= k < j -> ~ occurs_at content search k
  | None => forall k, cursor <= k -> ~ occurs_at content search k
  end.
Proof.
  intros Hc Hs. unfold find, occurs_at.
  pose proof (find_in_spec search (drop (Z.to_nat cursor) content) cursor) as Hf.
  assert (Hd : forall k, cursor <= k ->
    drop (Z.to_nat (k - cursor)) (drop (Z.to_nat cursor) content) = drop (Z.to_nat k) content).
  { intros k Hk. rewrite drop_drop. f_equal. lia. }
  destruct (find_in _ _ _) as [j|].
  - destruct Hf as (Hj & Hr & Hl & Hn). rewrite Hd in Hr by done. split_and!; [done| |lia|done|].
    + destruct (decide (j < zlen content)) as [|Hge]; [done|]. destruct Hr as [rest Hr].
      rewrite drop_ge in Hr by (unfold zlen in *; lia). by destruct search.
    + intros k Hk [_ Ho]. apply (Hn k Hk). by rewrite Hd by lia.
  - intros k Hk [_ Ho]. destruct (decide (k <= cursor + zlen (drop (Z.to_nat cursor) content))) as [Hle|Hgt].
    + apply (Hf k); [lia|]. by rewrite Hd by lia.
    + destruct Ho as [rest Ho]. rewrite drop_ge in Ho; [by destruct search|].
      unfold zlen in Hgt. rewrite length_drop in Hgt. lia.
Qed.

Lemma match_loop_spec fuel content search cursor :
  0 <= cursor -> search <> [] -> zlen content - cursor < Z.of_nat fuel ->
  (forall s e, (s, e) ∈ match_loop fuel content search cursor <->
     cursor <= s /\ e = s + zlen search /\ occurs_at content search s).
Proof.
  revert cursor. induction fuel as [|fuel IH]; intros cursor Hc Hs Hf s e; cbn [match_loop].
  - rewrite elem_of_nil. split; [done|]. intros (H1 & _ & [H2 [rest Hr]]).
    rewrite drop_ge in Hr by (unfold zlen in *; lia). by destruct search.
  - pose proof (find_spec content search cursor Hc Hs) as Hfind. destruct (find _ _ _) as [j|].
    + destruct Hfind as (Hj & Ho & Hn). rewrite elem_of_cons, IH by (done || lia). split.
      * intros [[= -> ->]|(H1 & H2 & H3)]; (split_and!; [lia|done..]).
      * intros (H1 & -> & H3). destruct (Z.lt_trichotomy s j) as [H|[->|H]]; [by destruct (Hn s)|by left|].
        right. split_and!; [lia|done..].
    + rewrite elem_of_nil. split; [done|]. intros (H1 & _ & H3). by apply (Hfind s).
Qed.

Lemma match_offsets_iff content search s e :
  search <> [] ->
  (s, e) ∈ _match_offsets content search <-> e = s + zlen search /\ occurs_at content search s.
Proof.
  intros Hs. unfold _match_offsets. rewrite match_loop_spec by (done || (unfold zlen; lia)).
  split; [tauto|]. intros [H1 H2]. split_and!; [apply H2|done..].
Qed.

(** The edit planner finds every occurrence and nothing else: the matches of a nonempty
    search text are exactly the intervals at which it stands in the content,
    overlapping occurrences included, and the loop ends within its bound. *)
Theorem match_offsets_exact content search s e :
  search <> [] ->
  (s, e) ∈ _match_offsets content search <-> e = s + zlen search /\ occurs_at content search s.
Proof. apply match_offsets_iff. Qed.

Lemma match_offsets_exact_witness :
  _match_offsets (lit "aaa") (lit "aa") = [(0, 2); (1, 3)] /\
  ((1, 3) ∈ _match_offsets (lit "aaa") (lit "aa") <-> 3 = 1 + zlen (lit "aa") /\ occurs_at (lit "aaa") (lit "aa") 1).
Proof. split; [reflexivity|apply (match_offsets_exact (lit "aaa") (lit "aa") 1 3); discriminate]. Defined.

Lemma match_inside content search s e :
  search <> [] -> (s, e) ∈ _match_offsets content search -> 0 <= s < e /\ e <= zlen content.
Proof.
  intros Hs Hm. apply match_offsets_iff in Hm; [|done].
  destruct Hm as (-> & [Hp [rest Hr]]). destruct search as [|c search]; [done|]. rewrite zlen_cons.
  pose proof (zlen_nonneg search). split; [lia|].
  assert (Hl : length (drop (Z.to_nat s) content) = length ((c :: search) ++ rest)) by (by rewrite Hr).
  rewrite length_drop, length_app in Hl. unfold zlen. simpl in *. lia.
Qed.

(** ** The sweep *)

Definition count_owner (i : Z) (active : list range) : Z := zlen (filter (fun p : range => p.2 = i) active).

(** [owners] counts the active intervals of each edit. *)
Definition owners_ok (active : list range) (owners : dict Z Z) : Prop :=
  forall i, dget i owners = if count_owner i active =? 0 then None else Some (count_owner i active).

(** Some interval of edit [i] meets an earlier or a later one. *)
Definition overlaps (l : list replacement) (i : Z) : Prop :=
  exists l1 a l2 b l3, l = l1 ++ a :: l2 ++ b :: l3 /\ rp_start b < rp_end a /\
    (i = rp_index a \/ i = rp_index b).

Record sweep_ok (seen : list replacement) (s : sweep_state) : Prop := {
  sk_active : forall a, a ∈ seen ->
    (rp_end a, rp_index a) ∈ sw_active s \/ (exists b, b ∈ seen /\ rp_end a <= rp_start b);
  sk_origin : forall e i, (e, i) ∈ sw_active s -> exists a, a ∈ seen /\ rp_end a = e /\ rp_index a = i;
  sk_sorted : StronglySorted range_le (sw_active s);
  sk_owners : owners_ok (sw_active s) (sw_owners s);
  sk_conflicts : forall i, i ∈ dkeys (sw_conflicts s) <-> overlaps seen i
}.

Lemma count_cons i p l : count_owner i (p :: l) = count_owner i l + (if decide (p.2 = i) then 1 else 0).
Proof. unfold count_owner. rewrite filter_cons. case_decide; [rewrite zlen_cons|]; lia. Qed.

Lemma count_nonneg i l : 0 <= count_owner i l.
Proof. apply zlen_nonneg. Qed.

Lemma owner_keys active owners i :
  owners_ok active owners -> i ∈ dkeys owners <-> exists e, (e, i) ∈ active.
Proof.
  intros H. rewrite <- dget_is_Some, H. unfold count_owner.
  destruct (filter (fun p : range => p.2 = i) active) as [|p l] eqn:E.
  - simpl. split; [by intros [? ?]|]. intros [e He].
    assert (Hin : (e, i) ∈ filter (fun p : range => p.2 = i) active) by (by apply list_elem_of_filter).
    rewrite E in Hin. by apply elem_of_nil in Hin.
  - rewrite zlen_cons. pose proof (zlen_nonneg l). rewrite (proj2 (Z.eqb_neq _ 0)) by lia. split; [|by eauto].
    intros _. assert (Hin : p ∈ filter (fun p : range => p.2 = i) active) by (rewrite E; apply list_elem_of_here).
    apply list_elem_of_filter in Hin as [<- Hin]. exists p.1. by destruct p.
Qed.

Lemma owner_dec_ok p active owners :
  owners_ok (p :: active) owners -> owners_ok active (owner_dec p.2 owners).
Proof.
  intros H i. unfold owner_dec. pose proof (H p.2) as Hp. rewrite count_cons, decide_True in Hp by done.
  pose proof (count_nonneg p.2 active). rewrite (proj2 (Z.eqb_neq _ 0)) in Hp by lia. rewrite Hp. simpl.
  replace (count_owner p.2 active + 1 - 1) with (count_owner p.2 active) by lia.
  specialize (H i). rewrite count_cons in H. destruct (decide (p.2 = i)) as [<-|Hne].
  - destruct (count_owner p.2 active =? 0) eqn:E; [apply dget_ddel_eq|apply dget_dset_eq].
  - rewrite Z.add_0_r in H. rewrite <- H. destruct (count_owner p.2 active =? 0);
      [by rewrite dget_ddel_ne|by rewrite dget_dset_ne].
Qed.

Lemma heappush_elem x h y : y ∈ heappush x h <-> y = x \/ y ∈ h.
Proof.
  induction h as [|z h IH]; simpl; [by rewrite list_elem_of_singleton, elem_of_nil; naive_solver|].
  case_decide; [by rewrite elem_of_cons|]. rewrite !elem_of_cons, IH. naive_solver.
Qed.

Lemma heappush_sorted x h : StronglySorted range_le h -> StronglySorted range_le (heappush x h).
Proof.
  induction 1 as [|y h Hs IH Hall]; simpl; [by repeat constructor|]. case_decide as Hd.
  - constructor; [by constructor|]. constructor; [done|].
    eapply Forall_impl; [exact Hall|]. intros z Hz. by etransitivity.
  - constructor; [done|]. apply Forall_forall. intros z [->|Hz]%heappush_elem.
    + destruct (total range_le x y) as [?|?]; [done|]. done.
    + by eapply Forall_forall in Hall.
Qed.

Lemma heappush_count i x h : count_owner i (heappush x h) = count_owner i (x :: h).
Proof.
  induction h as [|y h IH]; cbn [heappush]; [done|]. destruct (decide (range_le x y)); [done|].
  rewrite count_cons, IH, !count_cons. lia.
Qed.

Lemma owner_inc_ok e i active owners :
  owners_ok active owners -> owners_ok (heappush (e, i) active) (owner_inc i owners).
Proof.
  intros H j. rewrite heappush_count, count_cons. cbn [snd]. unfold owner_inc. rewrite dget_dset.
  pose proof (count_nonneg j active). destruct (decide (i = j)) as [<-|Hne]; [|by rewrite H, Z.add_0_r].
  rewrite (H i), (proj2 (Z.eqb_neq (count_owner i active + 1) 0)) by lia. f_equal.
  destruct (count_owner i active =? 0) eqn:E; simpl; [apply Z.eqb_eq in E; lia|done].
Qed.

Lemma pop_ended_spec start active owners :
  StronglySorted range_le active -> owners_ok active owners ->
  let '(active', owners') := pop_ended start active owners in
  StronglySorted range_le active' /\ owners_ok active' owners' /\
  (forall p, p ∈ active' <-> p ∈ active /\ start < p.1).
Proof.
  revert owners. induction active as [|[fin owner] active IH]; intros owners Hs Ho; cbn [pop_ended].
  { split_and!; [done..|]. intros p. rewrite elem_of_nil. naive_solver. }
  apply StronglySorted_inv in Hs as Hs'. destruct Hs' as [Hs' Hall].
  destruct (fin <=? start) eqn:E; bool_to_prop.
  - specialize (IH (owner_dec owner owners) Hs' (owner_dec_ok (fin, owner) active owners Ho)).
    destruct (pop_ended start active _) as [active' owners']. destruct IH as (H1 & H2 & H3). split_and!; [done..|].
    intros p. rewrite H3, elem_of_cons. split; [tauto|]. intros [[->|?] ?]; [simpl in *; lia|done].
  - split_and!; [done..|]. intros p. split; [|tauto]. intros Hp. split; [done|].
    apply elem_of_cons in Hp as [->|Hp]; [done|]. rewrite Forall_forall in Hall. specialize (Hall p Hp).
    unfold range_le in Hall; simpl in Hall. lia.
Qed.

Lemma add_conflicts_keys idx owners c i :
  i ∈ dkeys (add_conflicts idx owners c) <-> i ∈ dkeys c \/ i ∈ owners \/ (i = idx /\ owners <> []).
Proof.
  unfold add_conflicts. revert c. induction owners as [|o owners IH]; intros c; cbn [foldl].
  - rewrite elem_of_nil. naive_solver.
  - rewrite IH. unfold add_conflict at 1. rewrite elem_dkeys_dset. unfold add_conflict. rewrite elem_dkeys_dset.
    rewrite elem_of_cons. destruct owners; naive_solver.
Qed.

(** Overlaps of a list with one more interval at its end. *)
Lemma overlaps_snoc l r i :
  overlaps (l ++ [r]) i <->
  overlaps l i \/ exists a, a ∈ l /\ rp_start r < rp_end a /\ (i = rp_index a \/ i = rp_index r).
Proof.
  split.
  - intros (l1 & a & l2 & b & l3 & E & Hlt & Hi).
    destruct l3 as [|x l3 _] using rev_ind.
    + right. exists a. assert (E' : (l1 ++ a :: l2) ++ [b] = l ++ [r])
        by (rewrite E; by rewrite <- app_assoc).
      apply app_inj_tail in E' as [<- ->]. split; [|done]. apply elem_of_app. right. apply list_elem_of_here.
    + left. exists l1, a, l2, b, l3. split; [|done].
      assert (E' : (l1 ++ a :: l2 ++ b :: l3) ++ [x] = l ++ [r])
        by (rewrite E; rewrite <- !app_assoc; simpl; by rewrite <- !app_assoc).
      by apply app_inj_tail in E' as [-> _].
  - intros [(l1 & a & l2 & b & l3 & -> & H)|(a & Ha & Hlt & Hi)].
    + exists l1, a, l2, b, (l3 ++ [r]). split; [|done]. rewrite <- !app_assoc. simpl. by rewrite <- !app_assoc.
    + apply list_elem_of_split in Ha as (l1 & l2 & ->). exists l1, a, l2, r, []. split; [|done].
      by rewrite <- app_assoc.
Qed.

Lemma sweep_step_ok seen s r :
  sweep_ok seen s -> (forall a, a ∈ seen -> rp_start a <= rp_start r) -> rp_start r < rp_end r ->
  sweep_ok (seen ++ [r]) (sweep_step s r).
Proof.
  intros [Ha Ho Hs Hw Hc] Hle Hne. unfold sweep_step.
  pose proof (pop_ended_spec (rp_start r) (sw_active s) (sw_owners s) Hs Hw) as Hp.
  destruct (pop_ended _ _ _) as [active owners]. destruct Hp as (Hp1 & Hp2 & Hp3).
  assert (Hact : forall i, i ∈ dkeys owners <-> exists a, a ∈ seen /\ rp_start r < rp_end a /\ i = rp_index a).
  { intros i. rewrite (owner_keys active owners i Hp2). setoid_rewrite Hp3. split.
    - intros (e & He & Hlt). destruct (Ho _ _ He) as (a & Hin & <- & <-). eauto.
    - intros (a & Hin & Hlt & ->). exists (rp_end a). split; [|done].
      destruct (Ha a Hin) as [?|(b & Hb & Hle')]; [done|]. specialize (Hle b Hb). lia. }
  split; cbn [sw_active sw_owners sw_conflicts].
  - intros a [Hin|Hin%list_elem_of_singleton]%elem_of_app; [|subst a; left; apply heappush_elem; by left].
    destruct (decide (rp_end a <= rp_start r)) as [Hend|Hend].
    + right. exists r. split; [|done]. apply elem_of_app. right. apply list_elem_of_here.
    + left. apply heappush_elem. right. apply Hp3. split; [|simpl; lia].
      destruct (Ha a Hin) as [?|(b & Hb & Hle')]; [done|]. specialize (Hle b Hb). lia.
  - intros e i [[= -> ->]|Hin]%heappush_elem.
    + exists r. split; [|done]. apply elem_of_app. right. apply list_elem_of_here.
    + apply Hp3 in Hin as [Hin _]. destruct (Ho _ _ Hin) as (a & ? & ?). exists a. split; [|done].
      apply elem_of_app. by left.
  - by apply heappush_sorted.
  - by apply owner_inc_ok.
  - intros i. rewrite add_conflicts_keys, Hc, overlaps_snoc. apply or_iff_compat_l. rewrite Hact. split.
    + intros [(a & ? & ? & ->)|[-> Hne']]; [by eauto 10|].
      destruct (dkeys owners) as [|o os] eqn:E; [done|].
      destruct (proj1 (Hact o)) as (a & ? & ? & _); [apply list_elem_of_here|]. eauto 10.
    + intros (a & Hin & Hlt & [->| ->]); [by eauto 10|]. right. split; [done|]. intros E.
      assert (Hk : rp_index a ∈ dkeys owners) by (apply Hact; eauto). rewrite E in Hk. by apply elem_of_nil in Hk.
Qed.

Lemma sweep_ok_all todo seen s :
  sweep_ok seen s -> StronglySorted rp_le (seen ++ todo) -> (forall r, r ∈ todo -> rp_start r < rp_end r) ->
  sweep_ok (seen ++ todo) (foldl sweep_step s todo).
Proof.
  revert seen s. induction todo as [|r todo IH]; intros seen s Hs Hsort Hne; [by rewrite app_nil_r|].
  cbn [foldl]. change (seen ++ r :: todo) with (seen ++ [r] ++ todo). rewrite app_assoc. apply IH.
  - apply sweep_step_ok; [done| |apply Hne, list_elem_of_here]. intros a Ha.
    apply list_elem_of_split in Ha as (l1 & l2 & ->). rewrite <- app_assoc in Hsort.
    assert (Hle : rp_le a r).
    { clear -Hsort. induction l1 as [|x l1 IH]; simpl in *; [|apply IH; by apply StronglySorted_inv in Hsort as [? _]].
      apply StronglySorted_inv in Hsort as [_ Hall]. rewrite Forall_forall in Hall. apply Hall.
      apply elem_of_app. right. apply list_elem_of_here. }
    unfold rp_le, range_le in Hle; simpl in Hle. lia.
  - by rewrite <- app_assoc.
  - intros; apply Hne; by right.
Qed.

Lemma overlapping_edits_iff l i :
  StronglySorted rp_le l -> (forall r, r ∈ l -> rp_start r < rp_end r) ->
  i ∈ dkeys (_overlapping_edits l) <-> overlaps l i.
Proof.
  intros Hs Hne. unfold _overlapping_edits.
  assert (H0 : sweep_ok [] (Sweep [] [] [])).
  { split; cbn [sw_active sw_owners sw_conflicts].
    - by intros a ?%elem_of_nil.
    - by intros e j ?%elem_of_nil.
    - constructor.
    - by intros j.
    - intros j. rewrite elem_of_nil. split; [done|]. intros (l1 & a & l2 & b & l3 & E & _). by destruct l1. }
  exact (sk_conflicts _ _ (sweep_ok_all l [] _ H0 Hs Hne) i).
Qed.

(** Exactly the overlapping edits are refused.  For replacements in the order the tool
    sorts them, an edit is reported in conflict if and only if one of its intervals
    shares characters with another interval of the batch, its own others included. *)
Theorem overlapping_edits_exact l i :
  StronglySorted rp_le l -> (forall r, r ∈ l -> rp_start r < rp_end r) ->
  i ∈ dkeys (_overlapping_edits l) <-> overlaps l i.
Proof. apply overlapping_edits_iff. Qed.

Definition demo_overlap : list replacement := [Replacement 0 3 [] 0; Replacement 2 4 [] 1; Replacement 6 7 [] 2].

Lemma overlapping_edits_exact_witness :
  dkeys (_overlapping_edits demo_overlap) = [1; 0] /\
  (2 ∈ dkeys (_overlapping_edits demo_overlap) <-> overlaps demo_overlap 2).
Proof.
  split; [reflexivity|]. apply (overlapping_edits_exact demo_overlap 2).
  - repeat constructor; unfold rp_le, range_le; simpl; lia.
  - intros r Hr. repeat (apply elem_of_cons in Hr as [->|Hr]; [simpl; lia|]). by apply elem_of_nil in Hr.
Defined.

(** ** The assembled text *)

(** Replacements in order, disjoint, between [cursor] and [n]. *)
Fixpoint in_order (cursor n : Z) (rs : list replacement) : Prop :=
  match rs with
  | [] => cursor <= n
  | r :: rs => cursor <= rp_start r < rp_end r /\ in_order (rp_end r) n rs
  end.

Definition change (r : replacement) : Z := zlen (rp_text r) - (rp_end r - rp_start r).

(** How far the text at [p] moves: the changes of the replacements that end before it. *)
Fixpoint delta (rs : list replacement) (p : Z) : Z :=
  match rs with
  | [] => 0
  | r :: rs => (if rp_end r <=? p then change r else 0) + delta rs p
  end.

(** No replacement holds the character [p]. *)
Definition untouched (rs : list replacement) (p : Z) : Prop :=
  Forall (fun r => p < rp_start r \/ rp_end r <= p) rs.

Lemma in_order_le cursor n rs : in_order cursor n rs -> cursor <= n.
Proof. revert cursor. induction rs as [|r rs IH]; intros cursor H; simpl in H; [done|]. destruct H as [? H%IH]. lia. Qed.

Lemma in_order_weaken c1 c2 n rs : in_order c2 n rs -> c1 <= c2 -> in_order c1 n rs.
Proof. destruct rs; simpl; [lia|]. intros [? ?] ?. split; [lia|done]. Qed.

Lemma in_order_before cursor n rs p : in_order cursor n rs -> p < cursor -> delta rs p = 0.
Proof.
  revert cursor. induction rs as [|r rs IH]; intros cursor H Hp; simpl in *; [done|]. destruct H as [H1 H2].
  rewrite (proj2 (Z.leb_gt _ _)) by lia. rewrite (IH (rp_end r)); [lia|done|lia].
Qed.

Lemma delta_bound cursor n rs p : in_order cursor n rs -> cursor <= p -> 0 <= p - cursor + delta rs p.
Proof.
  revert cursor. induction rs as [|r rs IH]; intros cursor H Hp; simpl in *; [lia|]. destruct H as [H1 H2].
  pose proof (zlen_nonneg (rp_text r)). destruct (rp_end r <=? p) eqn:E; bool_to_prop.
  - specialize (IH (rp_end r) H2 E). unfold change. lia.
  - rewrite (in_order_before (rp_end r) n) by (done || lia). lia.
Qed.

Lemma slice_text_length t a b : 0 <= a <= b -> b <= zlen t -> zlen (slice_text t a b) = b - a.
Proof. intros H1 H2. unfold slice_text, zlen in *. rewrite length_take, length_drop. lia. Qed.

Lemma slice_text_lookup t a b i : 0 <= a -> 0 <= i < b - a -> slice_text t a b !! Z.to_nat i = t !! Z.to_nat (a + i).
Proof.
  intros Ha Hi. unfold slice_text. rewrite lookup_take_lt by lia. rewrite lookup_drop. f_equal. lia.
Qed.

(** Looking up past a prefix. *)
Lemma lookup_past (l1 l2 : text) i j : 0 <= j -> i = zlen l1 + j -> (l1 ++ l2) !! Z.to_nat i = l2 !! Z.to_nat j.
Proof. intros Hj ->. unfold zlen. rewrite lookup_app_r by lia. f_equal. lia. Qed.

Lemma lookup_within (l1 l2 : text) i : 0 <= i < zlen l1 -> (l1 ++ l2) !! Z.to_nat i = l1 !! Z.to_nat i.
Proof. intros Hi. unfold zlen in Hi. apply lookup_app_l. lia. Qed.

Lemma apply_untouched content cursor rs p :
  0 <= cursor <= p -> p < zlen content -> in_order cursor (zlen content) rs -> untouched rs p ->
  apply_replacements content cursor rs !! Z.to_nat (p - cursor + delta rs p) = content !! Z.to_nat p.
Proof.
  revert cursor. induction rs as [|r rs IH]; intros cursor Hc Hp Ho Hu; cbn [apply_replacements delta].
  - rewrite lookup_drop. f_equal. lia.
  - destruct Ho as [Ho1 Ho2]. apply Forall_cons in Hu as [Hr Hu]. pose proof (in_order_le _ _ _ Ho2).
    assert (Hl : zlen (slice_text content cursor (rp_start r)) = rp_start r - cursor) by (apply slice_text_length; lia).
    destruct Hr as [Hr|Hr].
    + rewrite (proj2 (Z.leb_gt _ _)) by lia. rewrite (in_order_before (rp_end r) (zlen content)) by (done || lia).
      rewrite lookup_within by lia. rewrite slice_text_lookup by lia. f_equal. lia.
    + rewrite (proj2 (Z.leb_le _ _)) by lia. pose proof (delta_bound _ _ _ p Ho2 Hr). pose proof (zlen_nonneg (rp_text r)).
      rewrite (lookup_past _ _ _ (zlen (rp_text r) + (p - rp_end r + delta rs p))) by (unfold change; lia).
      rewrite (lookup_past _ _ _ (p - rp_end r + delta rs p)) by lia. apply IH; [lia|done..].
Qed.

Lemma apply_length content cursor rs :
  0 <= cursor -> in_order cursor (zlen content) rs ->
  zlen (apply_replacements content cursor rs) = zlen content - cursor + delta rs (zlen content).
Proof.
  revert cursor. induction rs as [|r rs IH]; intros cursor Hc Ho; cbn [apply_replacements delta].
  - simpl in Ho. unfold zlen in *. rewrite length_drop. lia.
  - destruct Ho as [Ho1 Ho2]. pose proof (in_order_le _ _ _ Ho2). rewrite !zlen_app, slice_text_length by lia.
    rewrite IH by (done || lia). rewrite (proj2 (Z.leb_le _ _)) by lia. unfold change. lia.
Qed.

Lemma apply_replaced content cursor rs r i :
  0 <= cursor -> in_order cursor (zlen content) rs -> r ∈ rs -> 0 <= i < zlen (rp_text r) ->
  apply_replacements content cursor rs !! Z.to_nat (rp_start r + delta rs (rp_start r) - cursor + i) =
    rp_text r !! Z.to_nat i.
Proof.
  revert cursor. induction rs as [|x rs IH]; intros cursor Hc Ho Hin Hi; [by apply elem_of_nil in Hin|].
  cbn [apply_replacements delta]. destruct Ho as [Ho1 Ho2]. pose proof (in_order_le _ _ _ Ho2).
  assert (Hl : zlen (slice_text content cursor (rp_start x)) = rp_start x - cursor) by (apply slice_text_length; lia).
  apply elem_of_cons in Hin as [->|Hin].
  - rewrite (proj2 (Z.leb_gt _ _)) by lia. rewrite (in_order_before (rp_end x) (zlen content)) by (done || lia).
    rewrite (lookup_past _ _ _ i) by lia. by rewrite lookup_within.
  - assert (Hx : rp_end x <= rp_start r).
    { clear -Ho2 Hin. revert Ho2. generalize (rp_end x) as c. induction rs as [|y rs IH]; intros c H;
        [by apply elem_of_nil in Hin|]. destruct H as [H1 H2]. apply elem_of_cons in Hin as [->|Hin]; [lia|].
      specialize (IH Hin _ H2). lia. }
    rewrite (proj2 (Z.leb_le _ _)) by lia. pose proof (delta_bound _ _ _ (rp_start r) Ho2 Hx).
    pose proof (zlen_nonneg (rp_text x)).
    rewrite (lookup_past _ _ _ (zlen (rp_text x) + (rp_start r + delta rs (rp_start r) - rp_end x + i)))
      by (unfold change; lia).
    rewrite (lookup_past _ _ _ (rp_start r + delta rs (rp_start r) - rp_end x + i)) by lia. apply IH; [lia|done..].
Qed.

(** An edit changes the matched text and nothing else.  For disjoint replacements in
    order, every character outside them is still there, moved by the total change of the
    replacements before it; every replacement text stands at its shifted position; and
    the length is the old length plus all changes. *)
Theorem apply_replacements_exact content rs :
  in_order 0 (zlen content) rs ->
  let new := apply_replacements content 0 rs in
  (forall p, 0 <= p < zlen content -> untouched rs p -> new !! Z.to_nat (p + delta rs p) = content !! Z.to_nat p) /\
  (forall r i, r ∈ rs -> 0 <= i < zlen (rp_text r) ->
     new !! Z.to_nat (rp_start r + delta rs (rp_start r) + i) = rp_text r !! Z.to_nat i) /\
  zlen new = zlen content + delta rs (zlen content).
Proof.
  intros Ho new. unfold new. split_and!.
  - intros p Hp Hu. rewrite <- (apply_untouched content 0 rs p) by (done || lia). f_equal. lia.
  - intros r i Hr Hi. rewrite <- (apply_replaced content 0 rs r i) by (done || lia). f_equal. lia.
  - rewrite apply_length by (done || lia). lia.
Qed.

Lemma apply_replacements_exact_witness :
  apply_replacements (lit "abcdef") 0 [Replacement 1 3 (lit "X") 0; Replacement 4 5 (lit "YZ") 1] = lit "aXdYZf" /\
  lit "aXdYZf" !! 5%nat = lit "abcdef" !! 5%nat.
Proof.
  split; [reflexivity|].
  apply (apply_replacements_exact (lit "abcdef") [Replacement 1 3 (lit "X") 0; Replacement 4 5 (lit "YZ") 1]
    ltac:(vm_compute; intuition discriminate)) with (p := 5); [vm_compute; intuition discriminate|].
  repeat constructor; simpl; lia.
Defined.

(** ** What a planned replacement stands on *)

(** All lines of the range were read: the whole file was, or one run of lines that
    contains them. *)
Definition lines_read (state : FileState) (r : range) : Prop :=
  fs_full_view state = true \/
  exists a b, (a, b) ∈ fs_covered_ranges state /\ a <= r.1 /\ r.2 <= b.

Lemma covers_lines_iff state a b : covers_lines state a b = true <-> lines_read state (a, b).
Proof.
  unfold covers_lines, lines_read. destruct (fs_full_view state); [split; [by left|done]|].
  unfold any_contains. rewrite existsb_exists. setoid_rewrite <- list_elem_of_In. split.
  - intros ([c d] & Hin & Hc). bool_to_prop. right. exists c, d. by split_and!.
  - intros [?|(c & d & Hin & Hc & Hd)]; [done|]. exists (c, d). split; [done|]. simpl in *.
    apply andb_true_iff. rewrite !Z.leb_le. lia.
Qed.

Definition justified (content : text) (state : FileState) (edits : list json) (r : replacement) : Prop :=
  exists v e, 0 <= rp_index r /\ edits !! Z.to_nat (rp_index r) = Some v /\ _validate_edit v = inr e /\
    rp_text r = ed_new e /\ ed_old e <> [] /\ rp_end r = rp_start r + zlen (ed_old e) /\
    occurs_at content (ed_old e) (rp_start r) /\
    0 <= rp_start r < rp_end r /\ rp_end r <= zlen content /\
    lines_read state (line_range_for_offsets content (rp_start r) (rp_end r)).

Lemma decode_nonempty bs : bs <> [] -> utf8_decode bs <> Some [].
Proof.
  destruct bs as [|b0 r0]; [done|]. intros _. simpl.
  repeat match goal with |- context [if ?b then _ else _] => destruct b
                       | |- context [match ?l with [] => _ | _ :: _ => _ end] => destruct l end; try done;
  match goal with |- (_ <$> ?m) <> _ => by destruct m end.
Qed.

Lemma string_text_nonempty s : s <> "" -> string_text s <> [].
Proof.
  intros Hs. unfold string_text. assert (Hb : string_bytes s <> []) by (by destruct s).
  pose proof (decode_nonempty _ Hb). destruct (utf8_decode (string_bytes s)) as [t|]; simpl; [|done]. congruence.
Qed.

Lemma validate_edit_old v e : _validate_edit v = inr e -> ed_old e <> [].
Proof.
  unfold _validate_edit. destruct v as [| | | | |d]; try done. destruct (negb (forallb _ _)); [done|].
  destruct (jget "old_string" d) as [| | |old| |]; try done.
  destruct (jget "new_string" d) as [| | |new| |]; try done.
  destruct (default _ _) as [|all| | | |]; try done.
  destruct (negb (str_truthy old)) eqn:E; [done|]. destruct (decide (old = new)); [done|]. intros [= <-]. simpl.
  apply string_text_nonempty, str_truthy_spec. by apply negb_false_iff.
Qed.

Lemma plan_exact_edit_ok content state e matches :
  _plan_exact_edit content state e = inr matches ->
  matches = _match_offsets content (ed_old e) /\
  forall m, m ∈ matches -> lines_read state (line_range_for_offsets content m.1 m.2).
Proof.
  unfold _plan_exact_edit. destruct (_match_offsets content (ed_old e)) as [|m ms]; [done|].
  destruct ((1 <? _) && _); [done|]. destruct (negb (forallb _ _)) eqn:E; [done|]. intros [= <-]. split; [done|].
  rewrite negb_false_iff, forallb_forall in E. intros m' Hm'.
  destruct (line_range_for_offsets content m'.1 m'.2) as [a b] eqn:El. apply covers_lines_iff.
  specialize (E (a, b)). apply E. apply list_elem_of_In, list_elem_of_fmap. exists m'. by rewrite <- El.
Qed.

Lemma indexed_elem {A} (l : list A) i x : (i, x) ∈ indexed l <-> 0 <= i /\ l !! Z.to_nat i = Some x.
Proof.
  unfold indexed. rewrite list_elem_of_lookup. setoid_rewrite list_lookup_imap. split.
  - intros (k & Hk). destruct (l !! k) as [y|] eqn:E; simpl in Hk; [|done]. injection Hk as <- <-.
    split; [lia|]. by rewrite Nat2Z.id.
  - intros [Hi Hx]. exists (Z.to_nat i). rewrite Hx. simpl. by rewrite Z2Nat.id.
Qed.

Lemma plan_edits_justified content state edits f r :
  r ∈ (plan_edits content state edits f).1 -> justified content state edits r.
Proof.
  unfold plan_edits.
  assert (Hg : forall todo acc, (forall p, p ∈ todo -> p ∈ indexed edits) ->
    (forall r, r ∈ acc.1 -> justified content state edits r) ->
    forall r, r ∈ (foldl (plan_step content state) acc todo).1 -> justified content state edits r).
  { induction todo as [|[i v] todo IH]; intros [rs f0] Hin Hacc; cbn [foldl]; [done|]. apply IH; [intros; apply Hin; by right|].
    unfold plan_step. cbn [fst snd] in *. destruct (dget i f0); [done|].
    destruct (_validate_edit v) as [|e] eqn:Ev; [done|].
    destruct (_plan_exact_edit content state e) as [|ms] eqn:Ep; [done|].
    intros r0 [Hr|Hr]%elem_of_app; [by apply Hacc|]. apply list_elem_of_fmap in Hr as ([s fin] & -> & Hm).
    destruct (plan_exact_edit_ok _ _ _ _ Ep) as [-> Hc]. pose proof (validate_edit_old _ _ Ev) as Ho.
    destruct (match_inside _ _ _ _ Ho Hm). destruct (proj1 (match_offsets_iff content _ s fin Ho) Hm) as [-> ?].
    destruct (proj1 (indexed_elem edits i v) (Hin _ (list_elem_of_here _ _))).
    exists v, e. simpl. specialize (Hc _ Hm). simpl in Hc. split_and!; done || lia. }
  apply Hg; [done|]. by intros r0 ?%elem_of_nil.
Qed.

(** Survivors of the sweep are disjoint. *)
Lemma filter_pair {A} (P : A -> Prop) `{forall x, Decision (P x)} (l m1 m2 m3 : list A) a b :
  filter P l = m1 ++ a :: m2 ++ b :: m3 ->
  exists l1 l2 l3, l = l1 ++ a :: l2 ++ b :: l3 /\ P a /\ P b.
Proof.
  intros E.
  assert (Hsplit : forall (l m1 m2 : list A) a, filter P l = m1 ++ a :: m2 ->
    exists l1 l2, l = l1 ++ a :: l2 /\ P a /\ filter P l2 = m2).
  { clear. induction l as [|x l IH]; intros m1 m2 a E; [by destruct m1|]. rewrite filter_cons in E.
    destruct (decide (P x)) as [Hx|Hx].
    - destruct m1 as [|y m1]; simpl in E.
      + injection E as -> E. by exists [], l.
      + injection E as -> E. destruct (IH _ _ _ E) as (l1 & l2 & -> & ? & ?). by exists (y :: l1), l2.
    - destruct (IH _ _ _ E) as (l1 & l2 & -> & ? & ?). by exists (x :: l1), l2. }
  destruct (Hsplit _ _ _ _ E) as (l1 & l2 & -> & Ha & E2).
  destruct (Hsplit _ _ _ _ E2) as (l3 & l4 & -> & Hb & _). exists l1, l3, l4. done.
Qed.

Lemma in_order_pairs rs n :
  (forall r, r ∈ rs -> 0 <= rp_start r < rp_end r /\ rp_end r <= n) -> 0 <= n ->
  (forall l1 a l2 b l3, rs = l1 ++ a :: l2 ++ b :: l3 -> rp_end a <= rp_start b) ->
  in_order 0 n rs.
Proof.
  intros H Hn Hp.
  assert (Hg : forall c, 0 <= c <= n -> (forall r, r ∈ rs -> c <= rp_start r) -> in_order c n rs); [|apply Hg; [lia|]; intros r Hr; apply H in Hr; lia].
  induction rs as [|r rs IH]; intros c Hc Hle; simpl; [lia|].
  destruct (H r (list_elem_of_here _ _)) as [H1 H2]. specialize (Hle r (list_elem_of_here _ _)) as Hr. split; [lia|].
  apply IH.
  - intros; apply H; by right.
  - intros l1 a l2 b l3 ->. by apply (Hp (r :: l1) a l2 b l3).
  - lia.
  - intros r' Hr'. apply list_elem_of_split in Hr' as (l2 & l3 & ->). by apply (Hp [] r l2 r' l3).
Qed.

#[export] Instance rp_le_trans : Transitive rp_le.
Proof. intros a b c H1 H2. unfold rp_le in *. by etransitivity. Qed.

#[export] Instance rp_le_total : Total rp_le.
Proof. intros a b. unfold rp_le. apply total, _. Qed.

Lemma dset_all_keys {A} (f0 : failures) (l : dict Z A) (g : A -> CapabilityResult) i :
  i ∈ dkeys l -> dmem i (foldl (fun f p => dset p.1 (g p.2) f) f0 l) = true.
Proof.
  assert (Hkeep : forall (l : dict Z A) f0, dmem i f0 = true -> dmem i (foldl (fun f p => dset p.1 (g p.2) f) f0 l) = true).
  { clear. induction l as [|p l IH]; intros f0 H; cbn [foldl]; [done|]. apply IH. apply dmem_true.
    rewrite dget_dset. case_decide; [by eauto|]. by apply dmem_true. }
  revert f0. induction l as [|[k v] l IH]; intros f0 Hi; [by apply elem_of_nil in Hi|].
  rewrite dkeys_cons in Hi. cbn [foldl]. apply elem_of_cons in Hi as [->|Hi]; [|by apply IH].
  apply Hkeep. apply dmem_true. exists (g v). apply dget_dset_eq.
Qed.

(** The batch that is applied: justified, in order, disjoint. *)
Lemma plan_batch_ok content state edits f0 :
  let rs := (plan_batch content state edits f0).1 in
  (forall r, r ∈ rs -> justified content state edits r) /\ in_order 0 (zlen content) rs.
Proof.
  unfold plan_batch. pose proof (plan_edits_justified content state edits f0) as Hj.
  destruct (plan_edits content state edits f0) as [planned f1]. cbn [fst] in *. cbv zeta.
  set (f2 := foldl _ f1 _). set (sorted := merge_sort rp_le planned) in *.
  assert (Hsj : forall r, r ∈ sorted -> justified content state edits r).
  { intros r Hr. apply Hj. unfold sorted in Hr. by rewrite merge_sort_Permutation in Hr. }
  assert (Hin : forall r, r ∈ sorted -> 0 <= rp_start r < rp_end r /\ rp_end r <= zlen content).
  { intros r Hr. destruct (Hsj r Hr) as (v & e & _ & _ & _ & _ & _ & _ & _ & ? & ? & _). done. }
  split.
  - intros r [_ Hr]%list_elem_of_filter. by apply Hsj.
  - apply in_order_pairs; [intros r [_ Hr]%list_elem_of_filter; by apply Hin|apply zlen_nonneg|].
    intros m1 a m2 b m3 E. destruct (filter_pair _ _ _ _ _ _ _ E) as (l1 & l2 & l3 & El & Ha & Hb).
    destruct (decide (rp_end a <= rp_start b)) as [|Hlt]; [done|]. exfalso.
    assert (Hk : rp_index a ∈ dkeys (_overlapping_edits sorted)).
    { apply overlapping_edits_iff.
      - apply Sorted_StronglySorted; [apply rp_le_trans|]. apply Sorted_merge_sort, _.
      - intros r Hr. apply Hin in Hr. lia.
      - exists l1, a, l2, b, l3. split; [done|]. split; [lia|by left]. }
    unfold f2 in Ha. rewrite (dset_all_keys _ _ overlap_failure) in Ha by done. done.
Qed.

(** ** The whole tool *)

Lemma resolve_plain pf path e : resolve_file_path pf path = Raise e -> plain e.
Proof. unfold resolve_file_path. destruct (expand_resolve pf path) as [|[]]; by intros [= <-]. Qed.

(** What the tool needs of a cache: recording a text that can be encoded succeeds, and a
    failed lookup is not a commit. *)
Class LawfulReadCache (C : Type) `{ReadCache C} := {
  lc_mark_read : forall pf p t b full cov s c,
    utf8_encode t = Some b -> (rc_mark_read pf p t full cov s c).2 = Ok tt;
  lc_get_plain : forall pf u p s c e, (rc_get_valid_state pf u p s c).2 = Raise e -> plain e
}.

#[export] Instance lru_lawful : LawfulReadCache FileStateCache.
Proof.
  split; [done|]. intros pf u p s c e. simpl. by destruct (cache_get_valid_state pf p s c).
Qed.

#[export] Instance session_lawful {B} `{LogicalExecutionStateBackend B} : LawfulReadCache (SessionFileStateCache B).
Proof.
  split.
  - intros pf p t b full cov s c Henc. simpl. unfold session_mark_read. destruct full; [|done].
    unfold content_digest. by rewrite Henc.
  - intros pf u p s c e. simpl. unfold session_get_valid_state.
    destruct (resolve_file_path pf p) as [q|e0] eqn:E; simpl; [|intros [= <-]; by eapply resolve_plain].
    destruct (read_utf8_text_exact u q s) as [t|[w| | | | | |]]; try (by intros [= <-]).
    + by destruct (be_file_grant _ _ _ _ _).
    + destruct (decide _); [done|by intros [= <-]].
Qed.

(** A resolved path resolves to itself. *)
Definition resolve_stable (pf : platform) : Prop :=
  forall path p, expand_resolve pf path = Ok p -> expand_resolve pf p = Ok p.

(** What the outcome of an edit tells its caller: [WRITE_FAILED] is the result that calls
    the commit uncertain. *)
Definition edit_says (r : res io_error CapabilityResult) : verdict :=
  match r with
  | Ok res =>
      match cr_status res, jget "error_code" (cr_structured res) with
      | OK, _ => Applied
      | _, JStr "WRITE_FAILED" => Uncertain
      | _, _ => NotApplied
      end
  | Raise (ToolExecutionError _ _) => Applied
  | Raise _ => NotApplied
  end.

Lemma edit_failure_says r : cr_status r <> OK -> edit_says (Ok r) <> Applied.
Proof. intros H. unfold edit_says. destruct (cr_status r); [done|..]; by repeat case_match. Qed.

Lemma edit_raise_says e : plain e -> edit_says (Raise e) = NotApplied.
Proof. intros He. destruct e; try done. by destruct (He error_code details). Qed.

Definition all_failed (f : failures) : Prop := forall i x, dget i f = Some x -> cr_status x <> OK.

Lemma all_failed_dset f i x : all_failed f -> cr_status x <> OK -> all_failed (dset i x f).
Proof. intros H Hx j y. rewrite dget_dset. case_decide; [by intros [= <-]|apply H]. Qed.

Lemma all_failed_fold {A} (g : A -> CapabilityResult) (h : A -> Z) (l : list A) f :
  (forall x, cr_status (g x) <> OK) -> all_failed f ->
  all_failed (foldl (fun f x => dset (h x) (g x) f) f l).
Proof. intros Hg. revert f. induction l as [|x l IH]; intros f Hf; simpl; [done|]. by apply IH, all_failed_dset. Qed.

Lemma validation_failures_ok edits : all_failed (validation_failures edits).
Proof.
  intros i x Hx%dget_elem. unfold validation_failures in Hx. apply list_elem_of_bind in Hx as (p & Hx & _).
  destruct (_validate_edit p.2) as [[code msg]|]; [|by apply elem_of_nil in Hx].
  apply list_elem_of_singleton in Hx as [= _ ->]. done.
Qed.

Lemma plan_failure_status content state e x : _plan_exact_edit content state e = inl x -> cr_status x <> OK.
Proof.
  unfold _plan_exact_edit. destruct (_match_offsets _ _); [by intros [= <-]|].
  destruct (_ && _); [by intros [= <-]|]. destruct (negb _); [by intros [= <-]|done].
Qed.

Lemma plan_batch_failures content state edits f0 :
  all_failed f0 -> all_failed (plan_batch content state edits f0).2.
Proof.
  intros H0. unfold plan_batch.
  assert (H1 : all_failed (plan_edits content state edits f0).2).
  { unfold plan_edits.
    assert (Hg : forall todo acc, all_failed acc.2 -> all_failed (foldl (plan_step content state) acc todo).2);
      [|by apply Hg].
    induction todo as [|[i v] todo IH]; intros [rs f] Hf; cbn [foldl]; [done|]. apply IH. unfold plan_step. cbn [fst snd].
    destruct (dget i f); [done|]. destruct (_validate_edit v) as [|e]; [done|].
    destruct (_plan_exact_edit content state e) eqn:Ep; [|done]. cbn [snd].
    apply all_failed_dset; [done|]. by eapply plan_failure_status. }
  destruct (plan_edits content state edits f0) as [planned f1]. cbn [fst snd] in *.
  by apply (all_failed_fold (fun p : Z * list Z => overlap_failure p.2)).
Qed.

Lemma batch_error_status path f : all_failed f -> cr_status (_batch_error path f) <> OK.
Proof.
  intros H. unfold _batch_error. cbn [cr_status edit_err]. destruct (dget _ f) as [x|] eqn:E; [|done]. by eapply H.
Qed.

Section safety.
Context {C : Type} `{LawfulReadCache C}.
Variable unified_diff : string -> text -> text -> text.
Variable exception_report : io_error -> text.

(** The [except] clauses of the commit report what the replacement reported. *)
Lemma edit_commit_failed_says pf path rs f e (c : C) :
  edit_says (edit_commit_failed exception_report pf path rs f e c).2 = swap_says (Raise e).
Proof. by destruct e. Qed.

Lemma edit_authorized_ok pf ev path resolved edits f0 state s c s' c' r :
  expand_resolve pf resolved = Ok resolved -> private_temp ev resolved s -> all_failed f0 ->
  edit_authorized unified_diff exception_report pf ev path resolved edits f0 state s c = (s', (c', r)) ->
  (edit_says r <> Applied /\ not_applied ev s s') \/
  (edit_says r <> NotApplied /\ (edit_says r = Uncertain -> late_failure ev = true) /\
   let rs := (plan_batch (fs_content state) state edits f0).1 in
   rs <> [] /\
   applied ev resolved (Some (fs_content state)) (apply_replacements (fs_content state) 0 rs) s s').
Proof.
  intros Hres Hpriv Hf0. unfold edit_authorized.
  pose proof (plan_batch_failures (fs_content state) state edits f0 Hf0) as Hf.
  destruct (plan_batch (fs_content state) state edits f0) as [rs f]. cbn [fst snd] in *.
  assert (Hstatus : forall g, all_failed g -> edit_says (Ok (_batch_error path g)) <> Applied)
    by (intros g Hg; by apply edit_failure_says, batch_error_status).
  destruct (bool_decide (rs = [])) eqn:E1.
  { intros [= <- <- <-]. left. split; [by apply Hstatus|apply not_applied_refl]. }
  apply bool_decide_eq_false in E1.
  destruct (bool_decide (apply_replacements _ 0 rs = _)) eqn:E2.
  { intros [= <- <- <-]. left. split; [|apply not_applied_refl].
    apply Hstatus. by apply (all_failed_fold (fun _ : Z => no_change_failure)). }
  pose proof (swap_in_place pf ev resolved (Some (fs_content state))
    (apply_replacements (fs_content state) 0 rs) s Hres Hpriv) as Hb. cbv zeta in Hb.
  destruct (atomic_compare_and_swap_utf8 _ _ _ _ _ _ s) as [s1 [u1|e]]; cbn [fst snd] in Hb.
  - destruct Hb as [[Hr _]|(_ & _ & Ha)]; [by destruct Hr|]. pose proof Ha as (data & Henc & _).
    pose proof (lc_mark_read pf resolved _ data true [] s1 c Henc) as Hm.
    destruct (rc_mark_read pf resolved _ true [] s1 c) as [c1 rm]. simpl in Hm. subst rm.
    assert (Hok : forall old new,
      edit_says (Ok (edit_success unified_diff pf resolved state edits old new rs f)) = Applied).
    { intros old new. unfold edit_says, edit_success. by destruct (edit_report _ _ _). }
    intros [= <- <- <-]. right. rewrite Hok. by split_and!.
  - intros [= <- Hc]. pose proof (edit_commit_failed_says pf path rs f e c) as Hsay. rewrite Hc in Hsay.
    cbn [snd] in Hsay. rewrite Hsay. destruct Hb as [[? ?]|(? & ? & ?)]; [by left|right]. by split_and!.
Qed.

End safety.

Definition demo_cache : FileStateCache := cache_mark_read demo_platform "/d/f" (lit "old") true [] demo_fs (new_cache 4).
Definition demo_edit_args : obj :=
  [("file_path", JStr "/d/f");
   ("edits", JList [JObj [("old_string", JStr "ol"); ("new_string", JStr "gol")]])].
Definition demo_edit : fs * (FileStateCache * res io_error CapabilityResult) :=
  FileEditTool_invoke (fun _ _ _ => []) (fun _ => []) demo_platform demo_env false demo_edit_args demo_fs demo_cache.


(** The lock file cannot be closed after the commit: the edit is in place, and the result
    calls it uncertain. *)
Definition late_edit : fs * (FileStateCache * res io_error CapabilityResult) :=
  FileEditTool_invoke (fun _ _ _ => []) (fun _ => []) demo_platform late_env false demo_edit_args demo_fs demo_cache.

Example late_edit_is_uncertain :
  edit_says late_edit.2.2 = Uncertain /\ read_utf8_text_exact false "/d/f" late_edit.1 = Ok (lit "gold").
Proof. by vm_compute. Qed.
