(* ===== verification/FileWrite.v ===== *)
(** * Whole-file writes

    [_file_core/file_write.py]: a missing file is created, an existing one is replaced
    only by a caller who has read all of its current content.  The rendering of diffs
    and of exceptions are arguments, as in the edit tool. *)

From S2P Require Import Prelude Dict Utf8 Sha256 PyValue JsonText Ranges TextLines FileSystem Contracts.
From S2P Require Import SessionData SessionState FileCache FileEdit EditSafety.
Open Scope Z_scope.

Definition MAX_CONTENT_BYTES : Z := 1000000.

Definition ERR_FILE_NOT_FOUND : string := "FILE_NOT_FOUND".
Definition ERR_MISSING_CONTENT : string := "MISSING_CONTENT".
Definition ERR_MISSING_FILE_PATH : string := "MISSING_FILE_PATH".
Definition ERR_NOT_A_FILE : string := "NOT_A_FILE".
Definition ERR_PARENT_NOT_DIRECTORY : string := "PARENT_NOT_DIRECTORY".
Definition ERR_BINARY_CONTENT : string := "BINARY_CONTENT".
Definition ERR_CONTENT_TOO_LARGE : string := "CONTENT_TOO_LARGE".
Definition ERR_WRITE_FAILED : string := "WRITE_FAILED".
Definition ERR_READ_FAILED : string := "READ_FAILED".

Definition write_message (code : string) : text :=
  lit (default "" (dget code
    [(ERR_FILE_NOT_FOUND, "The specified file does not exist.");
     (ERR_MISSING_CONTENT, "content is required and must be a string.");
     (ERR_MISSING_FILE_PATH, "file_path is required.");
     (ERR_NOT_A_FILE, "The specified path is not a regular file.");
     (ERR_NOT_READ, "File has not been read yet. Read the complete file first before overwriting it.");
     (ERR_PARTIAL_READ, "Only part of the file was read. Read the complete file before overwriting it.");
     ("PARENT_DIR_NOT_FOUND", "The parent directory does not exist.");
     (ERR_PARENT_NOT_DIRECTORY, "The parent path exists but is not a directory.");
     (ERR_STALE_FILE, "The current file version could not be confirmed against the read snapshot. Read it again before writing.");
     (ERR_BINARY_CONTENT, "Content contains binary data (NUL bytes). Only UTF-8 text is supported.");
     (ERR_CONTENT_TOO_LARGE, "Content exceeds the maximum allowed size of 1000000 bytes.");
     (ERR_WRITE_FAILED, "Failed to write file.");
     (ERR_READ_FAILED, "Could not read the file before writing.")])).

Section write_tool.
Context {C : Type} `{ReadCache C}.
Variable unified_diff : string -> text -> text -> text.
Variable exception_report : io_error -> text.
Variable diagnostic_text : text -> text.

Definition write_err (status : RuntimeStatus) (code : string) (receipt : option EffectReceipt)
    (details : option text) (commit_uncertain : bool) (structured : obj) : CapabilityResult :=
  let extra := match details with Some d => [("details", jtext d)] | None => [] end ++
               (if commit_uncertain then [("commit_uncertain", JBool true)] else []) in
  let payload := dupdate [("error_code", JStr code)] (structured ++ extra) in
  let cause := match details with
               | Some [] | None => []
               | Some d => newline ++ lit "Cause: " ++ diagnostic_text d
               end in
  let uncertain := if commit_uncertain
    then newline ++ lit "The replacement may have committed before persistence failed. Read the current file before retrying."
    else [] in
  Result status (write_message code ++ cause ++ uncertain) payload receipt [] None.

Definition _validate_content (content : text) : res io_error (option CapabilityResult) :=
  if bool_decide (0 ∈ content) then Ok (Some (write_err INVALID ERR_BINARY_CONTENT None None false []))
  else
    match utf8_encode content with
    | None => Raise UnicodeError
    | Some data =>
        if MAX_CONTENT_BYTES <? zlen data
        then Ok (Some (write_err INVALID ERR_CONTENT_TOO_LARGE None None false
               [("content_bytes", JInt (zlen data)); ("max_bytes", JInt MAX_CONTENT_BYTES)]))
        else Ok None
    end.

Definition _parent_creation_receipt (parent : string) (attempted : bool) : option EffectReceipt :=
  if attempted then Some (Receipt UNKNOWN [("parent_creation_attempted", JStr parent)]) else None.

Definition write_manifest (resolved : string) (content old_content : text) (created : bool)
    (parent_result_ids : list string) (text_length : Z) : FileDeliveryManifest :=
  let total_lines := count_text_lines content in
  let proof_length := Z.max 1 text_length in
  Manifest resolved (default "" (content_digest content)) total_lines
    (if 0 <? total_lines then [Span 0 proof_length 1 total_lines 0 proof_length proof_length] else [])
    (bool_decide (content = [])) EMPTY_MARKER "" "write"
    (if created then "" else default "" (content_digest old_content)) [] parent_result_ids true [].

Definition write_ok (resolved : string) (content old_content : text) (created : bool)
    (parent_result_ids : list string) : CapabilityResult :=
  let bytes_written := zlen (default [] (utf8_encode content)) in
  let patch := unified_diff resolved old_content content in
  let t := lit (if created then "Created " else "Updated ") ++ string_text resolved ++ lit " (" ++
           zshow bytes_written ++ lit " bytes)" in
  Result OK t
    [("file_path", JStr resolved); ("bytes_written", JInt bytes_written); ("created", JBool created);
     ("encoding", JStr "utf-8"); ("operation", JStr (if created then "create" else "update")); ("patch", jtext patch)]
    None [] (Some (manifest_to_dict (write_manifest resolved content old_content created parent_result_ids (zlen t)))).

Definition _require_current_snapshot (pf : platform) (unreadable : bool) (resolved : string) (s : fs) (c : C)
    : C * res io_error (CapabilityResult + FileState) :=
  let fail status code details := Ok (inl (write_err status code None details false [("file_path", JStr resolved)])) in
  if negb (path_exists s resolved) then (c, fail ERROR ERR_FILE_NOT_FOUND None)
  else if negb (is_file s resolved) then (c, fail ERROR ERR_NOT_A_FILE None)
  else
    let had_record := rc_contains pf resolved c in
    match rc_get_valid_state pf unreadable resolved s c with
    | (c, Raise FileSnapshotReadError) => (c, fail ERROR ERR_READ_FAILED (Some (exception_report FileSnapshotReadError)))
    | (c, Raise e) => (c, Raise e)
    | (c, Ok None) => (c, fail FORBIDDEN (if had_record then ERR_STALE_FILE else ERR_NOT_READ) None)
    | (c, Ok (Some state)) =>
        if negb (fs_full_view state) then (c, fail FORBIDDEN ERR_PARTIAL_READ None) else (c, Ok (inr state))
    end.

(** [mark_read] and the result after a commit. *)
Definition write_committed (pf : platform) (resolved : string) (content old_content : text) (created : bool)
    (parents : list string) (s : fs) (c : C) : C * res io_error CapabilityResult :=
  let '(c', r) := rc_mark_read pf resolved content true [] s c in
  (c', match r with Ok _ => Ok (write_ok resolved content old_content created parents) | Raise e => Raise e end).

Definition _overwrite (pf : platform) (ev : swap_env) (unreadable : bool) (resolved : string) (content : text)
    (s : fs) (c : C) : fs * (C * res io_error CapabilityResult) :=
  match _require_current_snapshot pf unreadable resolved s c with
  | (c, Raise e) => (s, (c, Raise e))
  | (c, Ok (inl failure)) => (s, (c, Ok failure))
  | (c, Ok (inr cached)) =>
      match atomic_compare_and_swap_utf8 pf ev resolved (Some (fs_content cached)) content false s with
      | (s', Ok _) => (s', write_committed pf resolved content (fs_content cached) false
                             (fs_authority_result_ids cached) s' c)
      | (s', Raise (FileContentChangedError w)) =>
          (s', (rc_invalidate pf resolved c,
                Ok (write_err FORBIDDEN ERR_STALE_FILE None (Some (exception_report (FileContentChangedError w)))
                      false [("file_path", JStr resolved)])))
      | (s', Raise (OSError w)) =>
          (s', (c, Ok (write_err ERROR ERR_WRITE_FAILED None (Some (exception_report (OSError w))) true
                         [("file_path", JStr resolved)])))
      | (s', Raise e) => (s', (c, Raise e))
      end
  end.

(** The parent directory is created when it is missing. *)
Definition create_parent (mkdir_fails : bool) (parent : string) (s : fs) : fs * res io_error bool :=
  if path_exists s parent then (s, Ok false)
  else if mkdir_fails then (s, Raise (OSError "mkdir"))
  else match mkdir_parents (String.length parent) parent s with
       | (s', Ok _) => (s', Ok true)
       | (s', Raise e) => (s', Raise e)
       end.

Definition _create (pf : platform) (ev : swap_env) (unreadable parent_mkdir_fails : bool) (resolved : string)
    (content : text) (s : fs) (c : C) : fs * (C * res io_error CapabilityResult) :=
  if path_exists s resolved then _overwrite pf ev unreadable resolved content s c
  else
    let parent := parent_dir resolved in
    match create_parent parent_mkdir_fails parent s with
    | (s, Raise e) =>
        (s, (c, Ok (write_err ERROR ERR_WRITE_FAILED None (Some (exception_report e)) false [("file_path", JStr resolved)])))
    | (s, Ok attempted) =>
        if negb (is_dir s parent) then
          (s, (c, Ok (write_err INVALID ERR_PARENT_NOT_DIRECTORY (_parent_creation_receipt parent attempted) None false
                        [("file_path", JStr resolved)])))
        else
          match atomic_compare_and_swap_utf8 pf ev resolved None content true s with
          | (s', Ok _) => (s', write_committed pf resolved content [] true [] s' c)
          | (s', Raise (FileContentChangedError w)) =>
              (s', (c, Ok (write_err FORBIDDEN ERR_STALE_FILE (_parent_creation_receipt parent attempted)
                             (Some (exception_report (FileContentChangedError w))) false [("file_path", JStr resolved)])))
          | (s', Raise (OSError w)) =>
              (s', (c, Ok (write_err ERROR ERR_WRITE_FAILED None (Some (exception_report (OSError w))) true
                             [("file_path", JStr resolved)])))
          | (s', Raise e) => (s', (c, Raise e))
          end
    end.

Definition FileWriteTool_invoke (pf : platform) (ev : swap_env) (unreadable parent_mkdir_fails : bool) (args : obj)
    (s : fs) (c : C) : fs * (C * res io_error CapabilityResult) :=
  let file_path := strip (get_str "file_path" args) in
  if negb (str_truthy file_path) then (s, (c, Ok (write_err INVALID ERR_MISSING_FILE_PATH None None false [])))
  else
    match jget "content" args with
    | JStr raw =>
        let content := string_text raw in
        match _validate_content content with
        | Raise e => (s, (c, Raise e))
        | Ok (Some failure) => (s, (c, Ok failure))
        | Ok None =>
            match resolve_file_path pf file_path with
            | Raise PathRuntimeError => (s, (c, Raise PathRuntimeError))
            | Raise e =>
                (s, (c, Ok (write_err INVALID ERR_WRITE_FAILED None (Some (exception_report e)) false
                              [("file_path", JStr file_path)])))
            | Ok resolved =>
                if path_exists s resolved then _overwrite pf ev unreadable resolved content s c
                else _create pf ev unreadable parent_mkdir_fails resolved content s c
            end
        end
    | _ => (s, (c, Ok (write_err INVALID ERR_MISSING_CONTENT None None false [("file_path", JStr file_path)])))
    end.

End write_tool.

(** ** What a write does *)

(** Parents may have been created, nothing else. *)
Definition not_applied_dirs (ev : swap_env) (s s' : fs) : Prop :=
  exists s0, adds_directories s s0 /\ not_applied ev s0 s'.

Lemma not_applied_dirs_refl ev s : not_applied_dirs ev s s.
Proof. exists s. split; [reflexivity|apply not_applied_refl]. Qed.

(** The file systems in which the temporary file of a write is created. *)
Definition create_base (mkdir_fails : bool) (ev : swap_env) (resolved : string) (s : fs) : fs :=
  (prepare_parent ev (parent_dir resolved) true (create_parent mkdir_fails (parent_dir resolved) s).1).1.

Lemma create_parent_adds b parent s : adds_directories s (create_parent b parent s).1.
Proof.
  unfold create_parent. destruct (path_exists s parent); [reflexivity|]. destruct b; [reflexivity|].
  pose proof (mkdir_adds_directories (String.length parent) parent s) as Hm.
  by destruct (mkdir_parents _ _ s) as [s1 []].
Qed.

(** What the outcome of a write tells its caller: a result with [commit_uncertain] leaves it
    open whether the file was replaced. *)
Definition write_says (r : res io_error CapabilityResult) : verdict :=
  match r with
  | Ok res =>
      match cr_status res, jget "commit_uncertain" (cr_structured res) with
      | OK, _ => Applied
      | _, JBool true => Uncertain
      | _, _ => NotApplied
      end
  | Raise (ToolExecutionError _ _) => Applied
  | Raise _ => NotApplied
  end.

Lemma write_failure_says r : cr_status r <> OK -> write_says (Ok r) <> Applied.
Proof. intros H. unfold write_says. destruct (cr_status r); [done|..]; by repeat case_match. Qed.

Lemma write_raise_says e : plain e -> write_says (Raise e) = NotApplied.
Proof. intros He. destruct e; try done. by destruct (He error_code details). Qed.

Section write_safety.
Context {C : Type} `{LawfulReadCache C}.
Variable unified_diff : string -> text -> text -> text.
Variable exception_report : io_error -> text.
Variable diagnostic_text : text -> text.

Lemma write_committed_ok pf resolved content data old created parents s (c : C) :
  utf8_encode content = Some data ->
  write_says (write_committed unified_diff pf resolved content old created parents s c).2 = Applied.
Proof.
  intros Henc. unfold write_committed. pose proof (lc_mark_read pf resolved content data true [] s c Henc) as Hm.
  destruct (rc_mark_read _ _ _ _ _ _ _) as [c1 r]. simpl in Hm. by subst r.
Qed.

Lemma require_snapshot_failure pf u resolved s (c c1 : C) r :
  _require_current_snapshot exception_report diagnostic_text pf u resolved s c = (c1, r) ->
  match r with
  | Raise e => plain e
  | Ok (inl x) => cr_status x <> OK
  | Ok (inr st) => fs_full_view st = true /\ (rc_get_valid_state pf u resolved s c).2 = Ok (Some st)
  end.
Proof.
  unfold _require_current_snapshot. destruct (negb (path_exists s resolved)); [by intros [= <- <-]|].
  destruct (negb (is_file s resolved)); [by intros [= <- <-]|].
  pose proof (lc_get_plain pf u resolved s c) as Hp.
  destruct (rc_get_valid_state pf u resolved s c) as [c2 [[st|]|e]] eqn:Ev.
  - destruct (negb (fs_full_view st)) eqn:Ef; intros [= <- <-]; [done|]. by apply negb_false_iff in Ef.
  - by intros [= <- <-].
  - specialize (Hp e eq_refl). destruct e; intros [= <- <-]; done.
Qed.

Lemma overwrite_ok pf ev u resolved content s (c : C) s' c' r :
  expand_resolve pf resolved = Ok resolved -> private_temp ev resolved s ->
  _overwrite unified_diff exception_report diagnostic_text pf ev u resolved content s c = (s', (c', r)) ->
  (write_says r <> Applied /\ not_applied ev s s') \/
  (write_says r <> NotApplied /\ (write_says r = Uncertain -> late_failure ev = true) /\
   exists state, (rc_get_valid_state pf u resolved s c).2 = Ok (Some state) /\
     fs_full_view state = true /\ applied ev resolved (Some (fs_content state)) content s s').
Proof.
  intros Hres Hp. unfold _overwrite.
  destruct (_require_current_snapshot _ _ pf u resolved s c) as [c1 rq] eqn:Erq.
  apply require_snapshot_failure in Erq. destruct rq as [[x|st]|e].
  - intros [= <- <- <-]. left. split; [by apply write_failure_says|apply not_applied_refl].
  - destruct Erq as [Hfull Hst].
    pose proof (swap_in_place pf ev resolved (Some (fs_content st)) content s Hres Hp) as Hs. cbv zeta in Hs.
    destruct (atomic_compare_and_swap_utf8 _ _ _ _ _ _ s) as [s1 [u1|e]]; cbn [fst snd] in Hs.
    + destruct Hs as [[Hr _]|(_ & _ & Ha)]; [by destruct Hr|]. pose proof Ha as (data & Henc & _).
      pose proof (write_committed_ok pf resolved content data (fs_content st) false (fs_authority_result_ids st)
        s1 c1 Henc) as Hw.
      intros [= <- Hc]. rewrite Hc in Hw. cbn [snd] in Hw. right. rewrite Hw. split_and!; [done..|by exists st].
    + intros E. assert (Hsay : write_says r = swap_says (Raise e) /\ s' = s1)
        by (destruct e; by injection E as <- <- <-).
      destruct Hsay as [-> ->]. destruct Hs as [[? ?]|(? & ? & ?)]; [by left|right]. split_and!; [done..|by exists st].
  - intros [= <- <- <-]. left. split; [by rewrite write_raise_says|apply not_applied_refl].
Qed.

Lemma create_ok pf ev u b resolved content s (c : C) s' c' r :
  expand_resolve pf resolved = Ok resolved -> dget resolved (nodes s) = None ->
  private_temp ev resolved (create_base b ev resolved s) ->
  _create unified_diff exception_report diagnostic_text pf ev u b resolved content s c = (s', (c', r)) ->
  (write_says r <> Applied /\ not_applied_dirs ev s s') \/
  (write_says r <> NotApplied /\ (write_says r = Uncertain -> late_failure ev = true) /\
   exists s0, adds_directories s s0 /\ applied ev resolved None content s0 s').
Proof.
  intros Hres Hnone Hp. unfold _create, path_exists. rewrite (proj2 (dmem_false _ _) Hnone).
  pose proof (create_parent_adds b (parent_dir resolved) s) as Hadd. unfold create_base in Hp.
  destruct (create_parent b (parent_dir resolved) s) as [s1 [att|e]]; cbn [fst] in *.
  2:{ intros [= <- <- <-]. left. split; [done|]. exists s1. split; [done|apply not_applied_refl]. }
  destruct (negb (is_dir s1 (parent_dir resolved))).
  { intros [= <- <- <-]. left. split; [done|]. exists s1. split; [done|apply not_applied_refl]. }
  assert (Hr : resolve_file_path pf resolved = Ok resolved) by (unfold resolve_file_path; by rewrite Hres).
  destruct (swap_spec pf ev resolved resolved None content true s1 Hr Hp) as (s2 & H2 & Hs). cbv zeta in Hs.
  assert (Hadd2 : adds_directories s s2).
  { destruct H2 as [->| ->]; [done|]. etransitivity; [done|apply prepare_parent_adds]. }
  destruct (atomic_compare_and_swap_utf8 _ _ _ _ _ _ s1) as [s3 [u1|e]]; cbn [fst snd] in Hs.
  - destruct Hs as [[Hn _]|(_ & _ & Ha)]; [by destruct Hn|]. pose proof Ha as (data & Henc & _).
    pose proof (write_committed_ok pf resolved content data [] true [] s3 c Henc) as Hw.
    intros [= <- Hc]. rewrite Hc in Hw. cbn [snd] in Hw. right. rewrite Hw. split_and!; [done..|by exists s2].
  - intros E. assert (Hsay : write_says r = swap_says (Raise e) /\ s' = s3)
      by (destruct e; by injection E as <- <- <-).
    destruct Hsay as [-> ->]. destruct Hs as [[? ?]|(? & ? & ?)].
    + left. split; [done|by exists s2].
    + right. split_and!; [done..|by exists s2].
Qed.

End write_safety.

Definition demo_write_args : obj := [("file_path", JStr "/d/g"); ("content", JStr "hi")].
Definition demo_write : fs * (FileStateCache * res io_error CapabilityResult) :=
  FileWriteTool_invoke (fun _ _ _ => []) (fun _ => []) (fun t => t) demo_platform demo_env false false demo_write_args
    demo_fs (new_cache 4).

