(* ===== verification/FileRead.v ===== *)
(** * Structured reads

    [_file_core/file_read.py]: a read returns numbered lines of the exact content on disk
    and a manifest whose spans point at the lines in the returned text.  Blocks the
    caller already holds are suppressed. *)

From S2P Require Import Prelude Dict Utf8 Sha256 PyValue JsonText Ranges TextLines FileSystem Contracts.
From S2P Require Import SessionData SessionState FileCache FileEdit.
Open Scope Z_scope.

Definition DEFAULT_LIMIT : Z := 2000.
Definition ERR_INVALID_ARGUMENT : string := "INVALID_ARGUMENT".
Definition ERR_UNSUPPORTED_TEXT_ENCODING : string := "UNSUPPORTED_TEXT_ENCODING".
Definition ENCODING_MESSAGE : text :=
  lit "The file could not be decoded as UTF-8 text. Binary files, images, and PDFs are not supported by read_file. Use import_artifact with the local path to attach an image or process a document. For a channel-delivered artifact, use inspect_artifact_info to inspect its representations; inspect image pixels only when the image is already inline and the active model supports vision.".
Definition FILE_UNCHANGED_STUB : text :=
  lit "File unchanged; this line range is already available in the current context.".
Definition UTF8_BOM : Z := 65279.
Definition UTF8_BOM_NOTICE : text := lit "(UTF-8 BOM present; preserved by read_file/edit_file)".

(** ** Which lines the caller has already seen *)

Class VisibilityCache (V : Type) := {
  vc_covers : platform -> string -> string -> string -> Z -> Z -> V -> V * bool;
  vc_mark_visible : platform -> string -> string -> string -> Z -> Z -> V -> V
}.

Record _VisibleFile := VisibleFile { vf_version : string; vf_covered_ranges : list range }.

Record FileVisibilityCache := VisCache { vs_max : Z; vs_entries : dict (string * string) _VisibleFile }.

Fixpoint evict_visible (max : Z) (c : dict (string * string) _VisibleFile) : dict (string * string) _VisibleFile :=
  match c with
  | [] => []
  | _ :: rest => if max <? zlen c then evict_visible max rest else c
  end.

Definition visibility_covers (pf : platform) (scope file_path version : string) (start_line end_line : Z)
    (c : FileVisibilityCache) : FileVisibilityCache * bool :=
  if negb (str_truthy scope) || (end_line <? start_line) then (c, false)
  else
    let key := (scope, file_cache_key pf file_path) in
    match dget key (vs_entries c) with
    | None => (c, false)
    | Some entry =>
        if bool_decide (vf_version entry <> version)
        then (VisCache (vs_max c) (ddel key (vs_entries c)), false)
        else (VisCache (vs_max c) (dmove_to_end key (vs_entries c)),
              any_contains start_line end_line (vf_covered_ranges entry))
    end.

Definition mark_visible (pf : platform) (scope file_path version : string) (start_line end_line : Z)
    (c : FileVisibilityCache) : FileVisibilityCache :=
  if negb (str_truthy scope) || (end_line <? start_line) then c
  else
    let key := (scope, file_cache_key pf file_path) in
    let ranges := match dget key (vs_entries c) with
                  | Some entry => if decide (vf_version entry = version) then vf_covered_ranges entry else []
                  | None => []
                  end in
    let merged := merge_sorted 1 (merge_sort range_le (ranges ++ [(start_line, end_line)])) in
    VisCache (vs_max c)
      (evict_visible (vs_max c) (dmove_to_end key (dset key (VisibleFile version merged) (vs_entries c)))).

(** The two caches of a stand-alone read tool. *)
#[export] Instance pair_read_cache : ReadCache (FileStateCache * FileVisibilityCache) := {|
  rc_contains := fun pf p c => cache_contains pf p c.1;
  rc_get_valid_state := fun pf _ p s c =>
    let '(c', st) := cache_get_valid_state pf p s c.1 in ((c', c.2), Ok st);
  rc_mark_read := fun pf p t full cov s c => ((cache_mark_read pf p t full cov s c.1, c.2), Ok tt);
  rc_invalidate := fun pf p c => (cache_invalidate pf p c.1, c.2);
  rc_retire_if_changed := fun _ _ _ c => (c, false);
  rc_len := fun c => cache_len c.1
|}.
#[export] Instance pair_visibility_cache : VisibilityCache (FileStateCache * FileVisibilityCache) := {|
  vc_covers := fun pf scope p v a b c => let '(c', r) := visibility_covers pf scope p v a b c.2 in ((c.1, c'), r);
  vc_mark_visible := fun pf scope p v a b c => (c.1, mark_visible pf scope p v a b c.2)
|}.

(** [SessionFileVisibilityCache]: what the session store grants.  It holds the backend,
    context and visible results of the session cache beside it, so both are one state. *)
Section session_visibility.
Context {B : Type} `{LogicalExecutionStateBackend B}.

Definition session_covers (pf : platform) (scope file_path version : string) (start_line end_line : Z)
    (c : SessionFileStateCache B) : bool :=
  match be_file_grant (sc_backend c) (sc_lifetime c) (file_cache_key pf file_path) version
          (sc_visible_result_ids c) with
  | None => false
  | Some g =>
      if gr_total_lines g =? 0 then gr_empty_file g else any_contains start_line end_line (gr_covered_ranges g)
  end.

#[export] Instance session_visibility_cache : VisibilityCache (SessionFileStateCache B) := {|
  vc_covers := fun pf scope path version a b c => (c, session_covers pf scope path version a b c);
  vc_mark_visible := fun _ _ _ _ _ _ c => c
|}.
End session_visibility.

(** ** Arguments *)

Definition _positive_int (v : json) (dflt : Z) : option Z :=
  match v with
  | JNull => Some dflt
  | JBool _ => None
  | _ =>
      match v with
      | JStr EmptyString => Some dflt
      | _ => match py_int v with Ok n => if n <? 1 then None else Some n | Raise _ => None end
      end
  end.

Definition block_of (item : json) : option (option Z * option Z) :=
  match item with
  | JObj d => Some (_positive_int (jget "offset" d) 1, _positive_int (jget "limit" d) DEFAULT_LIMIT)
  | _ => None
  end.

Definition bad_block (item : json) : option string :=
  match block_of item with
  | None => Some "each ranges entry must be an object with offset and limit."
  | Some (Some _, Some _) => None
  | Some _ => Some "each ranges entry needs positive integer offset and limit."
  end.

Fixpoint first_some {A B} (f : A -> option B) (l : list A) : option B :=
  match l with
  | [] => None
  | x :: l => match f x with Some y => Some y | None => first_some f l end
  end.

Definition _validate_requested_blocks (args : obj) : option string :=
  match jget "ranges" args with
  | JNull => None
  | JStr EmptyString => None
  | JList (item :: items) => first_some bad_block (item :: items)
  | _ => Some "ranges must be a non-empty list of {offset, limit} blocks."
  end.

Definition _used_explicit_ranges (args : obj) : bool :=
  match jget "ranges" args with JList (_ :: _) => true | _ => false end.

Definition _requested_blocks (args : obj) (default_offset default_limit : Z) : list range :=
  match jget "ranges" args with
  | JList (item :: items) =>
      let blocks := (item :: items) ≫= (fun v =>
        match block_of v with Some (Some o, Some l) => [(o, l)] | _ => [] end) in
      match blocks with [] => [(default_offset, default_limit)] | _ => blocks end
  | _ => [(default_offset, default_limit)]
  end.

Definition _blocks_cover_full_file (normalized : list range) (total_lines : Z) : bool :=
  if total_lines =? 0 then true
  else
    match merge_sorted 1 (merge_sort range_le normalized) with
    | [(a, b)] => (a <=? 1) && (total_lines <=? b)
    | _ => false
    end.

(** ** Rendering *)

Definition pad6 (n : Z) : text :=
  let digits := zshow n in repeat 32 (6 - length digits) ++ digits.

Definition strip_bom (i : Z) (line : text) : text :=
  match line with
  | c :: rest => if (i =? 1) && (c =? UTF8_BOM) then rest else line
  | [] => []
  end.

(** [(body, ending)] with the ending CRLF, CR, LF or none. *)
Definition split_ending (line : text) : text * text :=
  match reverse line with
  | 10 :: 13 :: rest => (reverse rest, [13; 10])
  | c :: rest => if (c =? 10) || (c =? 13) then (reverse rest, [c]) else (line, [])
  | [] => ([], [])
  end.

Definition line_body (i : Z) (line : text) : text := (split_ending (strip_bom i line)).1.
Definition line_ending (i : Z) (line : text) : text := (split_ending (strip_bom i line)).2.
Definition rendered_line (i : Z) (line : text) : text := pad6 i ++ [9] ++ line_body i line.

(** The loop over the lines of a block: text and spans, from [cursor] and line [i]. *)
Fixpoint render_lines (cursor i fin : Z) (lines : list text) : text * list FileDeliverySpan :=
  match lines with
  | [] => ([], [])
  | line :: lines =>
      let r := rendered_line i line in
      let e := line_ending i line in
      let span := Span cursor (cursor + zlen r) i i 0 (zlen r) (zlen r) in
      let '(t, spans) := render_lines (cursor + zlen r + zlen e) (i + 1) fin lines in
      (r ++ (if i <? fin then e else []) ++ t, span :: spans)
  end.

Definition rule : text := [9472; 9472; 9472; 9472].
Definition blank : text := [10; 10].
Definition line_span_text (a b : Z) : text := lit "lines " ++ zshow a ++ lit "-" ++ zshow b.
Definition header_of (multi : bool) (a b total : Z) : text :=
  if multi then rule ++ lit " " ++ line_span_text a b ++ lit " of " ++ zshow total ++ lit " " ++ rule else [].
Definition unchanged_header (a b : Z) : text :=
  rule ++ lit " " ++ line_span_text a b ++ lit " unchanged; already delivered " ++ rule.

Definition summary (a b : Z) (truncated unchanged : bool) : json :=
  JObj [("start_line", JInt a); ("end_line", JInt b); ("truncated", JBool truncated); ("unchanged", JBool unchanged)].

Record rendering := Rendering {
  rd_blocks : list text;
  rd_spans : list FileDeliverySpan;
  rd_summary : list json;
  rd_truncated : bool
}.

Definition block_cursor (notice : text) (blocks : list text) : Z :=
  zlen notice + (match blocks with [] => 0 | _ => zlen (join_text blank blocks) + 2 end).

Definition render_block (notice : text) (multi : bool) (lines : list text) (rd : rendering) (p : range * bool) : rendering :=
  let '((a, b), already_visible) := p in
  let total := zlen lines in
  if already_visible && multi then
    Rendering (rd_blocks rd ++ [unchanged_header a b]) (rd_spans rd)
      (rd_summary rd ++ [summary a b false true]) (rd_truncated rd)
  else
    let header := header_of multi a b total in
    let head := match header with [] => [] | _ => header ++ newline end in
    let selected := take (Z.to_nat (b - (a - 1))) (drop (Z.to_nat (a - 1)) lines) in
    let '(t, spans) := render_lines (block_cursor notice (rd_blocks rd) + zlen head) a b selected in
    let truncated := b <? total in
    let more := if truncated then blank ++ lit "... (" ++ zshow (total - b) ++ lit " more lines below)" else [] in
    Rendering (rd_blocks rd ++ [head ++ t ++ more]) (rd_spans rd ++ spans)
      (rd_summary rd ++ [summary a b truncated false]) (rd_truncated rd || truncated).

Definition render_blocks (notice : text) (multi : bool) (lines : list text) (blocks : list (range * bool)) : rendering :=
  foldl (render_block notice multi lines) (Rendering [] [] [] false) blocks.

(** [(start, end)] for the blocks inside the file, the others are skipped. *)
Definition normalize_block (total_lines : Z) (block : range) : range + Z :=
  let start := Z.max 1 block.1 in
  if total_lines <? start then inr block.1 else inl (start, Z.min (start + block.2 - 1) total_lines).

Definition kept_blocks (total_lines : Z) (blocks : list range) : list range :=
  blocks ≫= (fun b => match normalize_block total_lines b with inl r => [r] | inr _ => [] end).
Definition skipped_blocks (total_lines : Z) (blocks : list range) : list Z :=
  blocks ≫= (fun b => match normalize_block total_lines b with inl _ => [] | inr o => [o] end).
Definition skipped_json (total_lines offset : Z) : json :=
  JObj [("start_line", JInt offset); ("end_line", JInt total_lines); ("truncated", JBool false);
        ("unchanged", JBool false); ("beyond_eof", JBool true)].
Definition skipped_text (offset : Z) : text :=
  lit "(block starting at line " ++ zshow offset ++ lit " is beyond end of file)".

Definition read_notice (raw : text) (normalized : list range) : text :=
  (match raw, normalized with
   | c :: _, (1, _) :: _ => if c =? UTF8_BOM then UTF8_BOM_NOTICE ++ newline else []
   | _, _ => []
   end) ++
  (if bool_decide (13 ∈ raw)
   then lit "(Line endings are preserved between displayed lines. For edit_file, encode CRLF as \r\n and bare CR as \r in JSON strings; omit line numbers and notices from old_string.)" ++ newline
   else []).

(** The displayed text of a read. *)
Definition read_text (raw : text) (multi : bool) (normalized : list range) (flags : list bool) (skipped : list Z)
    : text * rendering :=
  let notice := read_notice raw normalized in
  let rd := render_blocks notice multi (splitlines raw) (zip normalized flags) in
  let body := notice ++ join_text blank (rd_blocks rd) in
  let tail := match skipped with [] => [] | _ => blank ++ join_text (lit "; ") (skipped_text <$> skipped) end in
  (body ++ tail, rd).

(** ** [FileReadTool.invoke] *)

Definition read_result (status : RuntimeStatus) (t : text) (structured : obj) (delivery : option obj) : CapabilityResult :=
  Result status t structured None [] delivery.

Section read_tool.
Context {C : Type} `{ReadCache C} `{VisibilityCache C}.
Variable exception_report : io_error -> text.

(** [[covers(start, end) for start, end in normalized]] *)
Fixpoint visible_flags (pf : platform) (scope resolved version : string) (blocks : list range) (v : C) : C * list bool :=
  match blocks with
  | [] => (v, [])
  | (a, b) :: blocks =>
      let '(v, flag) := vc_covers pf scope resolved version a b v in
      let '(v, flags) := visible_flags pf scope resolved version blocks v in
      (v, flag :: flags)
  end.

Definition mark_blocks (pf : platform) (scope resolved version : string) (blocks : list (range * bool)) (v : C) : C :=
  foldl (fun v p => if p.2 : bool then v else vc_mark_visible pf scope resolved version p.1.1 p.1.2 v) v blocks.

Definition read_manifest (pf : platform) (resolved version : string) (total_lines : Z) (spans : list FileDeliverySpan)
    (empty : bool) : FileDeliveryManifest :=
  Manifest (file_cache_key pf resolved) version total_lines spans empty EMPTY_MARKER "" "read" "" [] [] false [].

(** The fields every successful read reports. *)
Definition read_fields (resolved : string) (a b total : Z) (truncated full unchanged bom : bool) : obj :=
  [("file_path", JStr resolved); ("start_line", JInt a); ("end_line", JInt b); ("total_lines", JInt total);
   ("truncated", JBool truncated); ("full_view", JBool full); ("unchanged", JBool unchanged);
   ("encoding", JStr "utf-8"); ("utf8_bom", JBool bom)].

Definition has_bom (raw : text) : bool := match raw with c :: _ => c =? UTF8_BOM | [] => false end.

(** From the content on: suppress, or render and prove. *)
Definition read_content (pf : platform) (scope : string) (defer_delivery : bool) (args : obj) (offset : Z)
    (resolved version : string) (raw : text) (normalized : list range) (skipped : list Z) (flags : list bool) (v : C)
    : C * CapabilityResult :=
  let total := count_text_lines raw in
  let first := default (1, 1) (head normalized) in
  let final := default (1, 1) (last normalized) in
  let full := _blocks_cover_full_file normalized total in
  if negb (bool_decide (normalized = [])) && forallb id flags && bool_decide (skipped = []) then
    (v, read_result OK FILE_UNCHANGED_STUB
          (read_fields resolved first.1 final.2 total false full true (has_bom raw)) None)
  else if total =? 0 then
    (v, read_result OK (lit "(empty file)")
          (read_fields resolved 1 0 0 false true false false ++ [("content", JStr "")])
          (Some (manifest_to_dict (read_manifest pf resolved version 0 [] true))))
  else if bool_decide (normalized = []) then
    (v, read_result OK (lit "(file has " ++ zshow total ++ lit " lines; every requested block starts beyond end of file)")
          (read_fields resolved offset total total false false false (has_bom raw) ++
           [("blocks", JList (skipped_json total <$> skipped))]) None)
  else
    let multi := _used_explicit_ranges args in
    let blocks := zip normalized flags in
    let v := if defer_delivery then v else mark_blocks pf scope resolved version blocks v in
    let '(content, rd) := read_text raw multi normalized flags skipped in
    let summaries := rd_summary rd ++ (skipped_json total <$> skipped) in
    (v, read_result OK content
          (read_fields resolved first.1 final.2 total (rd_truncated rd) full false (has_bom raw) ++
           [("content", jtext content)] ++
           (if multi || (1 <? zlen normalized) then [("blocks", JList summaries)] else []))
          (Some (manifest_to_dict (read_manifest pf resolved version total (rd_spans rd) false)))).

Definition FileReadTool_invoke (pf : platform) (scope : string) (defer_delivery unreadable reread_unreadable : bool)
    (args : obj) (s : fs) (c : C) : C * res io_error CapabilityResult :=
  let file_path := strip (py_str (jor (jor (jget "file_path" args) (jget "path" args)) (JStr ""))) in
  match _positive_int (jget "offset" args) 1, _positive_int (jget "limit" args) DEFAULT_LIMIT with
  | Some offset, Some limit =>
      match _validate_requested_blocks args with
      | Some blocks_error => (c, Ok (read_result INVALID (lit blocks_error) [("error_code", JStr ERR_INVALID_ARGUMENT)] None))
      | None =>
          if negb (str_truthy file_path)
          then (c, Ok (read_result INVALID (lit "file_path is required.") [("error_code", JStr "MISSING_FILE_PATH")] None))
          else
            match resolve_file_path pf file_path with
            | Raise e => (c, Raise e)
            | Ok resolved =>
                let at_path := ("file_path", JStr resolved) in
                if negb (path_exists s resolved) then
                  (c, Ok (read_result ERROR (lit "The specified file does not exist.")
                               [("error_code", JStr "FILE_NOT_FOUND"); at_path] None))
                else if negb (is_file s resolved) then
                  (c, Ok (read_result ERROR (lit "Not a regular file: " ++ string_text resolved)
                               [("error_code", JStr "NOT_A_FILE"); at_path] None))
                else
                  match read_utf8_text_exact unreadable resolved s with
                  | Raise UnicodeError =>
                      let d := exception_report UnicodeError in
                      (c, Ok (read_result ERROR (ENCODING_MESSAGE ++ newline ++ d)
                                   [("error_code", JStr ERR_UNSUPPORTED_TEXT_ENCODING); at_path; ("diagnostic", jtext d)] None))
                  | Raise e =>
                      let d := exception_report e in
                      (c, Ok (read_result ERROR (lit "failed to read file:" ++ newline ++ d)
                                   [("error_code", JStr "READ_FAILED"); at_path; ("diagnostic", jtext d)] None))
                  | Ok raw =>
                      let total := count_text_lines raw in
                      let version := default "" (content_digest raw) in
                      let blocks := _requested_blocks args offset limit in
                      match rc_get_valid_state pf reread_unreadable resolved s c with
                      | (c, Raise e) => (c, Raise e)
                      | (c, Ok cached) =>
                          let c := if defer_delivery && bool_decide (cached = None)
                                   then (rc_retire_if_changed pf resolved version c).1 else c in
                          let normalized := kept_blocks total blocks in
                          let skipped := skipped_blocks total blocks in
                          let '(c, flags) := visible_flags pf scope resolved version normalized c in
                          let '(c, marked) :=
                            if defer_delivery then (c, Ok tt)
                            else rc_mark_read pf resolved raw (_blocks_cover_full_file normalized total) normalized s c in
                          match marked with
                          | Raise e => (c, Raise e)
                          | Ok _ =>
                              let '(c, r) := read_content pf scope defer_delivery args offset resolved version raw
                                               normalized skipped flags c in
                              (c, Ok r)
                          end
                      end
                  end
            end
      end
  | _, _ =>
      (c, Ok (read_result INVALID (lit "offset and limit must be positive integers.")
        [("error_code", JStr ERR_INVALID_ARGUMENT); ("offset", jget "offset" args); ("limit", jget "limit" args)] None))
  end.
End read_tool.
