(* ===== verification/ReadSafety.v ===== *)
(** * Theorems of the read tool

    The spans of a read's manifest point at the displayed lines, so the proof of a
    delivery never claims text that is not in the result; output is suppressed only for
    lines the caller holds. *)

From S2P Require Import Prelude Dict Utf8 Sha256 PyValue JsonText Ranges TextLines FileSystem Contracts.
From S2P Require Import SessionData SessionState SessionSafety SessionGrants FileCache FileEdit.
From S2P Require Import EditSafety FileRead.
Open Scope Z_scope.

(** The span shows, in full, the numbered rendering of the line it names. *)
Definition points_at (content : text) (lines : list text) (sp : FileDeliverySpan) : Prop :=
  exists line, 1 <= sp_start_line sp /\ lines !! Z.to_nat (sp_start_line sp - 1) = Some line /\
    sp_end_line sp = sp_start_line sp /\ sp_visible_start_in_line sp = 0 /\
    sp_visible_end_in_line sp = sp_line_length sp /\ sp_line_length sp = sp_end_offset sp - sp_start_offset sp /\
    slice_text content (sp_start_offset sp) (sp_end_offset sp) = rendered_line (sp_start_line sp) line.

Lemma slice_mid (P r X : text) c : zlen P = c -> slice_text (P ++ r ++ X) c (c + zlen r) = r.
Proof.
  intros <-. unfold slice_text, zlen. rewrite Nat2Z.id, drop_app_length.
  replace (Z.to_nat (Z.of_nat (length P) + Z.of_nat (length r) - Z.of_nat (length P))) with (length r) by lia.
  apply take_app_length.
Qed.

Lemma render_lines_points lines selected cursor i fin P :
  zlen P = cursor -> 1 <= i -> i + zlen selected - 1 = fin ->
  (forall k l, selected !! k = Some l -> lines !! (Z.to_nat (i - 1) + k)%nat = Some l) ->
  let '(t, spans) := render_lines cursor i fin selected in
  forall sp X, sp ∈ spans -> points_at (P ++ t ++ X) lines sp.
Proof.
  revert cursor i P. induction selected as [|line selected IH]; intros cursor i P HP Hi Hfin Hsel; cbn [render_lines].
  { by intros sp X ?%elem_of_nil. }
  rewrite zlen_cons in Hfin. pose proof (zlen_nonneg selected).
  set (r := rendered_line i line). set (e := line_ending i line).
  specialize (IH (cursor + zlen r + zlen e) (i + 1) (P ++ r ++ e)).
  destruct (render_lines (cursor + zlen r + zlen e) (i + 1) fin selected) as [t spans] eqn:Er.
  intros sp X [->|Hsp]%elem_of_cons.
  - exists line. cbn. split_and!; [done| |done|done|done|lia|].
    + specialize (Hsel 0%nat line eq_refl). by rewrite Nat.add_0_r in Hsel.
    + rewrite <- app_assoc. by apply slice_mid.
  - assert (Hlt : i < fin). { destruct selected; [|rewrite zlen_cons in *; pose proof (zlen_nonneg selected); lia].
      cbn in Er. injection Er as <- <-. by apply elem_of_nil in Hsp. }
    rewrite (proj2 (Z.ltb_lt _ _) Hlt).
    replace (P ++ (r ++ e ++ t) ++ X) with ((P ++ r ++ e) ++ t ++ X) by (by rewrite <- !app_assoc).
    apply IH; [rewrite !zlen_app; lia|lia|lia| |done].
    intros k l Hk. specialize (Hsel (S k) l Hk). rewrite <- Hsel. f_equal. lia.
Qed.

Lemma join_text_snoc bs b :
  join_text blank (bs ++ [b]) = match bs with [] => b | _ => join_text blank bs ++ blank ++ b end.
Proof.
  induction bs as [|x bs IH]; [done|]. destruct bs as [|y bs]; [done|].
  change (join_text blank ((x :: y :: bs) ++ [b])) with (x ++ blank ++ join_text blank ((y :: bs) ++ [b])).
  rewrite IH. cbn [join_text join_bytes]. by rewrite <- !app_assoc.
Qed.

(** The text up to the block that is about to be added. *)
Definition so_far (notice : text) (bs : list text) : text :=
  notice ++ match bs with [] => [] | _ => join_text blank bs ++ blank end.

Lemma so_far_length notice bs : zlen (so_far notice bs) = block_cursor notice bs.
Proof. unfold so_far, block_cursor. rewrite zlen_app. destruct bs; [done|]. by rewrite zlen_app. Qed.

Lemma so_far_snoc notice bs b : notice ++ join_text blank (bs ++ [b]) = so_far notice bs ++ b.
Proof. rewrite join_text_snoc. unfold so_far. destruct bs; rewrite <- ?app_assoc; done. Qed.

Definition block_inside (total : Z) (p : range * bool) : Prop := 1 <= p.1.1 <= p.1.2 /\ p.1.2 <= total.

Lemma block_selected (lines : list text) a b :
  1 <= a <= b -> b <= zlen lines ->
  let selected := take (Z.to_nat (b - (a - 1))) (drop (Z.to_nat (a - 1)) lines) in
  a + zlen selected - 1 = b /\ forall k l, selected !! k = Some l -> lines !! (Z.to_nat (a - 1) + k)%nat = Some l.
Proof.
  intros H1 H2 selected. unfold selected. split.
  - unfold zlen in *. rewrite length_take, length_drop. lia.
  - intros k l Hk. apply lookup_take_Some in Hk as [Hk _]. by rewrite lookup_drop in Hk.
Qed.

Lemma render_block_points notice multi lines rd p :
  block_inside (zlen lines) p ->
  (forall sp X, sp ∈ rd_spans rd -> points_at (notice ++ join_text blank (rd_blocks rd) ++ X) lines sp) ->
  forall sp X, sp ∈ rd_spans (render_block notice multi lines rd p) ->
    points_at (notice ++ join_text blank (rd_blocks (render_block notice multi lines rd p)) ++ X) lines sp.
Proof.
  destruct p as [[a b] vis]. intros [Hab Hb] Hold sp X. cbn [fst snd] in *. unfold render_block.
  assert (Hext : forall blk sp X, sp ∈ rd_spans rd -> points_at (notice ++ join_text blank (rd_blocks rd ++ [blk]) ++ X) lines sp).
  { intros blk sp' X' Hsp. rewrite join_text_snoc. destruct (rd_blocks rd) as [|x bs] eqn:E.
    - apply (Hold sp' (blk ++ X')) in Hsp. exact Hsp.
    - rewrite <- !app_assoc. apply (Hold sp' (blank ++ blk ++ X')). done. }
  destruct (vis && multi); [cbn; apply Hext|].
  set (head := match header_of multi a b (zlen lines) with [] => [] | _ => _ end).
  destruct (block_selected lines a b Hab Hb) as [Hlen Hsel].
  set (selected := take _ _) in *.
  pose proof (render_lines_points lines selected (block_cursor notice (rd_blocks rd) + zlen head) a b
    (so_far notice (rd_blocks rd) ++ head)) as Hr.
  destruct (render_lines _ a b selected) as [t spans]. cbn [rd_spans rd_blocks].
  intros [Hsp|Hsp]%elem_of_app; [by apply Hext|].
  rewrite app_assoc, so_far_snoc. rewrite <- !app_assoc.
  set (more := if b <? zlen lines then _ else []).
  replace (so_far notice (rd_blocks rd) ++ head ++ t ++ more ++ X)
    with ((so_far notice (rd_blocks rd) ++ head) ++ t ++ (more ++ X)) by (by rewrite <- !app_assoc).
  apply Hr; [rewrite zlen_app, so_far_length; lia|lia|done|done|done].
Qed.

Lemma render_blocks_points notice multi lines blocks :
  Forall (block_inside (zlen lines)) blocks ->
  forall sp X, sp ∈ rd_spans (render_blocks notice multi lines blocks) ->
    points_at (notice ++ join_text blank (rd_blocks (render_blocks notice multi lines blocks)) ++ X) lines sp.
Proof.
  unfold render_blocks. intros Hb.
  assert (H0 : forall sp X, sp ∈ rd_spans (Rendering [] [] [] false) ->
    points_at (notice ++ join_text blank (rd_blocks (Rendering [] [] [] false)) ++ X) lines sp)
    by (by intros sp X ?%elem_of_nil).
  revert H0. generalize (Rendering [] [] [] false). induction Hb as [|p blocks Hp Hb IH]; intros rd H0; cbn [foldl]; [done|].
  apply IH. intros sp X. by apply render_block_points.
Qed.

Lemma kept_blocks_inside total blocks r :
  Forall (fun b : range => 1 <= b.2) blocks -> r ∈ kept_blocks total blocks -> 1 <= r.1 <= r.2 /\ r.2 <= total.
Proof.
  intros Hb Hr. apply list_elem_of_bind in Hr as (b & Hr & Hin). rewrite Forall_forall in Hb. specialize (Hb b Hin).
  unfold normalize_block in Hr. destruct (total <? Z.max 1 b.1) eqn:E; [by apply elem_of_nil in Hr|].
  apply list_elem_of_singleton in Hr as ->. bool_to_prop. simpl. lia.
Qed.

Lemma positive_int_pos v d n : 1 <= d -> _positive_int v d = Some n -> 1 <= n.
Proof.
  intros Hd. unfold _positive_int.
  assert (Hi : forall v, match py_int v with Ok n => if n <? 1 then None else Some n | Raise _ => None end = Some n -> 1 <= n).
  { intros v'. destruct (py_int v') as [z|]; [|done]. destruct (z <? 1) eqn:E; [done|]. bool_to_prop. by intros [= <-]. }
  destruct v as [| | |[|a s]| |]; try done; try apply Hi; by intros [= <-].
Qed.

Lemma requested_blocks_pos args o l :
  1 <= l -> Forall (fun b : range => 1 <= b.2) (_requested_blocks args o l).
Proof.
  intros Hl. unfold _requested_blocks. destruct (jget "ranges" args) as [| | | |[|item items]|]; try by repeat constructor.
  set (blocks := _ ≫= _). assert (Hb : Forall (fun b : range => 1 <= b.2) blocks); [|destruct blocks; [by repeat constructor|done]].
  apply Forall_forall. intros b Hin. apply list_elem_of_bind in Hin as (v & Hin & _).
  destruct (block_of v) as [[[o'|] [l'|]]|] eqn:E; try by apply elem_of_nil in Hin.
  apply list_elem_of_singleton in Hin as ->. unfold block_of in E. destruct v as [| | | | |d]; try done.
  injection E as _ E. eapply positive_int_pos; [|exact E]. done.
Qed.

(** The proof of a read is on the page.  Every span of the manifest a read produces
    points, in the very text that is displayed, at the complete numbered rendering of
    the line it names, whatever blocks were requested, suppressed or skipped and
    whatever headers and notices surround them. *)
Theorem read_spans_point_at_lines raw multi args offset limit flags skipped :
  1 <= limit ->
  let lines := splitlines raw in
  let normalized := kept_blocks (count_text_lines raw) (_requested_blocks args offset limit) in
  let '(content, rd) := read_text raw multi normalized flags skipped in
  forall sp, sp ∈ rd_spans rd -> points_at content lines sp.
Proof.
  intros Hl lines normalized. unfold read_text. intros sp Hsp. rewrite <- app_assoc.
  apply render_blocks_points; [|done]. apply Forall_forall. intros [r flag] Hin. apply elem_of_zip_l in Hin.
  eapply kept_blocks_inside; [by apply requested_blocks_pos|exact Hin].
Qed.

Lemma read_spans_point_at_lines_witness :
  let '(content, rd) := read_text (lit "ab" ++ [10] ++ lit "cd") false [(1, 2)] [false] [] in
  length (rd_spans rd) = 2%nat /\
  forall sp, sp ∈ rd_spans rd -> points_at content (splitlines (lit "ab" ++ [10] ++ lit "cd")) sp.
Proof.
  split; [reflexivity|].
  exact (read_spans_point_at_lines (lit "ab" ++ [10] ++ lit "cd") false [] 1 5 [false] [] ltac:(lia)).
Defined.
