(* ===== verification/FileRegistry.v ===== *)
(** * The file registry of a worker

    [_file_core/file_registry.py]: per scope, the staged proofs of executed operations,
    the results the host keeps live, and the session store rebuilt from them at every
    synchronization.  The registry lock covers each method, so a method is one step. *)

From S2P Require Import Prelude Dict Utf8 Sha256 PyValue JsonText Ranges TextLines FileSystem Contracts.
From S2P Require Import SessionData SessionState FileCache FileEdit EditSafety FileWrite FileRead.
Open Scope Z_scope.

Record _Scope := Scope {
  sco_revision : Z;
  sco_fingerprint : string;
  sco_backend : sessions;
  sco_staged : dict string obj;
  sco_retired_results : list string;
  sco_retired_operations : list string;
  sco_live : dict string json;
  sco_visible : option (list string);
  sco_closed : bool
}.

Definition new_scope : _Scope := Scope (-1) "" [] [] [] [] [] None false.

Record FileRegistry := Registry { rg_capacity : Z; rg_scopes : dict string _Scope }.
Definition new_registry (capacity : Z) : FileRegistry := Registry capacity [].

Inductive registry_error :=
| FileRegistryError (what : string)
| Crash (what : string).   (* any other exception *)

Abbreviation R := (M FileRegistry registry_error).

Definition _fingerprint (value : json) : string := sha256_hex (json_dumps true value).

(** ** Proof validation *)

Definition same_field (original delivered : obj) (key : string) : bool :=
  py_eq (jget key delivered) (jget key original).

(** [source['x'] <= span['x']] on spans written by [to_dict]. *)
Definition int_field (key : string) (d : obj) : Z := match jget key d with JInt z => z | _ => 0 end.

Definition span_within (span source : obj) : bool :=
  forallb (same_field source span) ["start_line"; "end_line"; "line_length"] &&
  (int_field "visible_start_in_line" source <=? int_field "visible_start_in_line" span) &&
  (int_field "visible_start_in_line" span <=? int_field "visible_end_in_line" span) &&
  (int_field "visible_end_in_line" span <=? int_field "visible_end_in_line" source).

Definition span_list (d : obj) : list obj :=
  match jget "spans" d with
  | JList l => l ≫= (fun v => match v with JObj s => [s] | _ => [] end)
  | _ => []
  end.

Definition _validate_proof (original delivered : obj) : res registry_error unit :=
  raise_if negb (forallb (same_field original delivered)
             ["file_key"; "digest"; "total_lines"; "operation"; "before_digest"])
    with FileRegistryError "Delivery changed file identity or version" ;;
  raise_if existsb (fun k => get_bool k delivered && negb (get_bool k original)) ["empty_file"; "complete_file"]
    with FileRegistryError "Delivery added complete-file authority" ;;
  raise_if existsb (fun k => get_bool k delivered && negb (same_field original delivered k))
             ["inherited_ranges"; "parent_result_ids"]
    with FileRegistryError "Delivery changed inherited authority" ;;
  raise_if existsb (fun span => negb (existsb (span_within span) (span_list original))) (span_list delivered)
    with FileRegistryError "Delivery added unseen source text" ;;
  Ok tt.

(** ** Scopes *)

Definition _scope (scope : json) : R (string * _Scope) :=
  fun r =>
    match scope with
    | JStr name =>
        if negb (str_truthy name) || (512 <? Z.of_nat (length (string_text name)))
        then (r, Raise (FileRegistryError "Invalid file scope"))
        else
          match dget name (rg_scopes r) with
          | Some st => (r, Ok (name, st))
          | None =>
              if rg_capacity r <=? zlen (rg_scopes r)
              then (r, Raise (FileRegistryError "File scope capacity reached"))
              else (Registry (rg_capacity r) (dset name new_scope (rg_scopes r)), Ok (name, new_scope))
          end
    | _ => (r, Raise (FileRegistryError "Invalid file scope"))
    end.

Definition put_scope (name : string) (st : _Scope) : R unit :=
  smodify (fun r => Registry (rg_capacity r) (dset name st (rg_scopes r))).

(** ** [sync] *)

(** A list of nonempty texts. *)
Fixpoint text_list (l : list json) : option (list string) :=
  match l with
  | [] => Some []
  | JStr s :: l => if str_truthy s then cons s <$> text_list l else None
  | _ :: _ => None
  end.

Record sync_args := SyncArgs {
  sy_revision : Z; sy_live : dict string json; sy_pending : list string; sy_closed : bool;
  sy_visible : option (list string)
}.

Definition sync_arguments (revision live pending closed visible : json) : option sync_args :=
  match revision, live, pending, closed with
  | JInt rev, JObj l, JList p, JBool c =>
      if rev <? 0 then None
      else
        match text_list p, visible with
        | Some p, JNull => Some (SyncArgs rev l p c None)
        | Some p, JList v => match text_list v with Some v => Some (SyncArgs rev l p c (Some v)) | None => None end
        | _, _ => None
        end
  | _, _, _, _ => None
  end.

(** The identity of a live item: its operation and its manifest field. *)
Definition item_operation (item : json) : option string :=
  match item with
  | JObj d => match jget "operation_id" d with JStr o => if str_truthy o then Some o else None | _ => None end
  | _ => None
  end.
Definition item_manifest (item : json) : res registry_error (option FileDeliveryManifest) :=
  match item with
  | JObj d =>
      match dget "manifest" d with
      | None => Raise (Crash "KeyError")
      | Some v =>
          match py_dict v with
          | Raise _ => Raise (Crash "dict")
          | Ok payload => match manifest_from_dict payload with Ok m => Ok m | Raise _ => Raise (Crash "manifest") end
          end
      end
  | _ => Ok None
  end.

(** One live result: checked against its staged proof, then delivered to the new store. *)
Definition accept_item (scope : string) (st : _Scope) (backend : sessions) (p : string * json)
    : res registry_error sessions :=
  let '(result_id, item) := p in
  match item_operation item with
  | None => Raise (FileRegistryError "Invalid result identity")
  | Some oid =>
      raise_if negb (str_truthy result_id) with FileRegistryError "Invalid result identity" ;;
      raise_if bool_decide (result_id ∈ sco_retired_results st) || bool_decide (oid ∈ sco_retired_operations st)
        with FileRegistryError "Retired authority cannot be resurrected" ;;
      match dget oid (sco_staged st) with
      | None => Raise (FileRegistryError "Unknown staged file result")
      | Some original =>
          let! parsed := item_manifest item in
          match parsed with
          | None => Raise (FileRegistryError "Invalid file manifest")
          | Some m =>
              let delivery := manifest_to_dict m in
              let! _ := _validate_proof original delivery in
              raise_if (match dget result_id (sco_live st) with Some old => negb (py_eq old item) | None => false end)
                with FileRegistryError "Committed result identity is immutable" ;;
              match record_delivery scope (dset "result_id" (JStr result_id) delivery) backend with
              | (backend', Ok _) => Ok backend'
              | (_, Raise _) => Raise (Crash "record_delivery")
              end
          end
      end
  end.

Definition live_operations (live : dict string json) : list string :=
  live ≫= (fun p => match item_operation p.2 with Some o => [o] | None => [] end).

Definition set_union (a b : list string) : list string := a ++ filter (fun x => x ∉ a) (remove_dups b).

(** The scope after an accepted synchronization. *)
Definition synced (st : _Scope) (a : sync_args) (fp : string) (backend : sessions) : _Scope :=
  let keep := sy_pending a ++ live_operations (sy_live a) in
  Scope (sy_revision a) fp backend
    (filter (fun p => p.1 ∈ keep) (sco_staged st))
    (set_union (sco_retired_results st) (filter (fun r => r ∉ dkeys (sy_live a)) (dkeys (sco_live st))))
    (set_union (sco_retired_operations st) (filter (fun o => o ∉ keep) (dkeys (sco_staged st))))
    (sy_live a) (sy_visible a) (sy_closed a).

Definition sync_fingerprint (live pending closed visible : json) : string :=
  _fingerprint (JList [live; pending; closed; visible]).

Definition sync_scope (scope : string) (st : _Scope) (a : sync_args) (fp : string) : res registry_error _Scope :=
  raise_if sy_revision a <? sco_revision st with FileRegistryError "Stale file synchronization revision" ;;
  if sy_revision a =? sco_revision st then
    raise_if bool_decide (fp <> sco_fingerprint st)
      with FileRegistryError "Conflicting file synchronization revision" ;;
    Ok st
  else
    raise_if sco_closed st || (sy_closed a && negb (bool_decide (sy_live a = [] /\ sy_pending a = [])))
      with FileRegistryError "File scope is closed" ;;
    match begin_input scope scope DEFAULT_RESULT_RETENTION_USER_TURNS [] with
    | (_, Raise _) => Raise (Crash "begin_input")
    | (backend0, Ok _) =>
        let! backend := rfold (accept_item scope st) backend0 (sy_live a) in
        raise_if existsb (fun o => bool_decide (o ∈ sco_retired_operations st))
                   (sy_pending a ++ live_operations (sy_live a))
          with FileRegistryError "Retired operation cannot be staged again" ;;
        Ok (synced st a fp backend)
    end.

Definition sync (scope revision live pending closed visible : json) : R Z :=
  do! found_scope <- _scope scope ;;
  let '(name, st) := found_scope in
  match sync_arguments revision live pending closed visible with
  | None => sthrow (FileRegistryError "Invalid file synchronization")
  | Some a =>
      do! st' <- slift (sync_scope name st a (sync_fingerprint live pending closed visible)) ;;
      seq! put_scope name st' ;;
      sret (sy_revision a)
  end.

(** ** [execute] *)

(** What the operating system does during one execution. *)
Record exec_env := ExecEnv {
  ex_platform : platform;
  ex_swap : swap_env;
  ex_unreadable : bool;          (* the tool's own read fails *)
  ex_reread_unreadable : bool;   (* the snapshot validation's read fails *)
  ex_mkdir_fails : bool;
  ex_diff : string -> text -> text -> text;
  ex_report : io_error -> text;
  ex_redact : text -> text
}.

Definition receipt_json (r : option EffectReceipt) : json :=
  match r with
  | Some r => JObj [("outcome", JStr (outcome_name (er_outcome r))); ("receipt", JObj (er_receipt r))]
  | None => JNull
  end.

Definition result_payload (r : CapabilityResult) : obj :=
  [("status", JStr (status_name (cr_status r))); ("llm_text", jtext (cr_llm_text r)); ("text", jtext (cr_llm_text r));
   ("structured", JObj (cr_structured r)); ("recovery_hint", jtext (cr_recovery_hint r));
   ("context_delivery", match cr_context_delivery r with Some d => JObj d | None => JNull end);
   ("effect_receipt", receipt_json (cr_effect_receipt r))].

(** The payload of a [ToolExecutionError]; [message] and [hint] are its text and hint. *)
Definition tool_error_payload (message hint : text) (code : string) (details : obj) : obj :=
  [("status", JStr "error"); ("llm_text", jtext message); ("text", jtext message);
   ("structured", JObj (dupdate [("error_code", JStr code)] details));
   ("effect_receipt", receipt_json (Some (Receipt APPLIED [])));
   ("recovery_hint", jtext hint)].

Definition SYNC_HINT : text :=
  lit "Do not repeat the applied write. Inspect the directory I/O error and read the current file before any further edits.".
Definition sync_message (code : string) (details : obj) : text :=
  let resolved := string_text (get_str "file_path" details) in
  if decide (code = "DIRECTORY_CLOSE_FAILED")
  then lit "File replacement and directory synchronization completed for " ++ resolved ++
       lit ", but closing the directory failed."
  else lit "File replacement applied to " ++ resolved ++
       lit ", but directory synchronization failed; crash durability is unconfirmed.".

Inductive file_action := ActRead | ActEdit | ActWrite.
Definition action_of (action : string) : option file_action :=
  if decide (action = "read") then Some ActRead
  else if decide (action = "edit") then Some ActEdit
  else if decide (action = "write") then Some ActWrite
  else None.

(** Run one tool over the caches of the scope. *)
Definition run_tool (ev : exec_env) (scope : string) (act : file_action) (args : obj) (s : fs)
    (c : SessionFileStateCache sessions) : fs * (SessionFileStateCache sessions * res io_error CapabilityResult) :=
  match act with
  | ActRead =>
      (s, FileReadTool_invoke (ex_report ev) (ex_platform ev) scope true (ex_unreadable ev) (ex_reread_unreadable ev)
            args s c)
  | ActEdit =>
      FileEditTool_invoke (ex_diff ev) (ex_report ev) (ex_platform ev) (ex_swap ev) (ex_reread_unreadable ev) args s c
  | ActWrite =>
      FileWriteTool_invoke (ex_diff ev) (ex_report ev) (ex_redact ev) (ex_platform ev) (ex_swap ev)
        (ex_reread_unreadable ev) (ex_mkdir_fails ev) args s c
  end.

Definition set_backend (b : sessions) (st : _Scope) : _Scope :=
  Scope (sco_revision st) (sco_fingerprint st) b (sco_staged st) (sco_retired_results st)
    (sco_retired_operations st) (sco_live st) (sco_visible st) (sco_closed st).
Definition stage (operation_id : string) (delivery : option obj) (st : _Scope) : _Scope :=
  match delivery with
  | Some ((_ :: _) as d) =>
      Scope (sco_revision st) (sco_fingerprint st) (sco_backend st) (dset operation_id d (sco_staged st))
        (sco_retired_results st) (sco_retired_operations st) (sco_live st) (sco_visible st) (sco_closed st)
  | _ => st
  end.

(** The guards of [execute]. *)
Definition admits (st : _Scope) (revision : Z) (operation_id : string) (args : json) : res registry_error obj :=
  raise_if sco_closed st || negb (revision =? sco_revision st) || (revision <? 0)
    with FileRegistryError "Synchronize current file context before execution" ;;
  match args with
  | JObj a =>
      raise_if bool_decide (operation_id ∈ sco_retired_operations st) || dmem operation_id (sco_staged st)
        with FileRegistryError "Operation was already executed; query its receipt" ;;
      Ok a
  | _ => Raise (FileRegistryError "File arguments must be an object")
  end.

(** An execution on one scope: the file system, the scope and the payload. *)
Definition execute_scope (ev : exec_env) (name : string) (st : _Scope) (revision : Z) (operation_id action : string)
    (args : json) (s : fs) : fs * (_Scope * res registry_error obj) :=
  match admits st revision operation_id args with
  | Raise e => (s, (st, Raise e))
  | Ok a =>
      match context name (sco_backend st) with
      | (b, Raise _) => (s, (set_backend b st, Raise (Crash "context")))
      | (b, Ok ctx) =>
          match action_of action with
          | None => (s, (set_backend b st, Raise (FileRegistryError "Unknown file action")))
          | Some act =>
              let '(s', (c, r)) := run_tool ev name act a s (SessionCache b ctx (sco_visible st)) in
              let st1 := set_backend (sc_backend c) st in
              match r with
              | Ok res => (s', (stage operation_id (cr_context_delivery res) st1, Ok (result_payload res)))
              | Raise (ToolExecutionError code details) =>
                  (s', (st1, Ok (tool_error_payload (sync_message code details) SYNC_HINT code details)))
              | Raise _ => (s', (st1, Raise (Crash "tool")))
              end
          end
      end
  end.

Definition execute (ev : exec_env) (scope revision : json) (operation_id action : string) (args : json) (s : fs)
    (r : FileRegistry) : fs * (FileRegistry * res registry_error obj) :=
  match _scope scope r with
  | (r, Raise e) => (s, (r, Raise e))
  | (r, Ok (name, st)) =>
      match revision with
      | JInt rev =>
          let '(s', (st', out)) := execute_scope ev name st rev operation_id action args s in
          (s', ((put_scope name st' r).1, out))
      | _ => (s, (r, Raise (FileRegistryError "Synchronize current file context before execution")))
      end
  end.
