(* ===== verification/RegistrySafety.v ===== *)
(** * Theorems of the file registry

    A delivery can only narrow the proof that was staged for it; retired results and
    operations never come back; synchronization is fenced by its revision and leaves a
    scope alone when it fails; and every live result of a scope rests on a proof that one
    of its own executions staged. *)

From S2P Require Import Prelude Dict Utf8 Sha256 PyValue JsonText Ranges TextLines FileSystem Contracts.
From S2P Require Import SessionData SessionState SessionSafety SessionGrants FileCache FileEdit.
From S2P Require Import EditSafety FileWrite FileRead FileRegistry.
Open Scope Z_scope.

(** ** Validation of a proof *)

Lemma py_eq_str a b : py_eq (JStr a) (JStr b) = true <-> a = b.
Proof. apply bool_decide_eq_true. Qed.

Lemma py_eq_int a b : py_eq (JInt a) (JInt b) = true <-> a = b.
Proof. apply Z.eqb_eq. Qed.

Lemma py_eq_list {A} (f : A -> json) (l m : list A) :
  (forall x y, py_eq (f x) (f y) = true <-> x = y) ->
  py_eq (JList (f <$> l)) (JList (f <$> m)) = true <-> l = m.
Proof.
  intros Hf. revert m. induction l as [|x l IH]; intros [|y m]; try (split; done).
  change (py_eq (f x) (f y) && py_eq (JList (f <$> l)) (JList (f <$> m)) = true <-> x :: l = y :: m).
  rewrite andb_true_iff, Hf, IH. naive_solver.
Qed.

Lemma py_eq_pair (p q : range) : py_eq (pair_to_json p) (pair_to_json q) = true <-> p = q.
Proof.
  destruct p as [a b], q as [c d]. simpl. rewrite !andb_true_iff, !Z.eqb_eq. naive_solver.
Qed.

(** [s] is a narrowing of [source]: same line block, a part of what it shows. *)
Definition span_narrows (s source : FileDeliverySpan) : Prop :=
  sp_start_line s = sp_start_line source /\ sp_end_line s = sp_end_line source /\
  sp_line_length s = sp_line_length source /\
  sp_visible_start_in_line source <= sp_visible_start_in_line s /\
  sp_visible_start_in_line s <= sp_visible_end_in_line s /\
  sp_visible_end_in_line s <= sp_visible_end_in_line source.

(** [m] proves no more than [m0] about the same content. *)
Record narrows (m m0 : FileDeliveryManifest) : Prop := {
  nw_key : mf_file_key m = mf_file_key m0;
  nw_digest : mf_digest m = mf_digest m0;
  nw_total : mf_total_lines m = mf_total_lines m0;
  nw_operation : mf_operation m = mf_operation m0;
  nw_before : mf_before_digest m = mf_before_digest m0;
  nw_empty : mf_empty_file m = true -> mf_empty_file m0 = true;
  nw_complete : mf_complete_file m = true -> mf_complete_file m0 = true;
  nw_inherited : mf_inherited_ranges m <> [] -> mf_inherited_ranges m = mf_inherited_ranges m0;
  nw_parents : mf_parent_result_ids m <> [] -> mf_parent_result_ids m = mf_parent_result_ids m0;
  nw_spans : forall s, s ∈ mf_spans m -> exists source, source ∈ mf_spans m0 /\ span_narrows s source
}.

Lemma span_within_iff s source : span_within (span_to_dict s) (span_to_dict source) = true <-> span_narrows s source.
Proof.
  change (span_within (span_to_dict s) (span_to_dict source)) with
    (((sp_start_line s =? sp_start_line source) && ((sp_end_line s =? sp_end_line source) &&
      ((sp_line_length s =? sp_line_length source) && true))) &&
     (sp_visible_start_in_line source <=? sp_visible_start_in_line s) &&
     (sp_visible_start_in_line s <=? sp_visible_end_in_line s) &&
     (sp_visible_end_in_line s <=? sp_visible_end_in_line source)).
  rewrite !andb_true_iff, !Z.eqb_eq, !Z.leb_le. unfold span_narrows. tauto.
Qed.

Lemma span_list_manifest m : span_list (manifest_to_dict m) = span_to_dict <$> mf_spans m.
Proof.
  unfold span_list.
  change (jget "spans" (manifest_to_dict m)) with (JList ((fun s => JObj (span_to_dict s)) <$> mf_spans m)). cbv iota.
  induction (mf_spans m) as [|s l IH]; [done|]. rewrite !fmap_cons. cbn [mbind list_bind].
  by rewrite IH.
Qed.

Lemma existsb_iff {A} (f : A -> bool) l : existsb f l = true <-> exists x, x ∈ l /\ f x = true.
Proof. rewrite existsb_exists. by setoid_rewrite list_elem_of_In. Qed.

Lemma guard_field (b : bool) c : b && negb c = false <-> (b = true -> c = true).
Proof. destruct b, c; simpl; naive_solver. Qed.

Lemma validate_proof_iff m m0 :
  _validate_proof (manifest_to_dict m0) (manifest_to_dict m) = Ok tt <-> narrows m m0.
Proof.
  unfold _validate_proof. rewrite !raise_if_ok, negb_false_iff, !span_list_manifest.
  change (forallb (same_field (manifest_to_dict m0) (manifest_to_dict m)) _) with
    (bool_decide (mf_file_key m = mf_file_key m0) && (bool_decide (mf_digest m = mf_digest m0) &&
     ((mf_total_lines m =? mf_total_lines m0) && (bool_decide (mf_operation m = mf_operation m0) &&
      (bool_decide (mf_before_digest m = mf_before_digest m0) && true))))).
  rewrite !andb_true_iff, !bool_decide_eq_true, Z.eqb_eq.
  cbn [existsb]. rewrite !orb_false_iff, !guard_field.
  rewrite (get_bool_of "empty_file" (mf_empty_file m)), (get_bool_of "empty_file" (mf_empty_file m0)),
    (get_bool_of "complete_file" (mf_complete_file m)), (get_bool_of "complete_file" (mf_complete_file m0)) by done.
  unfold same_field, get_bool.
  change (jget "inherited_ranges" (manifest_to_dict m)) with (JList (pair_to_json <$> mf_inherited_ranges m)).
  change (jget "inherited_ranges" (manifest_to_dict m0)) with (JList (pair_to_json <$> mf_inherited_ranges m0)).
  change (jget "parent_result_ids" (manifest_to_dict m)) with (JList (JStr <$> mf_parent_result_ids m)).
  change (jget "parent_result_ids" (manifest_to_dict m0)) with (JList (JStr <$> mf_parent_result_ids m0)).
  rewrite (py_eq_list pair_to_json) by apply py_eq_pair. rewrite (py_eq_list JStr) by apply py_eq_str.
  assert (Ht : forall {A} (f : A -> json) l, truthy (JList (f <$> l)) = true <-> l <> []).
  { intros A f []; simpl; split; done. }
  rewrite !Ht.
  assert (Hspans : existsb (fun span => negb (existsb (span_within span) (span_to_dict <$> mf_spans m0)))
      (span_to_dict <$> mf_spans m) = false <->
    forall s, s ∈ mf_spans m -> exists source, source ∈ mf_spans m0 /\ span_narrows s source).
  { rewrite <- not_true_iff_false, existsb_iff. split.
    - intros Hno s Hs. destruct (existsb (span_within (span_to_dict s)) (span_to_dict <$> mf_spans m0)) eqn:E.
      + apply existsb_iff in E as (x & Hx & Hw). apply list_elem_of_fmap in Hx as (source & -> & Hin).
        apply span_within_iff in Hw. eauto.
      + exfalso. apply Hno. exists (span_to_dict s). split; [apply list_elem_of_fmap; eauto|]. by rewrite E.
    - intros Hall (x & Hx & Hneg). apply list_elem_of_fmap in Hx as (s & -> & Hin). apply negb_true_iff in Hneg.
      destruct (Hall s Hin) as (source & Hso & Hn). rewrite <- not_true_iff_false in Hneg. apply Hneg.
      apply existsb_iff. exists (span_to_dict source). split; [apply list_elem_of_fmap; eauto|]. by apply span_within_iff. }
  rewrite Hspans. split.
  - intros ((? & ? & ? & ? & ? & _) & (? & ? & _) & (? & ? & _) & ? & _). by split.
  - intros []. by split_and!.
Qed.

(** A delivery may drop proof but never add any.  [_validate_proof] accepts a manifest
    against the staged one exactly when it names the same content and operation, keeps
    inherited lines and parents unchanged or drops them, claims a complete or empty file
    only if the staged proof did, and every span is a part of a staged span. *)
Theorem validate_proof_exact m m0 :
  _validate_proof (manifest_to_dict m0) (manifest_to_dict m) = Ok tt <-> narrows m m0.
Proof. apply validate_proof_iff. Qed.

(** ** What the tools stage *)

(** The result carries a delivery manifest, or no delivery at all. *)
Definition proof_of (r : res io_error CapabilityResult) (m : FileDeliveryManifest) : Prop :=
  exists res, r = Ok res /\ cr_context_delivery res = Some (manifest_to_dict m).

Definition well_proved (r : res io_error CapabilityResult) : Prop :=
  match r with
  | Ok res => match cr_context_delivery res with None => True | Some d => exists m, d = manifest_to_dict m end
  | Raise _ => True
  end.

Section proofs_of_tools.
Context {C : Type} `{ReadCache C} `{VisibilityCache C}.

Lemma read_proves report pf scope defer u1 u2 args s (c : C) :
  well_proved (FileReadTool_invoke report pf scope defer u1 u2 args s c).2.
Proof.
  unfold FileReadTool_invoke.
  destruct (_positive_int (jget "offset" args) 1) as [offset|]; [|done].
  destruct (_positive_int (jget "limit" args) DEFAULT_LIMIT) as [limit|]; [|done].
  destruct (_validate_requested_blocks args); [done|]. destruct (negb (str_truthy _)); [done|].
  destruct (resolve_file_path _ _) as [resolved|]; [|done]. destruct (negb (path_exists _ _)); [done|].
  destruct (negb (is_file _ _)); [done|]. destruct (read_utf8_text_exact _ _ _) as [raw|[]]; try done.
  destruct (rc_get_valid_state _ _ _ _ _) as [c1 [cached|]]; [|done]. cbv zeta.
  destruct (visible_flags _ _ _ _ _ _) as [c2 flags].
  match goal with |- context [let '(_, _) := ?x in _] => destruct x as [c3 [u|]]; [|done] end.
  unfold read_content. cbv zeta. destruct (negb _ && _ && _); [done|]. destruct (_ =? 0); [by eexists|].
  destruct (bool_decide _); [done|]. destruct (read_text _ _ _ _ _) as [content rd]. by eexists.
Qed.

Lemma edit_proves diff report pf ev u args s (c : C) :
  well_proved (FileEditTool_invoke diff report pf ev u args s c).2.2.
Proof.
  unfold FileEditTool_invoke. case_match; [done|]. case_match; [|done]. case_match; try done. case_match; [done|].
  case_match; [done|]. case_match. case_match; [case_match; [|done]|by case_match].
  case_match; [|by case_match]. unfold edit_authorized. case_match. case_match; [done|]. case_match; [done|].
  case_match. case_match; [|by unfold edit_commit_failed; case_match]. case_match. case_match; [|done].
  unfold edit_success. case_match. by eexists.
Qed.

Lemma write_proves diff report redact pf ev u b args s (c : C) :
  well_proved (FileWriteTool_invoke diff report redact pf ev u b args s c).2.2.
Proof.
  assert (Hw : forall resolved content old created parents s (c : C),
    well_proved (write_committed diff pf resolved content old created parents s c).2).
  { intros. unfold write_committed. case_match. case_match; [by eexists|done]. }
  assert (Ho : forall resolved content s (c : C),
    well_proved (_overwrite diff report redact pf ev u resolved content s c).2.2).
  { intros. unfold _overwrite. destruct (_require_current_snapshot _ _ _ _ _ _ _) as [c1 [[x|st]|e]] eqn:E; [| |done].
    - revert E. unfold _require_current_snapshot. case_match; [by intros [= <- <-]|]. case_match; [by intros [= <- <-]|].
      case_match. case_match.
      + case_match; [case_match; by intros [= <- <-]|by intros [= <- <-]].
      + case_match; by intros [= <- <-].
    - case_match. case_match; [apply Hw|by case_match]. }
  unfold FileWriteTool_invoke. case_match; [done|]. case_match; try done. case_match; [|done]. case_match.
  { revert select (_validate_content _ _ = _). unfold _validate_content. case_match; [by intros [= <-]|].
    case_match; [|done]. case_match; by intros [= <-]. }
  case_match; [|by case_match]. case_match; [apply Ho|]. unfold _create. case_match; [apply Ho|].
  case_match. case_match; [|done]. case_match; [done|]. case_match. case_match; [apply Hw|by case_match].
Qed.
End proofs_of_tools.

Lemma run_tool_proves ev scope act args s c : well_proved (run_tool ev scope act args s c).2.2.
Proof. destruct act; [apply read_proves|apply edit_proves|apply write_proves]. Qed.

(** [d] is the proof that some run of a file tool in the scope delivered. *)
Definition tool_proof (scope : string) (m : FileDeliveryManifest) : Prop :=
  exists ev act args s c, proof_of (run_tool ev scope act args s c).2.2 m.

(** Every staged proof is one that a tool delivered. *)
Definition staged_by_tools (scope : string) (st : _Scope) : Prop :=
  forall o d, dget o (sco_staged st) = Some d -> exists m, d = manifest_to_dict m /\ tool_proof scope m.

(** The live item [item] rests on a proof staged for its operation, which it narrows. *)
Definition backed (staged : dict string obj) (item : json) : Prop :=
  exists oid original m, item_operation item = Some oid /\ dget oid staged = Some original /\
    item_manifest item = Ok (Some m) /\ _validate_proof original (manifest_to_dict m) = Ok tt.

Lemma accept_items_ok scope st backend live backend' :
  rfold (accept_item scope st) backend live = Ok backend' ->
  forall r item, (r, item) ∈ live -> r ∉ sco_retired_results st /\ backed (sco_staged st) item /\
    (forall old, dget r (sco_live st) = Some old -> py_eq old item = true).
Proof.
  revert backend. induction live as [|[r0 item0] live IH]; intros backend H r item Hin; [by apply elem_of_nil in Hin|].
  simpl in H. apply rbind_ok in H as (b1 & H1 & H2).
  apply elem_of_cons in Hin as [[= -> ->]|Hin]; [|by eapply IH]. clear IH H2. unfold accept_item in H1.
  destruct (item_operation item0) as [oid|] eqn:Eo; [|done].
  rewrite !raise_if_ok in H1. destruct H1 as (E1 & E2 & H1). bool_to_prop.
  destruct (dget oid (sco_staged st)) as [original|] eqn:Eg; [|done].
  apply rbind_ok in H1 as (parsed & Em & H1). destruct parsed as [m|]; [|done].
  apply rbind_ok in H1 as ([] & Hv & H1). apply raise_if_ok in H1 as [E3 _].
  split_and!; [done|by exists oid, original, m|].
  intros old Hold. rewrite Hold in E3. by apply negb_false_iff.
Qed.

Lemma set_union_l a b x : x ∈ a -> x ∈ set_union a b.
Proof. intros H. apply elem_of_app. by left. Qed.

Lemma set_union_r a b x : x ∈ b -> x ∈ set_union a b.
Proof.
  intros H. apply elem_of_app. destruct (decide (x ∈ a)); [by left|right]. apply list_elem_of_filter.
  split; [done|]. by apply elem_of_remove_dups.
Qed.

Lemma set_union_inv a b x : x ∈ set_union a b -> x ∈ a \/ x ∈ b.
Proof. intros [H|H]%elem_of_app; [by left|right]. apply list_elem_of_filter in H as [_ H]. rewrite elem_of_remove_dups in H. exact H. Qed.

(** A scope in which a synchronization changed something. *)
Lemma sync_scope_cases scope st a fp st' :
  sync_scope scope st a fp = Ok st' ->
  st' = st \/
  exists ctx b0 backend, sco_revision st < sy_revision a /\ sco_closed st = false /\
    begin_input scope scope DEFAULT_RESULT_RETENTION_USER_TURNS [] = (b0, Ok ctx) /\
    rfold (accept_item scope st) b0 (sy_live a) = Ok backend /\
    (forall o, o ∈ sy_pending a ++ live_operations (sy_live a) -> o ∉ sco_retired_operations st) /\
    st' = synced st a fp backend.
Proof.
  unfold sync_scope. rewrite raise_if_ok. intros [E1 H]. bool_to_prop.
  destruct (sy_revision a =? sco_revision st) eqn:E2; bool_to_prop.
  { apply raise_if_ok in H as [_ H]. left. congruence. }
  apply raise_if_ok in H as [E3 H]. apply orb_false_iff in E3 as [E3 _].
  destruct (begin_input scope scope _ []) as [b0 [ctx|]] eqn:Eb; [|done].
  apply rbind_ok in H as (backend & Ha & H). apply raise_if_ok in H as [E4 H]. injection H as <-.
  right. exists ctx, b0, backend. split_and!; [lia|done..| |done]. intros o Ho Hr.
  apply not_true_iff_false in E4. apply E4, existsb_iff. exists o. split; [done|]. by apply bool_decide_eq_true.
Qed.

Lemma scope_lookup scope r r' x :
  _scope scope r = (r', x) ->
  match x with
  | Ok (name, st) => scope = JStr name /\ dget name (rg_scopes r') = Some st /\
      (r' = r \/ (dget name (rg_scopes r) = None /\ st = new_scope /\
                  rg_scopes r' = dset name new_scope (rg_scopes r) /\ rg_capacity r' = rg_capacity r /\
                  zlen (rg_scopes r) < rg_capacity r))
  | Raise _ => r' = r
  end.
Proof.
  unfold _scope. destruct scope as [| | |name| |]; try by intros [= <- <-].
  destruct (_ || _); [by intros [= <- <-]|]. destruct (dget name (rg_scopes r)) as [st|] eqn:E.
  - intros [= <- <-]. split_and!; [done..|by left].
  - destruct (rg_capacity r <=? zlen (rg_scopes r)) eqn:Ec; intros [= <- <-]; [done|]. bool_to_prop.
    split_and!; [done|apply dget_dset_eq|]. right. split_and!; done || lia.
Qed.

(** Synchronization is fenced and all or nothing.  If [sync] raises, the registry is as
    it was, except that a scope named for the first time exists and is empty.  If it
    returns, the request's revision was the scope's own, with an identical request and no
    effect, or a newer one on a scope that was not closed; the scope is then exactly at
    that revision with exactly the requested live results, and no other scope changed. *)
Theorem sync_fenced_all_or_nothing scope revision live pending closed visible r r' out :
  sync scope revision live pending closed visible r = (r', out) ->
  match out with
  | Raise _ => r' = r \/ exists name, scope = JStr name /\ dget name (rg_scopes r) = None /\
                rg_scopes r' = dset name new_scope (rg_scopes r)
  | Ok rev => exists name st st',
      scope = JStr name /\ default new_scope (dget name (rg_scopes r)) = st /\ revision = JInt rev /\
      dget name (rg_scopes r') = Some st' /\
      (forall other, other <> name -> dget other (rg_scopes r') = dget other (rg_scopes r)) /\
      ((rev = sco_revision st /\ st' = st /\ sync_fingerprint live pending closed visible = sco_fingerprint st) \/
       (sco_revision st < rev /\ sco_closed st = false /\ sco_revision st' = rev /\ JObj (sco_live st') = live))
  end.
Proof.
  unfold sync, sbind at 1. destruct (_scope scope r) as [r1 x] eqn:Es. apply scope_lookup in Es.
  destruct x as [[name st]|e]; [|intros [= <- <-]; by left]. destruct Es as (-> & Hst & Hr1).
  assert (Hfail : r1 = r \/ exists name', JStr name = JStr name' /\ dget name' (rg_scopes r) = None /\
                rg_scopes r1 = dset name' new_scope (rg_scopes r)).
  { destruct Hr1 as [->|(? & _ & ? & _)]; [by left|right; by exists name]. }
  destruct (sync_arguments revision live pending closed visible) as [a|] eqn:Ea; [|by intros [= <- <-]].
  unfold sbind, slift. destruct (sync_scope name st a _) as [st'|e] eqn:Ess; [|by intros [= <- <-]].
  unfold put_scope, smodify, sret. intros [= <- <-]. exists name, st, st'.
  assert (Hold : default new_scope (dget name (rg_scopes r)) = st).
  { destruct Hr1 as [->|(-> & -> & _)]; [by rewrite Hst|done]. }
  assert (Hargs : revision = JInt (sy_revision a) /\ JObj (sy_live a) = live).
  { unfold sync_arguments in Ea. destruct revision, live, pending, closed; try done.
    destruct (z <? 0); [done|]. destruct (text_list l); [|done].
    destruct visible; try done; [by injection Ea as <-|]. destruct (text_list l1); [by injection Ea as <-|done]. }
  destruct Hargs as [-> Hlive]. split_and!; [done|done|done|apply dget_dset_eq| |].
  - intros other Hne. simpl. rewrite dget_dset_ne by done. destruct Hr1 as [->|(_ & _ & -> & _)]; [done|].
    by rewrite dget_dset_ne.
  - unfold sync_scope in Ess. apply raise_if_ok in Ess as [E1 Ess]. bool_to_prop.
    destruct (sy_revision a =? sco_revision st) eqn:E2; bool_to_prop.
    + apply raise_if_ok in Ess as [Ef Ess]. injection Ess as <-. left. split_and!; [done..|].
      apply bool_decide_eq_false in Ef. destruct (decide (sync_fingerprint live pending closed visible = sco_fingerprint st)); done.
    + apply raise_if_ok in Ess as [E3 Ess]. apply orb_false_iff in E3 as [E3 _].
      destruct (begin_input name name _ []) as [b0 [ctx|]]; [|done].
      apply rbind_ok in Ess as (backend & _ & Ess). apply raise_if_ok in Ess as [_ Ess]. injection Ess as <-.
      right. split_and!; [lia|done..].
Qed.

(** ** Sequences of requests *)

(** The worker's files and its registry; each request is one step under the lock. *)
Inductive registry_step : fs * FileRegistry -> fs * FileRegistry -> Prop :=
| RsSync s r scope revision live pending closed visible :
    registry_step (s, r) (s, (sync scope revision live pending closed visible r).1)
| RsExecute s r ev scope revision operation_id action args :
    registry_step (s, r) ((execute ev scope revision operation_id action args s r).1,
                          (execute ev scope revision operation_id action args s r).2.1)
| RsFiles s s' r :          (* anybody else changes the files *)
    registry_step (s, r) (s', r).

(** An operation the scope has executed with a proof. *)
Definition executed (st : _Scope) (o : string) : Prop :=
  o ∈ dkeys (sco_staged st) \/ o ∈ sco_retired_operations st.

Record scope_ok (st : _Scope) : Prop := {
  so_backed : forall r item, (r, item) ∈ sco_live st -> r ∉ sco_retired_results st /\ backed (sco_staged st) item;
  so_staged : forall o, o ∈ dkeys (sco_staged st) -> o ∉ sco_retired_operations st
}.

(** What one request can do to a scope that exists. *)
Record evolves (st st' : _Scope) : Prop := {
  ev_revision : sco_revision st <= sco_revision st';
  ev_closed : sco_closed st = true -> sco_closed st' = true /\ sco_live st' = sco_live st /\ sco_staged st' = sco_staged st;
  ev_results : forall x, x ∈ sco_retired_results st -> x ∈ sco_retired_results st';
  ev_operations : forall o, o ∈ sco_retired_operations st -> o ∈ sco_retired_operations st';
  ev_executed : forall o, executed st o -> executed st' o
}.

Lemma evolves_refl st : evolves st st.
Proof. by split; auto; lia. Qed.

Lemma evolves_trans a b c : evolves a b -> evolves b c -> evolves a c.
Proof.
  intros [] []. split; auto; [lia|]. intros H. destruct (ev_closed0 H) as (? & <- & <-). auto.
Qed.

Lemma new_scope_ok : scope_ok new_scope.
Proof. split; [intros r item H|intros o H]; by apply elem_of_nil in H. Qed.

Lemma live_operations_elem (live : dict string json) r item oid :
  (r, item) ∈ live -> item_operation item = Some oid -> oid ∈ live_operations live.
Proof. intros H E. apply list_elem_of_bind. exists (r, item). simpl. rewrite E. split; [by apply list_elem_of_singleton|done]. Qed.

Lemma dkeys_filter_key (keep : list string) {V} (d : dict string V) o :
  o ∈ dkeys (filter (fun p => p.1 ∈ keep) d) <-> o ∈ keep /\ o ∈ dkeys d.
Proof.
  unfold dkeys. rewrite !list_elem_of_fmap. setoid_rewrite list_elem_of_filter. split.
  - intros ((k & v) & -> & ? & ?). split; [done|]. by exists (k, v).
  - intros (HP & (k & v) & -> & ?). by exists (k, v).
Qed.

Lemma dget_filter_keep (keep : list string) {V} (d : dict string V) o :
  o ∈ keep -> dget o (filter (fun p => p.1 ∈ keep) d) = dget o d.
Proof. intros HP. pose proof (dget_filter_key (fun k => k ∈ keep) o d) as E. rewrite decide_True in E by done. exact E. Qed.

Lemma synced_ok scope st a fp b0 backend :
  scope_ok st -> rfold (accept_item scope st) b0 (sy_live a) = Ok backend ->
  (forall o, o ∈ sy_pending a ++ live_operations (sy_live a) -> o ∉ sco_retired_operations st) ->
  scope_ok (synced st a fp backend).
Proof.
  intros [Hb Hs] Ha Hfresh. split; simpl.
  - intros r item Hin. destruct (accept_items_ok _ _ _ _ _ Ha r item Hin) as (Hr & (oid & original & m & Eo & Eg & Em & Ev) & _).
    split.
    + intros [?|H]%set_union_inv; [done|]. apply list_elem_of_filter in H as [H _]. apply H.
      apply list_elem_of_fmap. by exists (r, item).
    + exists oid, original, m. split_and!; [done| |done..]. etransitivity; [apply (dget_filter_keep (sy_pending a ++ live_operations (sy_live a)))|exact Eg].
      apply elem_of_app. right. by eapply live_operations_elem.
  - intros o [Hk Ho]%(dkeys_filter_key (sy_pending a ++ live_operations (sy_live a))). intros [?|H]%set_union_inv; [by apply (Hs o)|].
    by apply list_elem_of_filter in H as [H _].
Qed.

Lemma synced_evolves st a fp backend :
  sco_revision st < sy_revision a -> sco_closed st = false -> evolves st (synced st a fp backend).
Proof.
  intros Hr Hc. split; simpl.
  - lia.
  - congruence.
  - intros x Hx. by apply set_union_l.
  - intros o Ho. by apply set_union_l.
  - intros o [Ho|Ho]; [|right; simpl; by apply set_union_l].
    destruct (decide (o ∈ sy_pending a ++ live_operations (sy_live a))) as [Hk|Hk].
    + left. by apply (dkeys_filter_key (sy_pending a ++ live_operations (sy_live a))).
    + right. apply set_union_r. by apply list_elem_of_filter.
Qed.

Lemma sync_scope_evolves scope st a fp st' :
  sync_scope scope st a fp = Ok st' -> scope_ok st -> scope_ok st' /\ evolves st st'.
Proof.
  intros [->|(ctx & b0 & backend & Hr & Hc & _ & Ha & Hf & ->)]%sync_scope_cases Hok.
  - split; [done|apply evolves_refl].
  - split; [by eapply synced_ok|by apply synced_evolves].
Qed.

Lemma set_backend_evolves b st : scope_ok st -> scope_ok (set_backend b st) /\ evolves st (set_backend b st).
Proof. intros []. split; [done|]. split; simpl; auto; lia. Qed.

Lemma stage_evolves oid delivery st :
  scope_ok st -> sco_closed st = false -> oid ∉ sco_retired_operations st -> dget oid (sco_staged st) = None ->
  scope_ok (stage oid delivery st) /\ evolves st (stage oid delivery st).
Proof.
  intros Hok Hc Hr Hn. destruct delivery as [[|p d]|]; [split; [done|apply evolves_refl]| |split; [done|apply evolves_refl]].
  destruct Hok as [Hb Hs]. split; split; simpl.
  - intros r item Hin. destruct (Hb r item Hin) as (? & o & original & m & Eo & Eg & Em & Ev). split; [done|].
    exists o, original, m. split_and!; [done| |done..]. rewrite dget_dset_ne; [done|]. congruence.
  - intros o [->|Ho]%elem_dkeys_dset; [done|by apply Hs].
  - lia.
  - congruence.
  - auto.
  - auto.
  - intros o [Ho|Ho]; [left|by right]. simpl. apply elem_dkeys_dset. by right.
Qed.

Lemma admits_ok st rev oid args a :
  admits st rev oid args = Ok a ->
  sco_closed st = false /\ rev = sco_revision st /\ oid ∉ sco_retired_operations st /\ dget oid (sco_staged st) = None.
Proof.
  unfold admits. rewrite raise_if_ok. intros [E H]. destruct args; try done. apply raise_if_ok in H as [E2 _].
  apply orb_false_iff in E2 as [E2 E3]. apply bool_decide_eq_false in E2. apply dmem_false in E3.
  apply orb_false_iff in E as [E _]. apply orb_false_iff in E as [E1 E].
  apply negb_false_iff, Z.eqb_eq in E. done.
Qed.

Lemma execute_scope_evolves ev name st rev oid action args s :
  scope_ok st -> scope_ok (execute_scope ev name st rev oid action args s).2.1 /\
    evolves st (execute_scope ev name st rev oid action args s).2.1.
Proof.
  intros Hok. unfold execute_scope. destruct (admits st rev oid args) as [a|] eqn:Ea; [|split; [done|apply evolves_refl]].
  apply admits_ok in Ea as (Hc & _ & Hr & Hn).
  destruct (context name (sco_backend st)) as [b [ctx|]]; [|by apply set_backend_evolves].
  destruct (action_of action) as [act|]; [|by apply set_backend_evolves].
  destruct (run_tool ev name act a s _) as [s' [c r]].
  destruct (set_backend_evolves (sc_backend c) st Hok) as [Hok1 He1].
  destruct r as [res|[]]; [|done..]. cbn [snd fst].
  destruct (stage_evolves oid (cr_context_delivery res) (set_backend (sc_backend c) st)) as [? ?]; try done.
  split; [done|]. by eapply evolves_trans.
Qed.

Definition registry_ok (r : FileRegistry) : Prop :=
  (forall name st, dget name (rg_scopes r) = Some st -> scope_ok st) /\ zlen (rg_scopes r) <= rg_capacity r.

(** [r'] continues [r]: no scope is lost, and each has only evolved. *)
Definition continues (r r' : FileRegistry) : Prop :=
  forall name st, dget name (rg_scopes r) = Some st -> exists st', dget name (rg_scopes r') = Some st' /\ evolves st st'.

Lemma continues_refl r : continues r r.
Proof. intros name st H. exists st. split; [done|apply evolves_refl]. Qed.

Lemma continues_trans a b c : continues a b -> continues b c -> continues a c.
Proof.
  intros H1 H2 name st (st1 & (st2 & ? & ?)%H2 & ?)%H1. exists st2. split; [done|]. by eapply evolves_trans.
Qed.

Lemma scope_step scope r r' x :
  _scope scope r = (r', x) -> registry_ok r -> registry_ok r' /\ continues r r'.
Proof.
  intros H%scope_lookup Hr. destruct x as [[name st]|]; [|subst; split; [done|apply continues_refl]].
  destruct H as (_ & _ & [->|(Hn & -> & Hs & Hc & Hlt)]); [split; [done|apply continues_refl]|].
  destruct Hr as [Hall Hcap]. split; [split|]; rewrite ?Hs, ?Hc.
  - intros other st. rewrite dget_dset. case_decide; [intros [= <-]; apply new_scope_ok|apply Hall].
  - unfold zlen in *. rewrite length_dset, (proj2 (dmem_false name (rg_scopes r)) Hn). lia.
  - intros other st Hst. exists st. rewrite Hs, dget_dset_ne by congruence. split; [done|apply evolves_refl].
Qed.

Lemma put_scope_step name st st' r :
  dget name (rg_scopes r) = Some st -> scope_ok st' -> evolves st st' -> registry_ok r ->
  registry_ok (put_scope name st' r).1 /\ continues r (put_scope name st' r).1.
Proof.
  intros Hst Hok He [Hall Hcap]. split; [split|]; simpl.
  - intros other st1. rewrite dget_dset. case_decide; [by intros [= <-]|apply Hall].
  - unfold zlen in *. rewrite length_dset, (proj2 (dmem_true name (rg_scopes r))) by eauto. lia.
  - intros other st1 H1. simpl. rewrite dget_dset. case_decide; subst.
    + exists st'. split; [done|]. congruence.
    + exists st1. split; [done|apply evolves_refl].
Qed.

Lemma sync_step scope revision live pending closed visible r :
  registry_ok r -> registry_ok (sync scope revision live pending closed visible r).1 /\
    continues r (sync scope revision live pending closed visible r).1.
Proof.
  intros Hr. unfold sync, sbind, slift. destruct (_scope scope r) as [r1 x] eqn:Es.
  destruct (scope_step _ _ _ _ Es Hr) as [Hr1 Hc1]. destruct x as [[name st]|]; [|exact (conj Hr1 Hc1)].
  apply scope_lookup in Es as (_ & Hst & _).
  destruct (sync_arguments revision live pending closed visible) as [a|]; [|exact (conj Hr1 Hc1)].
  destruct (sync_scope name st a _) as [st'|] eqn:Ess; [|exact (conj Hr1 Hc1)].
  destruct (sync_scope_evolves _ _ _ _ _ Ess) as [Hok He]; [by apply (proj1 Hr1 name)|].
  destruct (put_scope_step name st st' r1 Hst Hok He Hr1) as [Hp Hc2].
  split; [exact Hp|]. by eapply continues_trans.
Qed.

Lemma execute_step ev scope revision oid action args s r :
  registry_ok r -> registry_ok (execute ev scope revision oid action args s r).2.1 /\
    continues r (execute ev scope revision oid action args s r).2.1.
Proof.
  intros Hr. unfold execute. destruct (_scope scope r) as [r1 x] eqn:Es.
  destruct (scope_step _ _ _ _ Es Hr) as [Hr1 Hc1]. destruct x as [[name st]|]; [|exact (conj Hr1 Hc1)].
  apply scope_lookup in Es as (_ & Hst & _). destruct revision as [| |rev| | |]; try exact (conj Hr1 Hc1).
  destruct (execute_scope_evolves ev name st rev oid action args s) as [Hok He]; [by apply (proj1 Hr1 name)|].
  destruct (execute_scope ev name st rev oid action args s) as [s' [st' out]].
  destruct (put_scope_step name st st' r1 Hst Hok He Hr1) as [Hp Hc2].
  split; [exact Hp|]. by eapply continues_trans.
Qed.

Lemma registry_steps w w' :
  rtc registry_step w w' -> registry_ok w.2 -> registry_ok w'.2 /\ continues w.2 w'.2.
Proof.
  induction 1 as [w|w1 w2 w3 Hs Hrest IH]; intros Hok; [split; [done|apply continues_refl]|].
  assert (registry_ok w2.2 /\ continues w1.2 w2.2) as [Hok2 Hc].
  { destruct Hs; [by apply sync_step|by apply execute_step|split; [done|apply continues_refl]]. }
  destruct (IH Hok2) as [Hok3 Hc3]. split; [done|]. by eapply continues_trans.
Qed.

Lemma new_registry_ok capacity : 0 <= capacity -> registry_ok (new_registry capacity).
Proof. intros H. split; [done|]. exact H. Qed.

(** ** Where staged proofs come from *)

Definition registry_staged (r : FileRegistry) : Prop :=
  forall name st, dget name (rg_scopes r) = Some st -> staged_by_tools name st.

Lemma dget_filter_some (keep : list string) {V} (d : dict string V) o v :
  dget o (filter (fun p => p.1 ∈ keep) d) = Some v -> dget o d = Some v.
Proof.
  intros H. destruct (decide (o ∈ keep)) as [Hk|Hk]; [by rewrite dget_filter_keep in H|].
  pose proof (dget_filter_key (fun k => k ∈ keep) o d) as E. rewrite decide_False in E by done.
  pose proof (eq_trans (eq_sym H) E) as Hf. discriminate Hf.
Qed.

Lemma sync_scope_staged scope st a fp st' :
  sync_scope scope st a fp = Ok st' -> staged_by_tools scope st -> staged_by_tools scope st'.
Proof.
  intros [->|(ctx & b0 & backend & _ & _ & _ & _ & _ & ->)]%sync_scope_cases Hst; [done|].
  intros o d Hd. eapply Hst, dget_filter_some, Hd.
Qed.

Lemma execute_scope_staged ev name st rev oid action args s :
  staged_by_tools name st -> staged_by_tools name (execute_scope ev name st rev oid action args s).2.1.
Proof.
  intros Hst. unfold execute_scope. destruct (admits st rev oid args) as [a|]; [|done].
  destruct (context name (sco_backend st)) as [b [ctx|]]; [|done]. destruct (action_of action) as [act|]; [|done].
  pose proof (run_tool_proves ev name act a s (SessionCache b ctx (sco_visible st))) as Hp.
  destruct (run_tool ev name act a s _) as [s' [c r]] eqn:Er. cbn [fst snd] in *.
  destruct r as [res|[]]; try done. unfold stage. cbn [well_proved] in Hp. cbn [fst snd].
  destruct (cr_context_delivery res) as [d|] eqn:Ed; [|done]. destruct Hp as [m ->].
  intros o d. cbn. rewrite dget_dset. case_decide; [|apply Hst]. intros [= <-]. exists m. split; [done|].
  exists ev, act, a, s, (SessionCache b ctx (sco_visible st)). rewrite Er. by exists res.
Qed.

Lemma scope_staged scope r r1 name st :
  _scope scope r = (r1, Ok (name, st)) -> registry_staged r -> registry_staged r1 /\ staged_by_tools name st.
Proof.
  intros (_ & Hst & [->|(_ & -> & Hs & _)])%scope_lookup Hr; [split; [done|by eapply Hr]|].
  split; [|by intros o d]. intros other st1. rewrite Hs, dget_dset. case_decide; [by intros [= <-] o d|apply Hr].
Qed.

Lemma put_scope_staged name st r :
  staged_by_tools name st -> registry_staged r -> registry_staged (put_scope name st r).1.
Proof. intros Hst Hr other st1. simpl. rewrite dget_dset. case_decide; [intros [= <-]; by subst|apply Hr]. Qed.

Lemma staged_step w w' : registry_step w w' -> registry_staged w.2 -> registry_staged w'.2.
Proof.
  intros [s r scope revision live pending closed visible|s r ev scope revision oid action args|] Hr; [| |done]; simpl in *.
  - unfold sync, sbind at 1. destruct (_scope scope r) as [r1 [[name st]|]] eqn:Es.
    2:{ apply scope_lookup in Es. by subst r1. }
    destruct (scope_staged _ _ _ _ _ Es Hr) as [Hr1 Hst].
    destruct (sync_arguments revision live pending closed visible) as [a|]; [|done]. unfold sbind, slift.
    destruct (sync_scope name st a _) as [st'|] eqn:Ess; [|done].
    pose proof (put_scope_staged name st' r1 (sync_scope_staged _ _ _ _ _ Ess Hst) Hr1) as Hp.
    by destruct (put_scope name st' r1) as [r2 [[]|]].
  - unfold execute. destruct (_scope scope r) as [r1 [[name st]|]] eqn:Es.
    2:{ apply scope_lookup in Es. by subst r1. }
    destruct (scope_staged _ _ _ _ _ Es Hr) as [Hr1 Hst]. destruct revision as [| |rev| | |]; try done.
    pose proof (execute_scope_staged ev name st rev oid action args s Hst) as He.
    destruct (execute_scope ev name st rev oid action args s) as [s' [st' out]]. by apply put_scope_staged.
Qed.

Lemma registry_staged_reachable capacity s0 w :
  rtc registry_step (s0, new_registry capacity) w -> registry_staged w.2.
Proof.
  intros H. assert (H0 : registry_staged (s0, new_registry capacity).2) by done.
  induction H as [|w1 w2 w3 Hs _ IH]; [done|]. by eapply IH, staged_step.
Qed.

(** C6: authority in use is always proven.  In every reachable registry, whatever requests
    arrived and whatever happened to the files, each live result of a scope names an
    operation whose proof the scope still has staged, which a file tool run in that scope
    delivered; the manifest of the result parses and proves no more than that: the same
    file, version, operation and line count, no claim of a complete or empty file the
    proof did not make, inherited lines and parents unchanged or dropped, and every span
    a part of a span of the proof, on the same lines, within what was visible there.  No
    live result is a retired one, no staged operation is a retired one, and there are never
    more scopes than the capacity. *)
Theorem live_results_are_proven capacity s0 s r name st :
  0 <= capacity -> rtc registry_step (s0, new_registry capacity) (s, r) -> dget name (rg_scopes r) = Some st ->
  zlen (rg_scopes r) <= rg_capacity r /\
  (forall o, o ∈ dkeys (sco_staged st) -> o ∉ sco_retired_operations st) /\
  (forall rid item, (rid, item) ∈ sco_live st ->
     rid ∉ sco_retired_results st /\
     exists oid m0 m, item_operation item = Some oid /\ dget oid (sco_staged st) = Some (manifest_to_dict m0) /\
       tool_proof name m0 /\ item_manifest item = Ok (Some m) /\ narrows m m0).
Proof.
  intros Hc Hr Hst. destruct (registry_steps _ _ Hr (new_registry_ok _ Hc)) as [[Hall Hcap] _].
  pose proof (registry_staged_reachable _ _ _ Hr name st Hst) as Htools.
  destruct (Hall _ _ Hst) as [Hb Hs]. split_and!; [exact Hcap|done|]. intros rid item Hin.
  destruct (Hb rid item Hin) as (Hn & oid & original & m & Ho & Hg & Hm & Hv). split; [done|].
  destruct (Htools _ _ Hg) as (m0 & -> & Ht). exists oid, m0, m. split_and!; [done..|by apply validate_proof_iff].
Qed.

(** C10: retirement and closure are final.  Over any number of later requests a scope stays,
    its revision does not go back, a retired result is never live again and a retired
    operation never staged again; once closed it stays closed with the same results. *)
Theorem retirement_is_final capacity s0 s1 r1 s2 r2 name st :
  0 <= capacity -> rtc registry_step (s0, new_registry capacity) (s1, r1) -> rtc registry_step (s1, r1) (s2, r2) ->
  dget name (rg_scopes r1) = Some st ->
  exists st', dget name (rg_scopes r2) = Some st' /\ sco_revision st <= sco_revision st' /\
    (forall x, x ∈ sco_retired_results st -> x ∉ dkeys (sco_live st')) /\
    (forall o, o ∈ sco_retired_operations st -> o ∉ dkeys (sco_staged st')) /\
    (sco_closed st = true -> sco_closed st' = true /\ sco_live st' = sco_live st).
Proof.
  intros Hc H1 H2 Hst. destruct (registry_steps _ _ H1 (new_registry_ok _ Hc)) as [Hok1 _].
  destruct (registry_steps _ _ H2 Hok1) as [[Hall _] Hcont]. destruct (Hcont _ _ Hst) as (st' & Hst' & He).
  destruct (Hall _ _ Hst') as [Hb Hs]. destruct He as [Hrev Hcl Hres Hops _].
  exists st'. split_and!; [done..| | |].
  - intros x Hx (p & -> & Hin)%list_elem_of_fmap. destruct p as [rid item]. simpl in *.
    by destruct (Hb rid item Hin) as [Hn _]; apply Hn, Hres.
  - intros o Ho Hin. by apply (Hs o Hin), Hops.
  - intros H. by destruct (Hcl H) as (? & ? & _).
Qed.

Lemma admits_executed st rev oid args : executed st oid -> exists e, admits st rev oid args = Raise e.
Proof.
  intros He. destruct (admits st rev oid args) as [a|e] eqn:E; [exfalso|by exists e].
  apply admits_ok in E as (_ & _ & Hr & Hn). apply dget_None in Hn. by destruct He.
Qed.

Lemma execute_delivered ev name revision oid action args s r s' r' payload d :
  execute ev (JStr name) revision oid action args s r = (s', (r', Ok payload)) ->
  dget "context_delivery" payload = Some (JObj d) -> d <> [] ->
  exists st', dget name (rg_scopes r') = Some st' /\ executed st' oid.
Proof.
  unfold execute. destruct (_scope (JStr name) r) as [r1 x] eqn:Es. destruct x as [[name' st]|]; [|done].
  apply scope_lookup in Es as ([= <-] & Hst & _). destruct revision as [| |rev| | |]; try done.
  destruct (execute_scope ev name st rev oid action args s) as [s1 [st' out]] eqn:Ee. intros [= <- <- ->] Hd Hne.
  exists st'. split; [apply dget_dset_eq|]. revert Ee. unfold execute_scope.
  destruct (admits st rev oid args) as [a|]; [|done]. destruct (context name (sco_backend st)) as [b [ctx|]]; [|done].
  destruct (action_of action) as [act|]; [|done]. destruct (run_tool ev name act a s _) as [s2 [c res]].
  destruct res as [res|[]]; [|done..|].
  - intros [= <- <- <-]. unfold result_payload in Hd. cbn in Hd. destruct (cr_context_delivery res) as [d'|]; [|done].
    injection Hd as ->. left. destruct d as [|p d]; [done|]. simpl. apply elem_dkeys_dset. by left.
  - intros [= <- <- <-]. by cbn in Hd.
Qed.

(** C5: an operation takes effect at most once.  After [execute] has returned a result with
    a delivery for an operation, every later [execute] of the same operation in that scope
    raises and touches neither the files nor the scope, whatever its revision, action and
    arguments, and whatever requests came between. *)
Theorem operation_executes_once capacity s0 s r ev name revision oid action args s1 r1 payload d s2 r2
    ev' rev' action' args' :
  0 <= capacity -> rtc registry_step (s0, new_registry capacity) (s, r) ->
  execute ev (JStr name) revision oid action args s r = (s1, (r1, Ok payload)) ->
  dget "context_delivery" payload = Some (JObj d) -> d <> [] ->
  rtc registry_step (s1, r1) (s2, r2) ->
  exists e, let out := execute ev' (JStr name) rev' oid action' args' s2 r2 in
    out.1 = s2 /\ out.2.2 = Raise e /\ (forall n, dget n (rg_scopes out.2.1) = dget n (rg_scopes r2)).
Proof.
  intros Hc Hr Hex Hd Hne Hrest. destruct (registry_steps _ _ Hr (new_registry_ok _ Hc)) as [Hok _].
  destruct (execute_step ev (JStr name) revision oid action args s r Hok) as [Hok1 _]. rewrite Hex in Hok1. simpl in Hok1.
  destruct (execute_delivered _ _ _ _ _ _ _ _ _ _ _ _ Hex Hd Hne) as (st1 & Hst1 & He1).
  destruct (registry_steps _ _ Hrest Hok1) as [_ Hcont]. destruct (Hcont _ _ Hst1) as (st2 & Hst2 & Hev).
  apply (ev_executed _ _ Hev) in He1. unfold execute. destruct (_scope (JStr name) r2) as [r3 x] eqn:Es.
  apply scope_lookup in Es. destruct x as [[name' st]|e].
  - destruct Es as ([= <-] & Hst & [->|(Hn & _)]); [|simpl in *; congruence].
    replace st with st2 in * by (simpl in *; congruence). destruct rev' as [| |rev'| | |]; try by eexists.
    destruct (admits_executed st2 rev' oid args' He1) as [e Ea]. exists e. unfold execute_scope. rewrite Ea.
    split_and!; [done..|]. intros n. simpl. rewrite dget_dset. case_decide; [congruence|done].
  - subst. by exists e.
Qed.

(** ** A concrete session *)

Definition demo_exec : exec_env :=
  ExecEnv demo_platform demo_env false false false (fun _ _ _ => []) (fun _ => []) (fun t => t).
Definition demo_sync (revision : Z) (live : dict string json) (pending : list json) (r : FileRegistry) : FileRegistry :=
  (sync (JStr "w") (JInt revision) (JObj live) (JList pending) (JBool false) JNull r).1.
Definition demo_read (oid : string) (r : FileRegistry) : fs * (FileRegistry * res registry_error obj) :=
  execute demo_exec (JStr "w") (JInt 0) oid "read" (JObj [("file_path", JStr "/d/f")]) demo_fs r.
Definition demo_registry0 : FileRegistry := Eval vm_compute in demo_sync 0 [] [] (new_registry 8).
Definition demo_registry1 : FileRegistry := Eval vm_compute in (demo_read "op" demo_registry0).2.1.
Definition demo_payload : obj :=
  Eval vm_compute in match (demo_read "op" demo_registry0).2.2 with Ok p => p | Raise _ => [] end.
Definition demo_live : dict string json :=
  [("r1", JObj [("operation_id", JStr "op"); ("manifest", jget "context_delivery" demo_payload)])].
Definition demo_registry2 : FileRegistry := Eval vm_compute in demo_sync 1 demo_live [] demo_registry1.
Definition demo_registry3 : FileRegistry := Eval vm_compute in demo_sync 2 [] [] demo_registry2.
Definition demo_scope (r : FileRegistry) : _Scope := default new_scope (dget "w" (rg_scopes r)).

Lemma demo_registry0_reachable : rtc registry_step (demo_fs, new_registry 8) (demo_fs, demo_registry0).
Proof.
  eapply rtc_l; [|apply rtc_refl].
  assert (E : demo_registry0 = demo_sync 0 [] [] (new_registry 8)) by (vm_compute; reflexivity).
  rewrite E. apply RsSync.
Qed.

Lemma demo_read_eq : demo_read "op" demo_registry0 = (demo_fs, (demo_registry1, Ok demo_payload)).
Proof. vm_compute. reflexivity. Qed.

Lemma demo_registry2_reachable : rtc registry_step (demo_fs, new_registry 8) (demo_fs, demo_registry2).
Proof.
  etransitivity; [apply demo_registry0_reachable|].
  eapply rtc_l with (demo_fs, demo_registry1).
  - pose proof (RsExecute demo_fs demo_registry0 demo_exec (JStr "w") (JInt 0) "op" "read"
      (JObj [("file_path", JStr "/d/f")])) as H.
    change (execute _ _ _ _ _ _ _ _) with (demo_read "op" demo_registry0) in H. rewrite demo_read_eq in H. exact H.
  - eapply rtc_l; [|apply rtc_refl].
    assert (E : demo_registry2 = demo_sync 1 demo_live [] demo_registry1) by (vm_compute; reflexivity).
    rewrite E. apply RsSync.
Qed.

Lemma demo_registry3_reachable : rtc registry_step (demo_fs, demo_registry2) (demo_fs, demo_registry3).
Proof.
  eapply rtc_l; [|apply rtc_refl].
  assert (E : demo_registry3 = demo_sync 2 [] [] demo_registry2) by (vm_compute; reflexivity).
  rewrite E. apply RsSync.
Qed.

Lemma sync_fenced_all_or_nothing_witness :
  (sync (JStr "w") (JInt 1) (JObj demo_live) (JList []) (JBool false) JNull demo_registry1).2 = Ok 1 /\
  exists st', dget "w" (rg_scopes (demo_sync 1 demo_live [] demo_registry1)) = Some st' /\ sco_live st' = demo_live.
Proof.
  assert (E : (sync (JStr "w") (JInt 1) (JObj demo_live) (JList []) (JBool false) JNull demo_registry1).2 = Ok 1)
    by (vm_compute; reflexivity).
  split; [exact E|]. unfold demo_sync.
  destruct (sync (JStr "w") (JInt 1) (JObj demo_live) (JList []) (JBool false) JNull demo_registry1) as [r' out] eqn:Es.
  simpl in E. subst out. pose proof (sync_fenced_all_or_nothing _ _ _ _ _ _ _ _ _ Es) as H.
  destruct H as (name & st & st' & [= <-] & Hst & _ & Hst' & _ & [(Hr & _)|(_ & _ & _ & Hl)]).
  - exfalso. subst st. vm_compute in Hr. discriminate Hr.
  - exists st'. split; [exact Hst'|]. by injection Hl.
Defined.

Lemma live_results_are_proven_witness :
  dkeys (sco_live (demo_scope demo_registry2)) = ["r1"] /\
  exists oid m0 m, dget oid (sco_staged (demo_scope demo_registry2)) = Some (manifest_to_dict m0) /\ narrows m m0.
Proof.
  split; [vm_compute; reflexivity|].
  destruct (live_results_are_proven 8 demo_fs demo_fs demo_registry2 "w" (demo_scope demo_registry2)) as (_ & _ & H).
  - lia.
  - exact demo_registry2_reachable.
  - vm_compute. reflexivity.
  - destruct (H "r1" (jget "r1" (sco_live (demo_scope demo_registry2)))) as (_ & oid & m0 & m & _ & Hg & _ & _ & Hn).
    + apply list_elem_of_here.
    + by exists oid, m0, m.
Defined.

Lemma retirement_is_final_witness :
  sco_live (demo_scope demo_registry2) <> [] /\ "r1" ∈ sco_retired_results (demo_scope demo_registry3) /\
  exists st', dget "w" (rg_scopes demo_registry3) = Some st' /\ "r1" ∉ dkeys (sco_live st').
Proof.
  split; [vm_compute; discriminate|].
  assert (Hr : "r1" ∈ sco_retired_results (demo_scope demo_registry3)) by (vm_compute; apply list_elem_of_here).
  split; [exact Hr|].
  destruct (retirement_is_final 8 demo_fs demo_fs demo_registry3 demo_fs demo_registry3 "w" (demo_scope demo_registry3))
    as (st' & Hst & _ & Hres & _).
  - lia.
  - etransitivity; [apply demo_registry2_reachable|apply demo_registry3_reachable].
  - apply rtc_refl.
  - vm_compute. reflexivity.
  - exists st'. split; [exact Hst|]. by apply Hres.
Defined.

Lemma operation_executes_once_witness :
  exists e, (execute demo_exec (JStr "w") (JInt 2) "op" "edit" (JObj []) demo_fs demo_registry3).2.2 = Raise e.
Proof.
  destruct (operation_executes_once 8 demo_fs demo_fs demo_registry0 demo_exec "w" (JInt 0) "op" "read"
    (JObj [("file_path", JStr "/d/f")]) demo_fs demo_registry1 demo_payload
    (match jget "context_delivery" demo_payload with JObj d => d | _ => [] end) demo_fs demo_registry3
    demo_exec (JInt 2) "edit" (JObj [])) as (e & _ & H & _).
  - lia.
  - exact demo_registry0_reachable.
  - exact demo_read_eq.
  - vm_compute. reflexivity.
  - vm_compute. discriminate.
  - eapply rtc_l; [|exact demo_registry3_reachable].
    assert (E : demo_registry2 = demo_sync 1 demo_live [] demo_registry1) by (vm_compute; reflexivity).
    rewrite E. apply RsSync.
  - by exists e.
Defined.
