(* ===== verification/LifecycleTable.v ===== *)
(** * The remote lifecycle tables

    [pal_shell_contracts/_remote_transitions.py], entry by entry: the kinds, phases
    and events of a remote operation, the transition table with its self
    transitions left out, the observation permits and the three host tables.
    The string constants of the source are the constructors [K_*], [P_*], [E_*],
    [R_*] and [S_*]. *)

From S2P Require Import Prelude Dict.

(** [KINDS] *)
Inductive kind :=
| K_control
| K_execution
| K_privileged
| K_shutdown.

#[export] Instance kind_eq_dec : EqDecision kind.
Proof. solve_decision. Defined.

(** [PHASES] *)
Inductive phase :=
| P_absent
| P_delivery
| P_pending
| P_prepared
| P_preparing
| P_retired
| P_running
| P_signing
| P_submitting
| P_unknown
| P_unsigned_unknown.

#[export] Instance phase_eq_dec : EqDecision phase.
Proof. solve_decision. Defined.

(** [EVENTS] *)
Inductive event :=
| E_accepted
| E_approval
| E_cancel_unsigned
| E_claim
| E_control_complete
| E_epoch_changed
| E_foreign
| E_lost
| E_missing
| E_not_started
| E_pending
| E_prepare
| E_query_failed
| E_release
| E_restore_delivery
| E_restore_prepared
| E_restore_running
| E_restore_submitting
| E_restore_unknown
| E_restore_unsigned
| E_running
| E_sign
| E_terminal
| E_terminal_empty.

#[export] Instance event_eq_dec : EqDecision event.
Proof. solve_decision. Defined.

(** The relation of an observation to an operation, as [ExecutionGate.snapshot] names it. *)
Inductive relation_to :=
| R_exact
| R_session
| R_foreign.

#[export] Instance relation_to_eq_dec : EqDecision relation_to.
Proof. solve_decision. Defined.

(** The public states: the values of [PUBLIC_PHASE]. *)
Inductive pstate :=
| S_absent
| S_awaiting_approval
| S_delivery
| S_pending
| S_retired
| S_running
| S_submitting
| S_unknown.

#[export] Instance pstate_eq_dec : EqDecision pstate.
Proof. solve_decision. Defined.

(** The values of [POLL]. *)
Inductive poll :=
| Poll_adopt
| Poll_skip
| Poll_defer.

#[export] Instance poll_eq_dec : EqDecision poll.
Proof. solve_decision. Defined.

Definition KINDS : list kind :=
  [K_control; K_execution; K_privileged; K_shutdown].

Definition PHASES : list phase :=
  [P_absent; P_delivery; P_pending; P_prepared; P_preparing; P_retired; P_running; P_signing;
   P_submitting; P_unknown; P_unsigned_unknown].

Definition EVENTS : list event :=
  [E_accepted; E_approval; E_cancel_unsigned; E_claim; E_control_complete; E_epoch_changed;
   E_foreign; E_lost; E_missing; E_not_started; E_pending; E_prepare; E_query_failed;
   E_release; E_restore_delivery; E_restore_prepared; E_restore_running; E_restore_submitting;
   E_restore_unknown; E_restore_unsigned; E_running; E_sign; E_terminal; E_terminal_empty].

Definition PUBLIC_PHASE (p : phase) : pstate :=
  match p with
  | P_absent => S_absent
  | P_delivery => S_delivery
  | P_pending => S_pending
  | P_prepared => S_awaiting_approval
  | P_preparing => S_submitting
  | P_retired => S_retired
  | P_running => S_running
  | P_signing => S_submitting
  | P_submitting => S_submitting
  | P_unknown => S_unknown
  | P_unsigned_unknown => S_unknown
  end.

Definition UNSIGNED_PHASES : list phase := [P_prepared; P_preparing; P_unsigned_unknown].

Definition VALID_PHASES : list (kind * phase) :=
  [(K_control, P_absent); (K_control, P_pending); (K_control, P_retired);
   (K_control, P_submitting); (K_control, P_unknown); (K_execution, P_absent);
   (K_execution, P_delivery); (K_execution, P_pending); (K_execution, P_retired);
   (K_execution, P_running); (K_execution, P_submitting); (K_execution, P_unknown);
   (K_privileged, P_absent); (K_privileged, P_delivery); (K_privileged, P_pending);
   (K_privileged, P_prepared); (K_privileged, P_preparing); (K_privileged, P_retired);
   (K_privileged, P_running); (K_privileged, P_signing); (K_privileged, P_unknown);
   (K_privileged, P_unsigned_unknown); (K_shutdown, P_absent); (K_shutdown, P_pending);
   (K_shutdown, P_prepared); (K_shutdown, P_preparing); (K_shutdown, P_retired);
   (K_shutdown, P_signing); (K_shutdown, P_unknown); (K_shutdown, P_unsigned_unknown)].

Abbreviation edge := (kind * bool * phase * event * phase)%type.

Definition TRANSITIONS_control : list edge := [
  (K_control, false, P_absent, E_claim, P_submitting);
  (K_control, false, P_absent, E_restore_delivery, P_unknown);
  (K_control, false, P_absent, E_restore_prepared, P_unknown);
  (K_control, false, P_absent, E_restore_running, P_unknown);
  (K_control, false, P_absent, E_restore_submitting, P_unknown);
  (K_control, false, P_absent, E_restore_unknown, P_unknown);
  (K_control, false, P_absent, E_restore_unsigned, P_unknown);
  (K_control, false, P_delivery, E_control_complete, P_retired);
  (K_control, false, P_delivery, E_epoch_changed, P_unknown);
  (K_control, false, P_delivery, E_release, P_retired);
  (K_control, false, P_pending, E_control_complete, P_retired);
  (K_control, false, P_pending, E_epoch_changed, P_unknown);
  (K_control, false, P_pending, E_lost, P_unknown);
  (K_control, false, P_pending, E_missing, P_unknown);
  (K_control, false, P_pending, E_not_started, P_retired);
  (K_control, false, P_pending, E_query_failed, P_unknown);
  (K_control, false, P_pending, E_terminal_empty, P_unknown);
  (K_control, false, P_prepared, E_cancel_unsigned, P_retired);
  (K_control, false, P_prepared, E_control_complete, P_retired);
  (K_control, false, P_prepared, E_epoch_changed, P_unsigned_unknown);
  (K_control, false, P_prepared, E_lost, P_unsigned_unknown);
  (K_control, false, P_prepared, E_missing, P_unsigned_unknown);
  (K_control, false, P_prepared, E_not_started, P_retired);
  (K_control, false, P_prepared, E_sign, P_signing);
  (K_control, false, P_prepared, E_terminal_empty, P_unsigned_unknown);
  (K_control, false, P_preparing, E_approval, P_prepared);
  (K_control, false, P_preparing, E_cancel_unsigned, P_retired);
  (K_control, false, P_preparing, E_control_complete, P_retired);
  (K_control, false, P_preparing, E_epoch_changed, P_unsigned_unknown);
  (K_control, false, P_preparing, E_lost, P_unsigned_unknown);
  (K_control, false, P_preparing, E_missing, P_unsigned_unknown);
  (K_control, false, P_preparing, E_not_started, P_retired);
  (K_control, false, P_preparing, E_terminal_empty, P_unsigned_unknown);
  (K_control, false, P_running, E_control_complete, P_retired);
  (K_control, false, P_running, E_epoch_changed, P_unknown);
  (K_control, false, P_running, E_release, P_retired);
  (K_control, false, P_signing, E_control_complete, P_retired);
  (K_control, false, P_signing, E_epoch_changed, P_unknown);
  (K_control, false, P_signing, E_lost, P_unknown);
  (K_control, false, P_signing, E_missing, P_unknown);
  (K_control, false, P_signing, E_not_started, P_retired);
  (K_control, false, P_signing, E_pending, P_pending);
  (K_control, false, P_signing, E_query_failed, P_unknown);
  (K_control, false, P_signing, E_terminal_empty, P_unknown);
  (K_control, false, P_submitting, E_control_complete, P_retired);
  (K_control, false, P_submitting, E_epoch_changed, P_unknown);
  (K_control, false, P_submitting, E_lost, P_unknown);
  (K_control, false, P_submitting, E_missing, P_unknown);
  (K_control, false, P_submitting, E_not_started, P_retired);
  (K_control, false, P_submitting, E_pending, P_pending);
  (K_control, false, P_submitting, E_query_failed, P_unknown);
  (K_control, false, P_submitting, E_terminal_empty, P_unknown);
  (K_control, false, P_unknown, E_control_complete, P_retired);
  (K_control, false, P_unknown, E_not_started, P_retired);
  (K_control, false, P_unknown, E_pending, P_pending);
  (K_control, false, P_unsigned_unknown, E_approval, P_prepared);
  (K_control, false, P_unsigned_unknown, E_cancel_unsigned, P_retired);
  (K_control, false, P_unsigned_unknown, E_control_complete, P_retired);
  (K_control, false, P_unsigned_unknown, E_not_started, P_retired);
  (K_control, false, P_unsigned_unknown, E_sign, P_signing);
  (K_control, true, P_absent, E_claim, P_submitting);
  (K_control, true, P_absent, E_restore_delivery, P_unknown);
  (K_control, true, P_absent, E_restore_prepared, P_unknown);
  (K_control, true, P_absent, E_restore_running, P_unknown);
  (K_control, true, P_absent, E_restore_submitting, P_unknown);
  (K_control, true, P_absent, E_restore_unknown, P_unknown);
  (K_control, true, P_absent, E_restore_unsigned, P_unknown);
  (K_control, true, P_delivery, E_control_complete, P_retired);
  (K_control, true, P_delivery, E_epoch_changed, P_unknown);
  (K_control, true, P_delivery, E_release, P_retired);
  (K_control, true, P_pending, E_control_complete, P_retired);
  (K_control, true, P_pending, E_epoch_changed, P_unknown);
  (K_control, true, P_pending, E_lost, P_unknown);
  (K_control, true, P_pending, E_missing, P_unknown);
  (K_control, true, P_pending, E_not_started, P_retired);
  (K_control, true, P_pending, E_query_failed, P_unknown);
  (K_control, true, P_pending, E_terminal_empty, P_unknown);
  (K_control, true, P_prepared, E_cancel_unsigned, P_retired);
  (K_control, true, P_prepared, E_control_complete, P_retired);
  (K_control, true, P_prepared, E_epoch_changed, P_unsigned_unknown);
  (K_control, true, P_prepared, E_lost, P_unsigned_unknown);
  (K_control, true, P_prepared, E_missing, P_unsigned_unknown);
  (K_control, true, P_prepared, E_not_started, P_retired);
  (K_control, true, P_prepared, E_sign, P_signing);
  (K_control, true, P_prepared, E_terminal_empty, P_unsigned_unknown);
  (K_control, true, P_preparing, E_approval, P_prepared);
  (K_control, true, P_preparing, E_cancel_unsigned, P_retired);
  (K_control, true, P_preparing, E_control_complete, P_retired);
  (K_control, true, P_preparing, E_epoch_changed, P_unsigned_unknown);
  (K_control, true, P_preparing, E_lost, P_unsigned_unknown);
  (K_control, true, P_preparing, E_missing, P_unsigned_unknown);
  (K_control, true, P_preparing, E_not_started, P_retired);
  (K_control, true, P_preparing, E_terminal_empty, P_unsigned_unknown);
  (K_control, true, P_running, E_control_complete, P_retired);
  (K_control, true, P_running, E_epoch_changed, P_unknown);
  (K_control, true, P_running, E_release, P_retired);
  (K_control, true, P_signing, E_control_complete, P_retired);
  (K_control, true, P_signing, E_epoch_changed, P_unknown);
  (K_control, true, P_signing, E_lost, P_unknown);
  (K_control, true, P_signing, E_missing, P_unknown);
  (K_control, true, P_signing, E_not_started, P_retired);
  (K_control, true, P_signing, E_pending, P_pending);
  (K_control, true, P_signing, E_query_failed, P_unknown);
  (K_control, true, P_signing, E_terminal_empty, P_unknown);
  (K_control, true, P_submitting, E_control_complete, P_retired);
  (K_control, true, P_submitting, E_epoch_changed, P_unknown);
  (K_control, true, P_submitting, E_lost, P_unknown);
  (K_control, true, P_submitting, E_missing, P_unknown);
  (K_control, true, P_submitting, E_not_started, P_retired);
  (K_control, true, P_submitting, E_pending, P_pending);
  (K_control, true, P_submitting, E_query_failed, P_unknown);
  (K_control, true, P_submitting, E_terminal_empty, P_unknown);
  (K_control, true, P_unknown, E_control_complete, P_retired);
  (K_control, true, P_unknown, E_not_started, P_retired);
  (K_control, true, P_unknown, E_pending, P_pending);
  (K_control, true, P_unsigned_unknown, E_approval, P_prepared);
  (K_control, true, P_unsigned_unknown, E_cancel_unsigned, P_retired);
  (K_control, true, P_unsigned_unknown, E_control_complete, P_retired);
  (K_control, true, P_unsigned_unknown, E_not_started, P_retired);
  (K_control, true, P_unsigned_unknown, E_sign, P_signing)
].

Definition TRANSITIONS_execution : list edge := [
  (K_execution, false, P_absent, E_claim, P_submitting);
  (K_execution, false, P_absent, E_restore_delivery, P_delivery);
  (K_execution, false, P_absent, E_restore_prepared, P_unknown);
  (K_execution, false, P_absent, E_restore_running, P_running);
  (K_execution, false, P_absent, E_restore_submitting, P_unknown);
  (K_execution, false, P_absent, E_restore_unknown, P_unknown);
  (K_execution, false, P_absent, E_restore_unsigned, P_unknown);
  (K_execution, false, P_delivery, E_epoch_changed, P_unknown);
  (K_execution, false, P_delivery, E_release, P_retired);
  (K_execution, false, P_delivery, E_terminal, P_retired);
  (K_execution, false, P_pending, E_epoch_changed, P_unknown);
  (K_execution, false, P_pending, E_lost, P_unknown);
  (K_execution, false, P_pending, E_missing, P_unknown);
  (K_execution, false, P_pending, E_not_started, P_retired);
  (K_execution, false, P_pending, E_query_failed, P_unknown);
  (K_execution, false, P_pending, E_running, P_running);
  (K_execution, false, P_pending, E_terminal, P_retired);
  (K_execution, false, P_pending, E_terminal_empty, P_unknown);
  (K_execution, false, P_prepared, E_cancel_unsigned, P_retired);
  (K_execution, false, P_prepared, E_epoch_changed, P_unsigned_unknown);
  (K_execution, false, P_prepared, E_lost, P_unsigned_unknown);
  (K_execution, false, P_prepared, E_missing, P_unsigned_unknown);
  (K_execution, false, P_prepared, E_not_started, P_retired);
  (K_execution, false, P_prepared, E_sign, P_signing);
  (K_execution, false, P_prepared, E_terminal_empty, P_unsigned_unknown);
  (K_execution, false, P_preparing, E_approval, P_prepared);
  (K_execution, false, P_preparing, E_cancel_unsigned, P_retired);
  (K_execution, false, P_preparing, E_epoch_changed, P_unsigned_unknown);
  (K_execution, false, P_preparing, E_lost, P_unsigned_unknown);
  (K_execution, false, P_preparing, E_missing, P_unsigned_unknown);
  (K_execution, false, P_preparing, E_not_started, P_retired);
  (K_execution, false, P_preparing, E_terminal_empty, P_unsigned_unknown);
  (K_execution, false, P_running, E_epoch_changed, P_unknown);
  (K_execution, false, P_running, E_release, P_retired);
  (K_execution, false, P_running, E_terminal, P_retired);
  (K_execution, false, P_signing, E_epoch_changed, P_unknown);
  (K_execution, false, P_signing, E_lost, P_unknown);
  (K_execution, false, P_signing, E_missing, P_unknown);
  (K_execution, false, P_signing, E_not_started, P_retired);
  (K_execution, false, P_signing, E_pending, P_pending);
  (K_execution, false, P_signing, E_query_failed, P_unknown);
  (K_execution, false, P_signing, E_running, P_running);
  (K_execution, false, P_signing, E_terminal, P_retired);
  (K_execution, false, P_signing, E_terminal_empty, P_unknown);
  (K_execution, false, P_submitting, E_epoch_changed, P_unknown);
  (K_execution, false, P_submitting, E_lost, P_unknown);
  (K_execution, false, P_submitting, E_missing, P_unknown);
  (K_execution, false, P_submitting, E_not_started, P_retired);
  (K_execution, false, P_submitting, E_pending, P_pending);
  (K_execution, false, P_submitting, E_query_failed, P_unknown);
  (K_execution, false, P_submitting, E_running, P_running);
  (K_execution, false, P_submitting, E_terminal, P_retired);
  (K_execution, false, P_submitting, E_terminal_empty, P_unknown);
  (K_execution, false, P_unknown, E_not_started, P_retired);
  (K_execution, false, P_unknown, E_pending, P_pending);
  (K_execution, false, P_unknown, E_running, P_running);
  (K_execution, false, P_unknown, E_terminal, P_retired);
  (K_execution, false, P_unsigned_unknown, E_approval, P_prepared);
  (K_execution, false, P_unsigned_unknown, E_cancel_unsigned, P_retired);
  (K_execution, false, P_unsigned_unknown, E_not_started, P_retired);
  (K_execution, false, P_unsigned_unknown, E_sign, P_signing);
  (K_execution, true, P_absent, E_claim, P_submitting);
  (K_execution, true, P_absent, E_restore_delivery, P_delivery);
  (K_execution, true, P_absent, E_restore_prepared, P_unknown);
  (K_execution, true, P_absent, E_restore_running, P_running);
  (K_execution, true, P_absent, E_restore_submitting, P_unknown);
  (K_execution, true, P_absent, E_restore_unknown, P_unknown);
  (K_execution, true, P_absent, E_restore_unsigned, P_unknown);
  (K_execution, true, P_delivery, E_epoch_changed, P_unknown);
  (K_execution, true, P_delivery, E_release, P_retired);
  (K_execution, true, P_pending, E_epoch_changed, P_unknown);
  (K_execution, true, P_pending, E_lost, P_unknown);
  (K_execution, true, P_pending, E_missing, P_unknown);
  (K_execution, true, P_pending, E_not_started, P_retired);
  (K_execution, true, P_pending, E_query_failed, P_unknown);
  (K_execution, true, P_pending, E_running, P_running);
  (K_execution, true, P_pending, E_terminal, P_delivery);
  (K_execution, true, P_pending, E_terminal_empty, P_unknown);
  (K_execution, true, P_prepared, E_cancel_unsigned, P_retired);
  (K_execution, true, P_prepared, E_epoch_changed, P_unsigned_unknown);
  (K_execution, true, P_prepared, E_lost, P_unsigned_unknown);
  (K_execution, true, P_prepared, E_missing, P_unsigned_unknown);
  (K_execution, true, P_prepared, E_not_started, P_retired);
  (K_execution, true, P_prepared, E_sign, P_signing);
  (K_execution, true, P_prepared, E_terminal_empty, P_unsigned_unknown);
  (K_execution, true, P_preparing, E_approval, P_prepared);
  (K_execution, true, P_preparing, E_cancel_unsigned, P_retired);
  (K_execution, true, P_preparing, E_epoch_changed, P_unsigned_unknown);
  (K_execution, true, P_preparing, E_lost, P_unsigned_unknown);
  (K_execution, true, P_preparing, E_missing, P_unsigned_unknown);
  (K_execution, true, P_preparing, E_not_started, P_retired);
  (K_execution, true, P_preparing, E_terminal_empty, P_unsigned_unknown);
  (K_execution, true, P_running, E_epoch_changed, P_unknown);
  (K_execution, true, P_running, E_release, P_retired);
  (K_execution, true, P_running, E_terminal, P_delivery);
  (K_execution, true, P_signing, E_epoch_changed, P_unknown);
  (K_execution, true, P_signing, E_lost, P_unknown);
  (K_execution, true, P_signing, E_missing, P_unknown);
  (K_execution, true, P_signing, E_not_started, P_retired);
  (K_execution, true, P_signing, E_pending, P_pending);
  (K_execution, true, P_signing, E_query_failed, P_unknown);
  (K_execution, true, P_signing, E_running, P_running);
  (K_execution, true, P_signing, E_terminal, P_delivery);
  (K_execution, true, P_signing, E_terminal_empty, P_unknown);
  (K_execution, true, P_submitting, E_epoch_changed, P_unknown);
  (K_execution, true, P_submitting, E_lost, P_unknown);
  (K_execution, true, P_submitting, E_missing, P_unknown);
  (K_execution, true, P_submitting, E_not_started, P_retired);
  (K_execution, true, P_submitting, E_pending, P_pending);
  (K_execution, true, P_submitting, E_query_failed, P_unknown);
  (K_execution, true, P_submitting, E_running, P_running);
  (K_execution, true, P_submitting, E_terminal, P_delivery);
  (K_execution, true, P_submitting, E_terminal_empty, P_unknown);
  (K_execution, true, P_unknown, E_not_started, P_retired);
  (K_execution, true, P_unknown, E_pending, P_pending);
  (K_execution, true, P_unknown, E_running, P_running);
  (K_execution, true, P_unknown, E_terminal, P_delivery);
  (K_execution, true, P_unsigned_unknown, E_approval, P_prepared);
  (K_execution, true, P_unsigned_unknown, E_cancel_unsigned, P_retired);
  (K_execution, true, P_unsigned_unknown, E_not_started, P_retired);
  (K_execution, true, P_unsigned_unknown, E_sign, P_signing)
].

Definition TRANSITIONS_privileged : list edge := [
  (K_privileged, false, P_absent, E_prepare, P_preparing);
  (K_privileged, false, P_absent, E_restore_delivery, P_delivery);
  (K_privileged, false, P_absent, E_restore_prepared, P_prepared);
  (K_privileged, false, P_absent, E_restore_running, P_running);
  (K_privileged, false, P_absent, E_restore_submitting, P_unknown);
  (K_privileged, false, P_absent, E_restore_unknown, P_unknown);
  (K_privileged, false, P_absent, E_restore_unsigned, P_unsigned_unknown);
  (K_privileged, false, P_delivery, E_epoch_changed, P_unknown);
  (K_privileged, false, P_delivery, E_release, P_retired);
  (K_privileged, false, P_delivery, E_terminal, P_retired);
  (K_privileged, false, P_pending, E_epoch_changed, P_unknown);
  (K_privileged, false, P_pending, E_lost, P_unknown);
  (K_privileged, false, P_pending, E_missing, P_unknown);
  (K_privileged, false, P_pending, E_not_started, P_retired);
  (K_privileged, false, P_pending, E_query_failed, P_unknown);
  (K_privileged, false, P_pending, E_running, P_running);
  (K_privileged, false, P_pending, E_terminal, P_retired);
  (K_privileged, false, P_pending, E_terminal_empty, P_unknown);
  (K_privileged, false, P_prepared, E_cancel_unsigned, P_retired);
  (K_privileged, false, P_prepared, E_epoch_changed, P_unsigned_unknown);
  (K_privileged, false, P_prepared, E_lost, P_unsigned_unknown);
  (K_privileged, false, P_prepared, E_missing, P_unsigned_unknown);
  (K_privileged, false, P_prepared, E_not_started, P_retired);
  (K_privileged, false, P_prepared, E_sign, P_signing);
  (K_privileged, false, P_prepared, E_terminal_empty, P_unsigned_unknown);
  (K_privileged, false, P_preparing, E_approval, P_prepared);
  (K_privileged, false, P_preparing, E_cancel_unsigned, P_retired);
  (K_privileged, false, P_preparing, E_epoch_changed, P_unsigned_unknown);
  (K_privileged, false, P_preparing, E_lost, P_unsigned_unknown);
  (K_privileged, false, P_preparing, E_missing, P_unsigned_unknown);
  (K_privileged, false, P_preparing, E_not_started, P_retired);
  (K_privileged, false, P_preparing, E_terminal_empty, P_unsigned_unknown);
  (K_privileged, false, P_running, E_epoch_changed, P_unknown);
  (K_privileged, false, P_running, E_release, P_retired);
  (K_privileged, false, P_running, E_terminal, P_retired);
  (K_privileged, false, P_signing, E_epoch_changed, P_unknown);
  (K_privileged, false, P_signing, E_lost, P_unknown);
  (K_privileged, false, P_signing, E_missing, P_unknown);
  (K_privileged, false, P_signing, E_not_started, P_retired);
  (K_privileged, false, P_signing, E_pending, P_pending);
  (K_privileged, false, P_signing, E_query_failed, P_unknown);
  (K_privileged, false, P_signing, E_running, P_running);
  (K_privileged, false, P_signing, E_terminal, P_retired);
  (K_privileged, false, P_signing, E_terminal_empty, P_unknown);
  (K_privileged, false, P_submitting, E_epoch_changed, P_unknown);
  (K_privileged, false, P_submitting, E_lost, P_unknown);
  (K_privileged, false, P_submitting, E_missing, P_unknown);
  (K_privileged, false, P_submitting, E_not_started, P_retired);
  (K_privileged, false, P_submitting, E_pending, P_pending);
  (K_privileged, false, P_submitting, E_query_failed, P_unknown);
  (K_privileged, false, P_submitting, E_running, P_running);
  (K_privileged, false, P_submitting, E_terminal, P_retired);
  (K_privileged, false, P_submitting, E_terminal_empty, P_unknown);
  (K_privileged, false, P_unknown, E_not_started, P_retired);
  (K_privileged, false, P_unknown, E_pending, P_pending);
  (K_privileged, false, P_unknown, E_running, P_running);
  (K_privileged, false, P_unknown, E_terminal, P_retired);
  (K_privileged, false, P_unsigned_unknown, E_approval, P_prepared);
  (K_privileged, false, P_unsigned_unknown, E_cancel_unsigned, P_retired);
  (K_privileged, false, P_unsigned_unknown, E_not_started, P_retired);
  (K_privileged, false, P_unsigned_unknown, E_sign, P_signing);
  (K_privileged, true, P_absent, E_prepare, P_preparing);
  (K_privileged, true, P_absent, E_restore_delivery, P_delivery);
  (K_privileged, true, P_absent, E_restore_prepared, P_prepared);
  (K_privileged, true, P_absent, E_restore_running, P_running);
  (K_privileged, true, P_absent, E_restore_submitting, P_unknown);
  (K_privileged, true, P_absent, E_restore_unknown, P_unknown);
  (K_privileged, true, P_absent, E_restore_unsigned, P_unsigned_unknown);
  (K_privileged, true, P_delivery, E_epoch_changed, P_unknown);
  (K_privileged, true, P_delivery, E_release, P_retired);
  (K_privileged, true, P_pending, E_epoch_changed, P_unknown);
  (K_privileged, true, P_pending, E_lost, P_unknown);
  (K_privileged, true, P_pending, E_missing, P_unknown);
  (K_privileged, true, P_pending, E_not_started, P_retired);
  (K_privileged, true, P_pending, E_query_failed, P_unknown);
  (K_privileged, true, P_pending, E_running, P_running);
  (K_privileged, true, P_pending, E_terminal, P_delivery);
  (K_privileged, true, P_pending, E_terminal_empty, P_unknown);
  (K_privileged, true, P_prepared, E_cancel_unsigned, P_retired);
  (K_privileged, true, P_prepared, E_epoch_changed, P_unsigned_unknown);
  (K_privileged, true, P_prepared, E_lost, P_unsigned_unknown);
  (K_privileged, true, P_prepared, E_missing, P_unsigned_unknown);
  (K_privileged, true, P_prepared, E_not_started, P_retired);
  (K_privileged, true, P_prepared, E_sign, P_signing);
  (K_privileged, true, P_prepared, E_terminal_empty, P_unsigned_unknown);
  (K_privileged, true, P_preparing, E_approval, P_prepared);
  (K_privileged, true, P_preparing, E_cancel_unsigned, P_retired);
  (K_privileged, true, P_preparing, E_epoch_changed, P_unsigned_unknown);
  (K_privileged, true, P_preparing, E_lost, P_unsigned_unknown);
  (K_privileged, true, P_preparing, E_missing, P_unsigned_unknown);
  (K_privileged, true, P_preparing, E_not_started, P_retired);
  (K_privileged, true, P_preparing, E_terminal_empty, P_unsigned_unknown);
  (K_privileged, true, P_running, E_epoch_changed, P_unknown);
  (K_privileged, true, P_running, E_release, P_retired);
  (K_privileged, true, P_running, E_terminal, P_delivery);
  (K_privileged, true, P_signing, E_epoch_changed, P_unknown);
  (K_privileged, true, P_signing, E_lost, P_unknown);
  (K_privileged, true, P_signing, E_missing, P_unknown);
  (K_privileged, true, P_signing, E_not_started, P_retired);
  (K_privileged, true, P_signing, E_pending, P_pending);
  (K_privileged, true, P_signing, E_query_failed, P_unknown);
  (K_privileged, true, P_signing, E_running, P_running);
  (K_privileged, true, P_signing, E_terminal, P_delivery);
  (K_privileged, true, P_signing, E_terminal_empty, P_unknown);
  (K_privileged, true, P_submitting, E_epoch_changed, P_unknown);
  (K_privileged, true, P_submitting, E_lost, P_unknown);
  (K_privileged, true, P_submitting, E_missing, P_unknown);
  (K_privileged, true, P_submitting, E_not_started, P_retired);
  (K_privileged, true, P_submitting, E_pending, P_pending);
  (K_privileged, true, P_submitting, E_query_failed, P_unknown);
  (K_privileged, true, P_submitting, E_running, P_running);
  (K_privileged, true, P_submitting, E_terminal, P_delivery);
  (K_privileged, true, P_submitting, E_terminal_empty, P_unknown);
  (K_privileged, true, P_unknown, E_not_started, P_retired);
  (K_privileged, true, P_unknown, E_pending, P_pending);
  (K_privileged, true, P_unknown, E_running, P_running);
  (K_privileged, true, P_unknown, E_terminal, P_delivery);
  (K_privileged, true, P_unsigned_unknown, E_approval, P_prepared);
  (K_privileged, true, P_unsigned_unknown, E_cancel_unsigned, P_retired);
  (K_privileged, true, P_unsigned_unknown, E_not_started, P_retired);
  (K_privileged, true, P_unsigned_unknown, E_sign, P_signing)
].

Definition TRANSITIONS_shutdown : list edge := [
  (K_shutdown, false, P_absent, E_prepare, P_preparing);
  (K_shutdown, false, P_absent, E_restore_delivery, P_unknown);
  (K_shutdown, false, P_absent, E_restore_prepared, P_prepared);
  (K_shutdown, false, P_absent, E_restore_running, P_unknown);
  (K_shutdown, false, P_absent, E_restore_submitting, P_unknown);
  (K_shutdown, false, P_absent, E_restore_unknown, P_unknown);
  (K_shutdown, false, P_absent, E_restore_unsigned, P_unsigned_unknown);
  (K_shutdown, false, P_delivery, E_epoch_changed, P_unknown);
  (K_shutdown, false, P_delivery, E_release, P_retired);
  (K_shutdown, false, P_pending, E_accepted, P_retired);
  (K_shutdown, false, P_pending, E_epoch_changed, P_unknown);
  (K_shutdown, false, P_pending, E_lost, P_unknown);
  (K_shutdown, false, P_pending, E_missing, P_unknown);
  (K_shutdown, false, P_pending, E_not_started, P_retired);
  (K_shutdown, false, P_pending, E_query_failed, P_unknown);
  (K_shutdown, false, P_pending, E_terminal_empty, P_unknown);
  (K_shutdown, false, P_prepared, E_cancel_unsigned, P_retired);
  (K_shutdown, false, P_prepared, E_epoch_changed, P_unsigned_unknown);
  (K_shutdown, false, P_prepared, E_lost, P_unsigned_unknown);
  (K_shutdown, false, P_prepared, E_missing, P_unsigned_unknown);
  (K_shutdown, false, P_prepared, E_not_started, P_retired);
  (K_shutdown, false, P_prepared, E_sign, P_signing);
  (K_shutdown, false, P_prepared, E_terminal_empty, P_unsigned_unknown);
  (K_shutdown, false, P_preparing, E_approval, P_prepared);
  (K_shutdown, false, P_preparing, E_cancel_unsigned, P_retired);
  (K_shutdown, false, P_preparing, E_epoch_changed, P_unsigned_unknown);
  (K_shutdown, false, P_preparing, E_lost, P_unsigned_unknown);
  (K_shutdown, false, P_preparing, E_missing, P_unsigned_unknown);
  (K_shutdown, false, P_preparing, E_not_started, P_retired);
  (K_shutdown, false, P_preparing, E_terminal_empty, P_unsigned_unknown);
  (K_shutdown, false, P_running, E_epoch_changed, P_unknown);
  (K_shutdown, false, P_running, E_release, P_retired);
  (K_shutdown, false, P_signing, E_accepted, P_retired);
  (K_shutdown, false, P_signing, E_epoch_changed, P_unknown);
  (K_shutdown, false, P_signing, E_lost, P_unknown);
  (K_shutdown, false, P_signing, E_missing, P_unknown);
  (K_shutdown, false, P_signing, E_not_started, P_retired);
  (K_shutdown, false, P_signing, E_pending, P_pending);
  (K_shutdown, false, P_signing, E_query_failed, P_unknown);
  (K_shutdown, false, P_signing, E_terminal_empty, P_unknown);
  (K_shutdown, false, P_submitting, E_accepted, P_retired);
  (K_shutdown, false, P_submitting, E_epoch_changed, P_unknown);
  (K_shutdown, false, P_submitting, E_lost, P_unknown);
  (K_shutdown, false, P_submitting, E_missing, P_unknown);
  (K_shutdown, false, P_submitting, E_not_started, P_retired);
  (K_shutdown, false, P_submitting, E_pending, P_pending);
  (K_shutdown, false, P_submitting, E_query_failed, P_unknown);
  (K_shutdown, false, P_submitting, E_terminal_empty, P_unknown);
  (K_shutdown, false, P_unknown, E_accepted, P_retired);
  (K_shutdown, false, P_unknown, E_not_started, P_retired);
  (K_shutdown, false, P_unknown, E_pending, P_pending);
  (K_shutdown, false, P_unsigned_unknown, E_approval, P_prepared);
  (K_shutdown, false, P_unsigned_unknown, E_cancel_unsigned, P_retired);
  (K_shutdown, false, P_unsigned_unknown, E_not_started, P_retired);
  (K_shutdown, false, P_unsigned_unknown, E_sign, P_signing);
  (K_shutdown, true, P_absent, E_prepare, P_preparing);
  (K_shutdown, true, P_absent, E_restore_delivery, P_unknown);
  (K_shutdown, true, P_absent, E_restore_prepared, P_prepared);
  (K_shutdown, true, P_absent, E_restore_running, P_unknown);
  (K_shutdown, true, P_absent, E_restore_submitting, P_unknown);
  (K_shutdown, true, P_absent, E_restore_unknown, P_unknown);
  (K_shutdown, true, P_absent, E_restore_unsigned, P_unsigned_unknown);
  (K_shutdown, true, P_delivery, E_epoch_changed, P_unknown);
  (K_shutdown, true, P_delivery, E_release, P_retired);
  (K_shutdown, true, P_pending, E_accepted, P_retired);
  (K_shutdown, true, P_pending, E_epoch_changed, P_unknown);
  (K_shutdown, true, P_pending, E_lost, P_unknown);
  (K_shutdown, true, P_pending, E_missing, P_unknown);
  (K_shutdown, true, P_pending, E_not_started, P_retired);
  (K_shutdown, true, P_pending, E_query_failed, P_unknown);
  (K_shutdown, true, P_pending, E_terminal_empty, P_unknown);
  (K_shutdown, true, P_prepared, E_cancel_unsigned, P_retired);
  (K_shutdown, true, P_prepared, E_epoch_changed, P_unsigned_unknown);
  (K_shutdown, true, P_prepared, E_lost, P_unsigned_unknown);
  (K_shutdown, true, P_prepared, E_missing, P_unsigned_unknown);
  (K_shutdown, true, P_prepared, E_not_started, P_retired);
  (K_shutdown, true, P_prepared, E_sign, P_signing);
  (K_shutdown, true, P_prepared, E_terminal_empty, P_unsigned_unknown);
  (K_shutdown, true, P_preparing, E_approval, P_prepared);
  (K_shutdown, true, P_preparing, E_cancel_unsigned, P_retired);
  (K_shutdown, true, P_preparing, E_epoch_changed, P_unsigned_unknown);
  (K_shutdown, true, P_preparing, E_lost, P_unsigned_unknown);
  (K_shutdown, true, P_preparing, E_missing, P_unsigned_unknown);
  (K_shutdown, true, P_preparing, E_not_started, P_retired);
  (K_shutdown, true, P_preparing, E_terminal_empty, P_unsigned_unknown);
  (K_shutdown, true, P_running, E_epoch_changed, P_unknown);
  (K_shutdown, true, P_running, E_release, P_retired);
  (K_shutdown, true, P_signing, E_accepted, P_retired);
  (K_shutdown, true, P_signing, E_epoch_changed, P_unknown);
  (K_shutdown, true, P_signing, E_lost, P_unknown);
  (K_shutdown, true, P_signing, E_missing, P_unknown);
  (K_shutdown, true, P_signing, E_not_started, P_retired);
  (K_shutdown, true, P_signing, E_pending, P_pending);
  (K_shutdown, true, P_signing, E_query_failed, P_unknown);
  (K_shutdown, true, P_signing, E_terminal_empty, P_unknown);
  (K_shutdown, true, P_submitting, E_accepted, P_retired);
  (K_shutdown, true, P_submitting, E_epoch_changed, P_unknown);
  (K_shutdown, true, P_submitting, E_lost, P_unknown);
  (K_shutdown, true, P_submitting, E_missing, P_unknown);
  (K_shutdown, true, P_submitting, E_not_started, P_retired);
  (K_shutdown, true, P_submitting, E_pending, P_pending);
  (K_shutdown, true, P_submitting, E_query_failed, P_unknown);
  (K_shutdown, true, P_submitting, E_terminal_empty, P_unknown);
  (K_shutdown, true, P_unknown, E_accepted, P_retired);
  (K_shutdown, true, P_unknown, E_not_started, P_retired);
  (K_shutdown, true, P_unknown, E_pending, P_pending);
  (K_shutdown, true, P_unsigned_unknown, E_approval, P_prepared);
  (K_shutdown, true, P_unsigned_unknown, E_cancel_unsigned, P_retired);
  (K_shutdown, true, P_unsigned_unknown, E_not_started, P_retired);
  (K_shutdown, true, P_unsigned_unknown, E_sign, P_signing)
].

Definition TRANSITIONS : dict (kind * bool * phase * event) phase :=
  TRANSITIONS_control ++ TRANSITIONS_execution ++ TRANSITIONS_privileged ++ TRANSITIONS_shutdown.

Definition PERMITTED : list (kind * phase * relation_to * bool) := [
  (K_control, P_absent, R_exact, true);
  (K_control, P_delivery, R_exact, true);
  (K_control, P_pending, R_exact, true);
  (K_control, P_prepared, R_exact, true);
  (K_control, P_preparing, R_exact, true);
  (K_control, P_retired, R_exact, true);
  (K_control, P_running, R_exact, true);
  (K_control, P_signing, R_exact, true);
  (K_control, P_submitting, R_exact, true);
  (K_control, P_unknown, R_exact, true);
  (K_control, P_unsigned_unknown, R_exact, true);
  (K_execution, P_absent, R_exact, true);
  (K_execution, P_delivery, R_exact, true);
  (K_execution, P_delivery, R_session, true);
  (K_execution, P_pending, R_exact, true);
  (K_execution, P_prepared, R_exact, true);
  (K_execution, P_preparing, R_exact, true);
  (K_execution, P_retired, R_exact, true);
  (K_execution, P_running, R_exact, true);
  (K_execution, P_running, R_session, true);
  (K_execution, P_signing, R_exact, true);
  (K_execution, P_submitting, R_exact, true);
  (K_execution, P_unknown, R_exact, true);
  (K_execution, P_unsigned_unknown, R_exact, true);
  (K_privileged, P_absent, R_exact, true);
  (K_privileged, P_delivery, R_exact, true);
  (K_privileged, P_delivery, R_session, true);
  (K_privileged, P_pending, R_exact, true);
  (K_privileged, P_prepared, R_exact, true);
  (K_privileged, P_preparing, R_exact, true);
  (K_privileged, P_retired, R_exact, true);
  (K_privileged, P_running, R_exact, true);
  (K_privileged, P_running, R_session, true);
  (K_privileged, P_signing, R_exact, true);
  (K_privileged, P_submitting, R_exact, true);
  (K_privileged, P_unknown, R_exact, true);
  (K_privileged, P_unsigned_unknown, R_exact, true);
  (K_shutdown, P_absent, R_exact, true);
  (K_shutdown, P_delivery, R_exact, true);
  (K_shutdown, P_pending, R_exact, true);
  (K_shutdown, P_prepared, R_exact, true);
  (K_shutdown, P_preparing, R_exact, true);
  (K_shutdown, P_retired, R_exact, true);
  (K_shutdown, P_running, R_exact, true);
  (K_shutdown, P_signing, R_exact, true);
  (K_shutdown, P_submitting, R_exact, true);
  (K_shutdown, P_unknown, R_exact, true);
  (K_shutdown, P_unsigned_unknown, R_exact, true)
].

Definition ADOPT : dict (bool * bool * bool) bool :=
  [((false, false, false), false); ((false, false, true), false);
   ((false, true, false), false); ((false, true, true), false); ((true, false, false), false);
   ((true, false, true), true); ((true, true, false), false); ((true, true, true), false)].

Definition STALE : dict (bool * bool * bool * bool) bool :=
  [((false, false, false, false), false); ((false, false, false, true), true);
   ((false, false, true, false), true); ((false, false, true, true), true);
   ((false, true, false, false), true); ((false, true, false, true), true);
   ((false, true, true, false), true); ((false, true, true, true), true);
   ((true, false, false, false), true); ((true, false, false, true), true);
   ((true, false, true, false), true); ((true, false, true, true), true);
   ((true, true, false, false), true); ((true, true, false, true), true);
   ((true, true, true, false), true); ((true, true, true, true), true)].

Definition POLL : dict (bool * bool) poll :=
  [((false, false), Poll_defer); ((false, true), Poll_skip); ((true, false), Poll_adopt);
   ((true, true), Poll_adopt)].
