(* ===== verification/Lifecycle.v ===== *)
(** * The remote operation lifecycle

    [pal_shell_contracts/remote_lifecycle.py] over the generated tables, and the
    normative operators of [spec/remote/RemoteOperation.tla] as the reference the
    tables are checked against. *)

From S2P Require Import Prelude Dict LifecycleTable.
Open Scope Z_scope.

(** ** The adapter *)

(** The two [ValueError]s of [next_phase]. *)
Inductive lifecycle_error := InvalidTransition | InvalidTarget.

Definition TERMINAL : list string := ["exited"; "cancelled"; "timed_out"; "failed"].
Definition terminal (status : string) : bool := bool_decide (status ∈ TERMINAL).

Definition valid_phase (k : kind) (p : phase) : bool := bool_decide ((k, p) ∈ VALID_PHASES).

Definition transition (k : kind) (hold_output : bool) (p : phase) (e : event) : phase :=
  default p (dget (k, hold_output, p, e) TRANSITIONS).

Definition next_phase (k : kind) (hold_output : bool) (p : phase) (e : event)
    : res lifecycle_error phase :=
  raise_if negb (valid_phase k p) with InvalidTransition ;;
  let target := transition k hold_output p e in
  raise_if negb (valid_phase k target) with InvalidTarget ;;
  Ok target.

Definition permitted (k : kind) (p : phase) (r : relation_to) (same_epoch : bool) : bool :=
  bool_decide ((k, p, r, same_epoch) ∈ PERMITTED).

(** A record of the execution gate.  [it_unsigned] is [None] when the key is absent. *)
Record item := Item {
  it_epoch : option string;
  it_kind : option kind;
  it_state : pstate;
  it_session_id : Z;
  it_output_id : string;
  it_hold_output : bool;
  it_control : bool;
  it_unsigned : option bool
}.

#[export] Instance item_eq_dec : EqDecision item.
Proof. solve_decision. Defined.

Definition operation_kind (it : item) : kind :=
  match it_kind it with
  | Some k => k
  | None =>
      if it_control it then K_control
      else match it_unsigned it with Some _ => K_privileged | None => K_execution end
  end.

(** [kind in {"privileged", "shutdown"}] *)
Definition signs (k : kind) : bool :=
  match k with
  | K_privileged | K_shutdown => true
  | _ => false
  end.

Definition item_unsigned (it : item) : bool := default false (it_unsigned it).

Definition operation_phase (it : item) : phase :=
  match it_state it with
  | S_submitting =>
      if signs (operation_kind it)
      then if item_unsigned it then P_preparing else P_signing
      else P_submitting
  | S_awaiting_approval => if item_unsigned it then P_prepared else P_signing
  | S_unknown =>
      if item_unsigned it && signs (operation_kind it) then P_unsigned_unknown else P_unknown
  | S_absent => P_absent
  | S_delivery => P_delivery
  | S_pending => P_pending
  | S_retired => P_retired
  | S_running => P_running
  end.

Definition with_state (st : pstate) (it : item) : item :=
  Item (it_epoch it) (it_kind it) st (it_session_id it) (it_output_id it)
    (it_hold_output it) (it_control it) (it_unsigned it).

Definition with_unsigned (u : option bool) (it : item) : item :=
  Item (it_epoch it) (it_kind it) (it_state it) (it_session_id it) (it_output_id it)
    (it_hold_output it) (it_control it) u.

Definition store_phase (it : item) (p : phase) : item :=
  let it' := with_state (PUBLIC_PHASE p) it in
  if signs (operation_kind it')
  then with_unsigned (Some (bool_decide (p ∈ UNSIGNED_PHASES))) it'
  else it'.

Definition can_adopt (owned consumed same_epoch : bool) : bool :=
  default false (dget (owned, consumed, same_epoch) ADOPT).

(** The fields of an observation that order two snapshots; absent counters are 0. *)
Record observation := Observation {
  ob_watch_generation : Z;
  ob_event_sequence : Z;
  ob_status : string;
  ob_stdout_total : Z;
  ob_stderr_total : Z
}.

Definition snapshot_is_older (result previous : observation) : bool :=
  default false (dget
    (ob_watch_generation result <? ob_watch_generation previous,
     ob_event_sequence result <? ob_event_sequence previous,
     terminal (ob_status previous) && negb (terminal (ob_status result)),
     (ob_stdout_total result <? ob_stdout_total previous) ||
     (ob_stderr_total result <? ob_stderr_total previous)) STALE).

Definition poll_decision (owned has_identity : bool) : poll :=
  default Poll_defer (dget (owned, has_identity) POLL).

(** ** The normative operators *)

Module tla.

Definition Unsigned (p : phase) : bool :=
  match p with P_preparing | P_prepared | P_unsigned_unknown => true | _ => false end.
Definition Known (p : phase) : bool :=
  match p with P_running | P_delivery => true | _ => false end.
Definition Unconfirmed (p : phase) : bool :=
  match p with P_submitting | P_signing | P_pending | P_unknown => true | _ => false end.

Definition runs (k : kind) : bool :=
  match k with K_execution | K_privileged => true | _ => false end.

Definition ValidPhase (k : kind) (p : phase) : bool :=
  match p with P_absent | P_pending | P_unknown | P_retired => true | _ => false end
  || negb (signs k) && match p with P_submitting => true | _ => false end
  || runs k && Known p
  || signs k && (Unsigned p || match p with P_signing => true | _ => false end).

Definition IsRestore (e : event) : bool :=
  match e with
  | E_restore_submitting | E_restore_unknown | E_restore_running
  | E_restore_delivery | E_restore_prepared | E_restore_unsigned => true
  | _ => false
  end.

Definition Restored (e : event) : phase :=
  match e with
  | E_restore_running => P_running
  | E_restore_delivery => P_delivery
  | E_restore_prepared => P_prepared
  | E_restore_unsigned => P_unsigned_unknown
  | _ => P_unknown
  end.

Definition Reduce (k : kind) (hold : bool) (p : phase) (e : event) : phase :=
  match p with
  | P_retired => P_retired
  | P_absent =>
      match e with
      | E_claim => if signs k then P_absent else P_submitting
      | E_prepare => if signs k then P_preparing else P_absent
      | _ => if IsRestore e
             then if ValidPhase k (Restored e) then Restored e else P_unknown
             else P_absent
      end
  | _ =>
      match e with
      | E_sign => match p with P_prepared | P_unsigned_unknown => P_signing | _ => p end
      | E_approval => if Unsigned p then P_prepared else p
      | E_pending => if Unconfirmed p then P_pending else p
      | E_running =>
          if runs k && (Unconfirmed p || match p with P_running => true | _ => false end)
          then P_running else p
      | E_terminal =>
          if runs k && (Unconfirmed p || Known p)
          then if hold then P_delivery else P_retired else p
      | E_accepted =>
          match k with K_shutdown => if Unconfirmed p then P_retired else p | _ => p end
      | E_control_complete => match k with K_control => P_retired | _ => p end
      | E_not_started => if Known p then p else P_retired
      | E_lost | E_missing | E_terminal_empty =>
          if Known p then p else if Unsigned p then P_unsigned_unknown else P_unknown
      | E_query_failed => if Unconfirmed p then P_unknown else p
      | E_release => if Known p then P_retired else p
      | E_cancel_unsigned => if Unsigned p then P_retired else p
      | E_epoch_changed => if Unsigned p then P_unsigned_unknown else P_unknown
      | _ => p
      end
  end.

Definition Permit (k : kind) (p : phase) (r : relation_to) (same_epoch : bool) : bool :=
  same_epoch &&
  match r with R_exact => true | R_session => runs k && Known p | R_foreign => false end.

Definition External (p : phase) : pstate :=
  match p with
  | P_preparing | P_signing | P_submitting => S_submitting
  | P_prepared => S_awaiting_approval
  | P_unsigned_unknown | P_unknown => S_unknown
  | P_absent => S_absent
  | P_delivery => S_delivery
  | P_pending => S_pending
  | P_retired => S_retired
  | P_running => S_running
  end.

Definition CanAdopt (owned consumed same_epoch : bool) : bool :=
  owned && negb consumed && same_epoch.

Definition StaleSnapshot (old_generation old_sequence terminal_regression lost_bytes : bool) : bool :=
  old_generation || old_sequence || terminal_regression || lost_bytes.

Definition PollDecision (owned has_identity : bool) : poll :=
  if owned then Poll_adopt else if has_identity then Poll_skip else Poll_defer.

End tla.

(** ** The tables are the operators *)

Definition bools : list bool := [false; true].
Definition RELATIONS : list relation_to := [R_exact; R_session; R_foreign].

(** One evaluation compares the whole table with the operators. *)
Definition transitions_agree : bool :=
  forallb (fun k => forallb (fun h => forallb (fun p => forallb (fun e =>
    bool_decide (transition k h p e = tla.Reduce k h p e)) EVENTS) PHASES) bools) KINDS.

Definition permits_agree : bool :=
  forallb (fun k => forallb (fun p => forallb (fun r => forallb (fun b =>
    Bool.eqb (permitted k p r b) (tla.Permit k p r b)) bools) RELATIONS) PHASES) KINDS.

Lemma in_KINDS k : In k KINDS.
Proof. destruct k; simpl; tauto. Qed.

Lemma in_PHASES p : In p PHASES.
Proof. destruct p; simpl; tauto. Qed.

Lemma in_EVENTS e : In e EVENTS.
Proof. destruct e; simpl; tauto. Qed.

Lemma in_bools b : In b bools.
Proof. destruct b; simpl; tauto. Qed.

Lemma transition_reduce k h p e : transition k h p e = tla.Reduce k h p e.
Proof.
  assert (H : transitions_agree = true) by (vm_compute; reflexivity).
  unfold transitions_agree in H. rewrite forallb_forall in H.
  specialize (H k (in_KINDS k)). rewrite forallb_forall in H.
  specialize (H h (in_bools h)). rewrite forallb_forall in H.
  specialize (H p (in_PHASES p)). rewrite forallb_forall in H.
  specialize (H e (in_EVENTS e)). by apply bool_decide_eq_true in H.
Qed.

Lemma permitted_permit k p r b : permitted k p r b = tla.Permit k p r b.
Proof.
  assert (H : permits_agree = true) by (vm_compute; reflexivity).
  unfold permits_agree in H. rewrite forallb_forall in H.
  specialize (H k (in_KINDS k)). rewrite forallb_forall in H.
  specialize (H p (in_PHASES p)). rewrite forallb_forall in H.
  assert (Hr : In r RELATIONS) by (destruct r; simpl; tauto).
  specialize (H r Hr). rewrite forallb_forall in H.
  specialize (H b (in_bools b)). by apply eqb_prop in H.
Qed.

Lemma valid_phase_spec k p : valid_phase k p = tla.ValidPhase k p.
Proof. destruct k, p; vm_compute; reflexivity. Qed.

Lemma reduce_valid k h p e :
  tla.ValidPhase k p = true -> tla.ValidPhase k (tla.Reduce k h p e) = true.
Proof. destruct k, p; try discriminate; intros _; destruct e, h; reflexivity. Qed.

(** On a valid phase the adapter is total and is the normative reducer. *)
Lemma next_phase_ok k h p e :
  valid_phase k p = true -> next_phase k h p e = Ok (tla.Reduce k h p e).
Proof.
  intros Hv. unfold next_phase. rewrite Hv; simpl.
  rewrite transition_reduce, valid_phase_spec, reduce_valid; [done|].
  by rewrite <- valid_phase_spec.
Qed.

Lemma next_phase_valid k h p e q :
  next_phase k h p e = Ok q ->
  valid_phase k p = true /\ valid_phase k q = true /\ q = tla.Reduce k h p e.
Proof.
  unfold next_phase. intros H.
  destruct (valid_phase k p) eqn:Ep; simpl in H; [|done].
  destruct (valid_phase k (transition k h p e)) eqn:Eq; simpl in H; [|done].
  injection H as <-. by rewrite <- transition_reduce.
Qed.

(** ** Storing a phase *)

Lemma operation_kind_store it p : operation_kind (store_phase it p) = operation_kind it.
Proof.
  by destruct it as [? [[]|] ? ? ? ? [] [?|]].
Qed.

(** Reading a stored phase gives it back. *)
Lemma operation_phase_store it p :
  valid_phase (operation_kind it) p = true -> operation_phase (store_phase it p) = p.
Proof.
  intros Hv. unfold operation_phase. rewrite operation_kind_store.
  unfold store_phase, item_unsigned.
  assert (Hk : operation_kind (with_state (PUBLIC_PHASE p) it) = operation_kind it) by done.
  rewrite Hk. rewrite valid_phase_spec in Hv.
  destruct (operation_kind it), p; try discriminate Hv; simpl; try reflexivity;
    by destruct (it_unsigned it) as [[]|].
Qed.

(** ** What the reducer forbids *)

(** The signature boundary is crossed once: nothing returns to an unsigned phase. *)
Definition signed_side (p : phase) : bool := negb (tla.Unsigned p) && negb (bool_decide (p = P_absent)).

Lemma reduce_signed_side k h p e :
  signed_side p = true -> signed_side (tla.Reduce k h p e) = true.
Proof. destruct p; try discriminate; intros _; destruct k, h, e; reflexivity. Qed.

Lemma reduce_not_absent k h p e : p <> P_absent -> tla.Reduce k h p e <> P_absent.
Proof. destruct p; try done; intros _; destruct k, h, e; discriminate. Qed.

(** [sign] moves to [signing] from a phase that is not signed yet. *)
Lemma reduce_sign_new k h p :
  p <> P_signing -> tla.Reduce k h p E_sign = P_signing -> signed_side p = false.
Proof. destruct p; try done; destruct k, h; discriminate. Qed.

(** ** Theorems *)

(** C36: the generated tables are the normative operators of the specification:
    every transition (with the omitted self transitions), every permit, the valid
    phases, the public names, the unsigned phases and the three host tables. *)
Theorem tables_match_specification k h p e r b1 b2 b3 b4 :
  transition k h p e = tla.Reduce k h p e /\
  permitted k p r b1 = tla.Permit k p r b1 /\
  valid_phase k p = tla.ValidPhase k p /\
  PUBLIC_PHASE p = tla.External p /\
  bool_decide (p ∈ UNSIGNED_PHASES) = tla.Unsigned p /\
  can_adopt b1 b2 b3 = tla.CanAdopt b1 b2 b3 /\
  dget (b1, b2, b3, b4) STALE = Some (tla.StaleSnapshot b1 b2 b3 b4) /\
  poll_decision b1 b2 = tla.PollDecision b1 b2.
Proof.
  split; [apply transition_reduce|]. split; [apply permitted_permit|].
  split; [apply valid_phase_spec|]. split; [by destruct p|]. split; [by destruct p|].
  split; [by destruct b1, b2, b3|]. split; [by destruct b1, b2, b3, b4|by destruct b1, b2].
Qed.

(** [next_phase] raises exactly on a phase that is not valid for its kind; on a
    valid one it returns a phase valid for the kind, retired phases stay retired and
    a phase whose output is known is left for [unknown] only by an epoch change. *)
Theorem next_phase_total k h p e :
  (valid_phase k p = false <-> next_phase k h p e = Raise InvalidTransition) /\
  (valid_phase k p = true ->
   exists q, next_phase k h p e = Ok q /\ valid_phase k q = true /\
     (p = P_retired -> q = P_retired) /\
     (tla.Known p = true -> q = P_unknown -> e = E_epoch_changed)).
Proof.
  split.
  - unfold next_phase. destruct (valid_phase k p); simpl; [|done].
    destruct (valid_phase k _); simpl; done.
  - intros Hv. exists (tla.Reduce k h p e). split; [by apply next_phase_ok|].
    rewrite valid_phase_spec in *. split; [by apply reduce_valid|].
    split; [by intros ->|]. destruct p; try discriminate; intros _;
      destruct k, h, e; try discriminate; done.
Qed.

(** A stored phase reads back: for every record and every phase valid for its
    kind, [operation_phase] after [store_phase] is that phase, although several
    phases share a public state. *)
Theorem store_phase_roundtrip it p :
  valid_phase (operation_kind it) p = true ->
  operation_phase (store_phase it p) = p /\ operation_kind (store_phase it p) = operation_kind it.
Proof. intros H. split; [by apply operation_phase_store|apply operation_kind_store]. Qed.

(** An observation is accepted (not older) exactly when no counter goes back
    and a terminal status stays terminal. *)
Theorem snapshot_is_older_spec result previous :
  snapshot_is_older result previous = false <->
  ob_watch_generation previous <= ob_watch_generation result /\
  ob_event_sequence previous <= ob_event_sequence result /\
  ob_stdout_total previous <= ob_stdout_total result /\
  ob_stderr_total previous <= ob_stderr_total result /\
  (terminal (ob_status previous) = true -> terminal (ob_status result) = true).
Proof.
  unfold snapshot_is_older.
  assert (H : forall a b c d, default false (dget (a, b, c, d) STALE) = tla.StaleSnapshot a b c d)
    by (intros [] [] [] []; reflexivity).
  rewrite H. unfold tla.StaleSnapshot. rewrite !orb_false_iff, !Z.ltb_ge.
  destruct (terminal (ob_status previous)), (terminal (ob_status result)); simpl; intuition done.
Qed.

Definition sample_item : item := Item (Some "e1") (Some K_privileged) S_absent 0 "" false false None.

Lemma store_phase_roundtrip_witness :
  valid_phase (operation_kind sample_item) P_unsigned_unknown = true /\
  operation_phase (store_phase sample_item P_unsigned_unknown) = P_unsigned_unknown.
Proof.
  split; [reflexivity|].
  apply (store_phase_roundtrip sample_item P_unsigned_unknown). reflexivity.
Defined.

Lemma next_phase_total_witness :
  exists q, next_phase K_execution true P_running E_terminal = Ok q /\ valid_phase K_execution q = true.
Proof.
  destruct (next_phase_total K_execution true P_running E_terminal) as [_ H].
  destruct (H eq_refl) as (q & Hq & Hv & _). by exists q.
Defined.
