(* ===== verification/ExecutionGate.v ===== *)
(** * The execution gate

    [pal_shell_remote/execution_gate.py]: the host's record of the remote
    operations of one target.  [operations] holds the live records, [retired] the
    tombstones, and every phase change goes through [_advance].  A method is a
    computation over the gate that may raise; the state it leaves when it raises
    is kept. *)

From S2P Require Import Prelude Dict LifecycleTable Lifecycle Protocol.
Open Scope Z_scope.

Record gate := Gate {
  g_target : Z;
  g_operations : dict string item;
  g_retired : dict string (option string);
  g_current_epoch : option string
}.

Inductive gate_error :=
| GateRemote (e : RemoteError)
| GateValue (e : lifecycle_error)
| GateKey (operation_id : string).

Abbreviation G := (M gate gate_error).

(** [ExecutionGate(target)] *)
Definition new_gate (target : Z) : gate := Gate target [] [] None.

Definition set_operations (ops : dict string item) (g : gate) : gate :=
  Gate (g_target g) ops (g_retired g) (g_current_epoch g).
Definition put_item (oid : string) (it : item) (g : gate) : gate :=
  set_operations (dset oid it (g_operations g)) g.
Definition retire_item (oid : string) (it : item) (g : gate) : gate :=
  Gate (g_target g) (ddel oid (g_operations g)) (dset oid (it_epoch it) (g_retired g))
    (g_current_epoch g).
Definition set_epoch (epoch : option string) (g : gate) : gate :=
  Gate (g_target g) (g_operations g) (g_retired g) epoch.

Definition with_epoch (epoch : option string) (it : item) : item :=
  Item epoch (it_kind it) (it_state it) (it_session_id it) (it_output_id it)
    (it_hold_output it) (it_control it) (it_unsigned it).
Definition with_ids (session_id : Z) (output_id : string) (it : item) : item :=
  Item (it_epoch it) (it_kind it) (it_state it) session_id output_id
    (it_hold_output it) (it_control it) (it_unsigned it).

Definition lift_phase {A} (r : res lifecycle_error A) : G A :=
  slift (match r with Ok a => Ok a | Raise e => Raise (GateValue e) end).

Definition _advance (operation_id : string) (ev : event) : G phase :=
  do! g <- sget ;;
  match dget operation_id (g_operations g) with
  | None => sret (if dmem operation_id (g_retired g) then P_retired else P_absent)
  | Some it =>
      do! ph <- lift_phase (next_phase (operation_kind it) (it_hold_output it)
                              (operation_phase it) ev) ;;
      seq! smodify (if decide (ph = P_retired)
                    then retire_item operation_id it
                    else put_item operation_id (store_phase it ph)) ;;
      sret ph
  end.

Definition _same_epoch (g : gate) (it : item) (epoch : option string) : bool :=
  bool_decide (it_epoch it = epoch) &&
  match g_current_epoch g with None => true | Some c => bool_decide (Some c = epoch) end.

Definition connected (epoch : option string) : G unit :=
  seq! smodify (set_epoch epoch) ;;
  do! g <- sget ;;
  sfor (fun p : string * item =>
    if match it_epoch p.2 with None => false | Some _ => bool_decide (it_epoch p.2 <> epoch) end
    then seq! _advance p.1 E_epoch_changed ;; sret tt
    else sret tt) (g_operations g).

(** The event that [restore] reads off a persisted record. *)
Definition restore_event (it : item) : event :=
  if item_unsigned it then
    match it_state it with S_awaiting_approval => E_restore_prepared | _ => E_restore_unsigned end
  else
    match it_state it with
    | S_running => if str_truthy (it_output_id it) then E_restore_running else E_restore_unknown
    | S_delivery => if str_truthy (it_output_id it) then E_restore_delivery else E_restore_unknown
    | _ => E_restore_unknown
    end.

Definition restored_item (it : item) : item :=
  Item (it_epoch it) (Some (operation_kind it)) S_absent (it_session_id it) (it_output_id it)
    (it_hold_output it) (it_control it) (it_unsigned it).

Definition restore_one (record : string * item) : G unit :=
  let '(oid, it) := record in
  do! g <- sget ;;
  if dmem oid (g_retired g) || dmem oid (g_operations g) then sret tt
  else
    seq! smodify (put_item oid (restored_item it)) ;;
    seq! _advance oid (restore_event it) ;;
    do! g' <- sget ;;
    match g_current_epoch g' with
    | Some c => if bool_decide (it_epoch it <> Some c)
                then seq! _advance oid E_epoch_changed ;; sret tt
                else sret tt
    | None => sret tt
    end.

Definition restore (records : list (string * item)) : G unit := sfor restore_one records.

Definition raise_remote {A} (e : RemoteError) : G A := sthrow (GateRemote e).

Definition new_item (epoch : option string) (hold_output : bool) (k : kind) : item :=
  Item epoch (Some k) S_absent 0 "" hold_output (bool_decide (k = K_control)) None.

Definition claim (operation_id : string) (epoch : option string) (hold_output : bool) (k : kind)
    : G bool :=
  do! g <- sget ;;
  if dmem operation_id (g_retired g)
  then raise_remote (remote_error "operation_retired" "unknown" operation_id)
  else
    match dget operation_id (g_operations g) with
    | Some it =>
        if bool_decide (it_epoch it <> epoch) then raise_remote (remote_unknown "runtime_changed")
        else if bool_decide (operation_kind it <> k)
        then raise_remote (remote_unknown "operation_conflict")
        else sret false
    | None =>
        seq! smodify (put_item operation_id (new_item epoch hold_output k)) ;;
        seq! _advance operation_id (if signs k then E_prepare else E_claim) ;;
        sret true
    end.

Definition claim_control (operation_id : string) (epoch : option string) (session_id : Z) : G bool :=
  do! created <- claim operation_id epoch false K_control ;;
  do! g <- sget ;;
  match dget operation_id (g_operations g) with
  | Some it =>
      if created
      then seq! smodify (put_item operation_id (with_ids session_id (it_output_id it) it)) ;; sret true
      else if bool_decide (it_session_id it <> session_id)
      then raise_remote (remote_unknown "operation_conflict")
      else sret false
  | None => sthrow (GateKey operation_id)
  end.

(** [x in (None, epoch)] *)
Definition none_or (x epoch : option string) : bool := bool_decide (x = None) || bool_decide (x = epoch).

Definition bind (operation_id : string) (epoch : option string) : G unit :=
  do! g <- sget ;;
  match dget operation_id (g_operations g) with
  | None => sret tt
  | Some it =>
      if negb (none_or (it_epoch it) epoch) || negb (none_or (g_current_epoch g) epoch)
      then raise_remote (remote_unknown "runtime_changed")
      else smodify (put_item operation_id (with_epoch epoch it))
  end.

Definition sign (operation_id : string) (epoch : option string) : G bool :=
  do! g <- sget ;;
  match dget operation_id (g_operations g) with
  | Some it =>
      if signs (operation_kind it) then
        seq! bind operation_id epoch ;;
        let before := operation_phase it in
        do! after <- _advance operation_id E_sign ;;
        if bool_decide (before = P_preparing) then raise_remote (remote "approval_required")
        else sret (bool_decide (after = P_signing) && bool_decide (before <> P_signing))
      else raise_remote (remote "invalid_operation")
  | None => raise_remote (remote "invalid_operation")
  end.

(** [epoch or item.get("epoch")] *)
Definition epoch_or (epoch fallback : option string) : option string :=
  if opt_truthy epoch then epoch else fallback.

(** Bind a record that has no epoch yet, then continue with the current record. *)
Definition bind_if_unbound (operation_id : string) (it : item) (epoch : option string) : G unit :=
  match it_epoch it with None => bind operation_id epoch | Some _ => sret tt end.

(** [if self._same_epoch(item, epoch): body] on the current record of an operation. *)
Definition when_same_epoch (operation_id : string) (epoch : option string) (body : item -> G unit)
    : G unit :=
  do! g <- sget ;;
  match dget operation_id (g_operations g) with
  | Some it => if _same_epoch g it epoch then body it else sret tt
  | None => sret tt
  end.

Definition advance_ (operation_id : string) (ev : event) : G unit :=
  seq! _advance operation_id ev ;; sret tt.

(** [failed(operation_id, effect, epoch)] *)
Definition failed (operation_id : string) (effect : string) (epoch : option string) : G unit :=
  do! g <- sget ;;
  match dget operation_id (g_operations g) with
  | None => sret tt
  | Some it =>
      let epoch := epoch_or epoch (it_epoch it) in
      seq! bind_if_unbound operation_id it epoch ;;
      when_same_epoch operation_id epoch (fun _ =>
        advance_ operation_id
          (if bool_decide (effect = "not_started") then E_not_started else E_lost))
  end.

Definition cancel_prepared (operation_id : string) : G unit := advance_ operation_id E_cancel_unsigned.

Definition query_failed (operation_id : string) (epoch : option string) : G unit :=
  when_same_epoch operation_id epoch (fun _ => advance_ operation_id E_query_failed).

Definition reconcile_prepared (operation_id : string) (epoch : option string) : G unit :=
  when_same_epoch operation_id epoch (fun _ => advance_ operation_id E_cancel_unsigned).

(** The observation of one execution.  [rs_runtime_epoch] is [None] when absent. *)
Record op_result := OpResult {
  rs_runtime_epoch : option (option string);
  rs_execution_id : option string;
  rs_session_id : Z;
  rs_output_id : string;
  rs_status : option string
}.

(** A reply to a request: the effect of its error, its state and its result. *)
Record response := Response {
  rp_error : option (option string);
  rp_state : option string;
  rp_result : option op_result
}.

Definition foreign_epoch (r : op_result) (epoch : option string) : bool :=
  bool_decide (default epoch (rs_runtime_epoch r) <> epoch).

Definition snapshot_event (status : option string) (output : string) : event :=
  let is_terminal := match status with Some s => terminal s | None => false end in
  if bool_decide (status = Some "accepted") then E_accepted
  else if is_terminal && str_truthy output then E_terminal
  else if is_terminal then E_terminal_empty
  else if bool_decide (status ∈ [Some "running"; Some "terminating"]) && str_truthy output
  then E_running
  else E_missing.

Definition snapshot_relation (operation_id : option string) (sid : Z) (oid : string) (it : item)
    : relation_to :=
  if bool_decide (Some oid = operation_id) then R_exact
  else if negb (sid =? 0) && (it_session_id it =? sid) then R_session
  else R_foreign.

(** The three [continue]s of the loop of [snapshot]. *)
Definition snapshot_applies (g : gate) (epoch : option string) (operation_id : option string)
    (sid : Z) (output oid : string) (it : item) : bool :=
  permitted (operation_kind it) (operation_phase it) (snapshot_relation operation_id sid oid it)
    (_same_epoch g it epoch)
  && negb (str_truthy (it_output_id it) && str_truthy output && bool_decide (it_output_id it <> output))
  && negb (negb (it_session_id it =? 0) && negb (sid =? 0) && bool_decide (it_session_id it <> sid)).

Definition keeps_evidence (ev : event) (after : phase) : bool :=
  match ev, after with
  | E_running, P_running | E_terminal, P_delivery | E_terminal, P_retired
  | E_accepted, P_retired => true
  | _, _ => false
  end.

Definition snapshot_one (epoch : option string) (operation_id : option string) (sid : Z)
    (output : string) (ev : event) (oid : string) : G unit :=
  do! g <- sget ;;
  match dget oid (g_operations g) with
  | None => sret tt
  | Some it =>
      if snapshot_applies g epoch operation_id sid output oid it then
        do! after <- lift_phase (next_phase (operation_kind it) (it_hold_output it)
                                   (operation_phase it) ev) ;;
        seq! (if keeps_evidence ev after
              then smodify (put_item oid
                     (with_ids (if it_session_id it =? 0 then sid else it_session_id it) output it))
              else sret tt) ;;
        advance_ oid ev
      else sret tt
  end.

Definition snapshot (r : op_result) (epoch : option string) (operation_id : option string) : G unit :=
  if foreign_epoch r epoch then sret tt
  else
    let operation_id := if opt_truthy operation_id then operation_id else rs_execution_id r in
    let ev := snapshot_event (rs_status r) (rs_output_id r) in
    do! g <- sget ;;
    sfor (snapshot_one epoch operation_id (rs_session_id r) (rs_output_id r) ev)
      (dkeys (g_operations g)).

(** [result(operation_id, response, epoch)] *)
Definition result (operation_id : string) (rp : response) (epoch : option string) : G unit :=
  do! g <- sget ;;
  match dget operation_id (g_operations g) with
  | None => sret tt
  | Some it =>
      if match rp_result rp with Some r => foreign_epoch r epoch | None => false end then sret tt
      else
        seq! bind_if_unbound operation_id it epoch ;;
        when_same_epoch operation_id epoch (fun it =>
          match rp_error rp with
          | Some effect =>
              advance_ operation_id
                (if bool_decide (effect = Some "not_started") then E_not_started else E_lost)
          | None =>
              if bool_decide (rp_state rp = Some "approval_required")
              then advance_ operation_id E_approval
              else if bool_decide (rp_state rp = Some "pending")
              then advance_ operation_id E_pending
              else
                match rp_result rp with
                | Some r =>
                    if opt_truthy (rs_status r) then
                      let control := bool_decide (operation_kind it = K_control) in
                      seq! snapshot r epoch (if control then None else Some operation_id) ;;
                      if control && bool_decide (rp_state rp = Some "complete")
                      then advance_ operation_id E_control_complete
                      else sret tt
                    else advance_ operation_id E_missing
                | None => advance_ operation_id E_missing
                end
          end)
  end.

Definition release (output_id : string) (epoch : option string) : G unit :=
  do! g <- sget ;;
  sfor (fun oid =>
    do! g <- sget ;;
    match dget oid (g_operations g) with
    | Some it =>
        if str_truthy output_id && bool_decide (it_output_id it = output_id) && _same_epoch g it epoch
        then advance_ oid E_release
        else sret tt
    | None => sret tt
    end) (dkeys (g_operations g)).

Definition pstate_name (s : pstate) : string :=
  match s with
  | S_absent => "absent"
  | S_awaiting_approval => "awaiting_approval"
  | S_delivery => "delivery"
  | S_pending => "pending"
  | S_retired => "retired"
  | S_running => "running"
  | S_submitting => "submitting"
  | S_unknown => "unknown"
  end.

(** [status()]: [has_work] and [reasons] ([blocked] is always false). *)
Definition status (g : gate) : bool * list string :=
  (match g_operations g with [] => false | _ => true end,
   merge_sort String.le (remove_dups ((fun it => pstate_name (it_state it)) <$> dvals (g_operations g)))).

(** ** Well-formed gates *)

Definition item_ok (it : item) : Prop :=
  is_Some (it_kind it) /\ valid_phase (operation_kind it) (operation_phase it) = true /\
  operation_phase it <> P_retired /\ operation_phase it <> P_absent.

Record gate_wf (g : gate) : Prop := {
  wf_ops : dwf (g_operations g);
  wf_items : forall oid it, dget oid (g_operations g) = Some it -> item_ok it;
  wf_disjoint : forall oid, is_Some (dget oid (g_operations g)) -> dget oid (g_retired g) = None
}.

(** One operation's phase moves along the normative reducer. *)
Definition phase_step (k : kind) (h : bool) (p q : phase) : Prop := exists e, q = tla.Reduce k h p e.

Record item_evolves (it it' : item) : Prop := {
  ev_kind : operation_kind it' = operation_kind it;
  ev_hold : it_hold_output it' = it_hold_output it;
  ev_phase : rtc (phase_step (operation_kind it) (it_hold_output it)) (operation_phase it)
               (operation_phase it');
  ev_epoch : it_epoch it = None \/ it_epoch it' = it_epoch it
}.

(** What no method of the gate may break: tombstones stay, and a tracked operation
    is still tracked after moving along the reducer, or has a tombstone. *)
Record evolves (g g' : gate) : Prop := {
  ev_retired : forall oid e, dget oid (g_retired g) = Some e -> dget oid (g_retired g') = Some e;
  ev_tracked : forall oid it, dget oid (g_operations g) = Some it ->
    (exists it', dget oid (g_operations g') = Some it' /\ item_evolves it it') \/
    is_Some (dget oid (g_retired g'))
}.

(** Well-formedness is kept, and from a well-formed gate every change is an evolution. *)
Definition good (g g' : gate) : Prop := gate_wf g -> gate_wf g' /\ evolves g g'.

(** ** One transition *)

#[export] Instance item_evolves_preorder : PreOrder item_evolves.
Proof.
  split.
  - intros it. split; [done..|by right].
  - intros a b c [K1 H1 P1 E1] [K2 H2 P2 E2]. split; [congruence..| |].
    + rewrite K1, H1 in P2. by etransitivity.
    + destruct E1 as [E1|E1]; [by left|]. destruct E2 as [E2|E2]; [left; congruence|right; congruence].
Qed.

#[export] Instance evolves_preorder : PreOrder evolves.
Proof.
  split.
  - intros g. split; [done|]. intros oid it H. left. exists it. by split.
  - intros a b c [R1 T1] [R2 T2]. split; [auto|]. intros oid it H.
    destruct (T1 _ _ H) as [(it1 & H1 & Hev)|[e He]]; [|right; eauto].
    destruct (T2 _ _ H1) as [(it2 & H2 & Hev2)|?]; [|by right].
    left. exists it2. split; [done|]. by etransitivity.
Qed.

#[export] Instance good_preorder : PreOrder good.
Proof.
  split; [intros g H; by split|]. intros a b c H1 H2 Ha.
  destruct (H1 Ha) as [Hb E1]. destruct (H2 Hb) as [Hc E2]. split; [done|]. by etransitivity.
Qed.

Lemma item_ok_store it ph :
  is_Some (it_kind it) -> valid_phase (operation_kind it) ph = true ->
  ph <> P_retired -> ph <> P_absent -> item_ok (store_phase it ph).
Proof.
  intros Hk Hp Hr Ha. unfold item_ok.
  rewrite operation_kind_store, operation_phase_store by done. split; [|done].
  unfold store_phase. by destruct (signs _).
Qed.

Lemma store_phase_epoch it ph : it_epoch (store_phase it ph) = it_epoch it.
Proof. unfold store_phase. by destruct (signs _). Qed.

Lemma store_phase_hold it ph : it_hold_output (store_phase it ph) = it_hold_output it.
Proof. unfold store_phase. by destruct (signs _). Qed.

Lemma store_phase_ids it ph :
  it_session_id (store_phase it ph) = it_session_id it /\
  it_output_id (store_phase it ph) = it_output_id it.
Proof. unfold store_phase. by destruct (signs _). Qed.

(** Replacing a record by an evolution of it is good. *)
Lemma good_put oid it it' g :
  dget oid (g_operations g) = Some it -> item_evolves it it' -> (item_ok it -> item_ok it') ->
  good g (put_item oid it' g).
Proof.
  intros Hg Hev Hok [W1 W2 W3]. split; split; simpl.
  - by apply dwf_dset.
  - intros o i. rewrite dget_dset. case_decide as Ho; [|by apply W2].
    intros [= <-]. apply Hok. by eapply W2.
  - intros o. rewrite dget_dset. case_decide as Ho; [subst o; intros _; apply W3; by exists it|apply W3].
  - done.
  - intros o i Hi. left. rewrite dget_dset. case_decide as Ho; [|by exists i].
    subst o. exists it'. split; [done|]. congruence.
Qed.

(** Inserting a fresh record is good. *)
Lemma good_insert oid it g :
  dget oid (g_operations g) = None -> dget oid (g_retired g) = None -> item_ok it ->
  good g (put_item oid it g).
Proof.
  intros Hn Hr Hok [W1 W2 W3]. split; split; simpl.
  - by apply dwf_dset.
  - intros o i. rewrite dget_dset. case_decide; [by intros [= <-]|apply W2].
  - intros o. rewrite dget_dset. case_decide; [by subst|apply W3].
  - done.
  - intros o i Hi. left. exists i. split; [|done]. rewrite dget_dset_ne; [done|]. congruence.
Qed.

Lemma good_retire oid it g :
  dget oid (g_operations g) = Some it -> good g (retire_item oid it g).
Proof.
  intros Hg [W1 W2 W3]. split; split; simpl.
  - by apply dwf_ddel.
  - intros o i. rewrite dget_ddel. case_decide; [done|apply W2].
  - intros o. rewrite dget_ddel, dget_dset. case_decide; [by intros [? ?]|apply W3].
  - intros o e He. rewrite dget_dset. case_decide; [|done]. subst o.
    rewrite W3 in He; [done|by exists it].
  - intros o i Hi. rewrite dget_ddel, dget_dset. case_decide; [right; eauto|left; by exists i].
Qed.

(** What [_advance] does on a well-formed gate. *)
Definition advanced (oid : string) (it : item) (q : phase) (g : gate) : gate :=
  if decide (q = P_retired) then retire_item oid it g else put_item oid (store_phase it q) g.

Lemma advance_eq g oid it ev :
  dget oid (g_operations g) = Some it ->
  valid_phase (operation_kind it) (operation_phase it) = true ->
  let q := tla.Reduce (operation_kind it) (it_hold_output it) (operation_phase it) ev in
  _advance oid ev g = (advanced oid it q g, Ok q).
Proof.
  intros Hg Hv. simpl. unfold _advance, sbind, sget. rewrite Hg.
  rewrite next_phase_ok by done. unfold lift_phase, slift, smodify, sret, advanced.
  by destruct (decide _).
Qed.

Lemma advance_none g oid ev :
  dget oid (g_operations g) = None -> (_advance oid ev g).1 = g.
Proof. intros H. unfold _advance, sbind, sget. by rewrite H. Qed.

Lemma good_advanced g oid it ev :
  dget oid (g_operations g) = Some it -> item_ok it ->
  good g (advanced oid it (tla.Reduce (operation_kind it) (it_hold_output it) (operation_phase it) ev) g).
Proof.
  intros Hg Hok. set (q := tla.Reduce _ _ _ _). unfold advanced.
  assert (Hq : valid_phase (operation_kind it) q = true).
  { rewrite valid_phase_spec. apply reduce_valid. rewrite <- valid_phase_spec. apply Hok. }
  destruct (decide (q = P_retired)) as [Hr|Hr]; [by apply good_retire|].
  eapply good_put; [done| |intros _; apply item_ok_store; [apply Hok|done..|]].
  2:{ apply reduce_not_absent, Hok. }
  split; [apply operation_kind_store|apply store_phase_hold| |right; apply store_phase_epoch].
  rewrite operation_phase_store by done. apply rtc_once. by exists ev.
Qed.

Lemma keeps_advance oid ev : keeps good (_advance oid ev).
Proof.
  intros g Hg. destruct (dget oid (g_operations g)) as [it|] eqn:E.
  - pose proof (wf_items _ Hg _ _ E) as Hok. rewrite (advance_eq _ _ it) by (done || apply Hok). simpl.
    by apply good_advanced.
  - rewrite advance_none by done. by apply good_preorder.
Qed.

Lemma keeps_advance_ oid ev : keeps good (advance_ oid ev).
Proof. apply keeps_bind; [apply _|apply keeps_advance|intros; apply keeps_ret; apply _]. Qed.

(** A computation that reads the gate first: only what it does next matters. *)
Lemma keeps_read {A} (R : relation gate) (k : gate -> G A) :
  (forall g, R g (k g g).1) -> keeps R (do! g <- sget ;; k g).
Proof. intros H g. apply H. Qed.

(** Changing the epoch or the identifiers of a record is an evolution. *)
Lemma evolves_with_epoch it e :
  it_epoch it = None \/ it_epoch it = e -> item_evolves it (with_epoch e it).
Proof. intros H. split; [done..|]. simpl. naive_solver. Qed.

Lemma evolves_with_ids it sid out : item_evolves it (with_ids sid out it).
Proof. split; [done..|by right]. Qed.

Lemma good_set_epoch e g : good g (set_epoch e g).
Proof.
  intros [W1 W2 W3]. split; [by split|]. split; [done|]. simpl. intros oid it H. left. by exists it.
Qed.

(** ** Every method is good *)

(** Peel the monadic structure of a method. *)
Ltac peel :=
  repeat lazymatch goal with
  | |- keeps _ (_advance _ _) => apply keeps_advance
  | |- keeps _ (advance_ _ _) => apply keeps_advance_
  | |- keeps _ (sbind _ _) => apply keeps_bind; [apply _| |intros ?]
  | |- keeps _ (sret _) => apply keeps_ret; apply _
  | |- keeps _ (sthrow _) => apply keeps_throw; apply _
  | |- keeps _ (raise_remote _) => apply keeps_throw; apply _
  | |- keeps _ sget => apply keeps_get; apply _
  | |- keeps _ (slift _) => apply keeps_lift; apply _
  end.

Lemma keeps_connected epoch : keeps good (connected epoch).
Proof.
  unfold connected. peel; [intros g; apply good_set_epoch|].
  apply keeps_for; [apply _|]. intros [oid it] _; simpl. destruct (match it_epoch it with _ => _ end); peel.
Qed.

(** Inserting a record in state [absent] and advancing it at once. *)
Lemma insert_advance oid it ev g :
  is_Some (it_kind it) -> operation_phase it = P_absent ->
  let q := tla.Reduce (operation_kind it) (it_hold_output it) P_absent ev in
  q <> P_retired -> _advance oid ev (put_item oid it g) = (put_item oid (store_phase it q) g, Ok q).
Proof.
  intros Hk Hp q Hq.
  rewrite (advance_eq _ _ it); [|apply dget_dset_eq|rewrite Hp; by destruct (operation_kind it)].
  rewrite Hp. fold q. unfold advanced. rewrite decide_False by done.
  unfold put_item, set_operations; simpl. by rewrite dset_dset.
Qed.

Lemma good_insert_advanced oid it ev g :
  is_Some (it_kind it) -> operation_phase it = P_absent ->
  dget oid (g_operations g) = None -> dget oid (g_retired g) = None ->
  let q := tla.Reduce (operation_kind it) (it_hold_output it) P_absent ev in
  q <> P_retired -> q <> P_absent -> good g (put_item oid (store_phase it q) g).
Proof.
  intros Hk Hp Ho Hr q Hq1 Hq2. apply good_insert; [done..|]. apply item_ok_store; [done| |done..].
  rewrite valid_phase_spec. apply reduce_valid. by destruct (operation_kind it).
Qed.

Lemma restore_event_phase k h it :
  tla.Reduce k h P_absent (restore_event it) <> P_retired /\
  tla.Reduce k h P_absent (restore_event it) <> P_absent.
Proof.
  unfold restore_event.
  destruct (item_unsigned it), (it_state it); try destruct (str_truthy _); destruct k; split; discriminate.
Qed.

Lemma keeps_restore_one record : keeps good (restore_one record).
Proof.
  destruct record as [oid it]. apply keeps_read. intros g.
  destruct (dmem oid (g_retired g) || dmem oid (g_operations g)) eqn:E; [reflexivity|].
  apply orb_false_iff in E as [E1%dmem_false E2%dmem_false].
  unfold sbind at 1, smodify. cbv beta iota. unfold sbind at 1.
  destruct (restore_event_phase (operation_kind (restored_item it)) (it_hold_output it) it) as [Hq1 Hq2].
  rewrite insert_advance by (done || by eexists).
  etransitivity; [apply (good_insert_advanced oid (restored_item it) (restore_event it)); (done || by eexists)|].
  match goal with |- good ?g (?m ?g).1 => assert (H : keeps good m); [|apply H] end.
  peel. destruct (g_current_epoch _); [|peel]. destruct (bool_decide _); peel.
Qed.

Lemma keeps_restore records : keeps good (restore records).
Proof. apply keeps_for; [apply _|]. intros; apply keeps_restore_one. Qed.

Lemma claim_event_phase k h :
  tla.Reduce k h P_absent (if signs k then E_prepare else E_claim) <> P_retired /\
  tla.Reduce k h P_absent (if signs k then E_prepare else E_claim) <> P_absent.
Proof. by destruct k. Qed.

(** The record a fresh claim leaves. *)
Definition claimed_item (epoch : option string) (h : bool) (k : kind) : item :=
  store_phase (new_item epoch h k) (if signs k then P_preparing else P_submitting).

Lemma claim_fresh oid epoch h k g :
  dget oid (g_operations g) = None -> dget oid (g_retired g) = None ->
  claim oid epoch h k g = (put_item oid (claimed_item epoch h k) g, Ok true).
Proof.
  intros Ho Hr. unfold claim. unfold sbind at 1, sget. cbv beta iota.
  apply dmem_false in Hr. rewrite Hr, Ho.
  unfold sbind at 1, smodify. cbv beta iota. unfold sbind at 1.
  rewrite insert_advance; [|by eexists|done|by destruct k]. unfold sret, claimed_item.
  by destruct k.
Qed.

Lemma keeps_claim oid epoch h k : keeps good (claim oid epoch h k).
Proof.
  intros g. destruct (dget oid (g_retired g)) as [e|] eqn:E1.
  { unfold claim, sbind, sget. rewrite (proj2 (dmem_true oid _)) by eauto. reflexivity. }
  destruct (dget oid (g_operations g)) as [it|] eqn:E2.
  { unfold claim, sbind, sget. rewrite (proj2 (dmem_false oid _)) by done. rewrite E2.
    repeat case_bool_decide; reflexivity. }
  rewrite claim_fresh by done. apply good_insert; [done..|].
  apply item_ok_store; [by eexists|by destruct k..].
Qed.

Lemma good_with_ids oid it sid out g :
  dget oid (g_operations g) = Some it -> good g (put_item oid (with_ids sid out it) g).
Proof. intros H. eapply good_put; [done|apply evolves_with_ids|done]. Qed.

Lemma keeps_claim_control oid epoch sid : keeps good (claim_control oid epoch sid).
Proof.
  apply keeps_bind; [apply _|apply keeps_claim|]. intros created. apply keeps_read. intros g.
  destruct (dget oid (g_operations g)) as [it|] eqn:E; [|reflexivity].
  destruct created; [by apply good_with_ids|]. case_bool_decide; reflexivity.
Qed.

Lemma none_or_spec x e : none_or x e = true <-> x = None \/ x = e.
Proof. unfold none_or. rewrite orb_true_iff, !bool_decide_eq_true. done. Qed.

Lemma keeps_gate_bind oid epoch : keeps good (bind oid epoch).
Proof.
  apply keeps_read. intros g. destruct (dget oid (g_operations g)) as [it|] eqn:E; [|reflexivity].
  destruct (negb _ || negb _) eqn:Eb; [reflexivity|].
  bool_to_prop. apply none_or_spec in H. simpl.
  eapply good_put; [done|by apply evolves_with_epoch|done].
Qed.

Lemma keeps_sign oid epoch : keeps good (sign oid epoch).
Proof.
  unfold sign. peel. destruct (dget oid (g_operations a)) as [it|]; [|peel].
  destruct (signs (operation_kind it)); [|peel]. peel; [apply keeps_gate_bind|].
  case_bool_decide; peel.
Qed.

Lemma keeps_when_same_epoch oid epoch body :
  (forall it, keeps good (body it)) -> keeps good (when_same_epoch oid epoch body).
Proof.
  intros H. unfold when_same_epoch. peel. destruct (dget oid (g_operations a)) as [it|]; [|peel].
  destruct (_same_epoch a it epoch); [apply H|peel].
Qed.

Lemma keeps_bind_if_unbound oid it epoch : keeps good (bind_if_unbound oid it epoch).
Proof. unfold bind_if_unbound. destruct (it_epoch it); [peel|apply keeps_gate_bind]. Qed.

Lemma keeps_failed oid effect epoch : keeps good (failed oid effect epoch).
Proof.
  unfold failed. peel. destruct (dget oid (g_operations a)) as [it|]; [|peel].
  peel; [apply keeps_bind_if_unbound|]. apply keeps_when_same_epoch. intros; peel.
Qed.

Lemma keeps_query_failed oid epoch : keeps good (query_failed oid epoch).
Proof. apply keeps_when_same_epoch. intros; peel. Qed.

Lemma keeps_reconcile_prepared oid epoch : keeps good (reconcile_prepared oid epoch).
Proof. apply keeps_when_same_epoch. intros; peel. Qed.

Lemma keeps_snapshot_one epoch op sid out ev oid : keeps good (snapshot_one epoch op sid out ev oid).
Proof.
  apply keeps_read. intros g. destruct (dget oid (g_operations g)) as [it|] eqn:E; [|reflexivity].
  destruct (snapshot_applies _ _ _ _ _ _ _); [|reflexivity].
  unfold sbind at 1, lift_phase, slift. destruct (next_phase _ _ _ _) as [after|]; [|reflexivity].
  unfold sbind. destruct (keeps_evidence ev after); simpl; [|apply keeps_advance_].
  etransitivity; [by apply good_with_ids|apply keeps_advance_].
Qed.

Lemma keeps_snapshot r epoch op : keeps good (snapshot r epoch op).
Proof.
  unfold snapshot. destruct (foreign_epoch r epoch); peel.
  apply keeps_for; [apply _|]. intros; apply keeps_snapshot_one.
Qed.

Lemma keeps_result oid rp epoch : keeps good (result oid rp epoch).
Proof.
  unfold result. peel. destruct (dget oid (g_operations a)) as [it|]; [|peel].
  destruct (match rp_result rp with _ => _ end); [peel|]. peel; [apply keeps_bind_if_unbound|].
  apply keeps_when_same_epoch. intros it'. destruct (rp_error rp); [peel|].
  do 2 (case_bool_decide; [peel|]).
  destruct (rp_result rp) as [r|]; [|peel]. destruct (opt_truthy (rs_status r)); [|peel].
  peel; [apply keeps_snapshot|]. destruct (_ && _); peel.
Qed.

Lemma keeps_release out epoch : keeps good (release out epoch).
Proof.
  unfold release. peel. apply keeps_for; [apply _|]. intros oid _. peel.
  destruct (dget oid (g_operations a0)) as [it|]; [|peel]. destruct (_ && _ && _); peel.
Qed.

(** ** Runs of the gate *)

(** The calls the hub and the slot make, raising or not. *)
Inductive gate_step : gate -> gate -> Prop :=
| step_connected e g : gate_step g (connected e g).1
| step_restore rs g : gate_step g (restore rs g).1
| step_claim oid e h k g : gate_step g (claim oid e h k g).1
| step_claim_control oid e sid g : gate_step g (claim_control oid e sid g).1
| step_bind oid e g : gate_step g (bind oid e g).1
| step_sign oid e g : gate_step g (sign oid e g).1
| step_failed oid eff e g : gate_step g (failed oid eff e g).1
| step_cancel_prepared oid g : gate_step g (cancel_prepared oid g).1
| step_query_failed oid e g : gate_step g (query_failed oid e g).1
| step_reconcile_prepared oid e g : gate_step g (reconcile_prepared oid e g).1
| step_result oid rp e g : gate_step g (result oid rp e g).1
| step_snapshot r e o g : gate_step g (snapshot r e o g).1
| step_release out e g : gate_step g (release out e g).1.

Lemma gate_step_good g g' : gate_step g g' -> good g g'.
Proof.
  destruct 1; first [ apply keeps_connected | apply keeps_restore | apply keeps_claim
    | apply keeps_claim_control | apply keeps_gate_bind | apply keeps_sign | apply keeps_failed
    | apply keeps_advance_ | apply keeps_query_failed | apply keeps_reconcile_prepared
    | apply keeps_result | apply keeps_snapshot | apply keeps_release ].
Qed.

Lemma gate_run_good g g' : rtc gate_step g g' -> good g g'.
Proof.
  induction 1 as [|g1 g2 g3 H12 _ IH]; [reflexivity|].
  etransitivity; [by apply gate_step_good|done].
Qed.

Lemma new_gate_wf target : gate_wf (new_gate target).
Proof. split; [apply dwf_nil|done|]. intros oid [? H]. discriminate H. Qed.

(** The gate tracks the operation or has its tombstone. *)
Definition known (oid : string) (g : gate) : Prop := is_Some (dget oid (g_operations g)) \/ is_Some (dget oid (g_retired g)).

Lemma evolves_known oid g g' : evolves g g' -> known oid g -> known oid g'.
Proof.
  intros [H1 H2] [[it H]|[e H]]; [|right; eexists; by apply H1].
  destruct (H2 _ _ H) as [(it' & Hi & _)|?]; [left; by eexists|by right].
Qed.

Lemma known_not_claimed oid e h k g : known oid g -> (claim oid e h k g).2 <> Ok true.
Proof.
  intros Hk. unfold claim, sbind, sget. destruct (dmem oid (g_retired g)) eqn:Er; [done|]. apply dmem_false in Er.
  destruct Hk as [[it Hit]|[x Hx]]; [|congruence]. rewrite Hit. by repeat case_match.
Qed.
