(* ===== verification/GateSafety.v ===== *)
(** * Safety of the execution gate

    What the gate promises its clients (the slot and the hub), for every sequence
    of calls: it never fails internally, tombstones are final, a signature is spent
    once, runtimes cannot touch each other's operations, and a failed query never
    erases a claim. *)

From S2P Require Import Prelude Dict LifecycleTable Lifecycle Protocol ExecutionGate.
Open Scope Z_scope.

(** A method returns or raises a [RemoteError]; it never raises [ValueError] or [KeyError]. *)
Definition external {A} (r : res gate_error A) : Prop :=
  match r with
  | Ok _ | Raise (GateRemote _) => True
  | _ => False
  end.

Definition safe {A} (m : G A) : Prop := forall g, gate_wf g -> external (m g).2.

(** Operations bound to another runtime. *)
Definition bound_elsewhere (epoch : option string) (it : item) : Prop :=
  it_epoch it <> None /\ it_epoch it <> epoch.

(** A change that leaves the operations of other runtimes as they are. *)
Record fenced (epoch : option string) (g g' : gate) : Prop := {
  fenced_good : good g g';
  fenced_same : gate_wf g -> forall oid it, dget oid (g_operations g) = Some it ->
    bound_elsewhere epoch it -> dget oid (g_operations g') = Some it
}.

(** A record whose operation cannot be confirmed any more. *)
Definition unconfirmable (it : item) : Prop :=
  operation_phase it = P_unknown \/ operation_phase it = P_unsigned_unknown.

(** ** No internal errors *)

Lemma safe_bind {A B} (m : G A) (k : A -> G B) :
  keeps good m -> safe m -> (forall a, safe (k a)) -> safe (sbind m k).
Proof.
  intros Hm Hs Hk g Hg. specialize (Hs g Hg). destruct (Hm g Hg) as [Hw _]. unfold sbind.
  destruct (m g) as [g' [a|e]]; simpl in *; [by apply Hk|done].
Qed.

Lemma safe_read {A} (k : gate -> G A) :
  (forall g, gate_wf g -> external (k g g).2) -> safe (do! g <- sget ;; k g).
Proof. intros H g Hg. by apply H. Qed.

Lemma safe_advance oid ev : safe (_advance oid ev).
Proof.
  intros g Hg. destruct (dget oid (g_operations g)) as [it|] eqn:E.
  - rewrite (advance_eq _ _ it); [done..|]. by eapply wf_items.
  - unfold _advance, sbind, sget. by rewrite E.
Qed.

Lemma safe_advance_ oid ev : safe (advance_ oid ev).
Proof. apply safe_bind; [apply keeps_advance|apply safe_advance|]. intros ? ? ?; done. Qed.

Lemma safe_for {A} (f : A -> G unit) l :
  (forall x, keeps good (f x)) -> (forall x, safe (f x)) -> safe (sfor f l).
Proof. intros Hk Hs. induction l as [|x l IH]; [by intros ? ?|]. apply safe_bind; auto. Qed.

Lemma safe_claim oid e h k : safe (claim oid e h k).
Proof.
  intros g Hg. destruct (dget oid (g_retired g)) as [?|] eqn:E1.
  { unfold claim, sbind, sget. by rewrite (proj2 (dmem_true oid _)) by eauto. }
  destruct (dget oid (g_operations g)) as [it|] eqn:E2.
  { unfold claim, sbind, sget. rewrite (proj2 (dmem_false oid _)) by done. rewrite E2.
    by repeat case_bool_decide. }
  by rewrite claim_fresh.
Qed.

(** After a successful claim the operation is tracked. *)
Lemma claim_tracks oid e h k g b :
  (claim oid e h k g).2 = Ok b -> is_Some (dget oid (g_operations (claim oid e h k g).1)).
Proof.
  destruct (dget oid (g_retired g)) as [?|] eqn:E1.
  { unfold claim, sbind, sget. by rewrite (proj2 (dmem_true oid _)) by eauto. }
  destruct (dget oid (g_operations g)) as [it|] eqn:E2.
  { unfold claim, sbind, sget. rewrite (proj2 (dmem_false oid _)) by done. rewrite E2.
    repeat case_bool_decide; simpl; rewrite ?E2; by eexists. }
  rewrite claim_fresh by done. intros _. simpl. rewrite dget_dset_eq. by eexists.
Qed.

Lemma safe_claim_control oid e sid : safe (claim_control oid e sid).
Proof.
  intros g Hg. unfold claim_control, sbind.
  pose proof (safe_claim oid e false K_control g Hg) as Hs.
  pose proof (claim_tracks oid e false K_control g) as Ht.
  destruct (claim oid e false K_control g) as [g' [b|err]]; simpl in *; [|done].
  destruct (Ht b eq_refl) as [it Hit]. unfold sget. rewrite Hit.
  destruct b; [done|]. by case_bool_decide.
Qed.

Lemma safe_gate_bind oid e : safe (bind oid e).
Proof.
  apply safe_read. intros g Hg. destruct (dget oid (g_operations g)); [|done].
  by destruct (negb _ || negb _).
Qed.

Lemma safe_when_same_epoch oid e body :
  (forall it, safe (body it)) -> safe (when_same_epoch oid e body).
Proof.
  intros H. apply safe_read. intros g Hg. destruct (dget oid (g_operations g)) as [it|]; [|done].
  destruct (_same_epoch g it e); [by apply H|done].
Qed.

Lemma safe_bind_if_unbound oid it e : safe (bind_if_unbound oid it e).
Proof. unfold bind_if_unbound. destruct (it_epoch it); [by intros ? ?|apply safe_gate_bind]. Qed.

Lemma safe_sign oid e : safe (sign oid e).
Proof.
  apply safe_read. intros g Hg. destruct (dget oid (g_operations g)) as [it|]; [|done].
  destruct (signs (operation_kind it)); [|done].
  match goal with |- external (?m g).2 => assert (H : safe m); [|by apply H] end.
  apply safe_bind; [apply keeps_gate_bind|apply safe_gate_bind|]. intros _.
  apply safe_bind; [apply keeps_advance|apply safe_advance|]. intros q g' _.
  by case_bool_decide.
Qed.

Lemma safe_snapshot_one e op sid out ev oid : safe (snapshot_one e op sid out ev oid).
Proof.
  apply safe_read. intros g Hg. destruct (dget oid (g_operations g)) as [it|] eqn:E; [|done].
  destruct (snapshot_applies _ _ _ _ _ _ _); [|done].
  pose proof (wf_items _ Hg _ _ E) as (Hk & Hv & Hr).
  unfold sbind at 1, lift_phase, slift. rewrite next_phase_ok by done.
  unfold sbind. destruct (keeps_evidence _ _); simpl; [|by apply safe_advance_].
  apply safe_advance_. by apply good_with_ids.
Qed.

Lemma safe_snapshot r e op : safe (snapshot r e op).
Proof.
  unfold snapshot. destruct (foreign_epoch r e); [by intros ? ?|].
  apply safe_read. intros g Hg. apply safe_for; auto using keeps_snapshot_one, safe_snapshot_one.
Qed.

Lemma safe_result oid rp e : safe (result oid rp e).
Proof.
  apply safe_read. intros g Hg. destruct (dget oid (g_operations g)) as [it|]; [|done].
  destruct (match rp_result rp with Some r => foreign_epoch r e | None => false end); [done|].
  match goal with |- external (?m g).2 => assert (H : safe m); [|by apply H] end.
  apply safe_bind; [apply keeps_bind_if_unbound|apply safe_bind_if_unbound|]. intros _.
  apply safe_when_same_epoch. intros it'. destruct (rp_error rp); [apply safe_advance_|].
  do 2 (case_bool_decide; [apply safe_advance_|]).
  destruct (rp_result rp) as [r|]; [|apply safe_advance_].
  destruct (opt_truthy (rs_status r)); [|apply safe_advance_].
  apply safe_bind; [apply keeps_snapshot|apply safe_snapshot|]. intros _.
  destruct (_ && _); [apply safe_advance_|by intros ? ?].
Qed.

Lemma safe_failed oid eff e : safe (failed oid eff e).
Proof.
  apply safe_read. intros g Hg. destruct (dget oid (g_operations g)) as [it|]; [|done].
  match goal with |- external (?m g).2 => assert (H : safe m); [|by apply H] end.
  apply safe_bind; [apply keeps_bind_if_unbound|apply safe_bind_if_unbound|]. intros _.
  apply safe_when_same_epoch. intros; apply safe_advance_.
Qed.

Lemma safe_release out e : safe (release out e).
Proof.
  apply safe_read. intros g Hg. apply safe_for; [| |done].
  - intros oid. apply keeps_bind; [apply _|apply keeps_get; apply _|]. intros a.
    destruct (dget oid (g_operations a)); [|apply keeps_ret; apply _].
    destruct (_ && _ && _); [apply keeps_advance_|apply keeps_ret; apply _].
  - intros oid. apply safe_read. intros g' Hg'. destruct (dget oid (g_operations g')); [|done].
    destruct (_ && _ && _); [by apply safe_advance_|done].
Qed.

Lemma safe_connected e : safe (connected e).
Proof.
  apply safe_bind; [intros g; apply good_set_epoch|by intros ? ?|]. intros _.
  apply safe_read. intros g Hg. apply safe_for; [| |done]; intros [oid it]; cbn [fst snd].
  - destruct (match it_epoch it with None => _ | Some _ => _ end).
    + apply (keeps_advance_ oid E_epoch_changed).
    + apply keeps_ret; apply _.
  - destruct (match it_epoch it with None => _ | Some _ => _ end).
    + apply (safe_advance_ oid E_epoch_changed).
    + by intros ? ?.
Qed.

Lemma safe_restore_one r : safe (restore_one r).
Proof.
  destruct r as [oid it]. apply safe_read. intros g Hg.
  destruct (dmem oid (g_retired g) || dmem oid (g_operations g)) eqn:E; [done|].
  apply orb_false_iff in E as [E1%dmem_false E2%dmem_false].
  unfold sbind at 1, smodify. cbv beta iota. unfold sbind at 1.
  destruct (restore_event_phase (operation_kind (restored_item it)) (it_hold_output it) it) as [Hq1 Hq2].
  rewrite insert_advance by (done || by eexists).
  match goal with |- external (?m ?g').2 => assert (H : safe m); [|apply H] end.
  - apply safe_read. intros g' Hg'. destruct (g_current_epoch g'); [|done].
    case_bool_decide; [by apply safe_advance_|done].
  - apply (good_insert_advanced oid (restored_item it) (restore_event it)); done || by eexists.
Qed.

Lemma safe_restore rs : safe (restore rs).
Proof. apply safe_for; [apply keeps_restore_one|apply safe_restore_one]. Qed.

(** ** Fencing *)

#[export] Instance fenced_preorder e : PreOrder (fenced e).
Proof.
  split; [intros g; by split|]. intros a b c [G1 S1] [G2 S2]. split; [by etransitivity|].
  intros Ha oid it H Hb. destruct (G1 Ha) as [Hwb _]. eauto.
Qed.

(** A good change of one operation of this runtime is fenced. *)
Lemma fenced_local e oid g g' :
  good g g' ->
  (forall o, o <> oid -> dget o (g_operations g') = dget o (g_operations g)) ->
  (forall it, dget oid (g_operations g) = Some it -> ~ bound_elsewhere e it) ->
  fenced e g g'.
Proof.
  intros Hg Ho Hb. split; [done|]. intros Hw o it Hit Hel.
  destruct (decide (o = oid)) as [->|Hne]; [by apply Hb in Hit|]. by rewrite Ho.
Qed.

Lemma advance_local oid ev g o :
  o <> oid -> dget o (g_operations (_advance oid ev g).1) = dget o (g_operations g).
Proof.
  intros Hne. unfold _advance, sbind, sget. destruct (dget oid (g_operations g)) as [it|]; [|done].
  unfold lift_phase, slift. destruct (next_phase _ _ _ _) as [q|]; [|done].
  simpl. destruct (decide _); simpl; [by rewrite dget_ddel_ne|by rewrite dget_dset_ne].
Qed.

Lemma advance__fst oid ev g : (advance_ oid ev g).1 = (_advance oid ev g).1.
Proof. unfold advance_, sbind. by destruct (_advance oid ev g) as [? []]. Qed.

Lemma fenced_advance e oid ev g :
  (forall it, dget oid (g_operations g) = Some it -> ~ bound_elsewhere e it) ->
  fenced e g (advance_ oid ev g).1.
Proof.
  intros H. eapply fenced_local; [apply keeps_advance_| |done].
  intros o Ho. rewrite advance__fst. by apply advance_local.
Qed.

Lemma same_epoch_eq g it e : _same_epoch g it e = true -> it_epoch it = e.
Proof. unfold _same_epoch. intros H. by bool_to_prop. Qed.

Lemma not_elsewhere e it : it_epoch it = e -> ~ bound_elsewhere e it.
Proof. intros H [_ ?]. done. Qed.

Lemma fenced_bind e oid g : fenced e g (bind oid e g).1.
Proof.
  destruct (dget oid (g_operations g)) as [it|] eqn:E.
  - unfold bind, sbind, sget. rewrite E. destruct (negb _ || negb _) eqn:Eb; [reflexivity|].
    bool_to_prop. apply none_or_spec in H. apply (fenced_local _ oid).
    + simpl. eapply good_put; [done|by apply evolves_with_epoch|done].
    + intros o Ho. simpl. by rewrite dget_dset_ne.
    + intros it' Hit' [H1 H2]. assert (it' = it) as -> by congruence. naive_solver.
  - unfold bind, sbind, sget. rewrite E. reflexivity.
Qed.

Lemma permit_same_epoch k p r b : permitted k p r b = true -> b = true.
Proof. rewrite permitted_permit. by destruct b. Qed.

Lemma fenced_snapshot_one e op sid out ev oid : keeps (fenced e) (snapshot_one e op sid out ev oid).
Proof.
  intros g. unfold snapshot_one, sbind at 1, sget.
  destruct (dget oid (g_operations g)) as [it|] eqn:E; [|reflexivity].
  destruct (snapshot_applies g e op sid out oid it) eqn:Ea; [|reflexivity].
  unfold snapshot_applies in Ea. bool_to_prop. apply permit_same_epoch, same_epoch_eq in H.
  unfold sbind at 1, lift_phase, slift. destruct (next_phase _ _ _ _) as [after|]; [|reflexivity].
  unfold sbind. destruct (keeps_evidence ev after); simpl.
  - etransitivity.
    + apply (fenced_local _ oid); [by apply good_with_ids| |].
      * intros o Ho. simpl. by rewrite dget_dset_ne.
      * intros it' Hit'. apply not_elsewhere. congruence.
    + apply fenced_advance. simpl. rewrite dget_dset_eq. intros it' [= <-]. by apply not_elsewhere.
  - apply fenced_advance. intros it' Hit'. apply not_elsewhere. congruence.
Qed.

Lemma fenced_snapshot r e op : keeps (fenced e) (snapshot r e op).
Proof.
  unfold snapshot. destruct (foreign_epoch r e); [apply keeps_ret; apply _|].
  apply keeps_bind; [apply _|apply keeps_get; apply _|]. intros g.
  apply keeps_for; [apply _|]. intros; apply fenced_snapshot_one.
Qed.

(** After a fenced change, an operation of this runtime is still of this runtime. *)
Lemma evolves_epoch g g' oid it it' e :
  gate_wf g -> good g g' -> it_epoch it = Some e ->
  dget oid (g_operations g) = Some it -> dget oid (g_operations g') = Some it' -> it_epoch it' = Some e.
Proof.
  intros Hw Hg He H H'. destruct (Hg Hw) as [Hw' Hev].
  destruct (ev_tracked _ _ Hev _ _ H) as [(it2 & H2 & Hi)|[x Hx]].
  - assert (it2 = it') as -> by congruence. destruct (ev_epoch _ _ Hi); congruence.
  - rewrite (wf_disjoint _ Hw') in Hx; [done|]. by exists it'.
Qed.

Lemma fenced_when_same_epoch e oid body g :
  (forall it, dget oid (g_operations g) = Some it -> it_epoch it = e -> fenced e g (body it g).1) ->
  fenced e g (when_same_epoch oid e body g).1.
Proof.
  intros H. unfold when_same_epoch, sbind, sget.
  destruct (dget oid (g_operations g)) as [it|] eqn:E; [|reflexivity].
  destruct (_same_epoch g it e) eqn:Es; [|reflexivity].
  apply H; [done|by eapply same_epoch_eq].
Qed.

(** Only well-formed gates matter. *)
Lemma fenced_assume e g g' : (gate_wf g -> fenced e g g') -> fenced e g g'.
Proof. intros H. split; [intros Hw; by apply H|intros Hw; by apply H]. Qed.

Lemma fenced_seq {A B} e (m : G A) (k : A -> G B) g :
  fenced e g (m g).1 -> (forall a g', g' = (m g).1 -> fenced e g' (k a g').1) ->
  fenced e g (sbind m k g).1.
Proof.
  intros Hm Hk. unfold sbind. destruct (m g) as [g' [a|err]] eqn:E; simpl in *; [|done].
  etransitivity; [exact Hm|by apply Hk].
Qed.

Lemma fenced_result oid rp e : keeps (fenced (Some e)) (result oid rp (Some e)).
Proof.
  intros g. unfold result, sbind at 1, sget.
  destruct (dget oid (g_operations g)) as [it|] eqn:E; [|reflexivity].
  destruct (match rp_result rp with Some r => foreign_epoch r (Some e) | None => false end); [reflexivity|].
  apply fenced_seq.
  { unfold bind_if_unbound. destruct (it_epoch it); [reflexivity|apply fenced_bind]. }
  intros _ g1 _. apply fenced_when_same_epoch. intros it1 H1 He1. apply fenced_assume. intros Hw1.
  assert (Hadv : forall ev, fenced (Some e) g1 (advance_ oid ev g1).1).
  { intros ev. apply fenced_advance. intros it' H'. apply not_elsewhere. congruence. }
  destruct (rp_error rp); [apply Hadv|]. do 2 (case_bool_decide; [apply Hadv|]).
  destruct (rp_result rp) as [r|]; [|apply Hadv]. destruct (opt_truthy (rs_status r)); [|apply Hadv].
  apply fenced_seq; [apply fenced_snapshot|]. intros _ g2 Hg2.
  destruct (_ && _); [|reflexivity]. apply fenced_advance. intros it2 H2. apply not_elsewhere.
  eapply (evolves_epoch g1 g2); [done| |done..]. rewrite Hg2. apply keeps_snapshot.
Qed.

Lemma fenced_failed oid eff e : e <> "" -> keeps (fenced (Some e)) (failed oid eff (Some e)).
Proof.
  intros He g. unfold failed, sbind at 1, sget.
  destruct (dget oid (g_operations g)) as [it|] eqn:E; [|reflexivity].
  assert (Hor : epoch_or (Some e) (it_epoch it) = Some e).
  { unfold epoch_or; simpl. by rewrite (proj2 (str_truthy_spec e)). }
  rewrite Hor. apply fenced_seq.
  { unfold bind_if_unbound. destruct (it_epoch it); [reflexivity|apply fenced_bind]. }
  intros _ g1 _. apply fenced_when_same_epoch. intros it1 H1 He1.
  apply fenced_advance. intros it' H'. apply not_elsewhere. congruence.
Qed.

Lemma fenced_query e oid ev g :
  fenced e g (when_same_epoch oid e (fun _ => advance_ oid ev) g).1.
Proof.
  apply fenced_when_same_epoch. intros it Hit He. apply fenced_advance.
  intros it' Hit'. apply not_elsewhere. congruence.
Qed.

Lemma fenced_release out e : keeps (fenced e) (release out e).
Proof.
  apply keeps_bind; [apply _|apply keeps_get; apply _|]. intros g0. apply keeps_for; [apply _|].
  intros oid _ g. unfold sbind at 1, sget. destruct (dget oid (g_operations g)) as [it|] eqn:E; [|reflexivity].
  destruct (_ && _ && _) eqn:Ec; [|reflexivity]. bool_to_prop. apply fenced_advance.
  intros it' Hit'. apply not_elsewhere. apply same_epoch_eq in H0. congruence.
Qed.

(** ** Epoch changes *)

Lemma reduce_epoch_changed k h p :
  p <> P_absent -> p <> P_retired ->
  tla.Reduce k h p E_epoch_changed = P_unknown \/ tla.Reduce k h p E_epoch_changed = P_unsigned_unknown.
Proof. destruct p; try done; intros _ _; simpl; auto. Qed.

(** Every tracked record is of the new runtime, unbound, unconfirmable, or still to visit. *)
Definition sweep (e : option string) (todo : dict string item) (g : gate) : Prop :=
  gate_wf g /\ forall oid it, dget oid (g_operations g) = Some it ->
    it_epoch it = None \/ it_epoch it = e \/ unconfirmable it \/ (oid, it) ∈ todo.

Lemma advance__ok oid ev g : gate_wf g -> (advance_ oid ev g).2 = Ok tt.
Proof.
  intros Hg. unfold advance_, sbind. destruct (dget oid (g_operations g)) as [it|] eqn:E.
  - rewrite (advance_eq _ _ it); [done..|]. by eapply wf_items.
  - unfold _advance, sbind, sget. by rewrite E.
Qed.

Lemma sweep_step e oid it todo :
  triple (sweep e ((oid, it) :: todo))
    (if match it_epoch it with None => false | Some _ => bool_decide (it_epoch it <> e) end
     then seq! _advance oid E_epoch_changed ;; sret tt else sret tt)
    (fun r g => r = Ok tt /\ sweep e todo g).
Proof.
  intros g [Hw Hs].
  destruct (match it_epoch it with None => _ | Some _ => _ end) eqn:Ec.
  - change ((advance_ oid E_epoch_changed g).2 = Ok tt /\ sweep e todo (advance_ oid E_epoch_changed g).1).
    split; [by apply advance__ok|]. split; [by apply keeps_advance_|]. rewrite advance__fst. intros o i Hi.
    destruct (decide (o = oid)) as [->|Hne].
    + destruct (dget oid (g_operations g)) as [i0|] eqn:E0.
      2:{ rewrite advance_none in Hi by done. congruence. }
      pose proof (wf_items _ Hw _ _ E0) as (Hk & Hv & Hr & Ha).
      rewrite (advance_eq _ _ i0) in Hi by done. simpl in Hi. unfold advanced in Hi.
      destruct (reduce_epoch_changed (operation_kind i0) (it_hold_output i0) _ Ha Hr) as [Hq|Hq];
        rewrite Hq in Hi; simpl in Hi; rewrite dget_dset_eq in Hi; injection Hi as <-;
        right; right; left; [left|right]; apply operation_phase_store; rewrite valid_phase_spec.
      * by rewrite <- Hq, reduce_valid by (by rewrite <- valid_phase_spec).
      * by rewrite <- Hq, reduce_valid by (by rewrite <- valid_phase_spec).
    + rewrite advance_local in Hi by done.
      destruct (Hs _ _ Hi) as [?|[?|[?|Hin]]]; auto. apply elem_of_cons in Hin as [|]; [congruence|auto].
  - split; [done|]. split; [done|]. simpl. intros o i Hi.
    destruct (Hs _ _ Hi) as [?|[?|[?|Hin]]]; auto. apply elem_of_cons in Hin as [[= -> ->]|]; [|auto].
    destruct (it_epoch it) eqn:Ee; [|auto]. bool_to_prop. right; left. by apply dec_stable.
Qed.

Lemma sweep_connected e g : gate_wf g -> sweep e [] (connected e g).1.
Proof.
  intros Hw. unfold connected, sbind, smodify, sget. cbv beta iota. simpl.
  assert (H0 : sweep e (g_operations g) (set_epoch e g)).
  { split; [by apply good_set_epoch|]. simpl. intros oid it H. right; right; right. by apply dget_elem. }
  eapply (triple_for_todo (sweep e)); [|exact H0]. intros [oid it] todo. apply sweep_step.
Qed.

(** ** Signing *)

Lemma run_signed g g' oid it :
  gate_wf g -> rtc gate_step g g' -> dget oid (g_operations g) = Some it ->
  signed_side (operation_phase it) = true ->
  (exists it', dget oid (g_operations g') = Some it' /\ signed_side (operation_phase it') = true) \/
  dget oid (g_operations g') = None.
Proof.
  intros Hw Hrun Hit Hs. destruct (gate_run_good _ _ Hrun Hw) as [Hw' Hev].
  destruct (ev_tracked _ _ Hev _ _ Hit) as [(it' & Hit' & [_ _ Hp _])|Hr].
  - left. exists it'. split; [done|]. revert Hs Hp. generalize (operation_phase it).
    intros p Hs Hp. induction Hp as [|p q r [ev ->] _ IH]; [done|]. by apply IH, reduce_signed_side.
  - right. destruct (dget oid (g_operations g')) eqn:E; [|done].
    rewrite (wf_disjoint _ Hw') in Hr; [by destruct Hr|by eexists].
Qed.

(** What a spent signature looks like: the record was on the unsigned side and is not any more. *)
Lemma sign_true oid e g g' :
  gate_wf g -> sign oid e g = (g', Ok true) ->
  (exists it, dget oid (g_operations g) = Some it /\ signed_side (operation_phase it) = false) /\
  exists it', dget oid (g_operations g') = Some it' /\ operation_phase it' = P_signing.
Proof.
  intros Hw. unfold sign. unfold sbind at 1, sget.
  destruct (dget oid (g_operations g)) as [it|] eqn:E; [|done].
  destruct (signs (operation_kind it)) eqn:Es; [|done].
  unfold sbind at 1. destruct (bind oid e g) as [g1 [[]|]] eqn:Eb; [|done].
  assert (Hb : g1 = put_item oid (with_epoch e it) g).
  { unfold bind, sbind, sget in Eb. rewrite E in Eb. destruct (_ || _); [done|]. by injection Eb as <-. }
  pose proof (wf_items _ Hw _ _ E) as (Hk & Hv & Hr & Ha).
  unfold sbind at 1. subst g1.
  rewrite (advance_eq _ _ (with_epoch e it)); [|apply dget_dset_eq|done].
  set (q := tla.Reduce _ _ _ _). case_bool_decide as Hpre; [done|].
  intros [= <- Hq]. bool_to_prop. split.
  - exists it. split; [done|]. eapply reduce_sign_new; [done|]. exact H.
  - unfold advanced. rewrite H. simpl. rewrite dget_dset_eq. eexists. split; [done|].
    apply operation_phase_store. rewrite valid_phase_spec. rewrite <- H.
    apply reduce_valid. by rewrite <- valid_phase_spec.
Qed.

(** ** Theorems *)

(** Every reachable gate is well formed: keys are distinct, every record carries
    a kind and a phase valid for it that is neither absent nor retired, and no
    operation is both tracked and retired. *)
Theorem reachable_gate_wf target g : rtc gate_step (new_gate target) g -> gate_wf g.
Proof. intros H. apply gate_run_good in H. apply H, new_gate_wf. Qed.

(** C38: on a well-formed gate no method fails internally: it returns, or raises one
    of the [RemoteError]s of the source; the lifecycle adapter never rejects a phase. *)
Theorem gate_never_internal_error g oid e h k sid eff rs rp r o out :
  gate_wf g ->
  external (connected e g).2 /\ external (restore rs g).2 /\ external (claim oid e h k g).2 /\
  external (claim_control oid e sid g).2 /\ external (bind oid e g).2 /\ external (sign oid e g).2 /\
  external (failed oid eff e g).2 /\ external (cancel_prepared oid g).2 /\
  external (query_failed oid e g).2 /\ external (reconcile_prepared oid e g).2 /\
  external (result oid rp e g).2 /\ external (snapshot r e o g).2 /\ external (release out e g).2.
Proof.
  intros Hw. repeat split;
    first [ by apply safe_connected | by apply safe_restore | by apply safe_claim
    | by apply safe_claim_control | by apply safe_gate_bind | by apply safe_sign | by apply safe_failed
    | by apply safe_advance_ | by (apply safe_when_same_epoch; [intros; apply safe_advance_|])
    | by apply safe_result | by apply safe_snapshot | by apply safe_release ].
Qed.

(** C3: the gate refines the normative reducer.  Along any run, a tracked operation
    either is still tracked, with the same kind, with its phase moved only along
    [Reduce], and with its runtime unchanged once set, or it has a tombstone; and a
    tombstone never goes away, so no operation is lost and none is resurrected. *)
Theorem gate_run_refines_reducer g g' oid it :
  gate_wf g -> rtc gate_step g g' -> dget oid (g_operations g) = Some it ->
  (exists it', dget oid (g_operations g') = Some it' /\ item_evolves it it') \/
  (is_Some (dget oid (g_retired g')) /\ dget oid (g_operations g') = None).
Proof.
  intros Hw Hrun Hit. destruct (gate_run_good _ _ Hrun Hw) as [Hw' Hev].
  destruct (ev_tracked _ _ Hev _ _ Hit) as [?|Hr]; [by left|]. right. split; [done|].
  destruct (dget oid (g_operations g')) eqn:E; [|done].
  rewrite (wf_disjoint _ Hw') in Hr; [by destruct Hr|by eexists].
Qed.

(** C7: a settled operation ID is never admitted again: after any later run, a claim
    of it raises [operation_retired] with an unknown effect and changes nothing, and
    restoring a record of it is ignored. *)
Theorem retired_never_resubmitted g g' oid ep e h k it :
  gate_wf g -> rtc gate_step g g' -> dget oid (g_retired g) = Some ep ->
  claim oid e h k g' = (g', Raise (GateRemote (remote_error "operation_retired" "unknown" oid))) /\
  restore_one (oid, it) g' = (g', Ok tt).
Proof.
  intros Hw Hrun Hr. destruct (gate_run_good _ _ Hrun Hw) as [_ Hev].
  apply (ev_retired _ _ Hev) in Hr. assert (Hm : dmem oid (g_retired g') = true) by (apply dmem_true; eauto).
  unfold claim, restore_one, sbind, sget. by rewrite Hm.
Qed.

(** A signature is spent at most once: once [sign] has told its caller to send
    the signed request, no later [sign] of that operation says so again, whatever
    happens in between. *)
Theorem sign_granted_once g g1 g2 oid e e' :
  gate_wf g -> sign oid e g = (g1, Ok true) -> rtc gate_step g1 g2 ->
  (sign oid e' g2).2 <> Ok true.
Proof.
  intros Hw Hs Hrun Hs2. destruct (sign_true _ _ _ _ Hw Hs) as [_ (it & Hit & Hp)].
  assert (Hw1 : gate_wf g1) by (pose proof (keeps_sign oid e g Hw) as [H _]; by rewrite Hs in H).
  assert (Hw2 : gate_wf g2) by (by apply (gate_run_good _ _ Hrun)).
  destruct (sign oid e' g2) as [g3 r] eqn:E. simpl in Hs2. subst r.
  destruct (sign_true _ _ _ _ Hw2 E) as [(it2 & Hit2 & Hp2) _].
  destruct (run_signed _ _ _ _ Hw1 Hrun Hit) as [(it' & Hit' & Hp')|Hn]; [by rewrite Hp| |congruence].
  congruence.
Qed.

(** Runtimes are isolated: replies, observations, output releases, failures and
    failed queries of one runtime leave every operation that is bound to another
    runtime exactly as it is. *)
Theorem runtimes_are_fenced g e oid' eff rp r o out oid it :
  gate_wf g -> e <> "" -> dget oid (g_operations g) = Some it -> bound_elsewhere (Some e) it ->
  dget oid (g_operations (result oid' rp (Some e) g).1) = Some it /\
  dget oid (g_operations (snapshot r (Some e) o g).1) = Some it /\
  dget oid (g_operations (release out (Some e) g).1) = Some it /\
  dget oid (g_operations (failed oid' eff (Some e) g).1) = Some it /\
  dget oid (g_operations (query_failed oid' (Some e) g).1) = Some it /\
  dget oid (g_operations (reconcile_prepared oid' (Some e) g).1) = Some it.
Proof.
  intros Hw He Hit Hb.
  assert (H : forall g', fenced (Some e) g g' -> dget oid (g_operations g') = Some it)
    by (intros g' [_ Hf]; by apply Hf).
  repeat split; apply H;
    first [ apply fenced_result | apply fenced_snapshot | apply fenced_release
          | by apply fenced_failed | apply fenced_query ].
Qed.

(** Connecting to a runtime settles the doubt about the others: afterwards every
    tracked operation is unbound, of the new runtime, or in an unknown phase. *)
Theorem connected_invalidates_other_epochs g e oid it :
  gate_wf g -> dget oid (g_operations (connected e g).1) = Some it ->
  it_epoch it = None \/ it_epoch it = e \/ unconfirmable it.
Proof.
  intros Hw Hit. destruct (sweep_connected e g Hw) as [_ H].
  destruct (H _ _ Hit) as [?|[?|[?|Hin]]]; auto. by apply elem_of_nil in Hin.
Qed.

(** A failed query is not evidence: it retires nothing and every tracked
    operation stays tracked. *)
Theorem query_failed_keeps_claims g oid e :
  gate_wf g ->
  g_retired (query_failed oid e g).1 = g_retired g /\
  forall o, is_Some (dget o (g_operations g)) <-> is_Some (dget o (g_operations (query_failed oid e g).1)).
Proof.
  intros Hw. unfold query_failed, when_same_epoch, sbind, sget.
  destruct (dget oid (g_operations g)) as [it|] eqn:E; [|done].
  destruct (_same_epoch g it e); [|done]. rewrite advance__fst.
  pose proof (wf_items _ Hw _ _ E) as (Hk & Hv & Hr & Ha).
  rewrite (advance_eq _ _ it) by done. simpl. unfold advanced. rewrite decide_False.
  - split; [done|]. intros o. simpl. rewrite dget_dset. case_decide; [subst|done].
    rewrite E. split; eauto.
  - destruct (operation_phase it), (operation_kind it); try done; by destruct (it_hold_output it).
Qed.

(** ** Witnesses *)

Definition g_start : gate := (connected (Some "e1") (new_gate 5)).1.
Definition g_privileged : gate := (claim "op" (Some "e1") true K_privileged g_start).1.
Definition g_prepared : gate :=
  (result "op" (Response None (Some "approval_required") None) (Some "e1") g_privileged).1.
Definition g_signed : gate := (sign "op" (Some "e1") g_prepared).1.
Definition g_retired_op : gate := (failed "op" "not_started" (Some "e1") g_privileged).1.

Lemma run_start : rtc gate_step (new_gate 5) g_start.
Proof. apply rtc_once. apply step_connected. Defined.

Lemma run_prepared : rtc gate_step (new_gate 5) g_prepared.
Proof.
  eapply rtc_l; [apply step_connected|]. eapply rtc_l; [apply (step_claim "op" (Some "e1") true K_privileged)|].
  apply rtc_once. apply (step_result "op" (Response None (Some "approval_required") None) (Some "e1")).
Defined.

Lemma g_prepared_wf : gate_wf g_prepared.
Proof. apply (gate_run_good _ _ run_prepared), new_gate_wf. Qed.

Lemma g_privileged_wf : gate_wf g_privileged.
Proof. apply keeps_claim, keeps_connected, new_gate_wf. Qed.

Lemma reachable_gate_wf_witness : gate_wf g_prepared.
Proof. apply (reachable_gate_wf 5). exact run_prepared. Defined.

Lemma gate_never_internal_error_witness : external (sign "op" (Some "e1") g_prepared).2.
Proof.
  apply (gate_never_internal_error g_prepared "op" (Some "e1") true K_execution 0 "" [] (Response None None None)
    (OpResult None None 0 "" None) None "" g_prepared_wf).
Defined.

Lemma gate_run_refines_reducer_witness :
  exists it, dget "op" (g_operations g_privileged) = Some it /\
    ((exists it', dget "op" (g_operations g_prepared) = Some it' /\ item_evolves it it') \/
     (is_Some (dget "op" (g_retired g_prepared)) /\ dget "op" (g_operations g_prepared) = None)).
Proof.
  eexists. split; [vm_compute; reflexivity|].
  apply (gate_run_refines_reducer g_privileged g_prepared "op"); [exact g_privileged_wf| |vm_compute; reflexivity].
  apply rtc_once. apply (step_result "op" (Response None (Some "approval_required") None) (Some "e1")).
Defined.

Lemma retired_never_resubmitted_witness :
  claim "op" (Some "e1") true K_privileged g_retired_op =
    (g_retired_op, Raise (GateRemote (remote_error "operation_retired" "unknown" "op"))).
Proof.
  apply (retired_never_resubmitted g_retired_op g_retired_op "op" (Some "e1") _ _ _ sample_item);
    [apply keeps_failed, g_privileged_wf|reflexivity|vm_compute; reflexivity].
Defined.

Lemma sign_granted_once_witness :
  sign "op" (Some "e1") g_prepared = (g_signed, Ok true) /\ (sign "op" (Some "e1") g_signed).2 <> Ok true.
Proof.
  assert (H : sign "op" (Some "e1") g_prepared = (g_signed, Ok true)) by (vm_compute; reflexivity).
  split; [exact H|].
  apply (sign_granted_once g_prepared g_signed g_signed "op" (Some "e1") (Some "e1"));
    [exact g_prepared_wf|exact H|reflexivity].
Defined.

Lemma runtimes_are_fenced_witness :
  exists it, dget "op" (g_operations g_prepared) = Some it /\
    dget "op" (g_operations (failed "op" "lost" (Some "e2") g_prepared).1) = Some it.
Proof.
  eexists. split; [vm_compute; reflexivity|].
  apply (runtimes_are_fenced g_prepared "e2" "op" "lost" (Response None None None)
    (OpResult None None 0 "" None) None "" "op"); [exact g_prepared_wf|done|vm_compute; reflexivity|by split].
Defined.

Lemma connected_invalidates_other_epochs_witness :
  exists it, dget "op" (g_operations (connected (Some "e2") g_prepared).1) = Some it /\
    (it_epoch it = None \/ it_epoch it = Some "e2" \/ unconfirmable it).
Proof.
  eexists. split; [vm_compute; reflexivity|].
  apply (connected_invalidates_other_epochs g_prepared (Some "e2") "op");
    [exact g_prepared_wf|vm_compute; reflexivity].
Defined.

Lemma query_failed_keeps_claims_witness :
  g_retired (query_failed "op" (Some "e1") g_signed).1 = g_retired g_signed.
Proof.
  apply (query_failed_keeps_claims g_signed "op" (Some "e1")). apply keeps_sign, g_prepared_wf.
Defined.
