(* ===== verification/Admission.v ===== *)
(** * Request admission

    [pal_shell_remote/admission.py]: at most [capacity] requests use the transport,
    at most [queue_limit] wait, in order.  The event loop is a step relation: a
    waiting [acquire] is a future, which a release grants, a timeout or a
    cancellation cancels and [close] fails; its coroutine runs again later, when
    other steps may have come in between. *)

From S2P Require Import Prelude Dict Protocol.
Open Scope Z_scope.

Inductive future_state := Pending | Granted | Cancelled | Failed.

#[export] Instance future_state_eq_dec : EqDecision future_state.
Proof. solve_decision. Defined.

Record RequestAdmission := Admission {
  capacity : Z;
  queue_limit : Z;
  active : Z;
  waiters : list nat;
  closed : bool
}.

(** The admission, the futures of the [acquire]s that are waiting, and the number
    of [permit] blocks being executed. *)
Record system := System {
  adm : RequestAdmission;
  futures : dict nat future_state;
  holders : Z;
  next_future : nat
}.

Definition new_admission (cap limit : Z) : RequestAdmission := Admission cap limit 0 [] false.
Definition new_system (cap limit : Z) : system := System (new_admission cap limit) [] 0 0.

Definition set_active (n : Z) (a : RequestAdmission) : RequestAdmission :=
  Admission (capacity a) (queue_limit a) n (waiters a) (closed a).
Definition set_waiters (w : list nat) (a : RequestAdmission) : RequestAdmission :=
  Admission (capacity a) (queue_limit a) (active a) w (closed a).

(** [acquire] up to its return, its exception or its [await]. *)
Inductive acquire_outcome :=
| AcquireGranted (s : system)
| Waiting (s : system)
| Refused (e : RemoteError).

Definition acquire (s : system) : acquire_outcome :=
  let a := adm s in
  if closed a then Refused (remote "backend_unavailable")
  else if (active a <? capacity a) && bool_decide (waiters a = [])
  then AcquireGranted (System (set_active (active a + 1) a) (futures s) (holders s + 1) (next_future s))
  else if queue_limit a <=? Z.of_nat (length (waiters a))
  then Refused (remote "transport_capacity")
  else
    let f := next_future s in
    Waiting (System (set_waiters (waiters a ++ [f]) a) (dset f Pending (futures s)) (holders s) (S f)).

(** The loop of [release]: drop done futures, grant the first that is not done. *)
Fixpoint release_loop (ws : list nat) (fs : dict nat future_state)
    : list nat * dict nat future_state * bool :=
  match ws with
  | [] => ([], fs, false)
  | f :: ws =>
      if bool_decide (dget f fs = Some Pending) then (ws, dset f Granted fs, true)
      else release_loop ws fs
  end.

Definition release (s : system) : system :=
  let a := set_active (active (adm s) - 1) (adm s) in
  if closed a then System a (futures s) (holders s) (next_future s)
  else
    let '(ws, fs, granted) := release_loop (waiters a) (futures s) in
    let a' := set_waiters ws (set_active (if granted then active a + 1 else active a) a) in
    System a' fs (holders s) (next_future s).

(** The loop of [close]: fail every future of the queue that is not done. *)
Definition fail_future (fs : dict nat future_state) (f : nat) : dict nat future_state :=
  if bool_decide (dget f fs = Some Pending) then dset f Failed fs else fs.

Definition close (s : system) : system :=
  let a := adm s in
  System (Admission (capacity a) (queue_limit a) (active a) [] true)
    (foldl fail_future (futures s) (waiters a)) (holders s) (next_future s).

(** The [except] block of [acquire]: return a granted permit, else leave the queue. *)
Definition acquire_except (f : nat) (s : system) : system :=
  let s' := System (adm s) (ddel f (futures s)) (holders s) (next_future s) in
  match dget f (futures s) with
  | Some Granted => release s'
  | _ => System (set_waiters (filter (fun g => g <> f) (waiters (adm s))) (adm s))
           (futures s') (holders s') (next_future s')
  end.

(** The steps of the event loop. *)
Inductive admission_step : system -> system -> Prop :=
| step_admitted s s' : acquire s = AcquireGranted s' -> admission_step s s'
| step_waiting s s' : acquire s = Waiting s' -> admission_step s s'
| step_cancel s f : (* timeout or cancellation of a waiting task *)
    dget f (futures s) = Some Pending ->
    admission_step s (System (adm s) (dset f Cancelled (futures s)) (holders s) (next_future s))
| step_resume s f : (* the await returns *)
    dget f (futures s) = Some Granted ->
    admission_step s (System (adm s) (ddel f (futures s)) (holders s + 1) (next_future s))
| step_except s f st : (* the await raises; a granted task can still be cancelled *)
    dget f (futures s) = Some st -> st <> Pending -> admission_step s (acquire_except f s)
| step_exit_permit s : (* the finally of permit() *)
    0 < holders s ->
    admission_step s (release (System (adm s) (futures s) (holders s - 1) (next_future s)))
| step_close s : admission_step s (close s).

(** ** The invariant *)

Definition granted_count (fs : dict nat future_state) : Z :=
  Z.of_nat (length (filter (fun p : nat * future_state => p.2 = Granted) fs)).

Record system_ok (s : system) : Prop := {
  ok_futures : dwf (futures s);
  ok_fresh : forall f, is_Some (dget f (futures s)) -> (f < next_future s)%nat;
  ok_waiters : NoDup (waiters (adm s));
  ok_queued : forall f, f ∈ waiters (adm s) ->
    dget f (futures s) = Some Pending \/ dget f (futures s) = Some Cancelled;
  ok_pending : forall f, dget f (futures s) = Some Pending -> f ∈ waiters (adm s);
  ok_permits : active (adm s) = holders s + granted_count (futures s);
  ok_holders : 0 <= holders s;
  ok_capacity : active (adm s) <= capacity (adm s);
  ok_limit : Z.of_nat (length (waiters (adm s))) <= queue_limit (adm s);
  ok_full : waiters (adm s) <> [] -> active (adm s) = capacity (adm s);
  ok_closed : closed (adm s) = true -> waiters (adm s) = []
}.

Definition bit (b : bool) : Z := if b then 1 else 0.

(** Setting a future changes the number of granted ones by what it was and becomes. *)
Lemma granted_dset f st fs :
  dwf fs ->
  granted_count (dset f st fs) =
    granted_count fs + bit (bool_decide (st = Granted)) - bit (bool_decide (dget f fs = Some Granted)).
Proof.
  unfold granted_count, dwf. induction fs as [|[g st'] fs IH]; intros Hd.
  { by destruct st. }
  apply NoDup_cons in Hd as [Hn Hd]. specialize (IH Hd). simpl.
  destruct (decide (g = f)) as [->|Hne].
  - rewrite !filter_cons; simpl. destruct st, st'; simpl; lia.
  - rewrite !filter_cons; simpl. destruct st'; simpl; lia.
Qed.

Lemma granted_ddel f fs :
  dwf fs ->
  granted_count (ddel f fs) = granted_count fs - bit (bool_decide (dget f fs = Some Granted)).
Proof.
  unfold granted_count, dwf, ddel. induction fs as [|[g st'] fs IH]; intros Hd; [done|].
  apply NoDup_cons in Hd as [Hn Hd]. specialize (IH Hd). simpl.
  rewrite (filter_cons _ (g, st')). simpl.
  destruct (decide (g = f)) as [->|Hne].
  - rewrite decide_False by naive_solver. rewrite (filter_cons _ (f, st')); simpl.
    assert (Hg : dget f fs = None) by (by apply dget_None).
    rewrite IH, Hg. destruct st'; simpl; lia.
  - rewrite decide_True by done. rewrite !filter_cons; simpl. destruct st'; simpl; lia.
Qed.

Lemma granted_nonneg fs : 0 <= granted_count fs.
Proof. unfold granted_count. lia. Qed.

(** What the loop of [release] does to a queue whose futures are pending or cancelled. *)
Lemma release_loop_spec ws fs ws' fs' b :
  dwf fs -> NoDup ws ->
  (forall f, f ∈ ws -> dget f fs = Some Pending \/ dget f fs = Some Cancelled) ->
  release_loop ws fs = (ws', fs', b) ->
  dwf fs' /\ NoDup ws' /\ (exists l, ws = l ++ ws') /\
  granted_count fs' = granted_count fs + bit b /\ (b = false -> ws' = [] /\ fs' = fs) /\
  (forall f, f ∈ ws' -> dget f fs' = dget f fs) /\
  (forall f, is_Some (dget f fs') <-> is_Some (dget f fs)) /\
  (forall f, dget f fs' = Some Pending -> dget f fs = Some Pending /\ (f ∈ ws -> f ∈ ws')).
Proof.
  intros Hd. induction ws as [|f ws IH]; intros Hn Hq; simpl.
  { intros [= <- <- <-]. split; [done|]. split; [constructor|]. split; [by exists []|]. simpl.
    split; [lia|]. split; [done|]. split; [done|]. split; [done|]. naive_solver. }
  apply NoDup_cons in Hn as [Hf Hn]. case_bool_decide as Hp.
  - intros [= <- <- <-]. split; [by apply dwf_dset|]. split; [done|]. split; [by exists [f]|].
    rewrite granted_dset by done. rewrite Hp. simpl. split; [lia|]. split; [done|].
    split; [intros g Hg; rewrite dget_dset_ne; [done|]; congruence|].
    split; [intros g; rewrite dget_dset; case_decide; [subst; rewrite Hp; split; eauto|done]|].
    intros g. rewrite dget_dset. case_decide; [done|]. intros Hg. split; [done|].
    intros [->|]%elem_of_cons; done.
  - intros H. destruct IH as (H1 & H2 & [l ->] & H4 & H5 & H6 & H7 & H8); [done| |done|].
    { intros g Hg. apply Hq. by apply list_elem_of_further. }
    split; [done|]. split; [done|]. split; [by exists (f :: l)|]. split; [done|]. split; [done|].
    split; [done|]. split; [done|]. intros g Hg. destruct (H8 g Hg) as [Hg1 Hg2]. split; [done|].
    intros [->|]%elem_of_cons; [done|auto].
Qed.

(** Returning one permit keeps the invariant, with one permit less in use. *)
Lemma release_ok s :
  dwf (futures s) -> (forall f, is_Some (dget f (futures s)) -> (f < next_future s)%nat) ->
  NoDup (waiters (adm s)) ->
  (forall f, f ∈ waiters (adm s) -> dget f (futures s) = Some Pending \/ dget f (futures s) = Some Cancelled) ->
  (forall f, dget f (futures s) = Some Pending -> f ∈ waiters (adm s)) ->
  active (adm s) - 1 = holders s + granted_count (futures s) -> 0 <= holders s ->
  active (adm s) <= capacity (adm s) ->
  Z.of_nat (length (waiters (adm s))) <= queue_limit (adm s) ->
  (waiters (adm s) <> [] -> active (adm s) = capacity (adm s)) ->
  (closed (adm s) = true -> waiters (adm s) = []) ->
  system_ok (release s).
Proof.
  destruct s as [[cap lim act ws cl] fs h nx]; simpl. intros Hd Hfr Hw Hq Hp Ha Hh Hc Hl Hfull Hcl.
  unfold release; simpl. destruct cl; simpl.
  { rewrite Hcl in * by done. split; simpl; try done; try lia. }
  destruct (release_loop ws fs) as [[ws' fs'] b] eqn:E.
  destruct (release_loop_spec _ _ _ _ _ Hd Hw Hq E) as (H1 & H2 & [l Hws] & H4 & H5 & H6 & H7 & H8).
  assert (Hsub : forall f, f ∈ ws' -> f ∈ ws) by (intros f Hf; rewrite Hws, elem_of_app; auto).
  split; simpl; try done.
  - intros f Hf. apply Hfr. by apply H7.
  - intros f Hf. rewrite (H6 f Hf). auto.
  - intros f Hf. destruct (H8 f Hf) as [Hf1 Hf2]. auto.
  - rewrite H4. destruct b; simpl; lia.
  - destruct b; lia.
  - rewrite Hws, length_app in Hl. lia.
  - intros Hne. destruct b; [|by destruct (H5 eq_refl)]. rewrite Z.sub_add. apply Hfull.
    rewrite Hws. by destruct l.
Qed.

Lemma foldl_fail_spec ws fs :
  dwf fs ->
  dwf (foldl fail_future fs ws) /\ granted_count (foldl fail_future fs ws) = granted_count fs /\
  (forall f, is_Some (dget f (foldl fail_future fs ws)) -> is_Some (dget f fs)) /\
  (forall f, dget f (foldl fail_future fs ws) = Some Pending -> dget f fs = Some Pending /\ f ∉ ws).
Proof.
  revert fs. induction ws as [|g ws IH]; intros fs Hd; simpl.
  { repeat split; try done. intros ?%elem_of_nil. done. }
  assert (Hd' : dwf (fail_future fs g)) by (unfold fail_future; case_bool_decide; auto using dwf_dset).
  destruct (IH _ Hd') as (H1 & H2 & H3 & H4). split; [done|].
  unfold fail_future in *. case_bool_decide as Hg.
  - rewrite H2, granted_dset, Hg by done. simpl. split; [lia|]. split.
    + intros f Hf%H3. rewrite dget_dset in Hf. case_decide; [subst; by rewrite Hg|done].
    + intros f Hf. apply H4 in Hf as [Hf Hn]. rewrite dget_dset in Hf. case_decide; [done|].
      rewrite elem_of_cons. naive_solver.
  - split; [done|]. split; [done|]. intros f Hf. apply H4 in Hf as [Hf Hn].
    rewrite elem_of_cons. naive_solver.
Qed.

Lemma close_ok s : system_ok s -> system_ok (close s).
Proof.
  destruct s as [[cap lim act ws cl] fs h nx]. intros [Hd Hfr Hw Hq Hp Ha Hh Hc Hl Hfull Hcl]; simpl in *.
  destruct (foldl_fail_spec ws fs Hd) as (H1 & H2 & H3 & H4).
  split; simpl; try done; try lia.
  - intros f Hf. apply Hfr. by apply H3.
  - constructor.
  - intros f Hf%elem_of_nil. done.
  - intros f Hf. destruct (H4 f Hf) as [Hf1 Hf2]. exfalso. auto.
Qed.

Lemma acquire_ok s :
  system_ok s ->
  match acquire s with AcquireGranted s' | Waiting s' => system_ok s' | Refused _ => True end.
Proof.
  destruct s as [[cap lim act ws cl] fs h nx]. intros [Hd Hfr Hw Hq Hp Ha Hh Hc Hl Hfull Hcl]; simpl in *.
  unfold acquire; simpl. destruct cl; [done|].
  destruct (_ && _) eqn:E1.
  { bool_to_prop. subst ws. split; simpl; try done; lia. }
  destruct (lim <=? _) eqn:E2; [done|]. bool_to_prop.
  assert (Hnx : dget nx fs = None).
  { destruct (dget nx fs) eqn:E; [|done]. exfalso. enough (nx < nx)%nat by lia. apply Hfr. by eexists. }
  assert (Hnw : nx ∉ ws) by (intros H; apply Hq in H; rewrite Hnx in H; naive_solver).
  split; simpl; try done.
  - by apply dwf_dset.
  - intros f. rewrite dget_dset. case_decide; [lia|]. intros Hf%Hfr. lia.
  - apply NoDup_app. split; [done|]. split; [|apply NoDup_singleton].
    intros f Hf Hf'%list_elem_of_singleton. congruence.
  - intros f. rewrite elem_of_app, list_elem_of_singleton, dget_dset.
    intros [Hf| ->]; [|rewrite decide_True by done; auto]. case_decide; [congruence|auto].
  - intros f. rewrite elem_of_app, list_elem_of_singleton, dget_dset. case_decide; auto.
  - rewrite granted_dset, Hnx by done. simpl. lia.
  - rewrite length_app; simpl. lia.
  - intros _. destruct (decide (ws = [])) as [->|Hne]; [|auto].
    rewrite andb_false_iff, Z.ltb_ge in E1. destruct E1 as [E1|E1]; [lia|]. by bool_to_prop.
Qed.

Lemma except_ok s f st :
  system_ok s -> dget f (futures s) = Some st -> st <> Pending -> system_ok (acquire_except f s).
Proof.
  destruct s as [[cap lim act ws cl] fs h nx]. intros [Hd Hfr Hw Hq Hp Ha Hh Hc Hl Hfull Hcl] Hf Hst; simpl in *.
  assert (Hdel : forall g, dget g (ddel f fs) = if decide (f = g) then None else dget g fs)
    by (intros; apply dget_ddel).
  assert (Hfr' : forall g, is_Some (dget g (ddel f fs)) -> (g < nx)%nat).
  { intros g. rewrite Hdel. case_decide; [by intros [? ?]|auto]. }
  pose proof (granted_ddel f fs Hd) as Hgr.
  unfold acquire_except; simpl. rewrite Hf.
  destruct (decide (st = Granted)) as [->|Hng].
  - assert (Hfw : f ∉ ws) by (intros H; apply Hq in H; rewrite Hf in H; naive_solver).
    apply release_ok; simpl; try done.
    + by apply dwf_ddel.
    + intros g Hg. rewrite Hdel, decide_False by congruence. auto.
    + intros g. rewrite Hdel. destruct (decide (f = g)); [discriminate|]. auto.
    + rewrite Hgr, Hf. simpl. lia.
  - assert (Hout : system_ok (System (set_waiters (filter (fun g => g <> f) ws) (Admission cap lim act ws cl))
      (ddel f fs) h nx)); [|by destruct st].
    split; simpl; try done.
    + by apply dwf_ddel.
    + by apply NoDup_filter.
    + intros g [Hg1 Hg2]%list_elem_of_filter. rewrite Hdel, decide_False by congruence. auto.
    + intros g. rewrite Hdel. destruct (decide (f = g)); [discriminate|]. intros Hg. apply list_elem_of_filter. auto.
    + rewrite Hgr, Hf. rewrite bool_decide_eq_false_2 by congruence. simpl. lia.
    + pose proof (length_filter (fun g => g <> f) ws). lia.
    + intros Hne. apply Hfull. intros ->. by apply Hne.
    + intros Hc'. by rewrite Hcl.
Qed.

Lemma admission_step_ok s s' : system_ok s -> admission_step s s' -> system_ok s'.
Proof.
  intros Hs Hstep. pose proof (acquire_ok s Hs) as Hacq.
  destruct Hstep as [s s' H|s s' H|s f Hf|s f Hf|s f st Hf Hst|s Hh|s].
  - by rewrite H in Hacq.
  - by rewrite H in Hacq.
  - destruct Hs as [Hd Hfr Hw Hq Hp Ha Hh Hc Hl Hfull Hcl]. split; simpl; try done.
    + by apply dwf_dset.
    + intros g. rewrite dget_dset. case_decide; [subst; intros _; apply Hfr; eauto|auto].
    + intros g Hg. rewrite dget_dset. case_decide; auto.
    + intros g. rewrite dget_dset. case_decide; [discriminate|auto].
    + rewrite granted_dset, Hf by done. simpl. lia.
  - destruct Hs as [Hd Hfr Hw Hq Hp Ha Hh Hc Hl Hfull Hcl].
    assert (Hfw : f ∉ waiters (adm s)) by (intros H; apply Hq in H; rewrite Hf in H; naive_solver).
    split; simpl; try done.
    + by apply dwf_ddel.
    + intros g. rewrite dget_ddel. case_decide; [by intros [? ?]|auto].
    + intros g Hg. rewrite dget_ddel_ne by congruence. auto.
    + intros g. rewrite dget_ddel. case_decide; [discriminate|auto].
    + rewrite granted_ddel, Hf by done. simpl. lia.
    + lia.
  - by eapply except_ok.
  - destruct Hs as [Hd Hfr Hw Hq Hp Ha Hh' Hc Hl Hfull Hcl]. apply release_ok; simpl; try done; lia.
  - by apply close_ok.
Qed.

Lemma new_system_ok cap limit : 0 <= cap -> 0 <= limit -> system_ok (new_system cap limit).
Proof.
  intros Hc Hl. split; simpl; try done; try lia.
  - apply dwf_nil.
  - constructor.
  - intros f H%elem_of_nil. done.
Qed.

Lemma admission_reachable_ok cap limit s :
  0 <= cap -> 0 <= limit -> rtc admission_step (new_system cap limit) s -> system_ok s.
Proof.
  intros Hc Hl H. pose proof (new_system_ok cap limit Hc Hl) as H0.
  induction H as [|a b c Hab _ IH]; [done|]. apply IH. by eapply admission_step_ok.
Qed.

(** The first request of the queue that has not been cancelled. *)
Definition first_pending (s : system) : option nat :=
  head (filter (fun f => dget f (futures s) = Some Pending) (waiters (adm s))).

Lemma release_loop_first ws fs :
  release_loop ws fs =
    match head (filter (fun f => dget f fs = Some Pending) ws) with
    | Some f => (((release_loop ws fs).1).1, dset f Granted fs, true)
    | None => ([], fs, false)
    end.
Proof.
  induction ws as [|f ws IH]; simpl; [done|]. rewrite filter_cons.
  case_bool_decide as Hp; case_decide; try done.
Qed.

(** ** Theorems *)

(** Capacity is never exceeded and never leaked: in every reachable state the
    permits in use are the executing requests plus the requests that were granted
    and have not resumed, they are between 0 and the capacity, and the queue is
    within its limit. *)
Theorem admission_capacity cap limit s :
  0 <= cap -> 0 <= limit -> rtc admission_step (new_system cap limit) s ->
  active (adm s) = holders s + granted_count (futures s) /\
  0 <= active (adm s) <= capacity (adm s) /\
  Z.of_nat (length (waiters (adm s))) <= queue_limit (adm s).
Proof.
  intros Hc Hl H. destruct (admission_reachable_ok _ _ _ Hc Hl H) as [].
  pose proof (granted_nonneg (futures s)). lia.
Qed.

(** C37: no wakeup is lost: in every reachable state a request waits only while every
    permit is in use and the admission is open, so a free permit and a waiting
    request never coexist, whatever timeouts, cancellations and releases happened. *)
Theorem no_lost_wakeup cap limit s f :
  0 <= cap -> 0 <= limit -> rtc admission_step (new_system cap limit) s ->
  dget f (futures s) = Some Pending ->
  active (adm s) = capacity (adm s) /\ closed (adm s) = false.
Proof.
  intros Hc Hl H Hf. destruct (admission_reachable_ok _ _ _ Hc Hl H) as [_ _ _ _ Hp _ _ _ _ Hfull Hcl].
  apply Hp in Hf. split.
  - apply Hfull. intros E. rewrite E in Hf. by apply elem_of_nil in Hf.
  - destruct (closed (adm s)); [|done]. rewrite Hcl in Hf by done. by apply elem_of_nil in Hf.
Qed.

(** A release hands its permit to the oldest request still waiting, which keeps
    the number of permits in use, and lowers that number only when nobody waits. *)
Theorem release_is_fifo s :
  closed (adm s) = false ->
  match first_pending s with
  | Some f => futures (release s) = dset f Granted (futures s) /\
              active (adm (release s)) = active (adm s)
  | None => futures (release s) = futures s /\ waiters (adm (release s)) = [] /\
            active (adm (release s)) = active (adm s) - 1
  end.
Proof.
  intros Hc. unfold release, first_pending; simpl. rewrite Hc.
  rewrite (release_loop_first (waiters (adm s)) (futures s)).
  destruct (head _) as [f|]; simpl; [|done]. split; [done|]. lia.
Qed.

(** ** Witnesses *)

Definition sys0 : system := new_system 1 2.
Definition sys1 : system := match acquire sys0 with AcquireGranted s | Waiting s => s | Refused _ => sys0 end.
Definition sys2 : system := match acquire sys1 with AcquireGranted s | Waiting s => s | Refused _ => sys0 end.

Lemma sys2_reachable : rtc admission_step (new_system 1 2) sys2.
Proof.
  eapply rtc_l; [apply (step_admitted _ sys1); reflexivity|].
  apply rtc_once. apply (step_waiting _ sys2). reflexivity.
Defined.

Lemma admission_capacity_witness : 0 <= active (adm sys2) <= capacity (adm sys2).
Proof. apply (admission_capacity 1 2 sys2); [lia|lia|exact sys2_reachable]. Defined.

Lemma no_lost_wakeup_witness :
  dget 0%nat (futures sys2) = Some Pending /\ active (adm sys2) = capacity (adm sys2).
Proof.
  split; [reflexivity|].
  apply (no_lost_wakeup 1 2 sys2 0%nat); [lia|lia|exact sys2_reachable|reflexivity].
Defined.

Lemma release_is_fifo_witness : futures (release sys2) = dset 0%nat Granted (futures sys2).
Proof. apply (release_is_fifo sys2). reflexivity. Defined.
