(* ===== verification/HostTransfer.v ===== *)
(** * File transfers of the host

    [pal_shell_native/files.py], [_upload], [_release] and [_download]: how the host moves
    a JSON value to a worker and back, in chunks, over the request interface of a remote
    port.  The port is an interface: [Transport].  Tokens of blobs that could not be
    released are kept in the [garbage] list of the scope. *)

From S2P Require Import Prelude Dict Utf8 Sha256 PyValue JsonText JsonParse Base64.
Open Scope Z_scope.

(** What a call of the host can raise. *)
Inductive host_failure :=
| RemoteFailure (code effect : string)
| ToolRejected (code : string)
| HostCrash (what : string)            (* any other exception *)
| OutOfFuel.                           (* not an outcome of the program *)

(** A remote port: one request to the worker of a scope; [S] is whatever is behind it. *)
Class Transport (S : Type) := request : string -> obj -> M S host_failure obj.

(** The scope's garbage and what is behind the port. *)
Record link (S : Type) := Link { ln_garbage : list string; ln_remote : S }.
Arguments Link {S} _ _.
Arguments ln_garbage {S} _.
Arguments ln_remote {S} _.

Definition CHUNK : Z := 128 * 1024.
Definition MAX_BLOB : Z := 32 * 1024 * 1024.

Section transfer.
Context {S : Type} {T : Transport S}.
Abbreviation HM := (M (link S) host_failure).

Definition _request (method : string) (params : obj) : HM obj :=
  fun l => let '(s, r) := request method params (ln_remote l) in (Link (ln_garbage l) s, r).

(** [_release]: a failure only puts the token on the garbage list. *)
Definition _release (token : string) : HM unit :=
  fun l =>
    match _request "file_blob_release" [("blob", JStr token)] l with
    | (l, Ok _) => (l, Ok tt)
    | (l, Raise _) =>
        (if decide (token ∈ ln_garbage l) then l else Link (ln_garbage l ++ [token]) (ln_remote l), Ok tt)
    end.

(** [data[offset:offset + CHUNK]] *)
Definition piece (offset : nat) (data : bytes) : bytes := take (Z.to_nat CHUNK) (drop offset data).

Definition chunk_params (token : string) (offset : nat) (data : bytes) : obj :=
  [("blob", JStr token); ("offset", JInt (Z.of_nat offset));
   ("data", JStr (string_of_bytes (b64encode (piece offset data))))].

(** [range(0, len(data), CHUNK)] *)
Definition chunk_count (size : nat) : nat := Z.to_nat ((Z.of_nat size + CHUNK - 1) / CHUNK).
Definition offsets (size : nat) : list nat := (fun i => i * Z.to_nat CHUNK)%nat <$> seq 0 (chunk_count size).

Definition send_all (token : string) (data : bytes) : HM unit :=
  sfor (fun offset => seq! _request "file_upload_chunk" (chunk_params token offset data) ;; sret tt)
    (offsets (length data)).

Definition transfer_ref (token : string) (data : bytes) : obj :=
  [("blob", JStr token); ("size", JInt (Z.of_nat (length data))); ("sha256", JStr (sha256_hex data))].

(** [try: m except BaseException: handler; raise] *)
Definition on_failure (m : HM unit) (handler : HM unit) : HM unit :=
  fun l =>
    match m l with
    | (l, Ok _) => (l, Ok tt)
    | (l, Raise e) => ((handler l).1, Raise e)
    end.

Definition _upload (token : string) (value : json) : HM obj :=
  let data := json_dumps_bytes value in
  if MAX_BLOB <? Z.of_nat (length data) then sthrow (ToolRejected "file_transfer_limit")
  else
    let ref := transfer_ref token data in
    seq! on_failure (seq! _request "file_upload_begin" ref ;; send_all token data) (_release token) ;;
    sret ref.

(** The chunk of one reply; [None]: [KeyError], or not base64. *)
Definition reply_chunk (reply : obj) : option bytes :=
  match dget "data" reply with
  | Some (JStr s) => b64decode (string_bytes s)
  | _ => None
  end.

(** The loop of [_download]; each round takes one unit of [fuel]. *)
Fixpoint receive (fuel : nat) (token : json) (size : nat) (data : bytes) : HM bytes :=
  if (length data <? size)%nat then
    match fuel with
    | O => sthrow OutOfFuel
    | Datatypes.S fuel =>
        do! reply <- _request "file_blob_read" [("blob", token); ("offset", JInt (Z.of_nat (length data)))] ;;
        match reply_chunk reply with
        | None => sthrow (HostCrash "chunk")
        | Some raw =>
            if (length raw =? 0)%nat || (CHUNK <? Z.of_nat (length raw)) || (size <? length data + length raw)%nat
            then sthrow (RemoteFailure "invalid_file_blob" "unknown")
            else receive fuel token size (data ++ raw)
        end
    end
  else sret data.

Definition _download (ref : obj) : HM json :=
  match dget "size" ref with
  | Some (JInt size) =>
      if (0 <=? size) && (size <=? MAX_BLOB) then
        match dget "blob" ref, dget "sha256" ref with
        | Some token, Some sha =>
            do! data <- receive (Z.to_nat size) token (Z.to_nat size) [] ;;
            match sha with
            | JStr sha =>
                if bool_decide (sha256_hex data = sha) then
                  match json_loads data with
                  | Some v => sret v
                  | None => sthrow (HostCrash "json.loads")
                  end
                else sthrow (RemoteFailure "invalid_file_blob" "unknown")
            | _ => sthrow (RemoteFailure "invalid_file_blob" "unknown")
            end
        | _, _ => sthrow (HostCrash "KeyError")
        end
      else sthrow (RemoteFailure "invalid_file_blob" "unknown")
  | _ => sthrow (RemoteFailure "invalid_file_blob" "unknown")
  end.

(** ** Termination of the download *)

Lemma receive_round fuel token size data l l' reply raw :
  (length data < size)%nat ->
  _request "file_blob_read" [("blob", token); ("offset", JInt (Z.of_nat (length data)))] l = (l', Ok reply) ->
  reply_chunk reply = Some raw ->
  (length raw =? 0)%nat || (CHUNK <? Z.of_nat (length raw)) || (size <? length data + length raw)%nat = false ->
  receive (Datatypes.S fuel) token size data l = receive fuel token size (data ++ raw) l'.
Proof.
  intros Hl Hr Hc Hg. cbn [receive]. rewrite (proj2 (Nat.ltb_lt _ _)) by done. unfold sbind. by rewrite Hr, Hc, Hg.
Qed.

(** A round that goes on adds a byte at least, so [size] rounds are enough: more fuel
    changes nothing. *)
Lemma receive_fuel fuel token size data l :
  (size <= length data + fuel)%nat ->
  receive fuel token size data l = receive (size - length data) token size data l.
Proof.
  remember (size - length data)%nat as n eqn:En. revert fuel data l En. induction n as [n IH] using lt_wf_ind.
  intros fuel data l En Hf. destruct (length data <? size)%nat eqn:E.
  - destruct n as [|n], fuel as [|fuel]; try (apply Nat.ltb_lt in E; lia). cbn [receive]. rewrite E.
    unfold sbind. destruct (_request _ _ l) as [l' [reply|e]]; [|done]. destruct (reply_chunk reply) as [raw|]; [|done].
    destruct (_ || _ || _) eqn:Eg; [done|]. apply orb_false_iff in Eg as [Eg _]. apply orb_false_iff in Eg as [Eg _].
    apply Nat.eqb_neq in Eg. apply Nat.ltb_lt in E.
    assert (Hlt : (size - length (data ++ raw) < Datatypes.S n)%nat) by (rewrite length_app; lia).
    by rewrite (IH _ Hlt fuel _ _ eq_refl), (IH _ Hlt n _ _ eq_refl) by (rewrite length_app; lia).
  - destruct n, fuel; simpl; by rewrite E.
Qed.
End transfer.

(** The same port with a count of its requests. *)
Definition counted {S : Type} (T : Transport S) : Transport (S * nat) :=
  fun method params s => let '(s', r) := request method params s.1 in ((s', Datatypes.S s.2), r).

Definition requests {S : Type} (l : link (S * nat)) : nat := (ln_remote l).2.

Lemma receive_ends {S : Type} (T : Transport S) (fuel : nat) (token : json) (size : nat) (data : bytes) (l : link (S * nat)) :
  (forall method params s, (T method params s).2 <> Raise OutOfFuel) -> (size <= length data + fuel)%nat ->
  let '(l', r) := receive (T := counted T) fuel token size data l in
  r <> Raise OutOfFuel /\ (requests l <= requests l' <= requests l + (size - length data))%nat /\
  (forall bs, r = Ok bs -> (length bs <= Nat.max size (length data))%nat).
Proof.
  intros HT. revert data l. induction fuel as [|fuel IH]; intros data l Hf; cbn [receive].
  { destruct (length data <? size)%nat eqn:E; [apply Nat.ltb_lt in E; lia|]. simpl.
    split_and!; [done|lia|lia|]. intros bs [= <-]. lia. }
  destruct (length data <? size)%nat eqn:E; [|simpl; split_and!; [done|lia|lia|intros bs [= <-]; lia]].
  apply Nat.ltb_lt in E. unfold sbind, _request, request, counted.
  pose proof (HT "file_blob_read" [("blob", token); ("offset", JInt (Z.of_nat (length data)))] (ln_remote l).1) as Hr.
  unfold request. destruct (T _ _ _) as [s r]. simpl in Hr.
  destruct r as [reply|e]; [|split_and!; [congruence|unfold requests; simpl; lia..|done]].
  destruct (reply_chunk reply) as [raw|]; [|split_and!; [congruence|unfold requests; simpl; lia..|done]].
  destruct (_ || _ || _) eqn:Eg; [split_and!; [congruence|unfold requests; simpl; lia..|done]|].
  apply orb_false_iff in Eg as [Eg Es]. apply orb_false_iff in Eg as [Eg _].
  apply Nat.eqb_neq in Eg. apply Nat.ltb_ge in Es.
  specialize (IH (data ++ raw) (Link (ln_garbage l) (s, Datatypes.S (ln_remote l).2))).
  rewrite length_app in IH. destruct (receive fuel token size (data ++ raw) _) as [l' r] eqn:El.
  destruct IH as (H1 & H2 & H3); [lia|]. unfold requests in *. cbn [ln_remote snd] in H2.
  split_and!; [done|lia|lia|]. intros bs Hb. apply H3 in Hb. lia.
Qed.

(** C32: a download ends.  Whatever the worker answers, [_download] sends at most as many
    requests as the declared size has bytes (a declared size beyond 32 MiB or a size that
    is no integer is refused before the first one), and then returns a value or raises;
    a chunk that is empty, too long or beyond the size ends it at once. *)
Theorem download_terminates {S : Type} (T : Transport S) ref (l : link (S * nat)) :
  (forall method params s, (T method params s).2 <> Raise OutOfFuel) ->
  let '(l', r) := _download (T := counted T) ref l in
  r <> Raise OutOfFuel /\
  Z.of_nat (requests l') <= Z.of_nat (requests l) +
    match dget "size" ref with Some (JInt size) => if (0 <=? size) && (size <=? MAX_BLOB) then size else 0 | _ => 0 end.
Proof.
  intros HT. unfold _download. destruct (dget "size" ref) as [[| |size| | |]|]; try (split; [done|lia]).
  destruct ((0 <=? size) && (size <=? MAX_BLOB)) eqn:E; [|split; [done|lia]].
  apply andb_true_iff in E as [E _]. apply Z.leb_le in E.
  destruct (dget "blob" ref) as [token|], (dget "sha256" ref) as [sha|]; try (split; [done|lia]).
  pose proof (receive_ends T (Z.to_nat size) token (Z.to_nat size) [] l HT) as H.
  specialize (H ltac:(simpl; lia)). unfold sbind. destruct (receive _ _ _ _ _) as [l' r]. destruct H as (H1 & H2 & _).
  change (length (@nil Z)) with 0%nat in H2. assert (Hn : Z.of_nat (requests l') <= Z.of_nat (requests l) + size) by lia.
  destruct r as [data|e]; [|split; [congruence|done]]. destruct sha; try (split; [done|done]).
  destruct (bool_decide _); [|split; [done|done]]. destruct (json_loads data); split; done.
Qed.

(** A worker that sends one byte at a time. *)
Definition dripping : Transport nat :=
  fun _ _ n => (n, if decide (n = 0)%nat then Raise (RemoteFailure "disconnected" "unknown") else Ok [("data", JStr "MQ==")]).

Lemma download_terminates_witness :
  requests (_download (T := counted dripping) [("blob", JStr "b"); ("size", JInt 3); ("sha256", JStr "")] (Link [] (1%nat, 0%nat))).1 = 3%nat /\
  Z.of_nat (requests (_download (T := counted dripping) [("blob", JStr "b"); ("size", JInt 3); ("sha256", JStr "")] (Link [] (1%nat, 0%nat))).1) <= 3.
Proof.
  split; [vm_compute; reflexivity|].
  pose proof (download_terminates dripping [("blob", JStr "b"); ("size", JInt 3); ("sha256", JStr "")] (Link [] (1%nat, 0%nat))) as H.
  destruct (_download _ _) as [l' r]. apply H. intros method params s. unfold dripping. simpl. by case_decide.
Defined.

(** ** Bytes on the wire *)

Lemma encode_char_bytes c : scalar c = true -> Forall byte (encode_char c).
Proof.
  unfold scalar. intros H. bool_to_prop. unfold encode_char, byte. repeat case_match; bool_to_prop;
    repeat constructor; Z.to_euclidean_division_equations; lia.
Qed.

Lemma utf8_encode_bytes t bs : utf8_encode t = Some bs -> Forall byte bs.
Proof.
  revert bs. induction t as [|c t IH]; simpl; intros bs; [by intros [= <-]|]. destruct (scalar c) eqn:E; [|done].
  destruct (utf8_encode t) as [bs'|]; [|done]. intros [= <-]. apply Forall_app. split; [by apply encode_char_bytes|by apply IH].
Qed.

Lemma dumps_bytes v : Forall byte (json_dumps_bytes v).
Proof. eapply utf8_encode_bytes, json_compact_encodes. Qed.

Lemma dumps_nonempty v : json_dumps_bytes v <> [].
Proof.
  intros E. pose proof (json_compact_encodes v) as He. rewrite E in He. destruct (compact_starts json_string_plain (fun s => ex_intro _ _ eq_refl) [] v) as (c & t & Ec & _).
  apply decode_encode in He. rewrite Ec in He. discriminate He.
Qed.

Lemma reply_chunk_data s bs : b64decode (string_bytes s) = Some bs -> reply_chunk [("data", JStr s)] = Some bs.
Proof. done. Qed.

Lemma decode_piece data n :
  Forall byte data -> b64decode (string_bytes (string_of_bytes (b64encode (take n data)))) = Some (take n data).
Proof.
  intros H. assert (Ht : Forall byte (take n data)) by (by apply Forall_take).
  by rewrite string_bytes_of_bytes by (by apply b64encode_bytes); apply b64_roundtrip.
Qed.
