(* ===== verification/WorkerFiles.v ===== *)
(** * File transfers of a worker

    [pal_shell_worker/files.py]: blobs and chunked uploads under one retention account,
    the store and load of JSON payloads, and the handlers of the file protocol over the
    journal of [Worker.v] and the registry of [FileRegistry.v].  A file operation runs in
    a thread ([file_thread]) and settles on the event loop afterwards ([file_settle]). *)

From S2P Require Import Prelude Dict Utf8 Sha256 PyValue JsonText JsonParse Base64 Protocol Worker WorkerSafety.
From S2P Require Import FileSystem FileRegistry.
Open Scope Z_scope.

Definition FILE_PROTOCOL_VERSION : Z := 1.
Definition CHUNK : Z := 128 * 1024.
Definition MAX_BLOB : Z := 32 * 1024 * 1024.

(** The tuple [(size, sha, data)] of an upload. *)
Record upload := Upload { up_size : Z; up_sha : string; up_data : bytes }.

Record WorkerFiles := Files {
  wf_worker : Worker;
  wf_registry : FileRegistry;
  wf_blobs : dict string bytes;
  wf_uploads : dict string upload;
  wf_reserved : Z
}.

Abbreviation F := (M WorkerFiles worker_error).

Definition ffail {A} (code : string) : F A := sthrow (WRemote (remote code)).
Definition fcrash {A} (what : string) : F A := sthrow (WCrash what).
Definition flift {A} (r : res RemoteError A) : F A :=
  slift (match r with Ok a => Ok a | Raise e => Raise (WRemote e) end).

Definition set_worker (w : Worker) (f : WorkerFiles) : WorkerFiles :=
  Files w (wf_registry f) (wf_blobs f) (wf_uploads f) (wf_reserved f).
Definition set_registry (r : FileRegistry) (f : WorkerFiles) : WorkerFiles :=
  Files (wf_worker f) r (wf_blobs f) (wf_uploads f) (wf_reserved f).
Definition set_blobs (b : dict string bytes) (f : WorkerFiles) : WorkerFiles :=
  Files (wf_worker f) (wf_registry f) b (wf_uploads f) (wf_reserved f).
Definition set_uploads (u : dict string upload) (f : WorkerFiles) : WorkerFiles :=
  Files (wf_worker f) (wf_registry f) (wf_blobs f) u (wf_reserved f).
Definition set_reserved (n : Z) (f : WorkerFiles) : WorkerFiles :=
  Files (wf_worker f) (wf_registry f) (wf_blobs f) (wf_uploads f) n.

(** A call into the worker. *)
Definition on_worker {A} (m : W A) : F A :=
  fun f => let '(w, r) := m (wf_worker f) in (set_worker w f, r).

Section files.
Variable config : WorkerConfig.

Definition new_files (epoch : string) : WorkerFiles :=
  Files (new_worker epoch) (new_registry (cf_operation_limit config)) [] [] 0.

(** ** The account *)

Definition _reserve (size : json) : F Z :=
  do! size <- flift (integer size 0 MAX_BLOB) ;;
  do! f <- sget ;;
  seq! sguard (cf_retained_limit config <? wf_reserved f + size) (WRemote (remote "file_capacity")) ;;
  seq! smodify (set_reserved (wf_reserved f + size)) ;;
  sret size.

Definition blob_ref (token : string) (data : bytes) : obj :=
  [("blob", JStr token); ("size", JInt (Z.of_nat (length data))); ("sha256", JStr (sha256_hex data))].

(** [token] is [uuid4().hex]. *)
Definition _store (token : string) (value : json) : F obj :=
  let data := json_dumps_bytes value in
  seq! _reserve (JInt (Z.of_nat (length data))) ;;
  seq! smodify (fun f => set_blobs (dset token data (wf_blobs f)) f) ;;
  sret (blob_ref token data).

(** [len(data) == ref.get('size')]; a Boolean is the integer 0 or 1. *)
Definition size_is (data : bytes) (size : json) : bool :=
  match size with
  | JInt z => Z.of_nat (length data) =? z
  | JBool b => Z.of_nat (length data) =? (if b then 1 else 0)
  | _ => false
  end.

(** [v == s] for a string [s]. *)
Definition is_text (s : string) (v : json) : bool := match v with JStr s' => bool_decide (s' = s) | _ => false end.

(** [self.blobs.get(key)] *)
Definition find_blob (key : json) (f : WorkerFiles) : F (option bytes) :=
  match key with
  | JStr token => sret (dget token (wf_blobs f))
  | JList _ | JObj _ => fcrash "unhashable"
  | _ => sret None
  end.

Definition _load (ref : json) : F json :=
  match ref with
  | JObj ref =>
      do! f <- sget ;;
      do! data <- find_blob (jget "blob" ref) f ;;
      match data with
      | Some data =>
          if size_is data (jget "size" ref) && is_text (sha256_hex data) (jget "sha256" ref) then
            match json_loads data with
            | Some v => sret v
            | None => fcrash "json.loads"
            end
          else ffail "invalid_file_blob"
      | None => ffail "invalid_file_blob"
      end
  | _ => fcrash "ref.get"
  end.

(** ** File operations *)

(** [registry.execute(...)] in its thread; [None]: an argument is missing. *)
Definition file_thread (ev : exec_env) (op : Operation) (s : fs) (f : WorkerFiles)
    : fs * (WorkerFiles * res registry_error obj) :=
  let a := op_args op in
  match dget "scope" a, dget "revision" a, dget "action" a, dget "args" a with
  | Some scope, Some revision, Some (JStr action), Some args =>
      let '(s', (r, out)) := execute ev scope revision (op_operation_id op) action args s (wf_registry f) in
      (s', (set_registry r f, out))
  | _, _, _, _ => (s, (f, Raise (Crash "args")))
  end.

Definition outcome_unknown (oid : string) : RemoteError := remote_error "file_outcome_unknown" "unknown" oid.

(** [op.args.pop('args', None)] *)
Definition drop_args (oid : string) (w : Worker) : Worker :=
  match dget oid (wk_operations w) with
  | Some op => set_op (Op (op_operation_id op) (op_fingerprint op) (op_method op) (ddel "args" (op_args op)) (op_state_ op)
                         (op_result op) (op_error op) (op_nonce op) (op_expires_at op) (op_auth_consumed op)
                         (op_auth_available op) (op_approval_signature op)) w
  | None => w
  end.

(** The rest of [execute]: store the result, finish the operation, drop its arguments. *)
Definition file_settle (token oid : string) (out : res registry_error obj) (f : WorkerFiles) : WorkerFiles :=
  let finish f result error := set_worker (drop_args oid (_finish oid result error (wf_worker f))) f in
  match out with
  | Ok result =>
      match _store token (JObj result) f with
      | (f, Ok ref) => finish f (JObj ref) None
      | (f, Raise _) => finish f JNull (Some (outcome_unknown oid))
      end
  | Raise (FileRegistryError _) => finish f JNull (Some (remote "file_authority"))
  | Raise (Crash _) => finish f JNull (Some (outcome_unknown oid))
  end.

(** ** Handlers *)

Definition RECEIPT_KEYS : list string :=
  ["file_path"; "error_code"; "bytes_written"; "created"; "operation"; "applied_edit_indices"].

Definition RETIRED_TEXT : string := "Original file text retired; operation receipt retained.".

(** The summary that replaces a delivered result; [None]: an exception. *)
Definition receipt_summary (payload : obj) : option obj :=
  match jor (jget "structured" payload) (JObj []), dget "status" payload with
  | JObj structured, Some status =>
      let receipt := omap (fun k => (fun v => (k, v)) <$> dget k structured) RECEIPT_KEYS in
      Some [("status", status); ("llm_text", JStr RETIRED_TEXT); ("structured", JObj receipt);
            ("effect_receipt", jget "effect_receipt" payload); ("result_retired", JBool true)]
  | _, _ => None
  end.

Definition set_result (result : json) (op : Operation) : Operation :=
  Op (op_operation_id op) (op_fingerprint op) (op_method op) (op_args op) (op_state_ op) result (op_error op)
    (op_nonce op) (op_expires_at op) (op_auth_consumed op) (op_auth_available op) (op_approval_signature op).

(** [self.blobs.pop(token)] with its account, for a present token. *)
Definition pop_blob (token : string) : F unit :=
  do! f <- sget ;;
  match dget token (wf_blobs f) with
  | Some data =>
      smodify (fun f => set_reserved (wf_reserved f - Z.of_nat (length data)) (set_blobs (ddel token (wf_blobs f)) f))
  | None => sret tt
  end.

Definition pop_upload (token : string) : F unit :=
  do! f <- sget ;;
  match dget token (wf_uploads f) with
  | Some u => smodify (fun f => set_reserved (wf_reserved f - up_size u) (set_uploads (ddel token (wf_uploads f)) f))
  | None => sret tt
  end.

Definition completed_file_op (op : Operation) : bool :=
  bool_decide (op_method op = "file_execute") && bool_decide (op_state_ op = Complete).

(** [op.result['blob']], a string once [_load] has found it. *)
Definition result_token (op : Operation) : string :=
  match op_result op with
  | JObj ref => match jget "blob" ref with JStr t => t | _ => "" end
  | _ => ""
  end.

Definition file_result_release (token : string) (args : obj) : F obj :=
  do! oid <- flift (text_value (jget "operation_id" args) false 128) ;;
  do! f <- sget ;;
  match dget oid (wk_operations (wf_worker f)) with
  | Some op =>
      if completed_file_op op then
        do! payload <- _load (op_result op) ;;
        match payload with
        | JObj payload =>
            if truthy (jget "result_retired" payload) then sret []
            else
              match receipt_summary payload with
              | Some summary =>
                  seq! pop_blob (result_token op) ;;
                  do! ref <- _store token (JObj summary) ;;
                  seq! smodify (fun f => set_worker (set_op (set_result (JObj ref) op) (wf_worker f)) f) ;;
                  sret []
              | None => fcrash "payload"
              end
        | _ => fcrash "payload.get"
        end
      else ffail "invalid_file_operation"
  | None => ffail "invalid_file_operation"
  end.

Definition file_upload_begin (args : obj) : F obj :=
  do! token <- flift (text_value (jget "blob" args) false 128) ;;
  do! size <- flift (integer (jget "size" args) 0 MAX_BLOB) ;;
  do! sha <- flift (text_value (jget "sha256" args) false 64) ;;
  do! f <- sget ;;
  seq! sguard (dmem token (wf_uploads f) || dmem token (wf_blobs f)) (WRemote (remote "file_transfer_conflict")) ;;
  seq! _reserve (JInt size) ;;
  seq! smodify (fun f => set_uploads (dset token (Upload size sha []) (wf_uploads f)) f) ;;
  sret [("blob", JStr token)].

(** [data[i:j]] for [0 <= i]. *)
Definition byte_slice (i j : Z) (data : bytes) : bytes := take (Z.to_nat (j - i)) (drop (Z.to_nat i) data).

Definition decode_chunk (data : json) : option bytes :=
  match data with
  | JStr s => b64decode (string_bytes s)
  | _ => None
  end.

(** The end of [file_upload_chunk]: [data] is what the upload now holds. *)
Definition upload_received (token : string) (u : upload) (data : bytes) : F obj :=
  seq! smodify (fun f => set_uploads (dset token (Upload (up_size u) (up_sha u) data) (wf_uploads f)) f) ;;
  seq! (if Z.of_nat (length data) =? up_size u then
          if bool_decide (sha256_hex data <> up_sha u) then ffail "invalid_file_blob"
          else smodify (fun f => set_uploads (ddel token (wf_uploads f)) (set_blobs (dset token data (wf_blobs f)) f))
        else sret tt) ;;
  sret [("offset", JInt (Z.of_nat (length data)))].

Definition file_upload_chunk (args : obj) : F obj :=
  do! token <- flift (text_value (jget "blob" args) false 128) ;;
  do! f <- sget ;;
  match dget token (wf_uploads f) with
  | None => ffail "invalid_file_blob"
  | Some u =>
      do! offset <- flift (integer (jget "offset" args) 0 (up_size u)) ;;
      match dget "data" args with
      | None => fcrash "KeyError"
      | Some encoded =>
          match decode_chunk encoded with
          | None => ffail "invalid_file_blob"
          | Some chunk =>
              let received := Z.of_nat (length (up_data u)) in
              let size := Z.of_nat (length chunk) in
              seq! sguard ((CHUNK <? size) || (received <? offset) || (up_size u <? offset + size))
                     (WRemote (remote "invalid_file_blob")) ;;
              if offset <? received then
                if bool_decide (byte_slice offset (offset + size) (up_data u) <> chunk) then ffail "file_transfer_conflict"
                else upload_received token u (up_data u)
              else upload_received token u (up_data u ++ chunk)
          end
      end
  end.

Definition file_blob_read (args : obj) : F obj :=
  do! f <- sget ;;
  do! data <- find_blob (jget "blob" args) f ;;
  match data with
  | None => ffail "invalid_file_blob"
  | Some data =>
      do! offset <- flift (integer (default (JInt 0) (dget "offset" args)) 0 (Z.of_nat (length data))) ;;
      sret [("data", JStr (string_of_bytes (b64encode (byte_slice offset (offset + CHUNK) data))))]
  end.

Definition file_blob_release (args : obj) : F obj :=
  match jget "blob" args with
  | JStr token => seq! pop_blob token ;; seq! pop_upload token ;; sret []
  | JList _ | JObj _ => fcrash "unhashable"
  | _ => sret []
  end.

(** [registry.sync( **value)]: keyword arguments with their defaults. *)
Definition call_sync (value : obj) : R Z :=
  if forallb (fun k => bool_decide (k ∈ ["scope"; "revision"; "live"; "pending"; "closed"; "visible"])) (dkeys value) then
    match dget "scope" value, dget "revision" value, dget "live" value with
    | Some scope, Some revision, Some live =>
        sync scope revision live (default (JList []) (dget "pending" value)) (default (JBool false) (dget "closed" value))
          (jget "visible" value)
    | _, _, _ => sthrow (Crash "TypeError")
    end
  else sthrow (Crash "TypeError").

Definition on_registry {A} (m : R A) : F A :=
  fun f =>
    match m (wf_registry f) with
    | (r, Ok a) => (set_registry r f, Ok a)
    | (r, Raise (FileRegistryError _)) => (set_registry r f, Raise (WRemote (remote "file_authority")))
    | (r, Raise (Crash what)) => (set_registry r f, Raise (WCrash what))
    end.

(** [self._load(args['payload'])].  Operations of the journal carry dictionaries: a payload
    that is not one ends here, where the code would record it and fail in its thread. *)
Definition load_payload (args : obj) : F obj :=
  match dget "payload" args with
  | None => fcrash "KeyError"
  | Some ref =>
      do! value <- _load ref ;;
      match value with
      | JObj value => sret value
      | _ => fcrash "payload"
      end
  end.

Definition file_sync (args : obj) : F obj :=
  do! value <- load_payload args ;;
  do! revision <- on_registry (call_sync value) ;;
  sret [("revision", JInt revision)].

(** The journal part is [WorkerSafety.file_execute]. *)
Definition file_execute_request (args : obj) : F obj :=
  do! f <- sget ;;
  seq! sguard (wk_closed (wf_worker f) || wk_draining (wf_worker f)) (WRemote (remote "worker_draining")) ;;
  do! value <- load_payload args ;;
  on_worker (file_execute config (jget "operation_id" args) value).

Definition handle_files (token method : string) (args : obj) : F obj :=
  if decide (method = "file_result_release") then file_result_release token args
  else if decide (method = "file_upload_begin") then file_upload_begin args
  else if decide (method = "file_upload_chunk") then file_upload_chunk args
  else if decide (method = "file_blob_read") then file_blob_read args
  else if decide (method = "file_blob_release") then file_blob_release args
  else if decide (method = "file_sync") then file_sync args
  else if decide (method = "file_execute") then file_execute_request args
  else ffail "unknown_method".
End files.
