(* ===== verification/TransferSafety.v ===== *)
(** * Theorems of the file transfers

    The retention account is exact along every run; received bytes never change; what a
    client uploads in chunks is what the worker loads, and what the worker stores is what
    a client downloads. *)

From S2P Require Import Prelude Dict Utf8 Sha256 PyValue JsonText JsonParse Base64 Protocol Worker WorkerSafety.
From S2P Require Import FileSystem FileRegistry HostTransfer WorkerFiles.
Open Scope Z_scope.

Definition blob_size (data : bytes) : Z := Z.of_nat (length data).

Section account.
Variable config : WorkerConfig.

(** ** The account *)

Definition upload_ok (u : upload) : Prop := 0 <= up_size u /\ Z.of_nat (length (up_data u)) <= up_size u.

Definition account_ok (f : WorkerFiles) : Prop :=
  dwf (wf_blobs f) /\ dwf (wf_uploads f) /\
  (forall t u, dget t (wf_uploads f) = Some u -> dget t (wf_blobs f) = None /\ upload_ok u) /\
  wf_reserved f = dsum blob_size (wf_blobs f) + dsum up_size (wf_uploads f) /\
  wf_reserved f <= cf_retained_limit config.

(** A token that nothing uses yet. *)
Definition fresh_token (token : string) (f : WorkerFiles) : Prop :=
  dget token (wf_blobs f) = None /\ dget token (wf_uploads f) = None.

Lemma store_spec token v f :
  let data := json_dumps_bytes v in
  let n := Z.of_nat (length data) in
  _store config token v f =
    if (n <=? MAX_BLOB) && (wf_reserved f + n <=? cf_retained_limit config)
    then (Files (wf_worker f) (wf_registry f) (dset token data (wf_blobs f)) (wf_uploads f) (wf_reserved f + n),
          Ok (blob_ref token data))
    else (f, Raise (WRemote (remote (if n <=? MAX_BLOB then "file_capacity" else "invalid_request")))).
Proof.
  intros data n. unfold _store. fold data. unfold _reserve, integer. fold n.
  rewrite (leb_t 0 n) by lia. cbn [andb]. unfold sbind, flift, slift, sget, sguard, smodify, sret, sthrow.
  destruct (n <=? MAX_BLOB) eqn:E1; [|done]. cbn [andb].
  rewrite Z.ltb_antisym. by destruct (wf_reserved f + n <=? cf_retained_limit config).
Qed.

Lemma store_ok token v f : fresh_token token f -> account_ok f -> account_ok (_store config token v f).1.
Proof.
  intros [Hb Hu] (Hwb & Hwu & Hups & Hsum & Hlim). rewrite store_spec. destruct (_ && _) eqn:E; [|done]. bool_to_prop.
  unfold account_ok. simpl. split_and!; [by apply dwf_dset|done| | |done].
  - intros t u Ht. rewrite dget_dset_ne by congruence. by apply Hups.
  - rewrite dsum_fresh by done. unfold blob_size at 2. lia.
Qed.

Lemma pop_blob_ok token f : account_ok f -> account_ok (pop_blob token f).1 /\ (pop_blob token f).2 = Ok tt.
Proof.
  intros (Hwb & Hwu & Hups & Hsum & Hlim). unfold pop_blob, sbind, sget.
  destruct (dget token (wf_blobs f)) as [data|] eqn:E; [|split; [by split_and!|done]].
  split; [|done]. unfold account_ok. simpl. split_and!; [by apply dwf_ddel|done| | |lia].
  - intros t u Ht. destruct (Hups _ _ Ht) as [Hn Hu]. rewrite dget_ddel. by case_decide.
  - rewrite (dsum_ddel _ _ data) by done. unfold blob_size at 2. lia.
Qed.

Lemma pop_upload_ok token f : account_ok f -> account_ok (pop_upload token f).1 /\ (pop_upload token f).2 = Ok tt.
Proof.
  intros (Hwb & Hwu & Hups & Hsum & Hlim). unfold pop_upload, sbind, sget.
  destruct (dget token (wf_uploads f)) as [u|] eqn:E; [|split; [by split_and!|done]].
  destruct (Hups _ _ E) as [_ [Hsize _]]. split; [|done]. unfold account_ok. simpl.
  split_and!; [done|by apply dwf_ddel| | |lia].
  - intros t v Ht. apply Hups. rewrite dget_ddel in Ht. by case_decide.
  - rewrite (dsum_ddel _ _ u) by done. lia.
Qed.

(** *** Requests that leave the account alone *)

Definition same_account : relation WorkerFiles :=
  fun f f' => wf_blobs f = wf_blobs f' /\ wf_uploads f = wf_uploads f' /\ wf_reserved f = wf_reserved f'.

#[local] Instance same_account_preorder : PreOrder same_account.
Proof. split; [done|]. intros f g h (? & ? & ?) (? & ? & ?). split_and!; congruence. Qed.

Lemma account_same f f' : same_account f f' -> account_ok f -> account_ok f'.
Proof. unfold account_ok. intros (H1 & H2 & H3). by rewrite H1, H2, H3. Qed.

Lemma find_blob_keeps key f : keeps same_account (find_blob key f).
Proof. intros f'. by destruct key. Qed.

Lemma load_keeps ref : keeps same_account (_load ref).
Proof.
  destruct ref; try (intros f; reflexivity). apply keeps_bind; [apply _|apply keeps_get; apply _|]. intros f.
  apply keeps_bind; [apply _|apply find_blob_keeps|]. intros [data|]; [|by intros ?].
  destruct (_ && _); [|by intros ?]. destruct (json_loads data); by intros ?.
Qed.

Lemma load_payload_keeps args : keeps same_account (load_payload args).
Proof.
  unfold load_payload. destruct (dget "payload" args); [|by intros ?]. apply keeps_bind; [apply _|apply load_keeps|].
  intros []; by intros ?.
Qed.

Lemma on_registry_keeps {A} (m : R A) : keeps same_account (on_registry m).
Proof. intros f. unfold on_registry. by destruct (m (wf_registry f)) as [r [a|[]]]. Qed.

Lemma on_worker_keeps {A} (m : W A) : keeps same_account (on_worker m).
Proof. intros f. unfold on_worker. by destruct (m (wf_worker f)) as [w r]. Qed.

Lemma file_sync_keeps args : keeps same_account (file_sync args).
Proof.
  apply keeps_bind; [apply _|apply load_payload_keeps|]. intros v.
  apply keeps_bind; [apply _|apply on_registry_keeps|]. by intros r ?.
Qed.

Lemma file_execute_keeps args : keeps same_account (file_execute_request config args).
Proof.
  apply keeps_bind; [apply _|apply keeps_get; apply _|]. intros f.
  apply keeps_bind; [apply _|apply keeps_guard; apply _|]. intros _.
  apply keeps_bind; [apply _|apply load_payload_keeps|]. intros v. apply on_worker_keeps.
Qed.

Lemma file_blob_read_keeps args : keeps same_account (file_blob_read args).
Proof.
  apply keeps_bind; [apply _|apply keeps_get; apply _|]. intros f.
  apply keeps_bind; [apply _|apply find_blob_keeps|]. intros [data|]; [|by intros ?].
  apply keeps_bind; [apply _|by intros ?|]. by intros n ?.
Qed.

(** *** Requests that change it *)

Definition keeps_account {A} (m : F A) : Prop := forall f, account_ok f -> account_ok (m f).1.

Lemma bind_account {A B} (m : F A) (k : A -> F B) :
  keeps_account m -> (forall a, keeps_account (k a)) -> keeps_account (sbind m k).
Proof.
  intros Hm Hk f Hf. specialize (Hm f Hf). unfold sbind. destruct (m f) as [f' [a|e]]; simpl in *; [by apply Hk|done].
Qed.

Lemma lift_account {A} (r : res RemoteError A) : keeps_account (flift r).
Proof. by intros f. Qed.

Lemma pop_blob_account token : keeps_account (pop_blob token).
Proof. intros f Hf. by apply pop_blob_ok. Qed.

Lemma pop_upload_account token : keeps_account (pop_upload token).
Proof. intros f Hf. by apply pop_upload_ok. Qed.

Lemma release_account args : keeps_account (file_blob_release args).
Proof.
  unfold file_blob_release. destruct (jget "blob" args); try (by intros f).
  repeat (apply bind_account; [apply pop_blob_account || apply pop_upload_account|intros _]). by intros f.
Qed.

Lemma upload_begin_account args : keeps_account (file_upload_begin config args).
Proof.
  apply bind_account; [apply lift_account|]. intros token. apply bind_account; [apply lift_account|]. intros size.
  apply bind_account; [apply lift_account|]. intros sha f Hf. pose proof Hf as (Hwb & Hwu & Hups & Hsum & Hlim).
  unfold sbind at 1, sget at 1. unfold sbind at 1, sguard at 1.
  destruct (dmem token (wf_uploads f) || dmem token (wf_blobs f)) eqn:E; [done|]. simpl.
  apply orb_false_iff in E as [Eu Eb]. apply dmem_false in Eu. apply dmem_false in Eb.
  unfold _reserve, sbind, flift, slift, sget, sguard, smodify, sret, sthrow.
  destruct (integer (JInt size) 0 MAX_BLOB) as [n|] eqn:Hn; [|done]. apply integer_ok in Hn as [[= <-] Hn].
  destruct (cf_retained_limit config <? wf_reserved f + size) eqn:El; [done|]. bool_to_prop.
  unfold account_ok. simpl. split_and!; [done|by apply dwf_dset| | |done].
  - intros t u. rewrite dget_dset. case_decide; [|by apply Hups]. intros [= <-]. subst. split; [done|].
    unfold upload_ok. simpl. lia.
  - rewrite dsum_fresh by done. simpl. lia.
Qed.

Lemma upload_received_account token u data f :
  dget token (wf_uploads f) = Some u -> Z.of_nat (length data) <= up_size u -> account_ok f ->
  account_ok (upload_received token u data f).1.
Proof.
  intros Hu Hlen (Hwb & Hwu & Hups & Hsum & Hlim). destruct (Hups _ _ Hu) as [Hnb [Hsize Hdata]].
  set (f1 := set_uploads (dset token (Upload (up_size u) (up_sha u) data) (wf_uploads f)) f).
  assert (Hsum1 : dsum up_size (wf_uploads f1) = dsum up_size (wf_uploads f))
    by (simpl; rewrite (dsum_replace _ _ _ u) by done; simpl; lia).
  assert (Hf1 : account_ok f1).
  { unfold account_ok. split_and!; [done|by apply dwf_dset| |simpl in *; lia|done]. intros t v. simpl. rewrite dget_dset.
    case_decide; [|by apply Hups]. intros [= <-]. subst. split; [done|]. by split. }
  unfold upload_received, sbind, smodify, sret, sthrow. fold f1.
  destruct (Z.of_nat (length data) =? up_size u) eqn:E; [|done]. bool_to_prop. case_bool_decide; [done|].
  destruct Hf1 as (_ & Hwu1 & Hups1 & _). unfold account_ok. cbn [fst].
  split_and!; [by apply dwf_dset|by apply dwf_ddel| | |done].
  - intros t v. simpl. rewrite dget_ddel. case_decide; [done|]. intros Ht. rewrite dget_dset_ne by done. by apply Hups1.
  - change (wf_reserved _) with (wf_reserved f).
    change (wf_reserved f = dsum blob_size (dset token data (wf_blobs f)) + dsum up_size (ddel token (wf_uploads f1))).
    rewrite dsum_fresh by done. rewrite (dsum_ddel _ _ (Upload (up_size u) (up_sha u) data)) by (done || apply dget_dset_eq).
    unfold blob_size at 2. cbn [up_size]. lia.
Qed.

Lemma upload_chunk_account args : keeps_account (file_upload_chunk args).
Proof.
  apply bind_account; [apply lift_account|]. intros token f Hf. unfold sbind at 1, sget at 1.
  destruct (dget token (wf_uploads f)) as [u|] eqn:Hu; [|done].
  pose proof Hf as (_ & _ & Hups & _). destruct (Hups _ _ Hu) as [_ [Hsize Hdata]].
  unfold sbind at 1, flift, slift at 1. destruct (integer _ 0 (up_size u)) as [offset|]; [|done].
  destruct (dget "data" args) as [encoded|]; [|done]. destruct (decode_chunk encoded) as [chunk|]; [|done].
  unfold sbind, sguard. destruct (_ || _ || _) eqn:E; [done|]. apply orb_false_iff in E as [E El].
  apply orb_false_iff in E as [_ Eo]. bool_to_prop. unfold sret. destruct (offset <? _) eqn:Eo'; bool_to_prop.
  - case_bool_decide; [done|]. by apply upload_received_account.
  - apply upload_received_account; [done| |done]. rewrite length_app. lia.
Qed.

(** [m] keeps the account when nothing uses [token] yet. *)
Definition keeps_fresh {A} (token : string) (m : F A) : Prop :=
  forall f, fresh_token token f -> account_ok f -> account_ok (m f).1.

Lemma bind_fresh {A B} token (m : F A) (k : A -> F B) :
  (forall f, fresh_token token f -> account_ok f -> account_ok (m f).1 /\ fresh_token token (m f).1) ->
  (forall a, keeps_fresh token (k a)) -> keeps_fresh token (sbind m k).
Proof.
  intros Hm Hk f Hn Hf. destruct (Hm f Hn Hf) as [H1 H2]. unfold sbind.
  destruct (m f) as [f' [a|e]]; simpl in *; [by apply Hk|done].
Qed.

Lemma keeps_same_fresh {A} token (m : F A) :
  keeps same_account m -> forall f, fresh_token token f -> account_ok f -> account_ok (m f).1 /\ fresh_token token (m f).1.
Proof.
  intros Hk f [Hb Hu] Hf. specialize (Hk f). split; [by eapply account_same|].
  destruct Hk as (E1 & E2 & _). split; congruence.
Qed.

Lemma pop_blob_fresh token t f :
  fresh_token token f -> account_ok f -> account_ok (pop_blob t f).1 /\ fresh_token token (pop_blob t f).1.
Proof.
  intros [Hb Hu] Hf. split; [by apply pop_blob_account|]. unfold pop_blob, sbind, sget.
  destruct (dget t (wf_blobs f)); [|done]. split; [|done]. simpl. rewrite dget_ddel. by case_decide.
Qed.

Lemma result_release_account token args : keeps_fresh token (file_result_release config token args).
Proof.
  apply bind_fresh; [by intros f|]. intros oid. apply bind_fresh; [by intros f|]. intros f0.
  destruct (dget oid _) as [op|]; [|by intros f]. destruct (completed_file_op op); [|by intros f].
  apply bind_fresh; [apply keeps_same_fresh, load_keeps|]. intros [| | | | |payload]; try (by intros f).
  destruct (truthy _); [by intros f|]. destruct (receipt_summary payload) as [summary|]; [|by intros f].
  apply bind_fresh; [apply pop_blob_fresh|]. intros _ f Hn Hf. pose proof (store_ok token (JObj summary) f Hn Hf) as H.
  unfold sbind. destruct (_store config token (JObj summary) f) as [f' [ref|e]]; exact H.
Qed.

Lemma handle_files_account token method args : keeps_fresh token (handle_files config token method args).
Proof.
  unfold handle_files. repeat case_decide; [apply result_release_account|..]; intros f _ Hf.
  - by apply upload_begin_account.
  - by apply upload_chunk_account.
  - by eapply account_same; [apply file_blob_read_keeps|].
  - by apply release_account.
  - by eapply account_same; [apply file_sync_keeps|].
  - by eapply account_same; [apply file_execute_keeps|].
  - done.
Qed.

Lemma file_thread_account ev op s f : same_account f (file_thread ev op s f).2.1.
Proof.
  unfold file_thread. by repeat (case_match; simplify_eq).
Qed.

Lemma file_settle_account token oid out f :
  fresh_token token f -> account_ok f -> account_ok (file_settle config token oid out f).
Proof.
  intros Hn Hf. unfold file_settle. destruct out as [result|[]]; try exact Hf.
  pose proof (store_ok token (JObj result) f Hn Hf) as H.
  by destruct (_store config token (JObj result) f) as [f' [ref|e]].
Qed.

(** ** Runs *)

(** A request of the file protocol, the two halves of a file operation, or a step of the
    rest of the worker.  [uuid4] gives tokens that nothing uses. *)
Inductive file_step : WorkerFiles -> WorkerFiles -> Prop :=
| fs_request f token method args :
    fresh_token token f -> file_step f (handle_files config token method args f).1
| fs_thread f ev op s : file_step f (file_thread ev op s f).2.1
| fs_settle f token oid out : fresh_token token f -> file_step f (file_settle config token oid out f)
| fs_worker f w : file_step f (set_worker w f).

Lemma file_step_account f f' : file_step f f' -> account_ok f -> account_ok f'.
Proof.
  intros [g token method args Hn|g ev op s|g token oid out Hn|g w] Hf.
  - by apply handle_files_account.
  - by eapply account_same; [apply file_thread_account|].
  - by apply file_settle_account.
  - exact Hf.
Qed.

Lemma file_run_account f f' : rtc file_step f f' -> account_ok f -> account_ok f'.
Proof. induction 1 as [|f g h H _ IH]; [done|]. intros Hf. by apply IH, (file_step_account f). Qed.

Lemma new_files_account epoch : 0 <= cf_retained_limit config -> account_ok (new_files config epoch).
Proof. intros H. split_and!; try constructor; done. Qed.

(** The retention account of file transfers is exact.  Along every run, whatever
    requests fail half way, the reserved count is the bytes of all blobs plus the declared
    sizes of all open uploads; no upload holds more than it declared, so the bytes the
    worker really holds stay within the retention limit; and no token is a blob and an
    open upload at once. *)
Theorem transfer_account_exact epoch f :
  0 <= cf_retained_limit config -> rtc file_step (new_files config epoch) f ->
  wf_reserved f = dsum blob_size (wf_blobs f) + dsum up_size (wf_uploads f) /\
  dsum blob_size (wf_blobs f) + dsum (fun u => blob_size (up_data u)) (wf_uploads f) <= cf_retained_limit config /\
  forall token u, dget token (wf_uploads f) = Some u ->
    dget token (wf_blobs f) = None /\ Z.of_nat (length (up_data u)) <= up_size u.
Proof.
  intros Hl Hr. destruct (file_run_account _ _ Hr (new_files_account _ Hl)) as (_ & Hwu & Hups & Hsum & Hlim).
  split_and!; [done| |].
  - assert (dsum (fun u => blob_size (up_data u)) (wf_uploads f) <= dsum up_size (wf_uploads f)); [|lia].
    apply dsum_mono; [done|]. intros k u Hu. by destruct (Hups _ _ Hu) as [_ [_ H]].
  - intros token u Hu. destruct (Hups _ _ Hu) as [H1 [_ H2]]. done.
Qed.
End account.

(** ** Host and worker together *)

(** What the host sees of an error of the worker. *)
Definition as_failure (e : worker_error) : host_failure :=
  match e with
  | WRemote e => RemoteFailure (re_code e) (re_effect e)
  | WCrash what => HostCrash what
  end.

(** A port that reaches the worker: every request is one call of the file handlers. *)
#[export] Instance worker_transport (config : WorkerConfig) (uuid : string) : Transport WorkerFiles :=
  fun method params f =>
    match handle_files config uuid method params f with
    | (f, Ok reply) => (f, Ok reply)
    | (f, Raise e) => (f, Raise (as_failure e))
    end.

Section roundtrip.
Variable config : WorkerConfig.
Variable uuid : string.
#[local] Existing Instance worker_transport.
Abbreviation request_to := (@_request WorkerFiles (worker_transport config uuid)).

Variable token : string.
Variable data : bytes.
Variable f : WorkerFiles.
Hypothesis token_text : text_value (JStr token) false 128 = Ok token.
Hypothesis token_fresh : fresh_token token f.
Hypothesis data_bytes : Forall byte data.
Hypothesis data_size : Z.of_nat (length data) <= WorkerFiles.MAX_BLOB.
Hypothesis room : wf_reserved f + Z.of_nat (length data) <= cf_retained_limit config.

(** The worker when it has received [n] bytes, and when it has them all. *)
Definition receiving (n : nat) : WorkerFiles :=
  Files (wf_worker f) (wf_registry f) (wf_blobs f)
    (dset token (Upload (Z.of_nat (length data)) (sha256_hex data) (take n data)) (wf_uploads f))
    (wf_reserved f + Z.of_nat (length data)).
Definition received : WorkerFiles :=
  Files (wf_worker f) (wf_registry f) (dset token data (wf_blobs f)) (wf_uploads f)
    (wf_reserved f + Z.of_nat (length data)).

Lemma chars_no_nul s : (forall i c, String.get i s = Some c -> c <> Ascii.zero) -> existsb (Ascii.eqb Ascii.zero) (chars s) = false.
Proof.
  induction s as [|c s IH]; intros H; [done|]. cbn [chars existsb]. rewrite IH by (intros i; apply (H (Datatypes.S i))).
  rewrite orb_false_r. apply Ascii.eqb_neq. intros <-. by apply (H 0%nat Ascii.zero).
Qed.

Lemma sha_text : text_value (JStr (sha256_hex data)) false 64 = Ok (sha256_hex data).
Proof.
  destruct (sha256_hex_shape data) as [Hl Hn]. unfold text_value. rewrite chars_no_nul by done. rewrite Hl.
  unfold str_truthy. rewrite bool_decide_true; [done|]. intros E. by rewrite E in Hl.
Qed.

(** *** One request at a time *)

Lemma begin_upload :
  handle_files config uuid "file_upload_begin" (transfer_ref token data) f = (receiving 0, Ok [("blob", JStr token)]).
Proof.
  destruct token_fresh as [Hb Hu]. change (handle_files config uuid "file_upload_begin") with (file_upload_begin config). unfold file_upload_begin.
  change (jget "blob" (transfer_ref token data)) with (JStr token).
  change (jget "size" (transfer_ref token data)) with (JInt (Z.of_nat (length data))).
  change (jget "sha256" (transfer_ref token data)) with (JStr (sha256_hex data)).
  unfold sbind, flift, slift, sget, sguard, smodify, sret, sthrow, _reserve.
  rewrite token_text, sha_text. rewrite !(proj2 (integer_ok _ _ _ (Z.of_nat (length data)))) by (split; [done|lia]).
  rewrite (proj2 (dmem_false _ _)) by done. rewrite (proj2 (dmem_false _ _)) by done. simpl.
  unfold sbind, flift, slift, sget, sguard, smodify. by rewrite (ltb_f (cf_retained_limit config)) by lia.
Qed.

Lemma decode_chunk_piece n : decode_chunk (JStr (string_of_bytes (b64encode (piece n data)))) = Some (piece n data).
Proof. cbn [decode_chunk]. unfold piece. apply decode_piece. by apply Forall_drop. Qed.

Lemma piece_length n : length (piece n data) = Nat.min (Z.to_nat HostTransfer.CHUNK) (length data - n).
Proof. unfold piece. by rewrite length_take, length_drop. Qed.

Lemma take_piece n : take n data ++ piece n data = take (n + length (piece n data)) data.
Proof.
  rewrite piece_length. unfold piece. rewrite <- (take_take_drop data n). f_equal.
  destruct (Nat.min_dec (Z.to_nat HostTransfer.CHUNK) (length data - n)) as [E|E]; rewrite E; [done|].
  rewrite !take_ge; [done|rewrite length_drop; lia..].
Qed.

Lemma send_chunk n :
  (n < length data)%nat ->
  let k := length (piece n data) in
  handle_files config uuid "file_upload_chunk" (chunk_params token n data) (receiving n) =
    (if decide (n + k = length data)%nat then received else receiving (n + k),
     Ok [("offset", JInt (Z.of_nat (n + k)))]).
Proof.
  intros Hn k. destruct token_fresh as [Hb Hu].
  pose proof (piece_length n) as Hk. fold k in Hk. pose proof (take_piece n) as Htake. fold k in Htake.
  change (handle_files config uuid "file_upload_chunk") with file_upload_chunk. unfold file_upload_chunk, sbind at 1, flift at 1, slift at 1.
  change (jget "blob" (chunk_params token n data)) with (JStr token). rewrite token_text.
  unfold sbind at 1, sget at 1. cbn [wf_uploads receiving]. rewrite dget_dset_eq.
  change (jget "offset" (chunk_params token n data)) with (JInt (Z.of_nat n)).
  cbn [up_size up_data up_sha]. unfold sbind at 1, flift at 1, slift at 1.
  rewrite (proj2 (integer_ok _ _ _ (Z.of_nat n))) by (split; [done|lia]).
  change (dget "data" (chunk_params token n data)) with (Some (JStr (string_of_bytes (b64encode (piece n data))))).
  cbv beta iota. rewrite decode_chunk_piece. cbv beta iota zeta.
  rewrite (length_take_le data n) by lia. fold k.
  rewrite (ltb_f WorkerFiles.CHUNK) by (unfold WorkerFiles.CHUNK, HostTransfer.CHUNK in *; lia).
  rewrite (ltb_f (Z.of_nat n) (Z.of_nat n)), (ltb_f (Z.of_nat (length data))) by lia. cbn [orb].
  unfold sbind at 1, sguard, sret at 1. rewrite Htake. unfold upload_received, sbind, smodify. cbn [up_size up_sha].
  unfold receiving at 1. cbn [wf_uploads]. rewrite dset_dset, length_take_le by lia. destruct (decide (n + k = length data)%nat) as [E|E].
  - rewrite E, Z.eqb_refl, take_ge by lia. rewrite bool_decide_false by (intros H; by apply H). unfold sret. f_equal.
    unfold received, set_uploads, set_blobs. simpl. f_equal. by apply ddel_dset_fresh.
  - rewrite (proj2 (Z.eqb_neq _ _)) by lia. done.
Qed.

Lemma read_chunk n :
  (n <= length data)%nat ->
  handle_files config uuid "file_blob_read" [("blob", JStr token); ("offset", JInt (Z.of_nat n))] received =
    (received, Ok [("data", JStr (string_of_bytes (b64encode (piece n data))))]).
Proof.
  intros Hn. change (handle_files config uuid "file_blob_read") with file_blob_read.
  unfold file_blob_read, sbind at 1, sget at 1. change (jget "blob" _) with (JStr token).
  unfold find_blob, sbind at 1, sret at 1. unfold received at 1. cbn [wf_blobs]. rewrite dget_dset_eq.
  change (default (JInt 0) (dget "offset" _)) with (JInt (Z.of_nat n)).
  unfold sbind at 1, flift, slift. rewrite (proj2 (integer_ok _ _ _ (Z.of_nat n))) by (split; [done|lia]).
  unfold sret. replace (byte_slice (Z.of_nat n) (Z.of_nat n + WorkerFiles.CHUNK) data) with (piece n data); [done|].
  unfold byte_slice, piece. rewrite Nat2Z.id. f_equal. change WorkerFiles.CHUNK with HostTransfer.CHUNK. lia.
Qed.

Lemma release_blob :
  handle_files config uuid "file_blob_release" [("blob", JStr token)] received = (f, Ok []).
Proof.
  destruct token_fresh as [Hb Hu]. change (handle_files config uuid "file_blob_release") with file_blob_release.
  unfold file_blob_release. change (jget "blob" _) with (JStr token).
  unfold sbind at 1, pop_blob, sbind at 1, sget at 1. unfold received at 1. cbn [wf_blobs]. rewrite dget_dset_eq.
  unfold smodify, sbind, pop_upload, sbind, sget. cbn [wf_uploads set_reserved set_blobs received]. rewrite Hu.
  unfold sret. f_equal. unfold received, set_reserved, set_blobs. cbn [wf_worker wf_registry wf_blobs wf_uploads wf_reserved].
  rewrite ddel_dset_fresh, Z.add_simpl_r by done. by destruct f.
Qed.

(** *** Whole transfers *)

Lemma chunk_count_bounds size :
  (0 < size)%nat ->
  let C := Z.to_nat HostTransfer.CHUNK in
  (0 < chunk_count size)%nat /\ ((chunk_count size - 1) * C < size <= chunk_count size * C)%nat.
Proof.
  intros Hs. unfold chunk_count, HostTransfer.CHUNK. cbv zeta.
  assert (Hd : (Z.of_nat size + 128 * 1024 - 1) / (128 * 1024) * (128 * 1024) < Z.of_nat size + 128 * 1024
            /\ Z.of_nat size <= (Z.of_nat size + 128 * 1024 - 1) / (128 * 1024) * (128 * 1024))
    by (Z.to_euclidean_division_equations; lia).
  generalize dependent ((Z.of_nat size + 128 * 1024 - 1) / (128 * 1024)). intros q Hq. nia.
Qed.

Lemma send_from i m g :
  (i * Z.to_nat HostTransfer.CHUNK < length data)%nat -> (i + m = chunk_count (length data))%nat ->
  sfor (fun offset => seq! request_to "file_upload_chunk" (chunk_params token offset data) ;; sret tt)
    ((fun i => i * Z.to_nat HostTransfer.CHUNK)%nat <$> seq i m) (Link g (receiving (i * Z.to_nat HostTransfer.CHUNK))) =
  (Link g received, Ok tt).
Proof.
  intros Hi Hm. destruct (chunk_count_bounds (length data)) as (Hc & Hlo & Hhi);
    [eapply Nat.le_lt_trans; [apply Nat.le_0_l|exact Hi]|].
  assert (HC : (0 < Z.to_nat HostTransfer.CHUNK)%nat) by (unfold HostTransfer.CHUNK; lia).
  revert i Hi Hm. induction m as [|m IH]; intros i Hi Hm; [nia|]. cbn [seq fmap list_fmap sfor].
  unfold sbind at 1. unfold sbind at 1. unfold _request. cbn [ln_remote ln_garbage]. unfold request, worker_transport.
  rewrite send_chunk by done. unfold sret at 1.
  pose proof (piece_length (i * Z.to_nat HostTransfer.CHUNK)) as Hk.
  destruct (decide _) as [E|E].
  - assert (m = 0)%nat as -> by nia. done.
  - replace (i * Z.to_nat HostTransfer.CHUNK + length (piece (i * Z.to_nat HostTransfer.CHUNK) data))%nat
      with (Datatypes.S i * Z.to_nat HostTransfer.CHUNK)%nat by nia.
    apply IH; [nia|lia].
Qed.

Lemma send_all_spec g :
  data <> [] -> @send_all WorkerFiles (worker_transport config uuid) token data (Link g (receiving 0)) = (Link g received, Ok tt).
Proof.
  intros Hne. unfold send_all, offsets. apply (send_from 0); [|done]. destruct data; [done|simpl; lia].
Qed.

Lemma chunk_pos : (0 < Z.to_nat HostTransfer.CHUNK)%nat.
Proof. unfold HostTransfer.CHUNK. lia. Qed.

Lemma request_read n g :
  (n <= length data)%nat ->
  request_to "file_blob_read" [("blob", JStr token); ("offset", JInt (Z.of_nat n))] (Link g received) =
    (Link g received, Ok [("data", JStr (string_of_bytes (b64encode (piece n data))))]).
Proof.
  intros Hn. unfold _request. cbn [ln_remote ln_garbage]. unfold request, worker_transport. by rewrite read_chunk.
Qed.

Lemma piece_fits n : (n < length data)%nat ->
  (length (piece n data) =? 0)%nat || (HostTransfer.CHUNK <? Z.of_nat (length (piece n data))) ||
    (length data <? n + length (piece n data))%nat = false.
Proof.
  intros Hn. pose proof chunk_pos. rewrite piece_length. rewrite (proj2 (Nat.eqb_neq _ _)) by lia.
  rewrite (ltb_f HostTransfer.CHUNK) by (generalize dependent HostTransfer.CHUNK; intros; lia).
  by rewrite (proj2 (Nat.ltb_ge _ _)) by lia.
Qed.

Lemma receive_step k n g :
  (n < length data)%nat ->
  @receive WorkerFiles (worker_transport config uuid) (Datatypes.S k) (JStr token) (length data) (take n data) (Link g received) =
  @receive WorkerFiles (worker_transport config uuid) k (JStr token) (length data) (take (n + length (piece n data)) data) (Link g received).
Proof.
  intros Hn. assert (Hl : length (take n data) = n) by (rewrite length_take_le; lia). rewrite <- take_piece.
  apply (receive_round k (JStr token) (length data) (take n data) (Link g received) (Link g received)
           [("data", JStr (string_of_bytes (b64encode (piece n data))))]); rewrite ?Hl; [done| | |].
  - apply request_read. lia.
  - apply reply_chunk_data, decode_piece, Forall_drop, data_bytes.
  - by apply piece_fits.
Qed.

Lemma receive_from k n g :
  (n + k = length data)%nat ->
  @receive WorkerFiles (worker_transport config uuid) k (JStr token) (length data) (take n data) (Link g received) =
    (Link g received, Ok data).
Proof.
  revert n. induction k as [k IH] using lt_wf_ind. intros n Hk. pose proof chunk_pos. pose proof (piece_length n).
  destruct k as [|k].
  - cbn [receive]. rewrite take_ge by lia. by rewrite Nat.ltb_irrefl.
  - rewrite receive_step by lia. rewrite receive_fuel by (rewrite length_take_le; lia).
    rewrite length_take_le by lia. apply IH; lia.
Qed.
End roundtrip.

(** C35: a value survives the way to the worker and back.  With a fresh token and room on the
    worker, the host's upload of any JSON value, chunk by chunk, succeeds; the worker then
    loads exactly that value from the reference; a download of the same reference gives
    the value back to the host; and the release that ends a transfer restores the worker
    to the state before it, its account included. *)
Theorem transfer_roundtrip config uuid token v g f :
  json_ok v -> text_value (JStr token) false 128 = Ok token -> fresh_token token f ->
  let data := json_dumps_bytes v in
  let ref := transfer_ref token data in
  Z.of_nat (length data) <= WorkerFiles.MAX_BLOB ->
  wf_reserved f + Z.of_nat (length data) <= cf_retained_limit config ->
  let T := worker_transport config uuid in
  exists f',
    _upload (T := T) token v (Link g f) = (Link g f', Ok ref) /\
    _load (JObj ref) f' = (f', Ok v) /\
    _download (T := T) ref (Link g f') = (Link g f', Ok v) /\
    HostTransfer._release (T := T) token (Link g f') = (Link g f, Ok tt).
Proof.
  intros Hok Htok Hfresh data ref Hsize Hroom T. exists (received token data f).
  assert (Hb : Forall byte data) by apply dumps_bytes. split_and!.
  - unfold _upload. fold data. rewrite (ltb_f HostTransfer.MAX_BLOB) by done. unfold sbind at 1, on_failure. unfold sbind at 1.
    unfold _request at 1. cbn [ln_remote ln_garbage]. unfold request, T, worker_transport at 1.
    rewrite begin_upload by done. rewrite send_all_spec; try done; apply dumps_nonempty.
  - unfold _load, sbind at 1, sget at 1. change (jget "blob" ref) with (JStr token). unfold find_blob, sbind, sret at 1.
    cbn [wf_blobs received]. rewrite dget_dset_eq. change (jget "size" ref) with (JInt (Z.of_nat (length data))).
    change (jget "sha256" ref) with (JStr (sha256_hex data)). unfold size_is, is_text. rewrite Z.eqb_refl, bool_decide_true by done.
    cbn [andb]. unfold data. by rewrite json_loads_dumps.
  - unfold _download. change (dget "size" ref) with (Some (JInt (Z.of_nat (length data)))).
    change (dget "blob" ref) with (Some (JStr token)). change (dget "sha256" ref) with (Some (JStr (sha256_hex data))).
    cbv beta iota. rewrite (leb_t 0), (leb_t _ HostTransfer.MAX_BLOB) by (done || lia). cbn [andb]. unfold sbind.
    rewrite Nat2Z.id. pose proof (receive_from config uuid token data f Hb (length data) 0 g eq_refl) as Hr.
    change (take 0 data) with (@nil Z) in Hr. fold T in Hr. rewrite Hr, bool_decide_true by done. unfold data. by rewrite json_loads_dumps.
  - unfold HostTransfer._release, _request. cbn [ln_remote ln_garbage]. unfold request, T, worker_transport.
    by rewrite release_blob.
Qed.

Definition demo_files : WorkerFiles := new_files (Config "w" "c" "key" "/bin/sh" 10 4096 4 [] [] "" "" "" "" []) "epoch".
Definition demo_value : json := JObj [("scope", JStr "s"); ("args", JList [JInt (-7); JNull])].

Lemma demo_value_ok : json_ok demo_value.
Proof.
  split; [apply (bool_decide_unpack _); vm_compute; exact I|].
  change (text_ok "scope" /\ text_ok "s" /\ text_ok "args" /\ (True /\ True /\ True) /\ True).
  split_and!; try done; [by exists (lit "scope")|by exists (lit "s")|by exists (lit "args")].
Qed.

Lemma transfer_roundtrip_witness :
  exists f', _load (JObj (transfer_ref "t1" (json_dumps_bytes demo_value))) f' = (f', Ok demo_value).
Proof.
  destruct (transfer_roundtrip (Config "w" "c" "key" "/bin/sh" 10 4096 4 [] [] "" "" "" "" []) "u" "t1" demo_value [] demo_files)
    as (f' & _ & H & _).
  - apply demo_value_ok.
  - vm_compute. reflexivity.
  - done.
  - vm_compute. done.
  - vm_compute. done.
  - by exists f'.
Defined.

(** ** Received bytes *)

(** What has become of an upload: it is still open and has only grown, or it is a blob of
    the declared size and digest. *)
Definition grown (token : string) (u : upload) (f : WorkerFiles) : Prop :=
  (exists u', dget token (wf_uploads f) = Some u' /\ up_size u' = up_size u /\ up_sha u' = up_sha u /\
              up_data u `prefix_of` up_data u') \/
  (dget token (wf_uploads f) = None /\ exists data, dget token (wf_blobs f) = Some data /\
     up_data u `prefix_of` data /\ Z.of_nat (length data) = up_size u /\ sha256_hex data = up_sha u).

Lemma grown_refl token u f : dget token (wf_uploads f) = Some u -> grown token u f.
Proof. intros H. left. by exists u. Qed.

Lemma upload_received_grown t v data token u f :
  dget t (wf_uploads f) = Some v -> up_data v `prefix_of` data -> dget token (wf_uploads f) = Some u ->
  grown token u (upload_received t v data f).1.
Proof.
  intros Hv Hp Hu. unfold upload_received, sbind, smodify, sret.
  assert (Hopen : grown token u (set_uploads (dset t (Upload (up_size v) (up_sha v) data) (wf_uploads f)) f)).
  { left. simpl. rewrite dget_dset. case_decide as Ht; [|by exists u]. subst. rewrite Hv in Hu. injection Hu as <-. eauto. }
  destruct (Z.of_nat (length data) =? up_size v) eqn:E; [|done]. bool_to_prop. case_bool_decide as Hsha; [done|].
  unfold grown. cbn [fst wf_uploads wf_blobs set_uploads set_blobs]. rewrite dget_ddel, !dget_dset.
  case_decide as Ht; [|left; by exists u]. subst. rewrite Hv in Hu. injection Hu as <-. right. split; [done|]. exists data. by split_and!.
Qed.

(** Received bytes are final.  Whatever a chunk request contains, every open upload
    afterwards is still open with the same size and digest and with all the bytes it had,
    possibly followed by more, or it has become a blob that starts with those bytes and
    has exactly the declared size and SHA-256. *)
Theorem received_bytes_final args f token u :
  dget token (wf_uploads f) = Some u -> grown token u (file_upload_chunk args f).1.
Proof.
  intros Hu. unfold file_upload_chunk, sbind at 1, flift at 1, slift at 1.
  destruct (text_value (jget "blob" args) false 128) as [t|]; [|by apply grown_refl]. unfold sbind at 1, sget at 1.
  destruct (dget t (wf_uploads f)) as [v|] eqn:Hv; [|by apply grown_refl].
  unfold sbind at 1, flift, slift at 1. destruct (integer _ 0 (up_size v)) as [offset|]; [|by apply grown_refl].
  destruct (dget "data" args) as [encoded|]; [|by apply grown_refl].
  destruct (decode_chunk encoded) as [chunk|]; [|by apply grown_refl].
  unfold sbind, sguard. destruct (_ || _ || _); [by apply grown_refl|]. unfold sret. destruct (offset <? _).
  - case_bool_decide; [by apply grown_refl|]. by apply upload_received_grown.
  - apply upload_received_grown; [done|by apply prefix_app_r|done].
Qed.

(** ** The demonstration runs *)

Definition tiny_config : WorkerConfig := Config "w" "c" "key" "/bin/sh" 10 130 4 [] [] "" "" "" "" [].
Definition ref_abc : obj :=
  [("blob", JStr "b"); ("size", JInt 3); ("sha256", JStr (sha256_hex (lit "abc")))].
Definition files_begun : WorkerFiles :=
  Eval vm_compute in (handle_files tiny_config "u" "file_upload_begin" ref_abc (new_files tiny_config "epoch")).1.
Definition chunk_ab : obj := [("blob", JStr "b"); ("offset", JInt 0); ("data", JStr "YWI=")].
Definition files_ab : WorkerFiles := Eval vm_compute in (file_upload_chunk chunk_ab files_begun).1.
Definition chunk_c : obj := [("blob", JStr "b"); ("offset", JInt 2); ("data", JStr "Yw==")].

Lemma transfer_account_exact_witness :
  rtc (file_step tiny_config) (new_files tiny_config "epoch") files_begun /\ wf_reserved files_begun = 3.
Proof.
  assert (Hr : rtc (file_step tiny_config) (new_files tiny_config "epoch") files_begun).
  { eapply rtc_l; [|apply rtc_refl].
    assert (E : files_begun = (handle_files tiny_config "u" "file_upload_begin" ref_abc (new_files tiny_config "epoch")).1)
      by (vm_compute; reflexivity). rewrite E. apply fs_request. split; reflexivity. }
  split; [done|].
  destruct (transfer_account_exact tiny_config "epoch" files_begun ltac:(simpl; lia) Hr) as (H & _).
  rewrite H. vm_compute. reflexivity.
Defined.

Lemma received_bytes_final_witness :
  dget "b" (wf_blobs (file_upload_chunk chunk_c files_ab).1) = Some (lit "abc").
Proof.
  destruct (received_bytes_final chunk_c files_ab "b" (Upload 3 (sha256_hex (lit "abc")) (lit "ab")) ltac:(vm_compute; reflexivity))
    as [(u' & H & _)|(_ & data & H & Hp & _)].
  - vm_compute in H. discriminate H.
  - vm_compute in H. injection H as <-. vm_compute. reflexivity.
Defined.

(** *** A receipt can be lost *)

Definition short_result : obj :=
  [("status", JStr "error"); ("llm_text", JStr "x"); ("text", JStr "x"); ("structured", JObj []); ("recovery_hint", JStr "");
   ("context_delivery", JNull); ("effect_receipt", JNull)].
Definition files_settled : WorkerFiles :=
  Eval vm_compute in
    file_settle tiny_config "t1" "o1" (Ok short_result)
      (set_worker (file_execute tiny_config (JStr "o1") [] (new_worker "epoch")).1 (new_files tiny_config "epoch")).
Definition release_o1 : obj := [("operation_id", JStr "o1")].

(** The release of a delivered result drops the stored payload before it has reserved
    room for the summary that replaces it.  When the summary is longer and the account is
    full, the request fails and the receipt of the operation is gone: the same request,
    which is what the host repeats, then fails for good. *)
Example release_loses_receipt :
  let f' := (handle_files tiny_config "t2" "file_result_release" release_o1 files_settled).1 in
  (exists v, (_load (match dget "o1" (wk_operations (wf_worker files_settled)) with Some op => op_result op | None => JNull end)
                files_settled).2 = Ok v) /\
  (handle_files tiny_config "t2" "file_result_release" release_o1 files_settled).2 = Raise (WRemote (remote "file_capacity")) /\
  (handle_files tiny_config "t3" "file_result_release" release_o1 f').2 = Raise (WRemote (remote "invalid_file_blob")).
Proof. split_and!; [eexists|..]; vm_compute; reflexivity. Qed.
