(* ===== verification/RemoteFiles.v ===== *)
(** * File scopes of the host

    [pal_shell_native/files.py], class [RemoteFiles]: what the host believes about each
    worker-side file scope (its revision, live and pending results, unresolved
    operations), every method that changes it, the checkpoint, and the coroutines [_sync]
    and [execute] as the steps between their awaits.

    A scope is one mutable dictionary that several coroutines share.  The model keeps the
    objects in a heap indexed by their unique [scope] field; [self.scopes] maps keys to
    them.  [_schedule_sync] only makes a background synchronization possible, which the
    steps of [RemoteFilesSafety.v] allow at any time. *)

From S2P Require Import Prelude Dict Utf8 Sha256 PyValue JsonText JsonParse.
Open Scope Z_scope.

(** ** State *)

Record route := Route { rt_target : Z; rt_target_name : string; rt_binding : string; rt_worker_id : string }.

Record FileScope := FScope {
  rs_route : route;
  rs_epoch : string;
  rs_lifetime : string;
  rs_scope : string;
  rs_revision : Z;
  rs_acked : Z;
  rs_live : dict string json;
  rs_pending : list string;
  rs_unresolved : dict string obj;
  rs_closed : bool;
  rs_visible : option (list string);
  rs_garbage : list string;
  rs_receipt_releases : list string
}.

Record call := Call { ca_key : string; ca_operation_id : string; ca_turn : string }.

Record RemoteFiles := RFiles {
  rf_heap : dict string FileScope;                 (* the scope objects *)
  rf_scopes : dict string string;                  (* self.scopes: key to object *)
  rf_calls : dict string call;
  rf_history_refs : dict Z (dict string string)    (* result id to scope, per history *)
}.

Definition new_remote_files : RemoteFiles := RFiles [] [] [] [].

(** What one synchronization tells the worker. *)
Record content := Content {
  cn_live : dict string json; cn_pending : list string; cn_closed : bool; cn_visible : option (list string)
}.
Definition content_of (st : FileScope) : content := Content (rs_live st) (rs_pending st) (rs_closed st) (rs_visible st).

(** [state['revision'] += 1] with new content. *)
Definition revise (c : content) (st : FileScope) : FileScope :=
  FScope (rs_route st) (rs_epoch st) (rs_lifetime st) (rs_scope st) (rs_revision st + 1) (rs_acked st)
    (cn_live c) (cn_pending c) (rs_unresolved st) (cn_closed c) (cn_visible c) (rs_garbage st) (rs_receipt_releases st).
Definition with_live (l : dict string json) (st : FileScope) : content := Content l (rs_pending st) (rs_closed st) (rs_visible st).
Definition with_pending (p : list string) (st : FileScope) : content := Content (rs_live st) p (rs_closed st) (rs_visible st).

Definition set_acked (n : Z) (st : FileScope) : FileScope :=
  FScope (rs_route st) (rs_epoch st) (rs_lifetime st) (rs_scope st) (rs_revision st) n (rs_live st) (rs_pending st)
    (rs_unresolved st) (rs_closed st) (rs_visible st) (rs_garbage st) (rs_receipt_releases st).
Definition set_unresolved (u : dict string obj) (st : FileScope) : FileScope :=
  FScope (rs_route st) (rs_epoch st) (rs_lifetime st) (rs_scope st) (rs_revision st) (rs_acked st) (rs_live st)
    (rs_pending st) u (rs_closed st) (rs_visible st) (rs_garbage st) (rs_receipt_releases st).

(** ** One scope *)

(** [list.remove]: the first occurrence. *)
Fixpoint remove_one (x : string) (l : list string) : list string :=
  match l with
  | [] => []
  | y :: l => if decide (y = x) then l else y :: remove_one x l
  end.

Definition sorted_texts (l : list string) : list string := merge_sort String.le l.

Definition _set_visible (visible : option (list string)) (st : FileScope) : FileScope :=
  let projected := sorted_texts <$> visible in
  if decide (rs_visible st = projected) then st
  else revise (Content (rs_live st) (rs_pending st) (rs_closed st) projected) st.

(** [unbind_history] and [retire]: every live result of [rids] at once. *)
Definition drop_live (rids : list string) (st : FileScope) : FileScope :=
  if bool_decide (Exists (fun r => r ∈ dkeys (rs_live st)) rids)
  then revise (with_live (filter (fun p => p.1 ∉ rids) (rs_live st)) st) st
  else st.

(** [discard] on the scope of the call. *)
Definition discard_operation (oid : string) (st : FileScope) : FileScope :=
  if decide (oid ∈ rs_pending st) then revise (with_pending (remove_one oid (rs_pending st)) st) st else st.

Definition close_scope (st : FileScope) : FileScope := revise (Content [] [] true (rs_visible st)) st.

Definition reconcile_scope (present : list string) (st : FileScope) : FileScope :=
  revise (Content (filter (fun p => p.1 ∈ present) (rs_live st))
            (filter (fun o => o ∈ dkeys (rs_unresolved st)) (rs_pending st)) (rs_closed st) (rs_visible st)) st.

(** [state['pending'].append(oid)] of [execute]. *)
Definition begin_operation (oid : string) (st : FileScope) : FileScope :=
  revise (with_pending (rs_pending st ++ [oid]) st) st.

(** The recovery of an unresolved operation, after its receipt arrived. *)
Definition recovered (oid : string) (st : FileScope) : FileScope :=
  let st := set_unresolved (ddel oid (rs_unresolved st)) st in
  if decide (oid ∈ rs_pending st) then revise (with_pending (remove_one oid (rs_pending st)) st) st else st.

(** What [commit] can raise. *)
Inductive commit_error := NoActiveScope | ImmutableResult | RetiredResult | CommitCrash.

Definition commit_scope (oid : string) (manifest : obj) (result_id : string) (st : FileScope) : res commit_error FileScope :=
  let item := JObj [("operation_id", JStr oid); ("manifest", JObj manifest)] in
  raise_if rs_closed st with NoActiveScope ;;
  match dget result_id (rs_live st) with
  | Some old => raise_if negb (py_eq old item) with ImmutableResult ;; Ok st
  | None =>
      raise_if bool_decide (oid ∉ rs_pending st) with RetiredResult ;;
      Ok (revise (Content (dset result_id item (rs_live st)) (remove_one oid (rs_pending st)) (rs_closed st) (rs_visible st)) st)
  end.

(** ** All scopes *)

Definition set_heap (h : dict string FileScope) (f : RemoteFiles) : RemoteFiles :=
  RFiles h (rf_scopes f) (rf_calls f) (rf_history_refs f).

(** [for state in self.scopes.values(): ...] *)
Definition on_scopes (g : FileScope -> FileScope) (f : RemoteFiles) : RemoteFiles :=
  set_heap ((fun p => (p.1, if decide (p.1 ∈ dvals (rf_scopes f)) then g p.2 else p.2)) <$> rf_heap f) f.

Definition on_scope (sid : string) (g : FileScope -> FileScope) (f : RemoteFiles) : RemoteFiles :=
  match dget sid (rf_heap f) with
  | Some st => set_heap (dset sid (g st) (rf_heap f)) f
  | None => f
  end.

Definition scope_of_key (key : string) (f : RemoteFiles) : option FileScope :=
  match dget key (rf_scopes f) with Some sid => dget sid (rf_heap f) | None => None end.

(** The scope objects of [self.scopes.values()]. *)
Definition scope_values (f : RemoteFiles) : list FileScope := omap (fun sid => dget sid (rf_heap f)) (dvals (rf_scopes f)).

Definition has_work (f : RemoteFiles) : bool :=
  existsb (fun st => negb (bool_decide (rs_unresolved st = [])) || negb (bool_decide (rs_pending st = []))) (scope_values f).

(** The scopes that [reconnect] synchronizes. *)
Definition reconnect (f : RemoteFiles) : list FileScope :=
  filter (fun st => rs_acked st <> rs_revision st \/ rs_garbage st <> [] \/ rs_receipt_releases st <> []) (scope_values f).

(** Whether some history still refers to a result. *)
Definition referenced (rid : string) (f : RemoteFiles) : bool := existsb (fun p => dmem rid p.2) (rf_history_refs f).

Definition set_history_refs (h : dict Z (dict string string)) (f : RemoteFiles) : RemoteFiles :=
  RFiles (rf_heap f) (rf_scopes f) (rf_calls f) h.

Definition unbind_history (history : Z) (f : RemoteFiles) : RemoteFiles :=
  let previous := default [] (dget history (rf_history_refs f)) in
  let f := set_history_refs (ddel history (rf_history_refs f)) f in
  on_scopes (drop_live (filter (fun rid => referenced rid f = false) (dkeys previous))) f.

(** The listener of [bind_history]: the references before and after a change. *)
Definition history_changed (history : Z) (previous current : dict string string) (f : RemoteFiles) : RemoteFiles :=
  let f := set_history_refs (dset history current (rf_history_refs f)) f in
  foldl (fun f rid =>
           if referenced rid f then f
           else
             let owner := default "" (dget rid previous) in
             on_scopes (fun st => if bool_decide (owner = "") || bool_decide (rs_scope st = owner)
                                  then drop_live [rid] st else st) f)
    f (filter (fun rid => rid ∉ dkeys current) (dkeys previous)).

Definition bind_history (history : Z) (refs : dict string string) (f : RemoteFiles) : RemoteFiles :=
  if dmem history (rf_history_refs f) then f else set_history_refs (dset history refs (rf_history_refs f)) f.

Definition project (lifetime : string) (visible : option (list string)) : RemoteFiles -> RemoteFiles :=
  on_scopes (fun st => if bool_decide (rs_lifetime st = lifetime) && negb (rs_closed st) then _set_visible visible st else st).

(** [v == s] for a string [s]. *)
Definition same_text (v : json) (s : string) : bool := match v with JStr t => bool_decide (t = s) | _ => false end.

(** [manifest = dict(delivery); manifest.pop('remote', None)] *)
Definition commit (delivery : obj) (result_id : string) (f : RemoteFiles) : res commit_error RemoteFiles :=
  match jor (jget "remote" delivery) (JObj []) with
  | JObj remote =>
      match find (fun st => same_text (jget "scope" remote) (rs_scope st)) (scope_values f) with
      | None => Raise NoActiveScope
      | Some st =>
          raise_if rs_closed st with NoActiveScope ;;
          match dget "operation_id" remote with
          | Some (JStr oid) =>
              let! st' := commit_scope oid (ddel "remote" delivery) result_id st in
              Ok (on_scope (rs_scope st) (fun _ => st') f)
          | _ => Raise CommitCrash
          end
      end
  | _ => Raise CommitCrash
  end.

Definition discard (call_id : string) (f : RemoteFiles) : RemoteFiles :=
  match dget call_id (rf_calls f) with
  | Some c => match dget (ca_key c) (rf_scopes f) with
              | Some sid => on_scope sid (discard_operation (ca_operation_id c)) f
              | None => f
              end
  | None => f
  end.

(** [acknowledge] before its synchronization: a result that reached the host without a
    manifest is still pending and is discarded. *)
Definition acknowledge (call_id : string) (f : RemoteFiles) : RemoteFiles := discard call_id f.

Definition retire (lifetime : string) (rids : list string) : RemoteFiles -> RemoteFiles :=
  on_scopes (fun st => if bool_decide (rs_lifetime st = lifetime) then drop_live rids st else st).

(** [lifetime] is optional: [None] retires every scope. *)
Definition retire_scope (lifetime : option string) : RemoteFiles -> RemoteFiles :=
  on_scopes (fun st =>
    if (match lifetime with Some l => bool_decide (rs_lifetime st <> l) | None => false end) || rs_closed st
    then st else close_scope st).

Definition detach_histories (f : RemoteFiles) : RemoteFiles := set_history_refs [] f.

(** [close], before it waits for its tasks. *)
Definition close_files (f : RemoteFiles) : RemoteFiles := detach_histories (retire_scope None f).

(** ** Checkpoints *)

Definition route_fields (r : route) : obj :=
  [("target", JInt (rt_target r)); ("target_name", JStr (rt_target_name r)); ("binding", JStr (rt_binding r));
   ("worker_id", JStr (rt_worker_id r))].

(** The dictionary of a scope. *)
Definition scope_json (st : FileScope) : json :=
  JObj (route_fields (rs_route st) ++
    [("epoch", JStr (rs_epoch st)); ("lifetime", JStr (rs_lifetime st)); ("scope", JStr (rs_scope st));
     ("revision", JInt (rs_revision st)); ("acked", JInt (rs_acked st)); ("live", JObj (rs_live st));
     ("pending", JList (JStr <$> rs_pending st)); ("unresolved", JObj ((fun p => (p.1, JObj p.2)) <$> rs_unresolved st));
     ("closed", JBool (rs_closed st));
     ("visible", match rs_visible st with Some v => JList (JStr <$> v) | None => JNull end)]).

Definition call_json (c : call) : json :=
  JObj [("key", JStr (ca_key c)); ("operation_id", JStr (ca_operation_id c)); ("turn", JStr (ca_turn c))].

(** A checkpoint: the scopes by key, and the calls. *)
Record checkpoint := Checkpoint { cp_scopes : dict string FileScope; cp_calls : dict string call }.

Definition snapshot_files (f : RemoteFiles) : checkpoint :=
  Checkpoint (omap (fun p => (fun st => (p.1, st)) <$> dget p.2 (rf_heap f)) (rf_scopes f)) (rf_calls f).

Definition checkpoint_json (c : checkpoint) : json :=
  JObj [("scopes", JObj ((fun p => (p.1, scope_json p.2)) <$> cp_scopes c));
        ("calls", JObj ((fun p => (p.1, call_json p.2)) <$> cp_calls c))].

Section validation.
(** Whether [FileDeliveryManifest.from_dict] of the host accepts a value. *)
Variable manifest_ok : json -> bool.

Definition is_nonempty_text (v : json) : bool := match v with JStr s => str_truthy s | _ => false end.

Definition valid_live (p : string * json) : bool :=
  match p.2 with
  | JObj item => truthy (jget "operation_id" item) && manifest_ok (jget "manifest" item)
  | _ => false
  end.

Definition valid_scope (v : json) : bool :=
  match v with
  | JObj d =>
      (match jget "target" d with JInt z => 0 <? z | _ => false end) &&
      (match jget "revision" d with JInt z => 0 <=? z | _ => false end) &&
      forallb (fun k => is_nonempty_text (jget k d)) ["scope"; "epoch"; "binding"; "worker_id"; "lifetime"] &&
      (match jget "live" d with JObj live => forallb valid_live live | _ => false end) &&
      (match jget "pending" d with JList _ => true | _ => false end) &&
      (match jget "unresolved" d with JObj _ => true | _ => false end) &&
      (match jget "visible" d with JNull => true | JList l => forallb is_nonempty_text l | _ => false end) &&
      (match jget "closed" d with JBool _ => true | _ => false end)
  | _ => false
  end.

Definition valid_call (scopes : obj) (v : json) : bool :=
  match v with
  | JObj item => match jget "key" item with JStr k => dmem k scopes | _ => false end
  | _ => false
  end.

Definition validate_snapshot (v : json) : bool :=
  match v with
  | JObj d =>
      match default (JObj []) (dget "scopes" d), default (JObj []) (dget "calls" d) with
      | JObj scopes, JObj calls => forallb (fun p => valid_scope p.2) scopes && forallb (fun p => valid_call scopes p.2) calls
      | _, _ => false
      end
  | _ => false
  end.

(** [None]: the [ValueError].  Every acknowledgement is forgotten. *)
Definition restore_files (c : checkpoint) (f : RemoteFiles) : option RemoteFiles :=
  if validate_snapshot (checkpoint_json c) then
    Some (RFiles ((fun p => (rs_scope p.2, set_acked (-1) p.2)) <$> cp_scopes c)
            ((fun p => (p.1, rs_scope p.2)) <$> cp_scopes c) (cp_calls c) (rf_history_refs f))
  else None.
End validation.

Definition reconcile_restored_history (f : RemoteFiles) : RemoteFiles :=
  on_scopes (reconcile_scope (rf_history_refs f ≫= fun p => dkeys p.2)) f.

(** ** [execute], up to its lock *)

(** What [execute] can raise before it touches a scope. *)
Inductive admission_error :=
| ScopeClosed | UnsupportedTarget | BackendUnavailable | ProtocolUnsupported | IdentityMismatch | MissingLifetime.

Record file_request := FileRequest {
  rq_scope_closed : bool;           (* runtime._file_scope_closed *)
  rq_port : bool;                   (* a remote port is attached *)
  rq_same_port : bool;              (* ... and was not exchanged during the metadata request *)
  rq_route : route;
  rq_protocol : json;               (* metadata.get('file_protocol_version') *)
  rq_worker : json;                 (* metadata.get('worker_id') *)
  rq_epoch : string;                (* metadata['runtime_epoch'] *)
  rq_turn : string;                 (* the logical context of the call *)
  rq_lifetime : string
}.

Definition admit_request (q : file_request) : res admission_error unit :=
  raise_if rq_scope_closed q with ScopeClosed ;;
  raise_if negb (rq_port q) with UnsupportedTarget ;;
  raise_if negb (rq_same_port q) with BackendUnavailable ;;
  raise_if negb (py_eq (rq_protocol q) (JInt 1)) with ProtocolUnsupported ;;
  raise_if negb (py_eq (rq_worker q) (JStr (rt_worker_id (rq_route q)))) with IdentityMismatch ;;
  raise_if negb (str_truthy (rq_turn q)) with MissingLifetime ;;
  Ok tt.

Definition new_scope_state (q : file_request) (uuid : string) : FileScope :=
  FScope (rq_route q) (rq_epoch q) (rq_lifetime q) uuid 0 (-1) [] [] [] false None [] [].

(** [json.dumps([binding, epoch, lifetime])] *)
Definition scope_key (q : file_request) : string :=
  string_of_bytes (json_dumps false (JList [JStr (rt_binding (rq_route q)); JStr (rq_epoch q); JStr (rq_lifetime q)])).

Definition rekey_calls (old new : string) (calls : dict string call) : dict string call :=
  (fun p => (p.1, if decide (ca_key p.2 = old) then Call new (ca_operation_id p.2) (ca_turn p.2) else p.2)) <$> calls.

Definition retired_key (key : string) (st : FileScope) : string := (key +:+ ":retired:" +:+ rs_scope st)%stdpp.

(** The scope of a key: a closed scope without unresolved operations makes way for a new
    one, and keeps its calls under another key. *)
Definition open_scope (key : string) (q : file_request) (uuid : string) (f : RemoteFiles) : RemoteFiles * string :=
  let create f := (RFiles (dset uuid (new_scope_state q uuid) (rf_heap f)) (dset key uuid (rf_scopes f)) (rf_calls f)
                     (rf_history_refs f), uuid) in
  match scope_of_key key f with
  | Some st =>
      if rs_closed st && bool_decide (rs_unresolved st = []) then
        let old := retired_key key st in
        create (RFiles (rf_heap f) (dset old (rs_scope st) (rf_scopes f)) (rekey_calls key old (rf_calls f)) (rf_history_refs f))
      else (f, rs_scope st)
  | None => create f
  end.

Definition record_call (call_id key oid turn : string) (f : RemoteFiles) : RemoteFiles :=
  RFiles (rf_heap f) (rf_scopes f) (dset call_id (Call key oid turn) (rf_calls f)) (rf_history_refs f).

(** ** Messages *)

Definition visible_json (v : option (list string)) : json :=
  match v with Some v => JList (JStr <$> v) | None => JNull end.

(** The value that [_sync] uploads. *)
Definition sync_value (scope : string) (revision : Z) (c : content) : obj :=
  [("scope", JStr scope); ("revision", JInt revision); ("live", JObj (cn_live c));
   ("pending", JList (JStr <$> cn_pending c)); ("closed", JBool (cn_closed c)); ("visible", visible_json (cn_visible c))].

(** The value that [execute] uploads. *)
Definition execute_value (scope : string) (revision : Z) (action : string) (args : obj) : obj :=
  [("scope", JStr scope); ("revision", JInt revision); ("action", JStr action); ("args", JObj (ddel "target" args))].

(** [_query] of a failed operation. *)
Definition query_error_payload (oid code message : string) (effect : option string) : obj :=
  [("status", JStr "error"); ("llm_text", JStr message); ("text", JStr message);
   ("structured", JObj [("error_code", JStr code); ("operation_id", JStr oid)]);
   ("effect_receipt", JObj [("outcome", JStr (default "unknown" effect)); ("receipt", JObj [("operation_id", JStr oid)])])].
