(* ===== verification/RemoteFilesSafety.v ===== *)
(** * Theorems of the host's file scopes

    One scope of the host and the registry of its worker, with a network that may delay,
    repeat or lose every message.  The worker executes a file operation only under the
    authority the host had when it dispatched the operation; operations of a scope never
    overlap; and every method of [RemoteFiles] acts on a scope object by the mutations
    these theorems allow at any time. *)

From S2P Require Import Prelude Dict Utf8 Sha256 PyValue JsonText JsonParse Ranges FileSystem Contracts.
From S2P Require Import SessionData SessionState FileCache FileRegistry RegistrySafety WorkerFiles RemoteFiles.
Open Scope Z_scope.

(** ** What a method does to a scope *)

Inductive mutation : FileScope -> FileScope -> Prop :=
| mu_visible v st : mutation st (_set_visible v st)
| mu_drop rids st : mutation st (drop_live rids st)
| mu_discard oid st : mutation st (discard_operation oid st)
| mu_close st : mutation st (close_scope st)
| mu_reconcile present st : mutation st (reconcile_scope present st)
| mu_commit oid manifest rid st st' : commit_scope oid manifest rid st = Ok st' -> mutation st st'.

(** New content always comes with a new revision. *)
Lemma mutation_revises st st' : mutation st st' -> st' = st \/ exists c, st' = revise c st.
Proof.
  intros [v s|rids s|oid s|s|present s|oid manifest rid s s' H].
  - unfold _set_visible. case_decide; [by left|right; by eexists].
  - unfold drop_live. case_bool_decide; [right; by eexists|by left].
  - unfold discard_operation. case_decide; [right; by eexists|by left].
  - right. by eexists.
  - right. by eexists.
  - unfold commit_scope in H. apply raise_if_ok in H as [_ H]. destruct (dget rid (rs_live s)) as [old|].
    + apply raise_if_ok in H as [_ H]. injection H as <-. by left.
    + apply raise_if_ok in H as [_ H]. injection H as <-. right. by eexists.
Qed.

(** ** The whole class *)

(** Every scope object of [f] is still there in [f'], moved by mutations only. *)
Definition mutates (f f' : RemoteFiles) : Prop :=
  forall sid st, dget sid (rf_heap f) = Some st -> exists st', dget sid (rf_heap f') = Some st' /\ rtc mutation st st'.

Lemma mutates_refl f : mutates f f.
Proof. intros sid st H. exists st. split; [done|apply rtc_refl]. Qed.

Lemma mutates_trans f g h : mutates f g -> mutates g h -> mutates f h.
Proof. intros H1 H2 sid st (s1 & (s2 & ? & ?)%H2 & ?)%H1. exists s2. split; [done|]. by etransitivity. Qed.

Lemma same_heap_mutates f f' : rf_heap f = rf_heap f' -> mutates f f'.
Proof. intros E sid st H. exists st. rewrite <- E. split; [done|apply rtc_refl]. Qed.

Lemma dget_fmap {V W} (g : string -> V -> W) (d : dict string V) k :
  dget k ((fun p => (p.1, g p.1 p.2)) <$> d) = g k <$> dget k d.
Proof. induction d as [|[k' v] d IH]; simpl; [done|]. case_decide; [by subst|exact IH]. Qed.

Lemma on_scopes_mutates g f : (forall st, rtc mutation st (g st)) -> mutates f (on_scopes g f).
Proof.
  intros Hg sid st H. unfold on_scopes, set_heap. cbn [rf_heap].
  pose proof (dget_fmap (fun k st => if decide (k ∈ dvals (rf_scopes f)) then g st else st) (rf_heap f) sid) as E.
  rewrite H in E. eexists. split; [exact E|]. case_decide; [apply Hg|apply rtc_refl].
Qed.

Lemma on_scope_mutates sid g f : (forall st, rtc mutation st (g st)) -> mutates f (on_scope sid g f).
Proof.
  intros Hg k st H. unfold on_scope. destruct (dget sid (rf_heap f)) as [st0|] eqn:E; [|by apply mutates_refl].
  simpl. rewrite dget_dset. case_decide as Hk; [|exists st; split; [done|apply rtc_refl]].
  subst. rewrite E in H. injection H as ->. eexists. split; [done|apply Hg].
Qed.

Lemma mutation_if (b : bool) g st : (forall st, mutation st (g st)) -> rtc mutation st (if b then g st else st).
Proof. intros H. destruct b; [apply rtc_once, H|apply rtc_refl]. Qed.

Lemma history_changed_mutates h previous current f : mutates f (history_changed h previous current f).
Proof.
  unfold history_changed. set (f1 := set_history_refs _ f). eapply mutates_trans; [by apply (same_heap_mutates f f1)|].
  generalize (filter (fun rid => rid ∉ dkeys current) (dkeys previous)). intros l. clearbody f1. revert f1.
  induction l as [|rid l IH]; intros f1; simpl; [apply mutates_refl|]. eapply mutates_trans; [|apply IH].
  destruct (referenced rid f1); [apply mutates_refl|]. apply on_scopes_mutates. intros st. apply mutation_if. intros. apply mu_drop.
Qed.

Lemma open_scope_mutates key q uuid f : dget uuid (rf_heap f) = None -> mutates f (open_scope key q uuid f).1.
Proof.
  intros Hn. assert (Hc : forall f', rf_heap f' = rf_heap f ->
    mutates f (RFiles (dset uuid (new_scope_state q uuid) (rf_heap f')) (dset key uuid (rf_scopes f')) (rf_calls f') (rf_history_refs f'))).
  { intros f' E sid st H. exists st. simpl. rewrite E, dget_dset_ne by congruence. split; [done|apply rtc_refl]. }
  unfold open_scope. destruct (scope_of_key key f) as [st|]; [|by apply Hc].
  destruct (_ && _); [|apply mutates_refl]. by apply (Hc (RFiles (rf_heap f) _ _ _)).
Qed.

Lemma commit_mutates delivery rid f f' :
  (forall sid st, dget sid (rf_heap f) = Some st -> rs_scope st = sid) -> commit delivery rid f = Ok f' -> mutates f f'.
Proof.
  intros Hid. unfold commit. destruct (jor _ _) as [| | | | |remote]; try done.
  destruct (find _ (scope_values f)) as [st|] eqn:Ef; [|done]. intros H. apply raise_if_ok in H as [_ H].
  destruct (dget "operation_id" remote) as [[| | |oid| |]|]; try done.
  apply rbind_ok in H as (st' & Hc & H). injection H as <-.
  apply find_some in Ef as [Hin _]. apply list_elem_of_In in Hin. unfold scope_values in Hin.
  apply list_elem_of_omap in Hin as (sid & _ & Hsid).
  intros k s Hk. unfold on_scope. rewrite (Hid _ _ Hsid), Hsid. simpl. rewrite dget_dset. case_decide as E.
  - subst. rewrite Hsid in Hk. injection Hk as ->. exists st'. split; [done|]. eapply rtc_once, mu_commit, Hc.
  - exists s. split; [done|apply rtc_refl].
Qed.

(** One call of a method.  A new scope gets an identifier that no object has. *)
Inductive method : RemoteFiles -> RemoteFiles -> Prop :=
| me_visible f lifetime v : method f (project lifetime v f)
| me_unbind f h : method f (unbind_history h f)
| me_bind f h refs : method f (bind_history h refs f)
| me_changed f h previous current : method f (history_changed h previous current f)
| me_commit f delivery rid f' : commit delivery rid f = Ok f' -> method f f'
| me_acknowledge f call_id : method f (acknowledge call_id f)
| me_discard f call_id : method f (discard call_id f)
| me_retire f lifetime rids : method f (retire lifetime rids f)
| me_retire_scope f lifetime : method f (retire_scope lifetime f)
| me_reconcile f : method f (reconcile_restored_history f)
| me_close f : method f (close_files f)
| me_open f key q uuid : dget uuid (rf_heap f) = None -> method f (open_scope key q uuid f).1
| me_call f call_id key oid turn : method f (record_call call_id key oid turn f).

Definition heap_ok (f : RemoteFiles) : Prop := forall sid st, dget sid (rf_heap f) = Some st -> rs_scope st = sid.

Lemma discard_mutates call_id f : mutates f (discard call_id f).
Proof.
  unfold discard. destruct (dget call_id (rf_calls f)) as [c|]; [|apply mutates_refl].
  destruct (dget (ca_key c) (rf_scopes f)); [|apply mutates_refl]. apply on_scope_mutates. intros. apply rtc_once, mu_discard.
Qed.

Lemma retire_scope_mutates lifetime f : mutates f (retire_scope lifetime f).
Proof.
  apply on_scopes_mutates. intros st. destruct (_ || _); [apply rtc_refl|apply rtc_once, mu_close].
Qed.

Lemma method_mutates f f' : heap_ok f -> method f f' -> mutates f f'.
Proof.
  intros Hok Hm. revert Hok.
  destruct Hm as [g lifetime v|g h|g h refs|g h p c|g delivery rid g' H|g c|g c|g l rids|g l|g|g|g key q u H|g c k o t]; intros Hok.
  - apply on_scopes_mutates. intros st. apply mutation_if. intros. apply mu_visible.
  - eapply mutates_trans; [|apply on_scopes_mutates; intros; apply rtc_once, mu_drop]. by apply same_heap_mutates.
  - unfold bind_history. destruct (dmem h _); [apply mutates_refl|by apply same_heap_mutates].
  - apply history_changed_mutates.
  - by eapply commit_mutates.
  - apply discard_mutates.
  - apply discard_mutates.
  - apply on_scopes_mutates. intros st. apply mutation_if. intros. apply mu_drop.
  - apply retire_scope_mutates.
  - apply on_scopes_mutates. intros. apply rtc_once, mu_reconcile.
  - eapply mutates_trans; [apply retire_scope_mutates|]. by apply same_heap_mutates.
  - by apply open_scope_mutates.
  - by apply same_heap_mutates.
Qed.

(** What mutations leave alone, and what they do to the revision. *)
Lemma mutations_revise st st' :
  rtc mutation st st' ->
  rs_scope st' = rs_scope st /\ rs_unresolved st' = rs_unresolved st /\ rs_revision st <= rs_revision st' /\
  (rs_revision st' = rs_revision st -> content_of st' = content_of st).
Proof.
  induction 1 as [|a b c [->|(k & ->)]%mutation_revises _ IH]; [done|done|]. cbn in IH. destruct IH as (? & ? & ? & ?).
  split_and!; [done|done|lia|lia].
Qed.

(** Objects are created by [execute] only, under their own identifier. *)
Lemma method_heap f f' sid st' :
  method f f' -> dget sid (rf_heap f') = Some st' -> is_Some (dget sid (rf_heap f)) \/ rs_scope st' = sid.
Proof.
  assert (Hon : forall g f0, is_Some (dget sid (rf_heap (on_scopes g f0))) -> is_Some (dget sid (rf_heap f0))).
  { intros g f0. unfold on_scopes, set_heap. cbn [rf_heap].
    pose proof (dget_fmap (fun k st => if decide (k ∈ dvals (rf_scopes f0)) then g st else st) (rf_heap f0) sid) as E.
    cbv beta in E. intros H. unfold is_Some in *. setoid_rewrite E in H. destruct (dget sid (rf_heap f0)); [by eexists|by destruct H]. }
  assert (Hone : forall k g f0, is_Some (dget sid (rf_heap (on_scope k g f0))) -> is_Some (dget sid (rf_heap f0))).
  { intros k g f0. unfold on_scope. destruct (dget k (rf_heap f0)) eqn:E; [|done]. simpl. rewrite dget_dset.
    case_decide; [subst; by rewrite E|done]. }
  intros Hm Hst. assert (Hs : is_Some (dget sid (rf_heap f'))) by (by rewrite Hst). revert Hs Hst.
  destruct Hm as [g lifetime v|g h|g h refs|g h p c|g delivery rid g' H|g c|g c|g l rids|g l|g|g|g key q u H|g c k o t]; intros Hs Hst.
  - left. by eapply Hon.
  - left. apply Hon in Hs. exact Hs.
  - left. unfold bind_history in Hs. by destruct (dmem h _).
  - left. unfold history_changed in Hs. revert Hs. generalize (filter (fun rid => rid ∉ dkeys c) (dkeys p)). intros l.
    change (rf_heap g) with (rf_heap (set_history_refs (dset h c (rf_history_refs g)) g)).
    generalize (set_history_refs (dset h c (rf_history_refs g)) g). clear -Hon. induction l as [|rid l IH]; intros f0; simpl; [done|].
    intros Hs. apply IH in Hs. destruct (referenced rid f0); [done|]. by eapply Hon.
  - left. unfold commit in H. destruct (jor _ _) as [| | | | |remote]; try done.
    destruct (find _ (scope_values g)) as [st|]; [|done]. apply raise_if_ok in H as [_ H].
    destruct (dget "operation_id" remote) as [[| | |oid| |]|]; try done. apply rbind_ok in H as (st1 & _ & H). injection H as <-.
    by eapply Hone.
  - left. unfold acknowledge, discard in Hs. destruct (dget c (rf_calls g)) as [x|]; [|done].
    destruct (dget (ca_key x) (rf_scopes g)); [by eapply Hone|done].
  - left. unfold discard in Hs. destruct (dget c (rf_calls g)) as [x|]; [|done].
    destruct (dget (ca_key x) (rf_scopes g)); [by eapply Hone|done].
  - left. by eapply Hon.
  - left. by eapply Hon.
  - left. by eapply Hon.
  - left. change (rf_heap (close_files g)) with (rf_heap (retire_scope None g)) in Hs. by eapply Hon.
  - assert (Hc : forall sc ca hi, dget sid (rf_heap (RFiles (dset u (new_scope_state q u) (rf_heap g)) sc ca hi)) = Some st' ->
              is_Some (dget sid (rf_heap g)) \/ rs_scope st' = sid).
    { intros sc ca hi. simpl. rewrite dget_dset. case_decide as E; [intros [= <-]; right; by subst|]. intros ->. left. by eexists. }
    unfold open_scope in Hst. destruct (scope_of_key key g) as [st|]; [|by eapply Hc].
    destruct (_ && _); [by eapply Hc|]. left. simpl in Hst. by rewrite Hst.
  - left. exact Hs.
Qed.

Lemma methods_heap_ok f : rtc method new_remote_files f -> heap_ok f.
Proof.
  intros H. apply (rtc_ind_r (R := method) heap_ok new_remote_files); [by intros sid st| |exact H].
  intros g h _ Hs IH sid st' Hst.
  destruct (method_heap _ _ _ _ Hs Hst) as [(st & Hst0)|]; [|done].
  destruct (method_mutates g h IH Hs sid st Hst0) as (st1 & Hst1 & Hm). rewrite Hst1 in Hst. injection Hst as ->.
  destruct (mutations_revise _ _ Hm) as (-> & _). by apply IH.
Qed.

(** Every change of a scope is revised.  In every state the class can reach, whatever
    method runs, each scope object is still there afterwards with its identity and its
    unresolved operations, its revision has not gone back, and if its revision is the
    same, so are the live results, the pending operations, the visible results and the
    closed flag: a worker that has acknowledged the current revision knows it all. *)
Theorem changes_are_revised f f' sid st :
  rtc method new_remote_files f -> method f f' -> dget sid (rf_heap f) = Some st ->
  exists st', dget sid (rf_heap f') = Some st' /\ rs_scope st' = sid /\ rs_unresolved st' = rs_unresolved st /\
    rs_revision st <= rs_revision st' /\ (rs_revision st' = rs_revision st -> content_of st' = content_of st).
Proof.
  intros Hr Hm Hst. pose proof (methods_heap_ok f Hr) as Hok.
  destruct (method_mutates f f' Hok Hm sid st Hst) as (st' & Hst' & H). exists st'.
  destruct (mutations_revise _ _ H) as (-> & ? & ? & ?). split_and!; auto.
Qed.

Definition demo_request : file_request :=
  FileRequest false true true (Route 1 "host" "b" "w") (JInt 1) (JStr "w") "e" "turn" "life".
Definition demo_opened : RemoteFiles := (open_scope "k" demo_request "w" new_remote_files).1.

Lemma changes_are_revised_witness :
  exists st, dget "w" (rf_heap (retire_scope None demo_opened)) = Some st /\ 0 <= rs_revision st.
Proof.
  destruct (changes_are_revised demo_opened (retire_scope None demo_opened) "w" (new_scope_state demo_request "w"))
    as (st & H1 & _ & _ & H2 & _).
  - eapply rtc_l; [|apply rtc_refl]. by apply me_open.
  - apply me_retire_scope.
  - vm_compute. reflexivity.
  - exists st. split; [exact H1|exact H2].
Defined.

(** ** One scope, its worker and the network *)

(** Why a synchronization runs: in the background, or for an operation. *)
Inductive purpose := Background | ForOperation (oid : string).

(** The coroutine that holds the scope's lock, at the await where it stands. *)
Inductive holder :=
| H_loop (p : purpose)                    (* [_sync]: the releases before the head of its loop *)
| H_sync (p : purpose) (revision : Z)     (* [_sync]: the message of [revision] is out *)
| H_upload (oid : string) (revision : Z)  (* [execute]: the upload of its value *)
| H_dispatched (oid : string)             (* [execute]: [file_execute] and its query *)
| H_query (oid : string).                 (* [execute]: the receipt of an unresolved operation *)

Record system := Sys {
  sy_host : FileScope;
  sy_holder : option holder;
  sy_files : fs;
  sy_registry : FileRegistry;
  sy_sent : list (Z * content);             (* synchronizations on the network *)
  sy_acks : list Z;                         (* revisions the worker has confirmed *)
  sy_calls : list (string * Z);             (* executions on the network *)
  (* history *)
  sy_past : list (Z * content);             (* what the host has ever meant by a revision *)
  sy_dispatched : list (string * Z * content);
  sy_executed : list (string * Z * dict string json * option (list string))
}.

Section scope_runs.
Variable name : string.                     (* state['scope'] *)

Definition set_host (st : FileScope) (s : system) : system :=
  Sys st (sy_holder s) (sy_files s) (sy_registry s) (sy_sent s) (sy_acks s) (sy_calls s)
    ((rs_revision st, content_of st) :: sy_past s) (sy_dispatched s) (sy_executed s).
Definition set_holder (h : option holder) (s : system) : system :=
  Sys (sy_host s) h (sy_files s) (sy_registry s) (sy_sent s) (sy_acks s) (sy_calls s) (sy_past s) (sy_dispatched s) (sy_executed s).
Definition send_sync (s : system) : system :=
  Sys (sy_host s) (sy_holder s) (sy_files s) (sy_registry s)
    ((rs_revision (sy_host s), content_of (sy_host s)) :: sy_sent s) (sy_acks s) (sy_calls s) (sy_past s)
    (sy_dispatched s) (sy_executed s).

(** The head of the loop of [_sync], and what follows it. *)
Definition sync_loop (p : purpose) (s : system) : system :=
  let st := sy_host s in
  if decide (rs_acked st = rs_revision st)
  then set_holder (match p with Background => None | ForOperation oid => Some (H_upload oid (rs_revision st)) end) s
  else set_holder (Some (H_sync p (rs_revision st))) (send_sync s).

(** [execute] once it has the lock. *)
Definition start_execute (oid : string) (visible : option (list string)) (s : system) : system :=
  let s := set_host (_set_visible visible (sy_host s)) s in
  match rs_unresolved (sy_host s) with
  | (old, _) :: _ => set_holder (Some (H_query old)) s
  | [] => set_holder (Some (H_loop (ForOperation oid))) (set_host (begin_operation oid (sy_host s)) s)
  end.

(** An exception in [_sync] or in the upload. *)
Definition sync_failed (p : purpose) (s : system) : system :=
  match p with
  | Background => set_holder None s
  | ForOperation oid => set_holder None (set_host (discard_operation oid (sy_host s)) s)
  end.

(** The upload has arrived: dispatch, unless the scope has changed meanwhile. *)
Definition uploaded (oid : string) (revision : Z) (info : obj) (s : system) : system :=
  let st := sy_host s in
  if decide (revision = rs_revision st) then
    let s := set_host (set_unresolved (dset oid info (rs_unresolved st)) st) s in
    Sys (sy_host s) (Some (H_dispatched oid)) (sy_files s) (sy_registry s) (sy_sent s) (sy_acks s)
      ((oid, revision) :: sy_calls s) (sy_past s) ((oid, revision, content_of st) :: sy_dispatched s) (sy_executed s)
  else sync_failed (ForOperation oid) s.

(** The operation was refused before it started, or its receipt has arrived ([staged]: with
    a manifest). *)
Definition settled (oid : string) (staged : bool) (s : system) : system :=
  let st := set_unresolved (ddel oid (rs_unresolved (sy_host s))) (sy_host s) in
  set_holder None (set_host (if staged then st else discard_operation oid st) s).

(** The worker takes one synchronization off the network. *)
Definition process_sync (revision : Z) (c : content) (s : system) : system :=
  let '(r, out) := call_sync (sync_value name revision c) (sy_registry s) in
  Sys (sy_host s) (sy_holder s) (sy_files s) r (sy_sent s)
    (match out with Ok rev => rev :: sy_acks s | Raise _ => sy_acks s end) (sy_calls s) (sy_past s) (sy_dispatched s) (sy_executed s).

(** The worker takes one execution off the network; it counts when the registry admits it. *)
Definition process_execute (ev : exec_env) (oid : string) (revision : Z) (action : string) (args : json) (s : system) : system :=
  let '(d, (r, _)) := execute ev (JStr name) (JInt revision) oid action args (sy_files s) (sy_registry s) in
  let log := match dget name (rg_scopes (sy_registry s)) with
             | Some st => match admits st revision oid args with
                          | Ok _ => [(oid, revision, sco_live st, sco_visible st)]
                          | Raise _ => []
                          end
             | None => []
             end in
  Sys (sy_host s) (sy_holder s) d r (sy_sent s) (sy_acks s) (sy_calls s) (sy_past s) (sy_dispatched s) (log ++ sy_executed s).

Inductive scope_step : system -> system -> Prop :=
| ss_mutate s st : mutation (sy_host s) st -> scope_step s (set_host st s)
| ss_background s : sy_holder s = None -> scope_step s (set_holder (Some (H_loop Background)) s)
| ss_execute s oid visible : sy_holder s = None -> scope_step s (start_execute oid visible s)
| ss_synced s p revision :
    sy_holder s = Some (H_sync p revision) -> revision ∈ sy_acks s ->
    scope_step s (set_holder (Some (H_loop p)) (set_host (set_acked revision (sy_host s)) s))
| ss_loop s p : sy_holder s = Some (H_loop p) -> scope_step s (sync_loop p s)
| ss_loop_failed s p : sy_holder s = Some (H_loop p) -> scope_step s (sync_failed p s)
| ss_sync_failed s p revision : sy_holder s = Some (H_sync p revision) -> scope_step s (sync_failed p s)
| ss_uploaded s oid revision info :
    sy_holder s = Some (H_upload oid revision) -> scope_step s (uploaded oid revision info s)
| ss_upload_failed s oid revision :
    sy_holder s = Some (H_upload oid revision) -> scope_step s (sync_failed (ForOperation oid) s)
| ss_settled s oid staged : sy_holder s = Some (H_dispatched oid) -> scope_step s (settled oid staged s)
| ss_unknown s oid : sy_holder s = Some (H_dispatched oid) -> scope_step s (set_holder None s)
| ss_recovered s oid :
    sy_holder s = Some (H_query oid) -> scope_step s (set_holder None (set_host (recovered oid (sy_host s)) s))
| ss_query_failed s oid : sy_holder s = Some (H_query oid) -> scope_step s (set_holder None s)
| ss_worker_sync s revision c : (revision, c) ∈ sy_sent s -> scope_step s (process_sync revision c s)
| ss_worker_execute s ev oid revision action args :
    (oid, revision) ∈ sy_calls s -> scope_step s (process_execute ev oid revision action args s)
| ss_worker_other s d r :
    dget name (rg_scopes r) = dget name (rg_scopes (sy_registry s)) ->
    scope_step s (Sys (sy_host s) (sy_holder s) d r (sy_sent s) (sy_acks s) (sy_calls s) (sy_past s) (sy_dispatched s) (sy_executed s)).

Definition initial (q : file_request) (d : fs) (r : FileRegistry) : system :=
  let st := new_scope_state q name in Sys st None d r [] [] [] [(rs_revision st, content_of st)] [] [].
(** ** The invariant *)

(** The registry's scope holds what the host meant by the scope's revision. *)
Definition agrees (past : list (Z * content)) (st : _Scope) : Prop :=
  sco_revision st = -1 \/
  exists c, (sco_revision st, c) ∈ past /\ sco_live st = cn_live c /\ sco_visible st = cn_visible c /\ sco_closed st = cn_closed c.

(** While an operation is being prepared nothing is unresolved; a dispatched or recovered
    operation is the only unresolved one. *)
Definition lock_ok (h : option holder) (u : dict string obj) : Prop :=
  match h with
  | Some (H_loop (ForOperation _)) | Some (H_sync (ForOperation _) _) | Some (H_upload _ _) => u = []
  | Some (H_dispatched oid) | Some (H_query oid) => exists info, u = [(oid, info)]
  | _ => (length u <= 1)%nat
  end.

Definition scope_inv (s : system) : Prop :=
  (forall r c c', (r, c) ∈ sy_past s -> (r, c') ∈ sy_past s -> c = c') /\
  (rs_revision (sy_host s), content_of (sy_host s)) ∈ sy_past s /\
  (forall r c, (r, c) ∈ sy_past s -> 0 <= r <= rs_revision (sy_host s)) /\
  (forall m, m ∈ sy_sent s -> m ∈ sy_past s) /\
  (forall oid r c, (oid, r, c) ∈ sy_dispatched s -> (r, c) ∈ sy_past s) /\
  (forall oid r, (oid, r) ∈ sy_calls s -> exists c, (oid, r, c) ∈ sy_dispatched s) /\
  (forall st, dget name (rg_scopes (sy_registry s)) = Some st -> agrees (sy_past s) st) /\
  (forall oid r live visible, (oid, r, live, visible) ∈ sy_executed s ->
     exists c, (oid, r, c) ∈ sy_dispatched s /\ live = cn_live c /\ visible = cn_visible c /\ cn_closed c = false) /\
  lock_ok (sy_holder s) (rs_unresolved (sy_host s)).

(** *** Changes of the host *)

Lemma agrees_more past past' st : (forall m, m ∈ past -> m ∈ past') -> agrees past st -> agrees past' st.
Proof. intros H [?|(c & Hc & ?)]; [by left|right]. exists c. split; [by apply H|done]. Qed.

(** The host keeps its content, or gets a new revision. *)
Definition host_change (st st' : FileScope) : Prop :=
  (rs_revision st' = rs_revision st /\ content_of st' = content_of st) \/ rs_revision st' = rs_revision st + 1.

Lemma set_host_inv s st h :
  scope_inv s -> host_change (sy_host s) st -> lock_ok h (rs_unresolved st) -> scope_inv (set_holder h (set_host st s)).
Proof.
  intros (Hfun & Hcur & Hmax & Hsent & Hdis & Hcalls & Hreg & Hexec & _) Hch Hlock.
  assert (Hnew : forall r c, (r, c) ∈ (rs_revision st, content_of st) :: sy_past s ->
            (r, c) ∈ sy_past s \/ (rs_revision st = rs_revision (sy_host s) + 1 /\ r = rs_revision st /\ c = content_of st)).
  { intros r c [H|H]%elem_of_cons; [injection H as -> ->|by left]. destruct Hch as [(-> & ->)|E]; [by left|by right]. }
  assert (Hb : rs_revision (sy_host s) <= rs_revision st) by (destruct Hch as [(-> & _)| ->]; lia).
  unfold scope_inv. cbn. split_and!; try done.
  - intros r c c' [H1|(E1 & -> & ->)]%Hnew [H2|(E2 & E3 & ->)]%Hnew; [by eapply Hfun| | |done].
    + apply Hmax in H1. lia.
    + apply Hmax in H2. lia.
  - left.
  - intros r c [H|(E & -> & ->)]%Hnew; [apply Hmax in H; lia|]. apply Hmax in Hcur. lia.
  - intros m Hm. right. by apply Hsent.
  - intros oid r c H. right. by eapply Hdis.
  - intros st0 Hst. eapply agrees_more; [|by apply Hreg]. intros m Hm. by right.
Qed.

Lemma set_host_only s st :
  scope_inv s -> host_change (sy_host s) st -> lock_ok (sy_holder s) (rs_unresolved st) -> scope_inv (set_host st s).
Proof. intros Hi Hc Hl. exact (set_host_inv s st (sy_holder s) Hi Hc Hl). Qed.

Lemma set_holder_inv s h : scope_inv s -> lock_ok h (rs_unresolved (sy_host s)) -> scope_inv (set_holder h s).
Proof. intros (H1 & H2 & H3 & H4 & H5 & H6 & H7 & H8 & _) Hl. by split_and!. Qed.

Lemma send_sync_inv s : scope_inv s -> scope_inv (send_sync s).
Proof.
  intros (H1 & H2 & H3 & H4 & H5 & H6 & H7 & H8 & H9). split_and!; try done.
  intros m [->|Hm]%elem_of_cons; [done|by apply H4].
Qed.

Lemma mutation_change st st' : mutation st st' -> host_change st st' /\ rs_unresolved st' = rs_unresolved st.
Proof. intros [->|(c & ->)]%mutation_revises; (split; [|done]); [by left|by right]. Qed.

Lemma lock_free h u : lock_ok h u -> (length u <= 1)%nat.
Proof. destruct h as [[[]|[] ?| | |]|]; simpl; try done; try (by intros ->; simpl; lia); intros (? & ->); simpl; lia. Qed.

Lemma sync_loop_inv s p : scope_inv s -> lock_ok (Some (H_loop p)) (rs_unresolved (sy_host s)) -> scope_inv (sync_loop p s).
Proof.
  intros Hi Hl. unfold sync_loop. case_decide.
  - apply set_holder_inv; [done|]. by destruct p.
  - apply (set_holder_inv (send_sync s)); [by apply send_sync_inv|]. by destruct p.
Qed.

Lemma discard_change oid st : host_change st (discard_operation oid st) /\ rs_unresolved (discard_operation oid st) = rs_unresolved st.
Proof. apply mutation_change, mu_discard. Qed.

Lemma sync_failed_inv s p : scope_inv s -> scope_inv (sync_failed p s).
Proof.
  intros Hi. pose proof (lock_free _ _ (proj2 (proj2 (proj2 (proj2 (proj2 (proj2 (proj2 (proj2 Hi))))))))) as Hl.
  destruct p as [|oid]; simpl; [by apply set_holder_inv|]. destruct (discard_change oid (sy_host s)) as [Hc Hu].
  apply set_host_inv; [done|done|]. simpl. by rewrite Hu.
Qed.

(** *** The worker *)

Lemma text_list_spec l : forall v, text_list (JStr <$> l) = Some v -> v = l.
Proof.
  induction l as [|x l IH]; intros v; [by intros [= <-]|].
  change (text_list (JStr <$> x :: l)) with (if str_truthy x then cons x <$> text_list (JStr <$> l) else None).
  destruct (str_truthy x); [|done].
  destruct (text_list (JStr <$> l)) as [v'|] eqn:E; [|done]. simpl. intros [= <-]. f_equal. by apply IH.
Qed.

Lemma sync_value_call revision c :
  call_sync (sync_value name revision c) =
    sync (JStr name) (JInt revision) (JObj (cn_live c)) (JList (JStr <$> cn_pending c)) (JBool (cn_closed c)) (visible_json (cn_visible c)).
Proof. reflexivity. Qed.

Lemma sync_value_arguments revision c a :
  sync_arguments (JInt revision) (JObj (cn_live c)) (JList (JStr <$> cn_pending c)) (JBool (cn_closed c)) (visible_json (cn_visible c)) = Some a ->
  sy_revision a = revision /\ sy_live a = cn_live c /\ sy_closed a = cn_closed c /\ sy_visible a = cn_visible c.
Proof.
  unfold sync_arguments. destruct (revision <? 0); [done|]. destruct (text_list (JStr <$> cn_pending c)) as [p|]; [|done].
  destruct (cn_visible c) as [v|]; cbn [visible_json]; [|by intros [= <-]].
  destruct (text_list (JStr <$> v)) as [v'|] eqn:E; [|done]. intros [= <-]. by rewrite (text_list_spec _ _ E).
Qed.

Lemma process_sync_scope revision c r :
  forall st', dget name (rg_scopes (call_sync (sync_value name revision c) r).1) = Some st' ->
  dget name (rg_scopes r) = Some st' \/ sco_revision st' = -1 \/
  (sco_revision st' = revision /\ sco_live st' = cn_live c /\ sco_visible st' = cn_visible c /\ sco_closed st' = cn_closed c).
Proof.
  rewrite sync_value_call. intros st'. unfold sync, sbind at 1. destruct (_scope (JStr name) r) as [r1 x] eqn:Es.
  apply scope_lookup in Es. destruct x as [[n st]|e]; [|subst; simpl; by left]. destruct Es as ([= <-] & Hst & Hr1).
  assert (Hold : forall s, dget name (rg_scopes r1) = Some s -> dget name (rg_scopes r) = Some s \/ sco_revision s = -1).
  { intros s Hs. destruct Hr1 as [->|(_ & -> & _)]; [by left|]. rewrite Hst in Hs. injection Hs as <-. by right. }
  destruct (sync_arguments _ _ _ _ _) as [a|] eqn:Ea; [|intros H; destruct (Hold _ H) as [?|?]; auto].
  apply sync_value_arguments in Ea as (E1 & E2 & E3 & E4). unfold sbind, slift.
  destruct (sync_scope name st a _) as [st1|e] eqn:Ess; [|intros H; destruct (Hold _ H) as [?|?]; auto].
  simpl. rewrite dget_dset_eq. intros [= <-].
  apply sync_scope_cases in Ess as [->|(ctx & b0 & b & _ & _ & _ & _ & _ & ->)].
  - destruct (Hold _ Hst) as [?|?]; auto.
  - right. right. by split_and!.
Qed.

Lemma process_sync_inv s revision c : (revision, c) ∈ sy_sent s -> scope_inv s -> scope_inv (process_sync revision c s).
Proof.
  intros Hin (H1 & H2 & H3 & H4 & H5 & H6 & H7 & H8 & H9). unfold process_sync.
  pose proof (process_sync_scope revision c (sy_registry s)) as Hs.
  destruct (call_sync _ _) as [r out]. split_and!; try done. cbn in *. intros st Hst.
  destruct (Hs st Hst) as [Hold|[Hnew|(E1 & E2 & E3 & E4)]]; [by apply H7|by left|].
  right. exists c. rewrite E1. split_and!; [by apply H4|done..].
Qed.

(** An execution leaves the scope's revision, live results and visibility alone. *)
Lemma execute_scope_frame ev n st rev oid action args d :
  let st' := (execute_scope ev n st rev oid action args d).2.1 in
  sco_revision st' = sco_revision st /\ sco_live st' = sco_live st /\ sco_visible st' = sco_visible st /\ sco_closed st' = sco_closed st.
Proof.
  unfold execute_scope. destruct (admits st rev oid args) as [a|]; [|done].
  destruct (context n (sco_backend st)) as [b [ctx|]]; [|done]. destruct (action_of action); [|done].
  destruct (run_tool _ _ _ _ _ _) as [d' [c r]]. destruct r as [res|[]]; try done. simpl.
  unfold stage. by destruct (cr_context_delivery res) as [[|]|].
Qed.

Lemma process_execute_scope ev oid rev action args d r st' :
  dget name (rg_scopes (execute ev (JStr name) (JInt rev) oid action args d r).2.1) = Some st' ->
  sco_revision st' = -1 \/
  exists st, dget name (rg_scopes r) = Some st /\ sco_revision st' = sco_revision st /\ sco_live st' = sco_live st /\
             sco_visible st' = sco_visible st /\ sco_closed st' = sco_closed st.
Proof.
  unfold execute. destruct (_scope (JStr name) r) as [r1 x] eqn:Es. apply scope_lookup in Es.
  destruct x as [[n st]|e]; [|subst; simpl; intros H; right; by exists st']. destruct Es as ([= <-] & Hst & Hr1).
  pose proof (execute_scope_frame ev name st rev oid action args d) as Hf.
  destruct (execute_scope ev name st rev oid action args d) as [d' [st1 out]]. simpl in *.
  rewrite dget_dset_eq. intros [= <-]. destruct Hf as (E1 & E2 & E3 & E4).
  destruct Hr1 as [->|(_ & -> & _)]; [right; by exists st|left; by rewrite E1].
Qed.

Lemma process_execute_inv s ev oid rev action args :
  (oid, rev) ∈ sy_calls s -> scope_inv s -> scope_inv (process_execute ev oid rev action args s).
Proof.
  intros Hin (H1 & H2 & H3 & H4 & H5 & H6 & H7 & H8 & H9). unfold process_execute.
  pose proof (process_execute_scope ev oid rev action args (sy_files s) (sy_registry s)) as Hs.
  destruct (execute _ _ _ _ _ _ _ _) as [d [r out]]. cbn in Hs. split_and!; try done; cbn.
  - intros st Hst. destruct (Hs st Hst) as [?|(st0 & Hst0 & E1 & E2 & E3 & E4)]; [by left|].
    unfold agrees. rewrite E1, E2, E3, E4. by apply H7.
  - intros o r0 live visible [Hlog|Hold]%elem_of_app; [|by apply H8].
    destruct (dget name (rg_scopes (sy_registry s))) as [st|] eqn:Est; [|by apply elem_of_nil in Hlog].
    destruct (admits st rev oid args) as [a|] eqn:Ea; [|by apply elem_of_nil in Hlog].
    apply list_elem_of_singleton in Hlog. injection Hlog as -> -> -> ->.
    apply admits_ok in Ea as (Hc & Hrev & _ & _). destruct (H6 _ _ Hin) as (c & Hc0).
    pose proof (H5 _ _ _ Hc0) as Hpast. destruct (H7 _ eq_refl) as [E|(c' & Hp & E1 & E2 & E3)].
    + apply H3 in Hpast. lia.
    + rewrite <- Hrev in Hp. assert (c' = c) as -> by (by eapply H1). exists c. split_and!; congruence.
Qed.

Lemma uploaded_inv s oid revision info :
  sy_holder s = Some (H_upload oid revision) -> scope_inv s -> scope_inv (uploaded oid revision info s).
Proof.
  intros Hh Hi. unfold uploaded. case_decide as E; [|by apply sync_failed_inv].
  pose proof Hi as (_ & Hcur & _ & _ & _ & _ & _ & _ & Hl). rewrite Hh in Hl. simpl in Hl.
  set (st := set_unresolved _ _). assert (Hs : scope_inv (set_holder (Some (H_dispatched oid)) (set_host st s))).
  { apply set_host_inv; [done|by left|]. exists info. unfold st. simpl. by rewrite Hl. }
  destruct Hs as (H1 & H2 & H3 & H4 & H5 & H6 & H7 & H8 & H9). split_and!; try done; cbn in *.
  - intros o r c [H|H]%elem_of_cons; [|by eapply H5]. injection H as -> -> ->. right. by rewrite E.
  - intros o r [H|H]%elem_of_cons; [injection H as -> ->; eexists; left|]. destruct (H6 _ _ H) as (c & Hc). exists c. by right.
  - intros o r live visible H. destruct (H8 _ _ _ _ H) as (c & Hc & ?). exists c. split; [by right|done].
Qed.

Lemma settled_inv s oid staged : sy_holder s = Some (H_dispatched oid) -> scope_inv s -> scope_inv (settled oid staged s).
Proof.
  intros Hh Hi. pose proof Hi as (_ & _ & _ & _ & _ & _ & _ & _ & Hl). rewrite Hh in Hl. destruct Hl as (info & Hu).
  unfold settled. set (st := set_unresolved _ _). assert (Hst : host_change (sy_host s) st) by (by left).
  assert (Hnil : rs_unresolved st = []). { unfold st. simpl. rewrite Hu. unfold ddel. by rewrite filter_cons_False by (simpl; tauto). }
  destruct (discard_change oid st) as [Hc Hd]. apply set_host_inv; [done| |].
  - destruct staged; [done|]. destruct Hc as [[E1 E2]|E]; [by left; rewrite E1, E2|by right].
  - unfold lock_ok. destruct staged; rewrite ?Hd, Hnil; apply Nat.le_0_l.
Qed.

Lemma recovered_inv s oid :
  sy_holder s = Some (H_query oid) -> scope_inv s -> scope_inv (set_holder None (set_host (recovered oid (sy_host s)) s)).
Proof.
  intros Hh Hi. pose proof (settled_inv (set_holder (Some (H_dispatched oid)) s) oid false eq_refl) as H.
  apply H. apply set_holder_inv; [done|]. pose proof Hi as (_ & _ & _ & _ & _ & _ & _ & _ & Hl). by rewrite Hh in Hl.
Qed.

Lemma start_execute_inv s oid visible : sy_holder s = None -> scope_inv s -> scope_inv (start_execute oid visible s).
Proof.
  intros Hh Hi. pose proof Hi as (_ & _ & _ & _ & _ & _ & _ & _ & Hl). rewrite Hh in Hl.
  destruct (mutation_change _ _ (mu_visible visible (sy_host s))) as [Hc Hu]. unfold start_execute.
  set (s1 := set_host _ s). assert (Hi1 : scope_inv s1) by (apply set_host_only; [done|done|by rewrite Hh, Hu]).
  destruct (rs_unresolved (sy_host s1)) as [|[old info] u] eqn:E.
  - apply set_host_inv; [done|by right|]. simpl. exact E.
  - apply set_holder_inv; [done|]. rewrite E. simpl in Hl. unfold s1 in E. simpl in E. rewrite Hu in E. rewrite E in Hl.
    exists info. destruct u; [done|simpl in Hl; lia].
Qed.

Lemma scope_step_inv s s' : scope_step s s' -> scope_inv s -> scope_inv s'.
Proof.
  intros Hstep Hi. pose proof Hi as (_ & _ & _ & _ & _ & _ & _ & _ & Hl). destruct Hstep.
  - destruct (mutation_change _ _ H) as [Hc Hu]. apply set_host_only; [done|done|by rewrite Hu].
  - apply set_holder_inv; [done|]. by rewrite H in Hl.
  - by apply start_execute_inv.
  - apply set_host_inv; [done|by left|]. rewrite H in Hl. by destruct p.
  - apply sync_loop_inv; [done|]. by rewrite H in Hl.
  - by apply sync_failed_inv.
  - by apply sync_failed_inv.
  - by apply uploaded_inv.
  - by apply (sync_failed_inv s (ForOperation oid)).
  - by apply settled_inv.
  - apply set_holder_inv; [done|]. by eapply lock_free.
  - by apply recovered_inv.
  - apply set_holder_inv; [done|]. by eapply lock_free.
  - by apply process_sync_inv.
  - by apply process_execute_inv.
  - destruct Hi as (H1 & H2 & H3 & H4 & H5 & H6 & H7 & H8 & H9). split_and!; try done. cbn. rewrite H. exact H7.
Qed.

Lemma initial_inv q d r : dget name (rg_scopes r) = None -> scope_inv (initial q d r).
Proof.
  intros Hr. split_and!; cbn; try by intros; match goal with H : _ ∈ [] |- _ => apply elem_of_nil in H end.
  - intros r0 c c' H1%list_elem_of_singleton H2%list_elem_of_singleton. congruence.
  - left.
  - intros r0 c H%list_elem_of_singleton. injection H as -> _. lia.
  - intros st Hst. congruence.
  - lia.
Qed.

Lemma reachable_scope_inv q d r s : dget name (rg_scopes r) = None -> rtc scope_step (initial q d r) s -> scope_inv s.
Proof.
  intros Hr. remember (initial q d r) as s0 eqn:E. intros H. assert (Hi : scope_inv s0) by (subst; by apply initial_inv).
  clear E. induction H as [|a b c Hab _ IH]; [done|]. apply IH. by eapply scope_step_inv.
Qed.

(** C16: the worker executes under the authority the host dispatched with.  Whatever changes
    the host's scope, however messages are delayed, repeated or lost, whenever the
    registry admits an operation of the scope, the host had dispatched that operation at
    the same revision, and the live results, the visible results and the openness the
    registry then works with are exactly the host's at the moment of the dispatch. *)
Theorem executes_under_dispatched_authority q d r s oid revision live visible :
  dget name (rg_scopes r) = None -> rtc scope_step (initial q d r) s ->
  (oid, revision, live, visible) ∈ sy_executed s ->
  exists c, (oid, revision, c) ∈ sy_dispatched s /\ cn_live c = live /\ cn_visible c = visible /\ cn_closed c = false.
Proof.
  intros Hr H Hin. destruct (reachable_scope_inv q d r s Hr H) as (_ & _ & _ & _ & _ & _ & _ & He & _).
  destruct (He _ _ _ _ Hin) as (c & ? & -> & -> & ?). by exists c.
Qed.

(** File operations of a scope never overlap.  At most one operation is unresolved; while
    the next one is synchronized or uploaded none is; and the operation whose receipt is
    awaited is the unresolved one.  So an operation is only dispatched when the outcome
    of every earlier one is known. *)
Theorem one_operation_at_a_time q d r s :
  dget name (rg_scopes r) = None -> rtc scope_step (initial q d r) s ->
  (length (rs_unresolved (sy_host s)) <= 1)%nat /\
  match sy_holder s with
  | Some (H_upload _ _) | Some (H_sync (ForOperation _) _) => rs_unresolved (sy_host s) = []
  | Some (H_dispatched oid) | Some (H_query oid) => dkeys (rs_unresolved (sy_host s)) = [oid]
  | _ => True
  end.
Proof.
  intros Hr H. destruct (reachable_scope_inv q d r s Hr H) as (_ & _ & _ & _ & _ & _ & _ & _ & Hl).
  split; [by eapply lock_free|]. destruct (sy_holder s) as [[[]|[] ?| | |]|]; try done; destruct Hl as (info & ->); done.
Qed.
End scope_runs.

(** ** A concrete run *)

Definition demo_args : json := JObj [("file_path", JStr "/d/f")].
Definition run0 : system := initial "w" demo_request demo_fs (new_registry 8).
Definition run1 : system := start_execute "op" None run0.
Definition run2 : system := sync_loop (ForOperation "op") run1.
Definition run3 : system := process_sync "w" 1 (Content [] ["op"] false None) run2.
Definition run4 : system := set_holder (Some (H_loop (ForOperation "op"))) (set_host (set_acked 1 (sy_host run3)) run3).
Definition run5 : system := sync_loop (ForOperation "op") run4.
Definition run6 : system := uploaded "op" 1 [] run5.
Definition run7 : system := process_execute "w" demo_exec "op" 1 "read" demo_args run6.

Lemma run7_reachable : rtc (scope_step "w") run0 run7.
Proof.
  eapply rtc_l; [by apply (ss_execute "w" run0 "op" None)|].
  eapply rtc_l; [apply (ss_loop "w" run1 (ForOperation "op")); vm_compute; reflexivity|].
  eapply rtc_l; [apply (ss_worker_sync "w" run2 1 (Content [] ["op"] false None)); vm_compute; apply list_elem_of_here|].
  eapply rtc_l.
  { apply (ss_synced "w" run3 (ForOperation "op") 1); [vm_compute; reflexivity|]. vm_compute. apply list_elem_of_here. }
  eapply rtc_l; [apply (ss_loop "w" run4 (ForOperation "op")); vm_compute; reflexivity|].
  eapply rtc_l; [apply (ss_uploaded "w" run5 "op" 1 []); vm_compute; reflexivity|].
  eapply rtc_l; [|apply rtc_refl]. apply (ss_worker_execute "w" run6 demo_exec "op" 1 "read" demo_args).
  vm_compute. apply list_elem_of_here.
Qed.

Lemma executes_under_dispatched_authority_witness :
  ("op", 1, [], None) ∈ sy_executed run7 /\ exists c, ("op", 1, c) ∈ sy_dispatched run7 /\ cn_closed c = false.
Proof.
  assert (Hin : ("op", 1, [], None) ∈ sy_executed run7) by (vm_compute; apply list_elem_of_here). split; [done|].
  destruct (executes_under_dispatched_authority "w" demo_request demo_fs (new_registry 8) run7 "op" 1 [] None eq_refl run7_reachable Hin)
    as (c & Hc & _ & _ & Ho). by exists c.
Defined.

Lemma one_operation_at_a_time_witness :
  sy_holder run7 = Some (H_dispatched "op") /\ dkeys (rs_unresolved (sy_host run7)) = ["op"].
Proof.
  assert (Hh : sy_holder run7 = Some (H_dispatched "op")) by (vm_compute; reflexivity). split; [done|].
  destruct (one_operation_at_a_time "w" demo_request demo_fs (new_registry 8) run7 eq_refl run7_reachable) as [_ H].
  by rewrite Hh in H.
Defined.
