(* ===== verification/Router.v ===== *)
(** * The router of the host

    [pal_shell_native/router.py], class [ShellRouter]: the tickets of remote commands, the
    runtime epochs of the workers, and what the coroutines [_rpc], [_run_resolved],
    [privileged], [session_snapshot], [reconcile] and [_poll_target] do between their
    awaits.  The output cache ([materialize]) is in [OutputCache.v].

    A ticket is a mutable object that [self.operations] and [self.tickets] share; its
    identity is its operation, so the objects are kept in a heap indexed by operation. *)

From S2P Require Import Prelude Dict Utf8 Sha256 PyValue JsonText LifecycleTable Lifecycle.
Open Scope Z_scope.

(** ** Data *)

(** A result of a worker; absent counters are 0, an absent [output_id] is empty. *)
Record shell_result := ShellResult {
  sr_runtime_epoch : string;
  sr_status : string;
  sr_session_id : Z;
  sr_output_id : string;
  sr_execution_id : string;
  sr_snapshot : string;
  sr_watch_generation : Z;
  sr_event_sequence : Z;
  sr_stdout_total : Z;
  sr_stderr_total : Z;
  sr_watching : bool;
  sr_rest : obj                       (* keys the router only copies *)
}.

Definition observation_of (r : shell_result) : observation :=
  Observation (sr_watch_generation r) (sr_event_sequence r) (sr_status r) (sr_stdout_total r) (sr_stderr_total r).

Record Ticket := mkTicket {
  tk_target : Z;
  tk_epoch : string;
  tk_operation_id : string;
  tk_origin_turn : string;
  tk_native_id : Z;
  tk_output_id : string;
  tk_public_id : Z;
  tk_kind : string;
  tk_latest_result : option shell_result;
  tk_binding : string;
  tk_target_name : string
}.

(** An entry of [operation_context] or of [owner.sessions]; absent flags are false. *)
Record op_context := Context {
  cx_origin_turn : string;
  cx_transient : bool;
  cx_control : bool;
  cx_read_only : bool;
  cx_submitted : bool;
  cx_resolved : bool;
  cx_privileged : bool;
  cx_signed : bool;
  cx_latest_status : option string;
  cx_watching : bool;                 (* [get('watching', True)] *)
  cx_watch_generation : Z
}.

Definition empty_context : op_context := Context "" false false false false false false false None true 0.

(** A [RemoteFailure]. *)
Record failure := Failure { fl_code : string; fl_effect : string; fl_operation_id : string }.

(** The router's view of the workers. *)
Record epochs := Epochs {
  ep_sequence : Z;                                (* next(self.rpc_sequence) *)
  ep_observed : dict Z (Z * option string);       (* self.worker_epochs *)
  ep_retired : dict Z (list string)               (* self.retired_worker_epochs *)
}.

(** A result as [_adopt] returns it. *)
Record adopted := Adopted {
  ad_result : shell_result;
  ad_target : Z;
  ad_session_id : Z;
  ad_operation_id : string;
  ad_output_id : string
}.

Record completion := Completion { co_session_id : Z; co_origin_turn : string; co_result : adopted }.

Record Router := mkRouter {
  ro_epochs : epochs;
  ro_heap : dict string Ticket;
  ro_operations : list string;                    (* the keys of self.operations *)
  ro_context : dict string op_context;
  ro_tickets : dict Z string;                     (* public id to operation of the ticket *)
  ro_consumed : list Z;
  ro_next_id : Z;                                 (* next(self.remote_ids) *)
  ro_sessions : dict Z op_context;                (* owner.sessions *)
  ro_completions : dict Z completion;
  ro_cursors : dict (Z * string) Z
}.

Definition REMOTE_BASE : Z := 2 ^ 48.

Definition new_router : Router := mkRouter (Epochs 1 [] []) [] [] [] [] [] REMOTE_BASE [] [] [].

Definition set_epochs (e : epochs) (r : Router) : Router :=
  mkRouter e (ro_heap r) (ro_operations r) (ro_context r) (ro_tickets r) (ro_consumed r) (ro_next_id r) (ro_sessions r)
    (ro_completions r) (ro_cursors r).
Definition set_ticket (t : Ticket) (r : Router) : Router :=
  mkRouter (ro_epochs r) (dset (tk_operation_id t) t (ro_heap r)) (ro_operations r) (ro_context r) (ro_tickets r)
    (ro_consumed r) (ro_next_id r) (ro_sessions r) (ro_completions r) (ro_cursors r).
Definition set_context (oid : string) (c : op_context) (r : Router) : Router :=
  mkRouter (ro_epochs r) (ro_heap r) (ro_operations r) (dset oid c (ro_context r)) (ro_tickets r) (ro_consumed r)
    (ro_next_id r) (ro_sessions r) (ro_completions r) (ro_cursors r).
Definition set_session (sid : Z) (c : op_context) (r : Router) : Router :=
  mkRouter (ro_epochs r) (ro_heap r) (ro_operations r) (ro_context r) (ro_tickets r) (ro_consumed r) (ro_next_id r)
    (dset sid c (ro_sessions r)) (ro_completions r) (ro_cursors r).
Definition set_completions (d : dict Z completion) (r : Router) : Router :=
  mkRouter (ro_epochs r) (ro_heap r) (ro_operations r) (ro_context r) (ro_tickets r) (ro_consumed r) (ro_next_id r)
    (ro_sessions r) d (ro_cursors r).
Definition set_cursor (k : Z * string) (n : Z) (r : Router) : Router :=
  mkRouter (ro_epochs r) (ro_heap r) (ro_operations r) (ro_context r) (ro_tickets r) (ro_consumed r) (ro_next_id r)
    (ro_sessions r) (ro_completions r) (dset k n (ro_cursors r)).

(** [self.operations.pop(oid, None)] *)
Definition pop_operation (oid : string) (r : Router) : Router :=
  mkRouter (ro_epochs r) (ro_heap r) (filter (fun o => o <> oid) (ro_operations r)) (ro_context r) (ro_tickets r)
    (ro_consumed r) (ro_next_id r) (ro_sessions r) (ro_completions r) (ro_cursors r).
(** ... and [self.operation_context.pop(oid, None)]. *)
Definition pop_context (oid : string) (r : Router) : Router :=
  mkRouter (ro_epochs r) (ro_heap r) (ro_operations r) (ddel oid (ro_context r)) (ro_tickets r) (ro_consumed r)
    (ro_next_id r) (ro_sessions r) (ro_completions r) (ro_cursors r).
Definition drop_operation (oid : string) (r : Router) : Router := pop_context oid (pop_operation oid r).

(** [self.operations[oid] = ticket] with its context. *)
Definition register (t : Ticket) (c : op_context) (r : Router) : Router :=
  mkRouter (ro_epochs r) (dset (tk_operation_id t) t (ro_heap r))
    (filter (fun o => o <> tk_operation_id t) (ro_operations r) ++ [tk_operation_id t])
    (dset (tk_operation_id t) c (ro_context r)) (ro_tickets r) (ro_consumed r) (ro_next_id r) (ro_sessions r)
    (ro_completions r) (ro_cursors r).

Definition context_of (oid : string) (r : Router) : op_context := default empty_context (dget oid (ro_context r)).
Definition owned (oid : string) (r : Router) : bool := bool_decide (oid ∈ ro_operations r).
(** [self.operations.get(oid)] *)
Definition operation (oid : string) (r : Router) : option Ticket := if owned oid r then dget oid (ro_heap r) else None.
(** [self.operations.values()] *)
Definition operations (r : Router) : list Ticket := omap (fun oid => dget oid (ro_heap r)) (ro_operations r).

(** ** Worker epochs *)

Definition _observe_worker_epoch (target : Z) (epoch : string) (sequence : Z) (e : epochs) : epochs :=
  let observed := dget target (ep_observed e) in
  let retired := default [] (dget target (ep_retired e)) in
  let e := Epochs (ep_sequence e) (ep_observed e) (dsetdefault target [] (ep_retired e)) in
  let fresh := match observed with
               | None | Some (_, None) => true
               | Some (seq, Some _) => seq <=? sequence
               end in
  if bool_decide (epoch ∉ retired) && fresh then
    let retired' := match observed with
                    | Some (_, Some old) => if decide (old = epoch \/ old ∈ retired) then retired else old :: retired
                    | _ => retired
                    end in
    Epochs (ep_sequence e)
      (dset target (Z.max sequence (match observed with Some (seq, _) => seq | None => 0 end), Some epoch) (ep_observed e))
      (dset target retired' (ep_retired e))
  else e.

(** [sequence = next(self.rpc_sequence)] *)
Definition next_sequence (e : epochs) : epochs * Z :=
  (Epochs (ep_sequence e + 1) (ep_observed e) (ep_retired e), ep_sequence e).

(** One target of [list_targets]: its number and the epoch it reports. *)
Definition list_targets (items : list (Z * string)) (sequence : Z) (e : epochs) : epochs :=
  foldl (fun e p => _observe_worker_epoch p.1 p.2 sequence e) e items.

(** [_rpc] when the request failed. *)
Definition runtime_lost (t : Ticket) (sequence : Z) (e : epochs) : epochs :=
  let observed := dget (tk_target t) (ep_observed e) in
  if match observed with
     | None | Some (_, None) => true
     | Some (_, Some current) => bool_decide (current = tk_epoch t)
     end
  then
    let retired := default [] (dget (tk_target t) (ep_retired e)) in
    Epochs (ep_sequence e)
      (dset (tk_target t) (Z.max sequence (match observed with Some (seq, _) => seq | None => 0 end), None) (ep_observed e))
      (dset (tk_target t) (if decide (tk_epoch t ∈ retired) then retired else tk_epoch t :: retired) (ep_retired e))
  else e.

Definition rpc_failed (t : Ticket) (method : string) (sequence : Z) (exc : failure) (r : Router) : Router * failure :=
  let r := if bool_decide (fl_code exc = "runtime_changed") then set_epochs (runtime_lost t sequence (ro_epochs r)) r else r in
  (r, if bool_decide (method = "query") && bool_decide (fl_effect exc = "not_started") || bool_decide (method = "output")
      then Failure (fl_code exc) (if bool_decide (method = "output") then "applied" else "unknown") (tk_operation_id t)
      else exc).

(** ... and when it returned.  [same_port]: the router is open and its port is the one that
    was asked; [metadata]: the runtime epoch in the answer of a metadata request. *)
Definition rpc_returned (t : Ticket) (sequence : Z) (same_port : bool) (metadata : option string) (r : Router) : Router * res failure unit :=
  if same_port then
    (match metadata with
     | Some epoch => if str_truthy epoch then set_epochs (_observe_worker_epoch (tk_target t) epoch sequence (ro_epochs r)) r else r
     | None => r
     end, Ok tt)
  else (r, Raise (Failure "backend_unavailable" "unknown" "")).

(** ** Results *)

Definition output_key (target : Z) (epoch output_id : string) : string :=
  (py_str (JInt target) +:+ ":" +:+ epoch +:+ ":" +:+ output_id)%stdpp.

Definition adopt_epoch_ok (t : Ticket) (result : shell_result) (e : epochs) : bool :=
  (bool_decide (tk_epoch t = "") || bool_decide (sr_runtime_epoch result = tk_epoch t)) &&
  match dget (tk_target t) (ep_observed e) with
  | None => true
  | Some (_, current) => bool_decide (current = Some (sr_runtime_epoch result))
  end.

(** The snapshot that a new one is compared with. *)
Definition previous_result (t : Ticket) (r : Router) : option shell_result :=
  match dget (tk_public_id t) (ro_tickets r) with
  | Some oid => match dget oid (ro_heap r) with
                | Some current => match tk_latest_result current with Some p => Some p | None => tk_latest_result t end
                | None => tk_latest_result t
                end
  | None => tk_latest_result t
  end.

(** An older snapshot is replaced by the one already known. *)
Definition newest (t : Ticket) (result : shell_result) (r : Router) : shell_result :=
  match previous_result t r with
  | Some previous => if snapshot_is_older (observation_of result) (observation_of previous) then previous else result
  | None => result
  end.

Definition resolved_context (status : string) (c : op_context) : op_context :=
  Context (cx_origin_turn c) (cx_transient c) (cx_control c) (cx_read_only c) (cx_submitted c) true (cx_privileged c)
    (cx_signed c) (Some status) (cx_watching c) (cx_watch_generation c).

Definition adopted_ticket (t : Ticket) (result : shell_result) (next_id : Z) : Ticket :=
  mkTicket (tk_target t) (sr_runtime_epoch result) (tk_operation_id t) (tk_origin_turn t)
    (if decide (sr_session_id result = 0) then tk_native_id t else sr_session_id result) (sr_output_id result)
    (if decide (sr_session_id result = 0) then tk_public_id t
     else if decide (tk_public_id t = 0) then next_id else tk_public_id t)
    (tk_kind t) (Some result) (tk_binding t) (tk_target_name t).

(** The assignments of [_adopt] once the result is accepted. *)
Definition store_adopted (t : Ticket) (result : shell_result) (r : Router) : Router :=
  let t' := adopted_ticket t result (ro_next_id r) in
  mkRouter (ro_epochs r) (dset (tk_operation_id t) t' (ro_heap r)) (ro_operations r)
    (dset (tk_operation_id t) (resolved_context (sr_status result) (context_of (tk_operation_id t) r)) (ro_context r))
    (if decide (sr_session_id result = 0) then ro_tickets r else dset (tk_public_id t') (tk_operation_id t) (ro_tickets r))
    (ro_consumed r)
    (if decide (sr_session_id result <> 0 /\ tk_public_id t = 0) then ro_next_id r + 1 else ro_next_id r)
    (ro_sessions r) (ro_completions r) (ro_cursors r).

(** [_adopt] for the ticket object of an operation. *)
Definition _adopt (oid : string) (result : shell_result) : M Router failure adopted :=
  fun r =>
    match dget oid (ro_heap r) with
    | None => (r, Raise (Failure "no_such_object" "unknown" ""))
    | Some t =>
        let same_epoch := adopt_epoch_ok t result (ro_epochs r) in
        if negb same_epoch then (r, Raise (Failure "runtime_changed" "unknown" ""))
        else if negb (can_adopt (owned oid r) (bool_decide (tk_public_id t ∈ ro_consumed r)) same_epoch) then
          (if cx_control (context_of oid r) then drop_operation oid r else r,
           Raise (Failure "output_released" "applied" ""))
        else
          let result := newest t result r in
          let r' := store_adopted t result r in
          let t' := adopted_ticket t result (ro_next_id r) in
          (r', Ok (Adopted result (tk_target t) (tk_public_id t') oid
                     (output_key (tk_target t) (sr_runtime_epoch result) (sr_output_id result))))
    end.

(** The answer to a submission, an approval or a query. *)
Record response := Response {
  rp_state : string;
  rp_error : option (string * string);        (* code and effect; the default effect is 'unknown' *)
  rp_result : option shell_result
}.

(** [_outcome] once no query is needed any more. *)
Definition outcome_reply (oid : string) (rp : response) : M Router failure adopted :=
  fun r =>
    match rp_error rp with
    | Some (code, effect) =>
        (if bool_decide (effect = "not_started") then pop_operation oid r else r, Raise (Failure code effect oid))
    | None =>
        match rp_result rp with
        | Some result =>
            if bool_decide (rp_state rp = "complete") then _adopt oid result r
            else (r, Raise (Failure "execution_unknown" "unknown" oid))
        | None => (r, Raise (Failure "execution_unknown" "unknown" oid))
        end
    end.

(** [_outcome]; [None]: the operation is pending and is queried next. *)
Definition _outcome (oid : string) (rp : response) : Router -> option (Router * res failure adopted) :=
  fun r =>
    if bool_decide (rp_state rp = "approval_required")
    then Some (drop_operation oid r, Raise (Failure "authorization_required" "not_started" ""))
    else if bool_decide (rp_state rp = "pending") then None
    else Some (outcome_reply oid rp r).

(** ** Commands *)

Definition set_ticket_epoch (epoch : string) (t : Ticket) : Ticket :=
  mkTicket (tk_target t) epoch (tk_operation_id t) (tk_origin_turn t) (tk_native_id t) (tk_output_id t) (tk_public_id t)
    (tk_kind t) (tk_latest_result t) (tk_binding t) (tk_target_name t).

Definition set_submitted (c : op_context) : op_context :=
  Context (cx_origin_turn c) (cx_transient c) (cx_control c) (cx_read_only c) true (cx_resolved c) (cx_privileged c)
    (cx_signed c) (cx_latest_status c) (cx_watching c) (cx_watch_generation c).
Definition set_signed (c : op_context) : op_context :=
  Context (cx_origin_turn c) (cx_transient c) (cx_control c) (cx_read_only c) (cx_submitted c) (cx_resolved c) (cx_privileged c)
    true (cx_latest_status c) (cx_watching c) (cx_watch_generation c).

(** [_capture_context], with what [delivery_context] adds. *)
Definition _capture_context (turn : string) (transient privileged : bool) : op_context :=
  Context turn transient false false false false privileged false None true 0.

(** The ticket of [_run_resolved] or [privileged]: registered before any request. *)
Definition command_ticket (target : Z) (oid turn kind binding name : string) : Ticket :=
  mkTicket target "" oid turn 0 "" 0 kind None binding name.

Definition run_begin (t : Ticket) (transient privileged : bool) (r : Router) : Router :=
  register t (_capture_context (tk_origin_turn t) transient privileged) r.

(** [_require_privilege_gate] and [_require_stdin] on the metadata of the worker. *)
Record worker_metadata := Metadata {
  md_runtime_epoch : string;
  md_linux : bool;
  md_privilege_gate : bool;           (* privilege_gate_version == 1 *)
  md_stdin : bool;                    (* stdin_version == 1 *)
  md_privilege_stdin : bool           (* privilege.stdin_version == 1 *)
}.

Definition _require_privilege_gate (m : worker_metadata) : res failure unit :=
  raise_if md_linux m && negb (md_privilege_gate m) with Failure "native_incompatible" "not_started" "" ;; Ok tt.
Definition _require_stdin (m : worker_metadata) (stdin privileged : bool) : res failure unit :=
  raise_if stdin && negb (md_stdin m && (negb privileged || md_privilege_stdin m))
    with Failure "stdin_unsupported" "not_started" "" ;; Ok tt.

(** After the metadata: the ticket gets its epoch; the checks; the operation is marked and
    the submission goes out. *)
Definition command_prepared (oid : string) (m : worker_metadata) (stdin privileged : bool) : M Router failure unit :=
  fun r =>
    let r := match dget oid (ro_heap r) with
             | Some t => set_ticket (set_ticket_epoch (md_runtime_epoch m) t) r
             | None => r
             end in
    match (let! _ := _require_privilege_gate m in _require_stdin m stdin privileged) with
    | Raise e => (r, Raise e)
    | Ok _ => (set_context oid (set_submitted (context_of oid r)) r, Ok tt)
    end.

(** [except RemoteFailure] of a command. *)
Definition run_failed (oid : string) (submitted : bool) (exc : failure) (r : Router) : Router * failure :=
  let effect := if submitted then fl_effect exc else "not_started" in
  if bool_decide (effect = "not_started") then (drop_operation oid r, Failure (fl_code exc) effect "")
  else (r, Failure (fl_code exc) effect oid).

(** [except asyncio.CancelledError] and [except Exception]. *)
Definition run_aborted (oid : string) (submitted : bool) (r : Router) : Router :=
  if submitted then r else drop_operation oid r.

(** [privileged], when the approval was given: the request is signed next. *)
Definition approval_given (oid : string) (same_port : bool) (r : Router) : Router * res failure unit :=
  if same_port then (set_context oid (set_signed (context_of oid r)) r, Ok tt)
  else (r, Raise (Failure "backend_unavailable" "not_started" "")).

(** ... and the reply to an approved shutdown: [accepted] is its status. *)
Definition shutdown_reply (oid : string) (error : option (string * string)) (accepted : bool) (r : Router) : Router * res failure unit :=
  match error with
  | Some (code, effect) => (r, Raise (Failure code effect ""))
  | None => (if accepted then drop_operation oid r else r, Ok tt)
  end.

(** ** Session controls *)

Definition control_context (read_only : bool) (c : op_context) : op_context :=
  Context (cx_origin_turn c) (cx_transient c) true read_only true false (cx_privileged c) (cx_signed c) (cx_latest_status c)
    (cx_watching c) (cx_watch_generation c).

(** [session_snapshot], before its request. *)
Definition control_begin (sid : Z) (oid : string) (read_only : bool) (r : Router) : option Router :=
  match dget sid (ro_tickets r) with
  | Some owner =>
      match dget owner (ro_heap r) with
      | Some t =>
          let inherited := match dget owner (ro_context r) with
                           | Some c => c
                           | None => default empty_context (dget sid (ro_sessions r))
                           end in
          Some (register (mkTicket (tk_target t) (tk_epoch t) oid (tk_origin_turn t) (tk_native_id t) (tk_output_id t)
                            (tk_public_id t) "execution" None (tk_binding t) (tk_target_name t))
                  (control_context read_only inherited) r)
      | None => None
      end
  | None => None                            (* ShellRejected *)
  end.

(** A watch that the completion of an older generation is dropped for. *)
Definition watch_changed (sid : Z) (result : adopted) (r : Router) : Router :=
  match dget sid (ro_completions r) with
  | Some previous =>
      if sr_watch_generation (ad_result (co_result previous)) <? sr_watch_generation (ad_result result)
      then set_completions (ddel sid (ro_completions r)) r else r
  | None => r
  end.

Definition control_failed (oid : string) (exc : failure) (r : Router) : Router * failure :=
  (if bool_decide (fl_effect exc = "not_started") then drop_operation oid r else r,
   Failure (fl_code exc) (fl_effect exc) oid).

(** [reconcile], once the query has been answered. *)
Inductive query_answer :=
| StillPending
| NoSession (rest : obj)                    (* a result without a session_id, of a shutdown *)
| Answer (rp : response).

Definition reconcile_reply (oid : string) (answer : query_answer) (r : Router) : option (Router * res failure (option adopted)) :=
  match answer with
  | StillPending => Some (r, Raise (Failure "execution_unknown" "unknown" oid))
  | NoSession _ => Some (drop_operation oid r, Ok None)
  | Answer rp => (fun p => (p.1, match p.2 with Ok a => Ok (Some a) | Raise e => Raise e end)) <$> _outcome oid rp r
  end.

(** ** Released outputs *)

Definition same_output (t u : Ticket) : bool :=
  bool_decide (tk_target u = tk_target t) && bool_decide (tk_epoch u = tk_epoch t) && bool_decide (tk_output_id u = tk_output_id t).

(** The operations that [forget_output] removes: those of the output, except controls whose
    reply is still awaited. *)
Definition forgotten (t : Ticket) (r : Router) (oid : string) : bool :=
  match dget oid (ro_heap r) with
  | Some u => same_output t u && negb (cx_control (context_of oid r) && negb (cx_resolved (context_of oid r)))
  | None => false
  end.

(** [_mark_consumed] *)
Definition mark_consumed (sid : Z) (consumed : list Z) : list Z := if decide (sid ∈ consumed) then consumed else sid :: consumed.

(** [forget_output], with the ticket it found; the cache part is in [OutputCache.v]. *)
Definition forget_output (oid : string) (r : Router) : Router :=
  match operation oid r with
  | None => r
  | Some t =>
      mkRouter (ro_epochs r) (ro_heap r) (filter (fun o => forgotten t r o = false) (ro_operations r))
        (filter (fun p => (owned p.1 r && forgotten t r p.1) = false) (ro_context r))
        (ddel (tk_public_id t) (ro_tickets r))
        (if decide (tk_public_id t = 0) then ro_consumed r else mark_consumed (tk_public_id t) (ro_consumed r))
        (ro_next_id r) (ro_sessions r) (ddel (tk_public_id t) (ro_completions r)) (ro_cursors r)
  end.

(** ** Polling *)

Record worker_event := Event { ev_cursor : Z; ev_result : shell_result }.

Definition is_control (oid : string) (r : Router) : bool := cx_control (context_of oid r).

(** The ticket an event belongs to. *)
Definition event_owner (target : Z) (epoch : string) (result : shell_result) (r : Router) : option Ticket :=
  let owner :=
    if str_truthy (sr_execution_id result) then operation (sr_execution_id result) r
    else find (fun t => bool_decide (tk_target t = target) && bool_decide (tk_epoch t = epoch) &&
                        bool_decide (sr_session_id result <> 0) && bool_decide (tk_native_id t = sr_session_id result) &&
                        negb (is_control (tk_operation_id t) r)) (operations r) in
  match owner with
  | Some t => if bool_decide (tk_target t = target) && bool_decide (tk_epoch t = epoch) && negb (is_control (tk_operation_id t) r)
              then Some t else None
  | None => None
  end.

Definition with_status (status : string) (c : op_context) : op_context :=
  Context (cx_origin_turn c) (cx_transient c) (cx_control c) (cx_read_only c) (cx_submitted c) (cx_resolved c) (cx_privileged c)
    (cx_signed c) (Some status) (cx_watching c) (cx_watch_generation c).

(** [observed = self.owner.sessions.setdefault(public_id, ...); observed['latest_status'] = ...] *)
Definition observe_session (t : Ticket) (status : string) (r : Router) : Router :=
  let c := default (context_of (tk_operation_id t) r) (dget (tk_public_id t) (ro_sessions r)) in
  set_session (tk_public_id t) (with_status status c) r.

(** Whether an adopted event becomes a completion of its session. *)
Definition publishes (sid : Z) (a : adopted) (r : Router) : bool :=
  let observed := default empty_context (dget sid (ro_sessions r)) in
  bool_decide (sid ∉ ro_consumed r) &&
  (terminal (sr_status (ad_result a)) ||
   (sr_watching (ad_result a) && cx_watching observed &&
    (cx_watch_generation observed <=? sr_watch_generation (ad_result a)))).

(** One event of [_poll_target]; [retiring]: the turns whose executions are being retired.
    [Ok false]: the loop stops at this event; a failure leaves the loop too. *)
Definition poll_event (retiring : list string) (target : Z) (epoch : string) (ev : worker_event) : M Router failure bool :=
  fun r =>
    let result := ev_result ev in
    let done_with r := set_cursor (target, epoch) (ev_cursor ev) r in
    match event_owner target epoch result r, poll_decision (bool_decide (is_Some (event_owner target epoch result r)))
                                               (str_truthy (sr_execution_id result)) with
    | _, Poll_defer => (r, Ok false)
    | _, Poll_skip => (done_with r, Ok true)
    | None, Poll_adopt => (r, Ok false)
    | Some t, Poll_adopt =>
        match _adopt (tk_operation_id t) result r with
        | (r, Raise e) => (r, Raise e)
        | (r, Ok a) =>
            let sid := ad_session_id a in
            match dget (tk_operation_id t) (ro_heap r) with
            | None => (r, Ok false)
            | Some t =>
                if bool_decide (tk_origin_turn t ∈ retiring) then
                  (done_with (if decide (sid = 0) then r else observe_session t (sr_status (ad_result a)) r), Ok true)
                else
                  let r := observe_session t (sr_status (ad_result a)) r in
                  let r := if publishes sid a r then set_completions (dset sid (Completion sid (tk_origin_turn t) a) (ro_completions r)) r
                           else r in
                  (done_with r, Ok true)
            end
        end
    end.

Fixpoint poll_events (retiring : list string) (target : Z) (epoch : string) (l : list worker_event) : M Router failure unit :=
  match l with
  | [] => sret tt
  | ev :: l => do! go <- poll_event retiring target epoch ev ;; if go then poll_events retiring target epoch l else sret tt
  end.

(** [drain_completions], the remote part. *)
Definition drain_completions (r : Router) : Router * list completion := (set_completions [] r, dvals (ro_completions r)).

(** ** What is outstanding *)

Definition session_status (sid : Z) (r : Router) : option string :=
  match dget sid (ro_sessions r) with Some c => cx_latest_status c | None => None end.
Definition ended (s : option string) : bool := match s with Some s => terminal s | None => false end.

Definition execution_work (retiring : list string) (r : Router) : bool :=
  existsb (fun sid => negb (ended (session_status sid r))) (dkeys (ro_tickets r)) ||
  existsb (fun t => bool_decide (tk_kind t = "execution") && bool_decide (tk_native_id t = 0) && bool_decide (tk_output_id t = ""))
    (operations r) ||
  existsb (fun p => cx_control p.2 && negb (cx_read_only p.2) && negb (cx_resolved p.2)) (ro_context r) ||
  existsb (fun p => cx_transient p.2 && bool_decide (cx_origin_turn p.2 ∈ retiring) && owned p.1 r) (ro_context r).

(** The status of a command: what the owner's session says, or else its context. *)
Definition command_status (t : Ticket) (c : op_context) (r : Router) : option string :=
  match dget (tk_public_id t) (ro_sessions r) with
  | Some s => match cx_latest_status s with Some x => Some x | None => cx_latest_status c end
  | None => cx_latest_status c
  end.

(** The record of one ticket for the gate of its slot; [None]: not reported. *)
Definition execution_record (require_delivery : bool) (t : Ticket) (r : Router) : option (string * item) :=
  let c := context_of (tk_operation_id t) r in
  let hold := require_delivery || cx_transient c in
  let kind := if cx_control c then K_control else if decide (tk_kind t = "shutdown") then K_shutdown
              else if cx_privileged c then K_privileged else K_execution in
  let unsigned := if cx_privileged c then Some (negb (cx_signed c)) else None in
  let record st := Some (tk_operation_id t,
        Item (Some (tk_epoch t)) (Some kind) st (tk_native_id t) (tk_output_id t) hold (cx_control c) unsigned) in
  let state := command_status t c r in
  if negb (cx_submitted c) && bool_decide (tk_native_id t = 0) && bool_decide (tk_output_id t = "") then None
  else if cx_read_only c then None
  else if cx_control c then if cx_resolved c then None else record S_unknown
  else if negb (bool_decide (tk_output_id t = "")) && (bool_decide (tk_native_id t = 0) || ended state)
  then if hold then record S_delivery else None
  else record (if negb (bool_decide (tk_native_id t = 0)) && negb (ended state) then S_running else S_unknown).

Definition execution_records (require_delivery : bool) (target : Z) (r : Router) : list (string * item) :=
  omap (fun t => if decide (tk_target t = target) then execution_record require_delivery t r else None) (operations r).
