(* ===== verification/RouterSafety.v ===== *)
(** * Theorems of the router

    Over every interleaving of the router's coroutines and every behaviour of the workers:
    an epoch once retired is never believed again, the known state of a session never goes
    back and a released session never comes back, and a command that may have started
    stays tracked, and known to the gate of its target, until its outcome is known.  This file
    has the invariant and what each operation keeps; [RouterRuns.v] has the runs. *)

From S2P Require Import Prelude Dict Utf8 Sha256 PyValue JsonText LifecycleTable Lifecycle ExecutionGate Router.
Open Scope Z_scope.

(** ** Epochs *)

Definition retired_of (target : Z) (e : epochs) : list string := default [] (dget target (ep_retired e)).

Definition epochs_ok (e : epochs) : Prop :=
  forall target, match dget target (ep_observed e) with
                 | None => retired_of target e = []
                 | Some (_, Some current) => current ∉ retired_of target e
                 | Some (_, None) => True
                 end.

(** Retired epochs stay retired, and the sequence number of an observation grows. *)
Definition epochs_grow (e e' : epochs) : Prop :=
  (forall target epoch, epoch ∈ retired_of target e -> epoch ∈ retired_of target e') /\
  (forall target seq c, dget target (ep_observed e) = Some (seq, c) ->
     exists seq' c', dget target (ep_observed e') = Some (seq', c') /\ seq <= seq').

#[export] Instance epochs_grow_preorder : PreOrder epochs_grow.
Proof.
  split; [intros e; split; [done|]; intros target seq c ->; by exists seq, c|].
  intros a b c [H1 H2] [H3 H4]. split; [by intros; apply H3, H1|].
  intros target seq x Hx. destruct (H2 _ _ _ Hx) as (seq' & x' & Hx' & ?). destruct (H4 _ _ _ Hx') as (seq2 & x2 & ? & ?).
  exists seq2, x2. split; [done|lia].
Qed.

Lemma retired_of_set target target' l o seq d :
  retired_of target' (Epochs seq o (dset target l d)) = if decide (target = target') then l else retired_of target' (Epochs seq o d).
Proof. unfold retired_of. simpl. rewrite dget_dset. by case_decide. Qed.

Lemma retired_of_default target target' seq o d :
  retired_of target' (Epochs seq o (dsetdefault target [] d)) = retired_of target' (Epochs seq o d).
Proof.
  unfold retired_of. simpl. rewrite dsetdefault_get. destruct (dget target' d); [done|]. by case_decide.
Qed.

Lemma observe_ok target epoch sequence e :
  epochs_ok e -> epochs_ok (_observe_worker_epoch target epoch sequence e) /\ epochs_grow e (_observe_worker_epoch target epoch sequence e).
Proof.
  intros Hok. destruct e as [n o d]. unfold _observe_worker_epoch. cbn [ep_observed ep_retired ep_sequence].
  pose proof (Hok target) as Ht. cbn [ep_observed] in Ht. fold (retired_of target (Epochs n o d)).
  set (b := bool_decide _ && _). destruct b eqn:Eb.
  - subst b. apply andb_true_iff in Eb as [Eb _]. apply bool_decide_eq_true in Eb.
    set (l := match dget target o with Some (_, Some old) => _ | _ => _ end).
    assert (Hl : epoch ∉ l /\ forall x, x ∈ retired_of target (Epochs n o d) -> x ∈ l).
    { subst l. destruct (dget target o) as [[seq [old|]]|]; try done. case_decide as Ed; [done|]. split.
      - rewrite not_elem_of_cons. split; [|done]. intros ->. by apply Ed; left.
      - intros x Hx. by right. }
    split.
    + intros t. cbn [ep_observed]. rewrite dget_dset, retired_of_set. case_decide as E; [apply Hl|].
      rewrite retired_of_default. exact (Hok t).
    + split.
      * intros t x Hx. rewrite retired_of_set. case_decide; [subst; by apply Hl|by rewrite retired_of_default].
      * intros t seq c Hc. cbn [ep_observed] in *. rewrite dget_dset. case_decide; [|exists seq, c; split; [done|lia]].
        subst. rewrite Hc. eexists _, _. split; [done|lia].
  - split.
    + intros t. cbn [ep_observed]. rewrite retired_of_default. exact (Hok t).
    + split; [intros t x Hx; by rewrite retired_of_default|]. intros t seq c Hc. exists seq, c. split; [done|lia].
Qed.

Lemma runtime_lost_ok t sequence e : epochs_ok e -> epochs_ok (runtime_lost t sequence e) /\ epochs_grow e (runtime_lost t sequence e).
Proof.
  intros Hok. destruct e as [n o d]. unfold runtime_lost. cbn [ep_observed ep_retired ep_sequence].
  fold (retired_of (tk_target t) (Epochs n o d)).
  destruct (match dget (tk_target t) o with None | Some (_, None) => true | Some (_, Some _) => _ end); [|split; [done|reflexivity]].
  split.
  - intros t'. cbn [ep_observed]. rewrite dget_dset, retired_of_set. case_decide; [done|exact (Hok t')].
  - split.
    + intros t' x Hx. rewrite retired_of_set. case_decide; [subst|done]. case_decide; [done|by right].
    + intros t' seq c Hc. cbn [ep_observed] in *. rewrite dget_dset. case_decide; [|exists seq, c; split; [done|lia]].
      subst. rewrite Hc. eexists _, _. split; [done|lia].
Qed.

Lemma next_sequence_ok e : epochs_ok e -> epochs_ok (next_sequence e).1 /\ epochs_grow e (next_sequence e).1.
Proof. intros Hok. split; [exact Hok|]. split; [done|]. intros target seq c Hc. exists seq, c. split; [done|lia]. Qed.

Lemma list_targets_ok items sequence e :
  epochs_ok e -> epochs_ok (list_targets items sequence e) /\ epochs_grow e (list_targets items sequence e).
Proof.
  unfold list_targets. revert e. induction items as [|p items IH]; intros e Hok; simpl; [split; [done|reflexivity]|].
  destruct (observe_ok p.1 p.2 sequence e Hok) as [H1 H2]. destruct (IH _ H1) as [H3 H4]. split; [done|by etransitivity].
Qed.

(** A result of a retired epoch is never adopted. *)
Lemma retired_not_adopted t result e :
  epochs_ok e -> sr_runtime_epoch result ∈ retired_of (tk_target t) e -> adopt_epoch_ok t result e = false.
Proof.
  intros Hok Hr. specialize (Hok (tk_target t)). unfold adopt_epoch_ok.
  destruct (dget (tk_target t) (ep_observed e)) as [[seq [current|]]|].
  - rewrite (bool_decide_false (Some current = _)); [apply andb_false_r|]. intros [= ->]. done.
  - rewrite (bool_decide_false (None = _)); [apply andb_false_r|done].
  - rewrite Hok in Hr. by apply elem_of_nil in Hr.
Qed.

(** ** The router's invariant *)

Definition remote_id (n next_id : Z) : Prop := REMOTE_BASE <= n < next_id.

Record router_ok (r : Router) : Prop := RouterOk {
  rk_epochs : epochs_ok (ro_epochs r);
  rk_base : REMOTE_BASE <= ro_next_id r;
  rk_heap : forall oid t, dget oid (ro_heap r) = Some t ->
    tk_operation_id t = oid /\ (tk_public_id t = 0 \/ remote_id (tk_public_id t) (ro_next_id r));
  rk_owned : forall oid, oid ∈ ro_operations r -> is_Some (dget oid (ro_heap r)) /\ is_Some (dget oid (ro_context r));
  rk_tickets : forall sid oid, dget sid (ro_tickets r) = Some oid ->
    exists t p, dget oid (ro_heap r) = Some t /\ tk_public_id t = sid /\ tk_latest_result t = Some p /\ sid ∉ ro_consumed r /\
      remote_id sid (ro_next_id r);
  rk_consumed : forall sid, sid ∈ ro_consumed r -> remote_id sid (ro_next_id r) /\ dget sid (ro_completions r) = None
}.

(** The state of a session that the router knows. *)
Definition session_view (sid : Z) (r : Router) : option shell_result :=
  match dget sid (ro_tickets r) with
  | Some oid => match dget oid (ro_heap r) with Some t => tk_latest_result t | None => None end
  | None => None
  end.

Definition not_older (p' p : shell_result) : Prop := snapshot_is_older (observation_of p') (observation_of p) = false.

#[export] Instance not_older_preorder : PreOrder not_older.
Proof.
  split; unfold not_older.
  - intros p. apply snapshot_is_older_spec. split_and!; lia || done.
  - intros a b c H1%snapshot_is_older_spec H2%snapshot_is_older_spec. apply snapshot_is_older_spec.
    destruct H1 as (? & ? & ? & ? & ?), H2 as (? & ? & ? & ? & ?). split_and!; [lia..|auto].
Qed.

Record router_grows (r r' : Router) : Prop := RouterGrows {
  rg_epochs : epochs_grow (ro_epochs r) (ro_epochs r');
  rg_consumed : forall sid, sid ∈ ro_consumed r -> sid ∈ ro_consumed r';
  rg_view : forall sid p, session_view sid r = Some p ->
    sid ∈ ro_consumed r' \/ exists p', session_view sid r' = Some p' /\ not_older p' p
}.

#[export] Instance router_grows_preorder : PreOrder router_grows.
Proof.
  split.
  - intros r. split; [reflexivity|done|]. intros sid p H. right. by exists p.
  - intros a b c [H1 H2 H3] [H4 H5 H6]. split; [by etransitivity|auto|].
    intros sid p Hp. destruct (H3 _ _ Hp) as [H|(p' & Hp' & Ho)]; [left; auto|].
    destruct (H6 _ _ Hp') as [H|(p2 & Hp2 & Ho2)]; [by left|]. right. exists p2. split; [done|by etransitivity].
Qed.

Definition fine (r r' : Router) : Prop := router_ok r -> router_ok r' /\ router_grows r r'.

#[export] Instance fine_preorder : PreOrder fine.
Proof.
  split; [intros r H; split; [done|reflexivity]|]. intros a b c H1 H2 Ha.
  destruct (H1 Ha) as [Hb G1]. destruct (H2 Hb) as [Hc G2]. split; [done|by etransitivity].
Qed.

(** Assignments that touch neither tickets nor consumed sessions. *)
Lemma fine_frame r r' :
  ro_epochs r' = ro_epochs r -> ro_heap r' = ro_heap r -> ro_tickets r' = ro_tickets r -> ro_consumed r' = ro_consumed r ->
  ro_next_id r' = ro_next_id r ->
  (router_ok r -> (forall oid, oid ∈ ro_operations r' -> is_Some (dget oid (ro_heap r)) /\ is_Some (dget oid (ro_context r'))) /\
                  (forall sid, sid ∈ ro_consumed r -> dget sid (ro_completions r') = None)) -> fine r r'.
Proof.
  intros E1 E2 E3 E4 E5 H Hok. destruct (H Hok) as [Ho Hc]. destruct Hok as [K1 K2 K3 K4 K5 K6]. split.
  - split; rewrite ?E1, ?E2, ?E3, ?E4, ?E5; try done. intros sid Hs. split; [by apply K6|by apply Hc].
  - split; unfold session_view; rewrite ?E1, ?E2, ?E3, ?E4; [reflexivity|done|]. intros sid p Hp. right. by exists p.
Qed.

Lemma fine_epochs e r : (epochs_ok (ro_epochs r) -> epochs_ok e /\ epochs_grow (ro_epochs r) e) -> fine r (set_epochs e r).
Proof.
  intros H [K1 K2 K3 K4 K5 K6]. destruct (H K1) as [He Hg]. split; [by split|]. split; [done|done|].
  intros sid p Hp. right. by exists p.
Qed.

Lemma fine_context oid c r : fine r (set_context oid c r).
Proof.
  apply fine_frame; try done. intros [K1 K2 K3 K4 K5 K6]. split; [|by intros sid [_ ?]%K6]. intros o Ho. destruct (K4 o Ho) as [? Hc].
  split; [done|]. simpl. rewrite dget_dset. case_decide; [by eexists|done].
Qed.

Lemma fine_session sid c r : fine r (set_session sid c r).
Proof. apply fine_frame; try done. intros [K1 K2 K3 K4 K5 K6]. split; [exact K4|by intros s [_ ?]%K6]. Qed.

Lemma fine_cursor k n r : fine r (set_cursor k n r).
Proof. apply fine_frame; try done. intros [K1 K2 K3 K4 K5 K6]. split; [exact K4|by intros s [_ ?]%K6]. Qed.

Lemma fine_completions d r :
  (forall sid, sid ∈ ro_consumed r -> dget sid (ro_completions r) = None -> dget sid d = None) -> fine r (set_completions d r).
Proof. intros H. apply fine_frame; try done. intros [K1 K2 K3 K4 K5 K6]. split; [exact K4|]. intros s Hs. by apply H, K6. Qed.

Lemma fine_pop_operation oid r : fine r (pop_operation oid r).
Proof.
  apply fine_frame; try done. intros [K1 K2 K3 K4 K5 K6]. split; [|by intros s [_ ?]%K6]. intros o [_ Ho]%list_elem_of_filter. by apply K4.
Qed.

Lemma fine_drop_operation oid r : fine r (drop_operation oid r).
Proof.
  apply fine_frame; try done. intros [K1 K2 K3 K4 K5 K6]. split; [|by intros s [_ ?]%K6]. intros o [Hn Ho]%list_elem_of_filter.
  destruct (K4 o Ho). split; [done|]. simpl. by rewrite dget_ddel_ne.
Qed.

(** A new ticket under a fresh operation. *)
Lemma fine_register t c r :
  dget (tk_operation_id t) (ro_heap r) = None -> (router_ok r -> tk_public_id t = 0 \/ remote_id (tk_public_id t) (ro_next_id r)) ->
  fine r (register t c r).
Proof.
  intros Hn Hp Hok. specialize (Hp Hok). destruct Hok as [K1 K2 K3 K4 K5 K6]. split.
  - split; simpl; try done.
    + intros oid u. rewrite dget_dset. case_decide as E; [|apply K3]. intros [= <-]. by subst.
    + intros oid [Ho|Ho]%elem_of_app.
      * apply list_elem_of_filter in Ho as [Hne Ho]. rewrite !dget_dset_ne by congruence. by apply K4.
      * apply list_elem_of_singleton in Ho as ->. rewrite !dget_dset_eq. split; by eexists.
    + intros sid oid (u & p & Hu & Hrest)%K5. exists u, p. rewrite dget_dset_ne by congruence. done.
  - split; [reflexivity|done|]. intros sid p Hv. right. exists p. split; [|reflexivity].
    unfold session_view in *. simpl. destruct (dget sid (ro_tickets r)) as [oid|] eqn:E; [|done].
    destruct (K5 _ _ E) as (u & p' & Hu & _). rewrite dget_dset_ne by congruence. done.
Qed.

Lemma fine_ticket_epoch oid t epoch r : dget oid (ro_heap r) = Some t -> fine r (set_ticket (set_ticket_epoch epoch t) r).
Proof.
  intros Ht [K1 K2 K3 K4 K5 K6]. destruct (K3 _ _ Ht) as [Hid Hp]. split.
  - split; simpl; try done.
    + intros o u. rewrite dget_dset. case_decide as E; [|apply K3]. intros [= <-]. split; [simpl; congruence|]. exact Hp.
    + intros o Ho. destruct (K4 o Ho). split; [|done]. rewrite dget_dset. case_decide; [by eexists|done].
    + intros sid o Ho. destruct (K5 _ _ Ho) as (u & p & Hu & ? & ? & Hr). rewrite dget_dset, Hid. case_decide as E.
      * subst o. rewrite Ht in Hu. injection Hu as <-. eexists _, p. split; [done|]. done.
      * exists u, p. done.
  - split; [reflexivity|done|]. intros sid p Hv. right. exists p. split; [|reflexivity].
    unfold session_view in *. simpl. destruct (dget sid (ro_tickets r)) as [o|]; [|done].
    rewrite dget_dset, Hid. case_decide as E; [|done]. subst o. by rewrite Ht in Hv.
Qed.

(** ** Adoption *)

Lemma newest_not_older t result r p : previous_result t r = Some p -> not_older (newest t result r) p.
Proof.
  intros E. unfold newest. rewrite E. destruct (snapshot_is_older _ _) eqn:Eo; [reflexivity|exact Eo].
Qed.

Lemma previous_view t r p : session_view (tk_public_id t) r = Some p -> previous_result t r = Some p.
Proof.
  unfold session_view, previous_result. destruct (dget _ (ro_tickets r)) as [oid|]; [|done].
  destruct (dget oid (ro_heap r)) as [u|]; [|done]. by intros ->.
Qed.

Lemma adopted_public_id t result n :
  tk_public_id (adopted_ticket t result n) =
    if decide (sr_session_id result = 0) then tk_public_id t else if decide (tk_public_id t = 0) then n else tk_public_id t.
Proof. done. Qed.

Lemma store_adopted_ok t result r :
  dget (tk_operation_id t) (ro_heap r) = Some t -> tk_public_id t ∉ ro_consumed r ->
  router_ok r -> router_ok (store_adopted t result r).
Proof.
  intros Ht Hc [K1 K2 K3 K4 K5 K6]. destruct (K3 _ _ Ht) as [_ Hp].
  set (n' := if decide (sr_session_id result <> 0 /\ tk_public_id t = 0) then ro_next_id r + 1 else ro_next_id r).
  assert (Hn : ro_next_id r <= n') by (subst n'; case_decide; lia).
  assert (Hm : forall n, remote_id n (ro_next_id r) -> remote_id n n') by (unfold remote_id; lia).
  set (t' := adopted_ticket t result (ro_next_id r)).
  assert (Hp' : tk_public_id t' = 0 \/ remote_id (tk_public_id t') n').
  { subst t' n'. rewrite adopted_public_id. unfold remote_id in *. repeat case_decide; try lia; tauto. }
  assert (Hpos : sr_session_id result <> 0 -> tk_public_id t' <> 0 /\ tk_public_id t' ∉ ro_consumed r).
  { intros Hs. subst t'. rewrite adopted_public_id, decide_False by done. case_decide as E; [|done].
    split; [unfold REMOTE_BASE in K2; lia|]. intros [Hr _]%K6. unfold remote_id in Hr. lia. }
  unfold store_adopted. fold t' n'. split;
    cbn [ro_epochs ro_heap ro_operations ro_context ro_tickets ro_consumed ro_next_id ro_sessions ro_completions ro_cursors]; try done.
  - lia.
  - intros oid u. rewrite dget_dset. case_decide as E; [intros [= <-]; by subst|].
    intros [? [?|?]]%K3; split; auto.
  - intros oid [H1 H2]%K4. rewrite !dget_dset. case_decide; [split; by eexists|done].
  - assert (Hold : forall sid oid, dget sid (ro_tickets r) = Some oid -> (sr_session_id result <> 0 -> sid <> tk_public_id t') ->
      exists u p, dget oid (dset (tk_operation_id t) t' (ro_heap r)) = Some u /\ tk_public_id u = sid /\ tk_latest_result u = Some p /\
        sid ∉ ro_consumed r /\ remote_id sid n').
    { intros sid oid Ho Hsid. destruct (K5 _ _ Ho) as (u & p & Hu & Hpu & Hl & Hcs & Hr). rewrite dget_dset.
      case_decide as E; [|exists u, p; split_and!; auto]. subst oid. rewrite Ht in Hu. injection Hu as <-.
      eexists t', _. split_and!; [done| |done|done|auto]. subst t'. rewrite adopted_public_id in *.
      case_decide; [done|]. rewrite decide_False in * by (unfold remote_id, REMOTE_BASE in Hr; lia). by destruct Hsid. }
    case_decide as Es; [intros sid oid Ho; by apply Hold|]. intros sid oid. rewrite dget_dset. case_decide as E; [|intros Ho; apply (Hold _ _ Ho); intros _; intros Hs; by apply E].
    intros [= <-]. subst sid. destruct (Hpos Es) as [H0 Hnc]. eexists t', _. rewrite dget_dset_eq.
    split_and!; [done|done|done|done|]. by destruct Hp'.
  - intros sid [? ?]%K6. auto.
Qed.

Lemma store_adopted_grows t result r :
  dget (tk_operation_id t) (ro_heap r) = Some t -> router_ok r ->
  (forall p, previous_result t r = Some p -> not_older result p) -> router_grows r (store_adopted t result r).
Proof.
  intros Ht [K1 K2 K3 K4 K5 K6] Hnew. split; [reflexivity|done|]. intros sid p Hv. right.
  unfold session_view in Hv. destruct (dget sid (ro_tickets r)) as [oid|] eqn:Eo; [|done].
  destruct (K5 _ _ Eo) as (u & p0 & Hu & Hpu & Hl & _ & Hr). rewrite Hu, Hl in Hv. injection Hv as ->.
  assert (H0 : sid <> 0) by (unfold remote_id, REMOTE_BASE in Hr; lia).
  destruct (decide (tk_public_id t = sid)) as [Es|Es].
  - assert (Hno : not_older result p).
    { apply Hnew, previous_view. unfold session_view. by rewrite Es, Eo, Hu. }
    assert (Hpid : tk_public_id (adopted_ticket t result (ro_next_id r)) = sid).
    { rewrite adopted_public_id. repeat case_decide; congruence. }
    unfold session_view, store_adopted. cbn [ro_tickets ro_heap]. rewrite Hpid. destruct (decide (sr_session_id result = 0)) as [E|E].
    + rewrite Eo, dget_dset. case_decide as Ei; [by exists result|]. exists p. rewrite Hu, Hl. split; [done|reflexivity].
    + rewrite dget_dset_eq, dget_dset_eq. by exists result.
  - exists p. split; [|reflexivity]. unfold session_view, store_adopted. cbn [ro_tickets ro_heap].
    assert (Hoid : tk_operation_id t <> oid) by (intros <-; congruence).
    assert (Et : dget sid (if decide (sr_session_id result = 0) then ro_tickets r
                           else dset (tk_public_id (adopted_ticket t result (ro_next_id r))) (tk_operation_id t) (ro_tickets r)) = Some oid).
    { case_decide as E; [done|]. rewrite dget_dset_ne; [done|]. rewrite adopted_public_id, decide_False by done.
      case_decide; [|done]. unfold remote_id in Hr. lia. }
    rewrite Et, dget_dset_ne by done. by rewrite Hu.
Qed.

Lemma fine_adopt oid result r : fine r (_adopt oid result r).1.
Proof.
  unfold _adopt. destruct (dget oid (ro_heap r)) as [t|] eqn:Ht; [|reflexivity].
  destruct (adopt_epoch_ok t result (ro_epochs r)); [|reflexivity]. cbn [negb].
  destruct (can_adopt _ _ _) eqn:Ea; cbn [negb]; [|destruct (cx_control _); [apply fine_drop_operation|reflexivity]].
  intros Hok. assert (Hid : tk_operation_id t = oid) by (by apply (rk_heap _ Hok)). subst oid. cbn [fst]. split.
  - apply store_adopted_ok; try done. unfold can_adopt in Ea. destruct (owned _ r), (bool_decide (tk_public_id t ∈ _)) eqn:Eb; try done.
    by apply bool_decide_eq_false in Eb.
  - apply store_adopted_grows; try done. intros p Hp. by apply newest_not_older.
Qed.

(** ** Releases *)

Lemma elem_mark_consumed sid x l : x ∈ mark_consumed sid l <-> x = sid \/ x ∈ l.
Proof. unfold mark_consumed. case_decide; [naive_solver|]. by rewrite elem_of_cons. Qed.

Lemma fine_forget_output oid r : fine r (forget_output oid r).
Proof.
  unfold forget_output, operation. destruct (owned oid r); [|reflexivity].
  destruct (dget oid (ro_heap r)) as [t|] eqn:Ht; [|reflexivity]. intros [K1 K2 K3 K4 K5 K6].
  destruct (K3 _ _ Ht) as [Hid Hp]. set (consumed := if decide (tk_public_id t = 0) then _ else _).
  assert (Hc : forall x, x ∈ consumed <-> x ∈ ro_consumed r \/ (x = tk_public_id t /\ x <> 0)).
  { intros x. subst consumed. case_decide; [naive_solver lia|]. rewrite elem_mark_consumed. naive_solver. }
  split.
  - split; cbn [ro_epochs ro_heap ro_operations ro_context ro_tickets ro_consumed ro_next_id ro_completions]; try done.
    + intros o [Hf Ho]%list_elem_of_filter. destruct (K4 o Ho) as [? Hx]. split; [done|].
      pose proof (dget_filter_key (fun k => owned k r && forgotten t r k = false) o (ro_context r)) as E.
      rewrite decide_True in E by (rewrite Hf; apply andb_false_r). unfold is_Some in *. by setoid_rewrite E.
    + intros sid o. rewrite dget_ddel. case_decide as E; [done|]. intros (u & p & ? & ? & ? & ? & ?)%K5. exists u, p.
      split_and!; try done. rewrite Hc. naive_solver.
    + intros sid [Hs|[-> H0]]%Hc; rewrite dget_ddel.
      * destruct (K6 _ Hs) as [? ?]. split; [done|by case_decide].
      * split; [by destruct Hp|by rewrite decide_True].
  - split; [reflexivity|intros sid Hs; apply Hc; by left|]. cbn [ro_consumed]. intros sid p Hv.
    destruct (decide (sid = tk_public_id t)) as [->|Hne].
    + left. apply Hc. right. split; [done|]. unfold session_view in Hv. destruct (dget _ (ro_tickets r)) as [o|] eqn:E; [|done].
      destruct (K5 _ _ E) as (u & p' & _ & _ & _ & _ & Hr). unfold remote_id, REMOTE_BASE in Hr. lia.
    + right. exists p. split; [|reflexivity]. unfold session_view in *. cbn [ro_tickets ro_heap].
      by rewrite dget_ddel_ne by congruence.
Qed.

(** ** The coroutines *)

Lemma fine_rpc_failed t method sequence exc r : fine r (rpc_failed t method sequence exc r).1.
Proof. unfold rpc_failed. destruct (bool_decide _); [|reflexivity]. apply fine_epochs, runtime_lost_ok. Qed.

Lemma fine_rpc_returned t sequence same_port metadata r : fine r (rpc_returned t sequence same_port metadata r).1.
Proof.
  unfold rpc_returned. destruct same_port; [|reflexivity]. destruct metadata as [epoch|]; [|reflexivity]. simpl.
  destruct (str_truthy epoch); [|reflexivity]. apply fine_epochs, observe_ok.
Qed.

Lemma fine_outcome_reply oid rp r : fine r (outcome_reply oid rp r).1.
Proof.
  unfold outcome_reply. destruct (rp_error rp) as [[code effect]|].
  - simpl. destruct (bool_decide _); [apply fine_pop_operation|reflexivity].
  - destruct (rp_result rp) as [result|]; [|reflexivity]. destruct (bool_decide _); [apply fine_adopt|reflexivity].
Qed.

Lemma fine_outcome oid rp r r' out : _outcome oid rp r = Some (r', out) -> fine r r'.
Proof.
  unfold _outcome. destruct (bool_decide _); [intros [= <- _]; apply fine_drop_operation|].
  destruct (bool_decide _); [done|]. intros [= E]. pose proof (fine_outcome_reply oid rp r) as H. by rewrite E in H.
Qed.

Lemma fine_run_begin t transient privileged r :
  dget (tk_operation_id t) (ro_heap r) = None -> tk_public_id t = 0 -> fine r (run_begin t transient privileged r).
Proof. intros Hn H0. apply fine_register; [done|]. by left. Qed.

Lemma fine_command_prepared oid m stdin privileged r : fine r (command_prepared oid m stdin privileged r).1.
Proof.
  unfold command_prepared.
  assert (H : fine r (match dget oid (ro_heap r) with
                      | Some t => set_ticket (set_ticket_epoch (md_runtime_epoch m) t) r
                      | None => r
                      end)).
  { destruct (dget oid (ro_heap r)) as [t|] eqn:E; [by eapply fine_ticket_epoch|reflexivity]. }
  destruct (let! _ := _ in _); cbn [fst]; [|done]. etransitivity; [exact H|apply fine_context].
Qed.

Lemma fine_run_failed oid submitted exc r : fine r (run_failed oid submitted exc r).1.
Proof. unfold run_failed. destruct (bool_decide _); [apply fine_drop_operation|reflexivity]. Qed.

Lemma fine_run_aborted oid submitted r : fine r (run_aborted oid submitted r).
Proof. destruct submitted; [reflexivity|apply fine_drop_operation]. Qed.

Lemma fine_approval_given oid same_port r : fine r (approval_given oid same_port r).1.
Proof. destruct same_port; [apply fine_context|reflexivity]. Qed.

Lemma fine_shutdown_reply oid error accepted r : fine r (shutdown_reply oid error accepted r).1.
Proof. destruct error as [[]|]; [reflexivity|]. destruct accepted; [apply fine_drop_operation|reflexivity]. Qed.

Lemma fine_control_begin sid oid read_only r r' :
  dget oid (ro_heap r) = None -> control_begin sid oid read_only r = Some r' -> fine r r'.
Proof.
  intros Hn. unfold control_begin. destruct (dget sid (ro_tickets r)) as [owner|] eqn:Eo; [|done].
  destruct (dget owner (ro_heap r)) as [t|] eqn:Et; [|done]. intros [= <-]. apply fine_register; [done|].
  intros Hok. by apply (rk_heap _ Hok _ _ Et).
Qed.

Lemma fine_watch_changed sid a r : fine r (watch_changed sid a r).
Proof.
  unfold watch_changed. destruct (dget sid _) as [c|]; [|reflexivity]. destruct (_ <? _); [|reflexivity].
  apply fine_completions. intros x _ Hx. rewrite dget_ddel. by case_decide.
Qed.

Lemma fine_control_failed oid exc r : fine r (control_failed oid exc r).1.
Proof. unfold control_failed. simpl. destruct (bool_decide _); [apply fine_drop_operation|reflexivity]. Qed.

Lemma fine_reconcile oid answer r r' out : reconcile_reply oid answer r = Some (r', out) -> fine r r'.
Proof.
  destruct answer as [|rest|rp]; simpl.
  - intros [= <- _]. reflexivity.
  - intros [= <- _]. apply fine_drop_operation.
  - destruct (_outcome oid rp r) as [[r1 o]|] eqn:E; [|done]. intros [= <- _]. by eapply fine_outcome.
Qed.

Lemma fine_observe_session t status r : fine r (observe_session t status r).
Proof. apply fine_session. Qed.

Lemma fine_poll_event retiring target epoch ev r : fine r (poll_event retiring target epoch ev r).1.
Proof.
  unfold poll_event. destruct (poll_decision _ _); destruct (event_owner target epoch (ev_result ev) r) as [t|]; cbn [fst];
    try reflexivity; try apply fine_cursor.
  pose proof (fine_adopt (tk_operation_id t) (ev_result ev) r) as Ha. destruct (_adopt _ _ r) as [r1 [a|e]]; [|done]. cbn [fst] in Ha.
  destruct (dget (tk_operation_id t) (ro_heap r1)) as [t1|]; [|done]. destruct (bool_decide _); cbn [fst].
  - etransitivity; [exact Ha|]. etransitivity; [|apply fine_cursor]. destruct (decide (ad_session_id a = 0)); [reflexivity|apply fine_observe_session].
  - etransitivity; [exact Ha|]. etransitivity; [apply (fine_observe_session t1 (sr_status (ad_result a)))|].
    etransitivity; [|apply fine_cursor]. destruct (publishes _ _ _) eqn:Ep; [|reflexivity]. apply fine_completions.
    intros sid Hs Hn. rewrite dget_dset_ne; [done|]. intros <-. unfold publishes in Ep. bool_to_prop. done.
Qed.

Lemma fine_poll_events retiring target epoch l r : fine r (poll_events retiring target epoch l r).1.
Proof.
  revert r. induction l as [|ev l IH]; intros r; simpl; [reflexivity|]. unfold sbind.
  pose proof (fine_poll_event retiring target epoch ev r) as H. destruct (poll_event _ _ _ ev r) as [r1 [[]|e]]; cbn [fst] in *; try done.
  etransitivity; [exact H|apply IH].
Qed.

Lemma fine_drain r : fine r (drain_completions r).1.
Proof. by apply fine_completions. Qed.
