(* ===== verification/RouterRuns.v ===== *)
(** * Runs of the router

    The coroutines of [pal_shell_native/router.py] as steps: a command or a session control
    moves from one await to the next, while other coroutines poll, reconcile, release
    outputs and observe workers.  Every reply and every failure may arrive at any time. *)

From S2P Require Import Prelude Dict Utf8 Sha256 PyValue JsonText LifecycleTable Lifecycle ExecutionGate Router RouterSafety.
Open Scope Z_scope.

(** ** Coroutines *)

(** The await at which a coroutine stands that drives an operation. *)
Inductive stage :=
| At_metadata (privileged shutdown : bool)    (* the metadata of the worker *)
| At_submit                                   (* [submit] is out *)
| At_approve (shutdown : bool)                (* [prepare_privileged], then the user's approval *)
| At_signed (shutdown : bool)                 (* [approve] is out *)
| At_query (shutdown : bool)                  (* the operation is pending: [query] is out *)
| At_control (watch : bool)                   (* [session] is out; [watch]: to watch or unwatch *)
| At_control_query (watch : bool).                           (* ... and pending *)

(** The local variable [submitted] of the coroutine. *)
Definition submitted (st : stage) : bool :=
  match st with At_metadata _ _ | At_approve _ => false | _ => true end.

Definition controls (st : stage) : bool := match st with At_control _ | At_control_query _ => true | _ => false end.
Definition watches (st : stage) : bool := match st with At_control w | At_control_query w => w | _ => false end.

(** The method that [_rpc] is waiting for; [approve] goes to the port directly. *)
Definition rpc_method (st : stage) : option string :=
  match st with
  | At_metadata _ _ => Some "metadata"
  | At_submit => Some "submit"
  | At_approve _ => Some "prepare_privileged"
  | At_signed _ => None
  | At_query _ | At_control_query _ => Some "query"
  | At_control _ => Some "session"
  end.

(** Why an operation may be forgotten. *)
Inductive reason :=
| NotStarted        (* the answer to its own request says that it did not start *)
| OutputReleased    (* its output was delivered and released *)
| Answered          (* its final answer has arrived *)
| ForgottenUnnamed. (* a result of its runtime that named no output was released *)

Definition reason_of (e : failure) : option reason :=
  if bool_decide (fl_effect e = "not_started") then Some NotStarted
  else if bool_decide (fl_code e = "output_released") then Some OutputReleased
  else None.

Definition because (oid : string) (why : option reason) : list (string * reason) :=
  match why with Some w => [(oid, w)] | None => [] end.

(** The [except RemoteFailure] of the coroutine. *)
Definition task_failed (oid : string) (st : stage) (e : failure) (r : Router) : Router :=
  if controls st then (control_failed oid e r).1 else (run_failed oid (submitted st) e r).1.

(** A request of the coroutine failed. *)
Definition request_failed (oid : string) (st : stage) (sequence : Z) (e : failure) (r : Router) : Router * list (string * reason) :=
  let '(r, e) := match rpc_method st, dget oid (ro_heap r) with
                 | Some method, Some t => rpc_failed t method sequence e r
                 | _, _ => (r, e)
                 end in
  (task_failed oid st e r, because oid (reason_of e)).

(** What the coroutine does with a final outcome of its request. *)
Definition outcome_arrived (oid : string) (st : stage) (out : Router * res failure adopted) : Router * list (string * reason) :=
  match out with
  | (r, Ok a) => (if watches st then watch_changed (ad_session_id a) a r else r, [])
  | (r, Raise e) => (task_failed oid st e r, because oid (reason_of e))
  end.

(** The reply to [submit], [approve] or [session]. *)
Definition first_reply (oid : string) (st : stage) (rp : response) (r : Router) : option stage * (Router * list (string * reason)) :=
  match _outcome oid rp r with
  | None => (Some (match st with At_control w => At_control_query w | _ => At_query false end), (r, []))
  | Some out => (None, outcome_arrived oid st out)
  end.

(** The reply to an approved shutdown, or to the query that follows. *)
Definition shutdown_replied (oid : string) (st : stage) (error : option (string * string)) (accepted : bool) (r : Router)
    : Router * list (string * reason) :=
  match shutdown_reply oid error accepted r with
  | (r, Ok _) => (r, if accepted then [(oid, Answered)] else [])
  | (r, Raise e) => (task_failed oid st e r, because oid (reason_of e))
  end.

(** ** Steps *)

Record rsystem := RSys {
  ry_router : Router;
  ry_tasks : list (string * stage);
  (* history *)
  ry_dispatched : list string;               (* sent in a form that the worker may carry out *)
  ry_settled : list (string * reason)
}.

(** The request of the stage carries the command to the worker: [submit], a signed
    [approve], [session]; the queries come after one of them. *)
Definition carries_command (st : stage) : bool :=
  match st with
  | At_metadata _ _ | At_approve _ => false
  | At_submit | At_signed _ | At_control _ | At_query _ | At_control_query _ => true
  end.

Definition dispatches (st : stage) (oid : string) (l : list string) : list string :=
  if carries_command st then oid :: l else l.

(** [forget_output] drops every command with the runtime and the output of the ticket; with
    no output named, that is every command whose output is not known yet. *)
Definition forget_reason (t : Ticket) : reason :=
  if decide (tk_output_id t = "") then ForgottenUnnamed else OutputReleased.

Inductive router_step : rsystem -> rsystem -> Prop :=
(* a command *)
| rr_start r tasks d s target oid turn kind binding name transient privileged shutdown :
    dget oid (ro_heap r) = None ->
    router_step (RSys r tasks d s)
      (RSys (run_begin (command_ticket target oid turn kind binding name) transient privileged r)
         ((oid, At_metadata privileged shutdown) :: tasks) d s)
| rr_prepared r l1 l2 d s oid privileged shutdown m stdin r' :
    command_prepared oid m stdin privileged r = (r', Ok tt) ->
    let st := if privileged then At_approve shutdown else At_submit in
    router_step (RSys r (l1 ++ (oid, At_metadata privileged shutdown) :: l2) d s)
      (RSys r' (l1 ++ (oid, st) :: l2) (dispatches st oid d) s)
| rr_unprepared r l1 l2 d s oid privileged shutdown m stdin r' e :
    command_prepared oid m stdin privileged r = (r', Raise e) ->
    router_step (RSys r (l1 ++ (oid, At_metadata privileged shutdown) :: l2) d s)
      (RSys (task_failed oid (At_metadata privileged shutdown) e r') (l1 ++ l2) d s)
| rr_approved r l1 l2 d s oid shutdown :
    router_step (RSys r (l1 ++ (oid, At_approve shutdown) :: l2) d s)
      (RSys (approval_given oid true r).1 (l1 ++ (oid, At_signed shutdown) :: l2) (oid :: d) s)
| rr_failed r l1 l2 d s oid st sequence e r' why :
    request_failed oid st sequence e r = (r', why) ->
    router_step (RSys r (l1 ++ (oid, st) :: l2) d s) (RSys r' (l1 ++ l2) d (why ++ s))
| rr_aborted r l1 l2 d s oid st :
    router_step (RSys r (l1 ++ (oid, st) :: l2) d s)
      (RSys (if controls st then r else run_aborted oid (submitted st) r) (l1 ++ l2) d s)
| rr_reply r l1 l2 d s oid st rp next r' why :
    st = At_submit \/ st = At_signed false \/ (exists w, st = At_control w) -> first_reply oid st rp r = (next, (r', why)) ->
    router_step (RSys r (l1 ++ (oid, st) :: l2) d s)
      (RSys r' (match next with Some st' => l1 ++ (oid, st') :: l2 | None => l1 ++ l2 end) d (why ++ s))
| rr_query_reply r l1 l2 d s oid st rp r' why :
    st = At_query false \/ (exists w, st = At_control_query w) -> outcome_arrived oid st (outcome_reply oid rp r) = (r', why) ->
    router_step (RSys r (l1 ++ (oid, st) :: l2) d s) (RSys r' (l1 ++ l2) d (why ++ s))
| rr_shutdown_pending r l1 l2 d s oid :
    router_step (RSys r (l1 ++ (oid, At_signed true) :: l2) d s) (RSys r (l1 ++ (oid, At_query true) :: l2) d s)
| rr_shutdown_reply r l1 l2 d s oid st error accepted r' why :
    st = At_signed true \/ st = At_query true -> shutdown_replied oid st error accepted r = (r', why) ->
    router_step (RSys r (l1 ++ (oid, st) :: l2) d s) (RSys r' (l1 ++ l2) d (why ++ s))
(* a session control *)
| rr_control r tasks d s sid oid read_only watch r' :
    dget oid (ro_heap r) = None -> control_begin sid oid read_only r = Some r' ->
    router_step (RSys r tasks d s) (RSys r' ((oid, At_control watch) :: tasks) (oid :: d) s)
(* everything else *)
| rr_adopt r tasks d s oid result r' out :
    _adopt oid result r = (r', out) ->
    router_step (RSys r tasks d s)
      (RSys r' tasks d (match out with Raise e => because oid (reason_of e) | Ok _ => [] end ++ s))
| rr_reconcile r tasks d s oid answer r' out :
    reconcile_reply oid answer r = Some (r', out) ->
    router_step (RSys r tasks d s)
      (RSys r' tasks d (match out with Ok None => [(oid, Answered)] | Ok _ => [] | Raise e => because oid (reason_of e) end ++ s))
| rr_reconcile_failed r tasks d s oid t sequence e :
    dget oid (ro_heap r) = Some t ->
    router_step (RSys r tasks d s) (RSys (rpc_failed t "query" sequence e r).1 tasks d s)
| rr_poll r tasks d s retiring target epoch l :
    router_step (RSys r tasks d s) (RSys (poll_events retiring target epoch l r).1 tasks d s)
| rr_forget r tasks d s oid t :
    operation oid r = Some t ->
    router_step (RSys r tasks d s)
      (RSys (forget_output oid r) tasks d (((fun o => (o, forget_reason t)) <$> filter (fun o => forgotten t r o = true) (ro_operations r)) ++ s))
| rr_returned r tasks d s t sequence same_port metadata :
    router_step (RSys r tasks d s) (RSys (rpc_returned t sequence same_port metadata r).1 tasks d s)
| rr_listed r tasks d s items sequence :
    router_step (RSys r tasks d s) (RSys (set_epochs (list_targets items sequence (ro_epochs r)) r) tasks d s)
| rr_sequence r tasks d s :
    router_step (RSys r tasks d s) (RSys (set_epochs (next_sequence (ro_epochs r)).1 r) tasks d s)
| rr_session r tasks d s sid c : router_step (RSys r tasks d s) (RSys (set_session sid c r) tasks d s)
| rr_drain r tasks d s : router_step (RSys r tasks d s) (RSys (drain_completions r).1 tasks d s).

Definition start_system : rsystem := RSys new_router [] [] [].

(** ** Every step keeps the invariant *)

Lemma fine_task_failed oid st e r : fine r (task_failed oid st e r).
Proof. unfold task_failed. destruct (controls st); [apply fine_control_failed|apply fine_run_failed]. Qed.

Lemma fine_request_failed oid st sequence e r r' why : request_failed oid st sequence e r = (r', why) -> fine r r'.
Proof.
  unfold request_failed. set (p := match rpc_method st, _ with Some _, Some _ => _ | _, _ => _ end).
  assert (Hp : fine r p.1).
  { subst p. destruct (rpc_method st); [|reflexivity]. destruct (dget oid _); [apply fine_rpc_failed|reflexivity]. }
  destruct p as [r1 e1]. intros [= <- _]. etransitivity; [exact Hp|apply fine_task_failed].
Qed.

Lemma fine_outcome_arrived oid st out r r' why : fine r out.1 -> outcome_arrived oid st out = (r', why) -> fine r r'.
Proof.
  destruct out as [r1 [a|e]]; simpl; intros Hf [= <- _]; (etransitivity; [exact Hf|]); [|apply fine_task_failed].
  destruct (watches st); [apply fine_watch_changed|reflexivity].
Qed.

Lemma fine_first_reply oid st rp r next r' why : first_reply oid st rp r = (next, (r', why)) -> fine r r'.
Proof.
  unfold first_reply. destruct (_outcome oid rp r) as [[r1 out]|] eqn:E; [|intros [= _ <- _]; reflexivity].
  intros H. injection H as _ H. apply (fine_outcome_arrived oid st (r1, out) r r' why); [by eapply fine_outcome|exact H].
Qed.

Lemma fine_shutdown_replied oid st error accepted r r' why : shutdown_replied oid st error accepted r = (r', why) -> fine r r'.
Proof.
  unfold shutdown_replied. pose proof (fine_shutdown_reply oid error accepted r) as Hf.
  destruct (shutdown_reply _ _ _ _) as [r1 [[]|e]]; intros [= <- _]; [exact Hf|]. etransitivity; [exact Hf|apply fine_task_failed].
Qed.

Lemma step_fine s s' : router_step s s' -> fine (ry_router s) (ry_router s').
Proof.
  destruct 1 as [| ? ? ? ? ? ? ? ? ? ? ? E|? ? ? ? ? ? ? ? ? ? ? ? E| | | | |? ? ? ? ? ? ? ? ? ? Hst E| | | |? ? ? ? ? ? ? ? E| | | | | | | | |];
    cbn [ry_router].
  - by apply fine_run_begin.
  - pose proof (fine_command_prepared oid m stdin privileged r) as H. by rewrite E in H.
  - pose proof (fine_command_prepared oid m stdin privileged r) as H. rewrite E in H. etransitivity; [exact H|apply fine_task_failed].
  - apply fine_approval_given.
  - by eapply fine_request_failed.
  - destruct (controls st); [reflexivity|apply fine_run_aborted].
  - by eapply fine_first_reply.
  - eapply fine_outcome_arrived; [|exact E]. apply fine_outcome_reply.
  - reflexivity.
  - by eapply fine_shutdown_replied.
  - by eapply fine_control_begin.
  - pose proof (fine_adopt oid result r) as H. by rewrite E in H.
  - by eapply fine_reconcile.
  - apply fine_rpc_failed.
  - apply fine_poll_events.
  - apply fine_forget_output.
  - apply fine_rpc_returned.
  - apply fine_epochs, list_targets_ok.
  - apply fine_epochs, next_sequence_ok.
  - apply fine_session.
  - apply fine_drain.
Qed.

Lemma run_fine s s' : rtc router_step s s' -> fine (ry_router s) (ry_router s').
Proof. induction 1 as [|a b c H _ IH]; [reflexivity|]. etransitivity; [by apply step_fine|exact IH]. Qed.

Lemma new_router_ok : router_ok new_router.
Proof. split; try done; intros x H; by apply elem_of_nil in H. Qed.

Lemma reachable_router_ok s : rtc router_step start_system s -> router_ok (ry_router s).
Proof. intros H. apply run_fine in H. by apply H, new_router_ok. Qed.

(** ** What the workers are believed to be *)

(** A retired worker runtime is never believed again.  Once the router has seen another
    runtime in a worker's place, or was told that the runtime changed, then whatever
    replies, lists and failures arrive later and in whatever order: the epoch stays
    retired, it is never the observed epoch of its target, and no result that carries it
    is adopted for any ticket of the target. *)
Theorem retired_runtime_never_believed s s' target epoch :
  rtc router_step start_system s -> rtc router_step s s' -> epoch ∈ retired_of target (ro_epochs (ry_router s)) ->
  epoch ∈ retired_of target (ro_epochs (ry_router s')) /\
  (forall seq, dget target (ep_observed (ro_epochs (ry_router s'))) <> Some (seq, Some epoch)) /\
  (forall oid t result, dget oid (ro_heap (ry_router s')) = Some t -> tk_target t = target -> sr_runtime_epoch result = epoch ->
     _adopt oid result (ry_router s') = (ry_router s', Raise (Failure "runtime_changed" "unknown" ""))).
Proof.
  intros H0 H Hr. pose proof (reachable_router_ok s H0) as Hok. destruct (run_fine s s' H Hok) as [Hok' Hg].
  assert (Hr' : epoch ∈ retired_of target (ro_epochs (ry_router s'))) by (by apply (rg_epochs _ _ Hg)). split_and!; [done| |].
  - intros seq E. pose proof (rk_epochs _ Hok' target) as Hk. rewrite E in Hk. done.
  - intros oid t result Ht Et Ee. unfold _adopt. rewrite Ht, retired_not_adopted; [done|apply Hok'|]. by rewrite Et, Ee.
Qed.

(** What the host knows of a session never goes back.  As long as a session is open,
    its watch generation, its event sequence and the totals of its streams only grow and
    a terminal status stays terminal, although replies of controls, polls and
    observations overtake each other; and once its output was released the session is
    gone for good: it has no view and no completion, and no late result for any of its
    tickets is adopted. *)
Theorem sessions_never_go_back s s' sid :
  rtc router_step start_system s -> rtc router_step s s' ->
  (forall p, session_view sid (ry_router s) = Some p ->
     sid ∈ ro_consumed (ry_router s') \/
     exists p', session_view sid (ry_router s') = Some p' /\
       sr_watch_generation p <= sr_watch_generation p' /\ sr_event_sequence p <= sr_event_sequence p' /\
       sr_stdout_total p <= sr_stdout_total p' /\ sr_stderr_total p <= sr_stderr_total p' /\
       (terminal (sr_status p) = true -> terminal (sr_status p') = true)) /\
  (sid ∈ ro_consumed (ry_router s) ->
     sid ∈ ro_consumed (ry_router s') /\ session_view sid (ry_router s') = None /\
     dget sid (ro_completions (ry_router s')) = None /\
     forall oid t result a, dget oid (ro_heap (ry_router s')) = Some t -> tk_public_id t = sid ->
       (_adopt oid result (ry_router s')).2 <> Ok a).
Proof.
  intros H0 H. pose proof (reachable_router_ok s H0) as Hok. destruct (run_fine s s' H Hok) as [Hok' Hg]. split.
  - intros p Hp. destruct (rg_view _ _ Hg _ _ Hp) as [?|(p' & Hp' & Ho)]; [by left|right]. exists p'. split; [done|].
    by apply snapshot_is_older_spec in Ho.
  - intros Hs. apply (rg_consumed _ _ Hg) in Hs. split_and!; [done| |by apply (rk_consumed _ Hok')|].
    + unfold session_view. destruct (dget sid (ro_tickets _)) as [oid|] eqn:E; [|done].
      by destruct (rk_tickets _ Hok' _ _ E) as (? & ? & _ & _ & _ & ? & _).
    + intros oid t result a Ht Hp. unfold _adopt. rewrite Ht. destruct (adopt_epoch_ok _ _ _); [|done].
      rewrite Hp, bool_decide_true by done. by destruct (owned oid _), (cx_control _).
Qed.

(** ** What stays tracked *)

Record tracks (gone : string -> Prop) (r r' : Router) : Prop := Tracks {
  tr_heap : forall oid, is_Some (dget oid (ro_heap r)) -> is_Some (dget oid (ro_heap r'));
  tr_back : forall oid, is_Some (dget oid (ro_heap r)) -> oid ∈ ro_operations r' -> oid ∈ ro_operations r;
  tr_kept : forall oid, oid ∈ ro_operations r -> oid ∈ ro_operations r' \/ gone oid;
  tr_mark : forall oid, oid ∈ ro_operations r -> oid ∈ ro_operations r' ->
    cx_submitted (context_of oid r) = true -> cx_submitted (context_of oid r') = true
}.

Lemma tracks_refl gone r : tracks gone r r.
Proof. split; auto. Qed.

Lemma tracks_weaken (gone gone' : string -> Prop) r r' : (forall oid, gone oid -> gone' oid) -> tracks gone r r' -> tracks gone' r r'.
Proof. intros H [H1 H2 H3 H4]. split; auto. intros oid Ho. destruct (H3 _ Ho); auto. Qed.

Lemma tracks_trans gone r1 r2 r3 : router_ok r1 -> tracks gone r1 r2 -> tracks gone r2 r3 -> tracks gone r1 r3.
Proof.
  intros Hok [A1 A2 A3 A4] [B1 B2 B3 B4]. assert (Hh : forall oid, oid ∈ ro_operations r1 -> is_Some (dget oid (ro_heap r1)))
    by (intros oid Ho; by apply (rk_owned _ Hok)). split; auto.
  - intros oid Ho. destruct (A3 _ Ho) as [?|?]; [auto|by right].
  - intros oid Ho Ho3 Hs. assert (Ho2 : oid ∈ ro_operations r2) by auto. auto.
Qed.

(** Nothing leaves, and the contexts keep their marks. *)
Lemma tracks_frame gone r r' :
  ro_operations r' = ro_operations r -> (forall oid, is_Some (dget oid (ro_heap r)) -> is_Some (dget oid (ro_heap r'))) ->
  (forall oid, cx_submitted (context_of oid r) = true -> cx_submitted (context_of oid r') = true) -> tracks gone r r'.
Proof. intros E Hh Hc. split; rewrite ?E; auto. Qed.

Lemma heap_dset oid oid' t r : is_Some (dget oid (ro_heap r)) -> is_Some (dget oid (dset oid' t (ro_heap r))).
Proof. intros H. rewrite dget_dset. case_decide; [by eexists|done]. Qed.

Lemma tracks_epochs gone e r : tracks gone r (set_epochs e r).
Proof. by apply tracks_frame. Qed.

Lemma tracks_context gone oid c r :
  (cx_submitted (context_of oid r) = true -> cx_submitted c = true) -> tracks gone r (set_context oid c r).
Proof.
  intros H. apply tracks_frame; [done|done|]. intros o. unfold context_of in *. simpl. rewrite dget_dset. case_decide; [by subst|done].
Qed.

Lemma tracks_pop_operation (gone : string -> Prop) oid r : gone oid -> tracks gone r (pop_operation oid r).
Proof.
  intros H. split; [done| | |done].
  - by intros o _ [_ ?]%list_elem_of_filter.
  - intros o Ho. destruct (decide (o = oid)) as [->|]; [by right|]. left. by apply list_elem_of_filter.
Qed.

Lemma tracks_drop (gone : string -> Prop) oid r : gone oid -> tracks gone r (drop_operation oid r).
Proof.
  intros H. destruct (tracks_pop_operation gone oid r H) as [A1 A2 A3 A4]. split; try done.
  intros o Ho [Hn _]%list_elem_of_filter Hs. unfold context_of in *. simpl. by rewrite dget_ddel_ne.
Qed.

Lemma tracks_register gone t c r : dget (tk_operation_id t) (ro_heap r) = None -> router_ok r -> tracks gone r (register t c r).
Proof.
  intros Hn Hok. assert (Hne : forall o, is_Some (dget o (ro_heap r)) -> o <> tk_operation_id t) by (intros o [x Hx] ->; congruence).
  split.
  - intros o Ho. by apply heap_dset.
  - intros o Ho [H|H]%elem_of_app; [by apply list_elem_of_filter in H as [_ ?]|]. apply list_elem_of_singleton in H. by apply Hne in Ho.
  - intros o Ho. left. apply elem_of_app. left. apply list_elem_of_filter. split; [|done]. by apply Hne, (rk_owned _ Hok).
  - intros o Ho _ Hs. unfold context_of in *. simpl. rewrite dget_dset_ne; [done|]. symmetry. by apply Hne, (rk_owned _ Hok).
Qed.

(** [_adopt] removes its own operation only, and only when the output of a control's
    session was released meanwhile. *)
Lemma tracks_adopt oid result r :
  tracks (fun o => o = oid /\ cx_control (context_of oid r) = true /\
                   (_adopt oid result r).2 = Raise (Failure "output_released" "applied" "")) r (_adopt oid result r).1.
Proof.
  unfold _adopt. destruct (dget oid (ro_heap r)) as [t|] eqn:Ht; [|apply tracks_refl].
  destruct (adopt_epoch_ok _ _ _); [|apply tracks_refl]. cbn [negb]. destruct (can_adopt _ _ _); cbn [negb fst snd].
  - apply tracks_frame; [done| |].
    + intros o Ho. by apply heap_dset.
    + intros o. unfold context_of. simpl. rewrite dget_dset. case_decide as E; [|done].
      intros H. destruct (decide (o = tk_operation_id t)) as [->|]; [|congruence]. exact H.
  - destruct (cx_control _) eqn:Ec; [by apply tracks_drop|apply tracks_refl].
Qed.

Definition excused (oid : string) (out : res failure adopted) (o : string) : Prop :=
  o = oid /\ exists e, out = Raise e /\ is_Some (reason_of e).

Lemma tracks_outcome_reply oid rp r : tracks (excused oid (outcome_reply oid rp r).2) r (outcome_reply oid rp r).1.
Proof.
  unfold outcome_reply. destruct (rp_error rp) as [[code effect]|].
  - cbn [fst snd]. destruct (bool_decide (effect = "not_started")) eqn:E; [|apply tracks_refl].
    apply tracks_pop_operation. split; [done|]. eexists. split; [done|]. unfold reason_of. cbn [fl_effect]. rewrite E. by eexists.
  - destruct (rp_result rp) as [result|]; [|apply tracks_refl]. destruct (bool_decide _); [|apply tracks_refl].
    eapply tracks_weaken; [|apply tracks_adopt]. intros o (-> & _ & ->). split; [done|]. eexists. split; [done|]. by eexists.
Qed.

Lemma tracks_outcome oid rp r r' out : _outcome oid rp r = Some (r', out) -> tracks (excused oid out) r r'.
Proof.
  unfold _outcome. destruct (bool_decide _).
  - intros [= <- <-]. apply tracks_drop. split; [done|]. eexists. split; [done|]. by eexists.
  - destruct (bool_decide _); [done|]. intros [= E]. pose proof (tracks_outcome_reply oid rp r) as H. by rewrite E in H.
Qed.

(** A failed coroutine forgets its operation before the submission, or when the failure
    proves that nothing started. *)
Lemma tracks_task_failed (gone : string -> Prop) oid st e r :
  (submitted st = false \/ fl_effect e = "not_started" -> gone oid) -> tracks gone r (task_failed oid st e r).
Proof.
  intros H. unfold task_failed, control_failed, run_failed. destruct (controls st); cbn [fst].
  - case_bool_decide; [|apply tracks_refl]. apply tracks_drop. auto.
  - case_bool_decide as E; [|apply tracks_refl]. apply tracks_drop, H. destruct (submitted st); auto.
Qed.

Lemma tracks_watch_changed gone sid a r : tracks gone r (watch_changed sid a r).
Proof. unfold watch_changed. destruct (dget sid _); [|apply tracks_refl]. destruct (_ <? _); [by apply tracks_frame|apply tracks_refl]. Qed.

Lemma tracks_prepared gone oid m stdin privileged r r' out :
  command_prepared oid m stdin privileged r = (r', out) ->
  tracks gone r r' /\ (out = Ok tt -> cx_submitted (context_of oid r') = true).
Proof.
  unfold command_prepared. set (r1 := match dget oid (ro_heap r) with Some _ => _ | None => r end).
  assert (H1 : tracks gone r r1).
  { subst r1. destruct (dget oid (ro_heap r)); [|apply tracks_refl]. apply tracks_frame; [done| |done]. intros o Ho. by apply heap_dset. }
  assert (Hops : ro_operations r1 = ro_operations r) by (subst r1; by destruct (dget oid (ro_heap r))).
  assert (Hctx : ro_context r1 = ro_context r) by (subst r1; by destruct (dget oid (ro_heap r))).
  destruct (let! _ := _ in _) as [[]|e]; intros [= <- <-]; [|done]. split.
  - destruct H1 as [A1 A2 A3 A4]. apply tracks_frame; [exact Hops|exact A1|]. intros o. unfold context_of. simpl. rewrite dget_dset.
    case_decide; [done|]. by rewrite Hctx.
  - intros _. unfold context_of. simpl. by rewrite dget_dset_eq.
Qed.

Lemma tracks_poll_event gone retiring target epoch ev r : router_ok r -> tracks gone r (poll_event retiring target epoch ev r).1.
Proof.
  intros Hok. unfold poll_event. destruct (poll_decision _ _); destruct (event_owner target epoch (ev_result ev) r) as [t|] eqn:Eo; cbn [fst];
    try apply tracks_refl; try (by apply tracks_frame).
  assert (Hc : cx_control (context_of (tk_operation_id t) r) = false).
  { unfold event_owner in Eo. destruct (if str_truthy _ then _ else _) as [u|]; [|done].
    destruct (_ && _ && _) eqn:E; [|done]. injection Eo as ->. bool_to_prop. done. }
  pose proof (tracks_adopt (tk_operation_id t) (ev_result ev) r) as Ha. pose proof (fine_adopt (tk_operation_id t) (ev_result ev) r Hok) as [Hok1 _].
  apply (tracks_weaken _ gone) in Ha; [|intros o (_ & ? & _); congruence].
  destruct (_adopt _ _ r) as [r1 [a|e]]; [|done]. cbn [fst] in *. destruct (dget _ (ro_heap r1)) as [t1|]; [|done].
  destruct (bool_decide _); cbn [fst].
  - eapply tracks_trans; [done|exact Ha|]. destruct (decide _); by apply tracks_frame.
  - eapply tracks_trans; [done|exact Ha|]. destruct (publishes _ _ _); by apply tracks_frame.
Qed.

Lemma tracks_poll_events gone retiring target epoch l r : router_ok r -> tracks gone r (poll_events retiring target epoch l r).1.
Proof.
  revert r. induction l as [|ev l IH]; intros r Hok; simpl; [apply tracks_refl|]. unfold sbind.
  pose proof (tracks_poll_event gone retiring target epoch ev r Hok) as H.
  destruct (fine_poll_event retiring target epoch ev r Hok) as [Hok1 _].
  destruct (poll_event _ _ _ ev r) as [r1 [[]|e]]; cbn [fst] in *; try done.
  eapply tracks_trans; [done|exact H|]. by apply IH.
Qed.

Lemma tracks_forget oid t r : operation oid r = Some t -> tracks (fun o => forgotten t r o = true) r (forget_output oid r).
Proof.
  intros Ht. unfold forget_output. rewrite Ht. split; cbn [ro_heap ro_operations].
  - done.
  - by intros o _ [_ ?]%list_elem_of_filter.
  - intros o Ho. destruct (forgotten t r o) eqn:E; [by right|left]. by apply list_elem_of_filter.
  - intros o Ho [Hf _]%list_elem_of_filter. unfold context_of. cbn [ro_context].
    pose proof (dget_filter_key (fun k => owned k r && forgotten t r k = false) o (ro_context r)) as E.
    rewrite decide_True in E by (rewrite Hf; apply andb_false_r). intros Hs. etransitivity; [|exact Hs]. do 2 f_equal. exact E.
Qed.

(** ** The invariant of the operations *)

Definition accounted (oid : string) (s : rsystem) : Prop :=
  oid ∈ ro_operations (ry_router s) \/ exists why, (oid, why) ∈ ry_settled s.

Record tracked (s : rsystem) : Prop := Tracked {
  tk_ok : router_ok (ry_router s);
  tk_distinct : NoDup (ry_tasks s).*1;
  tk_tasks : forall oid st, (oid, st) ∈ ry_tasks s ->
    is_Some (dget oid (ro_heap (ry_router s))) /\ accounted oid s /\ (submitted st = true <-> oid ∈ ry_dispatched s) /\
    (match st with At_metadata _ _ => True | _ => oid ∈ ro_operations (ry_router s) -> cx_submitted (context_of oid (ry_router s)) = true end);
  tk_dispatched : forall oid, oid ∈ ry_dispatched s ->
    is_Some (dget oid (ro_heap (ry_router s))) /\ accounted oid s /\
    (oid ∈ ro_operations (ry_router s) -> cx_submitted (context_of oid (ry_router s)) = true)
}.

(** A change of the router that accounts for every operation it removes. *)
Lemma tracked_step r tasks d s r' why :
  fine r r' -> tracks (fun o => (exists w, (o, w) ∈ why) \/ (o ∉ d /\ o ∉ tasks.*1)) r r' -> tracked (RSys r tasks d s) ->
  tracked (RSys r' tasks d (why ++ s)).
Proof.
  intros Hf [A1 A2 A3 A4] [K1 K2 K3 K4]. cbn [ry_router ry_tasks ry_dispatched ry_settled] in *. destruct (Hf K1) as [Hok' _].
  assert (Hacc : forall oid, oid ∈ d \/ oid ∈ tasks.*1 -> accounted oid (RSys r tasks d s) -> accounted oid (RSys r' tasks d (why ++ s))).
  { intros oid Hin [Ho|(w & Hw)]; unfold accounted; cbn [ry_router ry_settled].
    - destruct (A3 _ Ho) as [?|[(w & Hw)|[? ?]]]; [by left|right; exists w; apply elem_of_app; by left|naive_solver].
    - right. exists w. apply elem_of_app. by right. }
  assert (Hmark : forall oid, is_Some (dget oid (ro_heap r)) -> (oid ∈ ro_operations r -> cx_submitted (context_of oid r) = true) ->
                  oid ∈ ro_operations r' -> cx_submitted (context_of oid r') = true).
  { intros oid Hh Hm Ho. apply A4; auto. }
  split; cbn [ry_router ry_tasks ry_dispatched]; try done.
  - intros oid st Hin. destruct (K3 _ _ Hin) as (? & ? & ? & Hm). split_and!; [auto| |done|].
    + apply Hacc; [right|done]. apply list_elem_of_fmap. by exists (oid, st).
    + destruct st; try done; by apply Hmark.
  - intros oid Hin. destruct (K4 _ Hin) as (? & ? & Hm). split_and!; [auto|apply Hacc; auto|by apply Hmark].
Qed.

(** A coroutine ends. *)
Lemma tracked_end r l1 x l2 d s : tracked (RSys r (l1 ++ x :: l2) d s) -> tracked (RSys r (l1 ++ l2) d s).
Proof.
  intros [K1 K2 K3 K4]. cbn [ry_router ry_tasks ry_dispatched ry_settled] in *. split; try done.
  - cbn [ry_tasks] in *. rewrite fmap_app, fmap_cons in K2. rewrite fmap_app. apply NoDup_app in K2 as (H1 & H2 & H3).
    apply NoDup_cons in H3 as [_ H3]. apply NoDup_app. split_and!; [done| |done]. intros o Ho Ho'. apply (H2 o Ho). by right.
  - cbn [ry_tasks]. intros oid st Hin. apply K3. apply elem_of_app in Hin as [?|?]; apply elem_of_app; [by left|right; by right].
Qed.

(** A coroutine goes on to an await of the same kind. *)
Lemma tracked_next r l1 oid st st' l2 d s :
  submitted st' = submitted st -> (match st, st' with At_metadata _ _, At_metadata _ _ => True | At_metadata _ _, _ => False | _, _ => True end) ->
  tracked (RSys r (l1 ++ (oid, st) :: l2) d s) -> tracked (RSys r (l1 ++ (oid, st') :: l2) d s).
Proof.
  intros Hs Hm [K1 K2 K3 K4]. cbn [ry_router ry_tasks ry_dispatched ry_settled] in *. split; try done.
  - cbn [ry_tasks]. by rewrite fmap_app, fmap_cons in *.
  - cbn [ry_tasks]. intros o t [Hin|Hin]%elem_of_app; [apply K3, elem_of_app; by left|].
    apply elem_of_cons in Hin as [E|Hin]; [|apply K3, elem_of_app; right; by right]. injection E as -> ->.
    destruct (K3 oid st) as (? & ? & Hd & Hx); [apply elem_of_app; right; left|]. rewrite Hs. split_and!; [done..|].
    destruct st, st'; try done.
Qed.

Lemma task_distinct r l1 oid st l2 d s : tracked (RSys r (l1 ++ (oid, st) :: l2) d s) -> oid ∉ (l1 ++ l2).*1.
Proof.
  intros [_ K2 _ _] Hin. cbn [ry_tasks] in K2. rewrite fmap_app, fmap_cons in K2. rewrite fmap_app in Hin.
  apply NoDup_app in K2 as (_ & H2 & H3). apply NoDup_cons in H3 as [H3 _].
  apply elem_of_app in Hin as [Hin|Hin]; [|done]. apply (H2 oid Hin). left.
Qed.

Lemma task_unsent r l1 oid st l2 d s : submitted st = false -> tracked (RSys r (l1 ++ (oid, st) :: l2) d s) -> oid ∉ d.
Proof.
  intros Hs Ht Hin. destruct (tk_tasks _ Ht oid st) as (_ & _ & Hd & _); [apply elem_of_app; right; left|].
  apply Hd in Hin. congruence.
Qed.

(** The request of a command goes out. *)
Lemma tracked_dispatch r l1 oid st st' l2 d s :
  submitted st = false -> submitted st' = true -> (oid ∈ ro_operations r -> cx_submitted (context_of oid r) = true) ->
  tracked (RSys r (l1 ++ (oid, st) :: l2) d s) -> tracked (RSys r (l1 ++ (oid, st') :: l2) (oid :: d) s).
Proof.
  intros Hs Hs' Hm Ht. pose proof (task_distinct _ _ _ _ _ _ _ Ht) as Hne. destruct Ht as [K1 K2 K3 K4].
  cbn [ry_router ry_tasks ry_dispatched ry_settled] in *.
  destruct (K3 oid st) as (Hh & Ha & _ & _); [apply elem_of_app; right; left|]. split; try done.
  - cbn [ry_tasks]. by rewrite fmap_app, fmap_cons in *.
  - cbn [ry_tasks ry_dispatched]. intros o t Hin. destruct (decide (o = oid)) as [->|Hn].
    + assert (t = st') as ->.
      { apply elem_of_app in Hin as [Hin|Hin]; [|apply elem_of_cons in Hin as [E|Hin]; [congruence|]];
          destruct Hne; apply list_elem_of_fmap; exists (oid, t); (split; [done|]); apply elem_of_app; auto. }
      split_and!; [done|done| |by destruct st'; auto]. rewrite elem_of_cons. naive_solver.
    + destruct (K3 o t) as (? & ? & Hd & ?).
      { apply elem_of_app in Hin as [Hin|Hin]; apply elem_of_app; [by left|]. right. apply elem_of_cons in Hin as [E|Hin]; [congruence|by right]. }
      split_and!; [done..| |done]. rewrite Hd, elem_of_cons. naive_solver.
  - cbn [ry_dispatched]. intros o [->|Ho]%elem_of_cons; [done|by apply K4].
Qed.

(** A failure ends the coroutine. *)
Lemma tracked_failed r r' l1 oid st l2 d s why :
  fine r r' -> tracks (fun o => o = oid /\ (submitted st = true -> exists w, (oid, w) ∈ why)) r r' ->
  tracked (RSys r (l1 ++ (oid, st) :: l2) d s) -> tracked (RSys r' (l1 ++ l2) d (why ++ s)).
Proof.
  intros Hf Htr Ht. eapply tracked_step; [exact Hf| |by eapply tracked_end].
  eapply tracks_weaken; [|exact Htr]. intros o [-> Hw]. destruct (submitted st) eqn:E; [left; auto|right].
  split; [by eapply task_unsent|by eapply task_distinct].
Qed.

Lemma tracks_request_failed oid st sequence e r r' why :
  router_ok r -> request_failed oid st sequence e r = (r', why) ->
  tracks (fun o => o = oid /\ (submitted st = true -> exists w, (oid, w) ∈ why)) r r'.
Proof.
  intros Hok. unfold request_failed. set (p := match rpc_method st, _ with Some _, Some _ => _ | _, _ => _ end).
  assert (Hp : tracks (fun _ => False) r p.1).
  { subst p. destruct (rpc_method st); [|apply tracks_refl]. destruct (dget oid _); [|apply tracks_refl].
    unfold rpc_failed. cbn [fst]. destruct (bool_decide _); [by apply tracks_frame|apply tracks_refl]. }
  destruct p as [r1 e1]. cbn [fst] in Hp. intros [= <- <-]. eapply tracks_trans; [done|eapply tracks_weaken; [|exact Hp]; done|].
  apply tracks_task_failed. intros H. split; [done|]. intros Hs. destruct H as [H|H]; [congruence|].
  exists NotStarted. unfold reason_of. rewrite bool_decide_true by done. apply list_elem_of_here.
Qed.

Lemma tracks_outcome_arrived oid st out r r' why :
  router_ok r -> submitted st = true -> tracks (excused oid out.2) r out.1 -> outcome_arrived oid st out = (r', why) ->
  tracks (fun o => o = oid /\ (submitted st = true -> exists w, (oid, w) ∈ why)) r r'.
Proof.
  intros Hok Hs. destruct out as [r1 [a|e]]; cbn [fst snd outcome_arrived]; intros Htr [= <- <-].
  - eapply tracks_trans; [done| |destruct (watches st); [apply tracks_watch_changed|apply tracks_refl]].
    eapply tracks_weaken; [|exact Htr]. by intros o (_ & e & ? & _).
  - eapply tracks_trans; [done| |].
    + eapply tracks_weaken; [|exact Htr]. intros o (-> & e' & [= <-] & (w & Hw)). split; [done|]. intros _.
      exists w. rewrite Hw. apply list_elem_of_here.
    + apply tracks_task_failed. intros [H|H]; [congruence|]. split; [done|]. intros _. exists NotStarted.
      unfold reason_of. rewrite bool_decide_true by done. apply list_elem_of_here.
Qed.

Lemma tracks_shutdown_replied oid st error accepted r r' why :
  router_ok r -> submitted st = true -> shutdown_replied oid st error accepted r = (r', why) ->
  tracks (fun o => o = oid /\ (submitted st = true -> exists w, (oid, w) ∈ why)) r r'.
Proof.
  intros Hok Hs. unfold shutdown_replied, shutdown_reply. destruct error as [[code effect]|].
  - intros [= <- <-]. apply tracks_task_failed. intros [H|H]; [congruence|]. split; [done|]. intros _. exists NotStarted.
    unfold reason_of. rewrite bool_decide_true by done. apply list_elem_of_here.
  - destruct accepted; intros [= <- <-]; [|apply tracks_refl]. apply tracks_drop. split; [done|]. intros _. exists Answered. left.
Qed.

Lemma tracks_reconcile oid answer r r' out :
  reconcile_reply oid answer r = Some (r', out) ->
  tracks (fun o => o = oid /\ (out = Ok None \/ exists e, out = Raise e /\ is_Some (reason_of e))) r r'.
Proof.
  destruct answer as [|rest|rp]; simpl.
  - intros [= <- <-]. apply tracks_refl.
  - intros [= <- <-]. apply tracks_drop. auto.
  - destruct (_outcome oid rp r) as [[r1 o]|] eqn:E; [|done]. intros [= <- <-]. eapply tracks_weaken; [|by eapply tracks_outcome].
    intros x (-> & e & -> & ?). split; [done|]. right. by exists e.
Qed.

(** The local variable of the coroutine says whether the request went out. *)
Lemma carries_submitted st : carries_command st = submitted st.
Proof. by destruct st. Qed.

(** A new operation with its coroutine. *)
Lemma tracked_start r r' oid st tasks d s :
  fine r r' -> tracks (fun _ => False) r r' -> dget oid (ro_heap r) = None -> oid ∈ ro_operations r' -> is_Some (dget oid (ro_heap r')) ->
  (submitted st = true -> cx_submitted (context_of oid r') = true) -> (match st with At_approve _ => False | _ => True end) ->
  tracked (RSys r tasks d s) -> tracked (RSys r' ((oid, st) :: tasks) (dispatches st oid d) s).
Proof.
  intros Hf Htr Hn Ho Hh Hm Hst Ht.
  assert (Hfresh : oid ∉ tasks.*1 /\ oid ∉ d).
  { destruct Ht as [_ _ K3 K4]. cbn [ry_tasks ry_dispatched ry_router] in *. split.
    - intros ([o t] & E & Hin)%list_elem_of_fmap. simpl in E. subst o. destruct (K3 _ _ Hin) as ([x Hx] & _). congruence.
    - intros Hin. destruct (K4 _ Hin) as ([x Hx] & _). congruence. }
  assert (Ht' : tracked (RSys r' tasks d s)).
  { apply (tracked_step r tasks d s r' []); [done| |done]. eapply tracks_weaken; [|exact Htr]. done. }
  destruct Hfresh as [Hft Hfd], Ht' as [K1 K2 K3 K4]. cbn [ry_router ry_tasks ry_dispatched ry_settled] in *.
  assert (Hd : forall o, o ∈ dispatches st oid d <-> o ∈ d \/ (o = oid /\ submitted st = true)).
  { intros o. unfold dispatches. rewrite carries_submitted. destruct (submitted st); [rewrite elem_of_cons|]; naive_solver. }
  split; try done; cbn [ry_router ry_tasks ry_dispatched].
  - rewrite fmap_cons. by apply NoDup_cons.
  - intros o t [E|Hin]%elem_of_cons.
    + injection E as -> ->. split_and!; [done|by left| |destruct st; try done; auto]. rewrite Hd. naive_solver.
    + destruct (K3 _ _ Hin) as (? & ? & Hx & ?). split_and!; [done..| |done]. rewrite Hd, Hx.
      assert (o <> oid) by (intros ->; destruct Hft; apply list_elem_of_fmap; by exists (oid, t)). naive_solver.
  - intros o [Hin|[-> Hs]]%Hd; [by apply K4|]. split_and!; [done|by left|auto].
Qed.

Lemma registered t c r : tk_operation_id t ∈ ro_operations (register t c r) /\ is_Some (dget (tk_operation_id t) (ro_heap (register t c r))).
Proof. split; [apply elem_of_app; right; left|]. simpl. rewrite dget_dset_eq. by eexists. Qed.

Lemma step_tracked s s' : router_step s s' -> tracked s -> tracked s'.
Proof.
  intros Hstep Ht. pose proof (step_fine _ _ Hstep) as Hf. pose proof (tk_ok _ Ht) as Hok.
  destruct Hstep as
    [? ? ? ? ? oid ? ? ? ? ? ? ? Hn|? ? ? ? ? oid privileged ? m stdin r' E|? ? ? ? ? oid privileged shutdown m stdin r' e E|? ? ? ? ? oid|? ? ? ? ? oid st ? ? ? ? E
    |? ? ? ? ? oid st|? ? ? ? ? oid st rp next r' why Hst E|? ? ? ? ? oid st rp ? ? Hst E| |? ? ? ? ? oid st ? ? ? ? Hst E|r ? ? ? sid oid read_only w r' Hn E
    |? ? ? ? oid result r' out E|? ? ? ? oid answer r' out E| | |? ? ? ? oid t Ho| | | | |]; cbn [ry_router] in *.
  - destruct (registered (command_ticket target oid turn kind binding name) (_capture_context turn transient privileged) r).
    apply (tracked_start r _ oid (At_metadata privileged shutdown)); try done. by apply tracks_register.
  - destruct (tracks_prepared (fun _ => False) _ _ _ _ _ _ _ E) as [Htr Hs]. specialize (Hs eq_refl).
    assert (H' : tracked (RSys r' (l1 ++ (oid, At_metadata privileged shutdown) :: l2) d s)).
    { apply (tracked_step r _ d s r' []); [done| |done]. eapply tracks_weaken; [|exact Htr]. done. }
    destruct privileged; [|by apply (tracked_dispatch _ _ _ (At_metadata false shutdown))].
    destruct H' as [K1 K2 K3 K4]. cbn [ry_router ry_tasks ry_dispatched ry_settled] in *. split; try done.
    + cbn [ry_tasks]. by rewrite fmap_app, fmap_cons in *.
    + cbn [ry_tasks]. intros o t [Hin|Hin]%elem_of_app; [apply K3, elem_of_app; by left|].
      apply elem_of_cons in Hin as [Ei|Hin]; [|apply K3, elem_of_app; right; by right]. injection Ei as -> ->.
      destruct (K3 oid (At_metadata true shutdown)) as (? & ? & Hd & _); [apply elem_of_app; right; left|]. split_and!; [done|done|exact Hd|by intros _].
  - destruct (tracks_prepared (fun _ => False) _ _ _ _ _ _ _ E) as [Htr _].
    apply (tracked_failed r _ l1 oid (At_metadata privileged shutdown) l2 d s []); [done| |done].
    eapply tracks_trans; [done|eapply tracks_weaken; [|exact Htr]; done|]. by apply tracks_task_failed.
  - assert (H' : tracked (RSys (approval_given oid true r).1 (l1 ++ (oid, At_approve shutdown) :: l2) d s)).
    { apply (tracked_step r _ d s _ []); [done| |done]. apply tracks_context. done. }
    apply (tracked_dispatch _ _ _ (At_approve shutdown)); try done.
    destruct (tk_tasks _ H' oid (At_approve shutdown)) as (_ & _ & _ & Hm); [apply elem_of_app; right; left|]. exact Hm.
  - eapply tracked_failed; [done|by eapply tracks_request_failed|done].
  - apply (tracked_failed r _ l1 oid st l2 d s []); [done| |done]. destruct (controls st); [apply tracks_refl|].
    unfold run_aborted. destruct (submitted st) eqn:Es; [apply tracks_refl|]. by apply tracks_drop.
  - assert (Hs : submitted st = true) by (destruct Hst as [->|[->|(w & ->)]]; done). unfold first_reply in E.
    destruct (_outcome oid rp r) as [[r1 out]|] eqn:Eo.
    + injection E as <- E. eapply (tracked_failed r); [done| |done]. apply (tracks_outcome_arrived oid st (r1, out)); try done.
      by eapply tracks_outcome.
    + injection E as <- <- <-. eapply tracked_next; [| |exact Ht]; destruct Hst as [->|[->|(w & ->)]]; done.
  - assert (Hs : submitted st = true) by (destruct Hst as [->|(w & ->)]; done).
    eapply tracked_failed; [done| |done]. eapply tracks_outcome_arrived; [done|done| |exact E]. apply tracks_outcome_reply.
  - eapply tracked_next; [| |exact Ht]; done.
  - assert (Hs : submitted st = true) by (destruct Hst as [->| ->]; done).
    eapply tracked_failed; [done|by eapply tracks_shutdown_replied|done].
  - unfold control_begin in E. destruct (dget sid (ro_tickets r)) as [owner|]; [|done].
    destruct (dget owner (ro_heap r)) as [t|]; [|done]. injection E as <-.
    set (t' := mkTicket _ _ oid _ _ _ _ _ _ _ _). set (c := control_context _ _). destruct (registered t' c r).
    apply (tracked_start r _ oid (At_control w)); try done; [by apply tracks_register|].
    intros _. unfold context_of. simpl. by rewrite dget_dset_eq.
  - apply (tracked_step r); [done| |done]. pose proof (tracks_adopt oid result r) as Htr. rewrite E in Htr.
    eapply tracks_weaken; [|exact Htr]. cbn [fst snd]. intros o (-> & _ & ->). left. exists OutputReleased. left.
  - apply (tracked_step r); [done| |done]. eapply tracks_weaken; [|by eapply tracks_reconcile].
    intros o (-> & [->|(e & -> & (w & Hw))]); left; [exists Answered; left|]. exists w. rewrite Hw. left.
  - apply (tracked_step r _ d s _ []); [done| |done]. unfold rpc_failed. cbn [fst].
    destruct (bool_decide _); [by apply tracks_frame|apply tracks_refl].
  - apply (tracked_step r _ d s _ []); [done| |done]. by apply tracks_poll_events.
  - apply (tracked_step r); [done| |done].
    assert (Ha : forall o, o ∈ ro_operations r -> forgotten t r o = true ->
              (o, forget_reason t) ∈ ((fun o => (o, forget_reason t)) <$> filter (fun o => forgotten t r o = true) (ro_operations r))).
    { intros o Hin Hfo. apply list_elem_of_fmap. exists o. split; [done|]. by apply list_elem_of_filter. }
    destruct (tracks_forget oid t r Ho) as [A1 A2 A3 A4]. split; auto. intros o Hin. destruct (A3 o Hin) as [?|?]; [by left|].
    right. left. exists (forget_reason t). auto.
  - apply (tracked_step r _ d s _ []); [done| |done]. unfold rpc_returned. destruct same_port; [|apply tracks_refl].
    destruct metadata as [x|]; [|apply tracks_refl]. cbn [fst]. destruct (str_truthy x); [by apply tracks_frame|apply tracks_refl].
  - by apply (tracked_step r _ d s _ []); [done|apply tracks_frame|].
  - by apply (tracked_step r _ d s _ []); [done|apply tracks_frame|].
  - by apply (tracked_step r _ d s _ []); [done|apply tracks_frame|].
  - by apply (tracked_step r _ d s _ []); [done|apply tracks_frame|].
Qed.

Lemma reachable_tracked s : rtc router_step start_system s -> tracked s.
Proof.
  intros H. apply (rtc_ind_r (R := router_step) tracked start_system); [|intros a b _ Hs Ha; by eapply step_tracked|exact H].
  split; try (intros x H'; by apply elem_of_nil in H'); [apply new_router_ok|apply NoDup_nil_2|].
  intros oid st H'. by apply elem_of_nil in H'.
Qed.

(** ** The router and the gate *)

Lemma restore_one_known oid it g :
  gate_wf g -> (restore_one (oid, it) g).2 = Ok tt /\ known oid (restore_one (oid, it) g).1.
Proof.
  intros Hw. unfold restore_one, sbind, sget, smodify.
  destruct (dmem oid (g_retired g) || dmem oid (g_operations g)) eqn:E.
  { split; [done|]. apply orb_true_iff in E as [E|E]; apply dmem_true in E as [v Hv]; [right|left]; by eexists. }
  apply orb_false_iff in E as [E1%dmem_false E2%dmem_false].
  destruct (restore_event_phase (operation_kind (restored_item it)) (it_hold_output it) it) as [Hq1 Hq2].
  rewrite insert_advance by (done || by eexists). set (g1 := put_item oid _ g).
  assert (Hw1 : gate_wf g1).
  { apply (good_insert_advanced oid (restored_item it) (restore_event it)); done || by eexists. }
  assert (Hk : known oid g1) by (left; unfold g1; simpl; rewrite dget_dset_eq; by eexists).
  destruct (g_current_epoch g1); [|done]. destruct (bool_decide _); [|done].
  assert (Hit : is_Some (dget oid (g_operations g1))) by (unfold g1; simpl; rewrite dget_dset_eq; by eexists).
  destruct Hit as [it1 Hit]. destruct (keeps_advance oid E_epoch_changed g1 Hw1) as [_ Hev].
  rewrite (advance_eq g1 oid it1) in * by (done || by eapply wf_items). split; [done|]. by eapply evolves_known.
Qed.

Lemma restore_known records oid it g : gate_wf g -> (oid, it) ∈ records -> known oid (restore records g).1.
Proof.
  unfold restore. revert g. induction records as [|[o i] records IH]; intros g Hw Hin; [by apply elem_of_nil in Hin|].
  cbn [sfor]. unfold sbind. destruct (restore_one_known o i g Hw) as [Hok Hk]. destruct (keeps_restore_one (o, i) g Hw) as [Hw1 _].
  destruct (restore_one (o, i) g) as [g1 out]. cbn [fst snd] in *. subst out.
  apply elem_of_cons in Hin as [E|Hin]; [injection E as -> ->|by apply IH].
  destruct (keeps_restore records g1 Hw1) as [_ Hev]. by eapply evolves_known.
Qed.

(** Something of the operation is still open: a control has no reply; a command's output is
    not known, or has to be delivered, or the command was not seen to end. *)
Definition outstanding (require_delivery : bool) (t : Ticket) (r : Router) : Prop :=
  let c := context_of (tk_operation_id t) r in
  cx_read_only c = false /\
  (if cx_control c then cx_resolved c = false
   else tk_output_id t = "" \/ require_delivery = true \/ cx_transient c = true \/
        (tk_native_id t <> 0 /\ ended (command_status t c r) = false)).

Lemma outstanding_reported require t r :
  operation (tk_operation_id t) r = Some t -> cx_submitted (context_of (tk_operation_id t) r) = true ->
  outstanding require t r -> exists it, (tk_operation_id t, it) ∈ execution_records require (tk_target t) r.
Proof.
  intros Hop Hs [Hr Hc]. assert (Hrec : exists it, execution_record require t r = Some (tk_operation_id t, it)).
  { unfold execution_record. rewrite Hs, Hr. cbn [negb andb]. destruct (cx_control _); [rewrite Hc; by eexists|].
    destruct Hc as [->|[->|[->|[Hn ->]]]].
    - rewrite bool_decide_true by done. cbn [negb andb]. by eexists.
    - cbn [orb]. destruct (_ && _); by eexists.
    - rewrite orb_true_r. destruct (_ && _); by eexists.
    - rewrite (bool_decide_false _ Hn). cbn [orb]. rewrite andb_false_r. by eexists. }
  destruct Hrec as [it Hrec]. exists it. unfold execution_records. apply list_elem_of_omap. exists t. split; [|by rewrite decide_True].
  unfold operations, operation, owned in *. apply list_elem_of_omap. exists (tk_operation_id t).
  destruct (bool_decide _) eqn:E; [|done]. bool_to_prop. done.
Qed.


(** ** Concrete runs *)

Definition demo_result (session_id total : Z) : shell_result :=
  ShellResult "e1" "running" session_id "out" "op" "snap" 0 1 total 0 true [].
Definition demo_metadata : worker_metadata := Metadata "e1" true true true true.
Definition demo_ticket : Ticket := command_ticket 1 "op" "turn" "execution" "b" "host".
Definition complete (result : shell_result) : response := Response "complete" None (Some result).

Definition demo_started : rsystem :=
  RSys (run_begin demo_ticket false false new_router) [("op", At_metadata false false)] [] [].
Definition demo_submitted : rsystem :=
  RSys (command_prepared "op" demo_metadata false false (ry_router demo_started)).1 [("op", At_submit)] ["op"] [].
Definition demo_lost : rsystem :=
  RSys (request_failed "op" At_submit 2 (Failure "transport_lost" "unknown" "") (ry_router demo_submitted)).1 [] ["op"] [].
Definition demo_running : rsystem :=
  RSys (first_reply "op" At_submit (complete (demo_result 7 10)) (ry_router demo_submitted)).2.1 [] ["op"] [].
Definition demo_late : rsystem := RSys (_adopt "op" (demo_result 7 4) (ry_router demo_running)).1 [] ["op"] [].

Lemma demo_submitted_reachable : rtc router_step start_system demo_submitted.
Proof.
  eapply rtc_l; [by apply (rr_start new_router [] [] [] 1 "op" "turn" "execution" "b" "host" false false false)|].
  eapply rtc_l; [|apply rtc_refl].
  apply (rr_prepared (ry_router demo_started) [] [] [] [] "op" false false demo_metadata false). vm_compute. reflexivity.
Qed.

Lemma demo_lost_reachable : rtc router_step start_system demo_lost.
Proof.
  eapply rtc_r; [apply demo_submitted_reachable|].
  apply (rr_failed (ry_router demo_submitted) [] [] ["op"] [] "op" At_submit 2 (Failure "transport_lost" "unknown" "") _ []).
  vm_compute. reflexivity.
Qed.

Lemma demo_running_reachable : rtc router_step start_system demo_running.
Proof.
  eapply rtc_r; [apply demo_submitted_reachable|].
  apply (rr_reply (ry_router demo_submitted) [] [] ["op"] [] "op" At_submit (complete (demo_result 7 10)) None _ []);
    [by left|vm_compute; reflexivity].
Qed.

Lemma demo_late_reachable : rtc router_step demo_running demo_late.
Proof.
  eapply rtc_l; [|apply rtc_refl].
  match goal with |- router_step _ demo_late => unfold demo_late end.
  destruct (_adopt "op" (demo_result 7 4) (ry_router demo_running)) as [r' out] eqn:E.
  assert (Ho : exists a, out = Ok a) by (apply (f_equal snd) in E; simpl in E; rewrite <- E; vm_compute; by eexists).
  destruct Ho as [a ->]. apply (rr_adopt (ry_router demo_running) [] ["op"] [] "op" (demo_result 7 4) r' (Ok a) E).
Qed.


Lemma sessions_never_go_back_witness :
  session_view REMOTE_BASE (ry_router demo_running) = Some (demo_result 7 10) /\
  exists p, session_view REMOTE_BASE (ry_router demo_late) = Some p /\ 10 <= sr_stdout_total p.
Proof.
  assert (Hv : session_view REMOTE_BASE (ry_router demo_running) = Some (demo_result 7 10)) by (vm_compute; reflexivity).
  split; [exact Hv|].
  destruct (sessions_never_go_back demo_running demo_late REMOTE_BASE demo_running_reachable demo_late_reachable) as [H _].
  destruct (H _ Hv) as [Hc|(p & Hp & _ & _ & Ho & _)].
  - assert (E : ro_consumed (ry_router demo_late) = []) by (vm_compute; reflexivity). rewrite E in Hc.
    destruct (proj1 (elem_of_nil _) Hc).
  - exists p. split; [exact Hp|exact Ho].
Defined.

Definition demo_e1 : rsystem := RSys (rpc_returned demo_ticket 1 true (Some "e1") new_router).1 [] [] [].
Definition demo_e2 : rsystem := RSys (rpc_returned demo_ticket 2 true (Some "e2") (ry_router demo_e1)).1 [] [] [].
Definition demo_e3 : rsystem := RSys (rpc_returned demo_ticket 3 true (Some "e1") (ry_router demo_e2)).1 [] [] [].

Lemma demo_e2_reachable : rtc router_step start_system demo_e2.
Proof.
  eapply rtc_l; [apply (rr_returned new_router [] [] [] demo_ticket 1 true (Some "e1"))|].
  eapply rtc_l; [apply (rr_returned (ry_router demo_e1) [] [] [] demo_ticket 2 true (Some "e2"))|]. apply rtc_refl.
Qed.

(** A late answer that still names the first runtime changes nothing. *)
Lemma retired_runtime_never_believed_witness :
  dget 1 (ep_observed (ro_epochs (ry_router demo_e3))) = Some (2, Some "e2") /\
  forall seq, dget 1 (ep_observed (ro_epochs (ry_router demo_e3))) <> Some (seq, Some "e1").
Proof.
  split; [vm_compute; reflexivity|].
  apply (retired_runtime_never_believed demo_e2 demo_e3 1 "e1" demo_e2_reachable).
  - eapply rtc_l; [apply (rr_returned (ry_router demo_e2) [] [] [] demo_ticket 3 true (Some "e1"))|]. apply rtc_refl.
  - vm_compute. apply list_elem_of_here.
Defined.

(** A control that the worker turns out not to have started leaves its context behind:
    after [reconcile] no operation is left, and yet the router counts as busy. *)
Example refused_control_stays_busy :
  exists r r', control_begin REMOTE_BASE "c" false (ry_router demo_running) = Some r /\
    reconcile_reply "c" (Answer (Response "complete" (Some ("invalid_session", "not_started")) None)) r =
      Some (r', Raise (Failure "invalid_session" "not_started" "c")) /\
    let r2 := forget_output "op" r' in
    ro_operations r2 = [] /\ ro_tickets r2 = [] /\ execution_work [] r2 = true.
Proof. eexists _, _. split; [vm_compute; reflexivity|]. split; [vm_compute; reflexivity|]. vm_compute. done. Qed.
