(* ===== verification/OutputCache.v ===== *)
(** * The output cache of the host

    [pal_shell_native/router.py], [materialize] and the cache part of [forget_output]: the
    host fetches the output of a remote command in slices, under a sealed snapshot, into
    one file per stream, keeps what it has across failures, and bounds what it keeps.

    The remote side is an interface, [OutputPort]; the last section puts the [output]
    request of a worker behind it. *)

From S2P Require Import Prelude Dict Utf8 Sha256 PyValue JsonText JsonParse Base64 Seal Protocol Canonical Management Worker WorkerOutput Router.
Open Scope Z_scope.

(** The reply to [output]: [None] for a [data] that is not bytes, and for absent keys. *)
Record output_chunk := Chunk { ck_data : option bytes; ck_offset : option Z; ck_total : option Z }.

(** [output] of a snapshot: stream, offset and length. *)
Class OutputPort (S : Type) := output_request : string -> string -> Z -> Z -> M S failure output_chunk.

Record output_cache := OutCache {
  oc_sizes : dict string Z;                      (* self.cache_sizes *)
  oc_files : dict string (dict string bytes)     (* self.cache_files: the content per stream *)
}.

Definition OUTPUT_LIMIT : Z := 8 * 1024 * 1024.
Definition CACHE_LIMIT : Z := 64 * 1024 * 1024.
Definition READ_CHUNK : Z := 256 * 1024.

(** The check before the first request, and the reservation. *)
Definition reserve_output (key : string) (total : Z) (c : output_cache) : res failure output_cache :=
  let old := default 0 (dget key (oc_sizes c)) in
  if (OUTPUT_LIMIT <? total) || (total <? 0) || (CACHE_LIMIT <? dsum (fun n => n) (oc_sizes c) - old + total)
  then Raise (Failure "output_capacity" "applied" "")
  else Ok (OutCache (dset key (Z.max total old) (oc_sizes c)) (oc_files c)).

Definition stream_file (key stream : string) (c : output_cache) : bytes :=
  default [] (dget stream (default [] (dget key (oc_files c)))).
Definition write_file (key stream : string) (data : bytes) (c : output_cache) : output_cache :=
  OutCache (oc_sizes c) (dset key (dset stream data (default [] (dget key (oc_files c)))) (oc_files c)).

(** What a reply may hold. *)
Definition accepted_data (offset size : Z) (ch : output_chunk) : option bytes :=
  match ck_data ch with
  | Some data =>
      if bool_decide (data = []) || (Z.min READ_CHUNK (size - offset) <? Z.of_nat (length data)) ||
         negb (default offset (ck_offset ch) =? offset) || negb (default size (ck_total ch) =? size)
      then None else Some data
  | None => None
  end.

Section materialize.
Context {S : Type} {port : OutputPort S}.
Abbreviation CM := (M (S * output_cache) failure).

Definition ask (snapshot stream : string) (offset length : Z) : CM output_chunk :=
  fun st => let '(s, r) := output_request snapshot stream offset length st.1 in ((s, st.2), r).

(** The loop over one stream; each round appends to the file and takes one unit of [fuel]. *)
Fixpoint fetch (fuel : nat) (key snapshot stream : string) (size : Z) : CM unit :=
  fun st =>
    let data := stream_file key stream st.2 in
    let offset := Z.of_nat (length data) in
    if offset <? size then
      match fuel with
      | O => (st, Raise (Failure "out_of_fuel" "" ""))        (* not an outcome of the program *)
      | Datatypes.S fuel =>
          (do! ch <- ask snapshot stream offset (Z.min READ_CHUNK (size - offset)) ;;
           match accepted_data offset size ch with
           | None => sthrow (Failure "invalid_output" "applied" "")
           | Some more =>
               seq! smodify (fun st => (st.1, write_file key stream (data ++ more) st.2)) ;;
               fetch fuel key snapshot stream size
           end) st
      end
    else (st, Ok tt).

(** [file.read(size)]: a negative size reads everything. *)
Definition read_prefix (size : Z) (data : bytes) : bytes := if size <? 0 then data else take (Z.to_nat size) data.

(** One stream: its file is created when missing. *)
Definition stream_output (key snapshot stream : string) (size : Z) : CM bytes :=
  seq! smodify (fun st => (st.1, write_file key stream (stream_file key stream st.2) st.2)) ;;
  seq! fetch (Z.to_nat size) key snapshot stream size ;;
  do! st <- sget ;;
  sret (read_prefix size (stream_file key stream st.2)).

(** The content of both streams ([load_output=True]). *)
Definition materialize (key snapshot : string) (out err : Z) : CM (bytes * bytes) :=
  do! st <- sget ;;
  match reserve_output key (out + err) st.2 with
  | Raise e => sthrow e
  | Ok c =>
      seq! smodify (fun st => (st.1, c)) ;;
      do! o <- stream_output key snapshot "stdout" out ;;
      do! e <- stream_output key snapshot "stderr" err ;;
      sret (o, e)
  end.
End materialize.

(** The cache part of [forget_output]. *)
Definition forget_cached (key : string) (c : output_cache) : output_cache :=
  OutCache (ddel key (oc_sizes c)) (ddel key (oc_files c)).

(** ** What one fetch does *)

Lemma stream_file_write key stream data c key' stream' :
  stream_file key' stream' (write_file key stream data c) =
    if decide (key = key' /\ stream = stream') then data else stream_file key' stream' c.
Proof.
  unfold stream_file, write_file. simpl. rewrite dget_dset. case_decide as Ek; [subst|by rewrite decide_False by tauto].
  simpl. rewrite dget_dset. case_decide as Es; [by rewrite decide_True|by rewrite decide_False by tauto].
Qed.

Lemma accepted_length offset size ch data :
  accepted_data offset size ch = Some data -> data <> [] /\ Z.of_nat (length data) <= size - offset.
Proof.
  unfold accepted_data. destruct (ck_data ch) as [d|]; [|done]. destruct (_ || _ || _ || _) eqn:E; [done|]. intros [= ->].
  bool_to_prop. split; [done|]. lia.
Qed.

Section fetches.
Context {S : Type} {port : OutputPort S}.
Variable snapshot : string.
Variable content : string -> bytes.                   (* the streams as the remote side has them *)

(** The port never signals exhausted fuel, and what it sends is the content at the offset. *)
Hypothesis port_ends : forall stream offset length s,
  match (port snapshot stream offset length s).2 with Raise e => fl_code e <> "out_of_fuel" | Ok _ => True end.
Hypothesis port_honest : forall stream offset length s ch data,
  (port snapshot stream offset length s).2 = Ok ch -> ck_data ch = Some data -> 0 <= offset ->
  data `prefix_of` drop (Z.to_nat offset) (content stream).

(** The file of the stream is a prefix of the stream. *)
Definition faithful (key stream : string) (c : output_cache) : Prop := stream_file key stream c `prefix_of` content stream.

Lemma fetch_spec fuel key stream size st :
  size <= Z.of_nat (length (stream_file key stream st.2)) + Z.of_nat fuel -> faithful key stream st.2 ->
  let '(st', r) := fetch fuel key snapshot stream size st in
  faithful key stream st'.2 /\
  oc_sizes st'.2 = oc_sizes st.2 /\
  (forall key' stream', (key', stream') <> (key, stream) -> stream_file key' stream' st'.2 = stream_file key' stream' st.2) /\
  match r with
  | Ok _ => size <= Z.of_nat (length (stream_file key stream st'.2))
  | Raise e => fl_code e <> "out_of_fuel"
  end.
Proof.
  revert st. induction fuel as [|fuel IH]; intros [s c] Hf Hp; cbn [fetch fst snd] in *.
  { rewrite (proj2 (Z.ltb_ge _ _)) by lia. cbn [fst snd]. split_and!; [done|done|done|lia]. }
  set (data := stream_file key stream c) in *. destruct (Z.of_nat (length data) <? size) eqn:E; bool_to_prop;
    [|cbn [fst snd]; split_and!; done].
  unfold sbind, ask, output_request. cbn [fst snd].
  pose proof (port_ends stream (Z.of_nat (length data)) (Z.min READ_CHUNK (size - Z.of_nat (length data))) s) as He.
  pose proof (port_honest stream (Z.of_nat (length data)) (Z.min READ_CHUNK (size - Z.of_nat (length data))) s) as Hh.
  destruct (port _ _ _ _ s) as [s' [ch|e]]; cbn [fst snd] in *; [|split_and!; done].
  destruct (accepted_data _ size ch) as [more|] eqn:Ea; [|cbn; split_and!; done].
  pose proof (accepted_length _ _ _ _ Ea) as [Hne Hl]. unfold accepted_data in Ea. destruct (ck_data ch) as [d|] eqn:Ed; [|done].
  destruct (_ || _ || _ || _); [done|]. injection Ea as ->. specialize (Hh ch more eq_refl Ed ltac:(lia)).
  unfold smodify. cbn [fst snd]. specialize (IH (s', write_file key stream (data ++ more) c)).
  cbn [fst snd] in IH. assert (Hw : stream_file key stream (write_file key stream (data ++ more) c) = data ++ more)
    by (rewrite stream_file_write; by rewrite decide_True).
  destruct (fetch fuel key snapshot stream size _) as [st' r]. destruct IH as (H1 & H2 & H3 & H4).
  - rewrite Hw, length_app. destruct more; [done|]. simpl length. lia.
  - unfold faithful in *. rewrite Hw. rewrite Nat2Z.id in Hh. destruct Hp as [rest Hp]. fold data in Hp. rewrite Hp in Hh |- *.
    rewrite drop_app_length in Hh. by apply prefix_app.
  - split_and!; [done|by rewrite H2| |done]. intros key' stream' Hk. rewrite H3 by done. rewrite stream_file_write.
    rewrite decide_False; [done|]. intros [-> ->]. done.
Qed.

Lemma stream_output_spec key stream size st :
  0 <= size -> faithful key stream st.2 ->
  let '(st', r) := stream_output key snapshot stream size st in
  faithful key stream st'.2 /\
  (forall stream', stream' <> stream -> stream_file key stream' st'.2 = stream_file key stream' st.2) /\
  match r with Ok data => data = take (Z.to_nat size) (content stream) | Raise e => fl_code e <> "out_of_fuel" end.
Proof.
  intros H0 Hp. unfold stream_output, sbind at 1, smodify at 1. set (c1 := write_file _ _ _ st.2).
  assert (Hw : forall s', stream_file key s' c1 = stream_file key s' st.2).
  { intros s'. unfold c1. rewrite stream_file_write. case_decide as E; [by destruct E as [_ <-]|done]. }
  pose proof (fetch_spec (Z.to_nat size) key stream size (st.1, c1)) as H. cbn [snd] in H. unfold faithful in *. rewrite !Hw in H.
  specialize (H ltac:(lia) Hp). unfold sbind. destruct (fetch _ _ _ _ _ _) as [st' [[]|e]]; destruct H as (H1 & _ & H2 & H3).
  - unfold sget, sret. split_and!; [done|intros s' Hs; rewrite H2 by congruence; apply Hw|]. unfold read_prefix.
    rewrite (proj2 (Z.ltb_ge _ _)) by lia. destruct H1 as [rest ->]. symmetry. apply take_app_le. lia.
  - split_and!; [done|intros s' Hs; rewrite H2 by congruence; apply Hw|done].
Qed.

(** A port that serves every slice it is asked for. *)
Definition serves (stream : string) (size : Z) (s : S) : Prop :=
  forall offset length, 0 <= offset < size -> 1 <= length <= Z.min READ_CHUNK (size - offset) ->
  exists ch more, port snapshot stream offset length s = (s, Ok ch) /\ accepted_data offset size ch = Some more.

Lemma fetch_serves fuel key stream size st :
  serves stream size st.1 -> size <= Z.of_nat (length (stream_file key stream st.2)) + Z.of_nat fuel ->
  exists c, fetch fuel key snapshot stream size st = ((st.1, c), Ok tt).
Proof.
  revert st. induction fuel as [|fuel IH]; intros [s c] Hs Hf; cbn [fetch fst snd] in *.
  { rewrite (proj2 (Z.ltb_ge _ _)) by lia. by eexists. }
  destruct (_ <? size) eqn:E; [|by eexists]. bool_to_prop. unfold sbind, ask, output_request. cbn [fst snd].
  destruct (Hs (Z.of_nat (length (stream_file key stream c))) (Z.min READ_CHUNK (size - Z.of_nat (length (stream_file key stream c)))))
    as (ch & more & Hp & Ha); [lia|unfold READ_CHUNK; lia|]. rewrite Hp. cbn [fst snd]. rewrite Ha.
  unfold smodify. cbn [fst snd]. apply accepted_length in Ha as [Hne _].
  apply (IH (s, write_file key stream (stream_file key stream c ++ more) c)); [exact Hs|]. cbn [fst snd].
  rewrite stream_file_write, decide_True, length_app by done. destruct more; [done|]. simpl length. lia.
Qed.

Lemma stream_output_serves key stream size st :
  serves stream size st.1 -> exists c data, stream_output key snapshot stream size st = ((st.1, c), Ok data).
Proof.
  intros Hs. unfold stream_output, sbind at 1, smodify at 1. set (c1 := write_file _ _ _ st.2).
  destruct (fetch_serves (Z.to_nat size) key stream size (st.1, c1) Hs ltac:(lia)) as [c Hc].
  unfold sbind. rewrite Hc. unfold sget, sret. by eexists _, _.
Qed.

(** Both streams. *)
Lemma materialize_spec key out err st :
  0 <= out -> 0 <= err -> faithful key "stdout" st.2 -> faithful key "stderr" st.2 ->
  let '(st', r) := materialize key snapshot out err st in
  faithful key "stdout" st'.2 /\ faithful key "stderr" st'.2 /\
  (forall o e, r = Ok (o, e) -> o = take (Z.to_nat out) (content "stdout") /\ e = take (Z.to_nat err) (content "stderr")) /\
  (serves "stdout" out st.1 -> serves "stderr" err st.1 -> is_ok (reserve_output key (out + err) st.2) = true -> is_ok r = true).
Proof.
  intros Ho He Po Pe. unfold materialize, sbind at 1, sget at 1. destruct (reserve_output key (out + err) st.2) as [c|e] eqn:Er; [|done].
  assert (Hc : forall s, stream_file key s c = stream_file key s st.2).
  { intros s. unfold stream_file, reserve_output in *. destruct (_ || _ || _); [done|]. by injection Er as <-. }
  unfold sbind at 1, smodify at 1. cbn [fst snd]. unfold faithful in *.
  pose proof (stream_output_spec key "stdout" out (st.1, c) Ho) as H1. pose proof (stream_output_serves key "stdout" out (st.1, c)) as S1.
  cbn [fst snd] in *. unfold faithful in H1. rewrite !Hc in H1. specialize (H1 Po). unfold sbind at 1.
  destruct (stream_output key snapshot "stdout" out (st.1, c)) as [st1 [o|e]]; destruct H1 as (A1 & A2 & A3); cycle 1.
  { split_and!; [done| |done|].
    - rewrite A2 by done. cbn [snd]. by rewrite Hc.
    - intros Hs _ _. by destruct (S1 Hs) as (? & ? & ?). }
  pose proof (stream_output_spec key "stderr" err st1 He) as H2. pose proof (stream_output_serves key "stderr" err st1) as S2.
  unfold faithful in H2. rewrite (A2 "stderr") in H2 by done. cbn [snd] in H2. rewrite Hc in H2. specialize (H2 Pe). unfold sbind.
  destruct (stream_output key snapshot "stderr" err st1) as [st2 [e|e]]; destruct H2 as (B1 & B2 & B3).
  - cbn [sret]. split_and!; [by rewrite (B2 "stdout") by done|done|by intros ? ? [= <- <-]|done].
  - split_and!; [by rewrite (B2 "stdout") by done|done|done|]. intros Hs1 Hs2 _. destruct (S1 Hs1) as (c' & d & [= E _]).
    rewrite E in S2. cbn [fst] in S2. by destruct (S2 Hs2) as (? & ? & ?).
Qed.
End fetches.

(** ** The cache under concurrent readers *)

(** A [materialize] that is under way; the lock of its output keeps others away. *)
Record reading := Reading { rd_key : string; rd_out : Z; rd_err : Z }.
Record cache_system := CacheSys { cs_cache : output_cache; cs_readers : list reading }.

(** The size a reader fetches of a stream. *)
Definition stream_size (rd : reading) (stream : string) : option Z :=
  if decide (stream = "stdout") then Some (rd_out rd) else if decide (stream = "stderr") then Some (rd_err rd) else None.

(** Steps of the cache.  The totals of an output do not go back from one reader to the next
    (what [RouterRuns.v] shows of a session), and an output is released when no one reads it. *)
Inductive cache_step : cache_system -> cache_system -> Prop :=
| cs_begin c c' readers key out err :
    key ∉ rd_key <$> readers ->
    Z.of_nat (length (stream_file key "stdout" c)) <= out -> Z.of_nat (length (stream_file key "stderr" c)) <= err ->
    reserve_output key (out + err) c = Ok c' ->
    cache_step (CacheSys c readers) (CacheSys c' (Reading key out err :: readers))
| cs_append c readers rd stream size more :
    rd ∈ readers -> stream_size rd stream = Some size ->
    Z.of_nat (length (stream_file (rd_key rd) stream c ++ more)) <= size ->
    cache_step (CacheSys c readers) (CacheSys (write_file (rd_key rd) stream (stream_file (rd_key rd) stream c ++ more) c) readers)
| cs_end c l1 rd l2 : cache_step (CacheSys c (l1 ++ rd :: l2)) (CacheSys c (l1 ++ l2))
| cs_forget c readers key : key ∉ rd_key <$> readers -> cache_step (CacheSys c readers) (CacheSys (forget_cached key c) readers).

(** The bytes on disk of one output, and of all. *)
Definition usage (files : dict string bytes) : Z :=
  Z.of_nat (length (default [] (dget "stdout" files))) + Z.of_nat (length (default [] (dget "stderr" files))).
Definition disk (c : output_cache) : Z := dsum usage (oc_files c).

Record cache_ok (s : cache_system) : Prop := CacheOk {
  ck_distinct : NoDup (rd_key <$> cs_readers s);
  ck_wf : dwf (oc_sizes (cs_cache s)) /\ dwf (oc_files (cs_cache s));
  ck_sum : dsum (fun n => n) (oc_sizes (cs_cache s)) <= CACHE_LIMIT;
  ck_each : forall key n, dget key (oc_sizes (cs_cache s)) = Some n -> 0 <= n <= OUTPUT_LIMIT;
  ck_usage : forall key files, dget key (oc_files (cs_cache s)) = Some files ->
    exists n, dget key (oc_sizes (cs_cache s)) = Some n /\ usage files <= n;
  ck_readers : forall rd, rd ∈ cs_readers s ->
    (exists n, dget (rd_key rd) (oc_sizes (cs_cache s)) = Some n /\ rd_out rd + rd_err rd <= n) /\
    Z.of_nat (length (stream_file (rd_key rd) "stdout" (cs_cache s))) <= rd_out rd /\
    Z.of_nat (length (stream_file (rd_key rd) "stderr" (cs_cache s))) <= rd_err rd
}.

Lemma usage_stream key c : usage (default [] (dget key (oc_files c))) =
  Z.of_nat (length (stream_file key "stdout" c)) + Z.of_nat (length (stream_file key "stderr" c)).
Proof. done. Qed.

Lemma reserve_sum key total c c' :
  reserve_output key total c = Ok c' ->
  oc_files c' = oc_files c /\ 0 <= total <= OUTPUT_LIMIT /\
  oc_sizes c' = dset key (Z.max total (default 0 (dget key (oc_sizes c)))) (oc_sizes c) /\
  dsum (fun n => n) (oc_sizes c) - default 0 (dget key (oc_sizes c)) + total <= CACHE_LIMIT.
Proof.
  unfold reserve_output. destruct (_ || _ || _) eqn:E; [done|]. intros [= <-]. bool_to_prop. simpl. split_and!; done || lia.
Qed.

Lemma dsum_dset key n (d : dict string Z) :
  dsum (fun n => n) (dset key n d) = dsum (fun n => n) d - default 0 (dget key d) + n.
Proof.
  destruct (dget key d) as [v|] eqn:E; simpl; [by rewrite (dsum_replace _ _ _ v)|]. rewrite dsum_fresh by done. lia.
Qed.

Lemma cache_begin_ok c c' readers key out err :
  key ∉ rd_key <$> readers ->
  Z.of_nat (length (stream_file key "stdout" c)) <= out -> Z.of_nat (length (stream_file key "stderr" c)) <= err ->
  reserve_output key (out + err) c = Ok c' -> cache_ok (CacheSys c readers) -> cache_ok (CacheSys c' (Reading key out err :: readers)).
Proof.
  intros Hk Ho He Hr [K1 [K2 K2'] K3 K4 K5 K6]. cbn [cs_cache cs_readers] in *.
  destruct (reserve_sum _ _ _ _ Hr) as (Ef & Ht & Es & Hs).
  assert (Hold : 0 <= default 0 (dget key (oc_sizes c)) <= OUTPUT_LIMIT).
  { destruct (dget key (oc_sizes c)) eqn:E; [by apply (K4 key)|]. unfold OUTPUT_LIMIT. simpl. lia. }
  assert (Hget : forall k n, dget k (oc_sizes c) = Some n -> exists n', dget k (oc_sizes c') = Some n' /\ n <= n').
  { intros k n Hn. rewrite Es, dget_dset. case_decide; [subst; rewrite Hn; simpl; eexists; split; [done|lia]|by exists n]. }
  assert (Hfile : forall k s, stream_file k s c' = stream_file k s c) by (intros; unfold stream_file; by rewrite Ef).
  split; cbn [cs_cache cs_readers].
  - rewrite fmap_cons. by apply NoDup_cons.
  - rewrite Ef, Es. split; [by apply dwf_dset|done].
  - rewrite Es, dsum_dset. lia.
  - intros k n. rewrite Es, dget_dset. case_decide; [intros [= <-]; lia|apply K4].
  - rewrite Ef. intros k files Hf. destruct (K5 _ _ Hf) as (n & Hn & ?). destruct (Hget _ _ Hn) as (n' & ? & ?). exists n'. split; [done|lia].
  - intros rd [->|Hin]%elem_of_cons; rewrite ?Hfile.
    + cbn [rd_key rd_out rd_err]. split; [|done]. rewrite Es, dget_dset_eq. eexists. split; [done|lia].
    + destruct (K6 _ Hin) as ((n & Hn & ?) & ? & ?). destruct (Hget _ _ Hn) as (n' & ? & ?). split_and!; [exists n'; split; [done|lia]|done|done].
Qed.

Lemma cache_append_ok c readers rd stream size more :
  rd ∈ readers -> stream_size rd stream = Some size -> Z.of_nat (length (stream_file (rd_key rd) stream c ++ more)) <= size ->
  cache_ok (CacheSys c readers) -> cache_ok (CacheSys (write_file (rd_key rd) stream (stream_file (rd_key rd) stream c ++ more) c) readers).
Proof.
  intros Hin Hsize Hl [K1 [K2 K2'] K3 K4 K5 K6]. cbn [cs_cache cs_readers] in *.
  set (data := _ ++ more) in *. set (c' := write_file (rd_key rd) stream data c).
  destruct (K6 _ Hin) as ((n & Hn & Hsum) & Ho & He).
  assert (Hnew : Z.of_nat (length (stream_file (rd_key rd) "stdout" c')) <= rd_out rd /\
                 Z.of_nat (length (stream_file (rd_key rd) "stderr" c')) <= rd_err rd).
  { unfold c'. rewrite !stream_file_write. unfold stream_size in Hsize.
    destruct (decide (stream = "stdout")) as [->|Hs1]; [injection Hsize as <-|].
    - rewrite decide_True, decide_False by (intuition discriminate). done.
    - destruct (decide (stream = "stderr")) as [->|]; [injection Hsize as <-|done].
      rewrite decide_False, decide_True by (intuition discriminate). done. }
  split; cbn [cs_cache cs_readers]; try done.
  - split; [done|]. simpl. by apply dwf_dset.
  - intros k files. simpl. rewrite dget_dset. case_decide as E; [|apply K5]. intros [= <-]. subst k. exists n. split; [done|].
    pose proof (usage_stream (rd_key rd) c') as Hu. unfold c' at 1 in Hu. simpl in Hu. rewrite dget_dset_eq in Hu.
    simpl in Hu. fold c' in Hu. rewrite Hu. lia.
  - intros rd' Hin'. destruct (K6 _ Hin') as (? & ? & ?). split; [done|].
    destruct (decide (rd_key rd' = rd_key rd)) as [E|E].
    + assert (rd' = rd) as ->; [|done]. apply list_elem_of_lookup in Hin as [i Hi], Hin' as [j Hj].
      assert (i = j) as <-; [|congruence]. eapply NoDup_lookup; [exact K1| |]; rewrite list_lookup_fmap;
        [by rewrite Hi|by rewrite Hj; simpl; f_equal].
    + unfold c'. rewrite !stream_file_write, !decide_False by naive_solver. done.
Qed.

Lemma cache_end_ok c l1 rd l2 : cache_ok (CacheSys c (l1 ++ rd :: l2)) -> cache_ok (CacheSys c (l1 ++ l2)).
Proof.
  intros [K1 K2 K3 K4 K5 K6]. cbn [cs_cache cs_readers] in *. split; try done; cbn [cs_cache cs_readers].
  - rewrite fmap_app, fmap_cons in K1. rewrite fmap_app. apply NoDup_app in K1 as (H1 & H2 & H3). apply NoDup_cons in H3 as [_ H3].
    apply NoDup_app. split_and!; [done| |done]. intros x Hx Hx'. apply (H2 x Hx). by right.
  - intros rd' Hin. apply K6. apply elem_of_app in Hin as [?|?]; apply elem_of_app; [by left|right; by right].
Qed.

Lemma cache_forget_ok c readers key :
  key ∉ rd_key <$> readers -> cache_ok (CacheSys c readers) -> cache_ok (CacheSys (forget_cached key c) readers).
Proof.
  intros Hk [K1 [K2 K2'] K3 K4 K5 K6]. cbn [cs_cache cs_readers] in *. split; cbn [cs_cache cs_readers]; [done|..].
  - split; simpl; by apply dwf_ddel.
  - simpl. destruct (dget key (oc_sizes c)) as [n|] eqn:E; [|by rewrite ddel_absent].
    rewrite (dsum_ddel _ _ n) by done. specialize (K4 _ _ E). lia.
  - intros k n. simpl. rewrite dget_ddel. case_decide; [done|apply K4].
  - intros k files. simpl. rewrite dget_ddel. case_decide; [done|]. intros (n & Hn & ?)%K5. exists n. by rewrite dget_ddel_ne.
  - intros rd Hin. assert (Hne : key <> rd_key rd) by (intros ->; apply Hk, list_elem_of_fmap; by exists rd).
    destruct (K6 _ Hin) as ((n & Hn & ?) & ? & ?). unfold stream_file. simpl. rewrite !dget_ddel_ne by done.
    split_and!; [by exists n|done|done].
Qed.

Lemma cache_step_ok s s' : cache_step s s' -> cache_ok s -> cache_ok s'.
Proof.
  destruct 1; [by eapply cache_begin_ok|by eapply cache_append_ok|apply cache_end_ok|by apply cache_forget_ok].
Qed.

Definition empty_cache : output_cache := OutCache [] [].

Lemma reachable_cache_ok s : rtc cache_step (CacheSys empty_cache []) s -> cache_ok s.
Proof.
  intros H. apply (rtc_ind_r (R := cache_step) cache_ok (CacheSys empty_cache [])); [|intros a b _ Hs Ha; by eapply cache_step_ok|exact H].
  split; cbn; try done; [apply NoDup_nil_2|split; apply dwf_nil|intros rd Hr; by apply elem_of_nil in Hr].
Qed.

(** [materialize] is such steps, whatever its port does. *)

Lemma fetch_steps {S} (port : OutputPort S) fuel rd snapshot stream size readers st :
  rd ∈ readers -> stream_size rd stream = Some size -> Z.of_nat (length (stream_file (rd_key rd) stream st.2)) <= size ->
  rtc cache_step (CacheSys st.2 readers) (CacheSys (fetch fuel (rd_key rd) snapshot stream size st).1.2 readers).
Proof.
  intros Hin Hsize. revert st. induction fuel as [|fuel IH]; intros [s c] Hle; cbn [fetch fst snd] in *;
    (destruct (_ <? size) eqn:E; [|apply rtc_refl]); [apply rtc_refl|]. unfold sbind, ask. cbn [fst snd].
  destruct (output_request _ _ _ _ s) as [s' [ch|e]]; cbn [fst snd]; [|apply rtc_refl].
  destruct (accepted_data _ size ch) as [more|] eqn:Ea; [|apply rtc_refl]. apply accepted_length in Ea as [_ Hl]. unfold smodify. cbn [fst snd].
  assert (Hl' : Z.of_nat (length (stream_file (rd_key rd) stream c ++ more)) <= size) by (rewrite length_app; lia).
  eapply rtc_l; [by eapply (cs_append c readers rd stream size more)|].
  apply (IH (s', write_file (rd_key rd) stream (stream_file (rd_key rd) stream c ++ more) c)). cbn [fst snd]. rewrite stream_file_write, decide_True by done. exact Hl'.
Qed.

Lemma stream_output_steps {S} (port : OutputPort S) rd snapshot stream size readers st :
  rd ∈ readers -> stream_size rd stream = Some size -> Z.of_nat (length (stream_file (rd_key rd) stream st.2)) <= size ->
  rtc cache_step (CacheSys st.2 readers) (CacheSys (stream_output (rd_key rd) snapshot stream size st).1.2 readers).
Proof.
  intros Hin Hsize Hle. unfold stream_output, sbind at 1, smodify at 1. cbn [fst snd].
  set (c1 := write_file _ _ _ st.2). assert (Ec : c1 = write_file (rd_key rd) stream (stream_file (rd_key rd) stream st.2 ++ []) st.2)
    by (unfold c1; by rewrite app_nil_r).
  eapply rtc_l; [eapply (cs_append st.2 readers rd stream size []); [done|done|by rewrite app_nil_r]|]. rewrite <- Ec.
  pose proof (fetch_steps port (Z.to_nat size) rd snapshot stream size readers (st.1, c1) Hin Hsize) as H.
  unfold sbind. cbn [snd] in H.
  assert (Hc1 : stream_file (rd_key rd) stream c1 = stream_file (rd_key rd) stream st.2) by (unfold c1; by rewrite stream_file_write, decide_True).
  rewrite Hc1 in H. specialize (H Hle).
  destruct (fetch _ _ _ _ _ _) as [st' [[]|e]]; cbn [fst snd] in *; exact H.
Qed.

Lemma stream_output_other {S} (port : OutputPort S) key snapshot stream size st stream' :
  stream <> stream' -> stream_file key stream' (stream_output key snapshot stream size st).1.2 = stream_file key stream' st.2.
Proof.
  intros Hs. unfold stream_output, sbind at 1, smodify at 1. cbn [fst snd].
  assert (Hw : forall data c, stream_file key stream' (write_file key stream data c) = stream_file key stream' c)
    by (intros; rewrite stream_file_write, decide_False by naive_solver; done).
  assert (Hf : forall fuel st, stream_file key stream' (fetch fuel key snapshot stream size st).1.2 = stream_file key stream' st.2).
  { induction fuel as [|fuel IH]; intros [s c]; cbn [fetch fst snd]; (destruct (_ <? size); [|done]); [done|]. unfold sbind, ask. cbn [fst snd].
    destruct (output_request _ _ _ _ s) as [s' [ch|e]]; cbn [fst snd]; [|done].
    destruct (accepted_data _ size ch) as [more|]; [|done]. unfold smodify. cbn [fst snd]. rewrite IH. cbn [snd]. apply Hw. }
  unfold sbind. specialize (Hf (Z.to_nat size) (st.1, write_file key stream (stream_file key stream st.2) st.2)). cbn [snd] in Hf.
  rewrite Hw in Hf. destruct (fetch _ _ _ _ _ _) as [st' [[]|e]]; cbn [fst snd] in *; exact Hf.
Qed.

(** Whatever the port does, [materialize] moves the cache by the steps above. *)
Lemma materialize_steps {S} (port : OutputPort S) key snapshot out err readers st :
  key ∉ rd_key <$> readers ->
  Z.of_nat (length (stream_file key "stdout" st.2)) <= out -> Z.of_nat (length (stream_file key "stderr" st.2)) <= err ->
  rtc cache_step (CacheSys st.2 readers) (CacheSys (materialize key snapshot out err st).1.2 readers).
Proof.
  intros Hk Ho He. unfold materialize, sbind at 1, sget at 1. destruct (reserve_output key (out + err) st.2) as [c|e] eqn:Er;
    [|apply rtc_refl]. set (rd := Reading key out err).
  assert (Hfile : forall s, stream_file key s c = stream_file key s st.2).
  { intros s. unfold stream_file. by destruct (reserve_sum _ _ _ _ Er) as (-> & _). }
  eapply rtc_l; [by eapply cs_begin|]. fold rd. eapply rtc_r; [|apply (cs_end _ [] rd readers)]. cbn [app].
  unfold sbind at 1, smodify at 1. cbn [fst snd]. assert (Hin : rd ∈ rd :: readers) by left.
  pose proof (stream_output_steps port rd snapshot "stdout" out (rd :: readers) (st.1, c) Hin eq_refl) as H1.
  pose proof (stream_output_other port key snapshot "stdout" out (st.1, c) "stderr" ltac:(done)) as H2.
  cbn [rd_key rd snd] in H1, H2. rewrite !Hfile in *. specialize (H1 Ho). unfold sbind at 1.
  destruct (stream_output key snapshot "stdout" out (st.1, c)) as [st1 [o|e]]; cbn [fst snd] in *; [|exact H1].
  etransitivity; [exact H1|]. pose proof (stream_output_steps port rd snapshot "stderr" err (rd :: readers) st1 Hin eq_refl) as H3.
  cbn [rd_key rd] in H3. rewrite H2 in H3. specialize (H3 He). unfold sbind.
  destruct (stream_output key snapshot "stderr" err st1) as [st2 [e|e]]; cbn [fst snd] in *; exact H3.
Qed.


(** A worker that reports a negative total for one stream evades the limit on the other: the
    check before the transfer passes, and slices beyond the limit are accepted. *)
Example negative_total_evades_limit :
  let out := 2 * OUTPUT_LIMIT in let err := - OUTPUT_LIMIT in
  is_ok (reserve_output "k" (out + err) empty_cache) = true /\
  accepted_data OUTPUT_LIMIT out (Chunk (Some [1]) None None) = Some [1].
Proof. vm_compute. done. Qed.

(** ** The output request of a worker behind the port *)

Definition output_params (snapshot stream : string) (offset length : Z) : obj :=
  [("snapshot", JStr snapshot); ("stream", JStr stream); ("offset", JInt offset); ("length", JInt length)].

(** A worker behind a network: [false] loses a request or its reply; after the list
    everything arrives.  [_rpc] reports every failure of [output] with effect [applied]. *)
Definition worker_port (key : bytes) (files : string -> option bytes) (w : Worker) : OutputPort (list bool) :=
  fun snapshot stream offset length net =>
    match net with
    | false :: net => (net, Raise (Failure "transport_lost" "applied" ""))
    | _ =>
        (tail net, match handle_output key files (output_params snapshot stream offset length) w with
                   | Ok r => Ok (Chunk (Some (sl_data r)) (Some (sl_offset r)) (Some (sl_total r)))
                   | Raise (WRemote e) => Raise (Failure (re_code e) "applied" "")
                   | Raise (WCrash _) => Raise (Failure "internal_error" "applied" "")
                   end)
    end.

Section worker_output.
Variable key : bytes.
Variable files : string -> option bytes.
Variable w : Worker.
Variable token out_path err_path : string.
Variable item : Worker.output.
Variable out err : Z.
Variable out_data err_data : bytes.

(** A retained output of the worker, and the files behind it. *)
Hypothesis token_plain : plain_text token.
Hypothesis epoch_plain : plain_text (wk_epoch w).
Hypothesis retained : dget token (wk_outputs w) = Some item.
Hypothesis out_file : jget "stdout_path" (ne_fields (ou_event item)) = JStr out_path /\ files out_path = Some out_data.
Hypothesis err_file : jget "stderr_path" (ne_fields (ou_event item)) = JStr err_path /\ files err_path = Some err_data.
Hypothesis out_size : 0 <= out <= Z.of_nat (length out_data).
Hypothesis err_size : 0 <= err <= Z.of_nat (length err_data).

Definition sealed : string := seal key (snapshot_lengths token out err (wk_epoch w)).
Definition stream_data (stream : string) : bytes :=
  if decide (stream = "stdout") then out_data else if decide (stream = "stderr") then err_data else [].
Definition stream_total (stream : string) : Z :=
  if decide (stream = "stdout") then out else if decide (stream = "stderr") then err else -1.

Lemma handle_output_sealed stream offset length :
  handle_output key files (output_params sealed stream offset length) w =
    if decide (stream ∈ ["stdout"; "stderr"] /\ 0 <= offset <= stream_total stream /\ 1 <= length <= CHUNK_BYTES)
    then Ok (SliceReply (take (Z.to_nat (Z.min length (stream_total stream - offset))) (drop (Z.to_nat offset) (stream_data stream)))
               offset (stream_total stream))
    else Raise (WRemote (remote "invalid_request")).
Proof.
  unfold handle_output. change (jget "snapshot" (output_params sealed stream offset length)) with (JStr sealed).
  assert (Eo : open_snapshot key (wk_epoch w) (JStr sealed) = Some (token, out, err)) by (by apply open_own_snapshot).
  cbv iota. rewrite Eo, retained.
  change (jget "stream" (output_params sealed stream offset length)) with (JStr stream).
  change (dget "offset" (output_params sealed stream offset length)) with (Some (JInt offset)).
  change (dget "length" (output_params sealed stream offset length)) with (Some (JInt length)). cbn [from_option id].
  case_bool_decide as Es; [|by rewrite decide_False by tauto]. cbn [rbind].
  assert (Hcase : exists path, (if bool_decide (stream = "stdout") then out else err) = stream_total stream /\
            jget (stream +:+ "_path") (ne_fields (ou_event item)) = JStr path /\ files path = Some (stream_data stream) /\
            stream_total stream <= Z.of_nat (List.length (stream_data stream))).
  { apply elem_of_cons in Es as [->|Es]; [exists out_path; destruct out_file; by repeat split; try apply out_size|].
    apply list_elem_of_singleton in Es as ->. exists err_path. destruct err_file. by repeat split; try apply err_size. }
  destruct Hcase as (path & -> & -> & Hf & Hle). unfold integer, remote_ok. destruct ((0 <=? offset) && (offset <=? stream_total stream)) eqn:E1; cbn [rbind].
  2:{ rewrite decide_False; [done|]. intros (_ & H & _). rewrite andb_false_iff in E1. lia. }
  destruct ((1 <=? length) && (length <=? CHUNK_BYTES)) eqn:E2; cbn [rbind].
  2:{ rewrite decide_False; [done|]. intros (_ & _ & H). rewrite andb_false_iff in E2. lia. }
  bool_to_prop. rewrite decide_True by (split_and!; done || lia). unfold load_slice. rewrite Hf.
  rewrite (proj2 (Z.eqb_eq _ _)); [done|]. rewrite length_take, length_drop. lia.
Qed.

Lemma worker_port_ends stream offset length net :
  match (worker_port key files w sealed stream offset length net).2 with Raise e => fl_code e <> "out_of_fuel" | Ok _ => True end.
Proof.
  unfold worker_port. destruct net as [|[] net]; [| |done]; cbn [snd]; rewrite handle_output_sealed; by case_decide.
Qed.

Lemma worker_port_honest stream offset length net ch data :
  (worker_port key files w sealed stream offset length net).2 = Ok ch -> ck_data ch = Some data -> 0 <= offset ->
  data `prefix_of` drop (Z.to_nat offset) (stream_data stream).
Proof.
  unfold worker_port. destruct net as [|[] net]; [| |done]; cbn [snd]; rewrite handle_output_sealed; case_decide; try done;
    intros [= <-] [= <-] _; apply prefix_take.
Qed.

Lemma worker_port_serves stream :
  stream ∈ ["stdout"; "stderr"] -> serves (port := worker_port key files w) sealed stream (stream_total stream) [].
Proof.
  intros Hs offset length Ho Hl. unfold worker_port. rewrite handle_output_sealed.
  assert (Hle : stream_total stream <= Z.of_nat (List.length (stream_data stream))).
  { apply elem_of_cons in Hs as [->|Hs]; [apply out_size|]. apply list_elem_of_singleton in Hs as ->. apply err_size. }
  unfold READ_CHUNK, CHUNK_BYTES in *. rewrite decide_True by (split_and!; done || lia). eexists _, _. split; [done|].
  unfold accepted_data. cbn [ck_data ck_offset ck_total sl_data sl_offset sl_total from_option id]. rewrite !Z.eqb_refl. cbn [negb]. rewrite !orb_false_r.
  set (data := take _ _). assert (Hlen : Z.of_nat (List.length data) = length).
  { unfold data. rewrite length_take, length_drop. lia. }
  rewrite bool_decide_false by (intros E; rewrite E in Hlen; simpl in Hlen; lia).
  rewrite (proj2 (Z.ltb_ge _ _)) by (unfold READ_CHUNK; lia). done.
Qed.

(** C30: the host shows exactly what the command wrote.  For an output that a worker
    retains, fetched under the snapshot the worker sealed, over a network that may lose
    any number of requests: what [materialize] returns are the first bytes of the two
    files on the worker, as many as the snapshot counted; a failed attempt leaves in the
    cache a prefix of each stream, from which the next attempt goes on; and when nothing
    is lost any more and the output fits into the cache, it succeeds. *)
Theorem output_delivered_exactly name net c :
  stream_file name "stdout" c `prefix_of` out_data -> stream_file name "stderr" c `prefix_of` err_data ->
  let '(_, c', r) := materialize (port := worker_port key files w) name sealed out err (net, c) in
  stream_file name "stdout" c' `prefix_of` out_data /\ stream_file name "stderr" c' `prefix_of` err_data /\
  (forall o e, r = Ok (o, e) -> o = take (Z.to_nat out) out_data /\ e = take (Z.to_nat err) err_data) /\
  (net = [] -> out + err <= OUTPUT_LIMIT -> dsum (fun n => n) (oc_sizes c) - default 0 (dget name (oc_sizes c)) + (out + err) <= CACHE_LIMIT ->
   r = Ok (take (Z.to_nat out) out_data, take (Z.to_nat err) err_data)).
Proof.
  intros Po Pe. destruct out_size as [Ho _], err_size as [He _].
  pose proof (materialize_spec (port := worker_port key files w) sealed stream_data worker_port_ends worker_port_honest name out err
                (net, c) Ho He Po Pe) as H.
  destruct (materialize _ _ _ _ _) as [[net' c'] r]. destruct H as (H1 & H2 & H3 & H4). split_and!; [exact H1|exact H2|exact H3|].
  intros -> Hl Hc. cbn [fst snd] in H4. assert (Hok : is_ok r = true).
  { apply H4; [apply (worker_port_serves "stdout"); left|apply (worker_port_serves "stderr"); right; left|].
    unfold reserve_output. by rewrite (proj2 (Z.ltb_ge OUTPUT_LIMIT _)), (proj2 (Z.ltb_ge _ 0)), (proj2 (Z.ltb_ge CACHE_LIMIT _)) by lia. }
  destruct r as [[o e]|]; [|done]. by destruct (H3 o e eq_refl) as [-> ->].
Qed.
End worker_output.

(** ** Concrete outputs *)


Definition demo_output : Worker.output :=
  Output 4 (NativeEvent 0 4 "running" 2 1 true false [("stdout_path", JStr "/o"); ("stderr_path", JStr "/e")]).
Definition demo_worker : Worker := set_outputs [("t", demo_output)] (new_worker "e").
Definition demo_files (path : string) : option bytes :=
  if decide (path = "/o") then Some [104; 105; 33] else if decide (path = "/e") then Some [63] else None.

Lemma output_delivered_exactly_witness :
  (materialize (port := worker_port [7] demo_files demo_worker) "k" (sealed [7] demo_worker "t" 2 1) 2 1 ([], empty_cache)).2 =
    Ok ([104; 105], [63]).
Proof.
  assert (Hp : forall c, 32 <= c <= 126 -> c <> 34 -> c <> 92 -> Forall (fun c => 32 <= c <= 126 /\ c <> 34 /\ c <> 92) [c])
    by (intros c; rewrite Forall_singleton; auto).
  assert (Ht : plain_text "t") by (apply (Hp 116); lia). assert (He : plain_text "e") by (apply (Hp 101); lia).
  pose proof (output_delivered_exactly [7] demo_files demo_worker "t" "/o" "/e" demo_output 2 1 [104; 105; 33] [63] Ht He
    eq_refl (conj eq_refl eq_refl) (conj eq_refl eq_refl) ltac:(simpl; lia) ltac:(simpl; lia) "k" [] empty_cache
    (prefix_nil _) (prefix_nil _)) as H.
  destruct (materialize _ _ _ _ _) as [[net c] r]. destruct H as (_ & _ & _ & H). apply H; [reflexivity|vm_compute; discriminate|].
  vm_compute. discriminate.
Defined.
