(* ===== verification/Recovery.v ===== *)
(** * Bounded recovery of reads

    [pal_shell_native/recovery.py], [retry_read]: a read is repeated after a transient
    failure, a bounded number of times, and a reconnect may shorten a delay but never
    renew the budget.

    The operation is a function of the attempt; what happens between two attempts (the
    delay, a wakeup) is left to the surroundings, which may also cancel the coroutine. *)

From S2P Require Import Prelude Dict.
Open Scope Z_scope.

(** What one attempt can raise. *)
Inductive read_failure :=
| ValueOrTypeError
| RemoteReadFailure (code : string)
| OtherError
| ReadCancelled.

#[export] Instance read_failure_eq_dec : EqDecision read_failure.
Proof. solve_decision. Defined.

Definition MAX_ATTEMPTS : nat := 5.
(** [RETRY_DELAYS], in tenths of a second. *)
Definition RETRY_DELAYS : list Z := [10; 20; 40; 80].

Definition PERMANENT : list string :=
  ["invalid_output"; "output_capacity"; "runtime_changed"; "authorization_required"; "invalid_operation"; "invalid_session";
   "output_released"].

Definition permanent (e : read_failure) : bool :=
  match e with
  | ValueOrTypeError => true
  | RemoteReadFailure code => bool_decide (code ∈ PERMANENT)
  | _ => false
  end.

(** [RETRY_DELAYS[min(attempt, len(RETRY_DELAYS) - 1)]], before its random factor. *)
Definition retry_delay (attempt : nat) : Z := nth (Nat.min attempt (length RETRY_DELAYS - 1)) RETRY_DELAYS 0.

Section retry.
Context {S A : Type}.
Variable operation : M S read_failure A.
(** A pause of at most the given length; [false]: cancelled while waiting. *)
Variable pause : Z -> S -> S * bool.

(** [range(attempt, MAX_ATTEMPTS)], [left] rounds before the end. *)
Fixpoint retry_from (left : nat) : M S read_failure A :=
  fun s =>
    match operation s with
    | (s, Ok a) => (s, Ok a)
    | (s, Raise e) =>
        if bool_decide (e = ReadCancelled) then (s, Raise e)
        else
          match left with
          | O => (s, Raise e)                              (* attempt == MAX_ATTEMPTS - 1 *)
          | Datatypes.S left' =>
              if permanent e then (s, Raise e)
              else
                match pause (retry_delay (MAX_ATTEMPTS - 1 - left)) s with
                | (s, true) => retry_from left' s
                | (s, false) => (s, Raise ReadCancelled)
                end
          end
    end.

Definition retry_read : M S read_failure A := retry_from (MAX_ATTEMPTS - 1).
End retry.

(** ** The budget *)

(** The operation with a log of what its attempts raised. *)
Definition logged {S A} (operation : M S read_failure A) : M (S * list (option read_failure)) read_failure A :=
  fun st => let '(s, r) := operation st.1 in ((s, st.2 ++ [match r with Ok _ => None | Raise e => Some e end]), r).
Definition pause_logged {S B} (pause : Z -> S -> S * bool) : Z -> S * B -> (S * B) * bool :=
  fun d st => let '(s, b) := pause d st.1 in ((s, st.2), b).

Lemma retry_from_log {S A} (operation : M S read_failure A) pause left st :
  let '(st', r) := retry_from (logged operation) (pause_logged pause) left st in
  exists log, st'.2 = st.2 ++ log /\ (1 <= length log <= Datatypes.S left)%nat /\
    (forall i e, (Datatypes.S i < length log)%nat -> log !! i = Some e ->
       exists x, e = Some x /\ permanent x = false /\ x <> ReadCancelled) /\
    match r with
    | Ok _ => last log = Some None
    | Raise e => (last log = Some (Some e) /\ (permanent e = true \/ e = ReadCancelled \/ length log = Datatypes.S left)) \/
                 (e = ReadCancelled /\ exists x, last log = Some (Some x))
    end.
Proof.
  revert st. induction left as [|left IH]; intros st; cbn [retry_from]; unfold logged at 1;
    destruct (operation st.1) as [s [a|e]]; cbn [fst snd].
  - exists [None]. split_and!; [done|simpl; lia|simpl; lia|intros i e H; simpl in H; lia|done].
  - case_bool_decide; exists [Some e]; (split_and!; [done|simpl; lia|simpl; lia|intros i x H'; simpl in H'; lia|]);
      left; (split; [done|]); auto.
  - exists [None]. split_and!; [done|simpl; lia|simpl; lia|intros i e H; simpl in H; lia|done].
  - case_bool_decide as Ec.
    { exists [Some e]. split_and!; [done|simpl; lia|simpl; lia|intros i x H; simpl in H; lia|]. left. auto. }
    destruct (permanent e) eqn:Ep.
    { exists [Some e]. split_and!; [done|simpl; lia|simpl; lia|intros i x H; simpl in H; lia|]. left. auto. }
    unfold pause_logged at 1. cbn [fst snd]. destruct (pause _ s) as [s1 []].
    + specialize (IH (s1, st.2 ++ [Some e])). cbn [snd] in IH. destruct (retry_from _ _ left _) as [st' r].
      destruct IH as (log & E & Hl & Hlog & Hr). exists (Some e :: log). split_and!.
      * by rewrite E, <- app_assoc.
      * simpl. lia.
      * simpl. lia.
      * intros [|i] x Hi Hx; [injection Hx as <-; by exists e|]. apply (Hlog i x); [simpl in Hi; lia|done].
      * destruct log as [|y log]; [simpl in Hl; lia|]. change (last (Some e :: y :: log)) with (last (y :: log)).
        destruct r as [a|e']; [done|]. destruct Hr as [[H1 H2]|H]; [left|by right]. split; [done|].
        destruct H2 as [?|[?|H2]]; [auto|auto|]. right. right. simpl in *. lia.
    + exists [Some e]. split_and!; [done|simpl; lia|simpl; lia|intros i x H; simpl in H; lia|]. right. split; [done|]. by exists e.
Qed.

(** Recovery is bounded and gives up for good reasons only.  Whatever the read does and
    however often a reconnect cuts a delay short, [retry_read] ends after at most five
    attempts; it repeats an attempt only after a failure that is not permanent; it returns
    exactly when its last attempt did; and it raises the failure of its last attempt,
    which is permanent, a cancellation or the fifth, or it was cancelled in a delay. *)
Theorem retry_read_bounded {S A} (operation : M S read_failure A) pause s :
  let '(st, r) := retry_read (logged operation) (pause_logged pause) (s, []) in
  (1 <= length st.2 <= 5)%nat /\
  (forall i e, (Datatypes.S i < length st.2)%nat -> st.2 !! i = Some e -> exists x, e = Some x /\ permanent x = false) /\
  match r with
  | Ok _ => last st.2 = Some None
  | Raise e => (last st.2 = Some (Some e) /\ (permanent e = true \/ e = ReadCancelled \/ length st.2 = 5%nat)) \/
               (e = ReadCancelled /\ exists x, last st.2 = Some (Some x))
  end.
Proof.
  unfold retry_read. pose proof (retry_from_log operation pause (MAX_ATTEMPTS - 1) (s, [])) as H.
  destruct (retry_from _ _ _ _) as [st r]. destruct H as (log & E & Hl & Hlog & Hr). cbn [snd app] in E. rewrite E.
  split_and!; [lia|unfold MAX_ATTEMPTS in Hl; lia| |done]. intros i e Hi He. destruct (Hlog i e Hi He) as (x & ? & ? & _). by exists x.
Qed.

(** A read that fails twice on a lost connection and then answers: three attempts. *)
Example two_losses_recovered :
  let operation : M nat read_failure string :=
    fun n => (S n, if (n <? 2)%nat then Raise (RemoteReadFailure "transport_lost") else Ok "output") in
  let '(st, r) := retry_read (logged operation) (pause_logged (fun _ s => (s, true))) (0%nat, []) in
  r = Ok "output" /\ length st.2 = 3%nat.
Proof. vm_compute. done. Qed.
