(* ===== verification/Slot.v ===== *)
(** * The slot of a remote target

    [pal_shell_remote/slot.py], class [RemoteSlot]: how [request] guards every request to a
    worker with the execution gate, the set of operations in flight and the locks of the
    sessions, and what [hub.py] adds before it.  A request is a coroutine; its local
    variables are part of its state, since the [except] and [finally] clauses read them. *)

From S2P Require Import Prelude Dict Utf8 Sha256 PyValue JsonText Targets Protocol LifecycleTable Lifecycle ExecutionGate.
Open Scope Z_scope.

(** ** State *)

Record slot_request := SlotRequest {
  sq_method : string;
  sq_oid : string;                    (* params.get('operation_id', '') *)
  sq_action : string;                 (* params.get('action') *)
  sq_session : Z;                     (* params['session_id'] of a session request *)
  sq_hold : bool;                     (* params.pop('_hold_output', False) *)
  sq_epoch : option string;
  sq_output : string                  (* params['output_id'] of a release *)
}.

Abbreviation session_key := (option string * Z)%type.

Record slot := Slot {
  st_gate : gate;                     (* self.execution *)
  st_requests : list string;          (* self.operation_requests *)
  st_locks : list session_key;        (* the locks of self.session_locks that are held *)
  st_epoch : option string;
  st_closed : bool
}.

Definition new_slot (target : Z) : slot := Slot (new_gate target) [] [] None false.

Definition set_gate (g : gate) (s : slot) : slot := Slot g (st_requests s) (st_locks s) (st_epoch s) (st_closed s).

(** The local variables of [request]. *)
Record locals := Locals {
  lo_tracked : bool;
  lo_admitted : bool;
  lo_owns : bool;                     (* owns_request *)
  lo_lock : option session_key        (* acquired, and session_key *)
}.
Definition no_locals : locals := Locals false false false None.

Definition set_tracked (b : bool) (l : locals) : locals := Locals b (lo_admitted l) (lo_owns l) (lo_lock l).
Definition set_admitted (l : locals) : locals := Locals (lo_tracked l) true (lo_owns l) (lo_lock l).

(** ** [request], up to its admission *)

(** [epoch or self.epoch] *)
Definition request_epoch (q : slot_request) (s : slot) : option string := epoch_or (sq_epoch q) (st_epoch s).

Definition claims (q : slot_request) : bool := bool_decide (sq_method q ∈ ["submit"; "prepare_privileged"]).
Definition is_session (q : slot_request) : bool := bool_decide (sq_method q = "session").
Definition commits (q : slot_request) : bool := bool_decide (sq_method q = "commit_privileged").
Definition controls (q : slot_request) : bool := is_session q && bool_decide (sq_action q ∉ ["read"; "release"]).
Definition request_kind (q : slot_request) : kind :=
  if decide (sq_method q = "submit") then K_execution
  else if decide (sq_action q = "shutdown") then K_shutdown else K_privileged.

(** Whether a control of the session is pending or unknown. *)
Definition session_uncertain (ep : option string) (sid : Z) (g : gate) : bool :=
  existsb (fun it => (bool_decide (it_state it = S_unknown) ||
                      (it_control it && bool_decide (it_state it ∈ [S_submitting; S_pending]))) &&
                     bool_decide (it_epoch it = ep) && (it_session_id it =? sid)) (dvals (g_operations g)).

Abbreviation B := (M (slot * locals) gate_error).

Definition on_gate {A} (m : G A) : B A :=
  fun st => let '(g, r) := m (st_gate st.1) in ((set_gate g st.1, st.2), r).

Definition target_busy {A} (effect oid : string) : B A := sthrow (GateRemote (remote_error "target_busy" effect oid)).

Definition own_request (q : slot_request) : B unit :=
  fun '(s, l) =>
    if bool_decide (sq_oid q ∈ st_requests s) then target_busy "unknown" (sq_oid q) (s, l)
    else ((Slot (st_gate s) (sq_oid q :: st_requests s) (st_locks s) (st_epoch s) (st_closed s),
           Locals (lo_tracked l) (lo_admitted l) true (lo_lock l)), Ok tt).

Definition lock_session (key : session_key) : B unit :=
  fun '(s, l) =>
    if bool_decide (key ∈ st_locks s) then target_busy "not_started" "" (s, l)
    else ((Slot (st_gate s) (st_requests s) (key :: st_locks s) (st_epoch s) (st_closed s),
           Locals (lo_tracked l) (lo_admitted l) (lo_owns l) (Some key)), Ok tt).

(** [tracked = ...] *)
Definition track (m : G bool) : B unit :=
  do! b <- on_gate m ;; smodify (fun st => (st.1, set_tracked b st.2)).

Definition when (c : bool) (m : B unit) : B unit := if c then m else sret tt.

(** With [control_epoch]; no other coroutine runs before its end. *)
Definition enter_at (q : slot_request) (ep : option string) : B unit :=
  seq! when (claims q || is_session q || commits q) (own_request q) ;;
  seq! when (claims q) (track (claim (sq_oid q) ep (sq_hold q) (request_kind q))) ;;
  seq! when (commits q) (track (sign (sq_oid q) ep)) ;;
  do! st <- sget ;;
  seq! when (is_session q && bool_decide (sq_action q ∉ ["read"; "release"; "terminate"]) &&
             session_uncertain ep (sq_session q) (st_gate st.1)) (target_busy "not_started" "") ;;
  seq! when (is_session q && bool_decide (sq_action q <> "read")) (lock_session (ep, sq_session q)) ;;
  when (controls q) (track (claim_control (sq_oid q) ep (sq_session q))).

Definition enter (q : slot_request) : B unit := fun st => enter_at q (request_epoch q st.1) st.

(** ** Its [except] and [finally] clauses *)

Inductive exit_reason :=
| RemoteExit (effect : string)        (* a RemoteError *)
| OtherExit.                          (* any other exception, a cancellation included *)

Definition exit_of (e : gate_error) : exit_reason :=
  match e with GateRemote e => RemoteExit (re_effect e) | _ => OtherExit end.

Definition finish (q : slot_request) (l : locals) (s : slot) : slot :=
  Slot (st_gate s) (if lo_owns l then filter (fun o => o <> sq_oid q) (st_requests s) else st_requests s)
    (match lo_lock l with Some key => filter (fun k => k <> key) (st_locks s) | None => st_locks s end) (st_epoch s) (st_closed s).

Definition exit_gate (q : slot_request) (l : locals) (x : exit_reason) (s : slot) : gate :=
  let ep := request_epoch q s in
  if decide (sq_method q = "query") then (query_failed (sq_oid q) ep (st_gate s)).1
  else if lo_tracked l then
    (failed (sq_oid q) (match x with RemoteExit effect => effect | OtherExit => if lo_admitted l then "unknown" else "not_started" end)
       ep (st_gate s)).1
  else st_gate s.

Definition abandon (q : slot_request) (l : locals) (x : exit_reason) (s : slot) : slot :=
  finish q l (set_gate (exit_gate q l x s) s).

(** The first part of [request]: [Some] when it now waits for its admission. *)
Definition begin_request (q : slot_request) (s : slot) : slot * option locals :=
  match enter q (s, no_locals) with
  | ((s, l), Ok _) => (s, Some l)
  | ((s, l), Raise e) => (abandon q l (exit_of e) s, None)
  end.

(** ** [_request], before it sends *)

(** [_connect], once the connection is authenticated. *)
Definition slot_connected (epoch : string) (s : slot) : slot :=
  let s := Slot (st_gate s) (st_requests s) (st_locks s) (Some epoch) (st_closed s) in
  set_gate (connected (Some epoch) (st_gate s)).1 s.

Definition wrong_epoch (q : slot_request) (s : slot) : bool :=
  opt_truthy (sq_epoch q) && opt_truthy (st_epoch s) && bool_decide (sq_epoch q <> st_epoch s).

(** The second check, once there is a connection. *)
Definition wrong_runtime (q : slot_request) (s : slot) : bool := opt_truthy (sq_epoch q) && bool_decide (sq_epoch q <> st_epoch s).

(** [connection]: the epoch of a connection made now, when none was open. *)
Definition send_request (q : slot_request) (connection : option string) : M slot gate_error unit :=
  fun s =>
    if st_closed s then (s, Raise (GateRemote (remote "backend_unavailable")))
    else if wrong_epoch q s then (s, Raise (GateRemote (remote_unknown "runtime_changed")))
    else
      let s := match connection with Some epoch => slot_connected epoch s | None => s end in
      if wrong_runtime q s then (s, Raise (GateRemote (remote_unknown "runtime_changed")))
      else if claims q || commits q || is_session q then
        let '(g, r) := bind (sq_oid q) (st_epoch s) (st_gate s) in (set_gate g s, r)
      else (s, Ok tt).

(** ** The reply *)

Record slot_reply := SlotReply {
  sr_response : response;              (* what [result] reads *)
  sr_snapshot : op_result;             (* [result.get('result') or result] *)
  sr_events : list op_result           (* [event['result'] for event in events] *)
}.

Definition handle_reply (q : slot_request) (rp : slot_reply) (ep : option string) : G unit :=
  seq! result (sq_oid q) (sr_response rp) ep ;;
  seq! (if decide (sq_method q = "query" /\ rp_state (sr_response rp) = Some "approval_required")
        then reconcile_prepared (sq_oid q) ep else sret tt) ;;
  seq! (if decide (sq_method q ∈ ["session"; "observe"]) then snapshot (sr_snapshot rp) ep None else sret tt) ;;
  seq! (if decide (sq_method q = "events") then sfor (fun r => snapshot r ep None) (sr_events rp) else sret tt) ;;
  (if decide (sq_method q = "release") then release (sq_output q) ep else sret tt).

Definition end_request (q : slot_request) (l : locals) (rp : slot_reply) (s : slot) : slot :=
  match handle_reply q rp (request_epoch q s) (st_gate s) with
  | (g, Ok _) => finish q l (set_gate g s)
  | (g, Raise e) => abandon q l (exit_of e) (set_gate g s)
  end.

(** ** [hub.py] *)

(** [RemoteHub(targets)] accepts its configuration. *)
Definition hub_targets_ok (targets : list Target) : bool :=
  let shortcuts := filter (fun s => s <> "") (tg_shortcut <$> targets) in
  bool_decide (NoDup (tg_target <$> targets)) && bool_decide (NoDup shortcuts).

(** The identity check of [approve], on the grant's client, worker, target and epoch. *)
Definition approve_ok (t : Target) (client worker : string) (target : Z) (epoch : option string) (s : slot) : bool :=
  bool_decide (client = tg_client_id t) && bool_decide (worker = tg_worker_id t) && (target =? tg_target t) &&
  bool_decide (epoch = st_epoch s).
