(* ===== verification/SlotSafety.v ===== *)
(** * Theorems of the slot

    Over every interleaving of requests, connections, replies, failures and cancellations of
    one slot: at most one request of an operation and one control of a session are under
    way, nothing stays locked behind a request that ended, and what may have reached the
    worker stays known to the gate. *)

From S2P Require Import Prelude Dict Utf8 Sha256 PyValue JsonText Targets Protocol LifecycleTable Lifecycle ExecutionGate GateSafety Slot.
Open Scope Z_scope.

(** ** Runs *)

Inductive progress := Waiting | Ready | Sent.
Record flight := Flight { ft_request : slot_request; ft_locals : locals; ft_progress : progress }.

Record ssystem := SSys {
  ss_slot : slot;
  ss_flights : list flight;
  ss_sent : list string               (* history: the operations whose mutating request was sent *)
}.

(** Requests that ask the worker to do something under their operation. *)
Definition mutates (q : slot_request) : bool := claims q || commits q || controls q.

Inductive slot_step : ssystem -> ssystem -> Prop :=
| sp_begin s l h q s' lo : begin_request q s = (s', Some lo) -> slot_step (SSys s l h) (SSys s' (Flight q lo Waiting :: l) h)
| sp_rejected s l h q s' : begin_request q s = (s', None) -> slot_step (SSys s l h) (SSys s' l h)
| sp_admitted s l1 l2 h q lo :
    slot_step (SSys s (l1 ++ Flight q lo Waiting :: l2) h) (SSys s (l1 ++ Flight q (set_admitted lo) Ready :: l2) h)
| sp_sent s l1 l2 h q lo connection s' :
    send_request q connection s = (s', Ok tt) ->
    slot_step (SSys s (l1 ++ Flight q lo Ready :: l2) h)
      (SSys s' (l1 ++ Flight q lo Sent :: l2) (if mutates q then sq_oid q :: h else h))
| sp_unsent s l1 l2 h q lo connection s' e :
    send_request q connection s = (s', Raise e) ->
    slot_step (SSys s (l1 ++ Flight q lo Ready :: l2) h) (SSys (abandon q lo (exit_of e) s') (l1 ++ l2) h)
| sp_reply s l1 l2 h q lo rp :
    slot_step (SSys s (l1 ++ Flight q lo Sent :: l2) h) (SSys (end_request q lo rp s) (l1 ++ l2) h)
| sp_failed s l1 l2 h f x :
    slot_step (SSys s (l1 ++ f :: l2) h) (SSys (abandon (ft_request f) (ft_locals f) x s) (l1 ++ l2) h)
| sp_restore s l h records : slot_step (SSys s l h) (SSys (set_gate (restore records (st_gate s)).1 s) l h)
| sp_cancel s l h oid : slot_step (SSys s l h) (SSys (set_gate (cancel_prepared oid (st_gate s)).1 s) l h)
| sp_close s l h : slot_step (SSys s l h) (SSys (Slot (st_gate s) (st_requests s) (st_locks s) (st_epoch s) true) l h).

(** ** What a request holds *)

Definition held_oid (f : flight) : option string := if lo_owns (ft_locals f) then Some (sq_oid (ft_request f)) else None.
Definition held_lock (f : flight) : option session_key := lo_lock (ft_locals f).

(** The set of requests in flight and the held locks are those of the requests under way. *)
Definition held_exactly (s : slot) (l : list flight) : Prop :=
  NoDup (st_requests s) /\ st_requests s ≡ₚ omap held_oid l /\ NoDup (st_locks s) /\ st_locks s ≡ₚ omap held_lock l.

Lemma held_same s s' l : st_requests s' = st_requests s -> st_locks s' = st_locks s -> held_exactly s l -> held_exactly s' l.
Proof. unfold held_exactly. by intros -> ->. Qed.

Lemma omap_at {A B} (f : A -> option B) l1 x l2 :
  omap f (l1 ++ x :: l2) ≡ₚ (match f x with Some y => [y] | None => [] end) ++ omap f (l1 ++ l2).
Proof. rewrite <- Permutation_middle. simpl. by destruct (f x). Qed.

Lemma remove_nodup {A} `{EqDecision A} (x : A) l r : NoDup l -> l ≡ₚ x :: r -> filter (fun y => y <> x) l ≡ₚ r.
Proof.
  intros Hn Hp. assert (Hn' : NoDup (x :: r)) by (by rewrite <- Hp). apply NoDup_cons in Hn' as [Hx _].
  rewrite Hp, filter_cons_False by tauto. assert (E : filter (fun y => y <> x) r = r); [|by rewrite E].
  clear Hp. induction r as [|y r IH]; [done|]. apply not_elem_of_cons in Hx as [? ?]. rewrite filter_cons_True by done. by rewrite IH.
Qed.

(** The [finally] clause gives back exactly what the request holds. *)
Lemma finish_held q lo s l1 p l2 :
  held_exactly s (l1 ++ Flight q lo p :: l2) -> held_exactly (finish q lo s) (l1 ++ l2).
Proof.
  intros (H1 & H2 & H3 & H4). rewrite (omap_at held_oid) in H2. rewrite (omap_at held_lock) in H4. unfold held_oid, held_lock in H2, H4. cbn [ft_request ft_locals] in H2, H4.
  unfold held_exactly, finish. cbn [st_requests st_locks]. split_and!.
  - destruct (lo_owns lo); [by apply NoDup_filter|done].
  - destruct (lo_owns lo); [by apply remove_nodup|exact H2].
  - destruct (lo_lock lo); [by apply NoDup_filter|done].
  - destruct (lo_lock lo); [by apply remove_nodup|exact H4].
Qed.

Lemma abandon_held q lo x s l1 p l2 : held_exactly s (l1 ++ Flight q lo p :: l2) -> held_exactly (abandon q lo x s) (l1 ++ l2).
Proof. intros H. unfold abandon. eapply finish_held. by eapply held_same; [| |exact H]. Qed.

(** While [enter] runs its locals say what it holds so far. *)
Definition entering (q : slot_request) (l : list flight) (st : slot * locals) : Prop :=
  held_exactly st.1 (Flight q st.2 Waiting :: l).

Lemma on_gate_entering {A} q l (m : G A) st : entering q l st -> entering q l (on_gate m st).1.
Proof. unfold on_gate, entering. destruct (m _) as [g r]. simpl. by apply held_same. Qed.

Lemma track_entering q l m st : entering q l st -> entering q l (track m st).1.
Proof.
  intros H. pose proof (on_gate_entering q l m st H) as H1. unfold track, sbind. destruct (on_gate m st) as [st1 [b|e]]; [|done].
  cbn [fst smodify] in *. unfold entering, held_exactly in *. cbn [fst snd set_tracked]. exact H1.
Qed.

Lemma own_request_entering q l st : lo_owns st.2 = false -> entering q l st -> entering q l (own_request q st).1.
Proof.
  destruct st as [s lo]. intros Ho (H1 & H2 & H3 & H4). unfold own_request. case_bool_decide as E; [done|].
  unfold entering, held_exactly, held_oid in *. cbn [fst snd st_requests st_locks ft_locals ft_request lo_owns lo_lock] in *.
  simpl in H2. rewrite Ho in H2. split_and!; [by apply NoDup_cons| |done|exact H4]. simpl. by rewrite H2.
Qed.

Lemma lock_session_entering q l key st : lo_lock st.2 = None -> entering q l st -> entering q l (lock_session key st).1.
Proof.
  destruct st as [s lo]. intros Ho (H1 & H2 & H3 & H4). unfold lock_session. case_bool_decide as E; [done|].
  unfold entering, held_exactly, held_lock in *. cbn [fst snd st_requests st_locks ft_locals ft_request lo_owns lo_lock] in *.
  simpl in H4. rewrite Ho in H4. split_and!; [done|exact H2|by apply NoDup_cons|]. simpl. by rewrite H4.
Qed.

(** [when c m] either runs [m] or changes nothing. *)
Lemma triple_when (P : slot * locals -> Prop) c (m : B unit) Q :
  (c = true -> triple P m Q) -> (c = false -> forall st, P st -> Q (Ok tt) st) -> triple P (when c m) Q.
Proof. destruct c; intros H1 H2; [by apply H1|]. intros st Hst. by apply H2. Qed.

Lemma track_locals m st : lo_owns (track m st).1.2 = lo_owns st.2 /\ lo_lock (track m st).1.2 = lo_lock st.2.
Proof. unfold track, sbind, on_gate. destruct (m _) as [g [b|e]]; done. Qed.

Lemma enter_held q l s : held_exactly s l -> entering q l (enter q (s, no_locals)).1.
Proof.
  intros H. set (P0 := fun st => entering q l st /\ lo_owns st.2 = false /\ lo_lock st.2 = None).
  set (P1 := fun st => entering q l st /\ lo_lock st.2 = None).
  set (Q := fun (_ : res gate_error unit) st => entering q l st).
  assert (Ht : forall ep, triple P0 (enter_at q ep) Q); [|by apply (Ht _ (s, no_locals))]. clear H s. intros ep. unfold enter_at.
  assert (Htrack : forall m, triple P1 (track m) (fun r st => P1 st)).
  { intros m st [H1 H2]. split; [by apply track_entering|]. by rewrite (proj2 (track_locals m st)). }
  eapply (triple_bind _ _ _ (fun _ => P1)).
  { apply triple_when; [|intros _ st (? & ? & ?); by split]. intros _ st (H1 & H2 & H3).
    pose proof (own_request_entering q l st H2 H1) as He. revert He. destruct st as [s lo]. unfold own_request.
    case_bool_decide; intros He; [exact He|]. split; [exact He|exact H3]. }
  intros _. eapply (triple_bind _ _ _ (fun _ => P1)).
  { apply triple_when; [|done]. intros _ st Hst. pose proof (Htrack (claim (sq_oid q) ep (sq_hold q) (request_kind q)) st Hst) as Hx.
    destruct (track _ st) as [st' [[]|e]]; [done|apply Hx]. }
  intros _. eapply (triple_bind _ _ _ (fun _ => P1)).
  { apply triple_when; [|done]. intros _ st Hst. pose proof (Htrack (sign (sq_oid q) ep) st Hst) as Hx.
    destruct (track _ st) as [st' [[]|e]]; [done|apply Hx]. }
  intros _. eapply (triple_bind _ _ _ (fun _ => P1)); [by intros st Hst|]. intros st0.
  eapply (triple_bind _ _ _ (fun _ => P1)).
  { apply triple_when; [|done]. intros _ st [Hst _]. exact Hst. }
  intros _. eapply (triple_bind _ _ _ (fun _ st => entering q l st)).
  { apply triple_when; [|by intros _ st [? _]]. intros _ st [H1 H2]. pose proof (lock_session_entering q l (ep, sq_session q) st H2 H1) as Hx.
    destruct (lock_session _ st) as [st' [[]|e]]; exact Hx. }
  intros _. apply triple_when; [|done]. intros _ st Hst. by apply track_entering.
Qed.

Lemma begin_request_held q s l :
  held_exactly s l ->
  match begin_request q s with
  | (s', Some lo) => held_exactly s' (Flight q lo Waiting :: l)
  | (s', None) => held_exactly s' l
  end.
Proof.
  intros H. pose proof (enter_held q l s H) as He. unfold begin_request.
  destruct (enter q (s, no_locals)) as [[s' lo] [[]|e]]; cbn [fst] in He; [exact He|].
  by apply (abandon_held q lo (exit_of e) s' [] Waiting l).
Qed.

(** ** The gate behind the slot *)

Definition gate_runs (s s' : slot) : Prop := rtc gate_step (st_gate s) (st_gate s').

#[export] Instance gate_runs_preorder : PreOrder gate_runs.
Proof. split; [intros s; apply rtc_refl|intros a b c H1 H2; unfold gate_runs in *; by etransitivity]. Qed.

(** Methods that the gate runs on its own. *)
Definition gate_method {A} (m : G A) : Prop := forall g, rtc gate_step g (m g).1.

Lemma gate_method_ret {A} (a : A) : gate_method (sret a).
Proof. intros g. apply rtc_refl. Qed.

Lemma gate_method_bind {A B} (m : G A) (k : A -> G B) : gate_method m -> (forall a, gate_method (k a)) -> gate_method (sbind m k).
Proof.
  intros Hm Hk g. specialize (Hm g). unfold sbind. destruct (m g) as [g' [a|e]]; cbn [fst] in *; [|done].
  etransitivity; [exact Hm|apply Hk].
Qed.

Lemma gate_method_if {A} (P : Prop) `{Decision P} (m1 m2 : G A) : gate_method m1 -> gate_method m2 -> gate_method (if decide P then m1 else m2).
Proof. by case_decide. Qed.

Lemma gate_method_for {A} (f : A -> G unit) l : (forall x, gate_method (f x)) -> gate_method (sfor f l).
Proof. intros H. induction l as [|x l IH]; [apply gate_method_ret|]. by apply gate_method_bind. Qed.

Lemma handle_reply_runs q rp ep : gate_method (handle_reply q rp ep).
Proof.
  unfold handle_reply. apply gate_method_bind; [intros g; apply rtc_once, step_result|intros _].
  apply gate_method_bind; [apply gate_method_if; [intros g; apply rtc_once, step_reconcile_prepared|apply gate_method_ret]|intros _].
  apply gate_method_bind; [apply gate_method_if; [intros g; apply rtc_once, step_snapshot|apply gate_method_ret]|intros _].
  apply gate_method_bind; [apply gate_method_if; [apply gate_method_for; intros x g; apply rtc_once, step_snapshot|apply gate_method_ret]|intros _].
  apply gate_method_if; [intros g; apply rtc_once, step_release|apply gate_method_ret].
Qed.

Lemma exit_gate_runs q lo x s : rtc gate_step (st_gate s) (exit_gate q lo x s).
Proof.
  unfold exit_gate. case_decide; [apply rtc_once, step_query_failed|]. destruct (lo_tracked lo); [apply rtc_once, step_failed|apply rtc_refl].
Qed.

Lemma abandon_runs q lo x s : gate_runs s (abandon q lo x s).
Proof. apply exit_gate_runs. Qed.

Lemma end_request_runs q lo rp s : gate_runs s (end_request q lo rp s).
Proof.
  unfold end_request. pose proof (handle_reply_runs q rp (request_epoch q s) (st_gate s)) as H.
  destruct (handle_reply _ _ _ _) as [g [[]|e]]; [exact H|]. etransitivity; [|apply abandon_runs]. exact H.
Qed.

Lemma send_request_runs q connection s : gate_runs s (send_request q connection s).1.
Proof.
  unfold send_request. destruct (st_closed s); [reflexivity|]. destruct (wrong_epoch q s); [reflexivity|].
  set (s1 := match connection with Some epoch => slot_connected epoch s | None => s end).
  assert (H1 : gate_runs s s1) by (subst s1; destruct connection; [apply rtc_once, step_connected|reflexivity]).
  destruct (wrong_runtime q s1); [exact H1|]. destruct (_ || _); [|exact H1].
  pose proof (step_bind (sq_oid q) (st_epoch s1) (st_gate s1)) as Hb. destruct (bind _ _ _) as [g r]. cbn [fst] in *.
  etransitivity; [exact H1|]. by apply rtc_once.
Qed.

Lemma send_request_same q connection s s' r :
  send_request q connection s = (s', r) -> st_requests s' = st_requests s /\ st_locks s' = st_locks s.
Proof.
  unfold send_request. destruct (st_closed s); [by intros [= <- _]|]. destruct (wrong_epoch q s); [by intros [= <- _]|].
  set (s1 := match connection with Some epoch => slot_connected epoch s | None => s end).
  assert (H1 : st_requests s1 = st_requests s /\ st_locks s1 = st_locks s) by (by destruct connection).
  destruct (wrong_runtime q s1); [by intros [= <- _]|]. destruct (_ || _); [|by intros [= <- _]].
  destruct (bind _ _ _) as [g r']. by intros [= <- _].
Qed.

Lemma end_request_held q lo rp s l1 p l2 : held_exactly s (l1 ++ Flight q lo p :: l2) -> held_exactly (end_request q lo rp s) (l1 ++ l2).
Proof.
  intros H. unfold end_request. destruct (handle_reply _ _ _ _) as [g [[]|e]]; [eapply finish_held|eapply abandon_held];
    by eapply held_same; [| |exact H].
Qed.

(** ** What [enter] leaves *)

(** Requests that own their operation while they run, and those that lock their session. *)
Definition owning (q : slot_request) : bool := claims q || is_session q || commits q.
Definition locking (q : slot_request) : bool := is_session q && bool_decide (sq_action q <> "read").

(** The gate is well formed, is a later state of [g], and knows the operation when [c]. *)
Definition knows (q : slot_request) (g : gate) (c : bool) (st : slot * locals) : Prop :=
  gate_wf (st_gate st.1) /\ rtc gate_step g (st_gate st.1) /\ (c = true -> known (sq_oid q) (st_gate st.1)).

Definition tracks (oid : string) (m : G bool) : Prop := forall g b, gate_wf g -> (m g).2 = Ok b -> known oid (m g).1.

Lemma knows_run q g c st g' : knows q g c st -> rtc gate_step (st_gate st.1) g' -> knows q g c (set_gate g' st.1, st.2).
Proof.
  intros (H1 & H2 & H3) Hr. destruct (gate_run_good _ _ Hr H1) as [Hw He]. split_and!; [done|by etransitivity|].
  intros Hc. eapply evolves_known; [exact He|by apply H3].
Qed.

Lemma when_track_knows q g c d m :
  gate_method m -> tracks (sq_oid q) m ->
  triple (knows q g c) (when d (track m)) (fun r st => knows q g (match r with Ok _ => c || d | Raise _ => c end) st).
Proof.
  intros Hm Ht. apply triple_when; [|intros -> st Hst; by rewrite orb_false_r]. intros -> st Hst. rewrite orb_true_r.
  pose proof (knows_run q g c st _ Hst (Hm (st_gate st.1))) as Hk. pose proof (Ht (st_gate st.1)) as Hb.
  unfold track, sbind, on_gate, smodify. destruct (m (st_gate st.1)) as [g' [b|e]]; cbn [fst snd] in *; [|exact Hk].
  destruct Hk as (H1 & H2 & _). split_and!; [done..|]. intros _. by apply (Hb b); [apply Hst|].
Qed.

Lemma claim_knows oid e h k : tracks oid (claim oid e h k).
Proof. intros g b _ H. left. by eapply claim_tracks. Qed.

Lemma claim_control_knows oid e sid : tracks oid (claim_control oid e sid).
Proof.
  intros g b _. unfold claim_control, sbind. pose proof (claim_tracks oid e false K_control g) as Ht.
  destruct (claim oid e false K_control g) as [g' [c|x]]; cbn [fst snd] in *; [|done]. destruct (Ht c eq_refl) as [it Hit].
  unfold sget. rewrite Hit. destruct c; [|case_bool_decide; [done|intros _; left; by eexists]].
  intros _. left. cbn. rewrite dget_dset_eq. by eexists.
Qed.

Lemma sign_knows oid e : tracks oid (sign oid e).
Proof.
  intros g b Hw Hb. eapply evolves_known; [apply (proj2 (keeps_sign oid e g Hw))|]. left. revert Hb. unfold sign, sbind at 1, sget.
  destruct (dget oid (g_operations g)); [by eexists|done].
Qed.

Lemma enter_knows q s st r :
  gate_wf (st_gate s) -> enter q (s, no_locals) = (st, r) ->
  knows q (st_gate s) (match r with Ok _ => mutates q | Raise _ => false end) st.
Proof.
  intros Hw. set (K := fun c => knows q (st_gate s) c).
  assert (Ht : forall ep, triple (K false) (enter_at q ep) (fun r st => K (match r with Ok _ => mutates q | Raise _ => false end) st)).
  2:{ unfold enter. intros E. specialize (Ht (request_epoch q (s, no_locals).1) (s, no_locals)). rewrite E in Ht. apply Ht. split_and!; [done|apply rtc_refl|done]. }
  assert (Hless : forall c st, K c st -> K false st) by (by intros c st' (H1 & H2 & _)).
  assert (Hstep : forall c d m, gate_method m -> tracks (sq_oid q) m ->
    triple (K c) (when d (track m)) (fun r st => match r with Ok _ => K (c || d) st | Raise _ => K false st end)).
  { intros c d m H1 H2 st0 H0. pose proof (when_track_knows q (st_gate s) c d m H1 H2 st0 H0) as Hx.
    destruct (when d _ st0) as [st1 [[]|e]]; [exact Hx|by eapply Hless]. }
  clear Hw. intros ep. unfold enter_at.
  eapply (triple_bind _ _ _ (fun _ => K false)).
  { apply triple_when; [|done]. intros _ [s0 l0] H. unfold own_request. by case_bool_decide. }
  intros _. eapply (triple_bind _ _ _ (fun _ => K (claims q))).
  { apply (Hstep false); [intros g; apply rtc_once, step_claim|apply claim_knows]. }
  intros _. eapply (triple_bind _ _ _ (fun _ => K (claims q || commits q))).
  { apply Hstep; [intros g; apply rtc_once, step_sign|apply sign_knows]. }
  intros _. eapply (triple_bind _ _ _ (fun _ => K (claims q || commits q))); [intros st0 H0; exact H0|]. intros st2.
  eapply (triple_bind _ _ _ (fun _ => K (claims q || commits q))).
  { apply triple_when; [|done]. intros _ st0 H. by apply (Hless (claims q || commits q)). }
  intros _. eapply (triple_bind _ _ _ (fun _ => K (claims q || commits q))).
  { apply triple_when; [|done]. intros _ [s0 l0] H. unfold lock_session. case_bool_decide; [by apply (Hless _ _ H)|exact H]. }
  intros _. intros st0 H0. pose proof (Hstep (claims q || commits q) (controls q) _ (fun g => rtc_once _ _ (step_claim_control _ _ _ g))
    (claim_control_knows (sq_oid q) ep (sq_session q)) st0 H0) as Hx.
  by destruct (when (controls q) _ st0) as [? [[]|]].
Qed.

(** The locals of an admitted request: what it owns, and the lock of its session. *)
Lemma enter_locals q s st :
  enter q (s, no_locals) = (st, Ok tt) ->
  lo_owns st.2 = owning q /\ lo_admitted st.2 = false /\
  lo_lock st.2 = (if locking q then Some (request_epoch q s, sq_session q) else None).
Proof.
  unfold enter. set (ep := request_epoch q (s, no_locals).1). change (request_epoch q s) with ep. clearbody ep.
  set (k := if locking q then Some (ep, sq_session q) else None).
  set (L := fun o k (st : slot * locals) => lo_owns st.2 = o /\ lo_admitted st.2 = false /\ lo_lock st.2 = k).
  set (Q := fun o k (r : res gate_error unit) st => match r with Ok _ => L o k st | Raise _ => True end).
  assert (Ht : triple (L false None) (enter_at q ep) (Q (owning q) k)); [|intros E; specialize (Ht (s, no_locals)); rewrite E in Ht; by apply Ht].
  assert (Htrack : forall o k d m, triple (L o k) (when d (track m)) (Q o k)).
  { intros o k' d m. apply triple_when; [|done]. intros _ st0 (H1 & H2 & H3). unfold track, sbind, on_gate. by destruct (m _) as [g [b|e]]. }
  unfold enter_at. eapply (triple_bind _ _ _ (fun _ => L (owning q) None)).
  { fold (owning q). apply triple_when; [|by intros ->]. intros -> [s0 l0] (H1 & H2 & H3). unfold own_request. by case_bool_decide. }
  intros _. eapply (triple_bind _ _ _ (fun _ => L (owning q) None)); [apply Htrack|].
  intros _. eapply (triple_bind _ _ _ (fun _ => L (owning q) None)); [apply Htrack|].
  intros _. eapply (triple_bind _ _ _ (fun _ => L (owning q) None)); [intros st0 H0; exact H0|]. intros st2.
  eapply (triple_bind _ _ _ (fun _ => L (owning q) None)); [by apply triple_when|].
  intros _. eapply (triple_bind _ _ _ (fun _ => L (owning q) k)); [|intros _; apply Htrack].
  fold (locking q). subst k. apply triple_when; [|by intros ->].
  intros -> [s0 l0] (H1 & H2 & H3). unfold lock_session. by case_bool_decide.
Qed.

(** ** The invariant *)

(** A request under way holds what its kind asks for, and is known when it changes something. *)
Definition flight_ok (g : gate) (f : flight) : Prop :=
  lo_owns (ft_locals f) = owning (ft_request f) /\
  (exists ep, lo_lock (ft_locals f) = if locking (ft_request f) then Some (ep, sq_session (ft_request f)) else None) /\
  (lo_admitted (ft_locals f) = true <-> ft_progress f <> Waiting) /\
  (mutates (ft_request f) = true -> known (sq_oid (ft_request f)) g).

Record slot_ok (t : Z) (s : ssystem) : Prop := {
  so_held : held_exactly (ss_slot s) (ss_flights s);
  so_gate : rtc gate_step (new_gate t) (st_gate (ss_slot s));
  so_flights : Forall (flight_ok (st_gate (ss_slot s))) (ss_flights s);
  so_sent : Forall (fun oid => known oid (st_gate (ss_slot s))) (ss_sent s)
}.

Lemma reachable_wf t g : rtc gate_step (new_gate t) g -> gate_wf g.
Proof. intros H. apply (gate_run_good _ _ H (new_gate_wf t)). Qed.

Lemma run_known g g' oid : gate_wf g -> rtc gate_step g g' -> known oid g -> known oid g'.
Proof. intros Hw Hr. apply evolves_known, (gate_run_good _ _ Hr Hw). Qed.

Lemma flight_ok_run g g' f : gate_wf g -> rtc gate_step g g' -> flight_ok g f -> flight_ok g' f.
Proof. intros Hw Hr (H1 & H2 & H3 & H4). split_and!; [done..|]. intros Hm. eapply run_known; [..|by apply H4]; done. Qed.

(** A step that only runs the gate and drops requests or history keeps the invariant. *)
Lemma slot_ok_run t s l h s' l' h' :
  slot_ok t (SSys s l h) -> gate_runs s s' -> held_exactly s' l' -> l' ⊆ l -> h' ⊆ h -> slot_ok t (SSys s' l' h').
Proof.
  intros [H1 H2 H3 H4] Hr Hh Hl Hs. cbn in *. pose proof (reachable_wf _ _ H2) as Hw. rewrite !Forall_forall in *.
  split; cbn; [done|by etransitivity| |]; apply Forall_forall; intros x Hx.
  - eapply flight_ok_run; [done..|]. by apply H3, Hl.
  - eapply run_known; [done..|]. by apply H4, Hs.
Qed.

Lemma slot_ok_new t : slot_ok t (SSys (new_slot t) [] []).
Proof. split; cbn; [|apply rtc_refl|constructor..]. by split_and!; [constructor| |constructor|]. Qed.

(** One request changes its progress or its locals, nothing it holds. *)
Lemma held_update s l1 l2 f f' :
  held_oid f' = held_oid f -> held_lock f' = held_lock f -> held_exactly s (l1 ++ f :: l2) -> held_exactly s (l1 ++ f' :: l2).
Proof. intros E1 E2 (H1 & H2 & H3 & H4). rewrite (omap_at held_oid), <- E1, <- (omap_at held_oid) in H2. rewrite (omap_at held_lock), <- E2, <- (omap_at held_lock) in H4. done. Qed.

Lemma slot_step_ok t s s' : slot_step s s' -> slot_ok t s -> slot_ok t s'.
Proof.
  intros Hstep Hok. pose proof (reachable_wf _ _ (so_gate _ _ Hok)) as Hw. destruct Hstep as
    [s l h q s' lo Hb|s l h q s' Hb|s l1 l2 h q lo|s l1 l2 h q lo cn s' Hs|s l1 l2 h q lo cn s' e Hs|s l1 l2 h q lo rp|s l1 l2 h [q lo p] x|s l h rs|s l h oid|s l h]; cbn in Hw.
  - pose proof (begin_request_held q s l (so_held _ _ Hok)) as Hh. rewrite Hb in Hh. unfold begin_request in Hb.
    destruct (enter q (s, no_locals)) as [[s1 lo1] [[]|e]] eqn:E; [|done]. injection Hb as -> ->.
    destruct (enter_knows _ _ _ _ Hw E) as (_ & Hr & Hk). destruct (enter_locals _ _ _ E) as (Ho & Ha & Hl). cbn [fst snd] in *.
    destruct Hok as [H1 H2 H3 H4]. cbn in *. split; cbn; [done|by etransitivity| |].
    + constructor; [|eapply Forall_impl; [exact H3|]; intros f; by apply flight_ok_run].
      split_and!; [done|by exists (request_epoch q s)|by cbn; rewrite Ha|done].
    + eapply Forall_impl; [exact H4|]. intros oid. by apply run_known.
  - pose proof (begin_request_held q s l (so_held _ _ Hok)) as Hh. rewrite Hb in Hh. unfold begin_request in Hb.
    destruct (enter q (s, no_locals)) as [[s1 lo1] [[]|e]] eqn:E; [done|]. injection Hb as <-.
    destruct (enter_knows _ _ _ _ Hw E) as (_ & Hr & _). eapply slot_ok_run; [exact Hok| |done..].
    etransitivity; [exact Hr|apply abandon_runs].
  - destruct Hok as [H1 H2 H3 H4]. cbn in *. split; cbn; [by eapply held_update; [..|exact H1]|done| |done].
    rewrite Forall_app, Forall_cons in *. destruct H3 as (F1 & (F2 & F3 & F4 & F5) & F6). split_and!; [done| |done]. by split_and!.
  - assert (Hk : mutates q = true -> known (sq_oid q) (st_gate s)).
    { pose proof (so_flights _ _ Hok) as Hf. cbn in Hf. rewrite Forall_app, Forall_cons in Hf. apply Hf. }
    pose proof (send_request_runs q cn s) as Hr. rewrite Hs in Hr.
    destruct Hok as [H1 H2 H3 H4]. cbn in *. split; cbn; [|by etransitivity| |].
    + apply (held_update _ _ _ (Flight q lo Ready)); [done..|]. destruct (send_request_same q cn s s' _ Hs). by eapply held_same; [| |exact H1].
    + apply (Forall_impl _ (flight_ok (st_gate s'))) in H3; [|intros f; by apply flight_ok_run].
      rewrite Forall_app, Forall_cons in *. destruct H3 as (F1 & (F2 & F3 & F4 & F5) & F6). split_and!; [done| |done]. split_and!; [done..| |done].
      cbn in *. split; [done|]. intros _. by apply F4.
    + assert (H4' : Forall (fun oid => known oid (st_gate s')) h) by (eapply Forall_impl; [exact H4|]; intros oid; by apply run_known).
      destruct (mutates q); [constructor; [|done]|done]. eapply run_known; [done..|]. by apply Hk.
  - pose proof (send_request_runs q cn s) as Hr. rewrite Hs in Hr. destruct (send_request_same q cn s s' _ Hs).
    eapply slot_ok_run; [exact Hok|etransitivity; [exact Hr|apply abandon_runs]| |set_solver..].
    eapply abandon_held, held_same; [done..|apply Hok].
  - eapply slot_ok_run; [exact Hok|apply end_request_runs|eapply end_request_held, Hok|set_solver..].
  - eapply slot_ok_run; [exact Hok|apply abandon_runs|eapply abandon_held, Hok|set_solver..].
  - eapply slot_ok_run; [exact Hok|apply rtc_once, step_restore|apply Hok|done..].
  - eapply slot_ok_run; [exact Hok|apply rtc_once, step_cancel_prepared|apply Hok|done..].
  - eapply slot_ok_run; [exact Hok|apply rtc_refl|apply Hok|done..].
Qed.

Lemma slot_reachable_ok t s : rtc slot_step (SSys (new_slot t) [] []) s -> slot_ok t s.
Proof. intros H. apply (rtc_ind_r (R := slot_step) (slot_ok t) (SSys (new_slot t) [] [])); [apply slot_ok_new| |exact H]. intros a b _ Hs. by apply slot_step_ok. Qed.

(** ** An interrupted request *)

Lemma reduce_lost_tracked k h p : p <> P_retired -> tla.Reduce k h p E_lost <> P_retired.
Proof. intros Hp Hr. by destruct k, h, p. Qed.

(** An unknown outcome never retires an operation. *)
Lemma failed_unknown_tracked oid ep g :
  gate_wf g -> is_Some (dget oid (g_operations g)) -> is_Some (dget oid (g_operations (failed oid "unknown" ep g).1)).
Proof.
  intros Hw [it Hit]. unfold failed, sbind at 1, sget. rewrite Hit.
  assert (Hb : forall e, exists it', dget oid (g_operations (bind_if_unbound oid it e g).1) = Some it' /\ gate_wf (bind_if_unbound oid it e g).1).
  { intros e. destruct (keeps_bind_if_unbound oid it e g Hw) as [Hw1 _]. unfold bind_if_unbound in *. destruct (it_epoch it); [by exists it|].
    unfold bind, sbind, sget in *. rewrite Hit in *. destruct (_ || _); [by exists it|]. exists (with_epoch e it). split; [|done]. cbn. by rewrite dget_dset_eq. }
  unfold sbind. destruct (Hb (epoch_or ep (it_epoch it))) as (it1 & H1 & Hw1). destruct (bind_if_unbound _ _ _ g) as [g1 [[]|e]]; cbn [fst] in *; [|by eexists].
  unfold when_same_epoch, sbind, sget. rewrite H1. destruct (_same_epoch _ _ _); [|by eexists]. destruct (wf_items _ Hw1 _ _ H1) as (_ & Hv & Hr & _).
  rewrite advance__fst, (advance_eq _ _ it1) by done. cbn [fst]. unfold advanced.
  rewrite decide_False by (by apply reduce_lost_tracked). cbn. rewrite dget_dset_eq. by eexists.
Qed.

(** ** Theorems *)

(** [request] excludes what must not overlap.  In every state of a slot, two different
    requests under way never share an operation when both own theirs (submissions,
    preparations, commits and session requests), and never hold the lock of one session of
    one runtime; every session request that is not a read holds the lock of its session.
    Conversely [operation_requests] and the locks name exactly the requests under way, so
    nothing stays locked after replies, failures, cancellations or rejections. *)
Theorem slot_requests_exclusive t s :
  rtc slot_step (SSys (new_slot t) [] []) s ->
  (forall l1 f l2 f', ss_flights s = l1 ++ f :: l2 -> f' ∈ l1 ++ l2 ->
     (owning (ft_request f) = true -> owning (ft_request f') = true -> sq_oid (ft_request f) <> sq_oid (ft_request f')) /\
     (locking (ft_request f) = true -> lo_lock (ft_locals f) <> lo_lock (ft_locals f'))) /\
  (forall f, f ∈ ss_flights s -> locking (ft_request f) = true -> exists ep, lo_lock (ft_locals f) = Some (ep, sq_session (ft_request f))) /\
  (forall oid, oid ∈ st_requests (ss_slot s) <-> exists f, f ∈ ss_flights s /\ owning (ft_request f) = true /\ sq_oid (ft_request f) = oid) /\
  (forall key, key ∈ st_locks (ss_slot s) <-> exists f, f ∈ ss_flights s /\ lo_lock (ft_locals f) = Some key).
Proof.
  intros Hrun. destruct (slot_reachable_ok t s Hrun) as [(H1 & H2 & H3 & H4) _ Hf _]. rewrite Forall_forall in Hf. split_and!.
  - intros l1 f l2 f' E Hin. rewrite E in H2, H4, Hf. rewrite (omap_at held_oid) in H2. rewrite (omap_at held_lock) in H4.
    assert (Hf1 : f ∈ l1 ++ f :: l2) by set_solver. assert (Hf2 : f' ∈ l1 ++ f :: l2) by set_solver.
    destruct (Hf f Hf1) as (Ho1 & [ep1 Hl1] & _ & _), (Hf f' Hf2) as (Ho2 & [ep2 Hl2] & _ & _). split.
    + intros Hw1 Hw2 Hx. unfold held_oid at 1 in H2. rewrite Ho1, Hw1 in H2. rewrite H2 in H1. apply NoDup_cons in H1 as [H1 _]. apply H1.
      apply list_elem_of_omap. exists f'. split; [done|]. unfold held_oid. by rewrite Ho2, Hw2, Hx.
    + intros Hw1 Hx. unfold held_lock at 1 in H4. rewrite Hw1 in Hl1. rewrite Hl1 in H4, Hx. rewrite H4 in H3. apply NoDup_cons in H3 as [H3 _]. apply H3.
      apply list_elem_of_omap. by exists f'.
  - intros f Hin Hw. destruct (Hf f Hin) as (_ & [ep Hl] & _). exists ep. by rewrite Hw in Hl.
  - intros oid. rewrite H2, list_elem_of_omap. apply exist_proper. intros f. split.
    + intros [Hin Hx]. destruct (Hf f Hin) as (Ho & _). unfold held_oid in Hx. rewrite Ho in Hx. destruct (owning _); [|done]. by injection Hx as <-.
    + intros (Hin & Hw & <-). destruct (Hf f Hin) as (Ho & _). unfold held_oid. by rewrite Ho, Hw.
  - intros key. rewrite H4, list_elem_of_omap. done.
Qed.

(** C17: what may have reached the worker is never forgotten nor submitted again as new.  In
    every state of a slot, an operation whose submission, preparation, commit or control
    was sent is tracked by the gate or has a tombstone, and no later claim of it opens a
    new operation.  When a request that passed its admission is interrupted (a
    cancellation, a lost connection, any error that is not a [RemoteError]), its tracked
    operation stays tracked: only the worker's own word can retire it. *)
Theorem slot_sent_requests_known t s :
  rtc slot_step (SSys (new_slot t) [] []) s ->
  (forall oid, oid ∈ ss_sent s -> known oid (st_gate (ss_slot s)) /\ forall e h k, (claim oid e h k (st_gate (ss_slot s))).2 <> Ok true) /\
  (forall f, f ∈ ss_flights s -> ft_progress f <> Waiting -> sq_method (ft_request f) <> "query" ->
     is_Some (dget (sq_oid (ft_request f)) (g_operations (st_gate (ss_slot s)))) ->
     is_Some (dget (sq_oid (ft_request f)) (g_operations (st_gate (abandon (ft_request f) (ft_locals f) OtherExit (ss_slot s)))))).
Proof.
  intros Hrun. pose proof (slot_reachable_ok t s Hrun) as Hok. destruct Hok as [_ Hg Hf Hs]. rewrite Forall_forall in Hf. rewrite Forall_forall in Hs. split.
  - intros oid Hin. split; [by apply Hs|]. intros e h k. by apply known_not_claimed, Hs.
  - intros f Hin Hp Hq Ht. destruct (Hf f Hin) as (_ & _ & Ha & _). unfold abandon, exit_gate. cbn [st_gate set_gate finish].
    rewrite decide_False by done. destruct (lo_tracked (ft_locals f)); [|done]. rewrite (proj2 Ha Hp).
    apply failed_unknown_tracked; [by eapply reachable_wf|done].
Qed.

(** ** Witnesses *)

(** A submission that was sent over a first connection, and an input that waits for its session's lock. *)
Definition demo_submit : slot_request := SlotRequest "submit" "op" "" 0 false None "".
Definition demo_input : slot_request := SlotRequest "session" "in" "input" 3 false None "".

Definition demo_begin (q : slot_request) (s : slot) : slot * locals :=
  match begin_request q s with (s, Some lo) => (s, lo) | (s, None) => (s, no_locals) end.

Definition demo_slot1 : slot * locals := Eval vm_compute in demo_begin demo_submit (new_slot 1).
Definition demo_slot2 : slot := Eval vm_compute in (send_request demo_submit (Some "e1") demo_slot1.1).1.
Definition demo_slot3 : slot * locals := Eval vm_compute in demo_begin demo_input demo_slot2.

Definition demo_flights : list flight :=
  [Flight demo_input demo_slot3.2 Waiting; Flight demo_submit (set_admitted demo_slot1.2) Sent].
Definition demo_system : ssystem := SSys demo_slot3.1 demo_flights ["op"].

Lemma demo_system_reachable : rtc slot_step (SSys (new_slot 1) [] []) demo_system.
Proof.
  eapply rtc_l; [apply (sp_begin _ _ _ demo_submit demo_slot1.1 demo_slot1.2); vm_compute; reflexivity|].
  eapply rtc_l; [apply (sp_admitted _ [] [])|].
  eapply rtc_l; [apply (sp_sent _ [] [] _ _ _ (Some "e1") demo_slot2); vm_compute; reflexivity|].
  apply rtc_once. apply (sp_begin demo_slot2 _ _ demo_input demo_slot3.1 demo_slot3.2). vm_compute. reflexivity.
Qed.

Lemma slot_requests_exclusive_witness :
  (locking demo_input = true -> lo_lock demo_slot3.2 <> lo_lock (set_admitted demo_slot1.2)) /\ (exists key, key ∈ st_locks demo_slot3.1).
Proof.
  destruct (slot_requests_exclusive 1 demo_system demo_system_reachable) as (H1 & H2 & _ & H4). split.
  - apply (H1 [] (Flight demo_input demo_slot3.2 Waiting) [Flight demo_submit (set_admitted demo_slot1.2) Sent]
      (Flight demo_submit (set_admitted demo_slot1.2) Sent)); [reflexivity|by constructor].
  - destruct (H2 (Flight demo_input demo_slot3.2 Waiting)) as [ep Hl]; [by constructor|reflexivity|]. eexists. apply H4.
    exists (Flight demo_input demo_slot3.2 Waiting). split; [by constructor|exact Hl].
Defined.

Lemma slot_sent_requests_known_witness :
  known "op" (st_gate demo_slot3.1) /\
  is_Some (dget "op" (g_operations (st_gate (abandon demo_submit (set_admitted demo_slot1.2) OtherExit demo_slot3.1)))).
Proof.
  destruct (slot_sent_requests_known 1 demo_system demo_system_reachable) as [H1 H2]. split.
  - apply (H1 "op"). by constructor.
  - apply (H2 (Flight demo_submit (set_admitted demo_slot1.2) Sent)); [by do 2 constructor|done..|]. by eexists.
Defined.
