(* ===== verification/Observations.v ===== *)
(** * Delivery of outputs and events

    [pal_shell_native/observation_owner.py] (class [ObservationOwner]) with the delivery
    part of [NativeShellOwner] in [runtime.py]: what the host has observed of its shell
    sessions, which events wait for the model, who claimed them, which output the model
    was given, and when the output of a command may be released.  Methods without an
    await are functions of the owner; the tasks they start end in functions of their own.
    Messages that reach the model and requests to release an output leave the owner; they
    are kept in its log. *)

From S2P Require Import Prelude Dict Utf8 PyValue LifecycleTable Lifecycle.
Open Scope Z_scope.

(** ** Raw observations *)

(** A raw observation is the dictionary of a native event or of an adopted result. *)
Abbreviation raw := obj.

(** [r.get(k, 0)] *)
Definition raw_int (k : string) (r : raw) : Z :=
  match dget k r with Some (JInt n) => n | Some (JBool b) => Z.b2z b | _ => 0 end.
Definition raw_string (k : string) (r : raw) : option string := match dget k r with Some (JStr s) => Some s | _ => None end.
Definition raw_status (r : raw) : string := default "" (raw_string "status" r).
Definition raw_sid (r : raw) : Z := raw_int "session_id" r.
Definition raw_sequence (r : raw) : Z := raw_int "event_sequence" r.
Definition is_terminal (r : raw) : bool := terminal (raw_status r).

Inductive stream := Stdout | Stderr.
Definition pick {A} (st : stream) (p : A * A) : A := match st with Stdout => p.1 | Stderr => p.2 end.
Definition total (st : stream) (r : raw) : Z := raw_int (match st with Stdout => "stdout_total" | Stderr => "stderr_total" end) r.
Definition totals (r : raw) : Z * Z := (total Stdout r, total Stderr r).

Definition observed (r : raw) : observation :=
  Observation (raw_int "watch_generation" r) (raw_sequence r) (raw_status r) (total Stdout r) (total Stderr r).

(** [session_key] and [event_id], the parts of the strings. *)
Abbreviation event_key := (string * Z)%type.
Abbreviation event_id := (string * Z * Z)%type.
Definition key_of (r : raw) : event_key := (default "local" (raw_string "runtime_epoch" r), raw_sid r).

Definition SEMANTIC_KEYS : list string :=
  ["session_id"; "target"; "status"; "returncode"; "signal"; "error"; "watching"; "has_deadline"; "has_wake"; "truncated";
   "observation_error"].

Definition semantic_state (r : raw) : obj :=
  let result := omap (fun k => (fun v => (k, v)) <$> dget k r) SEMANTIC_KEYS in
  let result :=
    if get_bool "has_deadline" r && negb (is_terminal r) then
      if 0 <? raw_int "remaining_ms" r
      then dset "deadline_elapsed_ms" (JInt (raw_int "elapsed_ms" r + raw_int "remaining_ms" r)) result
      else dset "deadline_expired" (JBool true) result
    else result in
  if get_bool "has_wake" r then
    if 0 <? raw_int "wake_remaining_ms" r
    then dset "wake_elapsed_ms" (JInt (raw_int "elapsed_ms" r + raw_int "wake_remaining_ms" r)) result
    else dset "wake_due" (JBool true) result
  else result.

(** ** State *)

(** The keys of [owner.pending]: the calls of tools, and the identities of events. *)
Inductive output_ref := OfCall (id : string) | OfEvent (id : event_id).

#[export] Instance output_ref_eq_dec : EqDecision output_ref.
Proof. solve_decision. Defined.

(** The host's entry of a session; [get] with the source's defaults. *)
Record session := Session {
  ss_committed : bool;
  ss_transient : bool;
  ss_watching : bool;
  ss_watch_generation : Z;
  ss_latest_status : option string;
  ss_observation_error : option json;
  ss_output_offsets : Z * Z;
  ss_terminal_delivered : bool;
  ss_failure_reported : bool;           (* output_failure_reported *)
  ss_origin_turn : string;
  ss_input_lease : string;
  ss_last : option (output_ref * string * Z) (* last_observation_call, _turn and _revision *)
}.

Definition new_session (transient : bool) (turn lease : string) : session :=
  Session false transient true 0 None None (0, 0) false false turn lease None.

Record Snapshot := mkSnapshot { sn_raw : raw; sn_revision : Z; sn_state : obj }.

(** A [Completion]; the token stands for the identity of the object. *)
Record event := Event { ev_token : nat; ev_session_id : Z; ev_origin_turn : string; ev_result : raw }.
Definition identity (e : event) : event_id := (default "local" (raw_string "runtime_epoch" (ev_result e)), ev_session_id e, raw_sequence (ev_result e)).
Definition is_event (a b : event) : bool := Nat.eqb (ev_token a) (ev_token b).

(** What [materialize_delivery] returned for an event: the content of both streams, the
    content of both streams from some offsets on, saved as a result snapshot, or its failure. *)
Inductive loaded :=
| LoadedAll (content : bytes * bytes)
| LoadedSnapshot (offsets : Z * Z) (content : bytes * bytes)
| LoadError.

(** The rendering of a result for the model: content from given offsets on, an error text, or a state without output. *)
Inductive rendered :=
| RawOutput (offsets : Z * Z) (content : bytes * bytes)
| RawError
| RawState.

Record PendingOutput := Pending {
  po_result : raw;
  po_turn_id : string;
  po_raw : option rendered;
  po_prepared : bool;
  po_recovery_of : option output_ref;
  po_delivered : bool;
  po_failure : bool;                    (* [failure] is not empty *)
  po_covers_output : bool;
  po_borrowed : bool
}.

(** The two forms of [ack_key]. *)
Inductive ack_key :=
| AckOutput (target : Z) (epoch : option string) (output : option string)
| AckSession (sid : Z).

#[export] Instance ack_key_eq_dec : EqDecision ack_key.
Proof. solve_decision. Defined.

(** The turns of the memory that carry an observation coverage. *)
Inductive turn := Turn (id : string) | EventTurn (id : event_id).

#[export] Instance turn_eq_dec : EqDecision turn.
Proof. solve_decision. Defined.

(** An output: of a session, or of a one-shot command ([session_id] is 0). *)
Inductive output_key := SessionOutput (sid : Z) | OneShot (output : option string).

Definition output_of (r : raw) : output_key :=
  if raw_sid r =? 0 then OneShot (raw_string "output_id" r) else SessionOutput (raw_sid r).

Inductive effect :=
| Shown (output : output_key) (st : stream) (offset : Z) (content : bytes)  (* a message of the model holds this part *)
| Committed (key : event_key) (sequence : Z)                                (* an event counts as delivered *)
| Acknowledged (result : raw).                                              (* its acknowledgement was started *)

Record owner := Owner {
  ow_sessions : dict Z session;                  (* owner.sessions *)
  ow_outputs : dict output_ref PendingOutput;    (* owner.pending *)
  ow_leases : list string;                       (* the keys of owner.input_leases *)
  ow_latest : dict Z Snapshot;
  ow_pending : dict Z event;
  ow_claims : dict Z (string * event);
  ow_prepared : dict event_id loaded;
  ow_preparing : dict Z (event * (Z * Z));       (* with the offsets of the session that the task reads *)
  ow_failures : list Z;
  ow_covered : dict event_key Z;
  ow_acking : dict ack_key event_id;             (* acking and ack_events *)
  ow_completions : dict Z event;                 (* of the shell: _completions and remote_completions *)
  ow_memory : dict (turn * event_id) bool;       (* the coverage of the turns: delivery_failed of an event *)
  ow_closed : bool;
  ow_log : list effect
}.

Definition new_owner : owner := Owner [] [] [] [] [] [] [] [] [] [] [] [] [] false [].

Definition set_sessions x o := Owner x (ow_outputs o) (ow_leases o) (ow_latest o) (ow_pending o) (ow_claims o) (ow_prepared o) (ow_preparing o) (ow_failures o) (ow_covered o) (ow_acking o) (ow_completions o) (ow_memory o) (ow_closed o) (ow_log o).
Definition set_outputs x o := Owner (ow_sessions o) x (ow_leases o) (ow_latest o) (ow_pending o) (ow_claims o) (ow_prepared o) (ow_preparing o) (ow_failures o) (ow_covered o) (ow_acking o) (ow_completions o) (ow_memory o) (ow_closed o) (ow_log o).
Definition set_leases x o := Owner (ow_sessions o) (ow_outputs o) x (ow_latest o) (ow_pending o) (ow_claims o) (ow_prepared o) (ow_preparing o) (ow_failures o) (ow_covered o) (ow_acking o) (ow_completions o) (ow_memory o) (ow_closed o) (ow_log o).
Definition set_latest x o := Owner (ow_sessions o) (ow_outputs o) (ow_leases o) x (ow_pending o) (ow_claims o) (ow_prepared o) (ow_preparing o) (ow_failures o) (ow_covered o) (ow_acking o) (ow_completions o) (ow_memory o) (ow_closed o) (ow_log o).
Definition set_pending x o := Owner (ow_sessions o) (ow_outputs o) (ow_leases o) (ow_latest o) x (ow_claims o) (ow_prepared o) (ow_preparing o) (ow_failures o) (ow_covered o) (ow_acking o) (ow_completions o) (ow_memory o) (ow_closed o) (ow_log o).
Definition set_claims x o := Owner (ow_sessions o) (ow_outputs o) (ow_leases o) (ow_latest o) (ow_pending o) x (ow_prepared o) (ow_preparing o) (ow_failures o) (ow_covered o) (ow_acking o) (ow_completions o) (ow_memory o) (ow_closed o) (ow_log o).
Definition set_prepared x o := Owner (ow_sessions o) (ow_outputs o) (ow_leases o) (ow_latest o) (ow_pending o) (ow_claims o) x (ow_preparing o) (ow_failures o) (ow_covered o) (ow_acking o) (ow_completions o) (ow_memory o) (ow_closed o) (ow_log o).
Definition set_preparing x o := Owner (ow_sessions o) (ow_outputs o) (ow_leases o) (ow_latest o) (ow_pending o) (ow_claims o) (ow_prepared o) x (ow_failures o) (ow_covered o) (ow_acking o) (ow_completions o) (ow_memory o) (ow_closed o) (ow_log o).
Definition set_failures x o := Owner (ow_sessions o) (ow_outputs o) (ow_leases o) (ow_latest o) (ow_pending o) (ow_claims o) (ow_prepared o) (ow_preparing o) x (ow_covered o) (ow_acking o) (ow_completions o) (ow_memory o) (ow_closed o) (ow_log o).
Definition set_covered x o := Owner (ow_sessions o) (ow_outputs o) (ow_leases o) (ow_latest o) (ow_pending o) (ow_claims o) (ow_prepared o) (ow_preparing o) (ow_failures o) x (ow_acking o) (ow_completions o) (ow_memory o) (ow_closed o) (ow_log o).
Definition set_acking x o := Owner (ow_sessions o) (ow_outputs o) (ow_leases o) (ow_latest o) (ow_pending o) (ow_claims o) (ow_prepared o) (ow_preparing o) (ow_failures o) (ow_covered o) x (ow_completions o) (ow_memory o) (ow_closed o) (ow_log o).
Definition set_completions x o := Owner (ow_sessions o) (ow_outputs o) (ow_leases o) (ow_latest o) (ow_pending o) (ow_claims o) (ow_prepared o) (ow_preparing o) (ow_failures o) (ow_covered o) (ow_acking o) x (ow_memory o) (ow_closed o) (ow_log o).
Definition set_memory x o := Owner (ow_sessions o) (ow_outputs o) (ow_leases o) (ow_latest o) (ow_pending o) (ow_claims o) (ow_prepared o) (ow_preparing o) (ow_failures o) (ow_covered o) (ow_acking o) (ow_completions o) x (ow_closed o) (ow_log o).
Definition emit (l : list effect) o := Owner (ow_sessions o) (ow_outputs o) (ow_leases o) (ow_latest o) (ow_pending o) (ow_claims o) (ow_prepared o) (ow_preparing o) (ow_failures o) (ow_covered o) (ow_acking o) (ow_completions o) (ow_memory o) (ow_closed o) (l ++ ow_log o).

Definition update_session (sid : Z) (f : session -> session) (o : owner) : owner :=
  match dget sid (ow_sessions o) with Some s => set_sessions (dset sid (f s) (ow_sessions o)) o | None => o end.

(** ** Observing *)

(** [release_input_lease] *)
Definition release_input_lease (call : string) (o : owner) : owner := set_leases (filter (fun c => c <> call) (ow_leases o)) o.

Definition release_session_inputs (sid : Z) (o : owner) : owner :=
  match dget sid (ow_sessions o) with Some s => release_input_lease (ss_input_lease s) o | None => o end.

(** The session's entry after an observation. *)
Definition observed_session (r : raw) (s : session) : session :=
  Session (ss_committed s) (ss_transient s) (ss_watching s) (ss_watch_generation s) (Some (raw_status r))
    (if truthy (jget "observation_error" r) then dget "observation_error" r else None)
    (ss_output_offsets s) (ss_terminal_delivered s) (ss_failure_reported s) (ss_origin_turn s) (ss_input_lease s) (ss_last s).

Definition next_snapshot (r : raw) (previous : option Snapshot) : Snapshot :=
  let state := semantic_state r in
  let changed := match previous with Some p => negb (py_eq (JObj (sn_state p)) (JObj state)) | None => true end in
  mkSnapshot r (match previous with Some p => sn_revision p | None => 0 end + Z.b2z changed) state.

Definition stale (r : raw) (previous : option Snapshot) : bool :=
  match previous with Some p => snapshot_is_older (observed r) (observed (sn_raw p)) | None => false end.

Definition record (r : raw) (o : owner) : owner :=
  let sid := raw_sid r in
  let previous := dget sid (ow_latest o) in
  if (sid =? 0) || negb (dmem sid (ow_sessions o)) || stale r previous then o
  else
    let o := set_latest (dset sid (next_snapshot r previous) (ow_latest o)) o in
    let o := update_session sid (observed_session r) o in
    if is_terminal r then release_session_inputs sid o else o.

(** [observation_is_current] *)
Definition observation_is_current (r : raw) (s : session) : bool :=
  ss_watching s && (ss_watch_generation s <=? raw_int "watch_generation" r) &&
  negb (match ss_latest_status s with Some status => terminal status || bool_decide (status = "terminating") | None => false end &&
        negb (is_terminal r)).

(** [self.covered.get(key, -1)] *)
Definition covered (key : event_key) (o : owner) : Z := default (-1) (dget key (ow_covered o)).

Definition eligible (sid : Z) (ready claimed : bool) (o : owner) : bool :=
  match dget sid (ow_pending o), dget sid (ow_sessions o) with
  | Some e, Some s =>
      negb (ss_transient s) && ss_committed s && observation_is_current (ev_result e) s &&
      bool_decide (sid ∉ ow_failures o) && (covered (key_of (ev_result e)) o <? raw_sequence (ev_result e)) &&
      (claimed || negb (dmem sid (ow_claims o))) && (negb ready || dmem (identity e) (ow_prepared o))
  | _, _ => false
  end.

Definition offsets_of (sid : Z) (o : owner) : Z * Z :=
  match dget sid (ow_sessions o) with Some s => ss_output_offsets s | None => (0, 0) end.

(** [_prepare]: starts the load of an event, unless it is loaded or the session loads one. *)
Definition prepare (e : event) (o : owner) : owner :=
  if dmem (identity e) (ow_prepared o) || dmem (ev_session_id e) (ow_preparing o) then o
  else set_preparing (dset (ev_session_id e) (e, offsets_of (ev_session_id e) o) (ow_preparing o)) o.

Definition clear_failure (sid : Z) (o : owner) : owner := set_failures (filter (fun s => s <> sid) (ow_failures o)) o.
Definition fail_session (sid : Z) (o : owner) : owner :=
  set_failures (if decide (sid ∈ ow_failures o) then ow_failures o else ow_failures o ++ [sid]) o.

Definition set_failure_reported (b : bool) (s : session) : session :=
  Session (ss_committed s) (ss_transient s) (ss_watching s) (ss_watch_generation s) (ss_latest_status s) (ss_observation_error s)
    (ss_output_offsets s) (ss_terminal_delivered s) b (ss_origin_turn s) (ss_input_lease s) (ss_last s).

(** The loop body of [collect]. *)
Definition collect_event (o : owner) (e : event) : owner :=
  let sid := ev_session_id e in
  let o := if match dget sid (ow_pending o) with Some old => is_event old e | None => false end then o else record (ev_result e) o in
  match dget sid (ow_sessions o) with
  | None => o
  | Some s =>
      if negb (observation_is_current (ev_result e) s) then o
      else
        let newer := match dget sid (ow_pending o) with
                     | Some old => raw_sequence (ev_result old) <? raw_sequence (ev_result e)
                     | None => true
                     end in
        let o := if newer then update_session sid (set_failure_reported false)
                                 (clear_failure sid (set_pending (dset sid e (ow_pending o)) o)) else o in
        if eligible sid false true o then match dget sid (ow_pending o) with Some e => prepare e o | None => o end else o
  end.

Definition drop_ineligible (o : owner) : owner :=
  set_pending (filter (fun p => eligible p.1 false true o = true \/ p.1 ∈ ow_failures o) (ow_pending o)) o.

Definition retained (o : owner) : list event_id :=
  (identity <$> dvals (ow_pending o)) ++ ((fun p => identity p.2) <$> dvals (ow_claims o)).

Definition drop_prepared (o : owner) : owner :=
  set_prepared (filter (fun p => p.1 ∈ retained o) (ow_prepared o)) o.

Definition collect (o : owner) : owner :=
  if ow_closed o then o else drop_prepared (drop_ineligible (foldl collect_event o (dvals (ow_completions o)))).

(** The end of the task that [_prepare] started; a cancelled one only leaves [preparing]. *)
Definition load_done (e : event) (value : loaded) (o : owner) : owner :=
  let o := set_preparing (ddel (ev_session_id e) (ow_preparing o)) o in
  let current := match dget (ev_session_id e) (ow_pending o) with Some p => is_event p e | None => false end in
  collect (if negb (ow_closed o) && current then set_prepared (dset (identity e) value (ow_prepared o)) o else o).

Definition load_cancelled (e : event) (o : owner) : owner := set_preparing (ddel (ev_session_id e) (ow_preparing o)) o.

(** The end of a read that [refresh] started: an observation, nothing, or a failure with its report. *)
Definition refreshed (r : option raw) (o : owner) : owner := collect (match r with Some r => record r o | None => o end).

Definition refresh_failed (sid : Z) (report : json) (o : owner) : owner :=
  let o := update_session sid (fun s =>
    Session (ss_committed s) (ss_transient s) (ss_watching s) (ss_watch_generation s) (ss_latest_status s) (Some report)
      (ss_output_offsets s) (ss_terminal_delivered s) (ss_failure_reported s) (ss_origin_turn s) (ss_input_lease s) (ss_last s)) o in
  collect (match dget sid (ow_sessions o), dget sid (ow_latest o) with
           | Some _, Some old => record (dset "observation_error" report (sn_raw old)) o
           | _, _ => o
           end).

(** ** Claims and their end *)

Definition claim_event (sid : Z) (claimant : string) (o : owner) : owner * option event :=
  if eligible sid true false o then
    match dget sid (ow_pending o) with
    | Some e => (set_claims (dset sid (claimant, e) (ow_claims o)) o, Some e)
    | None => (o, None)
    end
  else (o, None).

Definition release_claim (sid : Z) (e : event) (o : owner) : owner :=
  match dget sid (ow_claims o) with
  | Some (_, claimed) => if is_event claimed e then set_claims (ddel sid (ow_claims o)) o else o
  | None => o
  end.

Definition drop_completion (sid : Z) (id : event_id) (o : owner) : owner :=
  match dget sid (ow_completions o) with
  | Some current => if decide (identity current = id) then set_completions (ddel sid (ow_completions o)) o else o
  | None => o
  end.

Definition retire_event (e : event) (o : owner) : owner :=
  let sid := ev_session_id e in
  let o := match dget sid (ow_pending o) with
           | Some p => if is_event p e then set_pending (ddel sid (ow_pending o)) o else o
           | None => o
           end in
  let o := set_prepared (ddel (identity e) (ow_prepared o)) o in
  drop_completion sid (identity e) (release_claim sid e o).

(** [self.covered[key] = max(self.covered.get(key, -1), sequence)] *)
Definition cover (key : event_key) (sequence : Z) (o : owner) : owner :=
  emit [Committed key sequence] (set_covered (dset key (Z.max (covered key o) sequence) (ow_covered o)) o).

Definition max_offsets (r : raw) (offsets : Z * Z) : Z * Z := (Z.max offsets.1 (total Stdout r), Z.max offsets.2 (total Stderr r)).

Definition set_offsets (r : raw) (s : session) : session :=
  Session (ss_committed s) (ss_transient s) (ss_watching s) (ss_watch_generation s) (ss_latest_status s) (ss_observation_error s)
    (max_offsets r (ss_output_offsets s)) (ss_terminal_delivered s) (ss_failure_reported s) (ss_origin_turn s) (ss_input_lease s) (ss_last s).
Definition set_terminal_delivered (r : raw) (s : session) : session :=
  Session (ss_committed s) (ss_transient s) (ss_watching s) (ss_watch_generation s) (ss_latest_status s) (ss_observation_error s)
    (ss_output_offsets s) (is_terminal r || ss_terminal_delivered s) (ss_failure_reported s) (ss_origin_turn s) (ss_input_lease s) (ss_last s).

Definition commit_event (e : event) (o : owner) : owner :=
  let o := cover (key_of (ev_result e)) (raw_sequence (ev_result e)) o in
  let o := update_session (ev_session_id e) (fun s => set_terminal_delivered (ev_result e) (set_offsets (ev_result e) s)) o in
  retire_event e o.

(** [note_tool_state] *)
Definition note_tool_state (call : output_ref) (r : raw) (turn_id : string) (o : owner) : owner :=
  let o := record r o in
  match dget (raw_sid r) (ow_latest o) with
  | Some p =>
      if py_eq (JObj (sn_state p)) (JObj (semantic_state r)) then
        update_session (raw_sid r) (fun s =>
          Session (ss_committed s) (ss_transient s) (ss_watching s) (ss_watch_generation s) (ss_latest_status s) (ss_observation_error s)
            (ss_output_offsets s) (ss_terminal_delivered s) (ss_failure_reported s) (ss_origin_turn s) (ss_input_lease s)
            (Some (call, turn_id, sn_revision p))) o
      else o
  | None => o
  end.

Definition note_tool_delivery (call : output_ref) (r : raw) (turn_id : string) (o : owner) : owner :=
  let o := note_tool_state call r turn_id o in
  if negb (dmem (raw_sid r) (ow_sessions o)) then o
  else
    let o := cover (key_of r) (raw_sequence r) o in
    let o := update_session (raw_sid r) (set_terminal_delivered r) o in
    match dget (raw_sid r) (ow_pending o) with
    | Some e => if raw_sequence (ev_result e) <=? covered (key_of r) o then retire_event e o else o
    | None => o
    end.

(** The error of an event was delivered; its output stays. *)
Definition report_failure (e : event) (o : owner) : owner :=
  let sid := ev_session_id e in
  let o := update_session sid (set_failure_reported true) (fail_session sid o) in
  let p := default (Pending (ev_result e) (ev_origin_turn e) None false None false false true false) (dget (OfEvent (identity e)) (ow_outputs o)) in
  let o := set_outputs (dset (OfEvent (identity e))
             (Pending (po_result p) (po_turn_id p) (po_raw p) (po_prepared p) (po_recovery_of p) true true (po_covers_output p) (po_borrowed p))
             (ow_outputs o)) o in
  let o := release_claim sid e o in
  if is_terminal (ev_result e) then retire_event e o else o.

(** ** Sessions that end *)

(** [forget]; the tasks of the session are cancelled. *)
Definition forget_observation (sid : Z) (o : owner) : owner :=
  let o := match dget sid (ow_latest o) with
           | Some old => set_covered (ddel (key_of (sn_raw old)) (ow_covered o)) (set_latest (ddel sid (ow_latest o)) o)
           | None => o
           end in
  let o := match dget sid (ow_pending o) with
           | Some e => set_prepared (ddel (identity e) (ow_prepared o)) (set_pending (ddel sid (ow_pending o)) o)
           | None => o
           end in
  clear_failure sid (set_claims (ddel sid (ow_claims o)) o).

Definition outputs_without_session (sid : Z) (d : dict output_ref PendingOutput) : dict output_ref PendingOutput :=
  filter (fun p => raw_sid (po_result p.2) <> sid) d.

Definition forget_session (sid : Z) (o : owner) : owner :=
  if sid =? 0 then o
  else
    let o := forget_observation sid (release_session_inputs sid o) in
    let o := set_sessions (ddel sid (ow_sessions o)) o in
    set_outputs (outputs_without_session sid (ow_outputs o)) o.

(** ** Acknowledgements *)

Definition ack_key_of (sid : Z) (r : raw) : ack_key :=
  if is_terminal r || (sid =? 0) then AckOutput (raw_int "target" r) (raw_string "runtime_epoch" r) (raw_string "output_id" r) else AckSession sid.

Definition output_ack_key (p : PendingOutput) : ack_key := ack_key_of (raw_sid (po_result p)) (po_result p).

Definition acknowledge_event (e : event) (o : owner) : owner :=
  let key := ack_key_of (ev_session_id e) (ev_result e) in
  let previous := dget key (ow_acking o) in
  if ow_closed o then o
  else if match previous with Some id => is_terminal (ev_result e) || bool_decide (id = identity e) | None => false end then o
  else if is_terminal (ev_result e) && negb (dmem (ev_session_id e) (ow_sessions o)) &&
          negb (existsb (fun p => bool_decide (output_ack_key p = key)) (dvals (ow_outputs o))) then o
  else emit [Acknowledged (ev_result e)] (set_acking (dset key (identity e) (ow_acking o)) o).

(** The [finally] clause of the acknowledgement's task. *)
Definition without_key (key : ack_key) (d : dict output_ref PendingOutput) : dict output_ref PendingOutput := filter (fun p => output_ack_key p.2 <> key) d.

Definition ack_done (e : event) (o : owner) : owner :=
  let key := ack_key_of (ev_session_id e) (ev_result e) in
  let o := if is_terminal (ev_result e) && negb (ow_closed o) then
             let o := forget_session (ev_session_id e) o in
             set_outputs (without_key key (ow_outputs o)) o
           else o in
  match dget key (ow_acking o) with
  | Some id => if decide (id = identity e) then set_acking (ddel key (ow_acking o)) o else o
  | None => o
  end.

(** ** Reading outputs *)

(** Where the output of an observation is: in the event itself, in the files of the worker or of the cache, or both. *)
Record source := Source { so_inline : option (bytes * bytes); so_files : option (bytes * bytes) }.

(** [file.read(size)], which must not come short. *)
Definition read_exact (size : Z) (file : bytes) : option bytes :=
  let content := take (Z.to_nat size) file in if Z.of_nat (length content) =? size then Some content else None.

Definition read_files (files : bytes * bytes) (r : raw) : option (bytes * bytes) :=
  match read_exact (total Stdout r) files.1, read_exact (total Stderr r) files.2 with
  | Some out, Some err => Some (out, err)
  | _, _ => None
  end.

(** [load] in [materialize]. *)
Definition load_output (src : source) (r : raw) : loaded :=
  match so_inline src, so_files src with
  | Some content, _ => LoadedAll content
  | None, Some files => match read_files files r with Some content => LoadedAll content | None => LoadError end
  | None, None => LoadedAll ([], [])
  end.

Definition drop_streams (offsets : Z * Z) (content : bytes * bytes) : bytes * bytes :=
  (drop (Z.to_nat offsets.1) content.1, drop (Z.to_nat offsets.2) content.2).

(** [materialize_delivery]: beyond the limit of the budget the intervals of the files from the offsets on are captured. *)
Definition materialize_delivery (limit : option Z) (offsets : Z * Z) (src : source) (r : raw) : loaded :=
  if match limit with Some n => n <? total Stdout r + total Stderr r | None => false end then
    match so_files src with
    | Some files =>
        match read_files files r with Some content => LoadedSnapshot offsets (drop_streams offsets content) | None => LoadError end
    | None => load_output src r
    end
  else load_output src r.

(** [output_since] and [output_result]. *)
Definition output_since (value : loaded) (offsets : Z * Z) : rendered :=
  match value with
  | LoadedAll content => RawOutput offsets (drop_streams offsets content)
  | LoadedSnapshot offsets content => RawOutput offsets content
  | LoadError => RawError
  end.

Definition rendered_ok (x : rendered) : bool := match x with RawOutput _ _ => true | _ => false end.

(** The parts of an output in a message. *)
Definition shown (key : output_key) (x : rendered) : list effect :=
  match x with
  | RawOutput offsets content => [Shown key Stdout offsets.1 content.1; Shown key Stderr offsets.2 content.2]
  | _ => []
  end.

(** ** Results of tools *)

Definition REMOTE_PENDING_BYTES : Z := 64 * 1024 * 1024.

Definition output_size (r : raw) : Z := total Stdout r + total Stderr r.

(** The outputs of remote targets that are held already. *)
Definition retained_bytes (o : owner) : Z :=
  foldr (fun p n => (if negb (raw_int "target" (po_result p) =? 0) && match po_raw p with Some _ => true | None => false end
                     then output_size (po_result p) else 0) + n) 0 (dvals (ow_outputs o)).

(** [stage] up to its await. *)
Definition stage_begin (call : output_ref) (turn_id : string) (r : raw) (recovery_of : option output_ref) (borrowed : bool) (o : owner) : owner :=
  let o := if borrowed then o else record r o in
  let p := Pending r turn_id None false recovery_of false false true borrowed in
  let o := set_outputs (dset call p (ow_outputs o)) o in
  if negb (raw_int "target" r =? 0) && (REMOTE_PENDING_BYTES <? retained_bytes o + output_size r)
  then set_outputs (dset call (Pending r turn_id (Some RawError) false recovery_of false true true borrowed) (ow_outputs o)) o
  else o.

(** [stage] after the read of the output, which starts at its first byte. *)
Definition stage_done (call : output_ref) (value : loaded) (o : owner) : owner :=
  match dget call (ow_outputs o) with
  | Some p =>
      let x := output_since value (0, 0) in
      set_outputs (dset call (Pending (po_result p) (po_turn_id p) (Some x) (po_prepared p) (po_recovery_of p) (po_delivered p)
                                (negb (rendered_ok x) || po_failure p) (po_covers_output p) (po_borrowed p)) (ow_outputs o)) o
  | None => o
  end.

(** [_normalize_invocation_result] and [_finalize_invocation_result] on the result of a call. *)
Definition normalized (call : output_ref) (failure : bool) (o : owner) : owner :=
  match dget call (ow_outputs o) with
  | Some p =>
      match po_raw p with
      | Some x =>
          set_outputs (dset call (Pending (po_result p) (po_turn_id p) (po_raw p) true (po_recovery_of p) (po_delivered p)
            (match x with RawError => true | _ => false end || failure || po_failure p) (po_covers_output p) (po_borrowed p)) (ow_outputs o)) o
      | None => o
      end
  | None => o
  end.

(** The result of [watch], [extend] and [unwatch], with the new attributes of the session. *)
Definition watch_session (r : raw) (rearm : bool) (s : session) : session :=
  Session (ss_committed s) (ss_transient s) (truthy (default (JBool true) (dget "watching" r))) (raw_int "watch_generation" r)
    (Some (raw_status r)) (ss_observation_error s) (ss_output_offsets s) (ss_terminal_delivered s)
    (negb rearm && ss_failure_reported s) (ss_origin_turn s) (ss_input_lease s) (ss_last s).

(** [ShellCompletionSource.invalidate] *)
Definition invalidate (sid : Z) (r : raw) (o : owner) : owner :=
  match dget sid (ow_pending o) with
  | Some e =>
      if negb (truthy (default (JBool true) (dget "watching" r))) ||
         (raw_int "watch_generation" (ev_result e) <? raw_int "watch_generation" r) ||
         ((is_terminal r || bool_decide (raw_status r = "terminating")) && negb (is_terminal (ev_result e)))
      then clear_failure sid (set_pending (ddel sid (ow_pending o)) o) else o
  | None => o
  end.

Definition set_latest_status (r : raw) (s : session) : session :=
  Session (ss_committed s) (ss_transient s) (ss_watching s) (ss_watch_generation s) (Some (raw_status r)) (ss_observation_error s)
    (ss_output_offsets s) (ss_terminal_delivered s) (ss_failure_reported s) (ss_origin_turn s) (ss_input_lease s) (ss_last s).

(** [session_async], before it asks the shell. *)
Inductive session_route :=
| RefRejected                                                  (* invalid_output_ref *)
| RefReleased (ref : output_ref)                               (* the output is released explicitly *)
| StageRetained (ref : output_ref) (r : raw) (borrowed : bool) (* a retained output is exported again *)
| AskShell (borrowed : bool).

Definition route_session (ref : option output_ref) (action : string) (sid : Z) (transient : bool) (turn_id : string) (o : owner) : session_route :=
  let borrows p := transient && (po_borrowed p || bool_decide (po_turn_id p <> turn_id)) in
  match ref with
  | Some ref =>
      match dget ref (ow_outputs o) with
      | Some p => if negb (po_delivered p) || negb (po_failure p) then RefRejected
                  else if decide (action = "release") then RefReleased ref else StageRetained ref (po_result p) (borrows p)
      | None => RefRejected
      end
  | None =>
      let failed q := po_delivered q.2 && po_failure q.2 && (raw_sid (po_result q.2) =? sid) in
      match (if decide (action = "read") then List.find failed (ow_outputs o) else None) with
      | Some (ref, p) => StageRetained ref (po_result p) (borrows p)
      | None => AskShell (transient && bool_decide (Some turn_id <> (ss_origin_turn <$> dget sid (ow_sessions o))))
      end
  end.

(** ... and with the shell's answer; [resident] when a completion source is attached. *)
Definition session_reply (resident : bool) (call : output_ref) (turn_id action : string) (sid : Z) (borrowed : bool) (r : raw) (o : owner) : owner :=
  let o := if borrowed then o else update_session sid (set_latest_status r) (record r o) in
  let o := if resident && bool_decide (raw_status r = "terminating") then invalidate sid r o else o in
  if decide (action ∈ ["watch"; "extend"; "unwatch"]) then
    let o := update_session sid (watch_session r (bool_decide (action = "watch"))) o in
    let o := if resident then invalidate sid r o else o in
    set_outputs (dset call (Pending r turn_id (Some RawState) false None false false false false) (ow_outputs o)) o
  else if decide (raw_status r = "released") then forget_session (raw_sid r) o
  else stage_begin call turn_id r None borrowed o.

(** [shell_async], with the result of the command. *)
Definition shell_reply (call : string) (turn_id : string) (transient : bool) (r : raw) (o : owner) : owner :=
  let sid := raw_sid r in
  let o := if sid =? 0 then o else set_sessions (dset sid (new_session transient turn_id call) (ow_sessions o)) o in
  let o := if (sid =? 0) || is_terminal r then release_input_lease call o else o in
  stage_begin (OfCall call) turn_id r None false o.

(** The chain of borrowed readers that [commit] retires; the dictionary bounds its length. *)
Fixpoint retire_borrowed (fuel : nat) (turn_id : string) (ref : option output_ref) (o : owner) : owner :=
  match fuel with
  | O => o
  | S fuel =>
      match ref with
      | Some call =>
          match dget call (ow_outputs o) with
          | Some p => if po_borrowed p && bool_decide (po_turn_id p = turn_id)
                      then retire_borrowed fuel turn_id (po_recovery_of p) (set_outputs (ddel call (ow_outputs o)) o) else o
          | None => o
          end
      | None => o
      end
  end.

(** The recovery ancestry of a delivered live snapshot. *)
Fixpoint retire_ancestry (fuel : nat) (ref : option output_ref) (o : owner) : owner :=
  match fuel with
  | O => o
  | S fuel =>
      match ref with
      | Some call =>
          match dget call (ow_outputs o) with
          | Some p => retire_ancestry fuel (po_recovery_of p) (set_outputs (ddel call (ow_outputs o)) o)
          | None => o
          end
      | None => o
      end
  end.

Definition delivered_output (p : PendingOutput) : PendingOutput :=
  Pending (po_result p) (po_turn_id p) (po_raw p) (po_prepared p) (po_recovery_of p) true (po_failure p) (po_covers_output p) (po_borrowed p).

Definition set_committed (s : session) : session :=
  Session true (ss_transient s) (ss_watching s) (ss_watch_generation s) (ss_latest_status s) (ss_observation_error s)
    (ss_output_offsets s) (ss_terminal_delivered s) (ss_failure_reported s) (ss_origin_turn s) (ss_input_lease s) (ss_last s).

(** Older failures of the same output that were delivered. *)
Definition same_failure (call : output_ref) (p : PendingOutput) (q : output_ref * PendingOutput) : bool :=
  bool_decide (q.1 <> call) && po_delivered q.2 && po_failure q.2 &&
  bool_decide (raw_string "output_id" (po_result q.2) = raw_string "output_id" (po_result p)).

Definition commit_failure (call : output_ref) (p : PendingOutput) (o : owner) : owner :=
  let sid := raw_sid (po_result p) in
  let o := if dmem sid (ow_sessions o)
           then fail_session sid (update_session sid (set_failure_reported true) o) else o in
  let o := note_tool_state call (po_result p) (po_turn_id p) o in
  set_outputs (filter (fun q => same_failure call p q = false) (ow_outputs o)) o.

(** The whole output reached the model: the tail of [commit]. *)
Definition commit_success (token : nat) (call : output_ref) (p : PendingOutput) (o : owner) : owner :=
  let sid := raw_sid (po_result p) in
  let o := emit (match po_raw p with Some x => shown (output_of (po_result p)) x | None => [] end) o in
  let o := if dmem sid (ow_sessions o)
           then note_tool_delivery call (po_result p) (po_turn_id p)
                  (update_session sid (set_offsets (po_result p))
                     (clear_failure sid (update_session sid (set_failure_reported false) o)))
           else o in
  collect (if is_terminal (po_result p) then acknowledge_event (Event token sid (po_turn_id p) (po_result p)) o
           else retire_ancestry (S (length (ow_outputs o))) (Some call) o).

(** [commit], called once the result of the call is durable in the conversation. *)
Definition commit_output (token : nat) (call : output_ref) (o : owner) : owner :=
  match dget call (ow_outputs o) with
  | None => o
  | Some p =>
      if po_borrowed p then
        if negb (po_prepared p) && negb (po_failure p) then o
        else
          let o := set_outputs (dset call (delivered_output p) (ow_outputs o)) o in
          if po_failure p then o else retire_borrowed (S (length (ow_outputs o))) (po_turn_id p) (Some call) o
      else
        let o := update_session (raw_sid (po_result p)) set_committed o in
        if negb (po_prepared p) && negb (po_failure p) then collect o
        else
          let o := set_outputs (dset call (delivered_output p) (ow_outputs o)) o in
          if negb (po_covers_output p) then
            let o := note_tool_state call (po_result p) (po_turn_id p) o in set_outputs (ddel call (ow_outputs o)) o
          else if po_failure p then commit_failure call p o
          else commit_success token call p o
  end.

(** ** Delivery of events *)

(** [project] works on copies: the coverage of the turn, its messages, and the claimed events. *)
Record projection := Projection {
  pj_owner : owner;
  pj_coverage : dict event_id bool;
  pj_messages : list (event_id * list effect);
  pj_claimed : list event
}.

(** One candidate of [project]; [failing]: delivering the rendered result fails. *)
Definition project_session (turn_id : string) (failing : event_id -> bool) (pj : projection) (sid : Z) : projection :=
  let o := pj_owner pj in
  if negb (dmem sid (ow_latest o)) then pj
  else
    match claim_event sid turn_id o with
    | (o, None) => pj
    | (o, Some e) =>
        let claimed := pj_claimed pj ++ [e] in
        match dget (identity e) (pj_coverage pj) with
        | Some true => Projection (report_failure e o) (pj_coverage pj) (pj_messages pj) claimed
        | Some false => Projection (acknowledge_event e (commit_event e o)) (pj_coverage pj) (pj_messages pj) claimed
        | None =>
            let x := match dget (identity e) (ow_prepared o) with Some value => output_since value (offsets_of sid o) | None => RawError end in
            let error := negb (rendered_ok x) || failing (identity e) in
            Projection (set_outputs (dset (OfEvent (identity e)) (Pending (ev_result e) turn_id (Some x) false None false false true false)
                          (ow_outputs o)) o)
              (dset (identity e) error (pj_coverage pj))
              (pj_messages pj ++ [(identity e, if error then [] else shown (SessionOutput sid) x)]) claimed
        end
    end.

(** What happens to the projection once it is complete. *)
Inductive handoff := AppendFails | CleanupFails | HandedOff.

Definition release_claims (l : list event) (o : owner) : owner := foldl (fun o e => release_claim (ev_session_id e) e o) o l.

(** The last loop of [project]. *)
Definition settle_event (coverage : dict event_id bool) (o : owner) (e : event) : owner :=
  match dget (identity e) coverage with
  | None => o
  | Some true => report_failure e o
  | Some false =>
      let o := commit_event e o in
      acknowledge_event e (set_outputs (ddel (OfEvent (identity e)) (ow_outputs o)) o)
  end.

(** The coverage of a turn, and the coverage after an append. *)
Definition turn_coverage (t : turn) (o : owner) : dict event_id bool :=
  (fun p => (p.1.2, p.2)) <$> filter (fun p => p.1.1 = t) (ow_memory o).
Definition append_coverage (t : turn) (coverage : dict event_id bool) (o : owner) : owner :=
  set_memory (foldl (fun m p => dset (t, p.1) p.2 m) (ow_memory o) coverage) o.

(** [project], for events; messages that only restate the state of a session carry no
    output and are left out.  [active]: the turn is active and has no call under way;
    [visible]: the binding of the session is the one of the turn. *)
Definition project (turn_id : string) (active : bool) (visible : Z -> bool) (failing : event_id -> bool) (h : handoff) (o : owner) : owner :=
  let o := collect o in
  let candidates := filter (fun p => (ss_committed p.2 && ss_watching p.2 && negb (ss_transient p.2) && visible p.1) = true) (ow_sessions o) in
  if negb active then o
  else
    let pj := foldl (project_session turn_id failing) (Projection o (turn_coverage (Turn turn_id) o) [] []) (dkeys candidates) in
    match h with
    | AppendFails => release_claims (pj_claimed pj) (pj_owner pj)
    | CleanupFails =>
        release_claims (pj_claimed pj) (append_coverage (Turn turn_id) (pj_coverage pj) (emit (pj_messages pj ≫= snd) (pj_owner pj)))
    | HandedOff =>
        foldl (settle_event (pj_coverage pj))
          (append_coverage (Turn turn_id) (pj_coverage pj) (emit (pj_messages pj ≫= snd) (pj_owner pj))) (pj_claimed pj)
    end.

(** The uncommitted branch of [ShellCompletionSource._run], once nothing superseded the
    event; the result says whether the model's turn runs. *)
Definition open_event_turn (sid : Z) (e : event) (value : loaded) (s : session) (failing : bool) (h : handoff) (o : owner) : owner * bool :=
  let x := output_since value (ss_output_offsets s) in
  let error := negb (rendered_ok x) || failing in
  let durable := append_coverage (EventTurn (identity e)) [(identity e, error)] (emit (if error then [] else shown (SessionOutput sid) x) o) in
  match h with
  | AppendFails => (fail_session sid o, false)
  | CleanupFails => (fail_session sid durable, false)
  | HandedOff => (if error then report_failure e durable else acknowledge_event e (commit_event e durable), true)
  end.

(** [_run] up to the model's turn.  The claim is released at once when no turn runs, else in [run_ended]. *)
Definition run_event (sid : Z) (failing : bool) (h : handoff) (o : owner) : owner * option event :=
  match dget sid (ow_claims o) with
  | None => (collect o, None)
  | Some (_, e) =>
      let finally o := (collect (release_claim sid e o), None) in
      let current := match dget sid (ow_pending o) with Some p => is_event p e | None => false end in
      if negb current then finally o
      else
        match dget sid (ow_sessions o) with
        | None => finally (fail_session sid o)
        | Some s =>
            match dget (EventTurn (identity e), identity e) (ow_memory o) with
            | Some true => finally (report_failure e o)
            | Some false => finally (acknowledge_event e (commit_event e o))
            | None =>
                match dget (identity e) (ow_prepared o) with
                | None => finally o
                | Some value =>
                    let newer := match dget sid (ow_completions o) with
                                 | Some latest => if raw_sequence (ev_result e) <? raw_sequence (ev_result latest) then Some latest else None
                                 | None => None
                                 end in
                    match newer with
                    | Some latest => finally (set_pending (dset sid latest (ow_pending o)) o)
                    | None =>
                        if negb (observation_is_current (ev_result e) s) then finally o
                        else match open_event_turn sid e value s failing h o with
                             | (o, true) => (o, Some e)
                             | (o, false) => finally o
                             end
                    end
                end
            end
        end
  end.

(** The [finally] clause after the model's turn, which may have failed. *)
Definition run_ended (e : event) (failed : bool) (o : owner) : owner :=
  collect (release_claim (ev_session_id e) e (if failed then fail_session (ev_session_id e) o else o)).

(** ** Idleness *)

(** [has_work], without the remote files and the shell's own work. *)
Definition observed_work (o : owner) : bool :=
  existsb (fun s => ss_watching s || negb (match ss_latest_status s with Some status => terminal status | None => false end)) (dvals (ow_sessions o))
  || negb (bool_decide (dkeys (ow_outputs o) = [])).

(** [completion_blocked], without the foreground of the local shell. *)
Definition completion_blocked (o : owner) : bool :=
  existsb (fun s => negb (ss_terminal_delivered s) && negb (ss_failure_reported s) && ss_watching s) (dvals (ow_sessions o)) ||
  existsb (fun p => negb (po_delivered p)) (dvals (ow_outputs o)).
