(* ===== verification/ObservationSafety.v ===== *)
(** * Theorems of the delivery of outputs and events

    Along every interleaving of commands, events, reads, tool results, model turns and
    acknowledgements: the host asks for the release of an output only after the model was
    given all of it, and an event that was delivered is never delivered again. *)

From S2P Require Import Prelude Dict Utf8 PyValue LifecycleTable Lifecycle Observations.
Open Scope Z_scope.

Section delivery.
(** The bytes that the command of an output has written in the end. *)
Context (data : output_key -> stream -> bytes).

(** ** What the model was given *)

(** Every byte below [n] is in a message, at its place. *)
Definition covers (log : list effect) (key : output_key) (st : stream) (n : Z) : Prop :=
  forall i : nat, Z.of_nat i < n ->
    exists offset content x, Shown key st (Z.of_nat offset) content ∈ log /\ (offset <= i)%nat /\
      content !! (i - offset)%nat = Some x /\ data key st !! i = Some x.

Definition covers_all (log : list effect) (key : output_key) (ns : Z * Z) : Prop := forall st, covers log key st (pick st ns).

Lemma covers_mono log log' key st n : log ⊆ log' -> covers log key st n -> covers log' key st n.
Proof. intros H Hc i Hi. destruct (Hc i Hi) as (off & b & x & H1 & H2). exists off, b, x. split; [by apply H|done]. Qed.

Lemma covers_max log key st n m : covers log key st n -> covers log key st m -> covers log key st (Z.max n m).
Proof. intros H1 H2 i Hi. destruct (Z.le_gt_cases n m); [apply H2|apply H1]; lia. Qed.

(** The totals of an observation count bytes that were written. *)
Definition raw_ok (r : raw) : Prop := forall st, 0 <= total st r <= Z.of_nat (length (data (output_of r) st)).

(** [content] is what the output of an observation holds from [offsets] on. *)
Definition content_ok (r : raw) (offsets : Z * Z) (content : bytes * bytes) : Prop :=
  forall st, 0 <= pick st offsets /\
    pick st content = drop (Z.to_nat (pick st offsets)) (take (Z.to_nat (total st r)) (data (output_of r) st)).

Definition fits (log : list effect) (r : raw) (x : rendered) : Prop :=
  match x with RawOutput offsets content => content_ok r offsets content /\ covers_all log (output_of r) offsets | _ => True end.

Definition loaded_ok (log : list effect) (r : raw) (v : loaded) : Prop :=
  match v with
  | LoadedAll content => content_ok r (0, 0) content
  | LoadedSnapshot offsets content => content_ok r offsets content /\ covers_all log (output_of r) offsets
  | LoadError => True
  end.

Lemma fits_mono log log' r x : log ⊆ log' -> fits log r x -> fits log' r x.
Proof. intros H. destruct x; [|done..]. intros [H1 H2]. split; [done|]. intros st. by eapply covers_mono. Qed.

Lemma loaded_ok_mono log log' r v : log ⊆ log' -> loaded_ok log r v -> loaded_ok log' r v.
Proof. intros H. destruct v; [done| |done]. intros [H1 H2]. split; [done|]. intros st. by eapply covers_mono. Qed.

Lemma drop_streams_ok r offsets content :
  content_ok r (0, 0) content -> (forall st, 0 <= pick st offsets) -> content_ok r offsets (drop_streams offsets content).
Proof.
  intros Hc Ho st. split; [apply Ho|]. destruct (Hc st) as [_ E]. destruct st; cbn [pick fst snd drop_streams] in *; by rewrite E.
Qed.

Lemma output_since_fits log r v offsets :
  loaded_ok log r v -> covers_all log (output_of r) offsets -> (forall st, 0 <= pick st offsets) -> fits log r (output_since v offsets).
Proof. intros Hv Hc Ho. destruct v; [|done..]. split; [by apply drop_streams_ok|done]. Qed.

(** A message with the rest of the output completes it. *)
Lemma shown_covers log r x :
  raw_ok r -> fits log r x -> rendered_ok x = true -> covers_all (shown (output_of r) x ++ log) (output_of r) (totals r).
Proof.
  intros Hr Hf Hx. destruct x as [offsets content| |]; [|done..]. destruct Hf as [Hc Hl]. intros st.
  assert (Hlog : log ⊆ shown (output_of r) (RawOutput offsets content) ++ log) by set_solver.
  destruct (Hc st) as [Ho E]. destruct (Hr st) as [Hr1 Hr2].
  assert (Hin : Shown (output_of r) st (pick st offsets) (pick st content) ∈ shown (output_of r) (RawOutput offsets content) ++ log).
  { destruct st; cbn [shown pick fst snd]; set_solver. }
  assert (Ht : pick st (totals r) = total st r) by (by destruct st). rewrite Ht. intros i Hi.
  destruct (Z.lt_ge_cases (Z.of_nat i) (pick st offsets)) as [Hlt|Hge]; [by apply (covers_mono _ _ _ _ _ Hlog (Hl st))|].
  assert (Hx2 : is_Some (data (output_of r) st !! i)) by (apply lookup_lt_is_Some; lia). destruct Hx2 as [x Hx2].
  exists (Z.to_nat (pick st offsets)), (pick st content), x. rewrite Z2Nat.id by lia. split_and!; [done|lia| |done].
  rewrite E, lookup_drop, lookup_take_lt by lia. by replace (Z.to_nat (pick st offsets) + (i - Z.to_nat (pick st offsets)))%nat with i by lia.
Qed.

(** ** What a read returns *)

Definition source_ok (r : raw) (src : source) : Prop :=
  (forall content, so_inline src = Some content -> content_ok r (0, 0) content) /\
  (forall files, so_files src = Some files -> forall st, pick st files `prefix_of` data (output_of r) st) /\
  (so_inline src = None -> so_files src = None -> forall st, total st r = 0).

Lemma read_exact_ok size file d content :
  0 <= size -> file `prefix_of` d -> read_exact size file = Some content -> content = take (Z.to_nat size) d.
Proof.
  intros Hs [rest ->]. unfold read_exact. destruct (_ =? _) eqn:E; [|done]. intros [= <-]. apply Z.eqb_eq in E.
  rewrite length_take in E. by rewrite take_app_le by lia.
Qed.

Lemma read_files_ok r files content :
  raw_ok r -> (forall st, pick st files `prefix_of` data (output_of r) st) -> read_files files r = Some content -> content_ok r (0, 0) content.
Proof.
  intros Hr Hf. unfold read_files. destruct (read_exact (total Stdout r) files.1) as [out|] eqn:E1; [|done].
  destruct (read_exact (total Stderr r) files.2) as [err|] eqn:E2; [|done]. intros [= <-] st. split; [by destruct st|].
  destruct st; cbn [pick fst snd]; change (drop (Z.to_nat 0) ?l) with l; eapply read_exact_ok; [apply Hr| |done| |apply (Hf Stderr)|done]; try apply Hr; apply (Hf Stdout).
Qed.

Lemma load_output_ok log r src : raw_ok r -> source_ok r src -> loaded_ok log r (load_output src r).
Proof.
  intros Hr (H1 & H2 & H3). unfold load_output. destruct (so_inline src) as [c|]; [by apply H1|]. destruct (so_files src) as [f|].
  - destruct (read_files f r) as [c|] eqn:E; [|done]. eapply read_files_ok; [done| |done]. by apply H2.
  - intros st. split; [by destruct st|]. rewrite (H3 eq_refl eq_refl st). by destruct st.
Qed.

Lemma materialize_ok log limit offsets src r :
  raw_ok r -> source_ok r src -> covers_all log (output_of r) offsets -> (forall st, 0 <= pick st offsets) ->
  loaded_ok log r (materialize_delivery limit offsets src r).
Proof.
  intros Hr Hs Hc Ho. unfold materialize_delivery. case_match; [|by apply load_output_ok].
  destruct (so_files src) as [f|] eqn:Ef; [|by apply load_output_ok]. destruct (read_files f r) as [c|] eqn:E; [|done].
  split; [|done]. apply drop_streams_ok; [|done]. eapply read_files_ok; [done| |done]. by apply Hs.
Qed.

(** ** Runs *)

Record osystem := OSys {
  os_owner : owner;
  os_published : list event;           (* history: the completions the shell has shown *)
  os_registered : list Z               (* history: the sessions that were ever tracked *)
}.

(** An event of the shell belongs to a session, and one identity has one result. *)
Definition publishes (e : event) (published : list event) : Prop :=
  raw_ok (ev_result e) /\ raw_sid (ev_result e) = ev_session_id e /\ ev_session_id e <> 0 /\
  forall e', e' ∈ published -> identity e' = identity e -> ev_result e' = ev_result e.

Inductive owner_step : osystem -> osystem -> Prop :=
| op_register o l g sid transient turn_id lease :
    sid ∉ g -> owner_step (OSys o l g) (OSys (set_sessions (dset sid (new_session transient turn_id lease) (ow_sessions o)) o) l (sid :: g))
| op_publish o l g e :
    publishes e l -> owner_step (OSys o l g) (OSys (set_completions (dset (ev_session_id e) e (ow_completions o)) o) (e :: l) g)
| op_unpublish o l g sid : owner_step (OSys o l g) (OSys (set_completions (ddel sid (ow_completions o)) o) l g)
| op_collect o l g : owner_step (OSys o l g) (OSys (collect o) l g)
| op_record o l g r : owner_step (OSys o l g) (OSys (record r o) l g)
| op_refreshed o l g r : owner_step (OSys o l g) (OSys (refreshed r o) l g)
| op_refresh_failed o l g sid report : owner_step (OSys o l g) (OSys (refresh_failed sid report o) l g)
| op_loaded o l g e offsets limit src :
    dget (ev_session_id e) (ow_preparing o) = Some (e, offsets) -> source_ok (ev_result e) src ->
    owner_step (OSys o l g) (OSys (load_done e (materialize_delivery limit offsets src (ev_result e)) o) l g)
| op_load_failed o l g e offsets : dget (ev_session_id e) (ow_preparing o) = Some (e, offsets) -> owner_step (OSys o l g) (OSys (load_done e LoadError o) l g)
| op_load_cancelled o l g e : owner_step (OSys o l g) (OSys (load_cancelled e o) l g)
| op_claim o l g sid claimant : owner_step (OSys o l g) (OSys (claim_event sid claimant o).1 l g)
| op_release o l g sid e : owner_step (OSys o l g) (OSys (release_claim sid e o) l g)
| op_project o l g turn_id active visible failing h : owner_step (OSys o l g) (OSys (project turn_id active visible failing h o) l g)
| op_run o l g sid failing h : owner_step (OSys o l g) (OSys (run_event sid failing h o).1 l g)
| op_run_ended o l g e failed : owner_step (OSys o l g) (OSys (run_ended e failed o) l g)
| op_stage o l g call turn_id r recovery_of borrowed :
    raw_ok r -> owner_step (OSys o l g) (OSys (stage_begin call turn_id r recovery_of borrowed o) l g)
| op_staged o l g call p limit src :
    dget call (ow_outputs o) = Some p -> po_covers_output p = true -> source_ok (po_result p) src ->
    owner_step (OSys o l g) (OSys (stage_done call (materialize_delivery limit (0, 0) src (po_result p)) o) l g)
| op_stage_failed o l g call p :
    dget call (ow_outputs o) = Some p -> po_covers_output p = true -> owner_step (OSys o l g) (OSys (stage_done call LoadError o) l g)
| op_normalized o l g call failure : owner_step (OSys o l g) (OSys (normalized call failure o) l g)
| op_shell o l g call turn_id transient r :
    raw_ok r -> raw_sid r ∉ g -> owner_step (OSys o l g) (OSys (shell_reply call turn_id transient r o) l (raw_sid r :: g))
| op_session o l g resident call turn_id action sid borrowed r :
    raw_ok r -> owner_step (OSys o l g) (OSys (session_reply resident call turn_id action sid borrowed r o) l g)
| op_commit o l g token call : owner_step (OSys o l g) (OSys (commit_output token call o) l g)
| op_ack_done o l g e : owner_step (OSys o l g) (OSys (ack_done e o) l g)
| op_forget o l g sid : owner_step (OSys o l g) (OSys (forget_session sid o) l g)
| op_drop o l g call : owner_step (OSys o l g) (OSys (set_outputs (ddel call (ow_outputs o)) o) l g).

(** ** The invariant *)

Definition output_ok (log : list effect) (p : PendingOutput) : Prop :=
  raw_ok (po_result p) /\ (forall x, po_raw p = Some x -> fits log (po_result p) x) /\
  (po_prepared p = true -> po_failure p = false -> po_covers_output p = true ->
   exists offsets content, po_raw p = Some (RawOutput offsets content)) /\
  (po_covers_output p = false <-> po_raw p = Some RawState).

Definition offsets_ok (log : list effect) (sid : Z) (s : session) : Prop :=
  (sid <> 0 -> covers_all log (SessionOutput sid) (ss_output_offsets s)) /\ forall st, 0 <= pick st (ss_output_offsets s).

Definition of_session (l : list event) (sid : Z) (e : event) : Prop := e ∈ l /\ ev_session_id e = sid.

Definition preparing_ok (l : list event) (log : list effect) (sid : Z) (p : event * (Z * Z)) : Prop :=
  of_session l sid p.1 /\ covers_all log (SessionOutput sid) p.2 /\ forall st, 0 <= pick st p.2.

Record owner_ok (l : list event) (g : list Z) (o : owner) : Prop := {
  oo_events : forall e, e ∈ l -> raw_ok (ev_result e) /\ raw_sid (ev_result e) = ev_session_id e /\ ev_session_id e <> 0;
  oo_identity : forall e e', e ∈ l -> e' ∈ l -> identity e = identity e' -> ev_result e = ev_result e';
  oo_offsets : forall sid s, dget sid (ow_sessions o) = Some s -> offsets_ok (ow_log o) sid s;
  oo_prepared : forall e v, e ∈ l -> (identity e, v) ∈ ow_prepared o -> loaded_ok (ow_log o) (ev_result e) v;
  oo_prepared_ids : forall id v, (id, v) ∈ ow_prepared o -> id ∈ identity <$> l;
  oo_pending : forall sid e, (sid, e) ∈ ow_pending o -> of_session l sid e;
  oo_claims : forall sid c, (sid, c) ∈ ow_claims o -> of_session l sid c.2;
  oo_preparing : forall sid p, (sid, p) ∈ ow_preparing o -> preparing_ok l (ow_log o) sid p;
  oo_completions : forall sid e, (sid, e) ∈ ow_completions o -> of_session l sid e;
  oo_outputs : forall call p, (call, p) ∈ ow_outputs o -> output_ok (ow_log o) p;
  oo_memory : forall t e, e ∈ l -> (t, identity e, false) ∈ ow_memory o ->
    covers_all (ow_log o) (output_of (ev_result e)) (totals (ev_result e));
  oo_memory_ids : forall t id b, (t, id, b) ∈ ow_memory o -> id ∈ identity <$> l;
  oo_acked : forall r, Acknowledged r ∈ ow_log o -> covers_all (ow_log o) (output_of r) (totals r);
  oo_wf : dwf (ow_sessions o);
  oo_sessions : forall sid, is_Some (dget sid (ow_sessions o)) -> sid ∈ g;
  oo_latest : forall sid p, (sid, p) ∈ ow_latest o -> raw_sid (sn_raw p) = sid /\ sid ∈ g;
  oo_committed : forall key n, Committed key n ∈ ow_log o -> n <= covered key o \/ (key.2 ∈ g /\ dget key.2 (ow_sessions o) = None)
}.

(** One lemma per attribute: the others are as they were. *)
Section updates.
Context (l : list event) (g : list Z) (o : owner) (Hok : owner_ok l g o).

Lemma ok_set_sessions x :
  dwf x -> (forall sid s, dget sid x = Some s -> offsets_ok (ow_log o) sid s /\ is_Some (dget sid (ow_sessions o))) ->
  owner_ok l g (set_sessions x o).
Proof.
  intros Hx H. destruct Hok. split; cbn; try done.
  - intros sid s Hs. by apply H.
  - intros sid [s Hs]. by apply oo_sessions0, (H sid s).
  - intros key n Hk. destruct (oo_committed0 key n Hk) as [?|[? Hn]]; [by left|]. right. split; [done|].
    destruct (dget key.2 x) as [s|] eqn:E; [|done]. destruct (H _ _ E) as [_ [? ?]]. congruence.
Qed.

Lemma ok_set_outputs x : (forall call p, (call, p) ∈ x -> output_ok (ow_log o) p) -> owner_ok l g (set_outputs x o).
Proof. intros H. destruct Hok. by split. Qed.
Lemma ok_set_leases x : owner_ok l g (set_leases x o).
Proof. destruct Hok. by split. Qed.
Lemma ok_set_failures x : owner_ok l g (set_failures x o).
Proof. destruct Hok. by split. Qed.
Lemma ok_set_acking x : owner_ok l g (set_acking x o).
Proof. destruct Hok. by split. Qed.
Lemma ok_set_latest x : (forall sid p, (sid, p) ∈ x -> raw_sid (sn_raw p) = sid /\ sid ∈ g) -> owner_ok l g (set_latest x o).
Proof. intros H. destruct Hok. by split. Qed.
Lemma ok_set_pending x : (forall sid e, (sid, e) ∈ x -> of_session l sid e) -> owner_ok l g (set_pending x o).
Proof. intros H. destruct Hok. by split. Qed.
Lemma ok_set_claims x : (forall sid c, (sid, c) ∈ x -> of_session l sid c.2) -> owner_ok l g (set_claims x o).
Proof. intros H. destruct Hok. by split. Qed.
Lemma ok_set_preparing x : (forall sid p, (sid, p) ∈ x -> preparing_ok l (ow_log o) sid p) -> owner_ok l g (set_preparing x o).
Proof. intros H. destruct Hok. by split. Qed.
Lemma ok_set_completions x : (forall sid e, (sid, e) ∈ x -> of_session l sid e) -> owner_ok l g (set_completions x o).
Proof. intros H. destruct Hok. by split. Qed.
Lemma ok_set_prepared x :
  (forall e v, e ∈ l -> (identity e, v) ∈ x -> loaded_ok (ow_log o) (ev_result e) v) ->
  (forall id v, (id, v) ∈ x -> id ∈ identity <$> l) -> owner_ok l g (set_prepared x o).
Proof. intros H H'. destruct Hok. by split. Qed.
Lemma ok_set_memory x :
  (forall t e, e ∈ l -> (t, identity e, false) ∈ x -> covers_all (ow_log o) (output_of (ev_result e)) (totals (ev_result e))) ->
  (forall t id b, (t, id, b) ∈ x -> id ∈ identity <$> l) -> owner_ok l g (set_memory x o).
Proof. intros H H'. destruct Hok. by split. Qed.

(** Effects only add to what is covered. *)
Lemma ok_emit effects :
  (forall r, Acknowledged r ∈ effects -> covers_all (effects ++ ow_log o) (output_of r) (totals r)) ->
  (forall key n, Committed key n ∈ effects -> n <= covered key o) -> owner_ok l g (emit effects o).
Proof.
  intros Ha Hc. assert (Hlog : ow_log o ⊆ effects ++ ow_log o) by set_solver.
  assert (Hall : forall key ns, covers_all (ow_log o) key ns -> covers_all (effects ++ ow_log o) key ns) by (intros key ns H st; by eapply covers_mono).
  destruct Hok. split; cbn; try done.
  - intros sid s Hs. destruct (oo_offsets0 sid s Hs) as [H1 H2]. split; [|done]. intros Hn. by apply Hall, H1.
  - intros e v He Hv. eapply loaded_ok_mono; [done|]. by eapply oo_prepared0.
  - intros sid p Hp. destruct (oo_preparing0 sid p Hp) as (H1 & H2 & H3). split_and!; [done|by apply Hall|done].
  - intros call p Hp. destruct (oo_outputs0 call p Hp) as (H1 & H2 & H3). split_and!; [done| |apply H3|apply H3]. intros x Hx. eapply fits_mono; [done|]. by apply H2.
  - intros t e He Hm. apply Hall. by eapply oo_memory0.
  - intros r [Hr|Hr]%elem_of_app; [by apply Ha|by apply Hall, oo_acked0].
  - intros key n [Hk|Hk]%elem_of_app; [left; by apply Hc|by apply oo_committed0].
Qed.
End updates.
(** ** Every operation keeps the invariant *)

(** Dictionaries after an update or a removal. *)
Lemma elem_dset_inv {K V} `{EqDecision K} (P : K -> V -> Prop) k v (d : dict K V) :
  P k v -> (forall k v, (k, v) ∈ d -> P k v) -> forall k' v', (k', v') ∈ dset k v d -> P k' v'.
Proof. intros Hv Hd k' v' [H|H]%elem_dset; [by injection H as -> ->|by apply Hd]. Qed.

Lemma elem_ddel_inv {K V} `{EqDecision K} (P : K -> V -> Prop) k (d : dict K V) :
  (forall k v, (k, v) ∈ d -> P k v) -> forall k' v', (k', v') ∈ ddel k d -> P k' v'.
Proof. intros Hd k' v' [_ H]%list_elem_of_filter. by apply Hd. Qed.

Lemma elem_filter_inv {K V} (Q : K * V -> Prop) `{forall p, Decision (Q p)} (P : K -> V -> Prop) (d : dict K V) :
  (forall k v, (k, v) ∈ d -> P k v) -> forall k v, (k, v) ∈ filter Q d -> P k v.
Proof. intros Hd k v [_ H2]%list_elem_of_filter. by apply Hd. Qed.

(** Names the value of the outermost [let] of an operation. *)
Ltac name_let x :=
  match goal with |- ?P (let y := ?v in @?b y) => set (x := v); change (P (b x)); cbv beta end.

Section operations.
Context (l : list event) (g : list Z).
Local Abbreviation ok := (owner_ok l g).

Lemma ok_update_session sid f o :
  (forall s, ss_output_offsets (f s) = ss_output_offsets s) -> ok o -> ok (update_session sid f o).
Proof.
  intros Hf Hok. unfold update_session. destruct (dget sid (ow_sessions o)) as [s|] eqn:E; [|done]. apply ok_set_sessions; [done|apply dwf_dset, Hok|].
  intros k v. rewrite dget_dset. case_decide as Ek; [intros [= <-]; subst k|intros Hv; split; [by eapply oo_offsets|by eexists]].
  split; [|by eexists]. pose proof (oo_offsets _ _ _ Hok sid s E) as H. unfold offsets_ok in *. by rewrite Hf.
Qed.

Lemma ok_release_inputs sid o : ok o -> ok (release_session_inputs sid o).
Proof. intros H. unfold release_session_inputs. case_match; [by apply ok_set_leases|done]. Qed.

Lemma ok_record r o : ok o -> ok (record r o).
Proof.
  intros Hok. cbv beta delta [record]. name_let sid. name_let previous. destruct (_ || _) eqn:E; [done|]. apply orb_false_iff in E as [E _]. apply orb_false_iff in E as [_ E].
  apply negb_false_iff, dmem_true in E as [s Es].
  name_let o1. assert (H1 : ok o1).
  { subst o1 sid. apply ok_set_latest; [done|]. apply (elem_dset_inv (fun k p => raw_sid (sn_raw p) = k /\ k ∈ g)); [|apply Hok].
    split; [done|]. apply (oo_sessions _ _ _ Hok). by eexists. }
  name_let o2. assert (H2 : ok o2) by (by apply ok_update_session).
  destruct (is_terminal r); [by apply ok_release_inputs|done].
Qed.

Lemma ok_clear_failure sid o : ok o -> ok (clear_failure sid o).
Proof. intros H. by apply ok_set_failures. Qed.
Lemma ok_fail_session sid o : ok o -> ok (fail_session sid o).
Proof. intros H. by apply ok_set_failures. Qed.

Lemma ok_offsets sid o : sid <> 0 -> ok o -> covers_all (ow_log o) (SessionOutput sid) (offsets_of sid o) /\ forall st, 0 <= pick st (offsets_of sid o).
Proof.
  intros Hs H. unfold offsets_of. destruct (dget sid (ow_sessions o)) as [s|] eqn:E.
  { destruct (oo_offsets _ _ _ H sid s E) as [H1 H2]. split; [by apply H1|done]. }
  split; [|by intros []]. intros st i Hi. destruct st; simpl in Hi; lia.
Qed.

Lemma ok_prepare sid e o : of_session l sid e -> ok o -> ok (prepare e o).
Proof.
  intros [He Hs] H. unfold prepare. destruct (_ || _); [done|]. apply ok_set_preparing; [done|].
  apply (elem_dset_inv (preparing_ok l (ow_log o))); [|apply H]. split; [done|].
  apply ok_offsets; [|done]. subst sid. by apply (oo_events _ _ _ H).
Qed.

Lemma ok_collect_event o sid e : of_session l sid e -> ok o -> ok (collect_event o e).
Proof.
  intros [He Hs] Hok. cbv beta delta [collect_event]. name_let sid'. name_let o1.
  assert (H1 : ok o1) by (subst o1; case_match; [done|by apply ok_record]). clearbody o1.
  destruct (dget _ (ow_sessions o1)) as [s|]; [|done]. destruct (negb _); [done|].
  name_let newer. name_let o2. assert (H2 : ok o2).
  { subst o2. case_match; [|done]. apply ok_update_session, ok_clear_failure, ok_set_pending; [done..|].
    apply (elem_dset_inv (of_session l)); [by split|apply H1]. }
  clearbody o2. destruct (eligible _ _ _ o2); [|done]. destruct (dget _ (ow_pending o2)) as [e'|] eqn:E; [|done].
  eapply ok_prepare; [by apply (oo_pending _ _ _ H2 _ _ (dget_elem _ _ _ E))|done].
Qed.

Lemma ok_collect o : ok o -> ok (collect o).
Proof.
  intros H. unfold collect. destruct (ow_closed o); [done|].
  set (o1 := foldl collect_event o _). assert (H1 : ok o1).
  { subst o1. apply foldl_inv; [done|]. intros o' e He Ho'. apply elem_dvals in He as [sid He].
    eapply ok_collect_event; [by apply (oo_completions _ _ _ H _ _ He)|done]. }
  clearbody o1. set (o2 := drop_ineligible o1). assert (H2 : ok o2).
  { apply ok_set_pending; [done|]. eapply elem_filter_inv. apply H1. }
  clearbody o2. apply ok_set_prepared; [done|..].
  - intros e v He Hv. apply list_elem_of_filter in Hv as [_ Hv]. by eapply oo_prepared.
  - eapply (elem_filter_inv _ (fun id _ => id ∈ identity <$> l)), H2.
Qed.

Lemma ok_load_cancelled e o : ok o -> ok (load_cancelled e o).
Proof. intros H. apply ok_set_preparing; [done|]. eapply elem_ddel_inv, H. Qed.

(** A value that is right for every event of its identity. *)
Lemma ok_store_prepared e v o :
  e ∈ l -> loaded_ok (ow_log o) (ev_result e) v -> ok o -> ok (set_prepared (dset (identity e) v (ow_prepared o)) o).
Proof.
  intros He Hv H. apply ok_set_prepared; [done|..].
  - intros e' v' He' [Hx|Hx]%elem_dset; [|by eapply oo_prepared]. apply pair_eq in Hx as [Hid ->]. by rewrite (oo_identity _ _ _ H e' e).
  - apply (elem_dset_inv (fun id _ => id ∈ identity <$> l)); [by apply list_elem_of_fmap_2|apply H].
Qed.

Lemma ok_load_done e v o :
  (forall p, dget (ev_session_id e) (ow_pending o) = Some p -> is_event p e = true -> e ∈ l /\ loaded_ok (ow_log o) (ev_result e) v) ->
  ok o -> ok (load_done e v o).
Proof.
  intros Hv H. unfold load_done. apply ok_collect. fold (load_cancelled e o). pose proof (ok_load_cancelled e o H) as H1.
  destruct (negb _ && _) eqn:E; [|done]. apply andb_true_iff in E as [_ E]. cbn in E.
  destruct (dget _ (ow_pending o)) as [p|] eqn:Ep; [|done]. destruct (Hv p eq_refl E). by apply ok_store_prepared.
Qed.

Lemma ok_refreshed r o : ok o -> ok (refreshed r o).
Proof. intros H. apply ok_collect. destruct r; [by apply ok_record|done]. Qed.

Lemma ok_refresh_failed sid report o : ok o -> ok (refresh_failed sid report o).
Proof.
  intros H. cbv beta delta [refresh_failed]. name_let o1. assert (H1 : ok o1) by (by apply ok_update_session). clearbody o1.
  apply ok_collect. repeat case_match; try done. by apply ok_record.
Qed.

Lemma ok_release_claim sid e o : ok o -> ok (release_claim sid e o).
Proof. intros H. unfold release_claim. repeat case_match; try done. apply ok_set_claims; [done|]. eapply elem_ddel_inv, H. Qed.

Lemma ok_drop_completion sid id o : ok o -> ok (drop_completion sid id o).
Proof. intros H. unfold drop_completion. repeat case_match; try done. apply ok_set_completions; [done|]. eapply elem_ddel_inv, H. Qed.

Lemma ok_unprepare id o : ok o -> ok (set_prepared (ddel id (ow_prepared o)) o).
Proof.
  intros H. apply ok_set_prepared; [done|..]; [intros e v He [_ Hv]%list_elem_of_filter; by eapply oo_prepared|].
  apply (elem_ddel_inv (fun id' _ => id' ∈ identity <$> l)), H.
Qed.

Lemma ok_unpend sid o : ok o -> ok (set_pending (ddel sid (ow_pending o)) o).
Proof. intros H. apply ok_set_pending; [done|]. eapply elem_ddel_inv, H. Qed.

Lemma ok_retire_event e o : ok o -> ok (retire_event e o).
Proof.
  intros H. unfold retire_event. apply ok_drop_completion, ok_release_claim, ok_unprepare. repeat case_match; try done. by apply ok_unpend.
Qed.

Lemma covered_cover key n key' o : covered key' (cover key n o) = if decide (key = key') then Z.max (covered key o) n else covered key' o.
Proof. unfold covered, cover. cbn. rewrite dget_dset. by case_decide. Qed.

Lemma ok_cover key n o : ok o -> ok (cover key n o).
Proof.
  intros H. set (o1 := set_covered (dset key (Z.max (covered key o) n) (ow_covered o)) o).
  assert (Hc : forall k, covered k o <= covered k o1).
  { intros k. pose proof (covered_cover key n k o) as E. change (covered k (cover key n o)) with (covered k o1) in E. rewrite E. case_decide; [subst; lia|lia]. }
  assert (H1 : ok o1).
  { destruct H. split; try done. intros k m Hk. destruct (oo_committed0 k m Hk) as [?|?]; [left|by right]. specialize (Hc k). lia. }
  apply (ok_emit l g o1 H1); [by intros r Hr%list_elem_of_singleton|]. intros k m Hk%list_elem_of_singleton. injection Hk as -> ->.
  pose proof (covered_cover key n key o) as E. change (covered key (cover key n o)) with (covered key o1) in E. rewrite E, decide_True by done. lia.
Qed.

(** An event or result whose output the model has moves the offsets of its session. *)
Lemma ok_update_offsets sid r f o :
  (forall s, ss_output_offsets (f s) = max_offsets r (ss_output_offsets s)) ->
  (sid <> 0 -> covers_all (ow_log o) (SessionOutput sid) (totals r)) -> ok o -> ok (update_session sid f o).
Proof.
  intros Hf Hc Hok. unfold update_session. destruct (dget sid (ow_sessions o)) as [s|] eqn:E; [|done]. apply ok_set_sessions; [done|apply dwf_dset, Hok|].
  intros k v. rewrite dget_dset. case_decide as Ek; [intros [= <-]; subst k|intros Hv; split; [by eapply oo_offsets|by eexists]].
  split; [|by eexists]. destruct (oo_offsets _ _ _ Hok sid s E) as [H1 H2]. split.
  - intros Hn st. rewrite Hf. specialize (H1 Hn st). specialize (Hc Hn st). destruct st; by apply covers_max.
  - intros st. rewrite Hf. specialize (H2 st). destruct st; cbn in *; lia.
Qed.

Lemma log_update_session sid f o : ow_log (update_session sid f o) = ow_log o.
Proof. unfold update_session. by case_match. Qed.

Lemma output_of_event e : e ∈ l -> forall o, ok o -> output_of (ev_result e) = SessionOutput (ev_session_id e).
Proof.
  intros He o H. destruct (oo_events _ _ _ H e He) as (_ & Hs & Hn). unfold output_of. rewrite Hs.
  destruct (Z.eqb_spec (ev_session_id e) 0); [done|done].
Qed.

Lemma ok_commit_event e o :
  e ∈ l -> covers_all (ow_log o) (output_of (ev_result e)) (totals (ev_result e)) -> ok o -> ok (commit_event e o).
Proof.
  intros He Hc H. unfold commit_event. apply ok_retire_event. eapply ok_update_offsets; [done| |by apply ok_cover].
  intros _. rewrite <- (output_of_event e He o H). intros st. eapply covers_mono; [|apply Hc]. cbn. set_solver.
Qed.

Lemma ok_note_tool_state call r turn_id o : ok o -> ok (note_tool_state call r turn_id o).
Proof. intros H. unfold note_tool_state. pose proof (ok_record r o H) as H1. repeat case_match; try done. by apply ok_update_session. Qed.

Lemma ok_note_tool_delivery call r turn_id o : ok o -> ok (note_tool_delivery call r turn_id o).
Proof.
  intros H. cbv beta delta [note_tool_delivery]. name_let o1. assert (H1 : ok o1) by (by apply ok_note_tool_state). clearbody o1.
  destruct (negb _); [done|]. name_let o2. name_let o3. assert (H3 : ok o3) by (by apply ok_update_session, ok_cover). clearbody o3.
  repeat case_match; try done. by apply ok_retire_event.
Qed.

Lemma ok_store_output call p o : output_ok (ow_log o) p -> ok o -> ok (set_outputs (dset call p (ow_outputs o)) o).
Proof. intros Hp H. apply ok_set_outputs; [done|]. apply (elem_dset_inv (fun _ => output_ok (ow_log o))); [done|apply H]. Qed.

Lemma ok_report_failure e o : e ∈ l -> ok o -> ok (report_failure e o).
Proof.
  intros He H. cbv beta delta [report_failure]. name_let sid. name_let o1. assert (H1 : ok o1) by (by apply ok_update_session, ok_fail_session). clearbody o1.
  name_let p. name_let o2. assert (H2 : ok o2).
  { apply ok_store_output; [|done]. assert (Hp : output_ok (ow_log o1) p).
    { subst p. destruct (dget (OfEvent (identity e)) (ow_outputs o1)) as [p|] eqn:E; [by eapply (oo_outputs _ _ _ H1), dget_elem|].
      split_and!; [by apply (oo_events _ _ _ H)|done..]. }
    destruct Hp as (Hp1 & Hp2 & _ & Hp4). split_and!; [done..|]. exact Hp4. }
  clearbody o2.
  name_let o3. assert (H3 : ok o3) by (by apply ok_release_claim). case_match; [by apply ok_retire_event|done].
Qed.

(** The frontier of a session goes only with the session itself. *)
Lemma ok_forget_observation sid o : dget sid (ow_sessions o) = None -> ok o -> ok (forget_observation sid o).
Proof.
  intros Hn H. cbv beta delta [forget_observation]. name_let o1. assert (H1 : ok o1).
  { subst o1. destruct (dget sid (ow_latest o)) as [p|] eqn:E; [|done].
    destruct (oo_latest _ _ _ H sid p (dget_elem _ _ _ E)) as [Hs Hg].
    assert (H0 : ok (set_latest (ddel sid (ow_latest o)) o)) by (apply ok_set_latest; [done|]; eapply elem_ddel_inv, H).
    destruct H0. split; try done. intros key n Hk. cbn in *. destruct (oo_committed0 key n Hk) as [Hc|?]; [|by right].
    destruct (decide (key_of (sn_raw p) = key)) as [<-|Hne].
    - right. cbn [key_of snd]. by rewrite Hs.
    - left. unfold covered in *. cbn in *. by rewrite dget_ddel, decide_False. }
  clearbody o1. name_let o2. assert (H2 : ok o2).
  { subst o2. destruct (dget sid (ow_pending o1)) as [e|]; [|done].
    by apply (ok_unprepare (identity e) (set_pending (ddel sid (ow_pending o1)) o1)), ok_unpend. }
  clearbody o2. apply ok_clear_failure, ok_set_claims; [done|]. eapply elem_ddel_inv, H2.
Qed.

Lemma forget_observation_sessions sid x o : set_sessions x (forget_observation sid o) = forget_observation sid (set_sessions x o).
Proof.
  unfold forget_observation. cbn [ow_latest set_sessions]. destruct (dget sid (ow_latest o)); cbn; by destruct (dget sid (ow_pending o)).
Qed.

Lemma sessions_forget_observation sid o : ow_sessions (forget_observation sid o) = ow_sessions o.
Proof. unfold forget_observation. by repeat case_match. Qed.

Lemma ok_filter_outputs (Q : output_ref * PendingOutput -> Prop) `{forall p, Decision (Q p)} o : ok o -> ok (set_outputs (filter Q (ow_outputs o)) o).
Proof. intros H0. apply ok_set_outputs; [done|]. eapply elem_filter_inv, H0. Qed.

Lemma ok_forget_session sid o : ok o -> ok (forget_session sid o).
Proof.
  intros H. unfold forget_session. destruct (sid =? 0); [done|]. apply ok_filter_outputs.
  rewrite forget_observation_sessions. pose proof (ok_release_inputs sid o H) as H1. set (o1 := release_session_inputs sid o) in *. clearbody o1.
  rewrite sessions_forget_observation. apply ok_forget_observation; [cbn; apply dget_ddel_eq|].
  apply ok_set_sessions; [done|apply dwf_ddel, H1|]. intros k v. rewrite dget_ddel. case_decide; [done|]. intros Hv. split; [by eapply oo_offsets|by eexists].
Qed.

Lemma ok_acknowledge e o : covers_all (ow_log o) (output_of (ev_result e)) (totals (ev_result e)) -> ok o -> ok (acknowledge_event e o).
Proof.
  intros Hc H. cbv beta delta [acknowledge_event]. name_let key. name_let previous. destruct (ow_closed o); [done|].
  match goal with |- context [if ?c then o else _] => destruct c; [done|] end.
  match goal with |- context [if ?c then o else _] => destruct c; [done|] end. apply ok_emit; [by apply ok_set_acking| |by intros k n Hk%list_elem_of_singleton].
  intros r Hr%list_elem_of_singleton st. injection Hr as ->. eapply covers_mono; [|apply Hc]. cbn. set_solver.
Qed.

Lemma ok_ack_done e o : ok o -> ok (ack_done e o).
Proof.
  intros H. cbv beta delta [ack_done]. name_let key. name_let o1. assert (H1 : ok o1).
  { subst o1. destruct (_ && _); [|done]. by apply ok_filter_outputs, ok_forget_session. }
  clearbody o1. repeat case_match; try done. by apply ok_set_acking.
Qed.

(** ** Tool results *)

Lemma ok_stage_begin call turn_id r recovery_of borrowed o : raw_ok r -> ok o -> ok (stage_begin call turn_id r recovery_of borrowed o).
Proof.
  intros Hr H. cbv beta delta [stage_begin]. name_let o1. assert (H1 : ok o1) by (subst o1; destruct borrowed; [done|by apply ok_record]). clearbody o1.
  name_let p. name_let o2. assert (H2 : ok o2) by (by apply ok_store_output). clearbody o2.
  case_match; [|done]. apply ok_store_output; [|done]. split_and!; [done|by intros x [= <-]|done|done].
Qed.

Lemma ok_stage_done call v o :
  (forall p, dget call (ow_outputs o) = Some p -> po_covers_output p = true /\ loaded_ok (ow_log o) (po_result p) v) ->
  ok o -> ok (stage_done call v o).
Proof.
  intros Hv H. unfold stage_done. destruct (dget call (ow_outputs o)) as [p|] eqn:E; [|done]. destruct (Hv p eq_refl) as [Hp Hl].
  destruct (oo_outputs _ _ _ H call p (dget_elem _ _ _ E)) as (H1 & H2 & H3 & H4). apply ok_store_output; [|done].
  split_and!; cbn; [done| | |].
  - intros x [= <-]. apply output_since_fits; [done| |by intros []]. intros st i Hi. destruct st; cbn in Hi; lia.
  - intros _ [Hr _]%orb_false_iff _. apply negb_false_iff in Hr. destruct (output_since v (0, 0)); [by do 2 eexists|done..].
  - rewrite Hp. split; [done|]. by destruct v.
Qed.

Lemma ok_normalized call failure o : ok o -> ok (normalized call failure o).
Proof.
  intros H. unfold normalized. destruct (dget call (ow_outputs o)) as [p|] eqn:E; [|done]. destruct (po_raw p) as [x|] eqn:Ex; [|done].
  destruct (oo_outputs _ _ _ H call p (dget_elem _ _ _ E)) as (H1 & H2 & H3 & H4). apply ok_store_output; [|done].
  split_and!; cbn; [done|by rewrite <- Ex| |by rewrite <- Ex].
  intros _ Hf Hc. apply orb_false_iff in Hf as [Hf _]. apply orb_false_iff in Hf as [Hf _]. destruct x as [offsets content| |]; [|done|].
  - by do 2 eexists.
  - destruct H4 as [_ H4]. by rewrite (H4 Ex) in Hc.
Qed.

Lemma ok_invalidate sid r o : ok o -> ok (invalidate sid r o).
Proof. intros H. unfold invalidate. repeat case_match; try done. by apply ok_clear_failure, ok_unpend. Qed.

Lemma ok_session_reply resident call turn_id action sid borrowed r o : raw_ok r -> ok o -> ok (session_reply resident call turn_id action sid borrowed r o).
Proof.
  intros Hr H. cbv beta delta [session_reply]. name_let o1. assert (H1 : ok o1) by (subst o1; destruct borrowed; [done|by apply ok_update_session, ok_record]).
  clearbody o1. name_let o2. assert (H2 : ok o2) by (subst o2; case_match; [by apply ok_invalidate|done]). clearbody o2. case_decide.
  - name_let o3. name_let o4. assert (H4 : ok o4) by (subst o4 o3; destruct resident; [apply ok_invalidate|]; by apply ok_update_session).
    apply ok_store_output; [|done]. split_and!; [done|by intros x [= <-]|done|done].
  - case_decide; [by apply ok_forget_session|by apply ok_stage_begin].
Qed.

Lemma ok_retire_borrowed fuel turn_id ref o : ok o -> ok (retire_borrowed fuel turn_id ref o).
Proof.
  revert ref o. induction fuel as [|fuel IH]; intros ref o H; [done|]. cbn. repeat case_match; try done. by apply IH, ok_filter_outputs.
Qed.

Lemma ok_retire_ancestry fuel ref o : ok o -> ok (retire_ancestry fuel ref o).
Proof. revert ref o. induction fuel as [|fuel IH]; intros ref o H; [done|]. cbn. repeat case_match; try done. by apply IH, ok_filter_outputs. Qed.

Lemma ok_delivered call p o : dget call (ow_outputs o) = Some p -> ok o -> ok (set_outputs (dset call (delivered_output p) (ow_outputs o)) o).
Proof. intros E H. apply ok_store_output; [|done]. exact (oo_outputs _ _ _ H call p (dget_elem _ _ _ E)). Qed.

Lemma ok_commit_failure call p o : ok o -> ok (commit_failure call p o).
Proof.
  intros H. cbv beta delta [commit_failure]. name_let sid. name_let o1. assert (H1 : ok o1).
  { subst o1. case_match; [|done]. by apply ok_fail_session, ok_update_session. }
  clearbody o1. name_let o2. assert (H2 : ok o2) by (by apply ok_note_tool_state). by apply ok_filter_outputs.
Qed.

Lemma emit_shown_ok key x o : ok o -> ok (emit (shown key x) o).
Proof.
  intros H. apply ok_emit; [done|..].
  - intros r Hr. destruct x; cbn in Hr; [|by apply elem_of_nil in Hr..]. rewrite !elem_of_cons, elem_of_nil in Hr. naive_solver.
  - intros k n Hk. destruct x; cbn in Hk; [|by apply elem_of_nil in Hk..]. rewrite !elem_of_cons, elem_of_nil in Hk. naive_solver.
Qed.

(** No method takes an effect back. *)
Lemma log_record r o : ow_log (record r o) = ow_log o.
Proof.
  unfold record. case_match; [done|]. case_match.
  - unfold release_session_inputs. by destruct (dget _ (ow_sessions (update_session _ _ _))); cbn; rewrite log_update_session.
  - by rewrite log_update_session.
Qed.

Lemma log_note_tool_state call r turn_id o : ow_log (note_tool_state call r turn_id o) = ow_log o.
Proof. unfold note_tool_state. repeat case_match; rewrite ?log_update_session; apply log_record. Qed.

Lemma log_release_claim sid e o : ow_log (release_claim sid e o) = ow_log o.
Proof. unfold release_claim. by repeat case_match. Qed.

Lemma log_retire_event e o : ow_log (retire_event e o) = ow_log o.
Proof.
  unfold retire_event, drop_completion. set (o1 := release_claim _ _ _). assert (E : ow_log o1 = ow_log o).
  { subst o1. rewrite log_release_claim. cbn. by repeat case_match. }
  by repeat case_match.
Qed.

Lemma log_note_tool_delivery call r turn_id o : ow_log o ⊆ ow_log (note_tool_delivery call r turn_id o).
Proof.
  unfold note_tool_delivery. set (o1 := note_tool_state _ _ _ _). assert (E : ow_log o1 = ow_log o) by apply log_note_tool_state.
  destruct (negb _); [by rewrite E|]. repeat case_match; rewrite ?log_retire_event, log_update_session; cbn; rewrite E; set_solver.
Qed.

Lemma log_commit_event e o : ow_log o ⊆ ow_log (commit_event e o).
Proof. unfold commit_event. rewrite log_retire_event, log_update_session. cbn. set_solver. Qed.

Lemma ok_commit_success token call p o :
  output_ok (ow_log o) p -> po_prepared p = true -> po_failure p = false -> po_covers_output p = true -> ok o -> ok (commit_success token call p o).
Proof.
  intros (Hr & Hx & Hp & _) H1 H2 H3 H. destruct (Hp H1 H2 H3) as (offsets & content & E).
  cbv beta delta [commit_success]. name_let sid. rewrite E. name_let o1.
  assert (Ho1 : ok o1) by (by apply emit_shown_ok).
  assert (Hc : covers_all (ow_log o1) (output_of (po_result p)) (totals (po_result p))).
  { apply (shown_covers (ow_log o) (po_result p) (RawOutput offsets content)); [done|by apply Hx|done]. }
  clearbody o1. name_let o2. assert (Ho2 : ok o2 /\ ow_log o1 ⊆ ow_log o2).
  { subst o2. case_match; [|done]. split.
    - apply ok_note_tool_delivery. eapply ok_update_offsets; [done| |by apply ok_clear_failure, ok_update_session].
      intros Hn. cbn. rewrite log_update_session. intros st. specialize (Hc st). unfold output_of in Hc. subst sid.
      destruct (Z.eqb_spec (raw_sid (po_result p)) 0); done.
    - etransitivity; [|apply log_note_tool_delivery]. rewrite log_update_session. cbn. by rewrite log_update_session. }
  destruct Ho2 as [Ho2 Hlog]. clearbody o2. apply ok_collect. case_match; [|by apply ok_retire_ancestry].
  apply ok_acknowledge; [|done]. intros st. by eapply covers_mono.
Qed.

Lemma ok_commit_output token call o : ok o -> ok (commit_output token call o).
Proof.
  intros H. unfold commit_output. destruct (dget call (ow_outputs o)) as [p|] eqn:E; [|done].
  pose proof (oo_outputs _ _ _ H call p (dget_elem _ _ _ E)) as Hp. destruct (po_borrowed p).
  { destruct (_ && _); [done|]. pose proof (ok_delivered call p o E H) as H1. destruct (po_failure p); [done|]. by apply ok_retire_borrowed. }
  set (o1 := update_session _ _ o). assert (H1 : ok o1) by (by apply ok_update_session).
  assert (E1 : ow_outputs o1 = ow_outputs o) by (unfold o1, update_session; by case_match).
  assert (El : ow_log o1 = ow_log o) by (apply log_update_session). clearbody o1.
  destruct (negb (po_prepared p) && _) eqn:Eb; [by apply ok_collect|].
  assert (H2 : ok (set_outputs (dset call (delivered_output p) (ow_outputs o1)) o1)) by (apply ok_delivered; [by rewrite E1|done]).
  destruct (po_covers_output p) eqn:Ec; cbn [negb].
  - destruct (po_failure p) eqn:Ef; [by apply ok_commit_failure|]. apply ok_commit_success; [|..|done]; [by cbn; rewrite El|by destruct (po_prepared p)|done..].
  - apply ok_filter_outputs. by apply ok_note_tool_state.
Qed.

(** ** Events *)

Lemma claim_event_spec sid claimant o o' e :
  claim_event sid claimant o = (o', Some e) ->
  dget sid (ow_pending o) = Some e /\ eligible sid true false o = true /\ o' = set_claims (dset sid (claimant, e) (ow_claims o)) o.
Proof.
  unfold claim_event. destruct (eligible sid true false o) eqn:E; [|done]. destruct (dget sid (ow_pending o)) as [e'|]; [|done]. by intros [= <- <-].
Qed.

Lemma ok_claim_event sid claimant o o' e : claim_event sid claimant o = (o', Some e) -> ok o -> ok o' /\ of_session l sid e /\ ow_log o' = ow_log o.
Proof.
  intros Hc H. destruct (claim_event_spec _ _ _ _ _ Hc) as (Hp & _ & ->). pose proof (oo_pending _ _ _ H _ _ (dget_elem _ _ _ Hp)) as He.
  split_and!; [|done..]. apply ok_set_claims; [done|]. apply (elem_dset_inv (fun k (c : string * event) => of_session l k c.2)); [done|apply H].
Qed.

Lemma ok_append_coverage t coverage o :
  (forall e, e ∈ l -> (identity e, false) ∈ coverage -> covers_all (ow_log o) (output_of (ev_result e)) (totals (ev_result e))) ->
  (forall id b, (id, b) ∈ coverage -> id ∈ identity <$> l) -> ok o -> ok (append_coverage t coverage o).
Proof.
  intros Hc Hids H. apply ok_set_memory; [done|..].
  2:{ apply foldl_inv; [apply H|]. intros m [id b] Hp Hm t' id' b' [Hx|Hx]%elem_dset; [|by eapply Hm]. injection Hx as _ -> _. by eapply Hids. }
  intros t' e He.
  assert (Hm : forall d, (t', identity e, false) ∈ foldl (fun m p => dset (t, p.1) p.2 m) d coverage -> (t', identity e, false) ∈ d \/ (identity e, false) ∈ coverage).
  { clear Hc Hids. induction coverage as [|[id b] coverage IH]; intros d Hd; [by left|]. cbn in Hd. destruct (IH _ Hd) as [Hx|Hx]; [|right; by apply list_elem_of_further].
    apply elem_dset in Hx as [Hx|Hx]; [|by left]. right. apply pair_eq in Hx as [Hx ->]. apply pair_eq in Hx as [_ ->]. apply list_elem_of_here. }
  intros Hx. destruct (Hm _ Hx) as [Hy|Hy]; [by eapply oo_memory|by apply Hc].
Qed.

(** The state of [project]: [todo] are the sessions it has not visited yet. *)
Definition projection_ok (todo : list Z) (pj : projection) : Prop :=
  ok (pj_owner pj) /\ (forall e, e ∈ pj_claimed pj -> e ∈ l) /\
  (forall x, x ∈ pj_messages pj ≫= snd -> exists key st offset content, x = Shown key st offset content) /\
  (forall id b, (id, b) ∈ pj_coverage pj -> id ∈ identity <$> l) /\
  forall e, e ∈ l -> (identity e, false) ∈ pj_coverage pj ->
    covers_all ((pj_messages pj ≫= snd) ++ ow_log (pj_owner pj)) (output_of (ev_result e)) (totals (ev_result e)) /\
    (ev_session_id e ∈ todo -> covers_all (ow_log (pj_owner pj)) (output_of (ev_result e)) (totals (ev_result e))).

Lemma shown_only key x y : y ∈ shown key x -> exists key st offset content, y = Shown key st offset content.
Proof. destruct x; cbn; [|by intros ?%elem_of_nil..]. rewrite !elem_of_cons, elem_of_nil. naive_solver. Qed.

(** The owner moves on, with a longer log. *)
Lemma projection_ok_owner todo pj o claimed :
  projection_ok todo pj -> ok o -> ow_log (pj_owner pj) ⊆ ow_log o -> (forall e, e ∈ claimed -> e ∈ l) ->
  projection_ok todo (Projection o (pj_coverage pj) (pj_messages pj) claimed).
Proof.
  intros (_ & _ & H3 & Hi & H4) Ho Hl Hc. split_and!; [done..|]. intros e He Hx. destruct (H4 e He Hx) as [H5 H6]. cbn. split.
  - intros st. eapply covers_mono; [|apply H5]. set_solver.
  - intros Hs st. eapply covers_mono; [done|]. by apply H6.
Qed.

Lemma log_report_failure e o : ow_log (report_failure e o) = ow_log o.
Proof. unfold report_failure. by case_match; rewrite ?log_retire_event, log_release_claim; cbn; rewrite log_update_session. Qed.

Lemma log_acknowledge e o : ow_log o ⊆ ow_log (acknowledge_event e o).
Proof. unfold acknowledge_event. repeat match goal with |- context [if ?c then o else _] => destruct c; [done|] end. cbn. set_solver. Qed.

Lemma projection_ok_weaken todo sid pj : projection_ok (sid :: todo) pj -> projection_ok todo pj.
Proof.
  intros (H1 & H2 & H3 & Hi & H4). split_and!; [done..|]. intros e He Hx. destruct (H4 e He Hx) as [H5 H6]. split; [done|].
  intros Hs. apply H6. by apply list_elem_of_further.
Qed.

(** A message for the event of a session that is not visited again. *)
Lemma projection_ok_message todo sid pj o e x error turn_id :
  projection_ok todo pj -> sid ∉ todo -> ok o -> ow_log (pj_owner pj) = ow_log o -> of_session l sid e -> fits (ow_log o) (ev_result e) x ->
  x <> RawState -> (error = false -> rendered_ok x = true) ->
  projection_ok todo (Projection
    (set_outputs (dset (OfEvent (identity e)) (Pending (ev_result e) turn_id (Some x) false None false false true false) (ow_outputs o)) o)
    (dset (identity e) error (pj_coverage pj))
    (pj_messages pj ++ [(identity e, if error then [] else shown (SessionOutput sid) x)]) (pj_claimed pj ++ [e])).
Proof.
  intros (_ & H2 & H3 & Hi & H4) Hsid Ho El [He Hs] Hf Hst Hx. unfold projection_ok. cbn [pj_owner pj_claimed pj_messages pj_coverage ow_log set_outputs].
  rewrite bind_app. cbn [mbind list_bind]. rewrite app_nil_r. cbn [snd]. set (new := if error then [] else _). split_and!.
  - apply ok_store_output; [|done]. split_and!; [by apply (oo_events _ _ _ Ho)|by intros y [= <-]|done|]. split; [done|]. by intros [= ?].
  - intros e' [?|Hx']%elem_of_app; [by apply H2|]. apply list_elem_of_singleton in Hx' as ->. done.
  - intros y [Hy|Hy]%elem_of_app; [by apply H3|]. subst new. destruct error; [by apply elem_of_nil in Hy|]. by eapply shown_only.
  - apply (elem_dset_inv (fun id _ => id ∈ identity <$> l)); [by apply list_elem_of_fmap_2|done].
  - intros e' He' [Hc|Hc]%elem_dset.
    + apply pair_eq in Hc as [Hid Hb]. subst new. subst error. assert (Er : ev_result e' = ev_result e) by (by apply (oo_identity _ _ _ Ho)).
      assert (Es : ev_session_id e' = ev_session_id e) by (by injection Hid).
      split; [|intros Hin; exfalso; apply Hsid; by rewrite <- Hs, <- Es]. rewrite Er. intros st.
      pose proof (shown_covers (ow_log o) (ev_result e) x (proj1 (oo_events _ _ _ Ho e He)) Hf (Hx eq_refl) st) as Hcov.
      rewrite (output_of_event e He o Ho), Hs in Hcov |- *. eapply covers_mono; [|exact Hcov]. set_solver.
    + destruct (H4 e' He' Hc) as [H5 H6]. rewrite El in *. split; [|done]. intros st. eapply covers_mono; [|apply H5]. set_solver.
Qed.

Lemma project_session_ok turn_id failing todo sid pj :
  sid ∉ todo -> projection_ok (sid :: todo) pj -> projection_ok todo (project_session turn_id failing pj sid).
Proof.
  intros Hsid Hpj. pose proof (projection_ok_weaken _ _ _ Hpj) as Hw. destruct Hpj as (Hok & Hcl & _ & _ & Hcov).
  cbv beta delta [project_session]. name_let o. destruct (negb _); [done|].
  destruct (claim_event sid turn_id o) as [o1 [e|]] eqn:Ec; [|done]. destruct (ok_claim_event _ _ _ _ _ Ec Hok) as (Ho1 & [He Hs] & El).
  destruct (claim_event_spec _ _ _ _ _ Ec) as (_ & Hel & _).
  assert (Hcl' : forall e', e' ∈ pj_claimed pj ++ [e] -> e' ∈ l).
  { intros e' [?|Hx]%elem_of_app; [by apply Hcl|]. by apply list_elem_of_singleton in Hx as ->. }
  name_let claimed. destruct (dget (identity e) (pj_coverage pj)) as [[]|] eqn:Eb.
  - apply projection_ok_owner; [done|by apply ok_report_failure| |done]. rewrite log_report_failure, El. done.
  - assert (Hc : covers_all (ow_log o1) (output_of (ev_result e)) (totals (ev_result e))).
    { rewrite El. apply (Hcov e He); [by apply dget_elem|]. rewrite Hs. apply list_elem_of_here. }
    apply projection_ok_owner; [done| |etransitivity; [|apply log_acknowledge]; etransitivity; [|apply log_commit_event]; by rewrite El|done].
    apply ok_acknowledge; [|by apply ok_commit_event]. intros st. eapply covers_mono; [apply log_commit_event|apply Hc].
  - name_let x. name_let err. apply (projection_ok_message todo sid); try done.
    + subst x. destruct (dget (identity e) (ow_prepared o1)) as [v|] eqn:Ev; [|done].
      assert (Hn : sid <> 0) by (subst sid; by apply (oo_events _ _ _ Ho1)). destruct (ok_offsets sid o1 Hn Ho1) as [H1 H2].
      apply output_since_fits; [|rewrite (output_of_event e He o1 Ho1), Hs; done|done]. eapply oo_prepared; [done..|]. by apply dget_elem.
    + subst x. by destruct (dget (identity e) (ow_prepared o1)) as [[]|].
    + intros Hf. subst err. apply orb_false_iff in Hf as [Hf _]. by apply negb_false_iff in Hf.
Qed.

Lemma project_fold_ok turn_id failing todo pj :
  NoDup todo -> projection_ok todo pj -> projection_ok [] (foldl (project_session turn_id failing) pj todo).
Proof.
  revert pj. induction todo as [|sid todo IH]; intros pj Hn H; [done|]. apply NoDup_cons in Hn as [Hs Hn]. apply IH; [done|]. by apply project_session_ok.
Qed.

Lemma ok_release_claims es o : ok o -> ok (release_claims es o).
Proof. intros H. unfold release_claims. apply foldl_inv; [done|]. intros o' e _ Ho'. by apply ok_release_claim. Qed.

Lemma ok_project turn_id active visible failing h o : ok o -> ok (project turn_id active visible failing h o).
Proof.
  intros H. cbv beta delta [project]. name_let o1. assert (H1 : ok o1) by (by apply ok_collect). clearbody o1.
  name_let candidates. destruct active; cbv beta iota delta [negb]; [|done]. name_let pj.
  assert (Hpj : projection_ok [] pj).
  { subst pj. apply project_fold_ok; [by apply dwf_filter, H1|]. split_and!; [done|by intros e ?%elem_of_nil|by intros x ?%elem_of_nil|..].
    { intros id b Hx. apply list_elem_of_fmap in Hx as ([[t id'] b'] & Hx & Hin). apply list_elem_of_filter in Hin as [_ Hin].
      injection Hx as -> ->. by eapply oo_memory_ids. }
    intros e He Hx. cbn in Hx |- *. assert (Hm : (Turn turn_id, identity e, false) ∈ ow_memory o1).
    { apply list_elem_of_fmap in Hx as ([[t id] b] & Hx & Hin). apply list_elem_of_filter in Hin as [Ht Hin]. cbn in Ht, Hx. subst t.
      apply pair_eq in Hx as [<- <-]. done. }
    split; [|intros _]; by eapply oo_memory. }
  clearbody pj. destruct Hpj as (Ho & Hcl & Hsh & Hids & Hcov).
  assert (Hemit : ok (emit (pj_messages pj ≫= snd) (pj_owner pj))).
  { apply ok_emit; [done|..]; [intros r Hr|intros k n Hr]; destruct (Hsh _ Hr) as (? & ? & ? & ? & ?); done. }
  assert (Happ : ok (append_coverage (Turn turn_id) (pj_coverage pj) (emit (pj_messages pj ≫= snd) (pj_owner pj)))).
  { apply ok_append_coverage; [|done..]. intros e He Hx. by apply Hcov. }
  destruct h; [by apply ok_release_claims..|]. set (o2 := append_coverage _ _ _) in *.
  assert (Hbase : forall e, e ∈ l -> (identity e, false) ∈ pj_coverage pj -> covers_all (ow_log o2) (output_of (ev_result e)) (totals (ev_result e))).
  { intros e He Hx. by apply Hcov. }
  clearbody o2. apply (foldl_inv (fun o' => ok o' /\ ow_log o2 ⊆ ow_log o')); [done|].
  intros o' e He [Ho' Hl]. unfold settle_event. destruct (dget (identity e) (pj_coverage pj)) as [[]|] eqn:Eb; [| |done].
  - split; [by apply ok_report_failure; [apply Hcl|]|]. by rewrite log_report_failure.
  - assert (Hc : covers_all (ow_log o') (output_of (ev_result e)) (totals (ev_result e))).
    { intros st. eapply covers_mono; [done|]. apply Hbase; [by apply Hcl|by apply dget_elem]. }
    split.
    + apply ok_acknowledge; [|apply ok_filter_outputs, ok_commit_event; [by apply Hcl|done..]].
      intros st. eapply covers_mono; [|apply Hc]. cbn. apply log_commit_event.
    + etransitivity; [exact Hl|]. etransitivity; [|apply log_acknowledge]. cbn. apply log_commit_event.
Qed.

Lemma ok_open_event_turn sid e value s failing h o :
  of_session l sid e -> dget (identity e) (ow_prepared o) = Some value -> dget sid (ow_sessions o) = Some s -> ok o -> ok (open_event_turn sid e value s failing h o).1.
Proof.
  intros [He Hs] Hv Hss H. cbv beta delta [open_event_turn]. set (x := output_since value _). cbv zeta. set (err := negb _ || _).
  assert (Hn : sid <> 0) by (subst sid; by apply (oo_events _ _ _ H)).
  destruct (oo_offsets _ _ _ H sid s Hss) as [Hc1 Hc2]. specialize (Hc1 Hn).
  assert (Hx : fits (ow_log o) (ev_result e) x).
  { apply output_since_fits; [|rewrite (output_of_event e He o H), Hs; done|done]. eapply oo_prepared; [done..|]. by apply dget_elem. }
  set (o1 := append_coverage _ _ _). assert (Ho1 : ok o1 /\ (err = false -> covers_all (ow_log o1) (output_of (ev_result e)) (totals (ev_result e)))).
  { assert (Hc : err = false -> covers_all (shown (SessionOutput sid) x ++ ow_log o) (output_of (ev_result e)) (totals (ev_result e))).
    { intros Hf. subst err. apply orb_false_iff in Hf as [Hf _]. apply negb_false_iff in Hf. rewrite <- Hs, <- (output_of_event e He o H).
      apply shown_covers; [by apply (oo_events _ _ _ H)|done..]. }
    assert (Hids : forall id b, (id, b) ∈ [(identity e, err)] -> id ∈ identity <$> l).
    { intros id b Hin. apply list_elem_of_singleton, pair_eq in Hin as [-> _]. by apply list_elem_of_fmap_2. }
    subst o1. destruct err; (split; [|done || (intros _; by apply Hc)]); apply ok_append_coverage.
    - intros e' _ Hin. apply list_elem_of_singleton in Hin. by apply pair_eq in Hin as [_ ?].
    - exact Hids.
    - by apply (emit_shown_ok (SessionOutput sid) RawError).
    - intros e' He' Hin. apply list_elem_of_singleton, pair_eq in Hin as [Hid _]. rewrite (oo_identity _ _ _ H e' e) by done. by apply Hc.
    - intros id b Hin. by apply Hids with b.
    - by apply emit_shown_ok. }
  destruct Ho1 as [Ho1 Hc]. clearbody o1. destruct h; [by apply ok_fail_session..|]. cbn [fst]. destruct err; [by apply ok_report_failure|].
  apply ok_acknowledge; [|by apply ok_commit_event; [|apply Hc|]]. intros st. eapply covers_mono; [apply log_commit_event|by apply Hc].
Qed.

Lemma ok_finally sid e o : ok o -> ok (collect (release_claim sid e o)).
Proof. intros H. by apply ok_collect, ok_release_claim. Qed.

Lemma ok_run_event sid failing h o : ok o -> ok (run_event sid failing h o).1.
Proof.
  intros H. unfold run_event. destruct (dget sid (ow_claims o)) as [[who e]|] eqn:Ec; [|by apply ok_collect].
  pose proof (oo_claims _ _ _ H _ _ (dget_elem _ _ _ Ec)) as He. cbn [snd] in He. destruct (negb _); [by apply ok_finally|].
  destruct (dget sid (ow_sessions o)) as [s|] eqn:Es; [|by apply ok_finally, ok_fail_session].
  destruct (dget (EventTurn (identity e), identity e) (ow_memory o)) as [[]|] eqn:Em.
  - apply ok_finally, ok_report_failure; [apply He|done].
  - assert (Hc : covers_all (ow_log o) (output_of (ev_result e)) (totals (ev_result e))) by (eapply oo_memory; [done|apply He|by apply dget_elem]).
    apply ok_finally, ok_acknowledge; [|by apply ok_commit_event; [apply He|..]]. intros st. eapply covers_mono; [apply log_commit_event|apply Hc].
  - destruct (dget (identity e) (ow_prepared o)) as [v|] eqn:Ev; [|by apply ok_finally].
    set (newer := match dget sid (ow_completions o) with
                  | Some latest => if raw_sequence (ev_result e) <? raw_sequence (ev_result latest) then Some latest else None
                  | None => None
                  end).
    assert (Hnewer : forall latest, newer = Some latest -> of_session l sid latest).
    { intros latest. subst newer. destruct (dget sid (ow_completions o)) as [e'|] eqn:E'; [|done]. destruct (_ <? _); [|done]. intros [= <-].
      by apply (oo_completions _ _ _ H), dget_elem. }
    destruct newer as [latest|].
    + apply ok_finally, ok_set_pending; [done|]. apply (elem_dset_inv (of_session l)); [by apply Hnewer|apply H].
    + destruct (negb _); [by apply ok_finally|]. pose proof (ok_open_event_turn sid e v s failing h o He Ev Es H) as Ho.
      destruct (open_event_turn _ _ _ _ _ _ _) as [o1 []]; [exact Ho|by apply ok_finally].
Qed.

Lemma ok_run_ended e failed o : ok o -> ok (run_ended e failed o).
Proof. intros H. apply ok_finally. destruct failed; [by apply ok_fail_session|done]. Qed.
End operations.

Lemma ok_register l g o sid transient turn_id lease :
  sid ∉ g -> owner_ok l g o -> owner_ok l (sid :: g) (set_sessions (dset sid (new_session transient turn_id lease) (ow_sessions o)) o).
Proof.
  intros Hs H. destruct H. split; cbn; try done.
  - intros k s. rewrite dget_dset. case_decide as Ek; [|apply oo_offsets0]. intros [= <-]. split; [|by intros []].
    intros _ st i Hi. destruct st; cbn in Hi; lia.
  - by apply dwf_dset.
  - intros k Hk. rewrite dget_dset in Hk. case_decide; [subst; apply list_elem_of_here|]. by apply list_elem_of_further, oo_sessions0.
  - intros k p Hp. destruct (oo_latest0 k p Hp). split; [done|]. by apply list_elem_of_further.
  - intros key n Hk. destruct (oo_committed0 key n Hk) as [?|[Hg Hn]]; [by left|]. right. split; [by apply list_elem_of_further|].
    rewrite dget_dset, decide_False; [done|]. intros ->. done.
Qed.

Lemma ok_more_sessions l g o sid : owner_ok l g o -> owner_ok l (sid :: g) o.
Proof.
  intros H. destruct H. split; try done.
  - intros k Hk. by apply list_elem_of_further, oo_sessions0.
  - intros k p Hp. destruct (oo_latest0 k p Hp). split; [done|]. by apply list_elem_of_further.
  - intros key n Hk. destruct (oo_committed0 key n Hk) as [?|[? ?]]; [by left|]. right. split; [by apply list_elem_of_further|done].
Qed.

Lemma of_session_more l e sid e' : of_session l sid e' -> of_session (e :: l) sid e'.
Proof. intros [H1 H2]. split; [by apply list_elem_of_further|done]. Qed.

Lemma ok_publish l g o e :
  publishes e l -> owner_ok l g o -> owner_ok (e :: l) g (set_completions (dset (ev_session_id e) e (ow_completions o)) o).
Proof.
  intros (Hr & Hs & Hn & Hsame) H. pose proof H as Hok. destruct H.
  assert (Hold : forall id, id ∈ identity <$> l -> id = identity e -> exists e', e' ∈ l /\ identity e' = identity e /\ ev_result e' = ev_result e).
  { intros id Hid ->. apply list_elem_of_fmap in Hid as (e' & E & He'). exists e'. split_and!; [done..|]. by apply Hsame. }
  split; cbn; try done.
  - intros e' [->|He']%elem_of_cons; [done|by apply oo_events0].
  - intros e1 e2 [->|H1]%elem_of_cons [->|H2]%elem_of_cons E; [done| | |by apply oo_identity0]; [symmetry; by apply Hsame|by apply Hsame].
  - intros e' v [->|He']%elem_of_cons Hv; [|by eapply oo_prepared0].
    destruct (Hold _ (oo_prepared_ids0 _ _ Hv) eq_refl) as (e1 & H1 & H2 & H3). rewrite <- H3. eapply oo_prepared0; [done|]. by rewrite H2.
  - intros id v Hv. apply list_elem_of_further. by eapply oo_prepared_ids0.
  - intros sid e' He'. by apply of_session_more, oo_pending0.
  - intros sid c Hc. by apply of_session_more, oo_claims0.
  - intros sid p Hp. destruct (oo_preparing0 sid p Hp) as [H1 H2]. split; [by apply of_session_more|done].
  - apply (elem_dset_inv (of_session (e :: l))); [split; [apply list_elem_of_here|done]|]. intros sid e' He'. by apply of_session_more, oo_completions0.
  - intros t e' [->|He']%elem_of_cons Hm; [|by eapply oo_memory0].
    destruct (Hold _ (oo_memory_ids0 _ _ _ Hm) eq_refl) as (e1 & H1 & H2 & H3). rewrite <- H3. eapply oo_memory0; [done|]. by rewrite H2.
  - intros t id b Hb. apply list_elem_of_further. by eapply oo_memory_ids0.
Qed.

Definition system_ok (s : osystem) : Prop := owner_ok (os_published s) (os_registered s) (os_owner s).

Lemma owner_step_ok s s' : owner_step s s' -> system_ok s -> system_ok s'.
Proof.
  unfold system_ok. destruct 1; cbn; intros Hok; try done.
  - by apply ok_register.
  - by apply ok_publish.
  - apply ok_set_completions; [done|]. eapply elem_ddel_inv, Hok.
  - by apply ok_collect.
  - by apply ok_record.
  - by apply ok_refreshed.
  - by apply ok_refresh_failed.
  - apply ok_load_done; [|done]. intros p _ _. destruct (oo_preparing _ _ _ Hok _ _ (dget_elem _ _ _ H)) as ([He _] & Hc & Hn). cbn in *.
    split; [done|]. destruct (oo_events _ _ _ Hok e He) as (Hr & _ & _). apply materialize_ok; [done..| |done].
    by rewrite (output_of_event l g e He o Hok).
  - apply ok_load_done; [|done]. intros p _ _. by destruct (oo_preparing _ _ _ Hok _ _ (dget_elem _ _ _ H)) as ([He _] & _).
  - by apply ok_load_cancelled.
  - unfold claim_event. destruct (eligible _ _ _ o); [|done]. destruct (dget sid (ow_pending o)) as [e|] eqn:E; [|done].
    apply ok_set_claims; [done|]. apply (elem_dset_inv (fun k (c : string * event) => of_session l k c.2)); [|apply Hok]. by apply (oo_pending _ _ _ Hok), dget_elem.
  - by apply ok_release_claim.
  - by apply ok_project.
  - by apply ok_run_event.
  - by apply ok_run_ended.
  - by apply ok_stage_begin.
  - apply ok_stage_done; [|done]. intros p' E. assert (p' = p) as -> by congruence. split; [done|].
    destruct (oo_outputs _ _ _ Hok call p (dget_elem _ _ _ H)) as (Hr & _). apply materialize_ok; [done..| |by intros []].
    intros st i Hi. destruct st; cbn in Hi; lia.
  - apply ok_stage_done; [|done]. intros p' E. assert (p' = p) as -> by congruence. done.
  - by apply ok_normalized.
  - unfold shell_reply. cbv zeta. apply ok_stage_begin; [done|].
    set (o1 := if raw_sid r =? 0 then o else _). assert (H1 : owner_ok l (raw_sid r :: g) o1).
    { subst o1. case_match; [|by apply ok_register]. by apply ok_more_sessions. }
    clearbody o1. case_match; [by apply ok_set_leases|done].
  - by apply ok_session_reply.
  - by apply ok_commit_output.
  - by apply ok_ack_done.
  - by apply ok_forget_session.
  - by apply ok_filter_outputs.
Qed.

Definition start_owner : osystem := OSys new_owner [] [].

Lemma start_owner_ok : system_ok start_owner.
Proof. split; cbn; try (by intros * ?%elem_of_nil); try (by intros * ? ?%elem_of_nil); try done; constructor. Qed.

Lemma owner_reachable_ok s : rtc owner_step start_owner s -> system_ok s.
Proof. intros H. apply (rtc_ind_r (R := owner_step) system_ok start_owner); [apply start_owner_ok| |exact H]. intros a b _ Hs. by apply owner_step_ok. Qed.

(** ** Theorems *)


(** C12: a delivered event never comes back.  In every state of the owner, an event that a
    turn can claim is newer than every event and every tool result that was delivered for
    its session, belongs to a session that is committed and watched, and has its output
    loaded; while it is claimed nobody else can claim an event of the session. *)
Theorem claimed_events_are_new s sid claimant o' e :
  rtc owner_step start_owner s -> claim_event sid claimant (os_owner s) = (o', Some e) ->
  (forall n, Committed (key_of (ev_result e)) n ∈ ow_log (os_owner s) -> n < raw_sequence (ev_result e)) /\
  (exists ss, dget sid (ow_sessions o') = Some ss /\ ss_committed ss = true /\ observation_is_current (ev_result e) ss = true) /\
  is_Some (dget (identity e) (ow_prepared o')) /\
  (forall who, (claim_event sid who o').2 = None).
Proof.
  intros Hrun Hc. pose proof (owner_reachable_ok s Hrun) as Hok. destruct (claim_event_spec _ _ _ _ _ Hc) as (Hp & Hel & ->).
  destruct (oo_pending _ _ _ Hok _ _ (dget_elem _ _ _ Hp)) as [He Hs]. destruct (oo_events _ _ _ Hok e He) as (_ & Hr & _).
  unfold eligible in Hel. rewrite Hp in Hel. destruct (dget sid (ow_sessions (os_owner s))) as [ss|] eqn:Ess; [|done]. bool_to_prop. split_and!.
  - intros n Hn. destruct (oo_committed _ _ _ Hok _ _ Hn) as [?|[_ Hnone]]; [lia|]. exfalso. cbn [key_of snd] in Hnone. congruence.
  - by exists ss.
  - cbn. by apply dmem_true.
  - intros who. unfold claim_event. cbn. destruct (eligible sid true false _) eqn:Ee; [|done]. exfalso. unfold eligible in Ee. cbn in Ee.
    rewrite Hp, Ess in Ee. unfold dmem at 1 in Ee. rewrite dget_dset_eq in Ee. by rewrite andb_false_r in Ee.
Qed.
End delivery.

(** ** Witnesses *)

(** A command that runs in the background: its first two bytes are the result of the tool
    call, the other three arrive with the event of its end. *)
Definition demo_data (key : output_key) (st : stream) : bytes := match key, st with SessionOutput 5, Stdout => [104; 101; 108; 108; 111] | _, _ => [] end.

Definition demo_raw (status : string) (sequence n : Z) : raw :=
  [("session_id", JInt 5); ("status", JStr status); ("event_sequence", JInt sequence); ("stdout_total", JInt n); ("stderr_total", JInt 0);
   ("output_id", JStr "out"); ("runtime_epoch", JStr "e1")].
Definition demo_event : event := Event 1 5 "t1" (demo_raw "exited" 1 5).
Definition demo_source : source := Source None (Some ([104; 101; 108; 108; 111], [])).

Definition demo_owner1 : owner := Eval vm_compute in
  stage_begin (OfCall "call") "t1" (demo_raw "running" 0 2) None false (set_sessions (dset 5 (new_session false "t1" "call") []) new_owner).
Definition demo_owner2 : owner := Eval vm_compute in
  commit_output 0 (OfCall "call") (normalized (OfCall "call") false (stage_done (OfCall "call") (materialize_delivery None (0, 0) demo_source (demo_raw "running" 0 2)) demo_owner1)).
Definition demo_owner3 : owner := Eval vm_compute in collect (set_completions (dset 5 demo_event (ow_completions demo_owner2)) demo_owner2).
Definition demo_owner4 : owner := Eval vm_compute in
  load_done demo_event (materialize_delivery None (2, 0) demo_source (ev_result demo_event)) demo_owner3.
Definition demo_owner5 : owner := Eval vm_compute in project "t2" true (fun _ => true) (fun _ => false) HandedOff demo_owner4.

Lemma demo_raw_ok status sequence n : 0 <= n <= 5 -> raw_ok demo_data (demo_raw status sequence n).
Proof. intros Hn st. destruct st; [change (0 <= n <= 5)|change (0 <= 0 <= 0)]; lia. Qed.

Lemma demo_source_ok status sequence n : source_ok demo_data (demo_raw status sequence n) demo_source.
Proof. split_and!; [done| |done]. intros files [= <-] []; reflexivity. Qed.

Lemma demo_run4 : rtc (owner_step demo_data) start_owner (OSys demo_owner4 [demo_event] [5]).
Proof.
  eapply rtc_l; [apply (op_register _ new_owner [] [] 5 false "t1" "call"); by intros ?%elem_of_nil|].
  eapply rtc_l; [apply (op_stage _ _ _ _ (OfCall "call") "t1" (demo_raw "running" 0 2) None false); by apply demo_raw_ok|].
  eapply rtc_l; [apply (op_staged _ demo_owner1 [] [5] (OfCall "call") (Pending (demo_raw "running" 0 2) "t1" None false None false false true false) None demo_source);
    [vm_compute; reflexivity|reflexivity|apply demo_source_ok]|].
  eapply rtc_l; [apply (op_normalized _ _ _ _ (OfCall "call") false)|].
  eapply rtc_l; [apply (op_commit _ _ _ _ 0 (OfCall "call"))|].
  eapply rtc_l; [apply (op_publish _ demo_owner2 [] [5] demo_event); split_and!; [by apply demo_raw_ok|reflexivity|done|by intros e ?%elem_of_nil]|].
  eapply rtc_l; [apply op_collect|]. apply rtc_once.
  apply (op_loaded _ demo_owner3 [demo_event] [5] demo_event (2, 0) None demo_source); [vm_compute; reflexivity|apply demo_source_ok].
Qed.


Lemma claimed_events_are_new_witness : exists o' e, claim_event 5 "t2" demo_owner4 = (o', Some e) /\ is_Some (dget (identity e) (ow_prepared o')).
Proof.
  eexists _, demo_event. split; [vm_compute; reflexivity|].
  eapply (claimed_events_are_new demo_data (OSys demo_owner4 [demo_event] [5]) 5 "t2"); [exact demo_run4|vm_compute; reflexivity].
Defined.

(** ** The capacity check of [stage]

    It counts only outputs that are loaded already: two results that are staged at the same
    time both pass it, and together hold more than the limit. *)
Definition demo_remote (output : string) : raw :=
  [("session_id", JInt 0); ("target", JInt 1); ("status", JStr "exited"); ("stdout_total", JInt (40 * 1024 * 1024)); ("stderr_total", JInt 0);
   ("output_id", JStr output)].

Example concurrent_stages_exceed_limit :
  let o := stage_begin (OfCall "b") "t" (demo_remote "o2") None false (stage_begin (OfCall "a") "t" (demo_remote "o1") None false new_owner) in
  let o := stage_done (OfCall "b") (LoadedAll ([], [])) (stage_done (OfCall "a") (LoadedAll ([], [])) o) in
  forallb (fun p => negb (po_failure p)) (dvals (ow_outputs o)) = true /\ (REMOTE_PENDING_BYTES <? retained_bytes o) = true.
Proof. vm_compute. done. Qed.

(** One after the other, the second one is refused. *)
Example later_stage_is_refused :
  let o := stage_done (OfCall "a") (LoadedAll ([], [])) (stage_begin (OfCall "a") "t" (demo_remote "o1") None false new_owner) in
  po_failure <$> dget (OfCall "b") (ow_outputs (stage_begin (OfCall "b") "t" (demo_remote "o2") None false o)) = Some true.
Proof. vm_compute. done. Qed.
