(* ===== verification/Approval.v ===== *)
(** * Approvals of privileged commands

    [pal_shell_native/approval.py]: the card that shows a privileged request to its human,
    the table of pending approvals, and [decide], which the host calls with a press of a
    button.  [request] is a coroutine; it is cut at its awaits, and the deliveries of the
    channel, the clock and [uuid4] are arguments.  [local_privileged] of [router.py], which
    runs an approved command of the local host, is at the end. *)

From S2P Require Import Prelude Dict Utf8 PyValue Shlex.
From Stdlib Require Import Ascii.
Open Scope Z_scope.
Open Scope stdpp_scope.

(** ** The card *)

Definition backtick : ascii := ascii_of_nat 96.
Definition newline : ascii := ascii_of_nat 10.
Definition nl : string := of_chars [newline].

(** The longest match of [`+]; [run] is the length of the match under way. *)
Fixpoint longest_run (run : nat) (l : list ascii) : nat :=
  match l with
  | [] => run
  | c :: l => if Ascii.eqb c backtick then longest_run (S run) l else Nat.max run (longest_run 0 l)
  end.

Definition fence_length (t : string) : nat := Nat.max 3 (1 + longest_run 0 (chars t)).

Definition _code_block (t language : string) : string :=
  let fence := of_chars (replicate (fence_length t) backtick) in
  fence +:+ language +:+ nl +:+ t +:+ nl +:+ fence.

(** What [prepare_privileged] returned to be approved. *)
Record grant := Grant { gr_operation_id : string; gr_worker_id : string; gr_runtime_epoch : string; gr_expires_at : Z }.

Inductive approval_error :=
| RemoteFailure (code message : string)
| Malformed                           (* [KeyError], [TypeError] and the like *)
| Cancelled.                          (* [asyncio.CancelledError] *)

(** [' '.join(items)] *)
Definition join_items (items : list json) : res approval_error string :=
  rmap (join " ") (rmapM (fun v => match v with JStr s => Ok s | _ => Raise Malformed end) items).

(** [management and ...]: the dictionary, when there is one. *)
Definition card_management (args : obj) : res approval_error (option obj) :=
  let m := jget "management" args in
  if truthy m then match m with JObj d => Ok (Some d) | _ => Raise Malformed end else Ok None.

Definition management_action (m : obj) : res approval_error json :=
  match dget "action" m with Some v => Ok v | None => Raise Malformed end.

Definition plain_command (args : obj) : res approval_error string :=
  match default (JStr "shutdown") (dget "cmd" args) with JStr s => Ok s | _ => Raise Malformed end.

Definition approved_command (args : obj) : res approval_error string :=
  let! m := card_management args in
  match m with
  | Some m =>
      let! action := management_action m in
      if py_eq action (JStr "shell_command") then plain_command args
      else
        let! items := match py_list (default (JList []) (dget "packages" m)) with Ok l => Ok l | Raise _ => Raise Malformed end in
        let! packages := join_items items in
        Ok (py_str action +:+ " " +:+ packages)
  | None => plain_command args
  end.

Definition card_directory (args : obj) : res approval_error json :=
  let! m := card_management args in
  match m with
  | Some m =>
      let! action := management_action m in
      Ok (if py_eq action (JStr "shell_command") then jget "cwd" m else jget "cwd" args)
  | None => Ok (jget "cwd" args)
  end.

Definition input_text (args : obj) : res approval_error string :=
  match jget "stdin" args with
  | JNull => Ok ""
  | JStr s => Ok (nl +:+ nl +:+ "Standard input (" +:+ py_str (JInt (Z.of_nat (length (string_bytes s)))) +:+
                  " UTF-8 bytes, then EOF):" +:+ nl +:+ _code_block s "")
  | _ => Raise Malformed
  end.

Definition card_title (target : Z) (action : json) : string :=
  (if target =? 0 then "Local" else "Remote") +:+ " " +:+ py_str action +:+ " on target " +:+ py_str (JInt target).
Definition card_impact (action : json) (g : grant) : string :=
  "Execute exactly this " +:+ py_str action +:+ " request once on " +:+ gr_worker_id g +:+ ".".

(** What precedes the command, and what follows it. *)
Definition card_preamble (target : Z) (action directory : json) (g : grant) : string :=
  card_title target action +:+ nl +:+ card_impact action g +:+ nl +:+ "Runtime: " +:+ gr_runtime_epoch g +:+ nl +:+
  "Directory: " +:+ py_str (jor directory (JStr "(worker default)")) +:+ nl +:+ nl.
Definition card_tail (input : string) : string :=
  input +:+ nl +:+ nl +:+ "Approval applies to this request only. Execution results are reported separately.".

Definition card_text (target : Z) (action : json) (args : obj) (g : grant) : res approval_error string :=
  let! command := approved_command args in
  let! directory := card_directory args in
  let! input := input_text args in
  Ok (card_preamble target action directory g +:+ "Command:" +:+ nl +:+ _code_block command "sh" +:+ card_tail input).

(** ** The table of pending approvals *)

Record ControlRoute := Route {
  cr_endpoint_id : string;
  cr_channel_kind : string;
  cr_reply_target : obj;
  cr_control_scope_key : string;
  cr_correlation_id : string
}.

(** [continuation.delivery_binding] *)
Record delivery_binding := Binding {
  db_reply_target : obj;
  db_endpoint_id : string;
  db_channel_kind : string;
  db_control_scope_key : string;
  db_correlation_id : string
}.

Inductive decision := Pressed (choice : string) | Failed (code message : string).

(** The state of an [asyncio.Future]. *)
Inductive future := Waiting | Resolved (d : decision) | CancelledFuture.
Definition done (f : future) : bool := match f with Waiting => false | _ => true end.

Record PendingApproval := Pending {
  pa_route : ControlRoute;
  pa_actor : string;
  pa_future : string;                 (* the future, by the request that created it *)
  pa_expires_at : option Z
}.

Record ShellApprovals := Approvals {
  sa_pending : dict string PendingApproval;
  sa_futures : dict string future     (* all futures created so far *)
}.
Definition no_approvals : ShellApprovals := Approvals [] [].

Definition future_of (identifier : string) (s : ShellApprovals) : future := default CancelledFuture (dget identifier (sa_futures s)).
Definition set_future (identifier : string) (f : future) (s : ShellApprovals) : ShellApprovals :=
  Approvals (sa_pending s) (dset identifier f (sa_futures s)).

(** ** [request] *)

Definition actor_of (reply : obj) : string :=
  py_str (jor (jor (jor (jget "user_id" reply) (jget "account_id" reply)) (jget "session_id" reply)) (JStr "")).

Definition route_of (b : delivery_binding) : ControlRoute :=
  Route (db_endpoint_id b) (db_channel_kind b) (db_reply_target b) (db_control_scope_key b) (db_correlation_id b).

Definition unavailable (message : string) : approval_error := RemoteFailure "approval_unavailable" message.

Definition register_approval (identifier : string) (b : delivery_binding) (actor : string) (g : grant) (s : ShellApprovals) : ShellApprovals :=
  Approvals (dset identifier (Pending (route_of b) actor identifier (Some (gr_expires_at g))) (sa_pending s))
            (dset identifier Waiting (sa_futures s)).

(** Up to the delivery of the card; [isoformat]: the expiry as text, [None] when it is out
    of the range of [datetime]. *)
Definition request_open (isoformat : Z -> option string) (binding : option delivery_binding) (target : Z) (args : obj)
    (g : grant) (identifier : string) : M ShellApprovals approval_error string :=
  match binding with
  | None => sthrow (unavailable "A trusted originating conversation is required for privilege approval")
  | Some b =>
      let actor := actor_of (db_reply_target b) in
      seq! sguard (negb (str_truthy actor)) (unavailable "Channel does not provide a verified human identity") ;;
      match dget "action" args with
      | None => sthrow Malformed
      | Some action =>
          seq! smodify (register_approval identifier b actor g) ;;
          do! text <- slift (card_text target action args g) ;;
          match isoformat (gr_expires_at g) with
          | None => sthrow Malformed
          | Some _ => sret text
          end
      end
  end.

(** [max(0, expires_at - now)], when the card was delivered. *)
Definition remaining (g : grant) (now : Z) : Z := Z.max 0 (gr_expires_at g - now).

(** What [request] does with the result of its future, and the text it closes the card with. *)
Definition resolve (d : decision) : res approval_error unit * string :=
  match d with
  | Failed code message => (Raise (RemoteFailure code message), message +:+ "; no authorization was granted.")
  | Pressed choice =>
      if decide (choice = "accept") then (Ok tt, "Approved once. Execution results are reported separately.")
      else (Raise (RemoteFailure "approval_rejected" "Approval rejected by user"), "Rejected; no authorization was granted.")
  end.

(** How the coroutine goes on after an await. *)
Inductive wake :=
| Undelivered                         (* the channel did not deliver the card *)
| DeliveryFailed                      (* an exception of the channel *)
| TimedOut                            (* [asyncio.wait_for] *)
| Interrupted                         (* the task was cancelled *)
| Answered (d : decision).            (* the future has its result *)

Definition wake_outcome (w : wake) : res approval_error unit * string :=
  let closed := "Approval cancelled or unavailable; no authorization was granted." in
  match w with
  | Undelivered => (Raise (unavailable "Channel could not deliver the approval request"), closed)
  | DeliveryFailed => (Raise (unavailable "Approval could not be completed; no authorization was granted"), closed)
  | TimedOut => (Raise (RemoteFailure "approval_expired" "No approval was received before expiry"),
                 "Approval expired; no authorization was granted.")
  | Interrupted => (Raise Cancelled, closed)
  | Answered d => resolve d
  end.

(** The [finally] clause, before it closes the card. *)
Definition request_close (identifier : string) (s : ShellApprovals) : ShellApprovals :=
  let s := Approvals (ddel identifier (sa_pending s)) (sa_futures s) in
  if done (future_of identifier s) then s else set_future identifier CancelledFuture s.

(** ** [decide] *)

Record control_action := Action {
  ac_target_id : string;
  ac_route : option ControlRoute;
  ac_trusted_actor : string;
  ac_args : obj
}.

Definition owns (p : PendingApproval) (a : control_action) : bool :=
  match ac_route a with
  | None => false
  | Some r => bool_decide (cr_endpoint_id r = cr_endpoint_id (pa_route p)) &&
              bool_decide (cr_control_scope_key r = cr_control_scope_key (pa_route p)) &&
              bool_decide (cr_channel_kind r = cr_channel_kind (pa_route p)) &&
              bool_decide (ac_trusted_actor a = pa_actor p)
  end.

Definition expired (p : PendingApproval) (now : Z) : bool :=
  match pa_expires_at p with Some t => t <=? now | None => false end.

(** The choice that a button carries; a list or a dictionary is not hashable. *)
Definition choice_of (a : control_action) : res approval_error (option string) :=
  match jget "decision" (ac_args a) with
  | JStr s => Ok (if bool_decide (s = "accept" \/ s = "reject") then Some s else None)
  | JList _ | JObj _ => Raise Malformed
  | _ => Ok None
  end.

Definition not_owner : string := "Approval is unavailable or this actor/route is not its owner.".

Definition decide_approval (a : control_action) (now : Z) : M ShellApprovals approval_error string :=
  fun s =>
    match dget (ac_target_id a) (sa_pending s) with
    | None => (s, Ok not_owner)
    | Some p =>
        let answer d message := (set_future (pa_future p) (Resolved d) s, Ok message) in
        if done (future_of (pa_future p) s) || negb (owns p a) then (s, Ok not_owner)
        else if expired p now then answer (Failed "approval_expired" "Approval expired") "Approval expired"
        else
          match choice_of a with
          | Raise e => (s, Raise e)
          | Ok None =>
              let message := "Invalid approval decision from the originating channel" in
              answer (Failed "approval_unavailable" message) message
          | Ok (Some c) => answer (Pressed c) "Decision recorded for this operation only."
          end
    end.

(** ** [local_privileged] of [router.py] *)

(** The request that is approved. *)
Definition local_args (cmd cwd : string) (stdin : option string) : obj :=
  [("action", JStr "sudo"); ("cmd", JStr cmd); ("cwd", JStr cwd)] ++
  match stdin with Some s => [("stdin", JStr s)] | None => [] end.

(** What is handed to the shell, once the approval is given. *)
Definition local_command (cmd : string) : string :=
  "exec " +:+ shlex_join ["/usr/bin/sudo"; "-n"; "--"; "/bin/sh"; "-c"; cmd].

Definition local_approved (g : grant) (cmd : string) (now : Z) : res approval_error string :=
  raise_if gr_expires_at g <=? now with RemoteFailure "approval_expired" "Approval expired before execution" ;;
  Ok (local_command cmd).
