(* ===== verification/ApprovalSafety.v ===== *)
(** * Theorems of the approvals

    A request is granted only by its owner, on its own route, before it expires and at most
    once; the card shows exactly the command that will run, whatever characters it has. *)

From S2P Require Import Prelude Dict Utf8 PyValue Shlex Approval.
From Stdlib Require Import Ascii.
Open Scope Z_scope.
Open Scope stdpp_scope.

(** ** Reading a card *)

(** The lines of a text; there is at least one. *)
Fixpoint lines_of (l : list ascii) : list (list ascii) :=
  match l with
  | [] => [[]]
  | c :: l =>
      match lines_of l with
      | first :: rest => if Ascii.eqb c newline then [] :: first :: rest else (c :: first) :: rest
      | [] => [[c]]
      end
  end.

Fixpoint leading_run (l : list ascii) : nat :=
  match l with c :: l => if Ascii.eqb c backtick then S (leading_run l) else 0%nat | [] => 0%nat end.

(** The lines up to the first one with a run of at least [n] backticks, anywhere in it. *)
Fixpoint block_lines (n : nat) (ls : list (list ascii)) : option (list (list ascii) * list (list ascii)) :=
  match ls with
  | [] => None
  | l :: ls => if (n <=? longest_run 0 l)%nat then Some ([], ls) else prod_map (cons l) id <$> block_lines n ls
  end.

(** A reader of fenced blocks that ends a block at the first line that could end it. *)
Definition read_block (ls : list (list ascii)) : option (list (list ascii) * list (list ascii)) :=
  match ls with
  | first :: ls => if (3 <=? leading_run first)%nat then block_lines (leading_run first) ls else None
  | [] => None
  end.

Lemma lines_of_cons l : exists x xs, lines_of l = x :: xs.
Proof. induction l as [|c l (x & xs & E)]; cbn; [eauto|]. rewrite E. destruct (Ascii.eqb c newline); eauto. Qed.

Ltac case_lines l := let x := fresh "x" in let xs := fresh "xs" in let E := fresh "El" in destruct (lines_of_cons l) as (x & xs & E); rewrite ?E in *.

Lemma lines_of_app a b : lines_of (a ++ newline :: b) = lines_of a ++ lines_of b.
Proof.
  induction a as [|c a IH]; cbn [app lines_of].
  - case_lines b. done.
  - rewrite IH. case_lines a. cbn. by destruct (Ascii.eqb _ _).
Qed.

Lemma lines_of_single l : Forall (fun c => c <> newline) l -> lines_of l = [l].
Proof.
  induction 1 as [|c l Hc _ IH]; [done|]. cbn. rewrite IH. by destruct (Ascii.eqb_spec c newline).
Qed.

Lemma lines_of_inj a b : lines_of a = lines_of b -> a = b.
Proof.
  revert b. induction a as [|c a IH]; intros [|d b]; cbn; [done|case_lines b; by destruct (Ascii.eqb d newline)|case_lines a; by destruct (Ascii.eqb c newline)|].
  specialize (IH b). case_lines a. case_lines b.
  destruct (Ascii.eqb_spec c newline), (Ascii.eqb_spec d newline); intros [=]; subst; f_equal; by apply IH.
Qed.

Lemma longest_run_mono k l : (k <= longest_run k l)%nat.
Proof. revert k. induction l as [|c l IH]; intros k; cbn; [lia|]. destruct (Ascii.eqb c backtick); [|lia]. specialize (IH (S k)). lia. Qed.

Lemma longest_run_le k k' l : (k <= k')%nat -> (longest_run k l <= longest_run k' l)%nat.
Proof. revert k k'. induction l as [|c l IH]; intros k k' H; cbn; [lia|]. destruct (Ascii.eqb c backtick); [|lia]. apply IH. lia. Qed.

(** A line has no longer run than the text it comes from. *)
Lemma longest_run_lines k l : Forall (fun x => (longest_run 0 x <= longest_run k l)%nat) (lines_of l) /\
  (match lines_of l with x :: _ => longest_run k x <= longest_run k l | [] => True end)%nat.
Proof.
  revert k. induction l as [|c l IH]; intros k; cbn; [split; [|lia]; repeat constructor; cbn; lia|].
  pose proof (IH 0%nat) as [H1 H2]. pose proof (IH (S k)) as [H3 H4]. case_lines l.
  apply Forall_cons in H1 as [H0 H1]. apply Forall_cons in H3 as [_ H3].
  destruct (Ascii.eqb_spec c newline) as [-> | Hc]; [|destruct (Ascii.eqb c backtick) eqn:Eb].
  - replace (Ascii.eqb newline backtick) with false by done. split; [|cbn; lia]. repeat constructor; [cbn; lia|lia|].
    eapply Forall_impl; [exact H1|]. cbn. lia.
  - split; [|cbn; by rewrite Eb]. constructor; [|done]. cbn. rewrite Eb.
    etransitivity; [|exact H4]. apply longest_run_le. lia.
  - split; [|cbn; rewrite Eb; lia]. constructor; [cbn; rewrite Eb; lia|]. eapply Forall_impl; [exact H1|]. cbn. lia.
Qed.

Lemma block_lines_stop n body closing rest :
  Forall (fun l => (longest_run 0 l < n)%nat) body -> (n <= longest_run 0 closing)%nat ->
  block_lines n (body ++ closing :: rest) = Some (body, rest).
Proof.
  intros H Hc. induction H as [|l body Hl _ IH]; cbn.
  - apply Nat.leb_le in Hc. by rewrite Hc.
  - apply Nat.leb_gt in Hl. by rewrite Hl, IH.
Qed.

Lemma run_of_fence n : longest_run 0 (replicate n backtick) = n.
Proof.
  assert (H : forall k, longest_run k (replicate n backtick) = (k + n)%nat); [|apply H].
  induction n as [|n IH]; intros k; [cbn; lia|]. cbn [replicate longest_run]. rewrite Ascii.eqb_refl, IH. lia.
Qed.

Lemma leading_run_fence n l : (match l with c :: _ => Ascii.eqb c backtick = false | [] => True end) -> leading_run (replicate n backtick ++ l) = n.
Proof. intros H. induction n as [|n IH]; cbn; [|by rewrite IH]. destruct l; [done|cbn; by rewrite H]. Qed.

Definition plain_info (language : string) : Prop := Forall (fun c => c <> newline /\ c <> backtick) (chars language).

Lemma code_block_chars t language rest :
  chars (_code_block t language +:+ rest) =
  (replicate (fence_length t) backtick ++ chars language) ++ newline :: chars t ++ newline :: replicate (fence_length t) backtick ++ chars rest.
Proof. unfold _code_block, nl. rewrite !chars_app, !chars_of_chars, <- !app_assoc. done. Qed.

(** A block that is followed by the end of its line reads back as its text. *)
Lemma read_code_block t language rest :
  plain_info language ->
  read_block (lines_of (chars (_code_block t language +:+ nl +:+ rest))) = Some (lines_of (chars t), lines_of (chars rest)).
Proof.
  intros Hl. rewrite code_block_chars, lines_of_app, lines_of_app.
  replace (chars (nl +:+ rest)) with (newline :: chars rest) by done. rewrite lines_of_app.
  rewrite (lines_of_single (replicate (fence_length t) backtick ++ chars language)), (lines_of_single (replicate (fence_length t) backtick)).
  - unfold read_block. cbn [app]. rewrite leading_run_fence.
    + replace (3 <=? fence_length t)%nat with true by (symmetry; apply Nat.leb_le; unfold fence_length; lia).
      apply block_lines_stop; [|by rewrite run_of_fence].
      destruct (longest_run_lines 0 (chars t)) as [H _]. eapply Forall_impl; [exact H|]. intros x Hx. cbn in Hx. unfold fence_length. lia.
    + destruct (chars language) as [|c l] eqn:E; [done|]. unfold plain_info in Hl. rewrite E in Hl. apply Forall_cons in Hl as [[_ Hc] _]. by apply Ascii.eqb_neq.
  - apply Forall_replicate. done.
  - apply Forall_app. split; [apply Forall_replicate; done|]. eapply Forall_impl; [exact Hl|]. by intros c [? _].
Qed.

(** ** Runs *)

Inductive approval_stage := Delivering | Deciding (seconds : Z).
Record approval_flight := AFlight { fl_id : string; fl_grant : grant; fl_stage : approval_stage }.

Record asystem := ASys {
  as_state : ShellApprovals;
  as_flights : list approval_flight;
  as_opened : dict string (delivery_binding * grant);   (* history: what each identifier was drawn for *)
  as_presses : list (control_action * Z);               (* history: the calls of [decide], with their time *)
  as_granted : list string                              (* history: the requests that were granted *)
}.
Definition no_system : asystem := ASys no_approvals [] [] [] [].

Definition note_opened (identifier : string) (binding : option delivery_binding) (g : grant) (d : dict string (delivery_binding * grant)) :=
  match binding with Some b => dset identifier (b, g) d | None => d end.

(** What can wake a request in its stage. *)
Definition wakes (f : approval_flight) (w : wake) (s : ShellApprovals) : Prop :=
  match fl_stage f, w with
  | Delivering, (Undelivered | DeliveryFailed | Interrupted) => True
  | Deciding _, Interrupted => True
  | Deciding r, TimedOut => 0 < r \/ done (future_of (fl_id f) s) = false
  | Deciding _, Answered d => future_of (fl_id f) s = Resolved d
  | _, _ => False
  end.

(** [uuid4] does not repeat an identifier. *)
Inductive approval_step : asystem -> asystem -> Prop :=
| as_request s l o p h isoformat binding target args g identifier s' text :
    identifier ∉ dkeys o -> request_open isoformat binding target args g identifier s = (s', Ok text) ->
    approval_step (ASys s l o p h) (ASys s' (AFlight identifier g Delivering :: l) (note_opened identifier binding g o) p h)
| as_refused s l o p h isoformat binding target args g identifier s' e :
    identifier ∉ dkeys o -> request_open isoformat binding target args g identifier s = (s', Raise e) ->
    approval_step (ASys s l o p h) (ASys s' l (note_opened identifier binding g o) p h)
| as_delivered s l1 l2 o p h identifier g now :
    approval_step (ASys s (l1 ++ AFlight identifier g Delivering :: l2) o p h)
      (ASys s (l1 ++ AFlight identifier g (Deciding (remaining g now)) :: l2) o p h)
| as_woken s l1 f l2 o p h w :
    wakes f w s ->
    approval_step (ASys s (l1 ++ f :: l2) o p h)
      (ASys (request_close (fl_id f) s) (l1 ++ l2) o p (if is_ok (wake_outcome w).1 then fl_id f :: h else h))
| as_decided s l o p h a now :
    approval_step (ASys s l o p h) (ASys (decide_approval a now s).1 l o ((a, now) :: p) h).

(** ** What the table says *)

Definition future_at (id : string) (s : ShellApprovals) : option future := dget id (sa_futures s).

(** The owner of a request pressed a button of its card in time. *)
Definition owner_pressed (b : delivery_binding) (g : grant) (id choice : string) (a : control_action) (t : Z) : Prop :=
  ac_target_id a = id /\ jget "decision" (ac_args a) = JStr choice /\ ac_trusted_actor a = actor_of (db_reply_target b) /\
  t < gr_expires_at g /\
  exists r, ac_route a = Some r /\ cr_endpoint_id r = db_endpoint_id b /\ cr_control_scope_key r = db_control_scope_key b /\
    cr_channel_kind r = db_channel_kind b.

Record approvals_ok (S : asystem) : Prop := {
  ao_pending : forall id p, dget id (sa_pending (as_state S)) = Some p ->
    exists b g, dget id (as_opened S) = Some (b, g) /\ p = Pending (route_of b) (actor_of (db_reply_target b)) id (Some (gr_expires_at g)) /\
      actor_of (db_reply_target b) <> "";
  ao_futures : forall id, is_Some (future_at id (as_state S)) -> id ∈ dkeys (as_opened S);
  ao_pressed : forall id c, future_at id (as_state S) = Some (Resolved (Pressed c)) ->
    exists b g a t, dget id (as_opened S) = Some (b, g) /\ (a, t) ∈ as_presses S /\ owner_pressed b g id c a t;
  ao_granted : forall id, id ∈ as_granted S -> future_at id (as_state S) = Some (Resolved (Pressed "accept"));
  ao_known : forall id, id ∈ (fl_id <$> as_flights S) ++ as_granted S -> id ∈ dkeys (as_opened S);
  ao_once : NoDup ((fl_id <$> as_flights S) ++ as_granted S)
}.

(** ** The operations *)

(** Opening registers at most the new identifier. *)
Lemma request_open_spec isoformat binding target args g id s s' r :
  request_open isoformat binding target args g id s = (s', r) ->
  (s' = s /\ is_ok r = false) \/
  exists b, binding = Some b /\ actor_of (db_reply_target b) <> "" /\ s' = register_approval id b (actor_of (db_reply_target b)) g s.
Proof.
  unfold request_open. destruct binding as [b|]; [|intros [= <- <-]; by left].
  unfold sbind at 1, sguard. destruct (str_truthy (actor_of (db_reply_target b))) eqn:Ea; cbn; [|intros [= <- <-]; by left].
  destruct (dget "action" args) as [action|]; [|intros [= <- <-]; by left].
  intros H. right. exists b. apply str_truthy_spec in Ea. split_and!; [done..|].
  revert H. unfold sbind, smodify, slift. destruct (card_text target action args g); [destruct (isoformat _)|]; intros [= <- _]; done.
Qed.

(** A decision resolves at most one waiting future, and says whose press it was. *)
Lemma decide_spec a now s :
  (decide_approval a now s).1 = s \/
  exists p d, dget (ac_target_id a) (sa_pending s) = Some p /\ future_of (pa_future p) s = Waiting /\
    (decide_approval a now s).1 = set_future (pa_future p) (Resolved d) s /\
    forall c, d = Pressed c -> owns p a = true /\ expired p now = false /\ jget "decision" (ac_args a) = JStr c.
Proof.
  unfold decide_approval. destruct (dget _ _) as [p|]; [|by left].
  destruct (future_of (pa_future p) s) eqn:Ef; [|by left..]. cbn [done orb].
  destruct (owns p a) eqn:Eo; [|by left]. destruct (expired p now) eqn:Ex; cbn.
  { right. eexists p, _. by split_and!. }
  unfold choice_of. destruct (jget "decision" (ac_args a)) as [| | |c| |] eqn:Ej; cbn; try (by left); try (right; eexists p, _; by split_and!).
  case_bool_decide; cbn; right; eexists p, _; split_and!; try done; intros c0 [=]; subst; done.
Qed.

Lemma close_pending id s id' : dget id' (sa_pending (request_close id s)) = if decide (id = id') then None else dget id' (sa_pending s).
Proof. unfold request_close. destruct (done _); apply dget_ddel. Qed.

(** Closing a request keeps every decision. *)
Lemma close_future id s id' f :
  future_at id' (request_close id s) = Some f -> f = CancelledFuture \/ future_at id' s = Some f.
Proof.
  unfold request_close, future_at, set_future. destruct (done _); cbn; [by right|]. rewrite dget_dset. case_decide; [intros [= <-]; by left|by right].
Qed.

Lemma close_keeps id s id' d : future_at id' s = Some (Resolved d) -> future_at id' (request_close id s) = Some (Resolved d).
Proof.
  unfold request_close, future_of, future_at, set_future. cbn. destruct (decide (id = id')) as [-> | Hne].
  - intros E. rewrite E. cbn. exact E.
  - intros E. destruct (done _); cbn; [done|]. by rewrite dget_dset_ne.
Qed.

Lemma set_future_at id f s id' : future_at id' (set_future id f s) = if decide (id = id') then Some f else future_at id' s.
Proof. unfold future_at, set_future. cbn. by rewrite dget_dset. Qed.

(** A resolved future is not resolved again. *)
Lemma decide_keeps a now s id d : future_at id s = Some (Resolved d) -> future_at id (decide_approval a now s).1 = Some (Resolved d).
Proof.
  intros E. destruct (decide_spec a now s) as [-> | (p & d' & _ & Hw & -> & _)]; [done|].
  rewrite set_future_at. case_decide; [|done]. subst. unfold future_of, future_at in *. rewrite E in Hw. done.
Qed.

(** ** The invariant *)

Ltac fields := cbn [as_state as_flights as_opened as_presses as_granted] in *.

Lemma note_opened_other id binding g o id' x : id ∉ dkeys o -> dget id' o = Some x -> dget id' (note_opened id binding g o) = Some x.
Proof.
  intros Hf E. destruct binding as [b|]; [|done]. cbn. rewrite dget_dset_ne; [done|]. intros ->. apply Hf, dget_is_Some. eauto.
Qed.

Lemma note_opened_keys id binding g o id' : id' ∈ dkeys o -> id' ∈ dkeys (note_opened id binding g o).
Proof. destruct binding; [|done]. intros H. apply elem_dkeys_dset. by right. Qed.

(** Opening a request, or failing to. *)
Lemma opened_ok s l o p h isoformat binding target args g id s' r :
  approvals_ok (ASys s l o p h) -> id ∉ dkeys o ->
  request_open isoformat binding target args g id s = (s', r) ->
  approvals_ok (ASys s' (if is_ok r then AFlight id g Delivering :: l else l) (note_opened id binding g o) p h).
Proof.
  intros [H1 H2 H3 H4 H5 H6] Hf E. fields.
  assert (Hfut : future_at id s = None) by (destruct (future_at id s) eqn:X; [exfalso; apply Hf, H2; by eexists|done]).
  apply request_open_spec in E as [[-> Er] | (b & -> & Hb & ->)].
  { rewrite Er. constructor; fields; [|naive_solver eauto using note_opened_keys| |done|naive_solver eauto using note_opened_keys|done].
    - intros id' q Eq. destruct (H1 _ _ Eq) as (b & g' & ? & ?). exists b, g'. split; [by apply note_opened_other|done].
    - intros id' c Ec. destruct (H3 _ _ Ec) as (b & g' & a & t & ? & ?). exists b, g', a, t. split; [by apply note_opened_other|done]. }
  assert (Hk : forall id', id' ∈ (fl_id <$> l) ++ h -> id' <> id) by (intros id' X ->; by apply Hf, H5).
  assert (Hreg : forall id', future_at id' (register_approval id b (actor_of (db_reply_target b)) g s) = if decide (id = id') then Some Waiting else future_at id' s) by (intros id'; apply dget_dset).
  constructor; fields.
  - intros id' q. cbn [register_approval sa_pending]. rewrite dget_dset. case_decide as Hd.
    + intros [= <-]. subst id'. exists b, g. unfold note_opened. by rewrite dget_dset_eq.
    + intros Eq. destruct (H1 _ _ Eq) as (b' & g' & ? & ?). exists b', g'. unfold note_opened. by rewrite dget_dset_ne.
  - intros id'. rewrite Hreg. intros X. apply elem_dkeys_dset. case_decide as Hd; [by left|]. right. by apply H2.
  - intros id' c. rewrite Hreg. case_decide as Hd; [done|]. intros Ec. destruct (H3 _ _ Ec) as (b' & g' & a & t & ? & ?). exists b', g', a, t. unfold note_opened. by rewrite dget_dset_ne.
  - intros id' Hid. rewrite Hreg. case_decide as Hd; [|by apply H4]. subst id'. exfalso. apply (Hk id); [set_solver|done].
  - intros id' Hid. apply elem_dkeys_dset. destruct (is_ok r); [|right; by apply H5]. cbn in Hid. apply elem_of_cons in Hid as [-> | Hid]; [by left|right; by apply H5].
  - destruct (is_ok r); [|done]. cbn. constructor; [|done]. intros X. by apply (Hk id).
Qed.

Lemma owner_pressed_intro b g id c a t p :
  p = Pending (route_of b) (actor_of (db_reply_target b)) id (Some (gr_expires_at g)) ->
  ac_target_id a = id -> owns p a = true -> expired p t = false -> jget "decision" (ac_args a) = JStr c -> owner_pressed b g id c a t.
Proof.
  intros -> Hid Ho Hx Hc. unfold owns in Ho. cbn in *. destruct (ac_route a) as [r|] eqn:Er; [|done].
  apply andb_true_iff in Ho as [Ho Ha]. apply andb_true_iff in Ho as [Ho Hk]. apply andb_true_iff in Ho as [He Hs].
  apply bool_decide_eq_true in Ha, Hk, He, Hs. apply Z.leb_gt in Hx. unfold owner_pressed. split_and!; [done..|]. by exists r.
Qed.

Lemma decided_ok s l o p h a now :
  approvals_ok (ASys s l o p h) -> approvals_ok (ASys (decide_approval a now s).1 l o ((a, now) :: p) h).
Proof.
  intros [H1 H2 H3 H4 H5 H6]. fields.
  assert (H3' : forall id c, future_at id s = Some (Resolved (Pressed c)) -> exists b g a' t, dget id o = Some (b, g) /\ (a', t) ∈ (a, now) :: p /\ owner_pressed b g id c a' t).
  { intros id c Ec. destruct (H3 _ _ Ec) as (b & g & a' & t & ? & ? & ?). exists b, g, a', t. split_and!; [done|by right|done]. }
  assert (H4' : forall id, id ∈ h -> future_at id (decide_approval a now s).1 = Some (Resolved (Pressed "accept"))) by (intros id Hid; by apply decide_keeps, H4).
  destruct (decide_spec a now s) as [E | (q & d & Eq & Hw & E & Hd)]; rewrite E in *; constructor; fields; try done.
  - destruct (H1 _ _ Eq) as (b & g & Eo & -> & _). intros id X. rewrite set_future_at in X. cbn in X. case_decide as Hi; [|by apply H2].
    subst id. apply dget_is_Some. by eexists.
  - destruct (H1 _ _ Eq) as (b & g & Eo & Hq & _). intros id c X. rewrite set_future_at in X. case_decide as Hi; [|by apply H3'].
    injection X as ->. destruct (Hd c) as (Ho & Hx & Hc); [done|]. subst id. rewrite Hq in *. cbn [pa_future] in *.
    exists b, g, a, now. split_and!; [done|by left|]. eapply owner_pressed_intro; [reflexivity|done..].
Qed.

Lemma woken_ok s l1 f l2 o p h w :
  wakes f w s -> approvals_ok (ASys s (l1 ++ f :: l2) o p h) ->
  approvals_ok (ASys (request_close (fl_id f) s) (l1 ++ l2) o p (if is_ok (wake_outcome w).1 then fl_id f :: h else h)).
Proof.
  intros Hw [H1 H2 H3 H4 H5 H6]. fields. set (h' := if is_ok (wake_outcome w).1 then fl_id f :: h else h).
  rewrite fmap_app, fmap_cons in H5, H6. rewrite <- app_assoc, <- app_comm_cons in H5, H6.
  rewrite <- Permutation_middle in H6. apply NoDup_cons in H6 as [Hn H6].
  assert (Hh : forall id, id ∈ h' -> id = fl_id f \/ id ∈ h) by (intros id; unfold h'; destruct (is_ok _); [by rewrite elem_of_cons|by right]).
  assert (Hg : fl_id f ∈ h' -> future_at (fl_id f) s = Some (Resolved (Pressed "accept"))).
  { intros Hin. unfold h' in Hin. destruct (is_ok _) eqn:Eok; [|by apply H4]. destruct w as [| | | |d]; try done.
    destruct d as [c|]; [|done]. cbn in Eok. case_decide; [|done]. subst c.
    unfold wakes in Hw. destruct (fl_stage f); [done|]. unfold future_of, future_at in *. by destruct (dget _ _); cbn in Hw; [subst|]. }
  constructor; fields.
  - intros id q. rewrite close_pending. case_decide; [done|]. apply H1.
  - intros id [x Hx]. unfold request_close, future_at in Hx. destruct (done _) in Hx; [apply H2; by exists x|]. cbn in Hx. rewrite dget_dset in Hx.
    case_decide; [subst id; apply H5; set_solver|apply H2; by exists x].
  - intros id c Hx. apply close_future in Hx as [|Hx]; [done|]. by apply H3.
  - intros id Hin. apply close_keeps. destruct (decide (id = fl_id f)) as [-> | Hne]; [by apply Hg|]. apply Hh in Hin as [|Hin]; [done|by apply H4].
  - intros id. rewrite fmap_app, elem_of_app. intros [Hin | Hin]; [apply H5; set_solver|]. apply Hh in Hin as [-> | Hin]; apply H5; set_solver.
  - rewrite fmap_app, <- app_assoc. unfold h'. destruct (is_ok _); [|done].
    rewrite (app_assoc (fl_id <$> l1)), <- Permutation_middle, <- app_assoc. by constructor.
Qed.

Lemma approval_step_ok S S' : approval_step S S' -> approvals_ok S -> approvals_ok S'.
Proof.
  intros [] Hok.
  - by eapply (opened_ok _ _ _ _ _ _ _ _ _ _ _ _ (Ok _) Hok).
  - by eapply (opened_ok _ _ _ _ _ _ _ _ _ _ _ _ (Raise _) Hok).
  - destruct Hok as [H1 H2 H3 H4 H5 H6]. constructor; fields; rewrite ?fmap_app, ?fmap_cons in *; done.
  - by apply woken_ok.
  - by apply decided_ok.
Qed.

Lemma approvals_reachable S : rtc approval_step no_system S -> approvals_ok S.
Proof.
  apply (rtc_ind_r (R := approval_step) approvals_ok no_system); [|intros x y _ Hs Hx; by eapply approval_step_ok].
  constructor; cbn; try done; try (by intros id ?%is_Some_None); try (by intros ? ?%elem_of_nil); constructor.
Qed.

Lemma approval_step_keeps S S' id d :
  approval_step S S' -> approvals_ok S -> future_at id (as_state S) = Some (Resolved d) -> future_at id (as_state S') = Some (Resolved d).
Proof.
  assert (Hreg : forall s l o p h binding isoformat target args g i s' r, approvals_ok (ASys s l o p h) -> i ∉ dkeys o ->
    request_open isoformat binding target args g i s = (s', r) -> future_at id s = Some (Resolved d) -> future_at id s' = Some (Resolved d)).
  { intros * Hok Hf E Hd. apply request_open_spec in E as [[-> _] | (b & _ & _ & ->)]; [done|]. unfold future_at in *. cbn.
    rewrite dget_dset_ne; [done|]. intros ->. apply Hf, (ao_futures _ Hok). by eexists. }
  intros [] Hok Hd; fields; [by eauto| by eauto|done|by apply close_keeps|by apply decide_keeps].
Qed.

(** ** Claims *)

(** C22: a privileged request is granted at most once, and only after the human who owns its
    conversation accepted it on the route it came from, before it expired. *)
Theorem approval_granted_by_owner S :
  rtc approval_step no_system S ->
  NoDup (as_granted S) /\
  forall id, id ∈ as_granted S ->
    exists b g a t, dget id (as_opened S) = Some (b, g) /\ (a, t) ∈ as_presses S /\ owner_pressed b g id "accept" a t.
Proof.
  intros H. apply approvals_reachable in H as [_ _ H3 H4 _ H6]. apply NoDup_app in H6 as (_ & _ & H6).
  split; [done|]. intros id Hid. by apply H3, H4.
Qed.

(** The first decision on a request stands: whatever happens later, its future keeps that
    result, and unless it was an acceptance the request is never granted. *)
Theorem first_decision_stands S S' id d :
  rtc approval_step no_system S -> dget id (sa_futures (as_state S)) = Some (Resolved d) -> rtc approval_step S S' ->
  dget id (sa_futures (as_state S')) = Some (Resolved d) /\ (id ∈ as_granted S' -> d = Pressed "accept").
Proof.
  intros Hr Hd Hs. assert (Hr' : rtc approval_step no_system S') by (by etransitivity).
  assert (E : dget id (sa_futures (as_state S')) = Some (Resolved d)).
  { clear Hr'. revert S' Hs. apply (rtc_ind_r (R := approval_step) (fun x => dget id (sa_futures (as_state x)) = Some (Resolved d)) S Hd).
    intros x y Hx Hxy IH. eapply approval_step_keeps; [exact Hxy| |exact IH]. apply approvals_reachable. by etransitivity. }
  split; [done|]. intros Hg. apply (ao_granted _ (approvals_reachable _ Hr')) in Hg. unfold future_at in Hg. congruence.
Qed.

Lemma sapp_assoc (a b c : string) : (a +:+ b) +:+ c = a +:+ b +:+ c.
Proof. induction a as [|x a IH]; [done|]. exact (f_equal (String x) IH). Qed.

(** The card up to the block of the command, and from its end. *)
Lemma card_text_parts target action args g text :
  card_text target action args g = Ok text ->
  exists command input directory, approved_command args = Ok command /\ input_text args = Ok input /\
    text = card_preamble target action directory g +:+ "Command:" +:+ nl +:+ _code_block command "sh" +:+ card_tail input.
Proof.
  unfold card_text. destruct (approved_command args) as [command|]; [|done]. cbn.
  destruct (card_directory args) as [directory|]; [|done]. cbn. destruct (input_text args) as [input|]; [|done]. cbn.
  intros [= <-]. by exists command, input, directory.
Qed.

Lemma sh_info : plain_info "sh".
Proof. repeat constructor; intros E; discriminate E. Qed.

(** What follows the command, after the line of the closing fence. *)
Definition after_command (args : obj) : string :=
  nl +:+ match jget "stdin" args with
         | JStr s => "Standard input (" +:+ py_str (JInt (Z.of_nat (length (string_bytes s)))) +:+
                     " UTF-8 bytes, then EOF):" +:+ nl +:+ _code_block s "" +:+ nl +:+ nl
         | _ => ""
         end +:+ "Approval applies to this request only. Execution results are reported separately.".

Lemma card_tail_after args input : input_text args = Ok input -> card_tail input = nl +:+ after_command args.
Proof.
  unfold input_text, card_tail, after_command. destruct (jget "stdin" args); intros [= <-]; [done|].
  by rewrite !sapp_assoc.
Qed.

(** [shown t]: the text of [card] holds a fenced block that reads back as exactly [t]. *)
Definition shows (card label language t : string) : Prop :=
  exists head rest, card = head +:+ label +:+ nl +:+ _code_block t language +:+ nl +:+ rest /\
    read_block (lines_of (chars (_code_block t language +:+ nl +:+ rest))) = Some (lines_of (chars t), lines_of (chars rest)) /\
    forall other, lines_of (chars other) = lines_of (chars t) -> other = t.

Lemma shows_intro head label language t rest :
  plain_info language -> shows (head +:+ label +:+ nl +:+ _code_block t language +:+ nl +:+ rest) label language t.
Proof.
  intros Hl. exists head, rest. split_and!; [done|by apply read_code_block|].
  intros other E. apply lines_of_inj in E. by rewrite <- (of_chars_chars other), E, of_chars_chars.
Qed.

Lemma card_shows target action args g text :
  card_text target action args g = Ok text ->
  exists command, approved_command args = Ok command /\ shows text "Command:" "sh" command /\
    forall s, jget "stdin" args = JStr s -> exists n, shows text ("Standard input (" +:+ n +:+ " UTF-8 bytes, then EOF):") "" s.
Proof.
  intros H. apply card_text_parts in H as (command & input & directory & Hc & Hi & ->).
  exists command. split; [done|]. rewrite (card_tail_after _ _ Hi). split.
  - apply shows_intro, sh_info.
  - intros s Es. unfold after_command. rewrite Es. exists (py_str (JInt (Z.of_nat (length (string_bytes s))))).
    pose proof (shows_intro (card_preamble target action directory g +:+ "Command:" +:+ nl +:+ _code_block command "sh" +:+ nl +:+ nl)
      ("Standard input (" +:+ py_str (JInt (Z.of_nat (length (string_bytes s)))) +:+ " UTF-8 bytes, then EOF):") "" s
      (nl +:+ "Approval applies to this request only. Execution results are reported separately.") (List.Forall_nil _)) as H.
    rewrite !sapp_assoc in H. rewrite !sapp_assoc. exact H.
Qed.

(** C24: a card shows what will run: its blocks of the command and of the standard input,
    read up to the first line that could end them, are exactly the approved texts, whatever
    backticks or lines these have. *)
Theorem approval_card_shows_request target action args g text :
  card_text target action args g = Ok text ->
  exists command, approved_command args = Ok command /\ shows text "Command:" "sh" command /\
    forall s, jget "stdin" args = JStr s -> exists n, shows text ("Standard input (" +:+ n +:+ " UTF-8 bytes, then EOF):") "" s.
Proof. apply card_shows. Qed.

(** The local host runs what its card showed: the approved text is the one argument of
    the shell that [sudo] starts, and it is not started once the approval expired. *)
Theorem local_sudo_runs_what_was_shown cmd cwd stdin g now command :
  local_approved g cmd now = Ok command ->
  now < gr_expires_at g /\
  shlex_split command = Some ["exec"; "/usr/bin/sudo"; "-n"; "--"; "/bin/sh"; "-c"; cmd] /\
  exists text, card_text 0 (JStr "sudo") (local_args cmd cwd stdin) g = Ok text /\ shows text "Command:" "sh" cmd.
Proof.
  unfold local_approved. intros H. apply raise_if_ok in H as [Hx [= <-]]. apply Z.leb_gt in Hx. split; [done|]. split.
  - exact (shlex_split_join ["exec"; "/usr/bin/sudo"; "-n"; "--"; "/bin/sh"; "-c"; cmd]).
  - assert (E : exists text, card_text 0 (JStr "sudo") (local_args cmd cwd stdin) g = Ok text) by (destruct stdin; by eexists).
    destruct E as [text E]. exists text. split; [done|]. apply card_shows in E as (c & Hc & Hs & _).
    assert (c = cmd) as -> by (destruct stdin; by injection Hc). done.
Qed.

(** ** Witnesses *)

Definition binding0 : delivery_binding := Binding [("user_id", JStr "ann")] "chat" "telegram" "scope" "turn-1".
Definition grant0 : grant := Grant "op-1" "worker" "epoch" 600.
Definition iso0 (t : Z) : option string := Some "2026-01-01T00:00:00+00:00".
Definition args0 : obj := local_args "ls ```" "/" (Some "in").
Definition press0 (choice : string) : control_action := Action "id-1" (Some (route_of binding0)) "ann" [("decision", JStr choice)].

Definition opened0 : ShellApprovals := (request_open iso0 (Some binding0) 0 args0 grant0 "id-1" no_approvals).1.
Definition decided0 (choice : string) : asystem :=
  ASys (decide_approval (press0 choice) 10 opened0).1 [AFlight "id-1" grant0 (Deciding 599)] [("id-1", (binding0, grant0))]
    [(press0 choice, 10)] [].
Definition closed0 (choice : string) : asystem :=
  ASys (request_close "id-1" (as_state (decided0 choice))) [] [("id-1", (binding0, grant0))] [(press0 choice, 10)]
    (if is_ok (wake_outcome (Answered (Pressed choice))).1 then ["id-1"] else []).

Lemma decided0_reachable choice : rtc approval_step no_system (decided0 choice).
Proof.
  eapply rtc_l; [apply (as_request no_approvals [] [] [] [] iso0 (Some binding0) 0 args0 grant0 "id-1" opened0 _ ltac:(apply not_elem_of_nil) eq_refl)|].
  eapply rtc_l; [apply (as_delivered _ [] [] _ _ _ "id-1" grant0 1)|].
  apply rtc_once. apply as_decided.
Qed.

Lemma closed0_step choice : choice = "accept" \/ choice = "reject" -> approval_step (decided0 choice) (closed0 choice).
Proof.
  intros Hc. refine (as_woken _ [] (AFlight "id-1" grant0 (Deciding 599)) [] _ _ [] (Answered (Pressed choice)) _).
  destruct Hc as [-> | ->]; vm_compute; reflexivity.
Qed.

Lemma approval_granted_by_owner_witness :
  as_granted (closed0 "accept") = ["id-1"] /\
  exists b g a t, dget "id-1" (as_opened (closed0 "accept")) = Some (b, g) /\ (a, t) ∈ as_presses (closed0 "accept") /\ owner_pressed b g "id-1" "accept" a t.
Proof.
  split; [reflexivity|].
  apply (approval_granted_by_owner (closed0 "accept")); [|vm_compute; left].
  eapply rtc_r; [apply decided0_reachable|apply closed0_step; by left].
Defined.

Lemma first_decision_stands_witness :
  dget "id-1" (sa_futures (as_state (closed0 "reject"))) = Some (Resolved (Pressed "reject")) /\
  ("id-1" ∈ as_granted (closed0 "reject") -> Pressed "reject" = Pressed "accept").
Proof.
  apply (first_decision_stands (decided0 "reject") (closed0 "reject") "id-1" (Pressed "reject")); [apply decided0_reachable|vm_compute; reflexivity|].
  apply rtc_once, closed0_step. by right.
Defined.

Lemma approval_card_shows_request_witness :
  exists text, card_text 0 (JStr "sudo") args0 grant0 = Ok text /\ exists command, approved_command args0 = Ok command /\ shows text "Command:" "sh" command.
Proof.
  eexists. split; [vm_compute; reflexivity|].
  edestruct (approval_card_shows_request 0 (JStr "sudo") args0 grant0) as (command & H1 & H2 & _); [vm_compute; reflexivity|].
  exists command. split; [exact H1|exact H2].
Defined.

Lemma local_sudo_runs_what_was_shown_witness :
  exists command, local_approved grant0 "ls; rm 'a b'" 10 = Ok command /\
    shlex_split command = Some ["exec"; "/usr/bin/sudo"; "-n"; "--"; "/bin/sh"; "-c"; "ls; rm 'a b'"].
Proof.
  eexists. split; [vm_compute; reflexivity|].
  apply (local_sudo_runs_what_was_shown "ls; rm 'a b'" "/" None grant0 10). vm_compute. reflexivity.
Defined.

(** A request with arguments that cannot be shown leaves its entry in the table: the entry is
    made before the card is built, and the [finally] clause guards only what follows. *)
Example malformed_request_leaves_entry :
  let '(s, r) := request_open iso0 (Some binding0) 1 [("action", JStr "sudo"); ("cmd", JNull)] grant0 "id-2" no_approvals in
  r = Raise Malformed /\ dkeys (sa_pending s) = ["id-2"].
Proof. vm_compute. by split. Qed.
