(* ===== verification/Connection.v ===== *)
(** * Connections between host and worker

    [transport.py], [client.py] and the coroutine [_connection] of [worker.py]: frames with
    their identifiers, the handshake, the matching of replies with requests on the host, and
    the admission of requests on the worker.  The native channel is a parameter: what it
    calls back with is an argument of the operations.  msgpack, the envelope of
    [_pal_shell_rpc] and Ed25519 are parameters too. *)

From S2P Require Import Prelude Dict Utf8 Sha256 PyValue JsonText Protocol.
From Stdlib Require Import Ascii.
Open Scope Z_scope.

(** ** Frames, [transport.py] *)

(** [struct.unpack('!Q', bytes)] *)
Definition be_value (l : bytes) : Z := foldl (fun acc b => acc * 256 + b) 0 l.

Definition legacy_frame (frame : bytes) : bool := bool_decide (take 4 frame ∈ [lit "DRPC"; lit "DRPR"]).

(** The frame of [Channel.send], before the native call. *)
Definition send_frame (request_id : Z) (payload : bytes) : res RemoteError bytes :=
  let frame := if request_id =? 0 then payload else be 8 request_id ++ payload in
  raise_if MAX_FRAME <? Z.of_nat (length frame) with remote "frame_limit" ;;
  Ok frame.

(** [Channel.receive], when the queue gave it a frame. *)
Definition parse_frame (frame : bytes) : res RemoteError (Z * bytes) :=
  if legacy_frame frame then Ok (0, frame)
  else if Z.of_nat (length frame) <? 9 then Raise (remote_unknown "invalid_frame")
  else
    let identifier := be_value (take 8 frame) in
    if identifier =? 0 then Raise (remote_unknown "invalid_frame") else Ok (identifier, drop 8 frame).

Record Channel := Chan {
  ch_frames : list (option bytes);    (* [asyncio.Queue(33)]; [None] ends it *)
  ch_closed : bool;
  ch_close_asked : bool               (* [wire.channel_close] was called *)
}.
Definition new_channel : Channel := Chan [] false false.
Definition QUEUE : nat := 33.

Inductive channel_event := ClosedEvent | FrameEvent (data : bytes).

(** [Channel._deliver], for the events of a connected socket. *)
Definition channel_deliver (ev : channel_event) (c : Channel) : Channel :=
  let full := (QUEUE <=? length (ch_frames c))%nat in
  match ev with
  | ClosedEvent => Chan (if full then ch_frames c else ch_frames c ++ [None]) true (ch_close_asked c)
  | FrameEvent data =>
      if ch_closed c then c
      else if full then Chan (ch_frames c) (ch_closed c) true
      else Chan (ch_frames c ++ [Some data]) (ch_closed c) (ch_close_asked c)
  end.

(** [Channel.receive]; [None]: it waits. *)
Definition channel_receive (c : Channel) : option (Channel * res RemoteError (Z * bytes)) :=
  match ch_frames c with
  | [] => if ch_closed c then Some (c, Raise (remote_unknown "transport_lost")) else None
  | frame :: rest =>
      let c := Chan rest (ch_closed c) (ch_close_asked c) in
      Some (c, match frame with None => Raise (remote_unknown "transport_lost") | Some frame => parse_frame frame end)
  end.

(** ** The host's end, [client.py] *)

Inductive reply_future := Unanswered | Reply (response : obj) | Refused (e : RemoteError) | Dropped.
Definition answered (f : reply_future) : bool := match f with Unanswered => false | _ => true end.

Inductive exchange_error := ExchangeRemote (e : RemoteError) | MalformedReply | ExchangeCancelled.

Record Connection := Conn {
  cn_epoch : option string;
  cn_channel : option bool;           (* [self.channel]: whether it is closed *)
  cn_reading : bool;                  (* the task [self.reader] runs *)
  cn_closed : bool;
  cn_pending : dict Z Z;              (* identifier to exchange *)
  cn_futures : dict Z reply_future;   (* the futures, by exchange *)
  cn_sequence : Z
}.

Definition new_connection (epoch : option string) : Connection := Conn epoch None false false [] [] 0.

Definition set_reply (n : Z) (f : reply_future) (c : Connection) : Connection :=
  Conn (cn_epoch c) (cn_channel c) (cn_reading c) (cn_closed c) (cn_pending c) (dset n f (cn_futures c)) (cn_sequence c).
Definition set_closed (c : Connection) : Connection :=
  Conn (cn_epoch c) (cn_channel c) (cn_reading c) true (cn_pending c) (cn_futures c) (cn_sequence c).
Definition future_of_exchange (n : Z) (c : Connection) : reply_future := default Dropped (dget n (cn_futures c)).

(** [connect], when the socket is connected. *)
Definition open_channel (c : Connection) : Connection :=
  Conn (cn_epoch c) (Some false) true (cn_closed c) (cn_pending c) (cn_futures c) (cn_sequence c).

Definition IN_FLIGHT : Z := 32.

(** The [finally] clause of [_exchange]. *)
Definition exchange_end (identifier n : Z) (c : Connection) : Connection :=
  let c := Conn (cn_epoch c) (cn_channel c) (cn_reading c) (cn_closed c) (ddel identifier (cn_pending c)) (cn_futures c) (cn_sequence c) in
  if answered (future_of_exchange n c) then c else set_reply n Dropped c.

Definition exchange_id (legacy : bool) (n : Z) : Z := if legacy then 0 else n.

Section codec.
Variable packb : json -> bytes.
Variable unpackb : bytes -> option json.
Variable response_payload : bytes -> option bytes.  (* [None]: [RuntimeError] *)

(** [Channel.request]; [native_ok]: the native call did not raise. *)
Definition channel_request (native_ok : bool) (c : Connection) : res RemoteError unit :=
  raise_if bool_decide (cn_channel c = Some true) with remote "transport_closed" ;;
  raise_if negb native_ok with remote "transport_capacity" ;;
  Ok tt.

(** [_exchange], up to the await; the result is the number of the exchange. *)
Definition exchange_begin (method : string) (params : obj) (legacy native_ok : bool) : M Connection RemoteError Z :=
  fun c =>
    if cn_closed c || bool_decide (cn_channel c <> Some false) then (c, Raise (remote "backend_unavailable"))
    else if IN_FLIGHT <=? Z.of_nat (length (cn_pending c)) then (c, Raise (remote "transport_capacity"))
    else
      let n := cn_sequence c + 1 in
      let identifier := exchange_id legacy n in
      let c := Conn (cn_epoch c) (cn_channel c) (cn_reading c) (cn_closed c) (dset identifier n (cn_pending c))
                 (dset n Unanswered (cn_futures c)) n in
      match (let! _ := encode packb (JObj [("method", JStr method); ("params", JObj params)]) in channel_request native_ok c) with
      | Ok _ => (c, Ok n)
      | Raise e => (exchange_end identifier n c, Raise e)
      end.

(** [request]: the epoch of the connection is added. *)
Definition request_params (params : obj) (c : Connection) : obj :=
  dset "runtime_epoch" (match cn_epoch c with Some e => JStr e | None => JNull end) params.

(** [None]: [RuntimeError] or [ValueError]. *)
Definition decode_reply (frame : bytes) : option (res RemoteError obj) :=
  match response_payload frame with Some raw => decode unpackb raw | None => None end.

(** [needle in haystack] *)
Fixpoint prefix_of (p l : list ascii) : bool :=
  match p, l with [], _ => true | a :: p, b :: l => Ascii.eqb a b && prefix_of p l | _, [] => false end.
Fixpoint infix_of (p l : list ascii) : bool :=
  prefix_of p l || match l with [] => false | _ :: l => infix_of p l end.
Definition contains (haystack needle : string) : bool := infix_of (chars needle) (chars haystack).

Definition transport_error (error : string) : RemoteError :=
  remote_error (if contains error "timed out" then "transport_timeout" else "transport_lost")
    (if contains error "before send" then "not_started" else "unknown") "".

(** [_response], the callback of the channel. *)
Definition response_future (frame : bytes) (error : string) : reply_future :=
  if str_truthy error then Refused (transport_error error)
  else match decode_reply frame with Some (Ok d) => Reply d | _ => Refused (remote_unknown "invalid_response") end.

Definition _response (identifier : Z) (frame : bytes) (error : string) (c : Connection) : Connection :=
  match dget identifier (cn_pending c) with
  | None => c
  | Some n => if answered (future_of_exchange n c) then c else set_reply n (response_future frame error) c
  end.

(** The [finally] clause of [_receive]. *)
Definition stop_reading (failure : RemoteError) (c : Connection) : Connection :=
  let c := Conn (cn_epoch c) (cn_channel c) false true (cn_pending c) (cn_futures c) (cn_sequence c) in
  foldl (fun c p => if answered (future_of_exchange p.2 c) then c else set_reply p.2 (Refused failure) c) c (cn_pending c).

(** One turn of the loop of [_receive]; [Raise e] ends it with the failure [e]. *)
Definition read_frame (identifier : Z) (frame : bytes) : M Connection RemoteError unit :=
  fun c =>
    match dget identifier (cn_pending c) with
    | None => if cn_sequence c <? identifier then (c, Raise (remote_unknown "invalid_response")) else (c, Ok tt)
    | Some n =>
        if answered (future_of_exchange n c) then (c, Raise (remote_unknown "invalid_response"))
        else
          match decode_reply frame with
          | Some (Ok d) => (set_reply n (Reply d) c, Ok tt)
          | Some (Raise e) => (c, Raise e)
          | None => (c, Raise (remote_unknown "invalid_response"))
          end
    end.

Definition _receive (received : res RemoteError (Z * bytes)) (c : Connection) : Connection :=
  match received with
  | Raise e => stop_reading e c
  | Ok (identifier, frame) =>
      match read_frame identifier frame c with (c, Ok _) => c | (c, Raise e) => stop_reading e c end
  end.

(** What [_exchange] makes of a response. *)
Definition reply_result (response : obj) : res exchange_error json :=
  if truthy (jget "ok" response) then
    match dget "result" response with Some v => Ok v | None => Raise MalformedReply end
  else
    match jget "error" response with
    | JObj error =>
        match dget "code" error, dget "message" error with
        | Some code, Some _ =>
            Raise (ExchangeRemote (remote_error (py_str code) (py_str (default (JStr "unknown") (dget "effect" error)))
                     (py_str (default (JStr "") (dget "operation_id" error)))))
        | _, _ => Raise MalformedReply
        end
    | _ => Raise MalformedReply
    end.

(** How [_exchange] ends once its future is done; [None]: it still waits. *)
Definition exchange_outcome (n : Z) (c : Connection) : option (res exchange_error json) :=
  match future_of_exchange n c with
  | Unanswered => None
  | Reply response => Some (reply_result response)
  | Refused e => Some (Raise (ExchangeRemote e))
  | Dropped => Some (Raise ExchangeCancelled)
  end.

(** The checks of [connect] on the answer to [hello]: the epoch and the bytes to sign.  A
    worker sends its epoch and nonce as texts. *)
Definition check_hello (version : Z) (worker_id client_id : string) (epoch : option string) (hello : obj) : res exchange_error (string * bytes) :=
  if negb (py_eq (jget "protocol_version" hello) (JInt version)) then Raise (ExchangeRemote (remote "protocol_mismatch"))
  else if negb (py_eq (jget "worker_id" hello) (JStr worker_id)) then Raise (ExchangeRemote (remote "worker_identity_mismatch"))
  else if opt_truthy epoch && negb (py_eq (jget "runtime_epoch" hello) (JStr (default "" epoch)))
  then Raise (ExchangeRemote (remote_unknown "runtime_changed"))
  else
    match dget "runtime_epoch" hello, dget "nonce" hello with
    | Some (JStr e), Some (JStr nonce) => Ok (e, auth_message nonce worker_id e client_id)
    | _, _ => Raise MalformedReply
    end.

Definition set_epoch (e : string) (c : Connection) : Connection :=
  Conn (Some e) (cn_channel c) (cn_reading c) (cn_closed c) (cn_pending c) (cn_futures c) (cn_sequence c).
End codec.

(** ** The worker's end, [_connection] of [worker.py] *)

Record Session := Sess {
  se_nonce : string;
  se_authenticated : bool;
  se_last_id : Z;
  se_handlers : list Z;               (* the requests whose [dispatch] runs *)
  se_open : bool                      (* the loop runs *)
}.
Definition new_session (nonce : string) : Session := Sess nonce false 0 [] true.

(** What the worker does with a frame. *)
Inductive server_action :=
| Dispatch (identifier : Z) (request : obj)
| Answer (identifier : Z) (reply : res RemoteError obj)
| Consume (management : bool) (args : obj)      (* [consume_authentication], answered at once *)
| Hangup.

Record server_config := Server { sc_worker_id : string; sc_client_id : string; sc_client_public_key : string; sc_epoch : string; sc_version : Z }.

Section server.
Variable config : server_config.
Variable check_signature : string -> string -> bytes -> bool.  (* Ed25519 verification of hex texts *)

Definition hangup (s : Session) : Session := Sess (se_nonce s) (se_authenticated s) (se_last_id s) (se_handlers s) false.

(** [request.get('params', {})], when it is a dictionary. *)
Definition params_of (request : obj) : option obj :=
  match default (JObj []) (dget "params" request) with JObj d => Some d | _ => None end.

Definition hello (s : Session) : obj :=
  [("nonce", JStr (se_nonce s)); ("worker_id", JStr (sc_worker_id config)); ("runtime_epoch", JStr (sc_epoch config));
   ("protocol_version", JInt (sc_version config))].

(** The signature of [args] is the client's, over this connection's nonce. *)
Definition signed_by_client (args : obj) (s : Session) : bool :=
  match dget "signature" args with
  | Some (JStr signature) =>
      check_signature (sc_client_public_key config) signature
        (auth_message (se_nonce s) (sc_worker_id config) (sc_epoch config) (sc_client_id config))
  | _ => false
  end.

Definition authenticate (args : obj) (s : Session) : Session * res RemoteError obj :=
  if negb (py_eq (jget "client_id" args) (JStr (sc_client_id config))) then (s, Raise (remote "unauthorized"))
  else if negb (signed_by_client args s) then (s, Raise (remote "unauthorized"))
  else (Sess (se_nonce s) true (se_last_id s) (se_handlers s) (se_open s),
        Ok [("authenticated", JBool true); ("runtime_epoch", JStr (sc_epoch config))]).

(** A request before authentication; [in_time]: [time.monotonic() <= deadline]. *)
Definition first_request (in_time : bool) (request args : obj) (s : Session) : Session * server_action :=
  match jget "method" request with
  | JStr "consume_privileged" => (s, Consume false args)
  | JStr "consume_management" => (s, Consume true args)
  | JStr "hello" => (s, Answer 0 (Ok (hello s)))
  | JStr "authenticate" =>
      if in_time then let '(s, r) := authenticate args s in (s, Answer 0 r) else (s, Answer 0 (Raise (remote "unauthorized")))
  | _ => (s, Answer 0 (Raise (remote "unauthorized")))
  end.

Definition HANDLERS : nat := 32.

(** One turn of the loop; [decoded]: [decode(wire.unpack(frame))], [None] when it raised. *)
Definition server_frame (in_time : bool) (received : res RemoteError Z) (decoded : option obj) (s : Session) : Session * server_action :=
  match received, decoded with
  | Ok identifier, Some request =>
      match params_of request with
      | None => (hangup s, Hangup)
      | Some args =>
          if se_authenticated s then
            if identifier <=? se_last_id s then (hangup s, Hangup)
            else
              let s := Sess (se_nonce s) true identifier (se_handlers s) (se_open s) in
              if (HANDLERS <=? length (se_handlers s))%nat then (s, Answer identifier (Raise (remote "transport_capacity")))
              else (Sess (se_nonce s) true identifier (identifier :: se_handlers s) (se_open s), Dispatch identifier request)
          else if negb (identifier =? 0) then (hangup s, Hangup)
          else first_request in_time request args s
      end
  | _, _ => (hangup s, Hangup)
  end.

(** A handler ended. *)
Definition handled (identifier : Z) (s : Session) : Session :=
  Sess (se_nonce s) (se_authenticated s) (se_last_id s) (filter (fun i => i <> identifier) (se_handlers s)) (se_open s).

(** [dispatch], up to its call of [handle]: the method and its arguments. *)
Definition dispatch (request : obj) : res RemoteError (json * obj) :=
  match params_of request with
  | None => Raise (remote "invalid_request")
  | Some args =>
      raise_if negb (py_eq (jget "runtime_epoch" args) (JStr (sc_epoch config)))
        with remote_error "runtime_changed" "unknown" (py_str (default (JStr "") (dget "operation_id" args))) ;;
      Ok (jget "method" request, ddel "runtime_epoch" args)
  end.
End server.
