(* ===== verification/ConnectionSafety.v ===== *)
(** * Theorems of connections

    Frames carry identifiers and payloads through unchanged; a reply reaches the request it
    answers and nothing else; a request that was sent is never reported as not started; the
    worker runs only requests of the enrolled client, once each, of the current runtime. *)

From S2P Require Import Prelude Dict Utf8 Sha256 PyValue JsonText Protocol Connection.
From Stdlib Require Import Ascii.
Open Scope Z_scope.

(** ** Frames *)

Lemma be_S n x : be (S n) x = Z.land (Z.shiftr x (8 * Z.of_nat n)) 255 :: be n x.
Proof. unfold be. rewrite seq_S, reverse_app. done. Qed.

Lemma be_value_app l b acc : foldl (fun a b => a * 256 + b) acc (l ++ [b]) = foldl (fun a b => a * 256 + b) acc l * 256 + b.
Proof. by rewrite foldl_app. Qed.

(** Big-endian bytes denote their number. *)
Lemma be_value_from n x acc : 0 <= x -> foldl (fun a b => a * 256 + b) acc (be n x) = acc * 256 ^ Z.of_nat n + x mod 256 ^ Z.of_nat n.
Proof.
  intros Hx. revert acc. induction n as [|n IH]; intros acc.
  - cbn. rewrite Z.mod_1_r. lia.
  - rewrite be_S. cbn [foldl]. rewrite IH. change 255 with (Z.ones 8).
    rewrite Z.land_ones, Z.shiftr_div_pow2 by lia. replace (2 ^ (8 * Z.of_nat n)) with (256 ^ Z.of_nat n) by (by rewrite Z.pow_mul_r by lia).
    replace (Z.of_nat (S n)) with (Z.of_nat n + 1) by lia. rewrite Z.pow_add_r, Z.pow_1_r by lia.
    assert (Hp : 0 < 256 ^ Z.of_nat n) by (apply Z.pow_pos_nonneg; lia).
    rewrite (Z.rem_mul_r x (256 ^ Z.of_nat n) 256) by lia. change (2 ^ 8) with 256. nia.
Qed.

Lemma be_value_be n x : 0 <= x < 256 ^ Z.of_nat n -> be_value (be n x) = x.
Proof. intros H. unfold be_value. rewrite be_value_from by lia. rewrite Z.mod_small by lia. lia. Qed.

(** A small identifier does not look like the name of a legacy frame. *)
Lemma be_not_legacy x payload : 0 <= x < 2 ^ 56 -> legacy_frame (be 8 x ++ payload) = false.
Proof.
  intros Hx. unfold legacy_frame. apply bool_decide_eq_false. rewrite (be_S 7). cbn [app take]. rewrite Z.shiftr_div_pow2 by lia.
  rewrite Z.div_small by (cbn; lia). intros H. repeat (apply elem_of_cons in H as [H | H]; [discriminate H|]). by apply elem_of_nil in H.
Qed.

(** A frame gives back the identifier and the payload it was made of. *)
Theorem frame_roundtrip request_id payload frame :
  0 < request_id < 2 ^ 56 -> payload <> [] -> send_frame request_id payload = Ok frame ->
  parse_frame frame = Ok (request_id, payload) /\ Z.of_nat (length frame) <= MAX_FRAME.
Proof.
  intros Hid Hp H. unfold send_frame in H. replace (request_id =? 0) with false in H by lia. apply raise_if_ok in H as [Hl H].
  apply Z.ltb_ge in Hl. assert (frame = be 8 request_id ++ payload) as -> by congruence. split; [|done].
  unfold parse_frame. rewrite be_not_legacy by lia. rewrite length_app, be_length.
  assert (Hlen : length payload <> 0%nat) by (by destruct payload). destruct (Z.ltb_spec (Z.of_nat (8 + length payload)) 9); [lia|].
  rewrite (take_app_length' _ _ 8), (drop_app_length' _ _ 8) by (by rewrite be_length). rewrite be_value_be by (change (256 ^ Z.of_nat 8) with (2 ^ 64); lia).
  by replace (request_id =? 0) with false by lia.
Qed.

(** The queue of a channel is bounded, and what it keeps is received in order. *)
Lemma channel_queue_bounded ev c : (length (ch_frames c) <= QUEUE)%nat -> (length (ch_frames (channel_deliver ev c)) <= QUEUE)%nat.
Proof.
  intros H. unfold channel_deliver. destruct (Nat.leb_spec QUEUE (length (ch_frames c))) as [Hq | Hq], ev as [|data], (ch_closed c); cbn [ch_frames];
    rewrite ?length_app; cbn [length]; lia.
Qed.

(** Everything [Channel.receive] raises leaves the effect of the requests open. *)
Lemma channel_receive_error c c' e : channel_receive c = Some (c', Raise e) -> re_effect e = "unknown".
Proof.
  unfold channel_receive, parse_frame. destruct (ch_frames c) as [|[frame|] rest]; [destruct (ch_closed c); [|done]|..]; try (by intros [= _ <-]).
  - destruct (legacy_frame frame); [done|]. destruct (_ <? _); [by intros [= _ <-]|]. destruct (_ =? _); by intros [= _ <-].
Qed.

(** ** Runs of the host's end *)

Section client.
Context (packb : json -> bytes) (unpackb : bytes -> option json) (response_payload : bytes -> option bytes).

Abbreviation decode_reply := (decode_reply unpackb response_payload).

Record csystem := CSys {
  cs_conn : Connection;
  cs_flights : list (Z * bool);             (* the exchanges under way: number, legacy *)
  cs_arrivals : list (Z * obj * Z);         (* history: identifier, response, exchanges begun before it *)
  cs_unsent : list Z;                       (* history: exchanges the channel reported as not sent *)
  cs_done : list (Z * bool * res exchange_error json)
}.
Definition connected_system (epoch : option string) : csystem := CSys (open_channel (new_connection epoch)) [] [] [] [].

Definition note_arrival (identifier : Z) (frame : bytes) (c : Connection) (l : list (Z * obj * Z)) : list (Z * obj * Z) :=
  match decode_reply frame with Some (Ok d) => (identifier, d, cn_sequence c) :: l | _ => l end.
Definition note_unsent (identifier : Z) (error : string) (c : Connection) (l : list Z) : list Z :=
  match dget identifier (cn_pending c) with
  | Some n => if contains error "before send" then n :: l else l
  | None => l
  end.

(** [connect] makes its two exchanges, which use the identifier 0, one after the other. *)
Inductive connection_step : csystem -> csystem -> Prop :=
| cs_begin c l a u h method params legacy native_ok c' n :
    (legacy = true -> l = []) -> exchange_begin packb method params legacy native_ok c = (c', Ok n) ->
    connection_step (CSys c l a u h) (CSys c' ((n, legacy) :: l) a u h)
| cs_rejected c l a u h method params legacy native_ok c' e :
    (legacy = true -> l = []) -> exchange_begin packb method params legacy native_ok c = (c', Raise e) ->
    connection_step (CSys c l a u h) (CSys c' l a u h)
| cs_response c l a u h identifier frame error :
    connection_step (CSys c l a u h)
      (CSys (_response unpackb response_payload identifier frame error c) l (note_arrival identifier frame c a) (note_unsent identifier error c u) h)
| cs_received c l a u h ch ch' received :
    cn_reading c = true -> channel_receive ch = Some (ch', received) ->
    connection_step (CSys c l a u h)
      (CSys (_receive unpackb response_payload received c) l
         (match received with Ok (identifier, frame) => note_arrival identifier frame c a | Raise _ => a end) u h)
| cs_resumed c l1 l2 a u h n legacy r :
    exchange_outcome n c = Some r ->
    connection_step (CSys c (l1 ++ (n, legacy) :: l2) a u h) (CSys (exchange_end (exchange_id legacy n) n c) (l1 ++ l2) a u ((n, legacy, r) :: h))
| cs_cancelled c l1 l2 a u h n legacy :
    connection_step (CSys c (l1 ++ (n, legacy) :: l2) a u h)
      (CSys (exchange_end (exchange_id legacy n) n c) (l1 ++ l2) a u ((n, legacy, Raise ExchangeCancelled) :: h))
| cs_closing c l a u h : connection_step (CSys c l a u h) (CSys (set_closed c) l a u h)
| cs_channel_closed c l a u h (ch : option bool) :
    ch <> Some false ->
    connection_step (CSys c l a u h) (CSys (Conn (cn_epoch c) ch (cn_reading c) (cn_closed c) (cn_pending c) (cn_futures c) (cn_sequence c)) l a u h)
| cs_epoch c l a u h e : connection_step (CSys c l a u h) (CSys (set_epoch e c) l a u h).

(** Why an exchange ended as it did. *)
Definition explained (a : list (Z * obj * Z)) (u : list Z) (n : Z) (legacy : bool) (r : res exchange_error json) : Prop :=
  (exists d m, (exchange_id legacy n, d, m) ∈ a /\ n <= m /\ r = reply_result d) \/
  (exists e, r = Raise (ExchangeRemote e) /\ (re_effect e = "unknown" \/ n ∈ u)) \/
  r = Raise ExchangeCancelled.

(** The same for its future. *)
Definition future_explained (a : list (Z * obj * Z)) (u : list Z) (n : Z) (legacy : bool) (f : reply_future) : Prop :=
  match f with
  | Unanswered | Dropped => True
  | Reply d => exists m, (exchange_id legacy n, d, m) ∈ a /\ n <= m
  | Refused e => re_effect e = "unknown" \/ n ∈ u
  end.

Record connection_ok (S : csystem) : Prop := {
  co_wf : dwf (cn_pending (cs_conn S));
  co_pending : forall id n, dget id (cn_pending (cs_conn S)) = Some n <-> exists legacy, (n, legacy) ∈ cs_flights S /\ id = exchange_id legacy n;
  co_numbers : forall n, n ∈ (cs_flights S).*1 ++ (cs_done S).*1.*1 -> 0 < n <= cn_sequence (cs_conn S);
  co_sequence : 0 <= cn_sequence (cs_conn S);
  co_once : NoDup ((cs_flights S).*1 ++ (cs_done S).*1.*1);
  co_future : forall n legacy, (n, legacy) ∈ cs_flights S -> exists f, dget n (cn_futures (cs_conn S)) = Some f /\ future_explained (cs_arrivals S) (cs_unsent S) n legacy f;
  co_done : forall n legacy r, (n, legacy, r) ∈ cs_done S -> explained (cs_arrivals S) (cs_unsent S) n legacy r;
  co_bound : Z.of_nat (length (cn_pending (cs_conn S))) <= IN_FLIGHT;
  co_stopped : cn_reading (cs_conn S) = false -> cn_closed (cs_conn S) = true /\
    forall id n, dget id (cn_pending (cs_conn S)) = Some n -> answered (future_of_exchange n (cs_conn S)) = true
}.

(** ** The operations keep the invariant *)

Ltac cfields := cbn [cs_conn cs_flights cs_arrivals cs_unsent cs_done] in *.

(** A change of futures that leaves every answer as it is, and explains the new ones. *)
Definition answers_more (a' : list (Z * obj * Z)) (u' : list Z) (l : list (Z * bool)) (c c' : Connection) : Prop :=
  forall n legacy f, (n, legacy) ∈ l -> dget n (cn_futures c) = Some f ->
    exists f', dget n (cn_futures c') = Some f' /\ (f' = f \/ (f = Unanswered /\ answered f' = true /\ future_explained a' u' n legacy f')).

Lemma future_explained_mono a a' u u' n legacy f :
  a ⊆ a' -> u ⊆ u' -> future_explained a u n legacy f -> future_explained a' u' n legacy f.
Proof. intros Ha Hu. destruct f; cbn; [done|intros (m & ? & ?); exists m; auto|intros [|]; auto|done]. Qed.

Lemma explained_mono a a' u u' n legacy r : a ⊆ a' -> u ⊆ u' -> explained a u n legacy r -> explained a' u' n legacy r.
Proof.
  intros Ha Hu [(d & m & ? & ? & ?) | [(e & ? & ?) | ?]]; [left; exists d, m; auto|right; left; exists e|by right; right].
  split; [done|]. set_solver.
Qed.

(** Whatever only answers requests keeps the invariant. *)
Lemma answering_ok c c' l a a' u u' h :
  connection_ok (CSys c l a u h) -> a ⊆ a' -> u ⊆ u' -> cn_pending c' = cn_pending c -> cn_sequence c' = cn_sequence c ->
  answers_more a' u' l c c' -> (cn_reading c' = false -> cn_closed c' = true /\ forall id n, dget id (cn_pending c') = Some n -> answered (future_of_exchange n c') = true) ->
  connection_ok (CSys c' l a' u' h).
Proof.
  intros [H1 H2 H3 H0 H4 H5 H6 H7 H8] Ha Hu Ep Es Hm Hr. constructor; cfields; rewrite ?Ep, ?Es; try done.
  - intros n legacy Hin. destruct (H5 n legacy Hin) as (f & Ef & Hf). destruct (Hm n legacy f Hin Ef) as (f' & Ef' & [-> | (_ & _ & Hx)]).
    + exists f. split; [done|]. by eapply future_explained_mono.
    + by exists f'.
  - intros n legacy r Hin. by eapply explained_mono, H6.
  - by rewrite <- Ep.
Qed.

Lemma answers_more_refl a u l c c' : cn_futures c' = cn_futures c -> answers_more a u l c c'.
Proof. intros E n legacy f _ Ef. exists f. rewrite E. auto. Qed.

Lemma flight_legacy (l : list (Z * bool)) (h : list Z) n b b' : NoDup (l.*1 ++ h) -> (n, b) ∈ l -> (n, b') ∈ l -> b = b'.
Proof.
  intros Hn H1 H2. apply NoDup_app in Hn as (Hn & _ & _). induction l as [|[m c] l IH]; [by apply elem_of_nil in H1|].
  cbn in Hn. apply NoDup_cons in Hn as [Hm Hn]. apply elem_of_cons in H1 as [H1 | H1], H2 as [H2 | H2]; try congruence; [..|by apply IH].
  - injection H1 as -> ->. exfalso. apply Hm. apply list_elem_of_fmap. by exists (m, b').
  - injection H2 as -> ->. exfalso. apply Hm. apply list_elem_of_fmap. by exists (m, b).
Qed.

(** Answering the exchange behind an identifier. *)
Lemma set_reply_answers a u h c l id n f a' u' :
  connection_ok (CSys c l a u h) -> dget id (cn_pending c) = Some n -> answered (future_of_exchange n c) = false -> answered f = true ->
  (forall legacy, id = exchange_id legacy n -> n <= cn_sequence c -> future_explained a' u' n legacy f) ->
  answers_more a' u' l c (set_reply n f c).
Proof.
  intros Hok Hid Hans Hf Hx n' legacy f' Hin Ef. unfold set_reply. cbn. rewrite dget_dset. case_decide as Hd; [|eauto].
  subst n'. exists f. split; [done|]. right. unfold future_of_exchange in Hans. rewrite Ef in Hans. cbn in Hans. destruct f'; try done.
  split_and!; [done..|]. destruct Hok as [_ H2 H3 _ H4 _ _ _ _]; cfields. apply Hx.
  - apply H2 in Hid as (lg & Hin' & ->). by rewrite (flight_legacy _ _ _ _ _ H4 Hin Hin').
  - apply H3, elem_of_app. left. apply list_elem_of_fmap. by exists (n, legacy).
Qed.

Lemma note_arrival_sub id frame c a : a ⊆ note_arrival id frame c a.
Proof. unfold note_arrival. destruct (decode_reply frame) as [[|]|]; set_solver. Qed.
Lemma note_unsent_sub id error c u : u ⊆ note_unsent id error c u.
Proof. unfold note_unsent. destruct (dget _ _); [destruct (contains _ _)|]; set_solver. Qed.
#[local] Hint Resolve note_arrival_sub note_unsent_sub : pal.

Lemma set_reply_stopped n f c :
  answered f = true -> (forall id m, dget id (cn_pending c) = Some m -> answered (future_of_exchange m c) = true) ->
  forall id m, dget id (cn_pending (set_reply n f c)) = Some m -> answered (future_of_exchange m (set_reply n f c)) = true.
Proof.
  intros Hf H id m E. cbn in E. unfold future_of_exchange, set_reply. cbn. rewrite dget_dset. case_decide; [done|]. by eapply H.
Qed.

Lemma response_ok c l a u h id frame error :
  connection_ok (CSys c l a u h) ->
  connection_ok (CSys (_response unpackb response_payload id frame error c) l (note_arrival id frame c a) (note_unsent id error c u) h).
Proof.
  intros Hok. pose proof (co_stopped _ Hok) as Hs; cfields. unfold _response. destruct (dget id (cn_pending c)) as [n|] eqn:Eid.
  2:{ eapply answering_ok; [exact Hok|auto with pal..|by apply answers_more_refl|done]. }
  destruct (answered (future_of_exchange n c)) eqn:Ea.
  { eapply answering_ok; [exact Hok|auto with pal..|by apply answers_more_refl|done]. }
  set (f := response_future unpackb response_payload frame error).
  assert (Hf : answered f = true) by (subst f; unfold response_future; destruct (str_truthy error); [done|]; by destruct (Connection.decode_reply _ _ _) as [[|]|]).
  eapply answering_ok; [exact Hok|auto with pal..| |].
  - eapply set_reply_answers; [exact Hok|done..|]. intros legacy -> Hle. subst f. unfold response_future.
    destruct (str_truthy error).
    + unfold note_unsent. rewrite Eid. cbn. destruct (contains error "before send"); [right; set_solver|by left].
    + unfold note_arrival. destruct (decode_reply frame) as [[d|]|]; cbn; [|by left..]. exists (cn_sequence c). split; [set_solver|done].
  - intros Hr. destruct (Hs Hr) as [? Hp]. split; [done|]. by apply set_reply_stopped.
Qed.

(** What the end of the reader does to the pending requests. *)
Definition refuse (failure : RemoteError) (c : Connection) (p : Z * Z) : Connection :=
  if answered (future_of_exchange p.2 c) then c else set_reply p.2 (Refused failure) c.

(** Some unanswered futures become refusals; nothing else changes. *)
Record refuses (failure : RemoteError) (c c' : Connection) : Prop := {
  rf_pending : cn_pending c' = cn_pending c;
  rf_sequence : cn_sequence c' = cn_sequence c;
  rf_reading : cn_reading c' = cn_reading c;
  rf_closed : cn_closed c' = cn_closed c;
  rf_future : forall n f, dget n (cn_futures c) = Some f ->
    dget n (cn_futures c') = Some f \/ (f = Unanswered /\ dget n (cn_futures c') = Some (Refused failure));
  rf_answered : forall n, answered (future_of_exchange n c) = true -> answered (future_of_exchange n c') = true
}.

Lemma refuses_refl failure c : refuses failure c c.
Proof. constructor; auto. Qed.

Lemma refuses_trans failure c1 c2 c3 : refuses failure c1 c2 -> refuses failure c2 c3 -> refuses failure c1 c3.
Proof.
  intros [A1 A2 A3 A4 A5 A6] [B1 B2 B3 B4 B5 B6]. constructor; [congruence..| |auto].
  intros n f Hf. destruct (A5 n f Hf) as [H | [-> H]]; [by apply B5|]. destruct (B5 _ _ H) as [|[? _]]; [by right|done].
Qed.

Lemma refuse_refuses failure c p : refuses failure c (refuse failure c p).
Proof.
  unfold refuse. destruct (answered (future_of_exchange p.2 c)) eqn:Ea; [apply refuses_refl|]. constructor; try done.
  - intros n f Hf. cbn. rewrite dget_dset. case_decide as Hd; [|by left]. subst n. unfold future_of_exchange in Ea. rewrite Hf in Ea. right. by destruct f.
  - intros n Hn. unfold future_of_exchange, set_reply. cbn. rewrite dget_dset. by case_decide.
Qed.

Lemma refuse_all failure ps c :
  refuses failure c (foldl (refuse failure) c ps) /\
  forall n, n ∈ ps.*2 -> answered (future_of_exchange n (foldl (refuse failure) c ps)) = true.
Proof.
  revert c. induction ps as [|[id n] ps IH]; intros c; cbn [foldl]; [split; [apply refuses_refl|by intros n ?%elem_of_nil]|].
  destruct (IH (refuse failure c (id, n))) as [H1 H2]. split; [eapply refuses_trans; [apply refuse_refuses|done]|].
  intros m [-> | Hm]%elem_of_cons; [|by apply H2]. apply (rf_answered _ _ _ H1). cbn. unfold refuse. cbn.
  destruct (answered (future_of_exchange n c)) eqn:Ea; [done|]. unfold future_of_exchange, set_reply. cbn. by rewrite dget_dset_eq.
Qed.

Lemma stop_reading_ok c l a u h failure :
  re_effect failure = "unknown" -> connection_ok (CSys c l a u h) -> connection_ok (CSys (stop_reading failure c) l a u h).
Proof.
  intros Hf Hok. unfold stop_reading.
  set (c0 := Conn (cn_epoch c) (cn_channel c) false true (cn_pending c) (cn_futures c) (cn_sequence c)).
  destruct (refuse_all failure (cn_pending c) c0) as [[R1 R2 R3 R4 R5 R6] Hall]. change (foldl _ c0 _) with (foldl (refuse failure) c0 (cn_pending c)).
  eapply answering_ok; [exact Hok|done..| |].
  - intros n legacy f _ Ef. destruct (R5 n f Ef) as [H | [-> H]]; [by exists f; auto|]. exists (Refused failure). split; [done|]. right. split_and!; [done..|]. by left.
  - intros _. split; [done|]. intros id n Hid. apply Hall. rewrite R1 in Hid. apply dget_elem in Hid. apply list_elem_of_fmap. by exists (id, n).
Qed.

(** The worker answers with objects within the size limit. *)
Hypothesis replies_decode : forall frame e, decode_reply frame <> Some (Raise e).

Lemma receive_ok c l a u h ch ch' received :
  channel_receive ch = Some (ch', received) -> connection_ok (CSys c l a u h) ->
  connection_ok (CSys (_receive unpackb response_payload received c) l
    (match received with Ok (id, frame) => note_arrival id frame c a | Raise _ => a end) u h).
Proof.
  intros Hch Hok. pose proof (co_stopped _ Hok) as Hs; cfields. unfold _receive. destruct received as [[id frame]|e].
  2:{ apply stop_reading_ok; [by eapply channel_receive_error|done]. }
  assert (Hok' : connection_ok (CSys c l (note_arrival id frame c a) u h)) by (eapply answering_ok; [exact Hok|auto with pal..|by apply answers_more_refl|done]).
  unfold read_frame. destruct (dget id (cn_pending c)) as [n|] eqn:Eid; [|destruct (_ <? _); [by apply stop_reading_ok|done]].
  destruct (answered (future_of_exchange n c)) eqn:Ea; [by apply stop_reading_ok|].
  destruct (Connection.decode_reply unpackb response_payload frame) as [[d|e]|] eqn:Ed; [|by eapply replies_decode in Ed|by apply stop_reading_ok].
  eapply answering_ok; [exact Hok|auto with pal..| |].
  - eapply set_reply_answers; [exact Hok|done..|]. intros legacy -> Hle. unfold note_arrival. rewrite Ed. exists (cn_sequence c). split; [set_solver|done].
  - intros Hr. destruct (Hs Hr) as [? Hp]. split; [done|]. by apply set_reply_stopped.
Qed.

(** ** Beginning and ending an exchange *)

Lemma pending_unique c l a u h n legacy m lg :
  connection_ok (CSys c l a u h) -> (n, legacy) ∈ l -> (m, lg) ∈ l -> exchange_id lg m = exchange_id legacy n -> m = n.
Proof.
  intros Hok H1 H2 E. pose proof (co_pending _ Hok) as Hp; cfields.
  assert (A : dget (exchange_id legacy n) (cn_pending c) = Some n) by (apply Hp; eauto).
  assert (B : dget (exchange_id lg m) (cn_pending c) = Some m) by (apply Hp; eauto). congruence.
Qed.

Lemma exchange_end_fields id n c :
  cn_pending (exchange_end id n c) = ddel id (cn_pending c) /\ cn_sequence (exchange_end id n c) = cn_sequence c /\
  cn_reading (exchange_end id n c) = cn_reading c /\ cn_closed (exchange_end id n c) = cn_closed c /\
  forall m, m <> n -> dget m (cn_futures (exchange_end id n c)) = dget m (cn_futures c).
Proof.
  unfold exchange_end. destruct (answered _); split_and!; try done. intros m Hm. cbn. by rewrite dget_dset_ne.
Qed.

Lemma exchange_end_ok c l1 l2 a u h n legacy r :
  connection_ok (CSys c (l1 ++ (n, legacy) :: l2) a u h) -> explained a u n legacy r ->
  connection_ok (CSys (exchange_end (exchange_id legacy n) n c) (l1 ++ l2) a u ((n, legacy, r) :: h)).
Proof.
  intros Hok Hr. destruct (exchange_end_fields (exchange_id legacy n) n c) as (E1 & E2 & E3 & E4 & E5).
  assert (Hin : (n, legacy) ∈ l1 ++ (n, legacy) :: l2) by set_solver.
  assert (Hsub : forall p, p ∈ l1 ++ l2 -> p ∈ l1 ++ (n, legacy) :: l2) by set_solver.
  assert (Huniq : forall m lg, (m, lg) ∈ l1 ++ l2 -> exchange_id lg m = exchange_id legacy n -> m = n) by (intros m lg Hm; eapply pending_unique; eauto).
  destruct Hok as [H1 H2 H3 H0 H4 H5 H6 H7 H8]; cfields.
  assert (Hperm : (l1 ++ (n, legacy) :: l2).*1 ++ h.*1.*1 ≡ₚ (l1 ++ l2).*1 ++ ((n, legacy, r) :: h).*1.*1).
  { rewrite !fmap_app, !fmap_cons, <- !app_assoc. cbn. rewrite <- !Permutation_middle. done. }
  assert (Hne : forall m lg, (m, lg) ∈ l1 ++ l2 -> m <> n).
  { intros m lg Hm ->. rewrite Hperm in H4. apply NoDup_app in H4 as (_ & H4 & _). apply (H4 n); [|set_solver]. apply list_elem_of_fmap. by exists (n, lg). }
  constructor; cfields; rewrite ?E1, ?E2, ?E3, ?E4.
  - by apply dwf_ddel.
  - intros id m. rewrite dget_ddel. case_decide as Hd.
    + split; [done|]. intros (lg & Hm & ->). exfalso. by apply (Hne m lg Hm), (Huniq m lg Hm).
    + rewrite H2. split; intros (lg & Hm & ->); exists lg; split; try done; [|by apply Hsub].
      apply elem_of_app in Hm as [Hm | [[= -> ->] | Hm]%elem_of_cons]; [set_solver|done|set_solver].
  - intros m. rewrite <- Hperm. apply H3.
  - done.
  - by rewrite <- Hperm.
  - intros m lg Hm. rewrite E5 by (by eapply Hne). by apply H5, Hsub.
  - intros m lg r' [[= -> -> ->] | Hm]%elem_of_cons; [done|by apply H6].
  - etransitivity; [|exact H7]. apply inj_le. unfold ddel. apply length_filter.
  - intros Hrd. destruct (H8 Hrd) as [Hc Hp]. split; [done|]. intros id m. rewrite dget_ddel. case_decide as Hd; [done|]. intros Hm.
    unfold future_of_exchange. rewrite E5; [by eapply Hp|]. intros ->. apply H2 in Hm as (lg & Hm & ->).
    apply Hd. f_equal. by eapply flight_legacy.
Qed.

Lemma forget_done c l a u h x : connection_ok (CSys c l a u (x :: h)) -> connection_ok (CSys c l a u h).
Proof.
  intros [H1 H2 H3 H0 H4 H5 H6 H7 H8]; cfields. constructor; cfields; try done.
  - intros n Hn. apply H3. set_solver.
  - rewrite fmap_cons, fmap_cons, <- Permutation_middle in H4. by apply NoDup_cons in H4 as [_ ?].
  - intros n legacy r Hin. apply H6. by right.
Qed.

Lemma registered_ok c l a u h legacy :
  connection_ok (CSys c l a u h) -> (legacy = true -> l = []) -> cn_closed c = false -> Z.of_nat (length (cn_pending c)) < IN_FLIGHT ->
  let n := cn_sequence c + 1 in
  connection_ok (CSys (Conn (cn_epoch c) (cn_channel c) (cn_reading c) (cn_closed c) (dset (exchange_id legacy n) n (cn_pending c))
    (dset n Unanswered (cn_futures c)) n) ((n, legacy) :: l) a u h).
Proof.
  intros [H1 H2 H3 H0 H4 H5 H6 H7 H8] Hl Hc Hb n; cfields. assert (En : n = cn_sequence c + 1) by done. clearbody n.
  assert (Hlt : forall m, m ∈ l.*1 ++ h.*1.*1 -> 0 < m < n) by (intros m Hm; apply H3 in Hm; lia).
  assert (Hlt' : forall m lg, (m, lg) ∈ l -> 0 < m < n) by (intros m lg Hm; apply Hlt, elem_of_app; left; apply list_elem_of_fmap; by exists (m, lg)).
  assert (Hfresh : forall m lg, (m, lg) ∈ l -> exchange_id lg m <> exchange_id legacy n).
  { intros m lg Hm. specialize (Hlt' m lg Hm). destruct legacy; [rewrite Hl in Hm by done; by apply elem_of_nil in Hm|]. destruct lg; cbn; lia. }
  constructor; cfields; cbn [cn_pending cn_sequence cn_futures cn_reading cn_closed].
  - by apply dwf_dset.
  - intros id m. rewrite dget_dset. case_decide as Hd.
    + split; [intros [= <-]; exists legacy; split; [by left|done]|].
      intros (lg & [[= -> ->] | Hm]%elem_of_cons & ->); [done|]. by apply Hfresh in Hm.
    + rewrite H2. split; intros (lg & Hm & ->); exists lg; split; try done; [by right|]. apply elem_of_cons in Hm as [[= -> ->] | Hm]; done.
  - intros m [-> | Hm]%elem_of_cons; [cbn; lia|]. specialize (Hlt m Hm). lia.
  - lia.
  - constructor; [|done]. intros Hm. specialize (Hlt n Hm). lia.
  - intros m lg [[= -> ->] | Hm]%elem_of_cons; [exists Unanswered; by rewrite dget_dset_eq|].
    rewrite dget_dset_ne; [by apply H5|]. specialize (Hlt' m lg Hm). lia.
  - done.
  - rewrite length_dset. destruct (dmem _ _); lia.
  - intros Hr. destruct (H8 Hr) as [X _]. congruence.
Qed.

Lemma exchange_begin_ok c l a u h method params legacy native_ok c' r :
  connection_ok (CSys c l a u h) -> (legacy = true -> l = []) -> exchange_begin packb method params legacy native_ok c = (c', r) ->
  connection_ok (CSys c' (match r with Ok n => (n, legacy) :: l | Raise _ => l end) a u h).
Proof.
  intros Hok Hl. unfold exchange_begin. destruct (cn_closed c || _) eqn:Ec; [intros [= <- <-]; done|].
  apply orb_false_iff in Ec as [Ec _]. destruct (Z.leb_spec IN_FLIGHT (Z.of_nat (length (cn_pending c)))); [intros [= <- <-]; done|].
  pose proof (registered_ok c l a u h legacy Hok Hl Ec ltac:(lia)) as Hreg. cbv zeta in Hreg.
  destruct (rbind _ _) as [x|e]; intros [= <- <-]; [done|]. eapply forget_done.
  by apply (exchange_end_ok _ [] l a u h _ legacy (Raise ExchangeCancelled)); [|right; right].
Qed.

Lemma outcome_explained c l a u h n legacy r :
  connection_ok (CSys c l a u h) -> (n, legacy) ∈ l -> exchange_outcome n c = Some r -> explained a u n legacy r.
Proof.
  intros Hok Hin. destruct (co_future _ Hok n legacy Hin) as (f & Ef & Hf); cfields. unfold exchange_outcome, future_of_exchange. rewrite Ef. cbn.
  destruct f as [|d|e|]; intros [= <-].
  - destruct Hf as (m & ? & ?). left. eauto.
  - right. left. eauto.
  - by right; right.
Qed.

Lemma connection_step_ok S S' : connection_step S S' -> connection_ok S -> connection_ok S'.
Proof.
  intros [] Hok.
  - by eapply (exchange_begin_ok _ _ _ _ _ _ _ _ _ _ (Ok n) Hok).
  - by eapply (exchange_begin_ok _ _ _ _ _ _ _ _ _ _ (Raise e) Hok).
  - by apply response_ok.
  - by eapply receive_ok.
  - apply exchange_end_ok; [done|]. eapply outcome_explained; [exact Hok|set_solver|done].
  - apply exchange_end_ok; [done|]. by right; right.
  - eapply answering_ok; [exact Hok|done..|by apply answers_more_refl|]. intros Hr. destruct (co_stopped _ Hok Hr). by split.
  - eapply answering_ok; [exact Hok|done..|by apply answers_more_refl|]. apply (co_stopped _ Hok).
  - eapply answering_ok; [exact Hok|done..|by apply answers_more_refl|]. apply (co_stopped _ Hok).
Qed.

Lemma connection_reachable epoch S : rtc connection_step (connected_system epoch) S -> connection_ok S.
Proof.
  apply (rtc_ind_r (R := connection_step) connection_ok (connected_system epoch)); [|intros x y _ Hs Hx; by eapply connection_step_ok].
  constructor; cbn; try done; try (by intros ? ?%elem_of_nil); try (by intros ? ? ?%elem_of_nil); try (by intros ? ? ? ?%elem_of_nil); try constructor.
  - done.
  - by intros (lg & ?%elem_of_nil & _).
Qed.

(** ** Claims about the host's end *)


(** At most 32 requests are in flight, and none waits on a connection whose reader has
    ended: each has an outcome, and no new one is accepted. *)
Theorem no_request_is_stranded epoch S :
  rtc connection_step (connected_system epoch) S ->
  Z.of_nat (length (cs_flights S)) <= 32 /\
  (cn_reading (cs_conn S) = false ->
    (forall n legacy, (n, legacy) ∈ cs_flights S -> is_Some (exchange_outcome n (cs_conn S))) /\
    forall method params legacy native_ok, exchange_begin packb method params legacy native_ok (cs_conn S) = (cs_conn S, Raise (remote "backend_unavailable"))).
Proof.
  intros H. apply connection_reachable in H as Hok. pose proof Hok as [H1 H2 H3 H0 H4 H5 H6 H7 H8]. split.
  - etransitivity; [|exact H7]. apply inj_le.
    assert (Hs : (cs_flights S).*1 ⊆+ (cn_pending (cs_conn S)).*2).
    { apply NoDup_submseteq; [by apply NoDup_app in H4 as (? & _ & _)|]. intros n ([m lg] & -> & Hin)%list_elem_of_fmap.
      assert (E : dget (exchange_id lg m) (cn_pending (cs_conn S)) = Some m) by (apply H2; eauto).
      apply dget_elem in E. apply list_elem_of_fmap. by exists (exchange_id lg m, m). }
    apply submseteq_length in Hs. by rewrite !length_fmap in Hs.
  - intros Hr. destruct (H8 Hr) as [Hc Hp]. split.
    + intros n legacy Hin. assert (E : dget (exchange_id legacy n) (cn_pending (cs_conn S)) = Some n) by (apply H2; eauto).
      specialize (Hp _ _ E). unfold exchange_outcome. by destruct (future_of_exchange n (cs_conn S)); eauto.
    + intros. unfold exchange_begin. by rewrite Hc.
Qed.
End client.

(** ** Runs of the worker's end *)

Section server.
Context (config : server_config) (check_signature : string -> string -> bytes -> bool).

Record vsystem := VSys {
  vs_session : Session;
  vs_seen : list (bool * obj);        (* history: the requests read, and whether in time *)
  vs_dispatched : list (Z * obj)      (* history: the requests handed to [dispatch], last first *)
}.
Definition accepted_system (nonce : string) : vsystem := VSys (new_session nonce) [] [].

Definition note_dispatch (act : server_action) (l : list (Z * obj)) : list (Z * obj) :=
  match act with Dispatch id request => (id, request) :: l | _ => l end.

Inductive server_step : vsystem -> vsystem -> Prop :=
| vs_frame s seen l in_time received decoded s' act :
    se_open s = true -> server_frame config check_signature in_time received decoded s = (s', act) ->
    server_step (VSys s seen l) (VSys s' (match decoded with Some request => (in_time, request) :: seen | None => seen end) (note_dispatch act l))
| vs_handled s seen l id : server_step (VSys s seen l) (VSys (handled id s) seen l)
| vs_hangup s seen l : server_step (VSys s seen l) (VSys (hangup s) seen l).

(** The client proved its identity on this connection, in time. *)
Definition proved_identity (nonce : string) (seen : list (bool * obj)) : Prop :=
  exists request args signature, (true, request) ∈ seen /\ params_of request = Some args /\
    jget "method" request = JStr "authenticate" /\ jget "client_id" args = JStr (sc_client_id config) /\
    dget "signature" args = Some (JStr signature) /\
    check_signature (sc_client_public_key config) signature
      (auth_message nonce (sc_worker_id config) (sc_epoch config) (sc_client_id config)) = true.

Record session_ok (nonce : string) (S : vsystem) : Prop := {
  so_nonce : se_nonce (vs_session S) = nonce;
  so_identity : se_authenticated (vs_session S) = true -> proved_identity nonce (vs_seen S);
  so_first : se_authenticated (vs_session S) = false -> vs_dispatched S = [] /\ se_last_id (vs_session S) = 0;
  so_sorted : StronglySorted Z.gt ((vs_dispatched S).*1);
  so_last : Forall (fun id => 0 < id <= se_last_id (vs_session S)) ((vs_dispatched S).*1);
  so_zero : 0 <= se_last_id (vs_session S);
  so_handlers : (length (se_handlers (vs_session S)) <= HANDLERS)%nat
}.

Lemma proved_identity_more nonce seen x : proved_identity nonce seen -> proved_identity nonce (x :: seen).
Proof. intros (request & args & signature & ? & ?). exists request, args, signature. split; [by right|done]. Qed.

Lemma py_eq_str_inv v s : py_eq v (JStr s) = true -> v = JStr s.
Proof. destruct v; cbn; try done. intros H%bool_decide_eq_true. by subst. Qed.

(** Only [authenticate] opens the gate. *)
Lemma first_request_spec in_time request args s s' act :
  first_request config check_signature in_time request args s = (s', act) ->
  note_dispatch act [] = [] /\
  (s' = s \/ (s' = Sess (se_nonce s) true (se_last_id s) (se_handlers s) (se_open s) /\ in_time = true /\
    jget "method" request = JStr "authenticate" /\ py_eq (jget "client_id" args) (JStr (sc_client_id config)) = true /\
    signed_by_client config check_signature args s = true)).
Proof.
  unfold first_request. destruct (jget "method" request) as [| | |m| |] eqn:Em; try (intros [= <- <-]; split; [done|by left]).
  destruct (decide (m = "authenticate")) as [-> | Hne].
  - destruct in_time; [|intros [= <- <-]; split; [done|by left]]. unfold authenticate.
    destruct (py_eq (jget "client_id" args) _) eqn:Ec; [|intros [= <- <-]; split; [done|by left]].
    destruct (signed_by_client config check_signature args s) eqn:Es; intros [= <- <-]; split; [done| |done|by left]. right. by split_and!.
  - intros H. assert (X : s' = s /\ note_dispatch act [] = []); [|by destruct X; split; [|left]].
    revert H. repeat (match goal with |- context [match ?x with _ => _ end] => is_var x; destruct x end); try (by intros [= <- <-]).
    all: exfalso; by apply Hne.
Qed.

Lemma proved_identity_now nonce s seen request args :
  se_nonce s = nonce -> params_of request = Some args -> jget "method" request = JStr "authenticate" ->
  py_eq (jget "client_id" args) (JStr (sc_client_id config)) = true -> signed_by_client config check_signature args s = true ->
  proved_identity nonce ((true, request) :: seen).
Proof.
  intros <- Hp Hm Hc Hs. unfold signed_by_client in Hs. destruct (dget "signature" args) as [[| | |signature| |]|] eqn:E; try done.
  exists request, args, signature. apply py_eq_str_inv in Hc. split_and!; try done. by left.
Qed.

Lemma server_frame_ok nonce s seen l in_time received decoded s' act :
  server_frame config check_signature in_time received decoded s = (s', act) -> session_ok nonce (VSys s seen l) ->
  session_ok nonce (VSys s' (match decoded with Some request => (in_time, request) :: seen | None => seen end) (note_dispatch act l)).
Proof.
  intros E [H1 H2 H3 H4 H5 H6 H7]. cbn [vs_session vs_seen vs_dispatched] in *.
  assert (H2' : se_authenticated s = true -> proved_identity nonce (match decoded with Some request => (in_time, request) :: seen | None => seen end)).
  { intros Ha. destruct decoded; [apply proved_identity_more|]; auto. }
  assert (Hhang : session_ok nonce (VSys (hangup s) (match decoded with Some request => (in_time, request) :: seen | None => seen end) l)) by (constructor; cbn; done).
  unfold server_frame in E. destruct received as [id|]; [|by injection E as <- <-]. destruct decoded as [request|]; [|by injection E as <- <-].
  destruct (params_of request) as [args|] eqn:Ep; [|by injection E as <- <-].
  destruct (se_authenticated s) eqn:Ea.
  - destruct (Z.leb_spec id (se_last_id s)) as [|Hgt]; [by injection E as <- <-|]. cbn [se_handlers] in E.
    assert (Hlast : Forall (fun i => 0 < i <= id) (l.*1)) by (eapply Forall_impl; [exact H5|]; cbn; lia).
    destruct (Nat.leb_spec HANDLERS (length (se_handlers s))); injection E as <- <-; constructor; cbn; try done; try lia; auto.
    + constructor; [done|]. eapply Forall_impl; [exact H5|]. cbn. lia.
    + constructor; [lia|done].
  - destruct (negb (id =? 0)); [by injection E as <- <-|]. destruct (H3 eq_refl) as [-> Hz].
    apply first_request_spec in E as [-> [-> | (-> & -> & Hm & Hc & Hs)]]; constructor; cbn; try done; auto.
    + intros X. by rewrite Ea in X.
    + intros _. by eapply proved_identity_now.
Qed.

Lemma server_step_ok nonce S S' : server_step S S' -> session_ok nonce S -> session_ok nonce S'.
Proof.
  intros [] Hok; [by eapply server_frame_ok|..]; destruct Hok as [H1 H2 H3 H4 H5 H6 H7]; constructor; cbn in *; try done.
  etransitivity; [apply length_filter|done].
Qed.

(** C23: the worker hands a request to its handlers only after the enrolled client proved, in
    time and over this connection's nonce, that it holds the key; requests are handled in
    the order of their identifiers and at most once each, at most 32 at a time, and only for
    the runtime that runs now. *)
Theorem only_enrolled_requests_run nonce S :
  rtc server_step (accepted_system nonce) S ->
  (vs_dispatched S <> [] -> proved_identity nonce (vs_seen S)) /\
  StronglySorted Z.gt (vs_dispatched S).*1 /\ NoDup (vs_dispatched S).*1 /\
  (length (se_handlers (vs_session S)) <= 32)%nat /\
  forall id request method args, (id, request) ∈ vs_dispatched S -> dispatch config request = Ok (method, args) ->
    exists params, params_of request = Some params /\ jget "runtime_epoch" params = JStr (sc_epoch config).
Proof.
  intros H. assert (Hok : session_ok nonce S).
  { revert S H. apply (rtc_ind_r (R := server_step) (session_ok nonce) (accepted_system nonce)); [|intros x y _ Hs Hx; by eapply server_step_ok].
    constructor; cbn; try done; [constructor|unfold HANDLERS; lia]. }
  destruct Hok as [H1 H2 H3 H4 H5 H6 H7]. split_and!; [|done| |exact H7|].
  - intros Hne. apply H2. destruct (se_authenticated (vs_session S)) eqn:E; [done|]. by destruct (H3 eq_refl).
  - clear -H4. induction H4 as [|x l _ IH Hx]; [constructor|]. constructor; [|done]. intros Hin. rewrite Forall_forall in Hx. specialize (Hx x Hin). lia.
  - intros id request method args _ Hd. unfold dispatch in Hd. destruct (params_of request) as [params|]; [|done]. exists params. split; [done|].
    apply raise_if_ok in Hd as [Hd _]. apply negb_false_iff in Hd. by apply py_eq_str_inv.
Qed.

(** Host and worker agree after the handshake: the host accepts an answer to [hello] only
    from the worker and the runtime it expects, and the signature it then makes with the
    enrolled key is accepted. *)
Theorem handshake_agrees sign s worker_id epoch e message :
  (forall m, check_signature (sc_client_public_key config) (sign m) m = true) ->
  check_hello (sc_version config) worker_id (sc_client_id config) epoch (hello config s) = Ok (e, message) ->
  worker_id = sc_worker_id config /\ e = sc_epoch config /\ (opt_truthy epoch = true -> epoch = Some e) /\
  exists s' reply, authenticate config check_signature [("client_id", JStr (sc_client_id config)); ("signature", JStr (sign message))] s = (s', Ok reply) /\
    se_authenticated s' = true.
Proof.
  intros Hsign H. unfold check_hello in H.
  replace (jget "protocol_version" (hello config s)) with (JInt (sc_version config)) in H by done.
  replace (jget "worker_id" (hello config s)) with (JStr (sc_worker_id config)) in H by done.
  replace (jget "runtime_epoch" (hello config s)) with (JStr (sc_epoch config)) in H by done.
  replace (dget "runtime_epoch" (hello config s)) with (Some (JStr (sc_epoch config))) in H by done.
  replace (dget "nonce" (hello config s)) with (Some (JStr (se_nonce s))) in H by done.
  cbn [py_eq] in H. rewrite Z.eqb_refl in H. cbn [negb] in H.
  destruct (bool_decide (sc_worker_id config = worker_id)) eqn:Ew; [|done]. apply bool_decide_eq_true in Ew. cbn [negb] in H.
  destruct (opt_truthy epoch && _) eqn:Ee; [done|]. injection H as <- <-. subst worker_id. split_and!; [done..| |].
  - intros Ht. rewrite Ht in Ee. cbn in Ee. apply negb_false_iff, bool_decide_eq_true in Ee. destruct epoch as [x|]; [|done]. cbn in Ee. by rewrite Ee.
  - set (args := [("client_id", _); _]). unfold authenticate, signed_by_client.
    replace (jget "client_id" args) with (JStr (sc_client_id config)) by done.
    replace (dget "signature" args) with (Some (JStr (sign (auth_message (se_nonce s) (sc_worker_id config) (sc_epoch config) (sc_client_id config))))) by done.
    cbn [py_eq]. rewrite bool_decide_eq_true_2 by done. rewrite Hsign. cbn [negb]. eauto.
Qed.
End server.

(** ** Witnesses *)

Lemma frame_roundtrip_witness : exists frame, send_frame 7 [1; 2] = Ok frame /\ parse_frame frame = Ok (7, [1; 2]).
Proof.
  eexists. split; [reflexivity|]. eapply frame_roundtrip; [lia|discriminate|reflexivity].
Defined.

(** A codec for the witnesses: every reply is an empty success. *)
Definition packb0 (v : json) : bytes := [0].
Definition reply0 : obj := [("ok", JBool true); ("result", JInt 5)].
Definition unpackb0 (b : bytes) : option json := Some (JObj reply0).
Definition payload0 (b : bytes) : option bytes := Some [].

Lemma replies_decode0 frame e : Connection.decode_reply unpackb0 payload0 frame <> Some (Raise e).
Proof. unfold Connection.decode_reply. cbn. discriminate. Qed.

Definition conn1 : Connection := (exchange_begin packb0 "metadata" [] false true (open_channel (new_connection None))).1.
Definition conn2 : Connection := _response unpackb0 payload0 1 [] "" conn1.
Definition csys3 : csystem := CSys (exchange_end 1 1 conn2) [] [(1, reply0, 1)] [] [(1, false, Ok (JInt 5))].

Lemma csys3_reachable : rtc (connection_step packb0 unpackb0 payload0) (connected_system None) csys3.
Proof.
  eapply rtc_l; [apply (cs_begin packb0 unpackb0 payload0 _ _ _ _ _ "metadata" [] false true conn1 1); [discriminate|vm_compute; reflexivity]|].
  eapply rtc_l; [apply (cs_response packb0 unpackb0 payload0 _ _ _ _ _ 1 [] "")|].
  apply rtc_once. refine (cs_resumed packb0 unpackb0 payload0 conn2 [] [] [(1, reply0, 1)] [] [] 1 false (Ok (JInt 5)) _). vm_compute. reflexivity.
Qed.


Definition csys_lost : csystem := CSys (stop_reading (remote_unknown "transport_lost") conn1) [(1, false)] [] [] [].

Lemma csys_lost_reachable : rtc (connection_step packb0 unpackb0 payload0) (connected_system None) csys_lost.
Proof.
  eapply rtc_l; [apply (cs_begin packb0 unpackb0 payload0 _ _ _ _ _ "metadata" [] false true conn1 1); [discriminate|vm_compute; reflexivity]|].
  apply rtc_once. refine (cs_received packb0 unpackb0 payload0 conn1 _ _ _ _ (Chan [] true false) (Chan [] true false) (Raise (remote_unknown "transport_lost")) eq_refl eq_refl).
Qed.

Lemma no_request_is_stranded_witness : is_Some (exchange_outcome 1 (cs_conn csys_lost)).
Proof.
  apply (proj1 (proj2 (no_request_is_stranded packb0 unpackb0 payload0 replies_decode0 None csys_lost csys_lost_reachable) eq_refl) 1 false).
  vm_compute. left.
Defined.

(** A response that is not an object, read while its request is pending, is a [RemoteError]
    with the default effect, and every request under way is reported as not started. *)
Example malformed_response_denies_effects :
  let unpackb1 (b : bytes) := Some (JInt 0) in
  exchange_outcome 1 (_receive unpackb1 payload0 (Ok (1, [])) conn1) = Some (Raise (ExchangeRemote (remote "invalid_request"))).
Proof. reflexivity. Qed.

Definition config0 : server_config := Server "worker" "client" "key" "epoch" 3.
Definition check0 (key signature : string) (m : bytes) : bool := bool_decide (signature = "signed").
Definition request_auth : obj :=
  [("method", JStr "authenticate"); ("params", JObj [("client_id", JStr "client"); ("signature", JStr "signed")])].
Definition request_query : obj := [("method", JStr "query"); ("params", JObj [("runtime_epoch", JStr "epoch")])].
Definition session2 : Session := Sess "nonce" true 1 [1] true.
Definition vsys2 : vsystem := VSys session2 [(true, request_query); (true, request_auth)] [(1, request_query)].

Lemma vsys2_reachable : rtc (server_step config0 check0) (accepted_system "nonce") vsys2.
Proof.
  eapply rtc_l; [apply (vs_frame config0 check0 _ _ _ true (Ok 0) (Some request_auth)); [reflexivity|vm_compute; reflexivity]|].
  apply rtc_once.
  apply (vs_frame config0 check0 _ _ _ true (Ok 1) (Some request_query) session2 (Dispatch 1 request_query)); [reflexivity|vm_compute; reflexivity].
Qed.

Lemma only_enrolled_requests_run_witness : vs_dispatched vsys2 = [(1, request_query)] /\ proved_identity config0 check0 "nonce" (vs_seen vsys2).
Proof. split; [reflexivity|]. apply (only_enrolled_requests_run config0 check0 "nonce" vsys2 vsys2_reachable). discriminate. Defined.

Lemma handshake_agrees_witness :
  exists e message, check_hello 3 "worker" "client" None (hello config0 (new_session "nonce")) = Ok (e, message) /\ e = sc_epoch config0.
Proof.
  eexists _, _. split; [vm_compute; reflexivity|].
  eapply (handshake_agrees config0 check0 (fun _ => "signed") (new_session "nonce") "worker" None); [reflexivity|vm_compute; reflexivity].
Defined.
