(* ===== verification/Hub.v ===== *)
(** * The hub and its port

    [hub.py], class [RemoteHub]: how a call of the plugin finds its slot and what is checked
    before it reaches it; [port.py], class [HubPort]: how the plugin sees the answer.  The
    hub is another process; the connection between them is a parameter. *)

From S2P Require Import Prelude Dict Utf8 Sha256 PyValue JsonText Targets Protocol LifecycleTable Lifecycle ExecutionGate Slot.
Open Scope Z_scope.

(** ** State *)

Record hub_slot := HubSlot { hs_config : Target; hs_slot : slot; hs_expected_offline : bool }.
Abbreviation hub := (dict Z hub_slot).

Inductive hub_error :=
| HubRemote (e : RemoteError)         (* [RemoteError] and [RemoteFailure]: answered *)
| HubMalformed.                       (* [KeyError] and the like: not caught by [call] *)

(** [RemoteHub(targets)]; [None]: [ValueError]. *)
Definition new_hub (targets : list Target) : option hub :=
  if hub_targets_ok targets then Some ((fun t => (tg_target t, HubSlot t (new_slot (tg_target t)) false)) <$> targets) else None.

Definition configs (h : hub) : list Target := hs_config <$> dvals h.

Definition target_failure (e : target_error) : hub_error :=
  HubRemote (remote match e with Targets.InvalidTarget => "invalid_target" | AmbiguousTarget => "ambiguous_target" end).

Definition resolve_in (h : hub) (value : json) : res hub_error resolution :=
  match resolve_target (configs h) value with Ok r => Ok r | Raise e => Raise (target_failure e) end.

(** ** [call], up to the work of a slot *)

Inductive hub_command :=
| C_health
| C_identity
| C_resolved (r : resolution)
| C_list (selected : list Z) (refresh : bool)
| C_restore (target : Z) (records : json)
| C_cancel (target : Z) (operation_id : json)
| C_start (target : Z) (action : json)
| C_approve (target : Z) (g : obj) (shutdown : bool)
| C_request (target : Z) (method : string) (params : obj) (epoch : json).

(** [params[key]] *)
Definition need (key : string) (params : obj) : res hub_error json :=
  match dget key params with Some v => Ok v | None => Raise HubMalformed end.

(** [params.get('binding') and params['binding'] != resolved['binding']] *)
Definition binding_changed (params : obj) (r : resolution) : bool :=
  truthy (jget "binding" params) && negb (py_eq (jget "binding" params) (JStr (rl_binding r))).

(** The identity check of [approve] on the fields of the grant. *)
Definition grant_matches (g : obj) (s : hub_slot) : res hub_error unit :=
  let! client := need "client_id" g in
  let! worker := need "worker_id" g in
  let! target := need "target" g in
  let! epoch := need "runtime_epoch" g in
  let c := hs_config s in
  raise_if negb (py_eq client (JStr (tg_client_id c))) || negb (py_eq worker (JStr (tg_worker_id c))) ||
           negb (py_eq target (JInt (tg_target c))) ||
           negb (py_eq epoch (match st_epoch (hs_slot s) with Some e => JStr e | None => JNull end))
    with HubRemote (remote "approval_invalid") ;;
  Ok tt.

Definition as_obj (v : json) : res hub_error obj := match v with JObj d => Ok d | _ => Raise HubMalformed end.
Definition as_text (v : json) : res hub_error string := match v with JStr s => Ok s | _ => Raise HubMalformed end.

(** The methods that go to a slot. *)
Definition route_slot (method : string) (params : obj) (s : hub_slot) (target : Z) : res hub_error hub_command :=
  if decide (method = "restore_execution") then rmap (C_restore target) (need "records" params)
  else if decide (method = "cancel_prepared") then rmap (C_cancel target) (need "operation_id" params)
  else if decide (method = "start") then Ok (C_start target (jget "action" params))
  else if decide (method = "approve") then
    let! v := need "approval" params in
    let! g := as_obj v in
    let! _ := grant_matches g s in
    let! _ := need "operation_id" g in
    Ok (C_approve target g (py_eq (jget "action" params) (JStr "shutdown")))
  else if decide (method = "request") then
    let! v := need "method" params in
    let! m := as_text v in
    let! p := as_obj (default (JObj []) (dget "params" params)) in
    Ok (C_request target m p (jget "runtime_epoch" params))
  else Raise (HubRemote (remote "unknown_method")).

Definition route (h : hub) (method : string) (params : obj) : res hub_error hub_command :=
  if decide (method = "health") then Ok C_health
  else if decide (method = "identity") then Ok C_identity
  else if decide (method = "resolve") then rmap C_resolved (resolve_in h (jget "target" params))
  else if decide (method = "list") then
    match jget "target" params with
    | JNull => Ok (C_list (dkeys h) (truthy (jget "refresh" params)))
    | value => let! r := resolve_in h value in Ok (C_list [rl_target r] (truthy (jget "refresh" params)))
    end
  else
    let! r := resolve_in h (jget "target" params) in
    raise_if binding_changed params r with HubRemote (remote "target_changed") ;;
    match dget (rl_target r) h with
    | None => Raise HubMalformed
    | Some s => route_slot method params s (rl_target r)
    end.

(** What [RemoteSlot.request] reads from its parameters. *)
Definition get_text (key : string) (d : obj) : string := match jget key d with JStr s => s | _ => "" end.
Definition slot_request_of (method : string) (params : obj) (epoch : json) : slot_request :=
  SlotRequest method (get_text "operation_id" params) (get_text "action" params)
    (match jget "session_id" params with JInt z => z | _ => 0 end) (truthy (jget "_hold_output" params))
    (match epoch with JStr e => Some e | _ => None end) (get_text "output_id" params).

(** The request that [approve] sends for a grant. *)
Definition commit_request (g : obj) : slot_request :=
  slot_request_of "commit_privileged" [("operation_id", jget "operation_id" g)] (jget "runtime_epoch" g).

Definition on_slot (target : Z) (f : slot -> slot) (h : hub) : hub :=
  match dget target h with
  | Some s => dset target (HubSlot (hs_config s) (f (hs_slot s)) (hs_expected_offline s)) h
  | None => h
  end.

(** The part of a command that runs before the first await: a slot's own methods, or the
    first part of its [request]. *)
Definition run_command (c : hub_command) (records : list (string * item)) (h : hub) : hub :=
  match c with
  | C_restore target _ => on_slot target (fun s => set_gate (restore records (st_gate s)).1 s) h
  | C_cancel target (JStr oid) => on_slot target (fun s => set_gate (cancel_prepared oid (st_gate s)).1 s) h
  | C_approve target g _ => on_slot target (fun s => (begin_request (commit_request g) s).1) h
  | C_request target m p epoch => on_slot target (fun s => (begin_request (slot_request_of m p epoch) s).1) h
  | _ => h
  end.

(** An accepted shutdown: the target is expected to go away. *)
Definition shutdown_accepted (result : obj) : bool :=
  match jget "result" result with JObj r => py_eq (jget "status" r) (JStr "accepted") | _ => false end.
Definition approved (target : Z) (shutdown : bool) (result : obj) (h : hub) : hub :=
  if shutdown && shutdown_accepted result then
    match dget target h with
    | Some s => dset target (HubSlot (hs_config s) (hs_slot s) true) h
    | None => h
    end
  else h.

(** The answer of [call]; [from_targets]: a [RemoteFailure] of [resolve_target], whose
    payload has no operation. *)
Definition error_payload (from_targets : bool) (e : RemoteError) : obj :=
  [("code", JStr (re_code e)); ("message", JStr ""); ("effect", JStr (re_effect e))] ++
  (if from_targets then [] else [("operation_id", JStr (re_operation_id e))]).
Definition hub_answer (from_targets : bool) (r : res RemoteError json) : obj :=
  match r with Ok v => [("result", v)] | Raise e => [("error", JObj (error_payload from_targets e))] end.

(** ** [HubPort.call] *)

Inductive port_reply := Response (d : obj) | NoResponse.   (* [NoResponse]: an exception of the client *)

Inductive exchange_failure := PortFailure (e : RemoteError) | PortMalformed.

(** [closed] before and after the request; [client]: targets are configured. *)
Definition port_call (client closed_before closed_after : bool) (method : string) (reply : port_reply) : res exchange_failure json :=
  if closed_before then Raise (PortFailure (remote "backend_unavailable"))
  else if negb client then
    if decide (method = "list") then Ok (JObj [("targets", JList [])]) else Raise (PortFailure (remote "invalid_target"))
  else
    match reply with
    | NoResponse => Raise (PortFailure (remote_unknown "hub_unavailable"))
    | Response d =>
        if closed_after then Raise (PortFailure (remote_unknown "backend_unavailable"))
        else
          match dget "error" d with
          | Some (JObj e) =>
              match dget "code" e, dget "message" e with
              | Some code, Some _ =>
                  Raise (PortFailure (remote_error (py_str code) (py_str (default (JStr "unknown") (dget "effect" e)))
                           (py_str (default (JStr "") (dget "operation_id" e)))))
              | _, _ => Raise PortMalformed
              end
          | Some _ => Raise PortMalformed
          | None => match dget "result" d with Some v => Ok v | None => Raise PortMalformed end
          end
    end.

(** ** Theorems *)

(** Slots are kept under the number of their target. *)
Definition hub_ok (h : hub) : Prop := dwf h /\ forall n s, (n, s) ∈ h -> n = tg_target (hs_config s).

Lemma new_hub_ok targets h : new_hub targets = Some h -> hub_ok h.
Proof.
  unfold new_hub. destruct (hub_targets_ok targets) eqn:E; [|done]. intros H. injection H as <-.
  unfold hub_targets_ok in E. apply andb_true_iff in E as [E _]. apply bool_decide_eq_true in E. split.
  - unfold dwf, dkeys. by rewrite <- list_fmap_compose.
  - intros n s (t & [= -> ->] & _)%list_elem_of_fmap. done.
Qed.

Lemma on_slot_ok t f h : hub_ok h -> hub_ok (on_slot t f h).
Proof.
  intros [Hw Hk]. unfold on_slot. destruct (dget t h) as [s|] eqn:E; [|by split]. split; [by apply dwf_dset|].
  intros n x [[= -> ->] | H]%elem_dset; [|by apply Hk]. cbn. by apply Hk, dget_elem.
Qed.

Lemma on_slot_other t f h n : n <> t -> dget n (on_slot t f h) = dget n h.
Proof. intros Hn. unfold on_slot. destruct (dget t h); [|done]. by rewrite dget_dset_ne. Qed.
#[local] Hint Resolve on_slot_ok on_slot_other : pal.

(** No command moves a slot to another target. *)
Lemma run_command_ok c records h : hub_ok h -> hub_ok (run_command c records h).
Proof. intros H. destruct c as [| | | | |t [| | |oid| |]| | |]; cbn [run_command]; auto with pal. Qed.

Definition command_target (c : hub_command) : option Z :=
  match c with
  | C_restore t _ | C_cancel t _ | C_start t _ | C_approve t _ _ | C_request t _ _ _ => Some t
  | _ => None
  end.

Lemma resolve_in_spec h value r :
  hub_ok h -> resolve_in h value = Ok r ->
  exists s, dget (rl_target r) h = Some s /\ answers value (hs_config s) = true /\ rl_binding r = binding (hs_config s) /\
    forall n s', dget n h = Some s' -> answers value (hs_config s') = true -> n = rl_target r.
Proof.
  intros [Hw Hk] H. unfold resolve_in in H. pose proof (resolve_target_exact (configs h) value) as Hx.
  destruct (resolve_target (configs h) value) as [r0|]; [|done]. injection H as <-. destruct Hx as (t & Ht & Ha & -> & Hu). cbn [rl_target rl_binding].
  assert (Hin : forall n s, (n, s) ∈ h -> hs_config s ∈ configs h).
  { intros n s Hs. apply list_elem_of_fmap. exists s. split; [done|]. apply elem_dvals. by exists n. }
  apply list_elem_of_fmap in Ht as (s & -> & Hs). apply elem_dvals in Hs as [n Hs]. pose proof (Hk n s Hs) as ->.
  exists s. split_and!; [by apply elem_dget|exact Ha|reflexivity|]. intros m s' Hm Hm'. apply dget_elem in Hm. rewrite (Hk m s' Hm). apply Hu; [by eapply Hin|done].
Qed.

Lemma route_slot_target method params s target cmd : route_slot method params s target = Ok cmd -> command_target cmd = Some target.
Proof.
  unfold route_slot, rmap, as_obj, as_text. repeat case_decide; intros Hr;
    repeat match type of Hr with
           | rbind ?x _ = Ok _ => destruct x; [cbn [rbind] in Hr|discriminate Hr]
           | match ?x with _ => _ end = Ok _ => destruct x; try discriminate Hr
           end; try discriminate Hr; by injection Hr as <-.
Qed.

Lemma route_slot_approve method params s target t g shutdown :
  route_slot method params s target = Ok (C_approve t g shutdown) -> grant_matches g s = Ok tt.
Proof.
  unfold route_slot. repeat case_decide; unfold rmap; try (by destruct (need _ _)); try done.
  - destruct (need "approval" params) as [v|]; [|done]. cbn. destruct (as_obj v) as [d|]; [|done]. cbn.
    destruct (grant_matches d s) as [[]|] eqn:E; [|done]. cbn. destruct (need _ d); [|done]. cbn. by intros [= _ -> _].
  - destruct (need "method" params) as [v|]; [|done]. cbn. destruct (as_text v); [|done]. cbn. by destruct (as_obj _).
Qed.

Lemma need_ok key d v : need key d = Ok v -> dget key d = Some v.
Proof. unfold need. destruct (dget key d); by intros [= ->]. Qed.

Lemma grant_matches_spec g s :
  grant_matches g s = Ok tt ->
  exists client worker target epoch, dget "client_id" g = Some client /\ dget "worker_id" g = Some worker /\
    dget "target" g = Some target /\ dget "runtime_epoch" g = Some epoch /\
    py_eq client (JStr (tg_client_id (hs_config s))) = true /\ py_eq worker (JStr (tg_worker_id (hs_config s))) = true /\
    py_eq target (JInt (tg_target (hs_config s))) = true /\
    py_eq epoch (match st_epoch (hs_slot s) with Some e => JStr e | None => JNull end) = true.
Proof.
  unfold grant_matches. intros H. apply rbind_ok in H as (client & Hc & H). apply rbind_ok in H as (worker & Hw & H).
  apply rbind_ok in H as (target & Ht & H). apply rbind_ok in H as (epoch & He & H). apply raise_if_ok in H as [H _].
  apply orb_false_iff in H as [H Q4]. apply orb_false_iff in H as [H Q3]. apply orb_false_iff in H as [Q1 Q2].
  apply negb_false_iff in Q1, Q2, Q3, Q4. exists client, worker, target, epoch. by split_and!; try apply need_ok.
Qed.

(** A call of the hub reaches the slot of the one configured target that answers to the
    name it gives, never a target whose configuration changed since the caller resolved it,
    and touches no other slot; a signature is made only for a grant that names this slot's
    client, worker, target and current runtime. *)
Theorem hub_routes_exactly h method params cmd t records :
  hub_ok h -> route h method params = Ok cmd -> command_target cmd = Some t ->
  (exists s, dget t h = Some s /\ answers (jget "target" params) (hs_config s) = true /\
    (forall n s', dget n h = Some s' -> answers (jget "target" params) (hs_config s') = true -> n = t) /\
    (truthy (jget "binding" params) = true -> py_eq (jget "binding" params) (JStr (binding (hs_config s))) = true) /\
    (forall g shutdown, cmd = C_approve t g shutdown -> grant_matches g s = Ok tt)) /\
  forall n, n <> t -> dget n (run_command cmd records h) = dget n h.
Proof.
  intros Hok H Ht. unfold route in H.
  do 2 (case_decide; [by injection H as <-|]). case_decide; [unfold rmap in H; destruct (resolve_in _ _); [by injection H as <-|done]|].
  case_decide.
  { exfalso. destruct (jget "target" params); try (apply rbind_ok in H as (? & _ & H)); by injection H as <-. }
  apply rbind_ok in H as (r & Hr & H). apply raise_if_ok in H as [Hb H].
  destruct (resolve_in_spec _ _ _ Hok Hr) as (s & Hs & Ha & Hbind & Hu). rewrite Hs in H.
  pose proof (route_slot_target _ _ _ _ _ H) as Hct. assert (rl_target r = t) as <- by congruence. split.
  - exists s. split; [exact Hs|]. split; [exact Ha|]. split; [exact Hu|]. split.
    + intros Htr. unfold binding_changed in Hb. rewrite Htr, Hbind in Hb. apply negb_false_iff in Hb. exact Hb.
    + intros g shutdown ->. by eapply route_slot_approve.
  - intros n Hn. destruct cmd as [| | | |t' rec|t' [| | |oid| |]|t' act|t' g sd|t' m p e]; cbn [run_command]; try done; cbn in Hct; injection Hct as ->; auto with pal.
Qed.

(** The plugin learns what the hub answered: results and errors keep their code, effect
    and operation, and an answer that is lost or comes after the port was retired leaves the
    effect unknown. *)
Theorem port_reports_hub_answers method r :
  port_call true false false method (Response (hub_answer false r)) = (match r with Ok v => Ok v | Raise e => Raise (PortFailure e) end) /\
  (forall e, r = Raise e -> re_operation_id e = "" ->
    port_call true false false method (Response (hub_answer true r)) = Raise (PortFailure e)) /\
  (forall closed reply, closed = true \/ reply = NoResponse ->
    exists e, port_call true false closed method reply = Raise (PortFailure e) /\ re_effect e = "unknown").
Proof.
  split_and!.
  - destruct r as [v|[code effect oid]]; reflexivity.
  - intros [code effect oid] -> Hoid. cbn in Hoid. subst oid. reflexivity.
  - intros closed reply [-> | ->]; [destruct reply|]; cbn; by eexists.
Qed.

(** ** Witness *)

Definition hub_target0 : Target := mkTarget 1 "build" "worker" "client" "/k" "/s" "b" "" 22 "" "" [] [] 0.
Definition hub0 : hub := [(1, HubSlot hub_target0 (new_slot 1) false)].

Lemma hub_routes_exactly_witness :
  exists s, dget 1 hub0 = Some s /\ answers (JStr "b") (hs_config s) = true.
Proof.
  destruct (hub_routes_exactly hub0 "request" [("target", JStr "b"); ("method", JStr "query"); ("params", JObj [])]
    (C_request 1 "query" [] JNull) 1 []) as [(s & H1 & H2 & _) _].
  - apply (new_hub_ok [hub_target0]). reflexivity.
  - vm_compute. reflexivity.
  - reflexivity.
  - exists s. split; [exact H1|exact H2].
Defined.
