(* ===== verification/Adapter.v ===== *)
(** * The local shell of the host

    [adapter.py], class [ShellRuntime]: requests to the native runtime and their replies, the
    completions of background sessions, and the coroutine [run] with what it does when its
    task is cancelled.  The native runtime is a parameter: its events are arguments.  [run]
    is a machine that the events move; what it asks of the runtime is its output. *)

From S2P Require Import Prelude Dict Utf8 PyValue Protocol.
Open Scope Z_scope.

(** ** State *)

(** The fields of an event that the adapter reads. *)
Record local_event := LocalEvent {
  le_request : Z;
  le_session : Z;
  le_sequence : Z;                    (* get('event_sequence', 0) *)
  le_status : string;
  le_output : Z;                      (* get('output_id'), 0 when absent *)
  le_generation : Z                   (* get('watch_generation', 0) *)
}.

Inductive native_future := Open | Settled (ev : local_event).

Record local_request := LocalRequest { lr_future : native_future; lr_operation : string; lr_turn : string }.

Record Completion := mkCompletion { cp_session : Z; cp_origin_turn : string; cp_event : local_event }.

Record ShellRuntime := Runtime {
  rt_sequence : Z;                    (* requests made so far *)
  rt_pending : dict Z local_request;
  rt_owners : dict Z string;
  rt_foreground : dict Z string;      (* task to turn *)
  rt_completions : dict Z Completion;
  rt_seen : list (Z * Z);             (* oldest first *)
  rt_consumed : list Z;
  rt_closed : bool;
  rt_closing : bool
}.
Definition new_runtime : ShellRuntime := Runtime 0 [] [] [] [] [] [] false false.

Definition RUN_OPERATIONS : list string := ["run"; "run_authorized"; "run_with_stdin"; "run_authorized_with_stdin"].
Definition SEEN : nat := 256.

Definition set_pending (d : dict Z local_request) (r : ShellRuntime) : ShellRuntime :=
  Runtime (rt_sequence r) d (rt_owners r) (rt_foreground r) (rt_completions r) (rt_seen r) (rt_consumed r) (rt_closed r) (rt_closing r).
Definition set_owners (d : dict Z string) (r : ShellRuntime) : ShellRuntime :=
  Runtime (rt_sequence r) (rt_pending r) d (rt_foreground r) (rt_completions r) (rt_seen r) (rt_consumed r) (rt_closed r) (rt_closing r).
Definition set_foreground (d : dict Z string) (r : ShellRuntime) : ShellRuntime :=
  Runtime (rt_sequence r) (rt_pending r) (rt_owners r) d (rt_completions r) (rt_seen r) (rt_consumed r) (rt_closed r) (rt_closing r).
Definition set_local_completions (d : dict Z Completion) (r : ShellRuntime) : ShellRuntime :=
  Runtime (rt_sequence r) (rt_pending r) (rt_owners r) (rt_foreground r) d (rt_seen r) (rt_consumed r) (rt_closed r) (rt_closing r).

(** ** [_deliver] *)

(** The reply to a request. *)
Definition deliver_reply (ev : local_event) (r : ShellRuntime) : ShellRuntime :=
  match dget (le_request ev) (rt_pending r) with
  | None => r
  | Some p =>
      let r := if bool_decide (lr_operation p ∈ RUN_OPERATIONS) && negb (le_session ev =? 0)
               then set_owners (dset (le_session ev) (lr_turn p) (rt_owners r)) r else r in
      match lr_future p with
      | Open => set_pending (dset (le_request ev) (LocalRequest (Settled ev) (lr_operation p) (lr_turn p)) (rt_pending r)) r
      | Settled _ => r
      end
  end.

(** [self._seen[identity] = None] with the eviction of the oldest. *)
Definition note_seen (identity : Z * Z) (r : ShellRuntime) : ShellRuntime :=
  let seen := rt_seen r ++ [identity] in
  match seen with
  | previous :: rest =>
      if (SEEN <? length seen)%nat
      then Runtime (rt_sequence r) (rt_pending r) (rt_owners r) (rt_foreground r) (rt_completions r) rest
             (filter (fun s => s <> previous.1) (rt_consumed r)) (rt_closed r) (rt_closing r)
      else Runtime (rt_sequence r) (rt_pending r) (rt_owners r) (rt_foreground r) (rt_completions r) seen (rt_consumed r) (rt_closed r) (rt_closing r)
  | [] => r
  end.

(** An event that answers no request: the news of a session; whether the host is told. *)
Definition deliver_event (ev : local_event) (r : ShellRuntime) : ShellRuntime * bool :=
  let identity := (le_session ev, le_sequence ev) in
  if bool_decide (identity ∈ rt_seen r) || rt_closed r then (r, false)
  else
    let r := note_seen identity r in
    let origin := default "" (dget (le_session ev) (rt_owners r)) in
    if bool_decide (le_session ev ∈ rt_consumed r) then (r, false)
    else (set_local_completions (dset (le_session ev) (mkCompletion (le_session ev) origin ev) (rt_completions r)) r, true).

Definition _deliver (ev : local_event) (r : ShellRuntime) : ShellRuntime * bool :=
  if le_request ev =? 0 then deliver_event ev r else (deliver_reply ev r, false).

(** ** Requests *)

Inductive local_error := ShellRejected | LocalCancelled | LoadFailed.

(** [_request], up to its await. *)
Definition local_request_begin (operation turn : string) (cleanup : bool) (r : ShellRuntime) : ShellRuntime * res local_error Z :=
  if (rt_closed r || rt_closing r) && negb cleanup then (r, Raise ShellRejected)
  else
    let n := rt_sequence r + 1 in
    (Runtime n (dset n (LocalRequest Open operation turn) (rt_pending r)) (rt_owners r) (rt_foreground r) (rt_completions r) (rt_seen r)
       (rt_consumed r) (rt_closed r) (rt_closing r), Ok n).

(** Its [finally] clause, and what it makes of the reply. *)
Definition local_request_end (n : Z) (r : ShellRuntime) : ShellRuntime := set_pending (ddel n (rt_pending r)) r.
Definition local_result (ev : local_event) : res local_error local_event :=
  if decide (le_status ev = "rejected") then Raise ShellRejected else Ok ev.

Definition _mark_consumed (session : Z) (r : ShellRuntime) : ShellRuntime :=
  Runtime (rt_sequence r) (rt_pending r) (ddel session (rt_owners r)) (rt_foreground r) (ddel session (rt_completions r)) (rt_seen r)
    (if bool_decide (session ∈ rt_consumed r) then rt_consumed r else rt_consumed r ++ [session]) (rt_closed r) (rt_closing r).

Definition drain_local (r : ShellRuntime) : ShellRuntime * list Completion := (set_local_completions [] r, dvals (rt_completions r)).

(** [session_snapshot], once the runtime answered. *)
Definition session_answered (action : string) (session : Z) (ev : local_event) (r : ShellRuntime) : ShellRuntime :=
  let r := if bool_decide (action = "watch" \/ action = "unwatch") then
             match dget session (rt_completions r) with
             | Some c => if le_generation (cp_event c) <? le_generation ev then set_local_completions (ddel session (rt_completions r)) r else r
             | None => r
             end
           else r in
  if decide (action = "release") then _mark_consumed session (set_owners (ddel session (rt_owners r)) r) else r.

(** [read], once its output is loaded and, for a terminal one, acknowledged; [release_output]
    and [forget_output] of an event. *)
Definition read_answered (ev : local_event) (session : Z) (r : ShellRuntime) : ShellRuntime :=
  if bool_decide (le_status ev ∈ TERMINAL_STATES) then _mark_consumed session r else r.
Definition output_released (ev : local_event) (r : ShellRuntime) : ShellRuntime :=
  if le_session ev =? 0 then r else _mark_consumed (le_session ev) r.

(** [interrupt_turn] and [_close_runtime]: the tasks to cancel. *)
Definition turn_tasks (turn : string) (r : ShellRuntime) : list Z := dkeys (filter (fun p => p.2 = turn) (rt_foreground r)).

Definition emptied (r : ShellRuntime) : ShellRuntime :=
  Runtime (rt_sequence r) (rt_pending r) [] (rt_foreground r) [] (rt_seen r) (rt_consumed r) (rt_closed r) (rt_closing r).

Definition close_idle (r : ShellRuntime) : ShellRuntime * res local_error unit :=
  if negb (bool_decide (rt_foreground r = [])) || negb (bool_decide (rt_pending r = [])) then (r, Raise ShellRejected)
  else (Runtime (rt_sequence r) (rt_pending r) [] (rt_foreground r) [] [] [] true (rt_closing r), Ok tt).

(** [close]: its first part, the end of [_close_runtime], and its last part. *)
Definition close_begin (r : ShellRuntime) : ShellRuntime * list Z :=
  (Runtime (rt_sequence r) (rt_pending r) (rt_owners r) (rt_foreground r) (rt_completions r) (rt_seen r) (rt_consumed r) (rt_closed r) true,
   if rt_closing r then [] else dkeys (rt_foreground r)).
Definition runtime_closed (r : ShellRuntime) : ShellRuntime :=
  Runtime (rt_sequence r) (rt_pending r) (rt_owners r) (rt_foreground r) (rt_completions r) (rt_seen r) (rt_consumed r) true (rt_closing r).

(** ** [run] *)

(** What the machine asks of the native runtime. *)
Inductive native_call :=
| N_run
| N_cancel_request
| N_read (session : Z)
| N_terminate (session : Z)
| N_acknowledge (session : Z)
| N_release_output (output : Z).

Inductive run_result := Returned (ev : local_event) | Failed (e : local_error).

(** Where the coroutine awaits.  [abort] is the [except] clause of [_request]. *)
Inductive run_state :=
| R_request                                   (* the reply to [run] *)
| R_abort                                     (* the reply to [cancel_request] *)
| R_aborted                                   (* the reply to [run], after it was cancelled *)
| R_load (ev : local_event)                   (* the output *)
| R_acknowledge (ev : local_event)
| R_acknowledge_abort (ev : local_event)      (* [cancel_request] of the acknowledgement *)
| R_acknowledge_aborted (ev : local_event)
| R_release (ev : local_event)                (* [release_output], after a foreground command *)
| R_release_abort (ev : local_event)
| R_release_aborted (ev : local_event)
| R_terminate (session : Z)                   (* the [except] clause of [run] *)
| R_discard (session : Z)                     (* the loop of [_discard_cancelled_session] *)
| R_discarded (session : Z)                   (* its [release_output] *)
| R_drop                                      (* the output of a cancelled command *)
| R_done (r : run_result).

Inductive run_input := I_reply (ev : local_event) | I_loaded | I_load_failed | I_cancel.

Section run.
Variable load_output retain_output : bool.

Definition finished (ev : local_event) : run_state * list native_call := (R_done (Returned ev), []).
Definition cancelled : run_state * list native_call := (R_done (Failed LocalCancelled), []).
Definition rejected : run_state * list native_call := (R_done (Failed ShellRejected), []).

(** After the output was loaded. *)
Definition after_load (ev : local_event) : run_state * list native_call :=
  if negb (le_session ev =? 0) then (R_acknowledge ev, [N_acknowledge (le_session ev)])
  else if negb retain_output then (R_release ev, [N_release_output (le_output ev)])
  else finished ev.

Definition after_request (ev : local_event) : run_state * list native_call :=
  if load_output then (R_load ev, []) else after_load ev.

(** [except asyncio.CancelledError] of [run]. *)
Definition give_back (ev : local_event) : run_state * list native_call :=
  if negb (le_session ev =? 0) then (R_terminate (le_session ev), [N_terminate (le_session ev)])
  else if negb (le_output ev =? 0) then (R_drop, [N_release_output (le_output ev)])
  else cancelled.

(** A reply that is not a rejection goes on with [k]. *)
Definition unless_rejected (ev : local_event) (k : run_state * list native_call) : run_state * list native_call :=
  if decide (le_status ev = "rejected") then rejected else k.

(** [None]: the input cannot arrive here; a cleanup is not cancelled again. *)
Definition run_step (s : run_state) (i : run_input) : option (run_state * list native_call) :=
  match s, i with
  | R_request, I_reply ev => Some (unless_rejected ev (after_request ev))
  | R_request, I_cancel => Some (R_abort, [N_cancel_request])
  | R_abort, I_reply ev => Some (unless_rejected ev (R_aborted, []))
  | R_aborted, I_reply ev =>
      Some (if negb (le_session ev =? 0) then (R_discard (le_session ev), [N_read (le_session ev)])
            else if negb (le_output ev =? 0) then (R_drop, [N_release_output (le_output ev)])
            else cancelled)
  | R_load ev, I_loaded => Some (after_load ev)
  | R_load ev, I_load_failed => Some (R_done (Failed LoadFailed), [])
  | R_load ev, I_cancel => Some (give_back ev)
  | R_acknowledge ev, I_reply reply => Some (unless_rejected reply (finished ev))
  | R_acknowledge ev, I_cancel => Some (R_acknowledge_abort ev, [N_cancel_request])
  | R_acknowledge_abort ev, I_reply reply => Some (unless_rejected reply (R_acknowledge_aborted ev, []))
  | R_acknowledge_aborted ev, I_reply _ => Some (give_back ev)
  | R_release ev, I_reply reply => Some (unless_rejected reply (finished ev))
  | R_release ev, I_cancel => Some (R_release_abort ev, [N_cancel_request])
  | R_release_abort ev, I_reply reply => Some (unless_rejected reply (R_release_aborted ev, []))
  | R_release_aborted ev, I_reply _ => Some (give_back ev)
  | R_terminate session, I_reply reply => Some (unless_rejected reply (R_discard session, [N_read session]))
  | R_discard session, I_reply reply =>
      Some (unless_rejected reply
        (if bool_decide (le_status reply ∈ TERMINAL_STATES) then (R_discarded session, [N_release_output session])
         else (R_discard session, [N_read session])))
  | R_discarded session, I_reply reply => Some (unless_rejected reply cancelled)
  | R_drop, I_reply reply => Some (unless_rejected reply cancelled)
  | _, _ => None
  end.

(** A whole run: the state it comes to and everything it asked. *)
Fixpoint run_machine (s : run_state) (l : list run_input) : option (run_state * list native_call) :=
  match l with
  | [] => Some (s, [])
  | i :: l =>
      match run_step s i with
      | Some (s, calls) => match run_machine s l with Some (s, more) => Some (s, calls ++ more) | None => None end
      | None => None
      end
  end.
End run.
