(* ===== verification/AdapterSafety.v ===== *)
(** * Theorems of the local shell

    A cancelled command leaves nothing behind in the native runtime, a command that returns
    was handed over exactly as its result says, replies reach their own request, and the
    news of a consumed session is not told. *)

From S2P Require Import Prelude Dict Utf8 PyValue Protocol Adapter.
Open Scope Z_scope.

(** ** [run] *)

(** The reply to the [run] request among the inputs. *)
Definition run_reply (l : list run_input) : option local_event :=
  match l with
  | I_reply ev :: _ => Some ev
  | I_cancel :: I_reply _ :: I_reply ev :: _ => Some ev
  | _ => None
  end.

(** The session ended: a reply of the runtime says so. *)
Definition seen_ended (l : list run_input) : Prop := exists reply, I_reply reply ∈ l /\ le_status reply ∈ TERMINAL_STATES.

(** The resources of a reply were given back. *)
Definition given_back (ev : local_event) (calls : list native_call) (l : list run_input) : Prop :=
  if le_session ev =? 0 then le_output ev <> 0 -> N_release_output (le_output ev) ∈ calls
  else N_release_output (le_session ev) ∈ calls /\ seen_ended l.

Section run.
Context (load_output retain_output : bool).
Abbreviation machine := (run_machine load_output retain_output).
Abbreviation step := (run_step load_output retain_output).

Lemma machine_cons s i l out :
  machine s (i :: l) = Some out ->
  exists s' calls more, step s i = Some (s', calls) /\ machine s' l = Some (out.1, more) /\ out.2 = calls ++ more.
Proof.
  cbn. destruct (step s i) as [[s' calls]|]; [|done]. destruct (machine s' l) as [[s2 more]|] eqn:E; [|done].
  intros [= <-]. by exists s', calls, more.
Qed.

Lemma machine_done r l out : machine (R_done r) l = Some out -> l = [] /\ out = (R_done r, []).
Proof. destruct l as [|i l]; [intros [= <-]; done|]. intros (s' & calls & more & H & _)%machine_cons. by destruct i. Qed.

Lemma seen_ended_more i l : seen_ended l -> seen_ended (i :: l).
Proof. intros (reply & ? & ?). exists reply. split; [by right|done]. Qed.
#[local] Hint Resolve seen_ended_more : pal.

(** A cleanup that ends in the cancellation has read the end of the session and released its output. *)
Lemma discard_releases session l calls :
  machine (R_discard session) l = Some (R_done (Failed LocalCancelled), calls) -> N_release_output session ∈ calls /\ seen_ended l.
Proof.
  revert calls. induction l as [|i l IH]; intros calls; [done|]. intros (s' & c & more & Hs & Hm & Hc)%machine_cons. cbn in Hm, Hc. subst calls.
  destruct i as [reply| | |]; try done. cbn in Hs. unfold unless_rejected in Hs. case_decide.
  { injection Hs as <- <-. by apply machine_done in Hm as [_ [=]]. }
  case_bool_decide as Ht; injection Hs as <- <-.
  - split; [cbn; by left|]. exists reply. split; [by left|done].
  - destruct (IH more Hm) as [? ?]. split; [cbn; by right|auto with pal].
Qed.

Lemma terminate_releases session l calls :
  machine (R_terminate session) l = Some (R_done (Failed LocalCancelled), calls) -> N_release_output session ∈ calls /\ seen_ended l.
Proof.
  destruct l as [|i l]; [done|]. intros (s' & c & more & Hs & Hm & Hc)%machine_cons. cbn in Hm, Hc. subst calls.
  destruct i as [reply| | |]; try done. cbn in Hs. unfold unless_rejected in Hs. case_decide; injection Hs as <- <-.
  - by apply machine_done in Hm as [_ [=]].
  - destruct (discard_releases _ _ _ Hm). split; [set_solver|auto with pal].
Qed.

(** The [except] clauses give back what the reply named. *)
Lemma give_back_releases ev s c l more :
  give_back ev = (s, c) -> machine s l = Some (R_done (Failed LocalCancelled), more) -> given_back ev (c ++ more) l.
Proof.
  unfold give_back, given_back. destruct (le_session ev =? 0) eqn:Es; cbn.
  - destruct (le_output ev =? 0) eqn:Eo; cbn; intros [= <- <-] Hm; [lia|]. intros _. set_solver.
  - intros [= <- <-] Hm. destruct (terminate_releases _ _ _ Hm). split; [set_solver|done].
Qed.

Lemma given_back_more ev calls l i c : given_back ev calls l -> given_back ev (c ++ calls) (i :: l).
Proof. unfold given_back. destruct (le_session ev =? 0); [set_solver|]. intros [? ?]. split; [set_solver|auto with pal]. Qed.

(** The two steps of cancelling a request of [run] after its command answered. *)
Lemma abort_releases ev s1 s2 l calls :
  (forall i, step s1 i = match i with I_reply reply => Some (unless_rejected reply (s2, [])) | _ => None end) ->
  (forall i, step s2 i = match i with I_reply _ => Some (give_back ev) | _ => None end) ->
  machine s1 l = Some (R_done (Failed LocalCancelled), calls) -> s1 <> R_done (Failed LocalCancelled) -> s2 <> R_done (Failed LocalCancelled) ->
  given_back ev calls l.
Proof.
  intros H1 H2 H N1 N2. destruct l as [|i l]; [by injection H|]. apply machine_cons in H as (s' & c & more & Hs & Hm & Hc). cbn in Hm, Hc. subst calls.
  rewrite H1 in Hs. destruct i as [reply| | |]; try done. unfold unless_rejected in Hs. case_decide; injection Hs as <- <-.
  { by apply machine_done in Hm as [_ [=]]. }
  apply given_back_more. destruct l as [|i l]; [by injection Hm|]. apply machine_cons in Hm as (s' & c & more' & Hs & Hm & Hc). cbn in Hm, Hc. subst more.
  rewrite H2 in Hs. destruct i as [reply'| | |]; try done. injection Hs as Hs.
  assert (X : given_back ev (c ++ more') l) by (by eapply give_back_releases). by apply (given_back_more _ _ _ _ []).
Qed.

Lemma after_load_releases ev s c l more :
  after_load retain_output ev = (s, c) -> machine s l = Some (R_done (Failed LocalCancelled), more) -> given_back ev (c ++ more) l.
Proof.
  unfold after_load. intros Ha Hm.
  destruct (negb (le_session ev =? 0)); [|destruct (negb retain_output); [|injection Ha as <- <-; by apply machine_done in Hm as [_ [=]]]];
    injection Ha as <- <-; (destruct l as [|i l]; [done|]); apply machine_cons in Hm as (s' & c & more' & Hs & Hm & Hc); cbn in Hm, Hc; subst more;
    destruct i as [reply| | |]; try done; cbn in Hs; unfold unless_rejected in Hs.
  1, 3: by case_decide; injection Hs as <- <-; apply machine_done in Hm as [_ [=]].
  - injection Hs as <- <-. rewrite app_assoc. apply given_back_more. by eapply (abort_releases ev (R_acknowledge_abort ev) (R_acknowledge_aborted ev)); [intros []|intros []|exact Hm| |].
  - injection Hs as <- <-. rewrite app_assoc. apply given_back_more. by eapply (abort_releases ev (R_release_abort ev) (R_release_aborted ev)); [intros []|intros []|exact Hm| |].
Qed.

Lemma after_request_releases ev s c l more :
  after_request load_output retain_output ev = (s, c) -> machine s l = Some (R_done (Failed LocalCancelled), more) -> given_back ev (c ++ more) l.
Proof.
  intros Ha Hm. unfold after_request in Ha. destruct load_output eqn:El in Ha; [|by eapply after_load_releases]. injection Ha as <- <-.
  destruct l as [|i l]; [done|]. apply machine_cons in Hm as (s' & c & more' & Hs & Hm & Hc). cbn in Hm, Hc. subst more.
  destruct i as [reply| | |]; try done; cbn in Hs; injection Hs as Hs.
  - apply (given_back_more _ _ _ _ []). by eapply after_load_releases.
  - subst s'. by apply machine_done in Hm as [_ [=]].
  - apply (given_back_more _ _ _ _ []). by eapply give_back_releases.
Qed.

Lemma cancelled_given_back l calls ev :
  machine R_request l = Some (R_done (Failed LocalCancelled), calls) -> run_reply l = Some ev -> given_back ev calls l.
Proof.
  destruct l as [|i l]; [done|]. intros (s & c & more & Hs & Hm & Hc)%machine_cons Hr. cbn in Hm, Hc. subst calls.
  destruct i as [reply| | |]; try done; cbn in Hs.
  - injection Hr as ->. unfold unless_rejected in Hs. case_decide.
    { unfold rejected in Hs. injection Hs as <- <-. by apply machine_done in Hm as [_ [=]]. }
    injection Hs as Hs. apply (given_back_more _ _ _ _ []). by eapply after_request_releases.
  - injection Hs as <- <-. destruct l as [|i l]; [done|]. apply machine_cons in Hm as (s & c & more' & Hs & Hm & Hc). cbn in Hm, Hc. subst more.
    destruct i as [reply| | |]; try done. cbn in Hs. unfold unless_rejected in Hs. case_decide; injection Hs as <- <-.
    { by apply machine_done in Hm as [_ [=]]. }
    destruct l as [|i l]; [done|]. apply machine_cons in Hm as (s & c & more & Hs & Hm & Hc). cbn in Hm, Hc. subst more'.
    destruct i as [reply'| | |]; try done. injection Hr as ->. injection Hs as Hs.
    assert (X : given_back ev (c ++ more) l); [|by apply (given_back_more _ _ _ _ [N_cancel_request]), (given_back_more _ _ _ _ []), (given_back_more _ _ _ _ [])].
    unfold given_back. destruct (le_session ev =? 0) eqn:Es; cbn in Hs.
    + intros Ho. replace (le_output ev =? 0) with false in Hs by lia. injection Hs as <- <-. set_solver.
    + injection Hs as <- <-. destruct (discard_releases _ _ _ Hm). split; [set_solver|done].
Qed.

(** What [run] asks for a result that it returns. *)
Definition handover (ev : local_event) : list native_call :=
  if negb (le_session ev =? 0) then [N_acknowledge (le_session ev)]
  else if retain_output then [] else [N_release_output (le_output ev)].

(** The states after a cancellation; none leads to a result. *)
Definition cleaning (s : run_state) : bool :=
  match s with
  | R_request | R_load _ | R_acknowledge _ | R_release _ | R_done (Returned _) => false
  | _ => true
  end.

Lemma give_back_cleaning ev : cleaning (give_back ev).1 = true.
Proof. unfold give_back. by destruct (negb (le_session ev =? 0)), (negb (le_output ev =? 0)). Qed.

Lemma unless_rejected_cleaning ev k : cleaning k.1 = true -> cleaning (unless_rejected ev k).1 = true.
Proof. unfold unless_rejected. by case_decide. Qed.

Lemma cleaning_step s i s' c : cleaning s = true -> step s i = Some (s', c) -> cleaning s' = true.
Proof.
  intros Hs H. assert (E : exists k, step s i = Some k /\ cleaning k.1 = true); [|destruct E as (k & E & Hk); rewrite E in H; by injection H as ->].
  destruct s, i; try done; cbn in *; try discriminate H; eexists; (split; [reflexivity|]);
    try (apply unless_rejected_cleaning); try done; try apply give_back_cleaning; [|by case_bool_decide].
  by destruct (negb (le_session ev =? 0)), (negb (le_output ev =? 0)).
Qed.

Lemma cleaning_machine s l s' c : cleaning s = true -> machine s l = Some (s', c) -> cleaning s' = true.
Proof.
  revert s c. induction l as [|i l IH]; intros s c Hs; [by intros [= <- _]|].
  intros (s1 & c1 & more & H1 & H2 & _)%machine_cons. cbn in H2. eapply IH; [|exact H2]. by eapply cleaning_step.
Qed.

Lemma cleaning_never_returns s l ev c : cleaning s = true -> machine s l <> Some (R_done (Returned ev), c).
Proof. intros Hs H. by apply cleaning_machine in H. Qed.

Ltac not_cleaning Hm := exfalso; eapply cleaning_never_returns; [|exact Hm]; done.

Lemma after_load_returns ev ev' s c l more :
  after_load retain_output ev = (s, c) -> machine s l = Some (R_done (Returned ev'), more) -> ev' = ev /\ c ++ more = handover ev.
Proof.
  unfold after_load, handover. intros Ha Hm.
  destruct (negb (le_session ev =? 0)); [|destruct retain_output eqn:Er in Ha |- *; cbn in Ha;
    [injection Ha as <- <-; by apply machine_done in Hm as [_ [= -> ->]]|]];
    injection Ha as <- <-; (destruct l as [|i l]; [done|]); apply machine_cons in Hm as (s' & c & more' & Hs & Hm & Hc); cbn in Hm, Hc; subst more;
    destruct i as [reply| | |]; try done; cbn in Hs; unfold unless_rejected in Hs;
    try (injection Hs as <- <-; not_cleaning Hm);
    case_decide; injection Hs as <- <-; by apply machine_done in Hm as [_ [= -> ->]].
Qed.

Lemma returned_handed_over l calls ev :
  machine R_request l = Some (R_done (Returned ev), calls) ->
  run_reply l = Some ev /\ le_status ev <> "rejected" /\ calls = handover ev.
Proof.
  destruct l as [|i l]; [done|]. intros (s & c & more & Hs & Hm & Hc)%machine_cons. cbn in Hm, Hc. subst calls.
  destruct i as [reply| | |]; try done; cbn in Hs; [|injection Hs as <- <-; not_cleaning Hm].
  unfold unless_rejected in Hs. case_decide as Hj.
  { unfold rejected in Hs. injection Hs as <- <-. by apply machine_done in Hm as [_ [=]]. }
  unfold after_request in Hs. destruct load_output eqn:El in Hs.
  - injection Hs as <- <-. destruct l as [|i l]; [done|]. apply machine_cons in Hm as (s & c & more' & Hs & Hm & Hc). cbn in Hm, Hc. subst more.
    destruct i as [reply'| | |]; try done; cbn in Hs; injection Hs as Hs.
    + eapply after_load_returns in Hm as [-> E]; [|exact Hs]. by split_and!.
    + subst s. by apply machine_done in Hm as [_ [=]].
    + exfalso. eapply cleaning_never_returns; [|exact Hm]. pose proof (give_back_cleaning reply) as X. by rewrite Hs in X.
  - injection Hs as Hs. eapply after_load_returns in Hm as [-> E]; [|exact Hs]. by split_and!.
Qed.

End run.

Definition running0 : local_event := LocalEvent 1 7 0 "running" 0 0.
Definition exited0 : local_event := LocalEvent 0 7 0 "exited" 0 0.
Definition answer0 : local_event := LocalEvent 2 0 0 "ok" 0 0.
Definition inputs0 : list run_input := [I_reply running0; I_cancel; I_reply answer0; I_reply answer0; I_reply answer0; I_reply exited0; I_reply answer0].


(** ** Runs of the adapter *)

Record lsystem := LSys {
  ls_runtime : ShellRuntime;
  ls_noted : list (Z * Z);            (* history: the identities of all news, in order *)
  ls_told : list (Z * Z)              (* history: those the host was told *)
}.

(** The news is new: neither seen lately nor after the end. *)
Definition is_news (ev : local_event) (r : ShellRuntime) : bool :=
  (le_request ev =? 0) && negb (bool_decide ((le_session ev, le_sequence ev) ∈ rt_seen r) || rt_closed r).

Inductive local_step : lsystem -> lsystem -> Prop :=
| ls_event r n t ev r' told :
    _deliver ev r = (r', told) ->
    local_step (LSys r n t) (LSys r' (if is_news ev r then n ++ [(le_session ev, le_sequence ev)] else n)
                                     (if told then t ++ [(le_session ev, le_sequence ev)] else t))
| ls_request r n t operation turn cleanup :
    local_step (LSys r n t) (LSys (local_request_begin operation turn cleanup r).1 n t)
| ls_request_end r n t request : local_step (LSys r n t) (LSys (local_request_end request r) n t)
| ls_foreground r n t d : local_step (LSys r n t) (LSys (set_foreground d r) n t)
| ls_snapshot r n t action session ev : local_step (LSys r n t) (LSys (session_answered action session ev r) n t)
| ls_consumed r n t session : local_step (LSys r n t) (LSys (_mark_consumed session r) n t)
| ls_drained r n t : local_step (LSys r n t) (LSys (drain_local r).1 n t)
| ls_close_idle r n t r' : close_idle r = (r', Ok tt) -> local_step (LSys r n t) (LSys r' n t)
| ls_closing r n t : local_step (LSys r n t) (LSys (close_begin r).1 n t)
| ls_closed r n t : local_step (LSys r n t) (LSys (runtime_closed r) n t)
| ls_emptied r n t : local_step (LSys r n t) (LSys (emptied r) n t).

(** The last [k] elements. *)
Definition lastn {A} (k : nat) (l : list A) : list A := drop (length l - k) l.

(** Equal elements are more than [k] apart. *)
Definition spaced {A} (k : nat) (l : list A) : Prop := forall i j x, (i < j)%nat -> l !! i = Some x -> l !! j = Some x -> (k < j - i)%nat.

Lemma elem_lastn {A} k (l : list A) i x : l !! i = Some x -> (length l - k <= i)%nat -> x ∈ lastn k l.
Proof.
  intros Hi Hk. unfold lastn. apply list_elem_of_lookup. exists (i - (length l - k))%nat. rewrite lookup_drop. rewrite <- Hi. f_equal. lia.
Qed.

Lemma spaced_snoc {A} k (l : list A) x : spaced k l -> x ∉ lastn k l -> spaced k (l ++ [x]).
Proof.
  intros Hs Hx i j y Hij Hi Hj. pose proof (lookup_lt_Some _ _ _ Hj) as Hlen. rewrite length_app in Hlen. cbn in Hlen.
  destruct (decide (j < length l)%nat) as [Hl | Hl].
  - rewrite lookup_app_l in Hi, Hj by lia. by eapply Hs.
  - assert (j = length l) as -> by lia. rewrite lookup_app_l in Hi by lia. rewrite lookup_app_r, Nat.sub_diag in Hj by lia. injection Hj as ->.
    destruct (decide (k < length l - i)%nat); [done|]. exfalso. apply Hx. eapply elem_lastn; [exact Hi|lia].
Qed.

Lemma lastn_snoc {A} k (l : list A) x : lastn (S k) (l ++ [x]) = lastn k l ++ [x].
Proof. unfold lastn. rewrite length_app. cbn. rewrite drop_app_le by lia. do 2 f_equal. lia. Qed.

Lemma length_lastn {A} k (l : list A) : length (lastn k l) = Nat.min k (length l).
Proof. unfold lastn. rewrite length_drop. lia. Qed.

Lemma lastn_tail {A} k (l : list A) : (k < length l)%nat -> exists y, lastn (S k) l = y :: lastn k l.
Proof.
  intros H. unfold lastn. destruct (lookup_lt_is_Some_2 l (length l - S k)) as [y Hy]; [lia|]. exists y.
  rewrite (drop_S _ _ _ Hy). do 2 f_equal. lia.
Qed.

Record local_ok (S : lsystem) : Prop := {
  lo_window : rt_closed (ls_runtime S) = false -> rt_seen (ls_runtime S) = lastn SEEN (ls_noted S);
  lo_spaced : spaced SEEN (ls_noted S);
  lo_told : ls_told S `sublist_of` ls_noted S;
  lo_live : forall session c, dget session (rt_completions (ls_runtime S)) = Some c -> session ∉ rt_consumed (ls_runtime S) /\ cp_session c = session;
  lo_numbers : forall n p, dget n (rt_pending (ls_runtime S)) = Some p -> n <= rt_sequence (ls_runtime S);
  lo_replies : forall n p ev, dget n (rt_pending (ls_runtime S)) = Some p -> lr_future p = Settled ev -> le_request ev = n
}.

(** What noting an event does to the window. *)
Lemma note_seen_spec id r :
  (length (rt_seen r) <= SEEN)%nat ->
  rt_seen (note_seen id r) = lastn SEEN (rt_seen r ++ [id]) /\ rt_consumed (note_seen id r) ⊆ rt_consumed r /\
  rt_completions (note_seen id r) = rt_completions r /\ rt_pending (note_seen id r) = rt_pending r /\
  rt_sequence (note_seen id r) = rt_sequence r /\ rt_closed (note_seen id r) = rt_closed r.
Proof.
  intros Hl. unfold note_seen. destruct (rt_seen r ++ [id]) as [|x rest] eqn:E; [by destruct (rt_seen r)|].
  assert (Hlen : length (x :: rest) = S (length (rt_seen r))) by (rewrite <- E, length_app; cbn; lia).
  destruct (Nat.ltb_spec SEEN (length (x :: rest))) as [H | H]; cbn [rt_seen rt_consumed rt_completions rt_pending rt_sequence rt_closed]; split_and!; try done.
  - unfold lastn. replace (length (x :: rest) - SEEN)%nat with 1%nat by lia. done.
  - intros y Hy. by apply list_elem_of_filter in Hy as [_ ?].
  - unfold lastn. by replace (length (x :: rest) - SEEN)%nat with 0%nat by lia.
Qed.

Lemma lastn_app_window {A} k (l : list A) x : lastn k (lastn k l ++ [x]) = lastn k (l ++ [x]).
Proof.
  destruct k as [|k]; [unfold lastn at 1 3; by rewrite !drop_ge by (rewrite ?length_app, ?length_lastn; cbn; lia)|].
  rewrite !lastn_snoc. f_equal. unfold lastn at 1. rewrite length_lastn. unfold lastn. rewrite drop_drop. f_equal. lia.
Qed.

(** Operations that leave the window and the replies alone. *)
Lemma quiet_ok r r' n t :
  local_ok (LSys r n t) -> (rt_closed r' = false -> rt_closed r = false /\ rt_seen r' = rt_seen r) ->
  (forall session c, dget session (rt_completions r') = Some c -> dget session (rt_completions r) = Some c /\ session ∉ rt_consumed r') ->
  rt_pending r' = rt_pending r -> rt_sequence r' = rt_sequence r ->
  local_ok (LSys r' n t).
Proof.
  intros [H1 H2 H3 H4 H5 H6] Hc Hl Ep Es. constructor; cbn in *; rewrite ?Ep, ?Es; try done.
  - intros X. destruct (Hc X) as [Y ->]. by apply H1.
  - intros session c X. destruct (Hl _ _ X) as [Y ?]. split; [done|]. by destruct (H4 _ _ Y).
Qed.

Lemma local_reply_ok r n t ev : local_ok (LSys r n t) -> local_ok (LSys (deliver_reply ev r) n t).
Proof.
  intros Hok. unfold deliver_reply. destruct (dget (le_request ev) (rt_pending r)) as [p|] eqn:Ep; [|done].
  set (r1 := if _ : bool then _ else _ : ShellRuntime). assert (Hr1 : rt_seen r1 = rt_seen r /\ rt_consumed r1 = rt_consumed r /\ rt_completions r1 = rt_completions r /\
    rt_pending r1 = rt_pending r /\ rt_sequence r1 = rt_sequence r /\ rt_closed r1 = rt_closed r) by (subst r1; by destruct (_ && _)).
  clearbody r1. destruct Hr1 as (E1 & E2 & E3 & E4 & E5 & E6). destruct Hok as [H1 H2 H3 H4 H5 H6]; cbn [ls_runtime ls_noted ls_told] in *.
  destruct (lr_future p) eqn:Ef; constructor; cbn; rewrite ?E1, ?E2, ?E3, ?E4, ?E5, ?E6; try done.
  - intros m q. rewrite dget_dset. case_decide as Hd; [intros _; subst m; by eapply H5|apply H5].
  - intros m q ev'. rewrite dget_dset. case_decide as Hd; [|apply H6]. intros [= <-] [= <-]. done.
Qed.

Lemma event_ok r n t ev r' told :
  local_ok (LSys r n t) -> le_request ev = 0 -> deliver_event ev r = (r', told) ->
  local_ok (LSys r' (if is_news ev r then n ++ [(le_session ev, le_sequence ev)] else n) (if told then t ++ [(le_session ev, le_sequence ev)] else t)).
Proof.
  intros Hok Hq E. unfold deliver_event in E. unfold is_news. rewrite Hq. cbn [Z.eqb andb]. set (id := (le_session ev, le_sequence ev)) in *.
  destruct (bool_decide (id ∈ rt_seen r) || rt_closed r) eqn:En; [by injection E as <- <-|]. cbn [negb].
  apply orb_false_iff in En as [En Ec]. apply bool_decide_eq_false in En.
  destruct Hok as [H1 H2 H3 H4 H5 H6]; cbn [ls_runtime ls_noted ls_told] in *. pose proof (H1 Ec) as Ew. rewrite Ew in En.
  destruct (note_seen_spec id r) as (N1 & N2 & N3 & N4 & N5 & N6); [rewrite Ew, length_lastn; lia|]. rewrite Ew, lastn_app_window in N1.
  assert (Hmin : local_ok (LSys (note_seen id r) (n ++ [id]) t)).
  { constructor; cbn; rewrite ?N1, ?N3, ?N4, ?N5, ?N6; try done; [by apply spaced_snoc|by apply sublist_inserts_r|].
    intros session c X. destruct (H4 _ _ X). split; [set_solver|done]. }
  case_bool_decide as Hcons; injection E as <- <-; [done|].
  destruct Hmin as [M1 M2 M3 M4 M5 M6]; constructor; cbn in *; try done.
  - by apply sublist_app.
  - intros session c. rewrite dget_dset. case_decide as Hd; [|apply M4]. intros [= <-]. by subst session.
Qed.

Lemma consumed_ok r n t session : local_ok (LSys r n t) -> local_ok (LSys (_mark_consumed session r) n t).
Proof.
  intros Hok. eapply quiet_ok; [exact Hok|done| |done..]. intros s c X. cbn [_mark_consumed rt_completions rt_consumed] in X |- *. rewrite dget_ddel in X.
  case_decide; [done|]. split; [done|]. pose proof (proj1 (lo_live _ Hok s c X)) as Y. cbn in Y. case_bool_decide; [done|]. set_solver.
Qed.

Lemma owners_ok r n t d : local_ok (LSys r n t) -> local_ok (LSys (set_owners d r) n t).
Proof. intros Hok. eapply quiet_ok; [exact Hok|done| |done..]. intros s c X. split; [done|]. by apply (lo_live _ Hok s c). Qed.

Lemma dropped_ok r n t session : local_ok (LSys r n t) -> local_ok (LSys (set_local_completions (ddel session (rt_completions r)) r) n t).
Proof.
  intros Hok. eapply quiet_ok; [exact Hok|done| |done..]. intros s c X. cbn [set_local_completions rt_completions] in X. rewrite dget_ddel in X.
  case_decide; [done|]. split; [done|]. by apply (lo_live _ Hok s c).
Qed.

Lemma local_step_ok S S' : local_step S S' -> local_ok S -> local_ok S'.
Proof.
  intros [] Hok; cbn in *.
  - unfold _deliver in H. destruct (Z.eqb_spec (le_request ev) 0) as [E | E]; [by eapply event_ok|].
    injection H as <- <-. unfold is_news. replace (le_request ev =? 0) with false by lia. by apply local_reply_ok.
  - unfold local_request_begin. destruct (_ && _); [done|]. destruct Hok as [H1 H2 H3 H4 H5 H6]; cbn in *. constructor; cbn; try done.
    + intros m p. rewrite dget_dset. case_decide; [subst; lia|]. intros X. specialize (H5 _ _ X). lia.
    + intros m p ev. rewrite dget_dset. case_decide; [by intros [= <-]|apply H6].
  - destruct Hok as [H1 H2 H3 H4 H5 H6]; cbn in *. constructor; cbn; try done; intros m p; rewrite dget_ddel; case_decide; try done; [apply H5|intros ev; apply H6].
  - eapply quiet_ok; [exact Hok|done| |done..]. intros s c X. split; [done|]. by apply (lo_live _ Hok s c).
  - unfold session_answered. set (r1 := if bool_decide _ then _ else r).
    assert (H1 : local_ok (LSys r1 n t)).
    { subst r1. case_bool_decide; [|done]. destruct (dget session (rt_completions r)) as [c|]; [|done]. destruct (_ <? _); [|done]. by apply dropped_ok. }
    case_decide; [|done]. by apply consumed_ok, owners_ok.
  - by apply consumed_ok.
  - eapply quiet_ok; [exact Hok|done|done|done..].
  - unfold close_idle in H. destruct (_ || _); [done|]. injection H as <-. eapply quiet_ok; [exact Hok|done|done|done..].
  - eapply quiet_ok; [exact Hok|done| |done..]. intros s c X. split; [done|]. by apply (lo_live _ Hok s c).
  - eapply quiet_ok; [exact Hok|done| |done..]. intros s c X. split; [done|]. by apply (lo_live _ Hok s c).
  - eapply quiet_ok; [exact Hok|done|done|done..].
Qed.

(** The host is told news of a session at most once within 256 later ones, never holds
    news of a session that was consumed, and a reply of the runtime settles only the request
    that carries its number. *)
Theorem local_news_is_told_once S :
  rtc local_step (LSys new_runtime [] []) S ->
  (forall i j x, (i < j)%nat -> ls_noted S !! i = Some x -> ls_noted S !! j = Some x -> (256 < j - i)%nat) /\
  ls_told S `sublist_of` ls_noted S /\
  (forall session c, dget session (rt_completions (ls_runtime S)) = Some c -> session ∉ rt_consumed (ls_runtime S)) /\
  (forall n p ev, dget n (rt_pending (ls_runtime S)) = Some p -> lr_future p = Settled ev -> le_request ev = n).
Proof.
  intros H. assert (Hok : local_ok S).
  { revert S H. apply (rtc_ind_r (R := local_step) local_ok (LSys new_runtime [] [])); [|intros x y _ Hs Hx; by eapply local_step_ok].
    constructor; cbn; done. }
  destruct Hok as [H1 H2 H3 H4 H5 H6]. split_and!; [exact H2|done| |done]. intros session c X. by destruct (H4 _ _ X).
Qed.

Lemma local_news_is_told_once_witness :
  let r := (_deliver exited0 new_runtime).1 in
  dkeys (rt_completions r) = [7] /\ 7 ∉ rt_consumed r.
Proof.
  split; [reflexivity|].
  pose proof (local_news_is_told_once (LSys (_deliver exited0 new_runtime).1 [(7, 0)] [(7, 0)])) as H.
  eapply (proj1 (proj2 (proj2 (H (rtc_once _ _ (ls_event new_runtime [] [] exited0 _ true eq_refl)))))). reflexivity.
Defined.

(** The window forgets: late news of a consumed session is told when it pushes out the last
    remembered news of the same session. *)
Example late_news_of_a_consumed_session :
  let seen := (7, 0) :: ((fun i => (100 + Z.of_nat i, 0)) <$> seq 0 255) in
  let r := Runtime 0 [] [] [] [] seen [7] false false in
  (deliver_event (LocalEvent 0 7 1 "exited" 0 0) r).2 = true.
Proof. reflexivity. Qed.
