(* ===== verification/Retirement.v ===== *)
(** * Temporary turns and interruption

    [runtime.py], class [NativeShellOwner]: the end of a temporary turn ([finish_transient_turn],
    [queue_transient_retirement], [_retire_transient_work]), the interruption of a turn
    ([interrupt]) and the guard of a detach ([check_idle], [close_idle]).  What the shell
    answers is an argument. *)

From S2P Require Import Prelude Dict Utf8 PyValue LifecycleTable Lifecycle Observations.
Open Scope Z_scope.

(** ** The queue of cleanups *)

Record retirement := Retirement {
  rq_retiring : list string;          (* self.retiring_transient_turns *)
  rq_tasks : list string;             (* the keys of self.transient_retirement_tasks *)
  rq_again : list string;             (* self._transient_retirement_again *)
  rq_closed : bool
}.
Definition no_retirement : retirement := Retirement [] [] [] false.

Definition with_turn (t : string) (l : list string) : list string := if decide (t ∈ l) then l else t :: l.
Definition without_turn (t : string) (l : list string) : list string := filter (fun x => x <> t) l.

Definition queue_transient_retirement (t : string) (q : retirement) : retirement :=
  if rq_closed q || bool_decide (t ∉ rq_retiring q) then q
  else if decide (t ∈ rq_tasks q) then Retirement (rq_retiring q) (rq_tasks q) (with_turn t (rq_again q)) (rq_closed q)
  else Retirement (rq_retiring q) (t :: rq_tasks q) (rq_again q) (rq_closed q).

Inductive cleanup_end := CleanupOk | CleanupError | CleanupCancelled.

(** [finished], the callback of a cleanup. *)
Definition cleanup_finished (t : string) (e : cleanup_end) (q : retirement) : retirement :=
  let again := bool_decide (t ∈ rq_again q) in
  let q := Retirement (rq_retiring q) (without_turn t (rq_tasks q)) (without_turn t (rq_again q)) (rq_closed q) in
  match e with
  | CleanupCancelled => q
  | CleanupOk => Retirement (without_turn t (rq_retiring q)) (rq_tasks q) (rq_again q) (rq_closed q)
  | CleanupError => if negb (rq_closed q) && again then queue_transient_retirement t q else q
  end.

Definition finish_transient_turn (t : string) (q : retirement) : retirement :=
  if rq_closed q then q
  else queue_transient_retirement t (Retirement (with_turn t (rq_retiring q)) (rq_tasks q) (rq_again q) (rq_closed q)).

(** [attach_remote] tries what a missing backend kept. *)
Definition attach_remote (q : retirement) : retirement := foldl (fun q t => queue_transient_retirement t q) q (rq_retiring q).

(** [close]: the tasks are cancelled and have ended. *)
Definition retirement_close (q : retirement) : retirement := Retirement [] [] [] true.

(** ** [_retire_transient_work] *)

(** How the end of a session's work went: terminated, read to its end and released; unknown
    to the shell; any other failure. *)
Inductive retire_outcome := Retired | InvalidSession | RetireFailed.

#[export] Instance retire_outcome_eq_dec : EqDecision retire_outcome.
Proof. solve_decision. Defined.

Definition transient_sessions (t : string) (o : owner) : list Z :=
  dkeys (filter (fun p => ss_origin_turn p.2 = t /\ ss_transient p.2 = true) (ow_sessions o)).

(** One turn of the loop over the sessions; whether it added an error. *)
Definition retire_session (outcome : Z -> retire_outcome) (st : owner * nat) (sid : Z) : owner * nat :=
  let '(o, errors) := st in
  if sid =? 0 then (set_sessions (ddel sid (ow_sessions o)) o, errors)
  else match outcome sid with
       | RetireFailed => (o, S errors)
       | Retired | InvalidSession => (forget_session sid o, errors)
       end.

(** One turn of the loop over the outputs; [released]: the release was confirmed. *)
Definition retire_output (t : string) (released : output_ref -> bool) (st : owner * nat) (x : output_ref * PendingOutput) : owner * nat :=
  let '(o, errors) := st in
  let '(call, p) := x in
  if negb (bool_decide (po_turn_id p = t)) then (o, errors)
  else if po_borrowed p then (set_outputs (ddel call (ow_outputs o)) o, errors)
  else if dmem (raw_sid (po_result p)) (ow_sessions o) then (o, errors)
  else if negb (released call) then (o, S errors)
  else
    let o := set_outputs (ddel call (ow_outputs o)) o in
    (match call with OfCall id => release_input_lease id o | OfEvent _ => o end, errors).

(** [errors]: what [reconcile_transient] left. *)
Definition _retire_transient_work (t : string) (outcome : Z -> retire_outcome) (released : output_ref -> bool) (errors : nat) (o : owner) : owner * nat :=
  let '(o, errors) := foldl (retire_session outcome) (o, errors) (transient_sessions t o) in
  foldl (retire_output t released) (o, errors) (ow_outputs o).

(** ** [interrupt] *)

Definition REMOTE_SESSIONS : Z := 2 ^ 48.

Definition interrupted_sessions (t : string) (o : owner) : list Z :=
  dkeys (filter (fun p => p.1 < REMOTE_SESSIONS /\ ss_origin_turn p.2 = t /\ ss_committed p.2 = false) (ow_sessions o)).

Definition interrupted_output (t : string) (o : owner) (x : output_ref * PendingOutput) : owner :=
  let '(call, p) := x in
  let drop := set_outputs (ddel call (ow_outputs o)) o in
  if bool_decide (po_turn_id p = t) && po_borrowed p then drop
  else if negb (raw_int "target" (po_result p) =? 0) then o
  else if bool_decide (po_turn_id p = t) && negb (dmem (raw_sid (po_result p)) (ow_sessions o)) then drop
  else o.

(** After the foreground tasks of the turn were cancelled. *)
Definition interrupt (t : string) (o : owner) : owner :=
  let o := foldl (fun o sid => forget_session sid o) o (interrupted_sessions t o) in
  foldl (interrupted_output t) o (ow_outputs o).

(** ** [check_idle] and [close_idle] *)

(** What the owner asks of its parts. *)
Record activity := Activity {
  ac_observing : bool;                (* a refresh or a load of an observation runs *)
  ac_shell_work : bool;               (* has_work of the files and of the shell *)
  ac_active_calls : Z;
  ac_events : bool;                   (* a completion source is attached: self.events *)
  ac_event_tasks : bool;              (* events.tasks that are not done *)
  ac_shell_requests : bool            (* remote_foreground or _pending of the shell *)
}.

(** [has_work] *)
Definition has_work (a : activity) (o : owner) : bool := observed_work o || ac_shell_work a.

Definition check_idle (a : activity) (q : retirement) (o : owner) : bool :=
  bool_decide (rq_tasks q = []) && bool_decide (ow_acking o = []) && negb (ac_observing a) &&
  negb (has_work a o) && (ac_active_calls a =? 0) && negb (ac_events a && ac_event_tasks a) && negb (ac_shell_requests a).

(** The shell is dropped with its completions; the completion source shares [pending] and
    [failures] with the observations. *)
Definition owner_close_idle (a : activity) (q : retirement) (o : owner) : option owner :=
  if check_idle a q o
  then Some (Owner [] [] [] (ow_latest o) (if ac_events a then [] else ow_pending o) (ow_claims o) (ow_prepared o) (ow_preparing o)
               (if ac_events a then [] else ow_failures o) (ow_covered o) (ow_acking o) [] (ow_memory o) true (ow_log o))
  else None.

(** ** Theorems: what a cleanup removes *)

Lemma forget_session_sessions sid o : ow_sessions (forget_session sid o) = if sid =? 0 then ow_sessions o else ddel sid (ow_sessions o).
Proof.
  unfold forget_session. destruct (sid =? 0); [done|]. cbn. f_equal. unfold forget_observation, release_session_inputs.
  destruct (dget sid (ow_sessions o)); cbn; destruct (dget sid (ow_latest o)); cbn; by destruct (dget sid (ow_pending o)).
Qed.

Lemma forget_session_outputs sid o :
  ow_outputs (forget_session sid o) = if sid =? 0 then ow_outputs o else outputs_without_session sid (ow_outputs o).
Proof.
  unfold forget_session. destruct (sid =? 0); [done|]. cbn. f_equal. unfold forget_observation, release_session_inputs.
  destruct (dget sid (ow_sessions o)); cbn; destruct (dget sid (ow_latest o)); cbn; by destruct (dget sid (ow_pending o)).
Qed.

(** The session ends with the loop. *)
Definition removed (outcome : Z -> retire_outcome) (sid : Z) : Prop := sid = 0 \/ outcome sid <> RetireFailed.
#[export] Instance removed_dec outcome sid : Decision (removed outcome sid).
Proof. unfold removed. apply _. Defined.

Lemma outputs_without_session_dget sid d call p :
  dwf d -> dget call (outputs_without_session sid d) = Some p <-> dget call d = Some p /\ raw_sid (po_result p) <> sid.
Proof.
  intros Hw. unfold outputs_without_session. rewrite dget_filter by done. destruct (dget call d) as [q|]; [|naive_solver]. cbn.
  case_decide; naive_solver.
Qed.

Definition owner_wf (o : owner) : Prop := dwf (ow_sessions o) /\ dwf (ow_outputs o).

Lemma retire_sessions_spec outcome l o n o' n' :
  owner_wf o -> foldl (retire_session outcome) (o, n) l = (o', n') ->
  owner_wf o' /\ (n <= n')%nat /\
  (forall sid, dget sid (ow_sessions o') = if decide (sid ∈ l /\ removed outcome sid) then None else dget sid (ow_sessions o)) /\
  (forall call p, dget call (ow_outputs o') = Some p -> dget call (ow_outputs o) = Some p) /\
  (forall call p, dget call (ow_outputs o) = Some p -> raw_sid (po_result p) = 0 \/ ~ (raw_sid (po_result p) ∈ l /\ removed outcome (raw_sid (po_result p))) ->
     dget call (ow_outputs o') = Some p) /\
  (n' = n -> forall sid, sid ∈ l -> removed outcome sid).
Proof.
  revert o n. induction l as [|sid l IH]; intros o n Hwf; cbn [foldl].
  { intros [= <- <-]. split_and!; try done; by intros _ sid ?%elem_of_nil. }
  destruct (retire_session outcome (o, n) sid) as [o1 n1] eqn:E1. intros E2.
  assert (H1 : owner_wf o1 /\ (n <= n1)%nat /\ ow_sessions o1 = (if decide (removed outcome sid) then ddel sid (ow_sessions o) else ow_sessions o) /\
    ow_outputs o1 = (if decide (removed outcome sid /\ sid <> 0) then outputs_without_session sid (ow_outputs o) else ow_outputs o) /\
    (n1 = n -> removed outcome sid)).
  { destruct Hwf as [W1 W2]. unfold retire_session in E1. destruct (Z.eqb_spec sid 0) as [-> | Hne].
    - injection E1 as <- <-. rewrite (decide_True (P := removed outcome 0)) by (by left). rewrite decide_False by tauto. cbn.
      split_and!; try done; [split; [by apply dwf_ddel|done]|by left].
    - assert (Hf : owner_wf (forget_session sid o)).
      { split; [rewrite forget_session_sessions|rewrite forget_session_outputs]; replace (sid =? 0) with false by lia; [by apply dwf_ddel|by apply dwf_filter]. }
      assert (Hs := forget_session_sessions sid o). assert (Ho := forget_session_outputs sid o). replace (sid =? 0) with false in Hs, Ho by lia.
      destruct (outcome sid) eqn:Eo; injection E1 as <- <-.
      1, 2: rewrite !decide_True by (unfold removed; rewrite Eo; intuition congruence); split_and!; try done; intros _; right; congruence.
      rewrite !decide_False by (unfold removed; rewrite Eo; intuition congruence). split_and!; try done; lia. }
  destruct H1 as (Hwf1 & Hle1 & Es & Eo & Hn1). destruct (IH _ _ Hwf1 E2) as (Hwf' & Hle & Hs & Ho1 & Ho2 & Hn). clear IH.
  split_and!; [done|lia|..].
  - intros s. rewrite Hs, Es. destruct (decide (removed outcome sid)) as [Hr | Hr]; [rewrite dget_ddel|];
      repeat case_decide; rewrite ?elem_of_cons in *; subst; try done; intuition congruence.
  - intros call p Hp. apply Ho1 in Hp. rewrite Eo in Hp. case_decide; [|done]. by apply outputs_without_session_dget in Hp as [? _]; [|apply Hwf].
  - intros call p Hp Hc. apply Ho2; [|rewrite elem_of_cons in Hc; tauto]. rewrite Eo. case_decide as Hd; [|done].
    apply outputs_without_session_dget; [apply Hwf|]. split; [done|]. intros E. destruct Hd as [Hr Hz]. rewrite E in Hc. destruct Hc as [|Hc]; [done|]. apply Hc. split; [by left|done].
  - intros -> s [-> | Hs']%elem_of_cons; [apply Hn1; lia|]. apply Hn; [lia|done].
Qed.

(** Which outputs the second loop removes. *)
Definition output_goes (t : string) (o : owner) (p : PendingOutput) : Prop :=
  po_turn_id p = t /\ (po_borrowed p = true \/ dget (raw_sid (po_result p)) (ow_sessions o) = None).

Lemma retire_outputs_spec t released l o n o' n' :
  foldl (retire_output t released) (o, n) l = (o', n') ->
  ow_sessions o' = ow_sessions o /\ (n <= n')%nat /\
  (forall call p, dget call (ow_outputs o') = Some p -> dget call (ow_outputs o) = Some p) /\
  (forall call p, dget call (ow_outputs o) = Some p -> (forall q, (call, q) ∈ l -> po_turn_id q <> t) -> dget call (ow_outputs o') = Some p) /\
  (n' = n -> forall call p, (call, p) ∈ l -> output_goes t o p -> dget call (ow_outputs o') = None).
Proof.
  revert o n. induction l as [|[call p] l IH]; intros o n; cbn [foldl].
  { intros [= <- <-]. split_and!; try done. by intros _ call p ?%elem_of_nil. }
  destruct (retire_output t released (o, n) (call, p)) as [o1 n1] eqn:E1. intros E2.
  assert (H1 : ow_sessions o1 = ow_sessions o /\ (n <= n1)%nat /\
    ((ow_outputs o1 = ow_outputs o /\ (n1 = n -> ~ output_goes t o p)) \/ (ow_outputs o1 = ddel call (ow_outputs o) /\ po_turn_id p = t))).
  { unfold retire_output in E1. case_bool_decide as Ht; cbn [negb] in E1; [|injection E1 as <- <-; split_and!; try done; left; split; [done|by intros _ [? _]]].
    destruct (po_borrowed p) eqn:Eb; [injection E1 as <- <-; cbn; split_and!; try done; by right|].
    destruct (dmem (raw_sid (po_result p)) (ow_sessions o)) eqn:Em.
    { injection E1 as <- <-. split_and!; try done. left. split; [done|]. intros _ [_ [|E]]; [congruence|]. apply dmem_true in Em as [v Em]. congruence. }
    destruct (released call); cbn [negb] in E1; injection E1 as <- <-.
    - destruct call; cbn; split_and!; try done; by right.
    - split_and!; [done|lia|]. left. split; [done|lia]. }
  destruct H1 as (Es & Hle & H1). destruct (IH _ _ E2) as (Es' & Hle' & I1 & I2 & I3). clear IH. split_and!; [congruence|lia|..].
  - intros c q Hq. apply I1 in Hq. destruct H1 as [[E _] | [E _]]; rewrite E in Hq; [done|]. rewrite dget_ddel in Hq. by case_decide.
  - intros c q Hq Hn. apply I2; [|intros q' Hq'; apply Hn; by right]. destruct H1 as [[-> _] | [-> Ht]]; [done|]. rewrite dget_ddel. case_decide; [|done].
    subst c. exfalso. apply (Hn p); [by left|done].
  - intros -> c q [[= -> ->] | Hin]%elem_of_cons Hg.
    + destruct H1 as [[_ H1] | [E _]]; [exfalso; apply H1; [lia|done]|]. destruct (dget call (ow_outputs o')) as [x|] eqn:X; [|done]. apply I1 in X. by rewrite E, dget_ddel_eq in X.
    + apply (I3 ltac:(lia) c q Hin). unfold output_goes in *. by rewrite Es.
Qed.

(** The end of a temporary turn removes what the turn left: when it reports no error, no
    temporary session of the turn and no output of the turn is left, except outputs of
    sessions that stay; a session whose end could not be confirmed is kept, and so is
    everything of other turns. *)
Theorem temporary_turns_are_retired t outcome released errors o o' n :
  owner_wf o -> _retire_transient_work t outcome released errors o = (o', n) ->
  (n = 0%nat ->
    (forall sid s, dget sid (ow_sessions o') = Some s -> ss_origin_turn s = t -> ss_transient s = false) /\
    (forall call p, dget call (ow_outputs o') = Some p -> po_turn_id p = t -> po_borrowed p = false /\ is_Some (dget (raw_sid (po_result p)) (ow_sessions o')))) /\
  (forall sid s, dget sid (ow_sessions o) = Some s ->
    ss_origin_turn s <> t \/ ss_transient s = false \/ (sid <> 0 /\ outcome sid = RetireFailed) -> dget sid (ow_sessions o') = Some s) /\
  (forall call p, dget call (ow_outputs o) = Some p -> po_turn_id p <> t ->
    raw_sid (po_result p) = 0 \/ raw_sid (po_result p) ∉ transient_sessions t o -> dget call (ow_outputs o') = Some p).
Proof.
  intros Hwf H. unfold _retire_transient_work in H. destruct (foldl (retire_session outcome) _ _) as [o1 n1] eqn:E1.
  apply retire_sessions_spec in E1 as (Hwf1 & Hle & Hs & Ho1 & Ho2 & Hn1); [|done]. pose proof H as Hfold. apply retire_outputs_spec in H as (Es & Hle' & I1 & I2 & I3).
  assert (Hmem : forall sid, sid ∈ transient_sessions t o <-> exists s, dget sid (ow_sessions o) = Some s /\ ss_origin_turn s = t /\ ss_transient s = true).
  { intros sid. unfold transient_sessions. rewrite <- dget_is_Some. rewrite dget_filter by apply Hwf. destruct (dget sid (ow_sessions o)) as [s|]; cbn.
    - case_decide as Hd; cbn in Hd; split; intros X; [by exists s|by eexists|by destruct X|]. destruct X as (s' & [= <-] & ? & ?). tauto.
    - split; [by intros [? ?]|by intros (? & ? & _)]. }
  split_and!.
  - intros ->. assert (n1 = 0%nat) as -> by lia. assert (errors = 0%nat) as -> by lia. rewrite Es. split.
    + intros sid s X Ht. destruct (ss_transient s) eqn:Etr; [|done]. rewrite Hs in X. case_decide as Hd; [done|]. exfalso. apply Hd.
      assert (sid ∈ transient_sessions t o) by (apply Hmem; eauto). split; [done|by apply Hn1].
    + intros call p X Ht. pose proof (I1 _ _ X) as Y. apply dget_elem in Y.
      destruct (po_borrowed p) eqn:Eb; [rewrite (I3 eq_refl call p Y) in X; [done|split; auto]|]. split; [done|].
      destruct (dget (raw_sid (po_result p)) (ow_sessions o1)) eqn:Ed; [done|]. rewrite (I3 eq_refl call p Y) in X; [done|split; auto].
  - intros sid s X Hc. rewrite Es, Hs. rewrite decide_False; [done|]. intros [Hin Hr]. apply Hmem in Hin as (s' & X' & ? & ?).
    assert (s' = s) as -> by congruence. destruct Hc as [|[|[? Hf]]]; [done|congruence|]. by destruct Hr.
  - intros call p X Ht Hc. apply I2; [apply Ho2; [done|]; destruct Hc as [?|Hc]; [by left|right; by intros [? _]]|].
    intros q Hq. assert (Y : dget call (ow_outputs o1) = Some p) by (apply Ho2; [done|]; destruct Hc as [?|Hc]; [by left|right; by intros [? _]]).
    apply elem_dget in Hq; [|apply Hwf1]. congruence.
Qed.

(** ** Theorems: the queue *)

Record qsystem := QSys {
  qs_queue : retirement;
  qs_asked : list string;             (* history: turns that were finished *)
  qs_cleaned : list string            (* history: turns with a cleanup that reported no error *)
}.

Inductive queue_step : qsystem -> qsystem -> Prop :=
| qs_finish q a c t : rq_closed q = false -> queue_step (QSys q a c) (QSys (finish_transient_turn t q) (t :: a) c)
| qs_attach q a c : queue_step (QSys q a c) (QSys (attach_remote q) a c)
| qs_ended q a c t e :
    t ∈ rq_tasks q -> queue_step (QSys q a c) (QSys (cleanup_finished t e q) a (match e with CleanupOk => t :: c | _ => c end))
| qs_close q a c : queue_step (QSys q a c) (QSys (retirement_close q) a c).

Record queue_ok (S : qsystem) : Prop := {
  qo_tasks : NoDup (rq_tasks (qs_queue S));
  qo_retiring : rq_tasks (qs_queue S) ⊆ rq_retiring (qs_queue S);
  qo_again : rq_again (qs_queue S) ⊆ rq_tasks (qs_queue S);
  qo_kept : rq_closed (qs_queue S) = false -> forall t, t ∈ qs_asked S -> t ∈ rq_retiring (qs_queue S) \/ t ∈ qs_cleaned S
}.

Lemma elem_with_turn t l x : x ∈ with_turn t l <-> x = t \/ x ∈ l.
Proof. unfold with_turn. case_decide; [|by rewrite elem_of_cons]. split; [by right|]. by intros [-> | ?]. Qed.
Lemma elem_without_turn t l x : x ∈ without_turn t l <-> x <> t /\ x ∈ l.
Proof. unfold without_turn. by rewrite list_elem_of_filter. Qed.

(** Queueing never loses a turn and never starts a second task. *)
Lemma queue_keeps t q a c : queue_ok (QSys q a c) -> queue_ok (QSys (queue_transient_retirement t q) a c).
Proof.
  intros [H1 H2 H3 H4]; cbn in *. unfold queue_transient_retirement. destruct (rq_closed q) eqn:Ec; cbn; [by constructor; cbn; rewrite ?Ec|].
  case_bool_decide as Hr; [by constructor; cbn; rewrite ?Ec|].
  case_decide as Ht; constructor; cbn; rewrite ?Ec; try done.
  - intros x. rewrite elem_with_turn. intros [-> | Hx]; [done|by apply H3].
  - by constructor.
  - intros x [-> | Hx]%elem_of_cons; [done|by apply H2].
  - intros x Hx. right. by apply H3.
Qed.

Lemma queue_step_ok S S' : queue_step S S' -> queue_ok S -> queue_ok S'.
Proof.
  intros [] Hok.
  - unfold finish_transient_turn. rewrite H. apply queue_keeps. destruct Hok as [H1 H2 H3 H4]; constructor; cbn in *; try done.
    + intros x Hx. apply elem_with_turn. right. by apply H2.
    + intros Hc x. rewrite elem_with_turn. intros [-> | Hx]%elem_of_cons; [by left; left|]. destruct (H4 H x Hx); auto.
  - unfold attach_remote. generalize (rq_retiring q) at 1 as l. intros l. revert q Hok. induction l as [|t l IH]; intros q Hok; cbn; [done|]. by apply IH, queue_keeps.
  - assert (Hbase : queue_ok (QSys (Retirement (rq_retiring q) (without_turn t (rq_tasks q)) (without_turn t (rq_again q)) (rq_closed q)) a c)).
    { destruct Hok as [H1 H2 H3 H4]; constructor; cbn in *; try done; [by apply NoDup_filter|..].
      - intros x. rewrite elem_without_turn. intros [_ ?]. by apply H2.
      - intros x. rewrite !elem_without_turn. intros [? ?]. split; [done|by apply H3]. }
    destruct e; cbn; [|by destruct (_ && _); [apply queue_keeps|]|done].
    destruct Hbase as [H1 H2 H3 H4]; constructor; cbn in *; try done.
    + intros x Hx. apply elem_without_turn. apply elem_without_turn in Hx as Hy. destruct Hy. split; [done|by apply H2].
    + intros Hc x Hx. destruct (decide (x = t)) as [-> | Hne]; [right; by left|]. destruct (H4 Hc x Hx); [left; by apply elem_without_turn|right; by right].
  - constructor; cbn; try done. constructor.
Qed.

(** A finished temporary turn is not forgotten: until the owner closes it stays marked
    or a cleanup of it reported no error; at most one cleanup of a turn runs, and a cleanup
    that was asked for while another one ran starts when that one fails. *)
Theorem temporary_turns_are_not_forgotten S :
  rtc queue_step (QSys no_retirement [] []) S ->
  NoDup (rq_tasks (qs_queue S)) /\
  (rq_closed (qs_queue S) = false -> forall t, t ∈ qs_asked S -> t ∈ rq_retiring (qs_queue S) \/ t ∈ qs_cleaned S) /\
  (rq_closed (qs_queue S) = false -> forall t, t ∈ rq_again (qs_queue S) -> t ∈ rq_tasks (cleanup_finished t CleanupError (qs_queue S))).
Proof.
  intros H. assert (Hok : queue_ok S).
  { revert S H. apply (rtc_ind_r (R := queue_step) queue_ok (QSys no_retirement [] [])); [|intros x y _ Hs Hx; by eapply queue_step_ok].
    constructor; cbn; [constructor|done|done|by intros _ t ?%elem_of_nil]. }
  destruct Hok as [H1 H2 H3 H4]. split_and!; [done..|]. intros Hc t Ht.
  assert (Hr : t ∈ rq_retiring (qs_queue S)) by (by apply H2, H3).
  unfold cleanup_finished. cbn. rewrite bool_decide_eq_true_2 by done. rewrite Hc. cbn. unfold queue_transient_retirement. cbn.
  rewrite bool_decide_eq_false_2 by tauto. cbn. rewrite decide_False by (rewrite elem_without_turn; tauto). cbn. by left.
Qed.

(** ** Interruption *)

(** Interrupting a turn keeps remote sessions, committed ones and those of other turns, and
    no session of the turn that it should end is left. *)
Theorem interrupt_spares_others t o sid s :
  owner_wf o -> dget sid (ow_sessions o) = Some s ->
  dget sid (ow_sessions (interrupt t o)) =
    if decide (sid <> 0 /\ sid < REMOTE_SESSIONS /\ ss_origin_turn s = t /\ ss_committed s = false) then None else Some s.
Proof.
  intros Hwf Hs. unfold interrupt.
  assert (Hout : forall l o, ow_sessions (foldl (interrupted_output t) o l) = ow_sessions o).
  { clear. induction l as [|[call p] l IH]; intros o; cbn [foldl]; [done|]. rewrite IH. unfold interrupted_output.
    destruct (_ && _); [done|]. destruct (negb _); [done|]. by destruct (_ && _). }
  rewrite Hout.
  assert (Hses : forall l o, dget sid (ow_sessions (foldl (fun o sid => forget_session sid o) o l)) =
    if decide (sid <> 0 /\ sid ∈ l) then None else dget sid (ow_sessions o)).
  { clear. induction l as [|x l IH]; intros o; cbn [foldl]; [rewrite decide_False; [done|]; by intros [_ ?%elem_of_nil]|].
    rewrite IH, forget_session_sessions. destruct (Z.eqb_spec x 0) as [-> | Hx]; [|rewrite dget_ddel]; repeat case_decide; rewrite ?elem_of_cons in *; subst; try done; intuition congruence. }
  rewrite Hses, Hs. unfold interrupted_sessions.
  assert (Hin : sid ∈ dkeys (filter (fun p => p.1 < REMOTE_SESSIONS /\ ss_origin_turn p.2 = t /\ ss_committed p.2 = false) (ow_sessions o)) <->
    sid < REMOTE_SESSIONS /\ ss_origin_turn s = t /\ ss_committed s = false).
  { rewrite <- dget_is_Some, dget_filter by apply Hwf. rewrite Hs. cbn [fst snd].
    destruct (decide (sid < REMOTE_SESSIONS /\ ss_origin_turn s = t /\ ss_committed s = false)) as [Hd | Hd]; split; intros X; [exact Hd|by eexists|by destruct X|tauto]. }
  clear Hout Hses. repeat case_decide; try done; exfalso; tauto.
Qed.

(** ** Detaching *)

(** An owner that detaches loses nothing: it runs no cleanup, has no output and no event to
    deliver, has acknowledged what it delivered, and watches no session and no running one;
    after it, it is closed and holds no session, output or input. *)
Theorem idle_close_loses_nothing a q o o' :
  owner_close_idle a q o = Some o' ->
  (rq_tasks q = [] /\ ow_outputs o = [] /\ ow_acking o = [] /\ ac_shell_work a = false /\ ac_active_calls a = 0 /\
   forall sid s, dget sid (ow_sessions o) = Some s -> ss_watching s = false /\ exists status, ss_latest_status s = Some status /\ terminal status = true) /\
  ow_closed o' = true /\ ow_sessions o' = [] /\ ow_outputs o' = [] /\ ow_leases o' = [].
Proof.
  unfold owner_close_idle, check_idle, has_work, observed_work. destruct (_ && _) eqn:E; [|done]. intros [= <-].
  rewrite !andb_true_iff, !bool_decide_eq_true, !negb_true_iff, !orb_false_iff, Z.eqb_eq, negb_false_iff, bool_decide_eq_true in E.
  destruct E as [[[[[[Ht Ha] _] [[Hs Ho] Hw]] Hc] _] _].
  split; [|by cbn]. split_and!; [done|by destruct (ow_outputs o)|done..|].
  intros sid s Hget. apply dget_elem in Hget.
  pose proof (proj2 (not_true_iff_false _) Hs) as Hn.
  assert (X : (ss_watching s || negb (match ss_latest_status s with Some status => terminal status | None => false end)) = false).
  { apply not_true_iff_false. intros X. apply Hn. apply existsb_exists. exists s. split; [|exact X].
    apply list_elem_of_In. unfold dvals. apply list_elem_of_fmap. by exists (sid, s). }
  apply orb_false_iff in X as [X1 X2]. split; [done|]. destruct (ss_latest_status s) as [status|]; [|done]. exists status. split; [done|].
  by apply negb_false_iff in X2.
Qed.

(** ** Witnesses *)

Definition session0 : session := new_session true "t1" "lease".
Definition owner0 : owner := set_sessions [(5, session0); (6, new_session false "t2" "")] new_owner.

Lemma temporary_turns_are_retired_witness :
  let o := (_retire_transient_work "t1" (fun _ => Retired) (fun _ => true) 0 owner0).1 in
  dkeys (ow_sessions o) = [6] /\ forall sid s, dget sid (ow_sessions o) = Some s -> ss_origin_turn s = "t1" -> ss_transient s = false.
Proof.
  split; [reflexivity|].
  apply (temporary_turns_are_retired "t1" (fun _ => Retired) (fun _ => true) 0 owner0 _ 0).
  - split; cbn; repeat constructor; set_solver.
  - reflexivity.
  - reflexivity.
Defined.

Lemma temporary_turns_are_not_forgotten_witness :
  "t1" ∈ rq_retiring (cleanup_finished "t1" CleanupError (finish_transient_turn "t1" no_retirement)).
Proof.
  pose proof (temporary_turns_are_not_forgotten (QSys (cleanup_finished "t1" CleanupError (finish_transient_turn "t1" no_retirement)) ["t1"] [])) as H.
  destruct (proj1 (proj2 (H ltac:(eapply rtc_l; [apply (qs_finish no_retirement [] [] "t1" eq_refl)|apply rtc_once; apply (qs_ended _ _ _ "t1" CleanupError); left]))) eq_refl "t1" ltac:(left)) as [X | X].
  - exact X.
  - by apply elem_of_nil in X.
Defined.
