(* ===== verification/ToolContract.v ===== *)
(** * The tools of the shell, as the model sees them

    [tools.py], [inputs.py], [output_contract.py] and the input models of
    [capabilities.py]: the arguments a tool accepts, the JSON Schema that is published for
    them, what a result shows, and which recovery it offers; the inventory of [shell_status]
    and the shortcut tools of [build_provider].  A class with declared fields is a record and
    the check of its fields; what a schema accepts follows the JSON Schema specification for
    the keywords the contracts use. *)

From S2P Require Import Prelude Dict Utf8 Sha256 PyValue JsonText Targets Protocol LifecycleTable Lifecycle ExecutionGate Slot Observations.
Open Scope Z_scope.

(** ** JSON Schema *)

Definition has_type (t : string) (v : json) : bool :=
  bool_decide (t = match v with JNull => "null" | JBool _ => "boolean" | JInt _ => "integer" | JStr _ => "string" | JList _ => "array" | JObj _ => "object" end).

(** [const] and [enum], on texts and booleans. *)
Definition same_scalar (x y : json) : bool :=
  match x, y with
  | JStr a, JStr b => bool_decide (a = b)
  | JBool a, JBool b => Bool.eqb a b
  | _, _ => false
  end.

Definition texts (v : json) : list string := match v with JList l => omap (fun x => match x with JStr s => Some s | _ => None end) l | _ => [] end.
Definition items (v : json) : list json := match v with JList l => l | _ => [] end.
Definition entries (v : json) : obj := match v with JObj d => d | _ => [] end.

(** The value is checked against every keyword; [then] belongs to [if], other keywords
    only describe. *)
Fixpoint accepts (schema v : json) {struct schema} : bool :=
  match schema with
  | JObj d =>
      let then_of := fix then_of (d : obj) : bool :=
        match d with [] => true | (k, s) :: d => if decide (k = "then") then accepts s v else then_of d end in
      let keyword (k : string) (x : json) : bool :=
        if decide (k = "type") then match x with JStr t => has_type t v | _ => false end
        else if decide (k = "const") then same_scalar x v
        else if decide (k = "enum") then existsb (fun y => same_scalar y v) (items x)
        else if decide (k = "minimum") then match x, v with JInt m, JInt z => m <=? z | _, _ => true end
        else if decide (k = "required") then match v with JObj o => forallb (fun name => dmem name o) (texts x) | _ => true end
        else if decide (k = "properties") then
          match x, v with
          | JObj ps, JObj o =>
              (fix properties (ps : obj) : bool :=
                 match ps with
                 | [] => true
                 | (name, s) :: ps => match dget name o with Some field => accepts s field | None => true end && properties ps
                 end) ps
          | _, _ => true
          end
        else if decide (k = "allOf") then
          match x with
          | JList l => (fix all (l : list json) : bool := match l with [] => true | s :: l => accepts s v && all l end) l
          | _ => true
          end
        else if decide (k = "oneOf") then
          match x with
          | JList l => (fix count (l : list json) : Z := match l with [] => 0 | s :: l => Z.b2z (accepts s v) + count l end) l =? 1
          | _ => true
          end
        else if decide (k = "not") then negb (accepts x v)
        else if decide (k = "if") then if accepts x v then then_of d else true
        else true in
      (fix all (d : obj) : bool := match d with [] => true | (k, x) :: d => keyword k x && all d end) d
  | JBool b => b
  | _ => true
  end.

(** ** The contract of a session tool *)

Definition ACTIONS : list string := ["read"; "write"; "resize"; "terminate"; "release"; "watch"; "extend"; "unwatch"].

(** [required.get(action, set())], sorted. *)
Definition required_of (action : string) : list string :=
  if decide (action = "write") then ["text"]
  else if decide (action = "resize") then ["columns"; "rows"]
  else if decide (action = "watch") then ["wait_ms"]
  else if decide (action = "extend") then ["extend_by_ms"]
  else [].

Definition allowed_of (action : string) : list string :=
  required_of action ++ (if decide (action = "read") then ["wait_ms"] else []) ++ (if decide (action = "watch") then ["extend_by_ms"] else []).

(** [sorted(controls)] *)
Definition CONTROLS : list string := ["columns"; "extend_by_ms"; "rows"; "text"; "wait_ms"].

Definition null_type : json := JObj [("type", JStr "null")].
Definition positive : json := JObj [("type", JStr "integer"); ("minimum", JInt 1)].

Definition rule_properties (action : string) : obj :=
  let properties := (fun name => (name, null_type)) <$> filter (fun name => name ∉ allowed_of action) CONTROLS in
  let properties := foldl (fun d name => dset name (JObj [("not", null_type)]) d) properties (required_of action) in
  let properties := if decide (action = "watch") then dset "wait_ms" positive properties else properties in
  if decide (action = "extend") then dset "extend_by_ms" positive properties else properties.

Definition action_rule (action : string) : json :=
  let condition := [("properties", JObj [("action", JObj [("const", JStr action)])])] in
  let condition := if decide (action <> "read") then dset "required" (JList [JStr "action"]) condition else condition in
  JObj [("if", JObj condition); ("then", JObj [("required", JList (JStr <$> required_of action)); ("properties", JObj (rule_properties action))])].

Definition session_argument_schema : json := JObj [("allOf", JList (action_rule <$> ACTIONS))].

(** The schema of [NativeSessionInput]. *)
Definition native_session_schema : json :=
  JObj (entries session_argument_schema ++
    [("oneOf", JList
       [JObj [("required", JList [JStr "session_id"]); ("properties", JObj [("session_id", JObj [("type", JStr "integer")]); ("output_ref", null_type)])];
        JObj [("required", JList [JStr "output_ref"]);
              ("properties", JObj [("output_ref", JObj [("type", JStr "string")]); ("session_id", null_type);
                 ("action", JObj [("enum", JList [JStr "read"; JStr "release"])]); ("wait_ms", null_type)])]])]).

(** The declared fields: a missing field and [None] are the same. *)
Definition MAX_SESSION : Z := 2 ^ 63 - 1.

Definition int_field (low high : Z) (k : string) (args : obj) : option (option Z) :=
  match dget k args with
  | None | Some JNull => Some None
  | Some (JInt z) => if (low <=? z) && (z <=? high) then Some (Some z) else None
  | Some _ => None
  end.

Definition text_field (min_length : Z) (k : string) (args : obj) : option (option string) :=
  match dget k args with
  | None | Some JNull => Some None
  | Some (JStr s) => if min_length <=? Z.of_nat (String.length s) then Some (Some s) else None
  | Some _ => None
  end.

Definition action_field (args : obj) : option string :=
  match dget "action" args with
  | None => Some "read"
  | Some (JStr a) => if bool_decide (a ∈ ACTIONS) then Some a else None
  | Some _ => None
  end.

Record SessionInput := mkSessionInput {
  si_session_id : option Z;
  si_output_ref : option string;
  si_action : string;
  si_wait_ms : option Z;
  si_extend_by_ms : option Z;
  si_text : option string;
  si_rows : option Z;
  si_columns : option Z
}.

Definition session_fields : list string := ["session_id"; "output_ref"; "action"; "wait_ms"; "extend_by_ms"; "text"; "rows"; "columns"].

(** The fields of [NativeSessionInput]; unknown ones are refused. *)
Definition parse_session (args : obj) : option SessionInput :=
  if negb (forallb (fun k => bool_decide (k ∈ session_fields)) (dkeys args)) then None
  else
    session_id ← int_field 1 MAX_SESSION "session_id" args;
    output_ref ← text_field 1 "output_ref" args;
    action ← action_field args;
    wait_ms ← int_field 0 300000 "wait_ms" args;
    extend_by_ms ← int_field 0 2147483647 "extend_by_ms" args;
    text ← text_field 0 "text" args;
    rows ← int_field 1 65535 "rows" args;
    columns ← int_field 1 65535 "columns" args;
    Some (mkSessionInput session_id output_ref action wait_ms extend_by_ms text rows columns).

Definition supplied (si : SessionInput) : list string :=
  (if si_wait_ms si then ["wait_ms"] else []) ++ (if si_extend_by_ms si then ["extend_by_ms"] else []) ++
  (if si_text si then ["text"] else []) ++ (if si_rows si then ["rows"] else []) ++ (if si_columns si then ["columns"] else []).

Definition subset_of (l k : list string) : bool := forallb (fun x => bool_decide (x ∈ k)) l.

(** [not x], of an optional number. *)
Definition falsy (x : option Z) : bool := match x with Some z => z =? 0 | None => true end.

Definition PTY_QUEUE : Z := 65536.

Definition validate_action_arguments (si : SessionInput) : res py_error unit :=
  let required := required_of (si_action si) in
  let allowed := allowed_of (si_action si) in
  raise_if negb (subset_of required (supplied si)) || negb (subset_of (supplied si) allowed) with ValueError "arguments" ;;
  raise_if bool_decide (si_action si = "watch") && falsy (si_wait_ms si) with ValueError "watch requires a positive wait_ms" ;;
  raise_if bool_decide (si_action si = "extend") && falsy (si_extend_by_ms si) with ValueError "extend requires a positive extend_by_ms" ;;
  raise_if (match si_text si with Some t => PTY_QUEUE <? Z.of_nat (length (string_bytes t)) | None => false end)
    with ValueError "PTY input must fit the 64 KiB input queue" ;;
  Ok tt.

Definition is_none {A} (x : option A) : bool := match x with None => true | Some _ => false end.

Definition validate_output_reference (si : SessionInput) : res py_error unit :=
  raise_if Bool.eqb (is_none (si_session_id si)) (is_none (si_output_ref si)) with ValueError "Provide exactly one of session_id or output_ref" ;;
  raise_if negb (is_none (si_output_ref si)) && (bool_decide (si_action si ∉ ["read"; "release"]) || negb (is_none (si_wait_ms si)))
    with ValueError "output_ref supports only read or release, without waiting" ;;
  Ok tt.

(** The validators of a class run after those of its base. *)
Definition validate_session (si : SessionInput) : res py_error unit :=
  let! _ := validate_action_arguments si in validate_output_reference si.

(** ** Results *)

Inductive guidance :=
| G_running
| G_did_not_start
| G_failed
| G_timed_out
| G_cancelled
| G_signal
| G_nonzero
| G_nothing.

Definition result_guidance (r : raw) : guidance :=
  let status := raw_status r in
  let no_returncode := match dget "returncode" r with Some JNull => true | _ => false end in
  if decide (status = "running" \/ status = "terminating") then G_running
  else if decide (status = "failed") then (if no_returncode then G_did_not_start else G_failed)
  else if decide (status = "timed_out") then G_timed_out
  else if decide (status = "cancelled") then G_cancelled
  else if decide (status = "exited") then
    if get_bool "signal" r then G_signal
    else match jget "returncode" r with JNull => G_nothing | v => if py_eq v (JInt 0) then G_nothing else G_nonzero end
  else G_nothing.

Definition OUTPUT_FIELDS : list string :=
  ["session_id"; "target"; "target_name"; "status"; "returncode"; "signal"; "error"; "stdout"; "stderr"; "tty"; "watching"; "has_deadline";
   "remaining_ms"; "has_wake"; "wake_remaining_ms"; "truncated"; "output_error"; "observation_error"].

(** [{key: d[key] for key in fields if key in d}] *)
Definition project_keys (fields : list string) (d : obj) : obj := omap (fun k => (fun v => (k, v)) <$> dget k d) fields.

Inductive effect_outcome := NOT_STARTED | APPLIED.

Record output_report := OutputReport {
  or_payload : obj;                   (* structured; the text renders it *)
  or_target : option (json * json);   (* the line that names the target *)
  or_snapshot : json;                 (* the text of the snapshots *)
  or_effect : effect_outcome;
  or_hint : guidance
}.

Definition output_result (r : raw) : output_report :=
  let payload := project_keys OUTPUT_FIELDS r in
  let payload := if is_terminal r then payload else dset "returncode" JNull payload in
  let not_started := bool_decide (raw_status r = "failed") && match dget "returncode" r with Some JNull => true | _ => false end in
  OutputReport payload
    (if get_bool "target_name" r then Some (jget "target_name" r, default (JInt 0) (dget "target" r)) else None)
    (jget "_snapshot_text" r) (if not_started then NOT_STARTED else APPLIED) (result_guidance r).

(** The arguments of [read_shell_session] that a failed delivery offers. *)
Definition session_affordances (r : raw) (output_ref : string) : list obj :=
  if negb (get_bool "output_error" r) then []
  else if truthy (jget "session_id" r) then [[("session_id", jget "session_id" r)]]
  else if str_truthy output_ref then [[("output_ref", JStr output_ref)]]
  else [].

(** [ReadSessionInput]: its fields, and [validate_identifier]. *)
Record ReadInput := mkReadInput { ri_session_id : option Z; ri_output_ref : option string; ri_wait_ms : option Z }.

Definition parse_read (args : obj) : option ReadInput :=
  if negb (forallb (fun k => bool_decide (k ∈ ["session_id"; "output_ref"; "wait_ms"])) (dkeys args)) then None
  else
    session_id ← int_field 1 MAX_SESSION "session_id" args;
    output_ref ← text_field 1 "output_ref" args;
    wait_ms ← int_field 0 300000 "wait_ms" args;
    Some (mkReadInput session_id output_ref wait_ms).

Definition validate_identifier (ri : ReadInput) : res py_error unit :=
  raise_if Bool.eqb (is_none (ri_session_id ri)) (is_none (ri_output_ref ri)) with ValueError "Provide exactly one of session_id or output_ref" ;;
  raise_if negb (is_none (ri_output_ref ri)) && negb (is_none (ri_wait_ms ri)) with ValueError "output_ref does not accept wait_ms" ;;
  Ok tt.

(** ** Inventories *)

(** The retained outputs of [shell_status]: their references, and what is said of them. *)
Definition retained_outputs (o : owner) : list (output_ref * obj) :=
  (fun '(call, p) =>
     (call, [("target", default (JInt 0) (dget "target" (po_result p))); ("status", JStr (raw_status (po_result p)))] ++
            (if raw_sid (po_result p) =? 0 then [] else [("session_id", JInt (raw_sid (po_result p)))]))) <$>
  filter (fun x => po_delivered x.2 && po_failure x.2 = true) (ow_outputs o).

Definition SUMMARY_FIELDS : list string :=
  ["target"; "name"; "shortcut"; "reachable"; "probe_error"; "needs_start"; "requires_start"; "registered"; "execution"; "start_actions";
   "expected_offline"; "os"; "arch"; "shell"; "probed_at"].
Definition DYNAMIC_FIELDS : list string := ["os"; "worker_arch"; "shell_ready"; "active_tasks"; "observed_at"; "required_user_action"].

Definition _target_summary (item : obj) : obj :=
  let summary := project_keys SUMMARY_FIELDS item in
  let summary := match dget "static" item with
                 | Some static => dset "usage" (default (JStr "") (dget "usage" (entries static))) summary
                 | None => summary
                 end in
  match dget "dynamic" item with
  | Some JNull => dset "dynamic" JNull summary
  | Some dynamic => dset "dynamic" (JObj ((fun k => (k, jget k (entries dynamic))) <$> DYNAMIC_FIELDS)) summary
  | None => summary
  end.

(** The local target and those of the port; [None]: the target is not configured. *)
Definition list_remote (local : obj) (port : option (option json -> list obj)) (target : option json) (summary : bool) : option (list obj) :=
  let is_local := match target with None => true | Some t => py_eq t (JInt 0) end in
  let items := if is_local then [local] else [] in
  let remote := match port, target with
                | Some listed, None => listed None
                | Some listed, Some t => if py_eq t (JInt 0) then [] else listed (Some t)
                | None, _ => []
                end in
  let all := items ++ remote in
  match target, all with
  | Some _, [] => None
  | _, _ => Some (if summary then _target_summary <$> all else all)
  end.

(** The start actions it offers: the target and its first action. *)
Definition startable (items : list obj) : list (json * json) :=
  omap (fun item =>
    if get_bool "target" item && get_bool "needs_start" item
    then match jget "start_actions" item with JList (a :: _) => Some (jget "target" item, a) | _ => None end
    else None) items.

(** [build_provider]: the shortcut tools of the configured targets, each bound to its
    target; [None]: [ValueError]. *)
Definition add_tool (st : option (list Z * list (string * Z))) (t : Target) : option (list Z * list (string * Z)) :=
  '(ids, tools) ← st;
  if decide (tg_target t ∈ ids) then None
  else
    let ids := tg_target t :: ids in
    if negb (str_truthy (tg_shortcut t)) then Some (ids, tools)
    else
      let alias := "run_shell_" +:+ tg_shortcut t in
      if decide (alias ∈ tools.*1) then None else Some (ids, tools ++ [(alias, tg_target t)]).

Definition build_provider (targets : list Target) : option (list (string * Z)) := snd <$> foldl add_tool (Some ([], [])) targets.
