(* ===== verification/ToolSafety.v ===== *)
(** * What the tools of the shell promise

    The schema that is published for a session tool accepts exactly what its validators
    accept; a result shows the model nothing but the public fields, with an effect it can
    rely on; the recovery it offers is accepted; and the configured tools are those the hub
    can serve. *)

From S2P Require Import Prelude Dict Utf8 Sha256 PyValue JsonText Targets Protocol LifecycleTable Lifecycle ExecutionGate Slot Observations ToolContract.
Open Scope Z_scope.

(** ** Schemas *)

Definition property_ok (k : string) (s : json) (args : obj) : bool := match dget k args with Some field => accepts s field | None => true end.
Definition then_part (action : string) : json :=
  JObj [("required", JList (JStr <$> required_of action)); ("properties", JObj (rule_properties action))].
Definition not_null : json := JObj [("not", null_type)].

(** Unfolds the keywords of a schema. *)
Ltac keywords :=
  cbn [accepts];
  repeat match goal with
  | |- context [decide (@eq string ?a ?b)] => first [rewrite (decide_False (P := a = b)) by done | rewrite (decide_True (P := a = b)) by done]
  end.

Lemma accepts_object required ps args :
  accepts (JObj [("required", JList required); ("properties", JObj ps)]) (JObj args) =
  forallb (fun k => dmem k args) (texts (JList required)) && (forallb (fun p => property_ok p.1 p.2 args) ps && true).
Proof.
  keywords. f_equal. f_equal.
  induction ps as [|[k s] ps IH]; [done|]. cbn [forallb]. rewrite <- IH. done.
Qed.

Lemma accepts_properties ps args : accepts (JObj [("properties", JObj ps)]) (JObj args) = forallb (fun p => property_ok p.1 p.2 args) ps && true.
Proof. keywords. f_equal. induction ps as [|[k s] ps IH]; [done|]. cbn [forallb]. rewrite <- IH. done. Qed.

Definition acting (a : string) (args : obj) : bool :=
  match dget "action" args with
  | Some (JStr b) => bool_decide (a = b)
  | Some _ => false
  | None => bool_decide (a = "read")
  end.

Lemma accepts_conditional c t v : accepts (JObj [("if", c); ("then", t)]) v = if accepts c v then accepts t v else true.
Proof.
  assert (H : accepts (JObj [("if", c); ("then", t)]) v = (if accepts c v then accepts t v else true) && (true && true)) by reflexivity.
  rewrite H. by rewrite !andb_true_r.
Qed.

Lemma const_field a args : property_ok "action" (JObj [("const", JStr a)]) args = match dget "action" args with Some (JStr b) => bool_decide (a = b) | Some _ => false | None => true end.
Proof. unfold property_ok. destruct (dget "action" args) as [[]|]; try done. cbn. by rewrite andb_true_r. Qed.

Lemma accepts_rule a args : accepts (action_rule a) (JObj args) = if acting a args then accepts (then_part a) (JObj args) else true.
Proof.
  unfold action_rule. rewrite accepts_conditional. fold (then_part a). unfold acting. case_decide as E.
  - change (dset "required" (JList [JStr "action"]) [("properties", JObj [("action", JObj [("const", JStr a)])])])
      with [("properties", JObj [("action", JObj [("const", JStr a)])]); ("required", JList [JStr "action"])].
    assert (H : forall x y v, accepts (JObj [("properties", x); ("required", y)]) v = accepts (JObj [("properties", x)]) v && accepts (JObj [("required", y)]) v).
    { intros x y v. keywords. by rewrite !andb_true_r. }
    rewrite H, accepts_properties. cbn [forallb fst snd]. rewrite const_field.
    assert (Hr : accepts (JObj [("required", JList [JStr "action"])]) (JObj args) = dmem "action" args) by (cbn; by rewrite !andb_true_r).
    rewrite Hr. unfold dmem. destruct (dget "action" args) as [[]|]; cbn; try done; [by rewrite !andb_true_r|]. by rewrite bool_decide_eq_false_2.
  - subst a. rewrite accepts_properties. cbn [forallb fst snd]. rewrite const_field.
    destruct (dget "action" args) as [[]|]; cbn; try done. by rewrite !andb_true_r.
Qed.

(** Only the rule of the given action counts. *)
Lemma accepts_session_rules action args :
  action_field args = Some action -> accepts session_argument_schema (JObj args) = accepts (then_part action) (JObj args) /\ action ∈ ACTIONS.
Proof.
  intros H.
  assert (Ha : action ∈ ACTIONS /\ forall a, acting a args = bool_decide (a = action)).
  { unfold action_field, acting in *. destruct (dget "action" args) as [[]|]; try done; [|by injection H as <-; split; [left|]].
    destruct (bool_decide _) eqn:E; [|done]. injection H as ->. apply bool_decide_eq_true in E. done. }
  destruct Ha as [Hin Ha]. split; [|done].
  assert (Hall : forall l, accepts (JObj [("allOf", JList l)]) (JObj args) = forallb (fun s => accepts s (JObj args)) l && true).
  { intros l. reflexivity. }
  unfold session_argument_schema. rewrite Hall, andb_true_r. clear Hall H.
  assert (Hf : forall l, forallb (fun s => accepts s (JObj args)) (action_rule <$> l) = if bool_decide (action ∈ l) then accepts (then_part action) (JObj args) else true).
  { induction l as [|a l IH]; [done|]. rewrite fmap_cons. cbn [forallb]. rewrite IH, accepts_rule, Ha.
    destruct (decide (a = action)) as [-> | Hne].
    - rewrite (bool_decide_eq_true_2 (action = action)), (bool_decide_eq_true_2 (action ∈ action :: l)) by (done || by left). destruct (bool_decide _); [by destruct (accepts _ _)|by rewrite andb_true_r].
    - rewrite (bool_decide_eq_false_2 (a = action)) by done. cbn [andb].
      by rewrite (bool_decide_ext (action ∈ a :: l) (action ∈ l)) by (rewrite elem_of_cons; naive_solver). }
  rewrite Hf. by rewrite bool_decide_eq_true_2.
Qed.

(** What the properties of a rule say of a field. *)
Definition field_is {A} (k : string) (args : obj) (x : option A) (at_least_1 : bool) : Prop :=
  property_ok k null_type args = is_none x /\
  dmem k args && property_ok k not_null args = negb (is_none x) /\
  dmem k args && property_ok k positive args = at_least_1.

Lemma int_field_is low high k args x :
  int_field low high k args = Some x -> field_is k args x (match x with Some z => 1 <=? z | None => false end).
Proof.
  unfold int_field, field_is, property_ok, dmem. destruct (dget k args) as [[| |z| | |]|]; try done; try (intros [= <-]; done).
  destruct (_ && _); [|done]. intros [= <-]. split_and!; [done..|]. cbn. by rewrite andb_true_r.
Qed.

Lemma text_field_is n k args x : text_field n k args = Some x -> field_is k args x false.
Proof.
  unfold text_field, field_is, property_ok, dmem. destruct (dget k args) as [[| | |s| |]|]; try done; try (intros [= <-]; done).
  destruct (_ <=? _); [|done]. intros [= <-]. done.
Qed.

(** The rule of an action, in terms of the fields. *)
Lemma then_part_spec action args wait extend text rows columns :
  action ∈ ACTIONS ->
  int_field 0 300000 "wait_ms" args = Some wait -> int_field 0 2147483647 "extend_by_ms" args = Some extend ->
  text_field 0 "text" args = Some text -> int_field 1 65535 "rows" args = Some rows -> int_field 1 65535 "columns" args = Some columns ->
  forall sid ref, (forall t, text = Some t -> Z.of_nat (length (string_bytes t)) <= PTY_QUEUE) ->
  accepts (then_part action) (JObj args) = true <->
  validate_action_arguments (mkSessionInput sid ref action wait extend text rows columns) = Ok tt.
Proof.
  intros Ha Hw He Ht Hr Hc sid ref Hlen.
  assert (Hfit : match text with Some t => PTY_QUEUE <? Z.of_nat (length (string_bytes t)) | None => false end = false).
  { destruct text as [t|]; [|done]. specialize (Hlen t eq_refl). lia. }
  assert (Hpos : match wait with Some z => 1 <=? z | None => false end = negb (falsy wait)).
  { destruct wait as [z|]; [|done]. unfold int_field in Hw. destruct (dget _ _) as [[]|]; try done. destruct (_ && _) eqn:E; [|done]. injection Hw as ->. cbn. lia. }
  assert (Hpos' : match extend with Some z => 1 <=? z | None => false end = negb (falsy extend)).
  { destruct extend as [z|]; [|done]. unfold int_field in He. destruct (dget _ _) as [[]|]; try done. destruct (_ && _) eqn:E; [|done]. injection He as ->. cbn. lia. }
  apply int_field_is in Hw as (W1 & W2 & W3), He as (E1 & E2 & E3), Hr as (R1 & R2 & R3), Hc as (C1 & C2 & C3). apply text_field_is in Ht as (T1 & T2 & T3).
  rewrite Hpos in W3. rewrite Hpos' in E3. clear Hpos Hpos' Hlen.
  unfold then_part. rewrite accepts_object. unfold validate_action_arguments. cbn [si_action si_text si_wait_ms si_extend_by_ms]. rewrite Hfit. clear Hfit.
  repeat (apply elem_of_cons in Ha as [-> | Ha]); [..|by apply elem_of_nil in Ha].
  all: match goal with |- context [rule_properties ?a] => let x := eval vm_compute in (rule_properties a) in change (rule_properties a) with x; let y := eval vm_compute in (texts (JList (JStr <$> required_of a))) in change (texts (JList (JStr <$> required_of a))) with y end.
  all: fold null_type positive; fold not_null.
  all: cbn [forallb fst snd]; rewrite ?andb_true_r.
  all: rewrite ?W1, ?E1, ?T1, ?R1, ?C1; clear T3 R3 C3 W1 E1 T1 R1 C1.
  all: repeat match goal with
       | |- context [dmem ?k ?a] => destruct (dmem k a)
       | |- context [property_ok ?k ?s ?a] => destruct (property_ok k s a)
       end.
  all: destruct wait as [w|], extend as [e|], text, rows, columns; try discriminate.
  all: unfold falsy in *; cbn [is_none negb andb] in *; try discriminate.
  all: repeat match goal with |- context [?z =? 0] => destruct (z =? 0) end; try discriminate.
  all: vm_compute; split; congruence.
Qed.

Definition type_is (t : string) : json := JObj [("type", JStr t)].
Definition by_session : json := JObj [("required", JList [JStr "session_id"]); ("properties", JObj [("session_id", type_is "integer"); ("output_ref", null_type)])].
Definition by_reference : json :=
  JObj [("required", JList [JStr "output_ref"]);
        ("properties", JObj [("output_ref", type_is "string"); ("session_id", null_type); ("action", JObj [("enum", JList [JStr "read"; JStr "release"])]); ("wait_ms", null_type)])].

Lemma accepts_native v :
  accepts native_session_schema v = accepts session_argument_schema v && (Z.b2z (accepts by_session v) + Z.b2z (accepts by_reference v) =? 1).
Proof.
  assert (E : forall rules l, accepts (JObj [("allOf", rules); ("oneOf", JList l)]) v = accepts (JObj [("allOf", rules)]) v && accepts (JObj [("oneOf", JList l)]) v).
  { intros rules l. keywords. by rewrite !andb_true_r. }
  unfold native_session_schema, session_argument_schema. cbn [entries app]. rewrite E. f_equal.
  assert (C : forall x y, accepts (JObj [("oneOf", JList [x; y])]) v = (Z.b2z (accepts x v) + (Z.b2z (accepts y v) + 0) =? 1) && true) by reflexivity.
  rewrite C, andb_true_r, Z.add_0_r. reflexivity.
Qed.

Lemma session_field_type low high k args x :
  int_field low high k args = Some x -> dmem k args && property_ok k (type_is "integer") args = negb (is_none x).
Proof.
  unfold int_field, property_ok, dmem. destruct (dget k args) as [[| |z| | |]|]; try done; try (intros [= <-]; done).
  destruct (_ && _); [|done]. by intros [= <-].
Qed.

Lemma reference_field_type n k args x :
  text_field n k args = Some x -> dmem k args && property_ok k (type_is "string") args = negb (is_none x).
Proof.
  unfold text_field, property_ok, dmem. destruct (dget k args) as [[| | |s| |]|]; try done; try (intros [= <-]; done).
  destruct (_ <=? _); [|done]. by intros [= <-].
Qed.

Lemma action_enum action args :
  action_field args = Some action -> property_ok "action" (JObj [("enum", JList [JStr "read"; JStr "release"])]) args = bool_decide (action ∈ ["read"; "release"]).
Proof.
  unfold action_field, property_ok. destruct (dget "action" args) as [[| | |a| |]|]; try done; [|by intros [= <-]].
  destruct (bool_decide _); [|done]. intros [= <-]. keywords. cbn [items existsb same_scalar]. rewrite orb_false_r, andb_true_r.
  repeat case_bool_decide; set_solver.
Qed.

Lemma reference_spec si args :
  int_field 1 MAX_SESSION "session_id" args = Some (si_session_id si) -> text_field 1 "output_ref" args = Some (si_output_ref si) ->
  action_field args = Some (si_action si) -> int_field 0 300000 "wait_ms" args = Some (si_wait_ms si) ->
  Z.b2z (accepts by_session (JObj args)) + Z.b2z (accepts by_reference (JObj args)) =? 1 = true <-> validate_output_reference si = Ok tt.
Proof.
  intros Hs Hr Ha Hw. unfold by_session, by_reference. rewrite !accepts_object. cbn [texts omap list_omap forallb fst snd]. rewrite !andb_true_r.
  apply session_field_type in Hs as S1. apply reference_field_type in Hr as R1. apply int_field_is in Hs as (S2 & _), Hw as (W & _). apply text_field_is in Hr as (R2 & _).
  rewrite !andb_assoc, S1, R1, S2, R2, W, (action_enum (si_action si)) by done. unfold validate_output_reference.
  destruct (si_session_id si), (si_output_ref si), (si_wait_ms si); cbn [is_none negb andb orb Bool.eqb]; try by vm_compute; split; congruence.
  all: destruct (decide (si_action si ∈ ["read"; "release"])) as [H | H];
    [rewrite (bool_decide_eq_true_2 _ H), (bool_decide_eq_false_2 (si_action si ∉ _)) by tauto
    |rewrite (bool_decide_eq_false_2 _ H), (bool_decide_eq_true_2 (si_action si ∉ _)) by tauto]; by vm_compute; split; congruence.
Qed.

(** The schema that is published for a session tool and its validators agree: among
    the arguments whose fields have the declared types, the schema accepts exactly those that
    the validators accept, except for a text beyond the 64 KiB of the input queue, which only
    the validator refuses. *)
Theorem published_schema_is_the_contract args si :
  parse_session args = Some si ->
  (accepts native_session_schema (JObj args) = true /\ (forall t, si_text si = Some t -> Z.of_nat (length (string_bytes t)) <= PTY_QUEUE)) <->
  validate_session si = Ok tt.
Proof.
  intros H. unfold parse_session in H. destruct (negb _); [done|].
  repeat (apply bind_Some in H as (? & ? & H)). injection H as <-.
  rewrite accepts_native, andb_true_iff. destruct (accepts_session_rules _ _ H2) as [Hr Hin]. rewrite Hr.
  rewrite (reference_spec (mkSessionInput x x0 x1 x2 x3 x4 x5 x6) args) by done. unfold validate_session.
  split.
  - intros [[Hok Href] Hlen]. apply (then_part_spec x1 args x2 x3 x4 x5 x6) with (sid := x) (ref := x0) in Hok; [|done..]. rewrite Hok. exact Href.
  - intros H8. apply rbind_ok in H8 as ([] & Hv & Href).
    assert (Hlen : forall t, x4 = Some t -> Z.of_nat (length (string_bytes t)) <= PTY_QUEUE).
    { intros t ->. unfold validate_action_arguments in Hv. do 3 apply raise_if_ok in Hv as [_ Hv]. apply raise_if_ok in Hv as [Hv _]. cbn in Hv. lia. }
    split; [|exact Hlen]. split; [|exact Href]. by apply (then_part_spec x1 args x2 x3 x4 x5 x6) with (sid := x) (ref := x0).
Qed.

(** ** Results *)

Lemma project_keys_get fields d k v : (k, v) ∈ project_keys fields d -> k ∈ fields /\ dget k d = Some v.
Proof.
  unfold project_keys. rewrite list_elem_of_omap. intros (x & Hx & E). destruct (dget x d) eqn:D; [|done]. cbn in E. injection E as -> ->. by split.
Qed.

(** A result shows the model public fields only, as the runtime reported them, without a
    return code while the command runs; and it says that nothing started exactly for a failed
    command that has no return code. *)
Theorem results_show_public_fields r :
  (forall k v, (k, v) ∈ or_payload (output_result r) ->
    k ∈ OUTPUT_FIELDS /\ (dget k r = Some v \/ (k = "returncode" /\ v = JNull /\ is_terminal r = false))) /\
  (or_effect (output_result r) = NOT_STARTED <-> raw_status r = "failed" /\ dget "returncode" r = Some JNull) /\
  (is_terminal r = false -> or_effect (output_result r) = APPLIED).
Proof.
  split_and!.
  - intros k v. unfold output_result. cbn [or_payload]. destruct (is_terminal r).
    + intros H%project_keys_get. tauto.
    + intros H. apply elem_dset in H as [[= -> ->] | H]; [|apply project_keys_get in H; tauto]. split; [|by right]. by repeat (left || right).
  - unfold output_result. cbn [or_effect]. case_bool_decide as E; [|by split; [|intros [? _]]]. destruct (dget "returncode" r) as [[]|]; cbn; split; try done; intros [_ [=]].
  - intros H. unfold output_result. cbn [or_effect]. case_bool_decide as E; [|done]. unfold is_terminal in H. by rewrite E in H.
Qed.

Lemma read_by_reference ref : str_truthy ref = true -> parse_read [("output_ref", JStr ref)] = Some (mkReadInput None (Some ref) None).
Proof.
  intros H. assert (Ht : text_field 1 "output_ref" [("output_ref", JStr ref)] = Some (Some ref)).
  { unfold text_field. change (dget "output_ref" [("output_ref", JStr ref)]) with (Some (JStr ref)).
    destruct ref as [|c ref]; [done|]. cbn [String.length]. rewrite (proj2 (Z.leb_le 1 _)) by lia. done. }
  unfold parse_read. change (int_field 1 MAX_SESSION "session_id" [("output_ref", JStr ref)]) with (Some (@None Z)). cbn [mbind option_bind].
  rewrite Ht. reflexivity.
Qed.

(** The recovery that a failed delivery offers is accepted by the tool it names. *)
Theorem recovery_is_accepted r ref args :
  args ∈ session_affordances r ref -> (forall v, dget "session_id" r = Some v -> exists z, v = JInt z /\ 0 <= z <= MAX_SESSION) ->
  exists ri, parse_read args = Some ri /\ validate_identifier ri = Ok tt /\ (raw_sid r <> 0 -> ri_session_id ri = Some (raw_sid r)) /\ (raw_sid r = 0 -> ri_output_ref ri = Some ref).
Proof.
  unfold session_affordances. intros H Hs. destruct (negb _); [by apply elem_of_nil in H|].
  unfold raw_sid, raw_int, jget in *. destruct (dget "session_id" r) as [v|].
  - destruct (Hs v eq_refl) as (z & -> & Hz). cbn in H. destruct (Z.eqb_spec z 0) as [-> | Hne]; cbn in H.
    + destruct (str_truthy ref) eqn:E; [|by apply elem_of_nil in H]. apply list_elem_of_singleton in H as ->.
      exists (mkReadInput None (Some ref) None). rewrite read_by_reference by done. by split_and!.
    + apply list_elem_of_singleton in H as ->. exists (mkReadInput (Some z) None None).
      assert (Hf : int_field 1 MAX_SESSION "session_id" [("session_id", JInt z)] = Some (Some z)).
      { unfold int_field. change (dget "session_id" [("session_id", JInt z)]) with (Some (JInt z)). cbn beta iota.
        by rewrite (proj2 (Z.leb_le 1 z)), (proj2 (Z.leb_le z MAX_SESSION)) by lia. }
      unfold parse_read. rewrite Hf. by split_and!.
  - cbn in H. destruct (str_truthy ref) eqn:E; [|by apply elem_of_nil in H]. apply list_elem_of_singleton in H as ->.
    exists (mkReadInput None (Some ref) None). rewrite read_by_reference by done. by split_and!.
Qed.

(** An output that the inventory lists can be read: the retained result is exported again,
    without the command. *)
Theorem listed_outputs_are_readable o call info sid transient turn_id :
  dwf (ow_outputs o) -> (call, info) ∈ retained_outputs o ->
  exists p borrowed, dget call (ow_outputs o) = Some p /\ route_session (Some call) "read" sid transient turn_id o = StageRetained call (po_result p) borrowed.
Proof.
  unfold retained_outputs. intros Hwf H. apply list_elem_of_fmap in H as ([c p] & [= -> _] & H). apply list_elem_of_filter in H as [Hp Hin]. cbn in Hp.
  apply andb_true_iff in Hp as [H1 H2]. assert (Hg : dget c (ow_outputs o) = Some p) by (by apply elem_dget).
  exists p, (transient && (po_borrowed p || bool_decide (po_turn_id p <> turn_id))). split; [done|]. unfold route_session. by rewrite Hg, H1, H2.
Qed.

(** ** Configured tools *)

Definition shortcuts (l : list Target) : list string := filter (fun s => s <> "") (tg_shortcut <$> l).
Definition tools_of (l : list Target) : list (string * Z) :=
  (fun t => ("run_shell_" +:+ tg_shortcut t, tg_target t)) <$> filter (fun t => tg_shortcut t <> "") l.

Lemma tools_of_aliases l : (tools_of l).*1 = String.append "run_shell_" <$> shortcuts l.
Proof.
  unfold tools_of, shortcuts. induction l as [|t l IH]; [done|]. rewrite !filter_cons. cbn [fmap list_fmap]. rewrite filter_cons.
  repeat case_decide; cbn; try done. by f_equal.
Qed.

Lemma add_tools l ids tools :
  NoDup tools.*1 ->
  foldl add_tool (Some (ids, tools)) l =
  if bool_decide (NoDup (tg_target <$> l) /\ Forall (fun n => n ∉ ids) (tg_target <$> l) /\ NoDup (tools ++ tools_of l).*1)
  then Some (reverse (tg_target <$> l) ++ ids, tools ++ tools_of l) else None.
Proof.
  revert ids tools. induction l as [|t l IH]; intros ids tools Hnd.
  - rewrite bool_decide_eq_true_2; [by rewrite app_nil_r|]. rewrite app_nil_r. split_and!; [constructor|constructor|done].
  - assert (Hnone : foldl add_tool None l = None) by (clear; by induction l).
    cbn [foldl]. unfold add_tool at 2. cbn [mbind option_bind]. case_decide as Hin.
    { rewrite Hnone, bool_decide_eq_false_2; [done|]. intros (_ & H & _). by inversion H. }
    assert (Hstep : tools_of (t :: l) = (if decide (tg_shortcut t <> "") then [("run_shell_" +:+ tg_shortcut t, tg_target t)] else []) ++ tools_of l).
    { unfold tools_of. rewrite filter_cons. by case_decide. }
    assert (Hids : forall tl : list (string * Z), (NoDup (tg_target <$> l) /\ Forall (fun n => n ∉ tg_target t :: ids) (tg_target <$> l) /\ NoDup tl.*1) <->
      (NoDup (tg_target <$> t :: l) /\ Forall (fun n => n ∉ ids) (tg_target <$> t :: l) /\ NoDup tl.*1)).
    { intros tl. rewrite fmap_cons, NoDup_cons, Forall_cons, !Forall_forall. split.
      - intros (H1 & H2 & H3). split; [split; [intros H; apply (H2 _ H); by left|done]|]. split; [|done]. split; [done|]. intros n Hn Hi. apply (H2 n Hn). by right.
      - intros ([H0 H1] & [_ H2] & H3). split_and!; [done| |done]. intros n Hn [-> | H]%elem_of_cons; [done|by apply (H2 n)]. }
    assert (Htruthy : str_truthy (tg_shortcut t) = bool_decide (tg_shortcut t <> "")) by (by destruct (tg_shortcut t)).
    rewrite Htruthy, Hstep, fmap_cons, reverse_cons, <- app_assoc. case_bool_decide as Hs; cbn [negb].
    + rewrite (decide_True (P := tg_shortcut t <> "")) by done. rewrite (app_assoc tools). destruct (decide (_ ∈ tools.*1)) as [Hdup | Hdup].
      * rewrite Hnone, bool_decide_eq_false_2; [done|]. intros (_ & _ & H). rewrite !fmap_app, <- app_assoc in H. apply NoDup_app in H as (_ & H & _). apply (H _ Hdup). by left.
      * rewrite IH; [|rewrite fmap_app; apply NoDup_app; split_and!; [done|set_solver|apply NoDup_singleton]].
        case_bool_decide as A; case_bool_decide as B; [done|by apply Hids in A|by apply Hids in B|done].
    + rewrite (decide_False (P := tg_shortcut t <> "")) by tauto. rewrite IH by done. cbn [app]. case_bool_decide as A; case_bool_decide as B; [done|by apply Hids in A|by apply Hids in B|done].
Qed.

(** The host and the hub accept the same configurations, and the host then has one tool
    for each shortcut, bound to the target that has it. *)
Theorem configured_tools_match_hub targets :
  (is_Some (build_provider targets) <-> hub_targets_ok targets = true) /\
  forall tools, build_provider targets = Some tools ->
    NoDup tools.*1 /\ forall alias target, (alias, target) ∈ tools <-> exists t, t ∈ targets /\ tg_shortcut t <> "" /\ alias = "run_shell_" +:+ tg_shortcut t /\ target = tg_target t.
Proof.
  unfold build_provider. rewrite add_tools by constructor. cbn [app].
  assert (Hinj : NoDup (tools_of targets).*1 <-> NoDup (shortcuts targets)).
  { rewrite tools_of_aliases. split; [apply NoDup_fmap_1|]. apply NoDup_fmap_2. intros a b E. by injection E. }
  split.
  - unfold hub_targets_ok. rewrite andb_true_iff, !bool_decide_eq_true. fold (shortcuts targets).
    case_bool_decide as H; cbn; split.
    + intros _. split; [apply H|]. apply Hinj, H.
    + done.
    + by intros [? [=]].
    + intros [H1 H2]. exfalso. apply H. split_and!; [done|apply Forall_forall; by intros ? _ ?%elem_of_nil|by apply Hinj].
  - intros tools. case_bool_decide as H; [|done]. intros [= <-]. split; [apply H|]. intros alias target. unfold tools_of.
    rewrite list_elem_of_fmap. split.
    + intros (t & [= -> ->] & [Hs Hin]%list_elem_of_filter). by exists t.
    + intros (t & Hin & Hs & -> & ->). exists t. split; [done|]. by apply list_elem_of_filter.
Qed.

(** ** Witnesses *)

Lemma published_schema_is_the_contract_witness :
  let args := [("session_id", JInt 5); ("action", JStr "write"); ("text", JStr "ls")] in
  accepts native_session_schema (JObj args) = true.
Proof.
  apply (proj2 (published_schema_is_the_contract [("session_id", JInt 5); ("action", JStr "write"); ("text", JStr "ls")]
    (mkSessionInput (Some 5) None "write" None None (Some "ls") None None) ltac:(vm_compute; reflexivity))).
  vm_compute. reflexivity.
Defined.
