(* ===== verification/Transport.v ===== *)
(** * The connection of a slot

    [slot.py], class [RemoteSlot]: [_connect], [_disconnect], the part of [_request] under the
    lock, its [finally] clause and [close].  The lock admits one task at a time; where that
    task awaits is a point, and what it awaits for is an input.  Connections, tunnels and
    directories are numbered; what became of each of them is part of the state.  A lease of
    [FdLease] is closed only after its closer closed the connection. *)

From S2P Require Import Prelude Dict Utf8 Sha256 PyValue JsonText Targets Protocol LifecycleTable Lifecycle ExecutionGate Slot.
Open Scope Z_scope.

(** ** State *)

Inductive process := Running | Signalled | Ended.

#[export] Instance process_eq_dec : EqDecision process.
Proof. solve_decision. Defined.

Record transport := Transport {
  tp_closed : bool;
  tp_epoch : option string;
  tp_previous : option string;            (* previous_epoch *)
  tp_lease : option Z;                    (* by the connection it is for *)
  tp_connection : option Z;
  tp_tunnel : option Z;
  tp_stderr : bool;                       (* tunnel_diagnostics is not None *)
  tp_directory : option Z;
  tp_opened : dict Z bool;                (* the connections: whether each is open *)
  tp_processes : dict Z process;          (* the tunnels *)
  tp_directories : list Z;                (* the directories that exist *)
  tp_next : Z
}.

Definition new_transport : transport := Transport false None None None None None false None [] [] [] 0.

Definition set_closed (t : transport) : transport :=
  Transport true (tp_epoch t) (tp_previous t) (tp_lease t) (tp_connection t) (tp_tunnel t) (tp_stderr t) (tp_directory t) (tp_opened t)
    (tp_processes t) (tp_directories t) (tp_next t).
Definition set_lease (l c : option Z) (t : transport) : transport :=
  Transport (tp_closed t) (tp_epoch t) (tp_previous t) l c (tp_tunnel t) (tp_stderr t) (tp_directory t) (tp_opened t)
    (tp_processes t) (tp_directories t) (tp_next t).
Definition set_tunnel (p : option Z) (stderr : bool) (t : transport) : transport :=
  Transport (tp_closed t) (tp_epoch t) (tp_previous t) (tp_lease t) (tp_connection t) p stderr (tp_directory t) (tp_opened t)
    (tp_processes t) (tp_directories t) (tp_next t).
Definition set_opened (d : dict Z bool) (t : transport) : transport :=
  Transport (tp_closed t) (tp_epoch t) (tp_previous t) (tp_lease t) (tp_connection t) (tp_tunnel t) (tp_stderr t) (tp_directory t) d
    (tp_processes t) (tp_directories t) (tp_next t).
Definition set_processes (d : dict Z process) (t : transport) : transport :=
  Transport (tp_closed t) (tp_epoch t) (tp_previous t) (tp_lease t) (tp_connection t) (tp_tunnel t) (tp_stderr t) (tp_directory t) (tp_opened t)
    d (tp_directories t) (tp_next t).
Definition set_directory (d : option Z) (l : list Z) (t : transport) : transport :=
  Transport (tp_closed t) (tp_epoch t) (tp_previous t) (tp_lease t) (tp_connection t) (tp_tunnel t) (tp_stderr t) d (tp_opened t)
    (tp_processes t) l (tp_next t).
Definition set_runtime (e p : option string) (t : transport) : transport :=
  Transport (tp_closed t) e p (tp_lease t) (tp_connection t) (tp_tunnel t) (tp_stderr t) (tp_directory t) (tp_opened t)
    (tp_processes t) (tp_directories t) (tp_next t).
Definition fresh (t : transport) : Z * transport :=
  (tp_next t, Transport (tp_closed t) (tp_epoch t) (tp_previous t) (tp_lease t) (tp_connection t) (tp_tunnel t) (tp_stderr t) (tp_directory t)
    (tp_opened t) (tp_processes t) (tp_directories t) (tp_next t + 1)).

Definition is_open (c : Z) (t : transport) : bool := default false (dget c (tp_opened t)).
Definition process_of (p : Z) (t : transport) : process := default Ended (dget p (tp_processes t)).
Definition hang_up (c : Z) (t : transport) : transport :=
  if dmem c (tp_opened t) then set_opened (dset c false (tp_opened t)) t else t.

(** ** Where the task under the lock awaits *)

Inductive ending :=
| Ready (connection : Z)                  (* the request holds the lease and the connection *)
| Refused (code : string)                 (* a RemoteError *)
| Cancelled
| Retired                                 (* the [finally] clause of a request ended *)
| Detached.                               (* [close] ended *)

(** What follows a [_disconnect]. *)
Inductive continuation :=
| K_request (epoch : option string)       (* the request goes on *)
| K_end (e : ending).

Inductive point :=
| P_revoke (k : continuation)             (* force_revoke_async *)
| P_wait (k : continuation)               (* tunnel.wait(), for 5 seconds *)
| P_killed (k : continuation)             (* tunnel.wait(), after the kill *)
| P_stderr (k : continuation)             (* _finish_stderr *)
| P_spawn (epoch : option string)
| P_poll (epoch : option string)          (* until the socket exists *)
| P_failed_stderr (epoch : option string)
| P_connect (epoch : option string) (connection : Z)
| P_close (failure : ending)              (* connection.close(), after it could not connect *)
| P_done (e : ending).

Inductive transport_input :=
| I_revoked (closed : bool)
| I_waited (in_time : bool)
| I_drained
| I_spawned (ok : bool)
| I_exists
| I_exited
| I_timeout
| I_connected (runtime : string)
| I_refused (code : string)               (* connect() failed: an OSError, a timeout or a RemoteError *)
| I_hung_up
| I_cancelled.

(** ** [_disconnect] *)

Section disconnect.
Variable resume : continuation -> transport -> point * transport.

Definition drop_directory (k : continuation) (t : transport) : point * transport :=
  resume k (match tp_directory t with
            | Some d => set_directory None (filter (fun x => x <> d) (tp_directories t)) t
            | None => t
            end).

(** With the tunnel ended. *)
Definition drop_tunnel (k : continuation) (t : transport) : point * transport :=
  if tp_stderr t then (P_stderr k, t) else drop_directory k (set_tunnel None false t).

Definition drop_connection (k : continuation) (t : transport) : point * transport :=
  let t := set_lease None None t in
  match tp_tunnel t with
  | Some p =>
      match process_of p t with
      | Ended => drop_tunnel k t
      | _ => (P_wait k, set_processes (dset p Signalled (tp_processes t)) t)
      end
  | None => drop_directory k t
  end.

Definition _disconnect (k : continuation) (t : transport) : point * transport :=
  match tp_lease t with Some _ => (P_revoke k, t) | None => drop_connection k t end.
End disconnect.

(** ** [_connect], in a request *)

(** The [except] clauses around it. *)
Definition connect_failed (e : ending) (t : transport) : point * transport :=
  _disconnect (fun k t => (P_done (match k with K_end e => e | K_request _ => Cancelled end), t)) (K_end e) t.

Definition open_connection (epoch : option string) (t : transport) : point * transport :=
  let '(c, t) := fresh t in (P_connect epoch c, set_opened (dset c true (tp_opened t)) t).

Definition _connect (ssh : bool) (epoch : option string) (t : transport) : point * transport :=
  if tp_closed t then connect_failed (Refused "backend_unavailable") t
  else if ssh then
    let '(d, t) := fresh t in (P_spawn epoch, set_directory (Some d) (d :: tp_directories t) t)
  else open_connection epoch t.

(** The end of [_connect] and of the part under the lock. *)
Definition connection_made (epoch : option string) (c : Z) (runtime : string) (t : transport) : point * transport :=
  let changed := opt_truthy (tp_epoch t) && bool_decide (tp_epoch t <> Some runtime) in
  let t := set_lease (Some c) (Some c) (set_runtime (Some runtime) (if changed then tp_epoch t else tp_previous t) t) in
  (P_done (if opt_truthy epoch && bool_decide (epoch <> Some runtime) then Refused "runtime_changed" else Ready c), t).

(** ** [_request], under the lock *)

Definition go_on (ssh : bool) (epoch : option string) (t : transport) : point * transport :=
  if opt_truthy epoch && opt_truthy (tp_epoch t) && bool_decide (epoch <> tp_epoch t) then (P_done (Refused "runtime_changed"), t)
  else match tp_lease t with
       | None => _connect ssh epoch t
       | Some c => (P_done (if opt_truthy epoch && bool_decide (epoch <> tp_epoch t) then Refused "runtime_changed" else Ready c), t)
       end.

Definition resume (ssh : bool) (k : continuation) (t : transport) : point * transport :=
  match k with K_request epoch => go_on ssh epoch t | K_end e => (P_done e, t) end.

Definition start_request (ssh : bool) (epoch : option string) (t : transport) : point * transport :=
  if tp_closed t then (P_done (Refused "backend_unavailable"), t)
  else match tp_connection t with
       | Some c => if is_open c t then go_on ssh epoch t else _disconnect (resume ssh) (K_request epoch) t
       | None => go_on ssh epoch t
       end.

(** The [finally] clause, when the connection [c] of the request is closed. *)
Definition retire_connection (ssh : bool) (c : Z) (t : transport) : point * transport :=
  if negb (is_open c t) && bool_decide (tp_lease t = Some c) then _disconnect (resume ssh) (K_end Retired) t else (P_done Retired, t).

(** [close], once it has the lock. *)
Definition close_slot (ssh : bool) (t : transport) : point * transport := _disconnect (resume ssh) (K_end Detached) t.

(** ** What an input does *)

Definition end_tunnel (t : transport) : transport :=
  match tp_tunnel t with Some p => set_processes (dset p Ended (tp_processes t)) t | None => t end.

Definition transport_step (ssh : bool) (p : point) (i : transport_input) (t : transport) : option (point * transport) :=
  match p, i with
  | P_revoke k, I_revoked true =>
      Some (drop_connection (resume ssh) k (match tp_lease t with Some c => hang_up c t | None => t end))
  | P_revoke k, I_revoked false => Some (P_done (Refused "transport_quarantined"), t)
  | P_revoke k, I_cancelled => Some (P_done Cancelled, t)
  | P_wait k, I_waited true => Some (drop_tunnel (resume ssh) k (end_tunnel t))
  | P_wait k, I_waited false => Some (P_killed k, t)
  | P_wait k, I_cancelled => Some (P_done Cancelled, t)
  | P_killed k, I_waited _ => Some (drop_tunnel (resume ssh) k (end_tunnel t))
  | P_killed k, I_cancelled => Some (P_done Cancelled, t)
  | P_stderr k, I_drained => Some (drop_directory (resume ssh) k (set_tunnel None false t))
  | P_stderr k, I_cancelled => Some (P_done Cancelled, t)
  | P_spawn epoch, I_spawned true =>
      let '(n, t) := fresh t in Some (P_poll epoch, set_tunnel (Some n) true (set_processes (dset n Running (tp_processes t)) t))
  | P_spawn epoch, I_spawned false => Some (connect_failed (Refused "connection_unavailable") t)
  | P_spawn epoch, I_cancelled => Some (connect_failed Cancelled t)
  | P_poll epoch, I_exists => Some (open_connection epoch t)
  | P_poll epoch, I_exited => Some (P_failed_stderr epoch, end_tunnel t)
  | P_poll epoch, I_timeout => Some (connect_failed (Refused "connection_unavailable") t)
  | P_poll epoch, I_cancelled => Some (connect_failed Cancelled t)
  | P_failed_stderr epoch, I_drained => Some (connect_failed (Refused "ssh_unavailable") (set_tunnel (tp_tunnel t) false t))
  | P_failed_stderr epoch, I_cancelled => Some (connect_failed Cancelled t)
  | P_connect epoch c, I_connected runtime => Some (connection_made epoch c runtime t)
  | P_connect epoch c, I_refused code => Some (P_close (Refused code), hang_up c t)
  | P_connect epoch c, I_cancelled => Some (P_close Cancelled, hang_up c t)
  | P_close e, I_hung_up => Some (connect_failed e t)
  | P_close e, I_cancelled => Some (connect_failed Cancelled t)
  | _, _ => None
  end.

(** ** [describe] and [start] *)

Record slot_status := SlotStatus {
  sl_cached : option obj;
  sl_last_error : string;
  sl_probe_details : obj;
  sl_probed_at : option string;
  sl_expected_offline : bool
}.

Definition new_status : slot_status := SlotStatus None "" [] None false.

(** A refresh: the answer to the request for the metadata. *)
Definition probe (now : string) (answer : res RemoteError obj) (summary report : RemoteError -> string) (s : slot_status) : slot_status * bool :=
  match answer with
  | Ok metadata =>
      (SlotStatus (Some metadata) "" [] (Some now) (if get_bool "draining" metadata then sl_expected_offline s else false), true)
  | Raise e => (SlotStatus (sl_cached s) (summary e) [("code", JStr (re_code e)); ("error", JStr (report e))] (Some now) (sl_expected_offline s), false)
  end.

(** What the metadata says of a shutdown; [None]: nothing yet. *)
Definition shutdown_support (cached : option obj) : option bool :=
  match jget "power" (default [] cached) with
  | JNull => None
  | JObj power => Some (truthy (jget "shutdown" power) && negb (py_eq (jget "policy" power) (JStr "disabled")))
  | _ => Some false
  end.

Record description := Description {
  de_dynamic : option obj;
  de_reachable : option bool;
  de_probe_error : string;
  de_start_supported : bool;
  de_shutdown_supported : option bool;
  de_expected_offline : bool;
  de_needs_start : option bool
}.

Definition describe (config : Target) (refreshed : option (slot_status * bool)) (s : slot_status) : slot_status * description :=
  let '(s, reachable) := match refreshed with Some (s, b) => (s, Some b) | None => (s, None) end in
  (s, Description (sl_cached s) reachable (sl_last_error s) (truthy (JObj (tg_start_actions config))) (shutdown_support (sl_cached s)) (sl_expected_offline s)
        (if sl_expected_offline s then Some true else match reachable with Some true => Some false | _ => None end)).

(** [start]: no such action, or the end of its process; [None]: it timed out and was killed. *)
Definition start_action (config : Target) (action : string) (code : option Z) (s : slot_status) : slot_status * res RemoteError (string * Z) :=
  match dget action (tg_start_actions config) with
  | None => (s, Raise (remote "unsupported_start"))
  | Some _ =>
      match code with
      | None => (s, Raise (remote_unknown "start_unknown"))
      | Some code =>
          (SlotStatus (sl_cached s) (sl_last_error s) (sl_probe_details s) (sl_probed_at s) false,
           Ok (if code =? 0 then "start_action_completed" else "start_action_failed", code))
      end
  end.
