(* ===== verification/TransportSafety.v ===== *)
(** * Nothing of a connection is leaked

    The slot over any interleaving of requests, the ends of requests, [close], lost
    connections, dead tunnels and cancellations: every connection that is open and every
    tunnel that was not told to stop belong to the slot, and after [close] nothing is left and
    nothing is opened again. *)

From S2P Require Import Prelude Dict Utf8 Sha256 PyValue JsonText Targets Protocol LifecycleTable Lifecycle ExecutionGate Slot Transport.
Open Scope Z_scope.

(** ** The system *)

Section slot.
Variable ssh : bool.

(** The slot, where the task that has the lock awaits, and whether [close] has ended. *)
Record tsystem := TSys { ts_state : transport; ts_point : option point; ts_detached : bool }.

Definition start : tsystem := TSys new_transport None false.

(** The lock is released when the task is done. *)
Definition settle (detached : bool) (pt : point * transport) : tsystem :=
  match pt.1 with
  | P_done Detached => TSys pt.2 None true
  | P_done _ => TSys pt.2 None detached
  | p => TSys pt.2 (Some p) detached
  end.

Inductive system_step : tsystem -> tsystem -> Prop :=
| ss_request t d epoch : system_step (TSys t None d) (settle d (start_request ssh epoch t))
| ss_finally t d c : system_step (TSys t None d) (settle d (retire_connection ssh c t))
| ss_closing t p d : system_step (TSys t p d) (TSys (set_closed t) p d)
| ss_close t d : tp_closed t = true -> system_step (TSys t None d) (settle d (close_slot ssh t))
| ss_input t p d i pt : transport_step ssh p i t = Some pt -> system_step (TSys t (Some p) d) (settle d pt)
| ss_lost t p d c : system_step (TSys t p d) (TSys (hang_up c t) p d)
| ss_died t p d n : system_step (TSys t p d) (TSys (if dmem n (tp_processes t) then set_processes (dset n Ended (tp_processes t)) t else t) p d).

(** ** The invariant *)

(** While the task awaits at [p], a connection may be open or a tunnel run that the slot
    does not own yet. *)
Definition opening (p : option point) : option Z := match p with Some (P_connect _ c) => Some c | _ => None end.
Definition spawning (p : option point) : bool :=
  match p with Some (P_poll _ | P_failed_stderr _ | P_connect _ _ | P_close _) => true | _ => false end.
(** The task is in [_connect]. *)
Definition connecting (p : option point) : bool :=
  match p with Some (P_spawn _) => true | _ => spawning p end.
(** The task is in [_disconnect], past the lease. *)
Definition dropping (p : option point) : bool := match p with Some (P_wait _ | P_killed _ | P_stderr _) => true | _ => false end.

(** What the task ends with. *)
Definition ending_of (k : continuation) : option ending := match k with K_end e => Some e | K_request _ => None end.
Definition bound_for (p : option point) : option ending :=
  match p with
  | Some (P_revoke k | P_wait k | P_killed k | P_stderr k) => ending_of k
  | Some (P_close e) => Some e
  | _ => None
  end.

Record transport_ok (t : transport) (p : option point) (detached : bool) : Prop := {
  to_wf : dwf (tp_opened t) /\ dwf (tp_processes t);
  to_fresh : (forall c, is_Some (dget c (tp_opened t)) -> c < tp_next t) /\ (forall n, is_Some (dget n (tp_processes t)) -> n < tp_next t);
  to_lease : tp_lease t = tp_connection t;
  to_open : forall c, dget c (tp_opened t) = Some true -> tp_connection t = Some c \/ opening p = Some c;
  to_running : forall n, dget n (tp_processes t) = Some Running -> tp_tunnel t = Some n /\ (is_Some (tp_connection t) \/ spawning p = true);
  to_known : forall n, tp_tunnel t = Some n -> n < tp_next t;
  to_idle : connecting p = true \/ dropping p = true -> tp_connection t = None;
  to_bound : bound_for p = Some Detached -> tp_closed t = true;
  to_detached : detached = true -> tp_closed t = true /\ p = None /\ tp_connection t = None /\ tp_tunnel t = None /\ tp_directory t = None
}.

Definition system_ok (S : tsystem) : Prop := transport_ok (ts_state S) (ts_point S) (ts_detached S).

(** A slot without connection, between its parts. *)
Record quiet (t : transport) : Prop := {
  qt_wf : dwf (tp_opened t) /\ dwf (tp_processes t);
  qt_fresh : (forall c, is_Some (dget c (tp_opened t)) -> c < tp_next t) /\ (forall n, is_Some (dget n (tp_processes t)) -> n < tp_next t);
  qt_lease : tp_lease t = None /\ tp_connection t = None;
  qt_known : forall n, tp_tunnel t = Some n -> n < tp_next t;
  qt_open : forall c, dget c (tp_opened t) <> Some true;
  qt_running : forall n, dget n (tp_processes t) <> Some Running
}.

(** A quiet slot may stop at a point where nothing is opened. *)
Lemma quiet_slot_ok t p d :
  quiet t -> opening p = None -> (bound_for p = Some Detached -> tp_closed t = true) ->
  (d = true -> tp_closed t = true /\ p = None /\ tp_tunnel t = None /\ tp_directory t = None) -> transport_ok t p d.
Proof.
  intros [H1 H2 [H3 H3'] HK H4 H5] Ho Hb Hd. constructor; try done.
  - congruence.
  - intros c Hc. by apply H4 in Hc.
  - intros n Hn. by apply H5 in Hn.
  - intros ->. destruct (Hd eq_refl) as (? & ? & ? & ?). by split_and!.
Qed.

Lemma settle_done d e t :
  quiet t -> tp_tunnel t = None -> tp_directory t = None -> (e = Detached -> tp_closed t = true) -> (d = true -> tp_closed t = true) ->
  system_ok (settle d (P_done e, t)).
Proof.
  intros Hq Ht Hd He Hc. unfold settle, system_ok. destruct e; cbn; apply quiet_slot_ok; try done; intros X; by split_and!; auto.
Qed.

Section drop.
Variables (res : continuation -> transport -> point * transport) (k : continuation) (d closed : bool).
Hypothesis Hres : forall t, quiet t -> tp_tunnel t = None -> tp_directory t = None -> tp_closed t = closed -> system_ok (settle d (res k t)).
Hypothesis Hend : ending_of k = Some Detached -> closed = true.

Lemma drop_directory_ok t : quiet t -> tp_tunnel t = None -> tp_closed t = closed -> system_ok (settle d (drop_directory res k t)).
Proof.
  intros Hq Ht Hc. unfold drop_directory. destruct (tp_directory t) as [x|] eqn:E; apply Hres; try done. by destruct Hq.
Qed.

Lemma drop_tunnel_ok t : quiet t -> d = false -> tp_closed t = closed -> system_ok (settle d (drop_tunnel res k t)).
Proof.
  intros Hq Hd Hc. unfold drop_tunnel. destruct (tp_stderr t).
  - unfold system_ok. cbn. apply quiet_slot_ok; [done|done| |by rewrite Hd]. cbn. intros E. by rewrite Hc, Hend.
  - apply drop_directory_ok; [|done..]. by destruct Hq.
Qed.

Lemma drop_connection_ok t :
  dwf (tp_opened t) /\ dwf (tp_processes t) ->
  (forall c, is_Some (dget c (tp_opened t)) -> c < tp_next t) /\ (forall n, is_Some (dget n (tp_processes t)) -> n < tp_next t) ->
  (forall n, tp_tunnel t = Some n -> n < tp_next t) ->
  (forall c, dget c (tp_opened t) <> Some true) -> (forall n, dget n (tp_processes t) = Some Running -> tp_tunnel t = Some n) ->
  (d = true -> tp_tunnel t = None) -> tp_closed t = closed -> system_ok (settle d (drop_connection res k t)).
Proof.
  intros Hwf Hfresh HK Ho Hr Hd Hc. unfold drop_connection. cbn [tp_tunnel set_lease]. destruct (tp_tunnel t) as [n|] eqn:E.
  - assert (Hdf : d = false) by (destruct (decide (d = true)) as [X | X]; [by specialize (Hd X)|by destruct d]). clear Hd.
    change (process_of n (set_lease None None t)) with (process_of n t). destruct (process_of n t) eqn:Ep.
    1,2: unfold system_ok; cbn; apply quiet_slot_ok; [|done| |by rewrite Hdf]; [|cbn; intros X; by rewrite Hc, Hend];
         constructor; cbn; [by split; [apply Hwf|apply dwf_dset, Hwf]|split; [apply Hfresh|]|done|by rewrite E|done|];
         [intros m; rewrite dget_dset; case_decide as Em; [intros _; subst m|by apply Hfresh]; apply Hfresh; unfold process_of in Ep; by destruct (dget n (tp_processes t))
         |intros m; rewrite dget_dset; case_decide; [done|]; intros Hm; apply Hr in Hm; congruence].
    apply drop_tunnel_ok; [|done|done]. constructor; cbn; try done; [by rewrite E|]. intros m Hm. apply Hr in Hm as Hx. assert (m = n) as -> by congruence. unfold process_of in Ep. by rewrite Hm in Ep.
  - apply drop_directory_ok; [|done|done]. constructor; cbn; try done; [by rewrite E|]. intros m Hm. apply Hr in Hm. congruence.
Qed.

Lemma disconnect_ok t : transport_ok t None d -> tp_closed t = closed -> system_ok (settle d (_disconnect res k t)).
Proof.
  intros [H1 H2 H3 H4 H5 HK H6 H7 H8] Hc. unfold _disconnect. destruct (tp_lease t) as [c|] eqn:E.
  - unfold system_ok. cbn. constructor; try done.
    + congruence.
    + cbn. intros X. by rewrite Hc, Hend.
    + intros Hd. destruct (H8 Hd) as (_ & _ & X & _). congruence.
  - apply drop_connection_ok; try done.
    + intros c Hc'. apply H4 in Hc' as [? | ?]; [congruence|done].
    + intros n Hn. by apply H5 in Hn as [? _].
    + intros Hd. by apply (H8 Hd).
Qed.
End drop.

(** ** The parts of a request *)

(** A state in [_connect], or after it failed. *)
Lemma failed_ok e t p :
  transport_ok t p false -> connecting p = true -> opening p = None -> (e = Detached -> tp_closed t = true) ->
  system_ok (settle false (connect_failed e t)).
Proof.
  intros [H1 H2 H3 H4 H5 HK H6 H7 H8] Hp Ho He. assert (Hn : tp_connection t = None) by (apply H6; by left).
  unfold connect_failed, _disconnect. rewrite H3, Hn.
  apply (drop_connection_ok _ _ _ (tp_closed t)); try done.
  - intros t' Hq Ht Hd Hc. apply settle_done; try done. intros ->. rewrite Hc. by apply He.
  - cbn. intros [= ->]. by apply He.
  - intros c Hc. apply H4 in Hc as [? | ?]; congruence.
  - intros n X. by apply H5 in X as [? _].
Qed.

Lemma is_Some_dset {A} k k' (v : A) (d : dict Z A) : is_Some (dget k' (dset k v d)) -> k' = k \/ is_Some (dget k' d).
Proof. rewrite dget_dset. case_decide; [by left|by right]. Qed.

Lemma open_connection_ok epoch t p :
  transport_ok t p false -> tp_connection t = None -> opening p = None -> (connecting p = true \/ forall n, dget n (tp_processes t) <> Some Running) ->
  system_ok (settle false (open_connection epoch t)).
Proof.
  intros [H1 H2 H3 H4 H5 HK H6 H7 H8] Hn Ho Hr. unfold open_connection, system_ok. cbn. constructor; cbn; try done.
  - split; [apply dwf_dset, H1|apply H1].
  - split; [intros c [-> | Hc]%is_Some_dset; [lia|apply H2 in Hc; lia]|]. intros n Hx. apply H2 in Hx. lia.
  - intros c. rewrite dget_dset. case_decide as E; [intros _; right; by subst|]. intros Hc. apply H4 in Hc as [? | ?]; congruence.
  - intros n Hx. split; [by apply H5 in Hx as [? _]|by right].
  - intros n Hx. apply HK in Hx. lia.
Qed.

Lemma connect_ok epoch t : transport_ok t None false -> tp_lease t = None -> system_ok (settle false (_connect ssh epoch t)).
Proof.
  intros Hok Hl. pose proof Hok as [H1 H2 H3 H4 H5 HK H6 H7 H8]. assert (Hc : tp_connection t = None) by congruence.
  assert (Hq : forall n, dget n (tp_processes t) <> Some Running). { intros n [_ [X | X]]%H5; [rewrite Hc in X; by destruct X|done]. }
  unfold _connect. destruct (tp_closed t) eqn:E.
  - apply (failed_ok _ _ (Some (P_spawn None))); [|done..]. by constructor; try done; intros n Hn; apply Hq in Hn.
  - destruct ssh; [|by apply (open_connection_ok _ _ None); auto].
    unfold system_ok. cbn. apply quiet_slot_ok; try done. constructor; cbn; try done.
    + split; [intros c X; apply H2 in X; lia|intros n X; apply H2 in X; lia].
    + intros n Hx. apply HK in Hx. lia.
    + intros c X. apply H4 in X as [? | ?]; [congruence|done].
Qed.

Lemma go_on_ok epoch t : transport_ok t None false -> system_ok (settle false (go_on ssh epoch t)).
Proof.
  intros Hok. unfold go_on. destruct (_ && _ && _); [done|]. destruct (tp_lease t) eqn:E; [by destruct (_ && _)|by apply connect_ok].
Qed.

Lemma resume_ok k t d :
  quiet t -> tp_tunnel t = None -> tp_directory t = None -> (ending_of k = Some Detached -> tp_closed t = true) -> (d = true -> tp_closed t = true) ->
  (d = true -> ending_of k <> None) -> system_ok (settle d (resume ssh k t)).
Proof.
  intros Hq Ht Hdir Hk Hc Hd. destruct k as [epoch|e]; cbn.
  - assert (d = false) as -> by (destruct d; [by specialize (Hd eq_refl)|done]). apply go_on_ok. by apply quiet_slot_ok.
  - apply settle_done; auto. intros ->. by apply Hk.
Qed.
(** ** Every step keeps the invariant *)

Lemma done_ok t p : transport_ok t p false -> opening p = None -> spawning p = false -> transport_ok t None false.
Proof.
  intros [H1 H2 H3 H4 H5 HK H6 H7 H8] Ho Hs. constructor; try done.
  - intros c Hc. apply H4 in Hc as [? | ?]; [by left|congruence].
  - intros n Hn. apply H5 in Hn as [? [? | ?]]; [by split; [|left]|congruence].
  - by intros [? | ?].
Qed.

Lemma dropping_quiet t p : transport_ok t p false -> dropping p = true -> quiet t.
Proof.
  intros [H1 H2 H3 H4 H5 HK H6 H7 H8] Hp. assert (Hn : tp_connection t = None) by (apply H6; by right).
  constructor; try done; [by rewrite H3, Hn| |].
  - intros c Hc. apply H4 in Hc as [? | E]; [congruence|]. by destruct p as [[]|].
  - intros n Hx. apply H5 in Hx as [_ [X | E]]; [rewrite Hn in X; by destruct X|]. by destruct p as [[]|].
Qed.

Lemma end_tunnel_wf t : dwf (tp_processes t) -> dwf (tp_processes (end_tunnel t)).
Proof. unfold end_tunnel. destruct (tp_tunnel t); [|done]. cbn. apply dwf_dset. Qed.

Lemma end_tunnel_get t n v : dget n (tp_processes (end_tunnel t)) = Some v -> (v = Ended /\ tp_tunnel t = Some n) \/ dget n (tp_processes t) = Some v.
Proof. unfold end_tunnel. destruct (tp_tunnel t) as [m|]; [|by right]. cbn. rewrite dget_dset. case_decide; [intros [= <-]; left; by subst|by right]. Qed.

Lemma end_tunnel_fields t :
  tp_closed (end_tunnel t) = tp_closed t /\ tp_lease (end_tunnel t) = tp_lease t /\ tp_connection (end_tunnel t) = tp_connection t /\
  tp_tunnel (end_tunnel t) = tp_tunnel t /\ tp_opened (end_tunnel t) = tp_opened t /\ tp_next (end_tunnel t) = tp_next t.
Proof. unfold end_tunnel. destruct (tp_tunnel t) eqn:E; cbn; by rewrite ?E. Qed.

(** The tunnel of the slot ended; it was known. *)
Lemma end_tunnel_quiet t : quiet t -> quiet (end_tunnel t).
Proof.
  intros [H1 H2 H3 HK H4 H5]. destruct (end_tunnel_fields t) as (_ & E1 & E2 & E3 & E4 & E5). constructor; rewrite ?E1, ?E2, ?E3, ?E4, ?E5; try done.
  - split; [apply H1|by apply end_tunnel_wf, H1].
  - split; [apply H2|]. intros n [v Hv]. apply end_tunnel_get in Hv as [[_ Hn] | Hv]; [by apply HK|]. apply H2. by eexists.
  - intros n Hn. apply end_tunnel_get in Hn as [[? _] | Hn]; [done|]. by apply H5 in Hn.
Qed.

Lemma hang_up_fields c t :
  tp_closed (hang_up c t) = tp_closed t /\ tp_lease (hang_up c t) = tp_lease t /\ tp_connection (hang_up c t) = tp_connection t /\
  tp_tunnel (hang_up c t) = tp_tunnel t /\ tp_processes (hang_up c t) = tp_processes t /\ tp_next (hang_up c t) = tp_next t /\
  tp_directory (hang_up c t) = tp_directory t.
Proof. unfold hang_up. by destruct (dmem c (tp_opened t)). Qed.

Lemma hang_up_wf c t : dwf (tp_opened t) -> dwf (tp_opened (hang_up c t)).
Proof. unfold hang_up. destruct (dmem c (tp_opened t)); [|done]. apply dwf_dset. Qed.

Lemma hang_up_known c t x : is_Some (dget x (tp_opened (hang_up c t))) -> is_Some (dget x (tp_opened t)).
Proof. unfold hang_up, dmem. destruct (dget c (tp_opened t)) eqn:E; [|done]. intros [-> | ?]%is_Some_dset; [by eexists|done]. Qed.

Lemma hang_up_open c t x : dget x (tp_opened (hang_up c t)) = Some true -> x <> c /\ dget x (tp_opened t) = Some true.
Proof.
  unfold hang_up, dmem. destruct (dget c (tp_opened t)) eqn:E; [|intros H; split; [intros ->; congruence|done]].
  cbn. rewrite dget_dset. case_decide; [done|]. by split.
Qed.

Lemma hang_up_ok c t p d : transport_ok t p d -> transport_ok (hang_up c t) p d.
Proof.
  intros [H1 H2 H3 H4 H5 HK H6 H7 H8]. destruct (hang_up_fields c t) as (E1 & E2 & E3 & E4 & E5 & E6 & E7).
  constructor; rewrite ?E1, ?E2, ?E3, ?E4, ?E5, ?E6, ?E7; try done.
  - split; [apply hang_up_wf, H1|apply H1].
  - split; [intros x X%hang_up_known; exact (proj1 H2 x X)|apply H2].
  - intros x [_ X]%hang_up_open. by apply H4.
Qed.

Lemma input_ok t p i pt : transport_ok t (Some p) false -> transport_step ssh p i t = Some pt -> system_ok (settle false pt).
Proof.
  intros Hok Hs. pose proof Hok as [H1 H2 H3 H4 H5 HK H6 H7 H8].
  assert (Hres : forall k t', bound_for (Some p) = ending_of k -> quiet t' -> tp_tunnel t' = None -> tp_directory t' = None -> tp_closed t' = tp_closed t ->
    system_ok (settle false (resume ssh k t'))).
  { intros k t' Hk Hq Ht Hd Hc. apply resume_ok; try done. intros E. rewrite Hc. apply H7. congruence. }
  destruct p; destruct i as [[]|[]| |[]| | | | | | |]; try discriminate Hs; injection Hs as <-.
  (* _disconnect *)
  - apply (drop_connection_ok _ _ _ (tp_closed t)).
    + intros. by apply Hres.
    + intros E. by apply H7.
    + destruct (tp_lease t) as [c|]; [|done]. destruct (hang_up_fields c t) as (_ & _ & _ & _ & -> & _). split; [apply hang_up_wf, H1|apply H1].
    + destruct (tp_lease t) as [c|]; [|done]. destruct (hang_up_fields c t) as (_ & _ & _ & _ & -> & -> & _). split; [intros x X%hang_up_known; exact (proj1 H2 x X)|apply H2].
    + destruct (tp_lease t) as [c|]; [|done]. destruct (hang_up_fields c t) as (_ & _ & _ & -> & _ & -> & _). done.
    + intros x. destruct (tp_lease t) as [c|] eqn:E.
      * intros [Hne X]%hang_up_open. apply H4 in X as [? | ?]; [congruence|done].
      * intros X. apply H4 in X as [? | ?]; [congruence|done].
    + destruct (tp_lease t) as [c|]; [destruct (hang_up_fields c t) as (_ & _ & _ & -> & -> & _)|]; intros n Hn; by apply H5 in Hn as [? _].
    + done.
    + destruct (tp_lease t) as [c|]; [|done]. by destruct (hang_up_fields c t) as (-> & _).
  - by eapply done_ok.
  - by eapply done_ok.
  - apply (drop_tunnel_ok _ _ _ (tp_closed t)); [intros; by apply Hres|intros E; by apply H7| |done|by apply end_tunnel_fields].
    by eapply end_tunnel_quiet, dropping_quiet.
  - constructor; try done.
  - by eapply done_ok.
  - apply (drop_tunnel_ok _ _ _ (tp_closed t)); [intros; by apply Hres|intros E; by apply H7| |done|by apply end_tunnel_fields].
    by eapply end_tunnel_quiet, dropping_quiet.
  - apply (drop_tunnel_ok _ _ _ (tp_closed t)); [intros; by apply Hres|intros E; by apply H7| |done|by apply end_tunnel_fields].
    by eapply end_tunnel_quiet, dropping_quiet.
  - by eapply done_ok.
  - apply (drop_directory_ok _ _ _ (tp_closed t)); [intros; by apply Hres| |done|done]. apply dropping_quiet in Hok as [Q1 Q2 Q3 Q4 Q5 Q6]; by constructor.
  - by eapply done_ok.
  (* _connect *)
  - assert (Hn : tp_connection t = None) by (apply H6; by left). unfold system_ok. cbn. constructor; cbn; try done.
    + split; [apply H1|apply dwf_dset, H1].
    + split; [intros x X; apply H2 in X; lia|]. intros x [-> | X]%is_Some_dset; [lia|apply H2 in X; lia].
    + intros n. rewrite dget_dset. case_decide as E; [subst n; intros _; split; [done|by right]|]. intros X. apply H5 in X as [_ [X | X]]; [rewrite Hn in X; by destruct X|done].
    + intros n [= <-]. lia.
  - by eapply failed_ok.
  - by eapply failed_ok.
  - eapply open_connection_ok; [exact Hok|apply H6; by left|done|by left].
  - destruct (end_tunnel_fields t) as (E1 & E2 & E3 & E4 & E5 & E6). unfold system_ok. cbn. constructor; rewrite ?E1, ?E2, ?E3, ?E4, ?E5, ?E6; try done.
    + split; [apply H1|apply end_tunnel_wf, H1].
    + split; [apply H2|]. intros n [v X]. apply end_tunnel_get in X as [[_ X] | X]; [by apply HK|]. apply H2. by eexists.
    + intros n X. apply end_tunnel_get in X as [[? _] | X]; [done|]. by apply H5 in X as [? ?].
  - by eapply failed_ok.
  - by eapply failed_ok.
  - eapply (failed_ok _ _ (Some (P_failed_stderr epoch))); [|done..]. by constructor.
  - by eapply failed_ok.
  - unfold connection_made, system_ok. destruct (_ && _), (_ && _); cbn; (constructor; cbn; try done;
      [intros x X; apply H4 in X as [X | X]; [rewrite H6 in X by (by left); done|by left]
      |intros n X; split; [by apply H5 in X as [? _]|left; by eexists]
      |by intros [? | ?]]).
  - unfold system_ok. cbn. apply (hang_up_ok connection) in Hok as [G1 G2 G3 G4 G5 GK G6 G7 G8]. constructor; try done.
    intros x X. apply hang_up_open in X as X'. apply G4 in X as [X | X]; [by left|]. cbn in X. by destruct X' as [? _]; simplify_eq.
  - unfold system_ok. cbn. apply (hang_up_ok connection) in Hok as [G1 G2 G3 G4 G5 GK G6 G7 G8]. constructor; try done.
    intros x X. apply hang_up_open in X as X'. apply G4 in X as [X | X]; [by left|]. cbn in X. by destruct X' as [? _]; simplify_eq.
  - eapply failed_ok; [exact Hok|done|done|]. intros ->. by apply H7.
  - by eapply failed_ok.
Qed.

Lemma resume_after t d k : transport_ok t None d -> (ending_of k = Some Detached -> tp_closed t = true) -> (d = true -> ending_of k <> None) ->
  system_ok (settle d (_disconnect (resume ssh) k t)).
Proof.
  intros Hok Hk Hd. apply (disconnect_ok _ _ _ (tp_closed t)); try done.
  intros t' Hq Ht Hdir Hc. apply resume_ok; try done; rewrite Hc; [done|]. intros X. by apply (to_detached _ _ _ Hok).
Qed.

Lemma system_step_ok S S' : system_step S S' -> system_ok S -> system_ok S'.
Proof.
  unfold system_ok at 1. intros [] Hok; cbn in Hok.
  - unfold start_request. destruct (tp_closed t) eqn:E; [done|].
    assert (d = false) as -> by (destruct d; [by apply (to_detached _ _ _ Hok) in E || (destruct (to_detached _ _ _ Hok eq_refl); congruence)|done]).
    destruct (tp_connection t); [|by apply go_on_ok]. destruct (is_open _ _); [by apply go_on_ok|]. by apply resume_after.
  - unfold retire_connection. destruct (_ && _); [|done]. by apply resume_after.
  - destruct Hok as [H1 H2 H3 H4 H5 HK H6 H7 H8]. constructor; cbn; try done. intros X. by destruct (H8 X) as (_ & ?).
  - unfold close_slot. by apply resume_after.
  - assert (d = false) as -> by (destruct d; [|done]; by destruct (to_detached _ _ _ Hok eq_refl) as (_ & ? & _)). by eapply input_ok.
  - by apply hang_up_ok.
  - destruct (dmem n (tp_processes t)) eqn:E; [|done]. destruct Hok as [H1 H2 H3 H4 H5 HK H6 H7 H8]. unfold system_ok. constructor; cbn; try done.
    + split; [apply H1|apply dwf_dset, H1].
    + split; [apply H2|]. intros x [-> | X]%is_Some_dset; [|by apply (proj2 H2)]. apply (proj2 H2). unfold dmem in E. by destruct (dget n (tp_processes t)).
    + intros x. rewrite dget_dset. case_decide; [done|]. by apply H5.
Qed.

Lemma system_reachable S : rtc system_step start S -> system_ok S.
Proof.
  apply (rtc_ind_r (R := system_step) system_ok start); [|intros x y _ Hs Hx; by eapply system_step_ok].
  constructor; cbn; try done. split; constructor.
Qed.

Lemma detached_stays S S' : rtc system_step S S' -> ts_detached S = true -> ts_detached S' = true.
Proof.
  induction 1 as [|x y z Hs _ IH]; [done|]. intros Hd. apply IH. destruct Hs; cbn in *; try done; unfold settle; by destruct (_.1) as [| | | | | | | | |[]].
Qed.

End slot.

(** ** Descriptions *)

(** A description does not guess: reachability is known only from the refresh of this
    call, a target is said not to need a start only if that refresh reached it, a failed
    refresh keeps what was known, and support of a shutdown is unknown until metadata said
    so. *)
Theorem descriptions_do_not_guess config now answer summary report refresh s s' d :
  describe config (if refresh : bool then Some (probe now answer summary report s) else None) s = (s', d) ->
  (de_reachable d = None <-> refresh = false) /\
  (de_needs_start d = Some false -> refresh = true /\ exists metadata, answer = Ok metadata) /\
  (de_shutdown_supported d = None <-> jget "power" (default [] (sl_cached s')) = JNull) /\
  ((forall metadata, answer <> Ok metadata) -> sl_cached s' = sl_cached s /\ sl_expected_offline s' = sl_expected_offline s).
Proof.
  assert (Hsup : forall c, shutdown_support c = None <-> jget "power" (default [] c) = JNull) by (intros c; unfold shutdown_support; by destruct (jget _ _)).
  destruct refresh; [destruct answer as [m|e]|]; cbn; intros [= <- <-]; cbn; split_and!; try done.
  - intros _. split; [done|by exists m].
  - intros H. by specialize (H m).
  - by destruct (sl_expected_offline s).
  - by destruct (sl_expected_offline s).
Qed.

(** ** Witnesses *)

(** A run under the lock: the part that starts it, then its inputs. *)
Fixpoint run_inputs (ssh : bool) (pt : point * transport) (l : list transport_input) : option (point * transport) :=
  match l with
  | [] => Some pt
  | i :: l => match transport_step ssh pt.1 i pt.2 with Some pt => run_inputs ssh pt l | None => None end
  end.

Definition then_request (l : list transport_input) (pt : option (point * transport)) : option (point * transport) :=
  match pt with Some (_, t) => run_inputs true (start_request true None t) l | None => None end.

(** A [_disconnect] that is cancelled while it waits for the tunnel leaves the tunnel and
    its directory to the next [_connect], which overwrites both. *)
Example cancelled_disconnect_leaks :
  let opened := run_inputs true (start_request true None new_transport) [I_spawned true; I_exists; I_connected "e"] in
  let lost := (fun pt => (pt.1, hang_up 2 pt.2)) <$> opened in
  exists t, then_request [I_spawned true; I_exists; I_connected "e"] (then_request [I_revoked true; I_cancelled] lost) = Some (P_done (Ready 5), t) /\
    tp_directories t = [3; 0] /\ tp_directory t = Some 3 /\ tp_tunnel t = Some 4 /\ tp_processes t = [(1, Signalled); (4, Running)].
Proof. eexists. vm_compute. by split_and!. Qed.

