(* ===== verification/Invocation.v ===== *)
(** * Results of tool calls

    [runtime.py], class [NativeExecutionRuntime]: how the failures of a shell tool are
    reported ([_call_record_async]), and how a result whose delivery failed stays within
    reach ([_normalize_invocation_result], [_finalize_invocation_result] and
    [_invoke_tool_record_async]).  The execution runtime of the host that they extend is a
    parameter: what it makes of a result, and of the attempts to render it again. *)

From S2P Require Import Prelude Dict Utf8 Sha256 PyValue JsonText Targets Protocol LifecycleTable Lifecycle ExecutionGate Slot Observations ToolContract ToolSafety.
Open Scope Z_scope.

(** ** Failures *)

(** [RemoteFailure] *)
Record failure := Failure { fa_code : string; fa_effect : string; fa_operation_id : string }.

Inductive call_outcome :=
| StageRecovered (sid : Z) (result : obj)       (* the retained result is staged as usual *)
| ShowRecovered (result : obj)
| ExecutionFailed (code effect operation_id : string) (warned recovery_failed : bool)
| Rejected (code : string) (details : obj) (blocking : list Z) (offer : option obj).

(** Whether the original operation is queried. *)
Definition reconciles (e : failure) : bool := str_truthy (fa_operation_id e) && bool_decide (fa_effect e <> "not_started").

(** [except RemoteFailure]; [reconciled]: the answer of the query, [None] when it failed. *)
Definition remote_failed (e : failure) (reconciled : option obj) : call_outcome :=
  let report failed := ExecutionFailed (fa_code e) (fa_effect e) (fa_operation_id e) (bool_decide (fa_effect e = "unknown")) failed in
  if negb (reconciles e) then report false
  else match reconciled with
       | Some r => if dmem "session_id" r then StageRecovered (raw_sid r) r else ShowRecovered r
       | None => report true
       end.

(** The session of a recovered result, with the context of its operation. *)
Definition recover_session (sid : Z) (context : session) (o : owner) : owner :=
  if (sid =? 0) || dmem sid (ow_sessions o) then o else set_sessions (dset sid context (ow_sessions o)) o.

(** [str(exc).partition(":")[0]] *)
Fixpoint before_colon (l : list Ascii.ascii) : list Ascii.ascii :=
  match l with
  | [] => []
  | c :: l => if Ascii.eqb c (Ascii.ascii_of_nat 58) then [] else c :: before_colon l
  end.
Definition rejection_prefix (message : string) : string := of_chars (before_colon (chars message)).

Definition rejection_code (prefix : string) : string :=
  default "shell_rejected" (dget prefix [("write_busy", "shell_write_busy"); ("invalid_session", "invalid_session");
    ("result_capacity", "shell_result_capacity"); ("stdin_closed", "stdin_closed")]).

(** [except ShellRejected]; [local]: the session is of the local shell. *)
Definition shell_rejected (message : string) (args : obj) (local : Z -> bool) (o : owner) : call_outcome :=
  let prefix := rejection_prefix message in
  let code := rejection_code prefix in
  let sid := jget "session_id" args in
  if decide (prefix = "invalid_session") then
    Rejected code [("session_id", sid); ("next_step", JStr "Consult the previously delivered result or output snapshot; do not replay the command.")] [] None
  else if decide (prefix = "write_busy" \/ prefix = "result_capacity") then
    Rejected code [] (filter (fun s => local s = true) (dkeys (ow_sessions o))) (Some [("name", JStr "inspect_shell_status")])
  else if truthy sid then Rejected code [] [] (Some [("name", JStr "read_shell_session"); ("session_id", sid); ("wait_ms", JInt 0)])
  else Rejected code [] [] None.

(** ** Results *)

(** A result of the host: whether it is a [CompleteResult], its structured output, and the
    arguments of [read_shell_session] it offers. *)
Record host_result := HostResult {
  hr_complete : bool;
  hr_output : obj;
  hr_output_error : string;
  hr_effect : effect_outcome;
  hr_offers : list obj
}.

Definition set_offers (l : list obj) (r : host_result) : host_result :=
  HostResult (hr_complete r) (hr_output r) (hr_output_error r) (hr_effect r) l.

Definition set_failure (p : PendingOutput) : PendingOutput :=
  Pending (po_result p) (po_turn_id p) (po_raw p) (po_prepared p) (po_recovery_of p) (po_delivered p) true (po_covers_output p) (po_borrowed p).
Definition set_prepared (p : PendingOutput) : PendingOutput :=
  Pending (po_result p) (po_turn_id p) (po_raw p) true (po_recovery_of p) (po_delivered p) (po_failure p) (po_covers_output p) (po_borrowed p).

Definition on_pending (call : string) (f : PendingOutput -> PendingOutput) (o : owner) : owner :=
  match dget (OfCall call) (ow_outputs o) with Some p => set_outputs (dset (OfCall call) (f p) (ow_outputs o)) o | None => o end.

(** [pending.raw.structured]: the fields that the recovery reads. *)
Definition raw_payload (p : PendingOutput) : obj :=
  match po_raw p with
  | None => []
  | Some RawError => or_payload (output_result (dset "output_error" (JStr "not saved") (po_result p)))
  | Some _ => or_payload (output_result (po_result p))
  end.

(** [_normalize_invocation_result], on the result of the host. *)
Definition normalize_result (call : string) (payload : obj) (r : host_result) (o : owner) : owner :=
  if negb (hr_complete r) then o
  else
    let o := on_pending call set_prepared o in
    if str_truthy (hr_output_error r) || truthy (jget "output_error" payload) then on_pending call set_failure o else o.

Section host.
(** The finalizer of the host, and its validation of the offers. *)
Variable finish : host_result -> host_result.
Variable resolve_offers : list obj -> list obj.

Definition finalize_result (call : string) (r : host_result) (o : owner) : host_result * owner :=
  let r := finish r in
  if negb (hr_complete r) then (r, o)
  else
    let pending := dget (OfCall call) (ow_outputs o) in
    let failed := str_truthy (hr_output_error r) || truthy (jget "output_error" (hr_output r)) ||
                  match pending with Some p => po_failure p | None => false end in
    if negb failed then (r, o)
    else
      let hints := session_affordances (dset "output_error" (JBool true) (hr_output r)) (match pending with Some _ => call | None => "" end) in
      (set_offers (resolve_offers (hr_offers r ++ hints)) r, on_pending call set_failure o).

(** The attempts to render a retained result again; [None]: an exception. *)
Fixpoint retry_rendering (call : string) (payload : obj) (attempts : list (option host_result)) (r : host_result) (o : owner) : host_result * owner :=
  match attempts with
  | [] => (r, o)
  | None :: l => retry_rendering call payload l r o
  | Some x :: l =>
      let o := normalize_result call payload x o in
      if hr_complete x then finalize_result call x o else retry_rendering call payload l r o
  end.

(** The result of a call whose output could not be delivered. *)
Definition undelivered (call : string) (p : PendingOutput) (r : host_result) (o : owner) : host_result * owner :=
  let hints := session_affordances (dset "output_error" (JBool true) (raw_payload p)) call in
  finalize_result call (HostResult (hr_complete r) (hr_output r) (hr_output_error r) APPLIED (hr_offers r ++ hints)) (on_pending call set_failure o).

(** [_invoke_tool_record_async], before the delivery is committed. *)
Definition invoke_result (call : string) (attempts : list (option host_result)) (r : host_result) (o : owner) : host_result * owner :=
  match dget (OfCall call) (ow_outputs o) with
  | None => (r, o)
  | Some p =>
      let '(r, o) :=
        if hr_complete r then (r, o)
        else
          let '(r, o) := match po_raw p with Some _ => retry_rendering call (raw_payload p) (take 2 attempts) r o | None => (r, o) end in
          if hr_complete r then (r, o) else undelivered call p r o in
      (r, if hr_complete r && str_truthy (hr_output_error r) then on_pending call set_failure o else o)
  end.

(** A caller without a turn owns the delivery at once. *)
Definition invoke_tool (call : string) (token : nat) (deferred active : bool) (attempts : list (option host_result)) (r : host_result) (o : owner) : host_result * owner :=
  let known := dmem (OfCall call) (ow_outputs o) in
  let '(r, o) := invoke_result call attempts r o in
  (r, if known && negb deferred && negb active then commit_output token (OfCall call) o else o).
End host.

(** ** Failures are reported as they are *)

(** A failure is reported with its own effect, so a command is said not to have started
    only if the failure says so; with an operation that may have run, the report is a failure
    only if the query of that operation failed too, and an unknown effect carries the
    warning. *)
Theorem failures_keep_their_effect e reconciled code effect oid warned failed :
  remote_failed e reconciled = ExecutionFailed code effect oid warned failed ->
  code = fa_code e /\ effect = fa_effect e /\ oid = fa_operation_id e /\ (warned = true <-> effect = "unknown") /\
  (oid <> "" -> effect <> "not_started" -> reconciled = None /\ failed = true).
Proof.
  unfold remote_failed, reconciles. intros H.
  assert (X : ExecutionFailed (fa_code e) (fa_effect e) (fa_operation_id e) (bool_decide (fa_effect e = "unknown")) (str_truthy (fa_operation_id e) && bool_decide (fa_effect e <> "not_started")) =
    ExecutionFailed code effect oid warned failed /\ (str_truthy (fa_operation_id e) && bool_decide (fa_effect e <> "not_started") = true -> reconciled = None)).
  { destruct (_ && _) eqn:E; cbn [negb] in H; [|by split]. destruct reconciled as [r|]; [by destruct (dmem _ _)|]. by split. }
  destruct X as [[= <- <- <- <- <-] X]. split_and!; [done..|by rewrite bool_decide_eq_true|].
  intros H1 H2. rewrite (proj2 (str_truthy_spec _)), bool_decide_eq_true_2 in * by done. split; [by apply X|done].
Qed.

(** ** A failed delivery stays within reach *)

(** What the parts of an invocation keep of a pending output. *)
Record keeps (p p' : PendingOutput) : Prop := {
  kp_result : po_result p' = po_result p;
  kp_raw : po_raw p' = po_raw p;
  kp_covers : po_covers_output p' = po_covers_output p;
  kp_borrowed : po_borrowed p' = po_borrowed p;
  kp_failure : po_failure p = true -> po_failure p' = true
}.

Lemma keeps_refl p : keeps p p.
Proof. by split. Qed.
Lemma keeps_trans p q r : keeps p q -> keeps q r -> keeps p r.
Proof. intros [] []. split; try congruence. auto. Qed.
Lemma keeps_failure p : keeps p (set_failure p).
Proof. by split. Qed.
Lemma keeps_prepared p : keeps p (set_prepared p).
Proof. by split. Qed.

Lemma on_pending_get call f o p :
  dget (OfCall call) (ow_outputs o) = Some p -> dget (OfCall call) (ow_outputs (on_pending call f o)) = Some (f p).
Proof. intros H. unfold on_pending. rewrite H. cbn. by rewrite dget_dset_eq. Qed.

Lemma normalize_keeps call payload r o p :
  dget (OfCall call) (ow_outputs o) = Some p -> exists p', dget (OfCall call) (ow_outputs (normalize_result call payload r o)) = Some p' /\ keeps p p'.
Proof.
  intros H. unfold normalize_result. destruct (negb _); [by exists p; split; [|apply keeps_refl]|]. apply (on_pending_get _ set_prepared) in H as H1.
  destruct (_ || _); [|by eexists; split; [|apply keeps_prepared]]. apply (on_pending_get _ set_failure) in H1. eexists. split; [done|].
  eapply keeps_trans; [apply keeps_prepared|apply keeps_failure].
Qed.

Section reach.
Variable finish : host_result -> host_result.
Variable resolve_offers : list obj -> list obj.
(** The finalizer of the host budgets texts: it keeps what kind of result it is, the effect
    and the offers; it may note that an output could not be saved. *)
Hypothesis finish_keeps : forall r, hr_complete (finish r) = hr_complete r /\ hr_effect (finish r) = hr_effect r /\ hr_offers (finish r) = hr_offers r.

Lemma finalize_keeps call r o p r' o' :
  dget (OfCall call) (ow_outputs o) = Some p -> finalize_result finish resolve_offers call r o = (r', o') ->
  hr_complete r' = hr_complete r /\ (exists p', dget (OfCall call) (ow_outputs o') = Some p' /\ keeps p p') /\
  (hr_complete r = false -> r' = finish r /\ o' = o).
Proof.
  intros H. unfold finalize_result. destruct (finish_keeps r) as [E _]. rewrite E. destruct (hr_complete r) eqn:C; cbn [negb].
  - destruct (negb _); intros [= <- <-]; (split; [done|]); split; try done; [by exists p; split; [|apply keeps_refl]|].
    apply (on_pending_get _ set_failure) in H. eexists. split; [done|apply keeps_failure].
  - intros [= <- <-]. split; [by rewrite E|]. split; [by exists p; split; [|apply keeps_refl]|done].
Qed.

Lemma retry_keeps call payload attempts r o p r' o' :
  dget (OfCall call) (ow_outputs o) = Some p -> hr_complete r = false -> retry_rendering finish resolve_offers call payload attempts r o = (r', o') ->
  (exists p', dget (OfCall call) (ow_outputs o') = Some p' /\ keeps p p') /\ (hr_complete r' = false -> r' = r).
Proof.
  revert o p. induction attempts as [|[x|] l IH]; intros o p Hp Hr; cbn; [intros [= <- <-]; split; [by exists p; split; [|apply keeps_refl]|done]| |by apply IH].
  destruct (normalize_keeps call payload x o p Hp) as (p1 & H1 & K1). destruct (hr_complete x) eqn:C.
  - intros H. apply (finalize_keeps _ _ _ _ _ _ H1) in H as (E & (p2 & H2 & K2) & _). split; [exists p2; split; [done|by eapply keeps_trans]|congruence].
  - intros H. destruct (IH _ _ H1 Hr H) as [(p2 & H2 & K2) E]. split; [exists p2; split; [done|by eapply keeps_trans]|done].
Qed.

(** The session of a retained result. *)
Lemma project_keys_dget k fields d : k ∈ fields -> NoDup fields -> dget k (project_keys fields d) = dget k d.
Proof.
  unfold project_keys. induction fields as [|x fields IH]; [by intros ?%elem_of_nil|]. intros Hin [Hx Hnd]%NoDup_cons.
  assert (Hout : x ∉ dkeys (omap (fun k => (fun v => (k, v)) <$> dget k d) fields)).
  { intros ([z v] & E1 & Hy)%list_elem_of_fmap. apply list_elem_of_omap in Hy as (w & Hw & E). destruct (dget w d); [|done]. cbn in E, E1. injection E as -> ->. by subst. }
  apply elem_of_cons in Hin as [-> | Hin].
  - cbn. destruct (dget x d) as [v|] eqn:E; cbn; [by rewrite decide_True|]. by apply dget_None.
  - assert (k <> x) by (intros ->; done). cbn. destruct (dget x d) as [v|]; cbn; [rewrite decide_False by done|]; by apply IH.
Qed.

Lemma payload_session r : dget "session_id" (or_payload (output_result r)) = dget "session_id" r.
Proof.
  unfold output_result. cbn [or_payload]. destruct (is_terminal r); [|rewrite dget_dset_ne by done]; apply project_keys_dget; [by left|..|by left|];
    by apply (bool_decide_unpack _).
Qed.

(** A result that could not be delivered offers a way to read it. *)
Lemma undelivered_offers call p r o r' o' :
  dget (OfCall call) (ow_outputs o) = Some p -> hr_complete r = false -> str_truthy call = true ->
  (forall v, dget "session_id" (po_result p) = Some v -> exists z, v = JInt z /\ 0 <= z <= MAX_SESSION) ->
  undelivered finish resolve_offers call p r o = (r', o') ->
  hr_complete r' = false /\ hr_effect r' = APPLIED /\ dget (OfCall call) (ow_outputs o') = Some (set_failure p) /\
  exists args ri, args ∈ hr_offers r' /\ parse_read args = Some ri /\ validate_identifier ri = Ok tt /\
    (ri_session_id ri = Some (raw_sid (po_result p)) \/ ri_output_ref ri = Some call).
Proof.
  intros Hp Hr Hc Hs. unfold undelivered. intros H. apply (on_pending_get _ set_failure) in Hp as Hp'.
  apply (finalize_keeps _ _ _ _ _ _ Hp') in H as (E1 & _ & E2). destruct (E2 Hr) as [-> ->]. destruct (finish_keeps (HostResult (hr_complete r) (hr_output r) (hr_output_error r) APPLIED
    (hr_offers r ++ session_affordances (dset "output_error" (JBool true) (raw_payload p)) call))) as (F1 & F2 & F3).
  split; [by rewrite F1|]. split; [by rewrite F2|]. split; [done|]. rewrite F3. cbn [hr_offers].
  assert (Hsid : dget "session_id" (dset "output_error" (JBool true) (raw_payload p)) = match po_raw p with None => None | Some _ => dget "session_id" (po_result p) end).
  { rewrite dget_dset_ne by done. unfold raw_payload. destruct (po_raw p) as [[| |]|]; rewrite ?payload_session; try done. by rewrite dget_dset_ne. }
  assert (Herr : get_bool "output_error" (dset "output_error" (JBool true) (raw_payload p)) = true) by (unfold get_bool, jget; by rewrite dget_dset_eq).
  remember (dset "output_error" (JBool true) (raw_payload p)) as payload eqn:Epay.
  assert (Hin : exists args, args ∈ session_affordances payload call).
  { unfold session_affordances. rewrite Herr, Hc. cbn [negb]. destruct (truthy _); by eexists; left. }
  destruct Hin as [args Hin]. destruct (recovery_is_accepted payload call args Hin) as (ri & P1 & P2 & P3 & P4).
  { rewrite Hsid. by destruct (po_raw p). }
  exists args, ri. split_and!; [by apply elem_of_app; right|done|done|].
  destruct (Z.eq_dec (raw_sid payload) 0) as [E | E]; [right; by apply P4|left]. rewrite P3 by done. f_equal.
  unfold raw_sid, raw_int in *. rewrite Hsid in *. by destruct (po_raw p).
Qed.

Lemma update_session_outputs sid f o : ow_outputs (update_session sid f o) = ow_outputs o.
Proof. unfold update_session. by destruct (dget sid (ow_sessions o)). Qed.

Lemma note_tool_state_outputs call r turn_id o : ow_outputs (note_tool_state call r turn_id o) = ow_outputs o.
Proof.
  assert (Hr : forall r o, ow_outputs (record r o) = ow_outputs o).
  { intros r0 o0. unfold record. repeat (case_match; [|try done]); try done; unfold release_session_inputs, release_input_lease; repeat case_match; rewrite ?update_session_outputs; try done; cbn; by rewrite ?update_session_outputs. }
  unfold note_tool_state. destruct (dget _ _); [|by rewrite Hr]. destruct (py_eq _ _); by rewrite ?update_session_outputs, Hr.
Qed.

(** A failed output that is committed is in the inventory. *)
Lemma committed_failure_listed call p token o :
  dget (OfCall call) (ow_outputs o) = Some p -> po_failure p = true -> po_covers_output p = true ->
  exists info, (OfCall call, info) ∈ retained_outputs (commit_output token (OfCall call) o).
Proof.
  intros Hp Hf Hc.
  assert (Hlist : forall o', (OfCall call, delivered_output p) ∈ ow_outputs o' -> exists info, (OfCall call, info) ∈ retained_outputs o').
  { intros o' Hin. eexists. unfold retained_outputs. apply list_elem_of_fmap. exists (OfCall call, delivered_output p). split; [reflexivity|]. apply list_elem_of_filter. split; [|done]. cbn. exact Hf. }
  apply Hlist. unfold commit_output. rewrite Hp, Hf, andb_false_r, Hc. cbn [negb].
  destruct (po_borrowed p).
  - apply dget_elem. cbn. by rewrite dget_dset_eq.
  - unfold commit_failure. cbn [ow_outputs set_outputs]. apply list_elem_of_filter. split; [unfold same_failure; cbn; by rewrite bool_decide_eq_false_2 by (by intros [])|].
    rewrite note_tool_state_outputs. apply dget_elem. destruct (dmem _ _); cbn; rewrite ?update_session_outputs; cbn; by rewrite ?update_session_outputs, dget_dset_eq.
Qed.

(** C27: the result of a shell command is never out of reach: when the result of a call is
    not complete, it says that the command ran, and offers a call of [read_shell_session]
    that this tool accepts and that names the session or the retained output; when it could
    not be delivered as a whole, the output is marked, and once the call is committed the
    inventory lists it, so that it can be read again without the command. *)
Theorem undelivered_results_stay_in_reach call attempts r o p r' o' token :
  dget (OfCall call) (ow_outputs o) = Some p -> str_truthy call = true ->
  (forall v, dget "session_id" (po_result p) = Some v -> exists z, v = JInt z /\ 0 <= z <= MAX_SESSION) ->
  invoke_result finish resolve_offers call attempts r o = (r', o') ->
  (hr_complete r' = false ->
    hr_effect r' = APPLIED /\
    exists args ri, args ∈ hr_offers r' /\ parse_read args = Some ri /\ validate_identifier ri = Ok tt /\
      (ri_session_id ri = Some (raw_sid (po_result p)) \/ ri_output_ref ri = Some call)) /\
  exists p', dget (OfCall call) (ow_outputs o') = Some p' /\ keeps p p' /\
    (hr_complete r' = false \/ hr_output_error r' <> "" -> po_failure p' = true) /\
    (po_failure p' = true -> po_covers_output p = true -> exists info, (OfCall call, info) ∈ retained_outputs (commit_output token (OfCall call) o')).
Proof.
  intros Hp Hcall Hsid H. unfold invoke_result in H. rewrite Hp in H.
  destruct (if hr_complete r then _ else _) as [r1 o1] eqn:E. injection H as <- <-.
  assert (K : (hr_complete r1 = false -> hr_effect r1 = APPLIED /\ (exists args ri, args ∈ hr_offers r1 /\ parse_read args = Some ri /\ validate_identifier ri = Ok tt /\
      (ri_session_id ri = Some (raw_sid (po_result p)) \/ ri_output_ref ri = Some call))) /\
    exists p1, dget (OfCall call) (ow_outputs o1) = Some p1 /\ keeps p p1 /\ (hr_complete r1 = false -> po_failure p1 = true)).
  { destruct (hr_complete r) eqn:C; [injection E as <- <-; split; [congruence|]; exists p; split_and!; [done|apply keeps_refl|congruence]|].
    destruct (match po_raw p with Some _ => _ | None => _ end) as [r2 o2] eqn:E2.
    assert (R : (exists p2, dget (OfCall call) (ow_outputs o2) = Some p2 /\ keeps p p2) /\ (hr_complete r2 = false -> r2 = r)).
    { destruct (po_raw p); [by eapply retry_keeps|]. injection E2 as <- <-. split; [by exists p; split; [|apply keeps_refl]|done]. }
    destruct R as [(p2 & H2 & K2) R]. destruct (hr_complete r2) eqn:C2.
    - injection E as <- <-. split; [congruence|]. exists p2. split_and!; [done..|congruence].
    - assert (Hp2 : undelivered finish resolve_offers call p2 r2 o2 = (r1, o1)).
      { rewrite <- E. unfold undelivered, raw_payload. by rewrite (kp_raw _ _ K2), (kp_result _ _ K2). }
      apply (undelivered_offers _ _ _ _ _ _ H2 C2 Hcall) in Hp2 as (U1 & U2 & U3 & U4); [|by rewrite (kp_result _ _ K2)].
      rewrite (kp_result _ _ K2) in U4. split; [by intros _|]. exists (set_failure p2). split_and!; [done|by eapply keeps_trans; [|apply keeps_failure]|done]. }
  destruct K as [K1 (p1 & H1 & Kp & Kf)]. split; [exact K1|].
  assert (Hfin : exists p', dget (OfCall call) (ow_outputs (if hr_complete r1 && str_truthy (hr_output_error r1) then on_pending call set_failure o1 else o1)) = Some p' /\ keeps p p' /\
    (hr_complete r1 = false \/ hr_output_error r1 <> "" -> po_failure p' = true)).
  { destruct (_ && _) eqn:B.
    - apply (on_pending_get _ set_failure) in H1. exists (set_failure p1). split_and!; [done|by eapply keeps_trans; [|apply keeps_failure]|done].
    - exists p1. split_and!; [done..|]. intros [X | X]; [by apply Kf|]. apply Kf. apply (proj2 (str_truthy_spec _)) in X. rewrite X, andb_true_r in B. done. }
  destruct Hfin as (p' & F1 & F2 & F3). exists p'. split_and!; [done..|]. intros Hf Hc. eapply committed_failure_listed; [done|done|]. by rewrite (kp_covers _ _ F2).
Qed.
End reach.

(** ** Witnesses *)

Definition failed_output : PendingOutput := Pending [("session_id", JInt 0); ("status", JStr "exited"); ("returncode", JInt 0)] "t" (Some RawState) false None false false true false.
Definition failed_owner : owner := set_outputs [(OfCall "call", failed_output)] new_owner.

Lemma undelivered_results_stay_in_reach_witness :
  let r := HostResult false [] "" NOT_STARTED [] in
  let st := invoke_result id id "call" [None; None] r failed_owner in
  hr_offers st.1 = [[("output_ref", JStr "call")]] /\
  exists p', dget (OfCall "call") (ow_outputs st.2) = Some p' /\ keeps failed_output p' /\
    (hr_complete st.1 = false \/ hr_output_error st.1 <> "" -> po_failure p' = true) /\
    (po_failure p' = true -> po_covers_output failed_output = true -> exists info, (OfCall "call", info) ∈ retained_outputs (commit_output 0 (OfCall "call") st.2)).
Proof.
  split; [vm_compute; reflexivity|].
  refine (proj2 (undelivered_results_stay_in_reach id id _ "call" [None; None] (HostResult false [] "" NOT_STARTED []) failed_owner failed_output _ _ 0 _ _ _ _)).
  - intros r. by split_and!.
  - reflexivity.
  - reflexivity.
  - intros v [= <-]. exists 0. split; [reflexivity|]. unfold MAX_SESSION. lia.
  - apply surjective_pairing.
Defined.
