(* ===== verification/Polling.v ===== *)
(** * The router's background work

    [router.py]: which runtimes [_poll] watches, how a poller of [_poll_target] notices that
    its worker can be reached again, what [observe] asks, where [run] sends a command, and
    how [reconcile_transient] settles the operations of a temporary turn before its sessions
    are retired.  The state of the router is that of [Router.v]; the handling of the events of
    a poll is there too. *)

From S2P Require Import Prelude Dict Utf8 Sha256 PyValue JsonText Targets LifecycleTable Lifecycle Router RouterSafety Observations Retirement.
Open Scope Z_scope.

(** ** [_poll] *)

Abbreviation runtime_key := (Z * string)%type.
Definition runtime_of (t : Ticket) : runtime_key := (tk_target t, tk_epoch t).

(** [self.tickets.values()] *)
Definition held_tickets (r : Router) : list Ticket := omap (fun p => dget p.2 (ro_heap r)) (ro_tickets r).

(** The operations whose runtime is polled. *)
Definition is_polled (retiring : list string) (r : Router) (t : Ticket) : bool :=
  let c := context_of (tk_operation_id t) r in
  str_truthy (tk_epoch t) &&
  ((bool_decide (tk_kind t = "execution") && cx_submitted c && negb (cx_control c)) || bool_decide (tk_origin_turn t ∈ retiring)).

Definition poll_groups (retiring : list string) (r : Router) : list runtime_key :=
  remove_dups ((runtime_of <$> held_tickets r) ++ (runtime_of <$> filter (fun t => is_polled retiring r t = true) (operations r))).

(** [self.poll_targets]: whether each poller still runs. *)
Abbreviation pollers := (dict runtime_key bool).

Definition start_poller (d : pollers) (k : runtime_key) : pollers := match dget k d with Some true => d | _ => dset k true d end.
Definition poll_round (groups : list runtime_key) (d : pollers) : pollers :=
  filter (fun p => p.1 ∈ groups) (foldl start_poller d groups).

(** One turn of the loop, or its [finally] clause, which cancels and forgets every poller. *)
Definition _poll (closed attached : bool) (retiring : list string) (r : Router) (d : pollers) : pollers * bool :=
  if negb closed && attached && execution_work retiring r then (poll_round (poll_groups retiring r) d, true) else ([], false).

(** ** [_poll_target] *)

Record poll_state := PollState {
  ps_reachable : bool;
  ps_retry : list runtime_key;          (* self._retirement_retry_targets *)
  ps_queued : list string               (* calls of queue_transient_retirement *)
}.

(** What the first answer after a failure queues. *)
Definition queued_turns (k : runtime_key) (r : Router) : list string :=
  tk_origin_turn <$> filter (fun t => runtime_of t = k) (operations r).

(** One turn of the loop; [None]: no operation of the runtime is left, the poller ends. *)
Definition _poll_target (retiring : list string) (k : runtime_key) (answer : option (list worker_event)) (s : poll_state) (r : Router)
    : option (poll_state * Router) :=
  if negb (existsb (fun t => bool_decide (runtime_of t = k)) (operations r)) then None
  else match answer with
       | None => Some (PollState false (ps_retry s) (ps_queued s), r)
       | Some events =>
           let again := negb (ps_reachable s) || bool_decide (k ∈ ps_retry s) in
           let s := PollState true (if again then filter (fun x => x <> k) (ps_retry s) else ps_retry s)
                      (if again then ps_queued s ++ queued_turns k r else ps_queued s) in
           match poll_events retiring k.1 k.2 events r with
           | (r, Ok _) => Some (s, r)
           | (r, Raise _) => Some (PollState false (ps_retry s) (ps_queued s), r)
           end
       end.

(** ** [observe] *)

Abbreviation support := (dict runtime_key bool).

Inductive observe_plan := ObserveLocal | ObserveNothing | AskMetadata (t : Ticket) | AskObserve (t : Ticket).

Definition observe_start (sid : Z) (d : support) (r : Router) : observe_plan :=
  if sid <? REMOTE_BASE then ObserveLocal
  else match dget sid (ro_tickets r) with
       | None => ObserveNothing
       | Some oid =>
           match dget oid (ro_heap r) with
           | None => ObserveNothing
           | Some t => match dget (runtime_of t) d with None => AskMetadata t | Some true => AskObserve t | Some false => ObserveNothing end
           end
       end.

(** The metadata came: older runtimes of the target are forgotten. *)
Definition note_support (t : Ticket) (methods : list string) (d : support) : support :=
  dset (runtime_of t) (bool_decide ("observe" ∈ methods)) (filter (fun p => p.1.1 <> tk_target t) d).

Definition observe_reply (t : Ticket) (answer : res failure shell_result) (d : support) (r : Router) : support * (Router * res failure (option adopted)) :=
  match answer with
  | Ok result => let '(r, a) := _adopt (tk_operation_id t) result r in (d, (r, match a with Ok a => Ok (Some a) | Raise e => Raise e end))
  | Raise e => if decide (fl_code e = "unknown_method") then (dset (runtime_of t) false d, (r, Ok None)) else (d, (r, Raise e))
  end.

(** ** [run] and [_run_resolved] *)

Inductive run_route :=
| RunLocal
| RunLocalPrivileged
| RunRemote (target : Z) (route : option resolution)
| RunRemotePrivileged (target : Z) (route : option resolution)
| RunRefused (what : string).

(** [port]: attached, and what it resolves the name to. *)
Definition route_run (target : json) (port : option (res target_error resolution)) (sudo tty : bool) (stdin : json) : run_route :=
  let checked (go : run_route) : run_route :=
    match stdin with
    | JNull => go
    | JStr _ => if tty then RunRefused "stdin_pty_conflict" else go
    | _ => RunRefused "invalid_stdin"
    end in
  match target with
  | JInt 0 => checked (if sudo then RunLocalPrivileged else RunLocal)
  | _ =>
      match port with
      | None => RunRefused "backend_unavailable"
      | Some (Raise _) => RunRefused "invalid_target"
      | Some (Ok r) =>
          if rl_target r <? 0 then RunRefused "invalid_target"
          else checked (if rl_target r =? 0 then (if sudo then RunLocalPrivileged else RunLocal)
                        else if sudo then (if tty then RunRefused "privilege_pty_unsupported" else RunRemotePrivileged (rl_target r) (Some r))
                        else RunRemote (rl_target r) (Some r))
      end
  end.

(** ** [reconcile_transient] *)

(** The reads of one operation: the answer of its query, and whether the release of its
    output was confirmed; [None]: the query failed for good. *)
Record transient_reads := Reads { tr_answer : string -> option query_answer; tr_released : string -> bool }.

(** What a result leads to; whether it added an error. *)
Definition transient_result (reads : transient_reads) (oid : string) (a : option adopted) (r : Router) : Router * bool :=
  match a with
  | None => (r, false)
  | Some a =>
      if decide (ad_session_id a <> 0) then
        match dget oid (ro_heap r) with Some t => (observe_session t (sr_status (ad_result a)) r, false) | None => (r, false) end
      else if tr_released reads oid then (forget_output oid r, false) else (r, true)
  end.

Definition transient_failed (oid : string) (e : failure) (r : Router) : bool :=
  negb (bool_decide (fl_code e = "output_released") && negb (owned oid r)).

Definition reconcile_one (reads : transient_reads) (turn : string) (st : Router * nat) (oid : string) : Router * nat :=
  let '(r, errors) := st in
  let count (out : Router * bool) : Router * nat := (out.1, if out.2 then S errors else errors) in
  match dget oid (ro_heap r) with
  | None => (r, errors)
  | Some t =>
      let c := context_of oid r in
      if negb (bool_decide (tk_origin_turn t = turn) && cx_transient c) then (r, errors)
      else if negb (cx_resolved c) then
        match tr_answer reads oid with
        | None => (r, S errors)
        | Some answer =>
            match reconcile_reply oid answer r with
            | None => (r, S errors)                      (* it stays pending *)
            | Some (r, Ok a) => count (transient_result reads oid a r)
            | Some (r, Raise e) => count (r, transient_failed oid e r)
            end
        end
      else if cx_control c then (r, errors)
      else match tk_latest_result t with
           | None => (r, S errors)
           | Some result =>
               match _adopt oid result r with
               | (r, Ok a) => count (transient_result reads oid (Some a) r)
               | (r, Raise e) => count (r, transient_failed oid e r)
               end
           end
  end.

Definition reconcile_transient (reads : transient_reads) (turn : string) (r : Router) : Router * nat :=
  foldl (reconcile_one reads turn) (r, 0%nat) (ro_operations r).

(** ** What is polled *)

Lemma start_pollers_get groups d k : dget k (foldl start_poller d groups) = if decide (k ∈ groups) then Some true else dget k d.
Proof.
  revert d. induction groups as [|x groups IH]; intros d; cbn [foldl]; [by rewrite decide_False by (by intros ?%elem_of_nil)|].
  rewrite IH. assert (Hx : dget k (start_poller d x) = if decide (x = k) then Some true else dget k d).
  { unfold start_poller. destruct (dget x d) as [[]|] eqn:E; [|by rewrite dget_dset..]. destruct (decide (x = k)) as [<- | ?]; [exact E|done]. }
  rewrite Hx. destruct (decide (k ∈ groups)) as [H | H]; [by rewrite decide_True by (by right)|].
  destruct (decide (x = k)) as [<- | E]; [by rewrite decide_True by (by left)|]. rewrite decide_False; [done|]. intros [-> | ?]%elem_of_cons; congruence.
Qed.

(** After a round there is a running poller for each runtime of the groups, and no other. *)
Lemma poll_round_exact groups d k : dwf d -> dget k (poll_round groups d) = if decide (k ∈ groups) then Some true else None.
Proof.
  intros Hwf. assert (Hwf' : dwf (foldl start_poller d groups)).
  { revert d Hwf. induction groups as [|x groups IH]; intros d Hwf; [done|]. apply IH. unfold start_poller. by destruct (dget x d) as [[]|]; [|apply dwf_dset..]. }
  unfold poll_round. rewrite dget_filter by done. rewrite start_pollers_get. destruct (decide (k ∈ groups)) as [H | H]; cbn [fst snd].
  - by rewrite decide_True.
  - destruct (dget k d); [|done]. by rewrite decide_False.
Qed.

(** A command that may run is watched: while it has neither a session nor an output, the
    poll goes on, and its runtime has a running poller; the same holds for every session that
    has not ended. *)
Theorem unfinished_commands_are_polled retiring r d :
  dwf d ->
  (forall oid t, oid ∈ ro_operations r -> dget oid (ro_heap r) = Some t -> tk_operation_id t = oid -> tk_kind t = "execution" -> tk_epoch t <> "" ->
    cx_submitted (context_of oid r) = true -> cx_control (context_of oid r) = false -> tk_native_id t = 0 -> tk_output_id t = "" ->
    exists d', _poll false true retiring r d = (d', true) /\ dget (runtime_of t) d' = Some true) /\
  (forall sid oid t, dget sid (ro_tickets r) = Some oid -> dget oid (ro_heap r) = Some t -> ended (session_status sid r) = false ->
    exists d', _poll false true retiring r d = (d', true) /\ dget (runtime_of t) d' = Some true).
Proof.
  intros Hwf. unfold _poll, execution_work. split.
  - intros oid t Hin Ht Hid Hk He Hs Hc Hn Ho.
    assert (Hop : t ∈ operations r) by (apply list_elem_of_omap; by exists oid).
    assert (Hw : existsb (fun t => bool_decide (tk_kind t = "execution") && bool_decide (tk_native_id t = 0) && bool_decide (tk_output_id t = "")) (operations r) = true).
    { apply existsb_exists. exists t. split; [by apply list_elem_of_In|]. by rewrite !bool_decide_eq_true_2. }
    rewrite Hw, orb_true_r. cbn [negb andb orb]. eexists. split; [done|]. rewrite poll_round_exact by done. apply decide_True.
    unfold poll_groups. apply elem_of_remove_dups, elem_of_app. right. apply list_elem_of_fmap. exists t. split; [done|]. apply list_elem_of_filter.
    split; [|done]. unfold is_polled. rewrite Hid, Hs, Hc, (proj2 (str_truthy_spec _)), bool_decide_eq_true_2 by done. done.
  - intros sid oid t Hsid Ht Hend.
    assert (Hw : existsb (fun sid => negb (ended (session_status sid r))) (dkeys (ro_tickets r)) = true).
    { apply existsb_exists. exists sid. split; [|by rewrite Hend]. apply list_elem_of_In, dget_is_Some. by eexists. }
    rewrite Hw. cbn [negb andb orb]. eexists. split; [done|]. rewrite poll_round_exact by done. apply decide_True.
    unfold poll_groups. apply elem_of_remove_dups, elem_of_app. left. apply list_elem_of_fmap. exists t. split; [done|].
    apply list_elem_of_omap. exists (sid, oid). split; [by apply dget_elem|done].
Qed.

(** ** Cleanups resume *)

Lemma queue_all_retiring l q : rq_retiring (foldl (fun q t => queue_transient_retirement t q) q l) = rq_retiring q /\ rq_closed (foldl (fun q t => queue_transient_retirement t q) q l) = rq_closed q.
Proof.
  revert q. induction l as [|t l IH]; intros q; cbn [foldl]; [done|]. destruct (IH (queue_transient_retirement t q)) as [-> ->].
  unfold queue_transient_retirement. destruct (_ || _); [done|]. by case_decide.
Qed.

Lemma queue_keeps_tasks t x q : x ∈ rq_tasks q -> x ∈ rq_tasks (queue_transient_retirement t q).
Proof. intros H. unfold queue_transient_retirement. destruct (_ || _); [done|]. case_decide; [done|]. by right. Qed.

(** When a worker answers again, the cleanup of every temporary turn that has an operation
    on it runs. *)
Theorem reachable_worker_resumes_cleanup retiring k events s r s' r' t q :
  _poll_target retiring k (Some events) s r = Some (s', r') -> ps_reachable s = false \/ k ∈ ps_retry s ->
  t ∈ operations r -> runtime_of t = k -> tk_origin_turn t ∈ rq_retiring q -> rq_closed q = false ->
  tk_origin_turn t ∈ rq_tasks (foldl (fun q t => queue_transient_retirement t q) q (ps_queued s')).
Proof.
  intros H Hagain Hop Hk Hret Hcl.
  assert (Hq : tk_origin_turn t ∈ ps_queued s').
  { unfold _poll_target in H. destruct (negb _); [done|].
    assert (Ha : negb (ps_reachable s) || bool_decide (k ∈ ps_retry s) = true) by (destruct Hagain as [-> | X]; [done|]; rewrite (bool_decide_eq_true_2 _ X); apply orb_true_r).
    rewrite Ha in H. destruct (poll_events _ _ _ _ _) as [r1 [x|e]]; injection H as <- _; cbn; apply elem_of_app; right;
      apply list_elem_of_fmap; exists t; (split; [done|]); by apply list_elem_of_filter. }
  clear H Hagain Hop Hk. revert q Hret Hcl. induction (ps_queued s') as [|x l IH]; [by apply elem_of_nil in Hq|]. intros q Hret Hcl. cbn [foldl].
  assert (Hkeep : forall l q, tk_origin_turn t ∈ rq_tasks q -> tk_origin_turn t ∈ rq_tasks (foldl (fun q t => queue_transient_retirement t q) q l)).
  { clear. induction l as [|y l IH]; intros q H; [done|]. apply IH. by apply queue_keeps_tasks. }
  apply elem_of_cons in Hq as [<- | Hq].
  - apply Hkeep. unfold queue_transient_retirement. rewrite Hcl, bool_decide_eq_false_2 by tauto. cbn. case_decide; [done|]. by left.
  - apply IH; [done|..]; destruct (queue_all_retiring [x] q) as [E1 E2]; cbn in E1, E2; congruence.
Qed.

(** ** Temporary turns are settled *)

(** What a step on one operation leaves of the others. *)
Record calm (oid : string) (r r' : Router) : Prop := {
  ca_ops : forall o, o ∈ ro_operations r' -> o ∈ ro_operations r;
  ca_heap : forall o, o <> oid -> dget o (ro_heap r') = dget o (ro_heap r);
  ca_context : forall o, o <> oid -> o ∈ ro_operations r' -> context_of o r' = context_of o r;
  ca_sessions : forall sid, is_Some (dget sid (ro_sessions r)) -> is_Some (dget sid (ro_sessions r'))
}.

#[export] Instance calm_preorder oid : PreOrder (calm oid).
Proof.
  split; [by split|]. intros a b c [A1 A2 A3 A4] [B1 B2 B3 B4]. split; auto.
  - intros o Ho. by rewrite B2, A2.
  - intros o Ho Hin. rewrite B3, A3 by auto. done.
Qed.

Lemma calm_drop oid r : calm oid r (drop_operation oid r).
Proof.
  split; [by intros o [_ ?]%list_elem_of_filter|done| |done]. intros o Ho _. unfold context_of, drop_operation, pop_context. cbn [ro_context pop_operation]. by rewrite dget_ddel_ne.
Qed.

Lemma calm_pop oid r : calm oid r (pop_operation oid r).
Proof. split; [by intros o [_ ?]%list_elem_of_filter|done..]. Qed.

Lemma calm_adopt oid result r : router_ok r -> calm oid r (_adopt oid result r).1.
Proof.
  intros Hok. unfold _adopt. destruct (dget oid (ro_heap r)) as [t|] eqn:Ht; [|reflexivity]. destruct (negb (adopt_epoch_ok _ _ _)); [reflexivity|].
  destruct (negb (can_adopt _ _ _)); [destruct (cx_control _); [apply calm_drop|reflexivity]|]. cbn [fst].
  destruct (rk_heap _ Hok _ _ Ht) as [Hid _]. split; cbn; try done.
  - intros o Ho. rewrite Hid, dget_dset_ne by congruence. done.
  - intros o Ho _. unfold context_of. cbn. by rewrite Hid, dget_dset_ne by congruence.
Qed.

Lemma calm_observe oid t status r : calm oid r (observe_session t status r).
Proof. split; try done. intros sid H. cbn. rewrite dget_dset. case_decide; [by eexists|done]. Qed.

Lemma calm_forget oid r : calm oid r (forget_output oid r).
Proof.
  unfold forget_output. destruct (operation oid r) as [t|]; [|reflexivity]. split; try done.
  - by intros o [_ ?]%list_elem_of_filter.
  - intros o _ [Hf Ho]%list_elem_of_filter. unfold context_of. cbn [ro_context].
    pose proof (dget_filter_key (fun k => owned k r && forgotten t r k = false) o (ro_context r)) as E.
    rewrite decide_True in E by (rewrite Hf; apply andb_false_r). by rewrite E.
Qed.

Lemma calm_result reads oid a r : calm oid r (transient_result reads oid a r).1.
Proof.
  unfold transient_result. destruct a as [a|]; [|reflexivity]. case_decide; [destruct (dget oid (ro_heap r)); [apply calm_observe|reflexivity]|].
  destruct (tr_released reads oid); [apply calm_forget|reflexivity].
Qed.

Lemma fine_result reads oid a r : fine r (transient_result reads oid a r).1.
Proof.
  unfold transient_result. destruct a as [a|]; [|reflexivity]. case_decide; [destruct (dget oid (ro_heap r)); [apply fine_session|reflexivity]|].
  destruct (tr_released reads oid); [apply fine_forget_output|reflexivity].
Qed.

Lemma reconcile_reply_steps oid answer r r' out :
  router_ok r -> reconcile_reply oid answer r = Some (r', out) ->
  calm oid r r' /\ router_ok r' /\
  match out with
  | Ok None => oid ∉ ro_operations r'
  | Ok (Some a) => exists result, _adopt oid result r = (r', Ok a)
  | Raise _ => True
  end.
Proof.
  intros Hok. assert (Hnot : oid ∉ ro_operations (drop_operation oid r)) by (by intros [? _]%list_elem_of_filter).
  unfold reconcile_reply. destruct answer as [|rest|rp].
  - intros [= <- <-]. by split_and!; [reflexivity|..].
  - intros [= <- <-]. split_and!; [apply calm_drop|by apply fine_drop_operation|done].
  - unfold _outcome. case_bool_decide; [intros [= <- <-]; split_and!; [apply calm_drop|by apply fine_drop_operation|done]|].
    case_bool_decide; [done|]. cbn. intros [= <- <-]. unfold outcome_reply. destruct (rp_error rp) as [[code effect]|].
    { cbn. case_bool_decide; split_and!; try done; [apply calm_pop|by apply fine_pop_operation]. }
    destruct (rp_result rp) as [result|]; [|by split_and!; [reflexivity|..]]. case_bool_decide; [|by split_and!; [reflexivity|..]].
    pose proof (calm_adopt oid result r Hok) as C. destruct (fine_adopt oid result r Hok) as [F _]. destruct (_adopt oid result r) as [r1 [a|e]] eqn:E; cbn in *; split_and!; try done. by exists result.
Qed.

Definition turn_settled (turn : string) (r : Router) (oid : string) : Prop :=
  oid ∈ ro_operations r -> forall t, dget oid (ro_heap r) = Some t -> tk_origin_turn t = turn -> cx_transient (context_of oid r) = true ->
  cx_resolved (context_of oid r) = true /\
  (cx_control (context_of oid r) = true \/ (tk_public_id t <> 0 /\ is_Some (dget (tk_public_id t) (ro_sessions r)))).

Lemma settled_calm turn oid r r' o : calm oid r r' -> o <> oid -> turn_settled turn r o -> turn_settled turn r' o.
Proof.
  intros [C1 C2 C3 C4] Ho Hs Hin t Ht Hturn Htr. rewrite C2 in Ht by done. rewrite C3 in * by done.
  destruct (Hs (C1 _ Hin) t Ht Hturn Htr) as [H1 H2]. split; [done|]. destruct H2 as [H2 | [H2 H3]]; [by left|]. right. split; [done|by apply C4].
Qed.

(** The result of an operation that was adopted is followed or released. *)
Lemma adopted_settles reads turn oid result r r1 a r2 :
  router_ok r -> _adopt oid result r = (r1, Ok a) -> transient_result reads oid (Some a) r1 = (r2, false) -> turn_settled turn r2 oid.
Proof.
  intros Hok Ha. unfold _adopt in Ha. destruct (dget oid (ro_heap r)) as [t|] eqn:Ht; [|done]. destruct (rk_heap _ Hok _ _ Ht) as [Hid _].
  destruct (negb (adopt_epoch_ok _ _ _)); [done|]. destruct (negb (can_adopt _ _ _)); [by destruct (cx_control _)|].
  set (x := newest t result r) in *. injection Ha as <- <-. set (t' := adopted_ticket t x (ro_next_id r)).
  assert (Hheap : dget oid (ro_heap (store_adopted t x r)) = Some t') by (cbn; by rewrite Hid, dget_dset_eq).
  assert (Hctx : context_of oid (store_adopted t x r) = resolved_context (sr_status x) (context_of oid r)) by (unfold context_of at 1; cbn; by rewrite Hid, dget_dset_eq).
  unfold transient_result. cbn [ad_session_id ad_result]. rewrite Hheap. case_decide as Hs.
  - intros [= <-] _ u Hu _ _. cbn in Hu. rewrite Hid, dget_dset_eq in Hu. injection Hu as <-.
    assert (Hc : context_of oid (observe_session t' (sr_status x) (store_adopted t x r)) = context_of oid (store_adopted t x r)) by done.
    rewrite Hc, Hctx. split; [done|]. right. split; [exact Hs|]. cbn. rewrite dget_dset_eq. by eexists.
  - destruct (tr_released reads oid); [|done]. intros [= <-] Hin. exfalso. unfold forget_output, operation in Hin.
    destruct (owned oid (store_adopted t x r)) eqn:Eo; [|unfold owned in Eo; by apply bool_decide_eq_false in Eo].
    rewrite Hheap in Hin. apply list_elem_of_filter in Hin as [Hf _]. unfold forgotten in Hf. rewrite Hheap, Hctx in Hf.
    unfold same_output in Hf. rewrite !bool_decide_eq_true_2 in Hf by done. cbn in Hf. by rewrite andb_false_r in Hf.
Qed.

Lemma reconcile_one_ok reads turn r errors oid r' :
  router_ok r -> reconcile_one reads turn (r, errors) oid = (r', 0%nat) -> errors = 0%nat /\ router_ok r' /\ calm oid r r' /\ turn_settled turn r' oid.
Proof.
  intros Hok. unfold reconcile_one. destruct (dget oid (ro_heap r)) as [t|] eqn:Ht.
  2: { intros [= <- ->]. split_and!; [done|done|reflexivity|]. intros _ t X. congruence. }
  destruct (negb (bool_decide _ && _)) eqn:Eb.
  { intros [= <- ->]. split_and!; [done|done|reflexivity|]. intros _ u Hu Hturn Htr. rewrite Ht in Hu. injection Hu as <-. rewrite bool_decide_eq_true_2, Htr in Eb by done. done. }
  destruct (negb (cx_resolved _)) eqn:Er.
  { destruct (tr_answer reads oid) as [answer|]; [|done]. destruct (reconcile_reply oid answer r) as [[r1 out]|] eqn:E; [|done].
    destruct (reconcile_reply_steps _ _ _ _ _ Hok E) as (C & Hok1 & Ho). destruct out as [[a|]|e].
    - destruct Ho as [result Ha]. destruct (transient_result reads oid (Some a) r1) as [r2 b] eqn:Et. cbn. intros [= <- He]. destruct b; [done|].
      pose proof (calm_result reads oid (Some a) r1) as C2. pose proof (fine_result reads oid (Some a) r1) as F. rewrite Et in C2, F.
      split_and!; [done|by apply F|by etransitivity|exact (adopted_settles reads turn oid result r r1 a r2 Hok Ha Et)].
    - cbn. intros [= <- ->]. split_and!; try done.
    - cbn. intros [= <- He]. destruct (transient_failed oid e r1) eqn:Ef; [done|]. split_and!; try done. unfold transient_failed in Ef. intros Hin. exfalso.
      apply negb_false_iff, andb_true_iff in Ef as [_ Ef]. unfold owned in Ef. by rewrite bool_decide_eq_true_2 in Ef. }
  destruct (cx_control (context_of oid r)) eqn:Ec.
  { intros [= <- ->]. split_and!; [done|done|reflexivity|]. intros _ u Hu _ _. apply negb_false_iff in Er. split; [done|by left]. }
  destruct (tk_latest_result t) as [result|]; [|done]. pose proof (calm_adopt oid result r Hok) as C. destruct (fine_adopt oid result r Hok) as [F _].
  destruct (_adopt oid result r) as [r1 [a|e]] eqn:Ea; cbn [fst] in C, F.
  - destruct (transient_result reads oid (Some a) r1) as [r2 b] eqn:Et. cbn. intros [= <- He]. destruct b; [done|].
    pose proof (calm_result reads oid (Some a) r1) as C2. pose proof (fine_result reads oid (Some a) r1) as F2. rewrite Et in C2, F2.
    split_and!; [done|by apply F2|by etransitivity|exact (adopted_settles reads turn oid result r r1 a r2 Hok Ea Et)].
  - cbn. intros [= <- He]. destruct (transient_failed oid e r1) eqn:Ef; [done|]. split_and!; try done. unfold transient_failed in Ef. intros Hin. exfalso.
    apply negb_false_iff, andb_true_iff in Ef as [_ Ef]. unfold owned in Ef. by rewrite bool_decide_eq_true_2 in Ef.
Qed.

(** A temporary turn whose operations were reconciled without an error has no open end: each
    operation of it that the router still holds has a confirmed result, and is a control or
    the execution of a session that the owner knows, and so will retire; no other operation
    was added. *)
Theorem reconciled_turns_are_settled reads turn r r' :
  router_ok r -> NoDup (ro_operations r) -> reconcile_transient reads turn r = (r', 0%nat) ->
  router_ok r' /\ forall oid, oid ∈ ro_operations r' -> oid ∈ ro_operations r /\ turn_settled turn r' oid.
Proof.
  intros Hok Hnd H.
  assert (Hfold : forall l r n, NoDup l -> router_ok r -> foldl (reconcile_one reads turn) (r, n) l = (r', 0%nat) ->
    n = 0%nat /\ router_ok r' /\ (forall o, o ∈ ro_operations r' -> o ∈ ro_operations r) /\ (forall o, o ∈ l -> turn_settled turn r' o) /\
    (forall o, o ∉ l -> turn_settled turn r o -> turn_settled turn r' o)).
  { clear. induction l as [|x l IH]; intros r n Hl Hok; cbn [foldl]; [intros [= <- ->]; split_and!; try done; by intros o ?%elem_of_nil|].
    apply NoDup_cons in Hl as [Hx Hl]. destruct (reconcile_one reads turn (r, n) x) as [r1 n1] eqn:E. intros H.
    assert (Hok1 : router_ok r1).
    { revert E. unfold reconcile_one. destruct (dget x (ro_heap r)); [|by intros [= <- <-]]. destruct (negb (bool_decide _ && _)); [by intros [= <- <-]|].
      destruct (negb (cx_resolved _)).
      - destruct (tr_answer reads x) as [answer|]; [|by intros [= <- <-]]. destruct (reconcile_reply x answer r) as [[r2 out]|] eqn:Er; [|by intros [= <- <-]].
        destruct (reconcile_reply_steps _ _ _ _ _ Hok Er) as (_ & Hok2 & _). destruct out as [a|e]; intros [= <- <-]; [by apply fine_result|done].
      - destruct (cx_control _); [by intros [= <- <-]|]. destruct (tk_latest_result _) as [result|]; [|by intros [= <- <-]].
        destruct (fine_adopt x result r Hok) as [F _]. destruct (_adopt x result r) as [r2 [a|e]]; cbn [fst] in F; intros [= <- <-]; [exact (proj1 (fine_result reads x (Some a) r2 F))|done]. }
    destruct (IH r1 n1 Hl Hok1 H) as (-> & Hok' & Hops & Hin & Hout). destruct (reconcile_one_ok _ _ _ _ _ _ Hok E) as (-> & _ & C & Hsx).
    split_and!; try done.
    - intros o Ho. by apply (ca_ops _ _ _ C), Hops.
    - intros o [-> | Ho]%elem_of_cons; [by apply Hout|by apply Hin].
    - intros o Ho Hs. rewrite not_elem_of_cons in Ho. apply Hout; [tauto|]. by eapply settled_calm; [|apply Ho|]. }
  destruct (Hfold _ _ _ Hnd Hok H) as (_ & Hok' & Hops & Hin & _). split; [done|]. intros oid Ho. split; [by apply Hops|]. by apply Hin, Hops.
Qed.

(** ** Witnesses *)

Definition temporary_ticket : Ticket := command_ticket 1 "op" "side" "execution" "b" "host".
Definition temporary_router : Router := run_begin temporary_ticket true false new_router.
Definition temporary_reads : transient_reads :=
  Reads (fun _ => Some (Answer (Response "complete" None (Some (ShellResult "e1" "running" 7 "out" "op" "s" 0 1 0 0 true []))))) (fun _ => true).

Lemma temporary_router_ok : router_ok temporary_router.
Proof.
  unfold temporary_router, run_begin. apply fine_register; [done|by left|]. split; cbn; try done; try (by intros ? ?%elem_of_nil); try (by intros ? ? [=]).
Qed.

Lemma reconciled_turns_are_settled_witness :
  let r' := (reconcile_transient temporary_reads "side" temporary_router).1 in
  ro_operations r' = ["op"] /\ turn_settled "side" r' "op" /\ dkeys (ro_sessions r') = [REMOTE_BASE].
Proof.
  split; [vm_compute; reflexivity|]. split; [|vm_compute; reflexivity].
  refine (proj2 (proj2 (reconciled_turns_are_settled temporary_reads "side" temporary_router (reconcile_transient temporary_reads "side" temporary_router).1 temporary_router_ok _ _) "op" _)).
  - vm_compute. repeat constructor. intros X. by apply elem_of_nil in X.
  - vm_compute. reflexivity.
  - vm_compute. left.
Defined.
