(* ===== verification/Completions.v ===== *)
(** * Turns for events, and roles that wait

    [events.py] (class [ShellCompletionSource]): how an event of a shell session becomes a
    turn of the model, from [drain] over [handle] to [_run]; and [role_sessions.py]
    (class [BunshinShellSessions]) with [park_or_ready] and [_signal] of
    [observation_owner.py]: how a role waits for the next event.  Both work on the owner of
    [Observations].  [handle] waits for a lock in the middle, and [_run] for the model; the
    pieces are functions of their own. *)

From S2P Require Import Prelude Dict Utf8 PyValue LifecycleTable Lifecycle Observations.
Open Scope Z_scope.

(** ** The completion source *)

Record event_source := EventSource {
  sc_owner : owner;
  sc_in_flight : list Z
}.

Definition leave_flight (sid : Z) (l : list Z) : list Z := filter (fun x => x <> sid) l.

(** [owner.observations.claims.get(sid)] and its release. *)
Definition release_held (sid : Z) (o : owner) : owner :=
  match dget sid (ow_claims o) with Some (_, e) => release_claim sid e o | None => o end.

(** The event is given up, and the session is free for the next one. *)
Definition let_go_turn (sid : Z) (s : event_source) : event_source :=
  EventSource (release_held sid (sc_owner s)) (leave_flight sid (sc_in_flight s)).

Section event_turns.
Variable bound : Z -> bool.                     (* [session.get("binding") is not None] *)

(** [_eligible] *)
Definition turn_eligible (s : event_source) (sid : Z) : bool :=
  eligible sid true false (sc_owner s) && bool_decide (sid ∉ sc_in_flight s) && bool_decide (sid ∉ ow_failures (sc_owner s)) &&
  match dget sid (ow_sessions (sc_owner s)) with Some x => ss_committed x && ss_watching x | None => false end && bound sid.

(** [prepare]; [idle]: the core runs no turn. *)
Definition prepare_source (idle : bool) (s : event_source) : event_source * bool :=
  if ow_closed (sc_owner s) then (s, false)
  else
    let s := EventSource (collect (sc_owner s)) (sc_in_flight s) in
    (s, idle && existsb (turn_eligible s) (dkeys (ow_pending (sc_owner s)))).

(** [drain]: the session whose event is announced. *)
Definition drain_source (idle : bool) (s : event_source) : event_source * option Z :=
  let '(s, ready) := prepare_source idle s in
  if negb ready then (s, None)
  else
    match List.find (turn_eligible s) (dkeys (ow_pending (sc_owner s))) with
    | None => (s, None)
    | Some sid =>
        match claim_event sid "resident" (sc_owner s) with
        | (_, None) => (s, None)
        | (o, Some _) => (EventSource o (sc_in_flight s ++ [sid]), Some sid)
        end
    end.

(** [handle] up to its lock: whether it goes on. *)
Definition handle_event (sid : Z) (s : event_source) : event_source * bool :=
  if negb (bool_decide (sid ∈ sc_in_flight s)) then (s, false)
  else if negb (dmem sid (ow_pending (sc_owner s))) then (let_go_turn sid s, false)
  else (s, true).

(** ... and under the lock: whether a turn was started; [starts]: the core accepts it. *)
Definition start_turn (idle starts : bool) (sid : Z) (s : event_source) : event_source * bool :=
  let held := match dget sid (ow_claims (sc_owner s)), dget sid (ow_pending (sc_owner s)) with
              | Some (_, e), Some p => is_event p e
              | _, _ => false
              end in
  if negb idle || negb held then (let_go_turn sid s, false)
  else if negb (dmem sid (ow_sessions (sc_owner s))) then (EventSource (sc_owner s) (leave_flight sid (sc_in_flight s)), false)
  else if negb starts then (let_go_turn sid s, false)
  else (s, true).

(** [_run] up to the model's turn, and after it. *)
Definition run_turn (sid : Z) (failing : bool) (h : handoff) (s : event_source) : event_source * option event :=
  match run_event sid failing h (sc_owner s) with
  | (o, Some e) => (EventSource o (sc_in_flight s), Some e)
  | (o, None) => (EventSource o (leave_flight sid (sc_in_flight s)), None)
  end.

Definition turn_done (sid : Z) (e : event) (failed : bool) (s : event_source) : event_source :=
  EventSource (run_ended e failed (sc_owner s)) (leave_flight sid (sc_in_flight s)).
End event_turns.

(** ** Roles *)

(** Some event can be shown now. *)
Definition event_ready (o : owner) : bool := existsb (fun sid => eligible sid true false o) (dkeys (ow_pending o)).

(** A role and its future: the waiters are those that are not done. *)
Record role := Role {
  ro_owner : owner;
  ro_waiters : list nat
}.

(** [_signal] *)
Definition signal_waiters (r : role) : role := if event_ready (ro_owner r) then Role (ro_owner r) [] else r.

(** [collect] ends with [_signal]. *)
Definition collect_role (r : role) : role :=
  if ow_closed (ro_owner r) then r else signal_waiters (Role (collect (ro_owner r)) (ro_waiters r)).

(** [park_or_ready]: the future [w] is done at once, or waits. *)
Definition park_or_ready (w : nat) (r : role) : role :=
  let r := collect_role r in
  if event_ready (ro_owner r) then r else Role (ro_owner r) (w :: ro_waiters r).

(** Where [wait_after_response] is. *)
Inductive role_point :=
| Looping
| Parked (w : nat)
| Responded (note : bool).         (* the empty text, or the note on unavailable output *)

(** One turn of the outer loop; [w]: a fresh future. *)
Definition role_loop (w : nat) (r : role) : role * role_point :=
  if negb (completion_blocked (ro_owner r)) then (r, Responded false)
  else if negb (bool_decide (ow_failures (ro_owner r) = [])) then (r, Responded true)
  else (park_or_ready w r, Parked w).

(** One look of the inner loop. *)
Definition role_wait (w : nat) (r : role) : role * role_point :=
  if bool_decide (w ∈ ro_waiters r) then
    if negb (completion_blocked (ro_owner r)) then (Role (ro_owner r) (filter (fun x => x <> w) (ro_waiters r)), Responded false)
    else (r, Parked w)
  else
    let r := collect_role r in
    if event_ready (ro_owner r) then (r, Responded false) else (r, Looping).
