(* ===== verification/CompletionSafety.v ===== *)
(** * One turn per event, and no role left waiting

    The properties of [Completions], over every interleaving of the owner's operations. *)

From S2P Require Import Prelude Dict Utf8 PyValue LifecycleTable Lifecycle Observations ObservationSafety Completions.
Open Scope Z_scope.

(** ** Operations that only take away *)

(** Events are not added, made ready or freed of a failure; no session is claimed, and a
    session that still has an event stays. *)
Record shrinks (o o' : owner) : Prop := {
  sh_pending : forall sid e, dget sid (ow_pending o') = Some e -> dget sid (ow_pending o) = Some e;
  sh_prepared : forall id, dmem id (ow_prepared o') = true -> dmem id (ow_prepared o) = true;
  sh_failures : forall sid, sid ∈ ow_failures o -> is_Some (dget sid (ow_pending o')) -> sid ∈ ow_failures o';
  sh_claims : forall sid c, dget sid (ow_claims o') = Some c -> dget sid (ow_claims o) = Some c;
  sh_sessions : forall sid, is_Some (dget sid (ow_sessions o)) -> is_Some (dget sid (ow_pending o')) -> is_Some (dget sid (ow_sessions o'));
  sh_completions : forall sid e, dget sid (ow_completions o') = Some e -> dget sid (ow_completions o) = Some e;
  sh_closed : ow_closed o' = ow_closed o
}.

#[export] Instance shrinks_refl : Reflexive shrinks.
Proof. intros o. by constructor. Qed.

#[export] Instance shrinks_trans : Transitive shrinks.
Proof.
  intros a b c [P1 R1 F1 C1 S1 D1 X1] [P2 R2 F2 C2 S2 D2 X2]. constructor; [eauto..|congruence].
  - intros sid Hf Hp. apply F2; [|done]. apply F1; [done|]. destruct Hp as [e He]. eauto.
  - intros sid Hs Hp. apply S2; [|done]. apply S1; [done|]. destruct Hp as [e He]. eauto.
Qed.

(** Attributes that do not matter. *)
Lemma shrinks_same o o' :
  ow_pending o' = ow_pending o -> ow_prepared o' = ow_prepared o -> ow_failures o' = ow_failures o -> ow_claims o' = ow_claims o ->
  (forall sid, is_Some (dget sid (ow_sessions o)) -> is_Some (dget sid (ow_sessions o'))) ->
  (forall sid e, dget sid (ow_completions o') = Some e -> dget sid (ow_completions o) = Some e) -> ow_closed o' = ow_closed o -> shrinks o o'.
Proof. intros E1 E2 E3 E4 H H2 E5. constructor; rewrite ?E1, ?E2, ?E3, ?E4; auto. Qed.

Ltac shrinks_frame := apply shrinks_same; [reflexivity..| | |reflexivity]; cbn [ow_sessions ow_completions set_sessions set_outputs set_leases set_latest set_covered set_acking
  set_completions set_memory set_preparing emit]; try done.

Lemma shrinks_update sid f o : shrinks o (update_session sid f o).
Proof.
  unfold update_session. destruct (dget sid (ow_sessions o)) as [s|] eqn:E; [|done]. apply shrinks_same; try done.
  intros k. cbn. rewrite dget_dset. case_decide; [done|done].
Qed.

Lemma shrinks_fail sid o : shrinks o (fail_session sid o).
Proof.
  unfold fail_session. constructor; try done. intros k Hk _. cbn. case_decide; [done|]. apply elem_of_app. by left.
Qed.

Lemma shrinks_inputs sid o : shrinks o (release_session_inputs sid o).
Proof. unfold release_session_inputs, release_input_lease. destruct (dget sid (ow_sessions o)); [|done]. repeat case_match; shrinks_frame; try done. Qed.

Lemma shrinks_record r o : shrinks o (record r o).
Proof.
  unfold record. destruct (_ || _); [done|]. transitivity (set_latest (dset (raw_sid r) (next_snapshot r (dget (raw_sid r) (ow_latest o))) (ow_latest o)) o); [shrinks_frame|].
  etransitivity; [apply (shrinks_update (raw_sid r) (observed_session r))|]. destruct (is_terminal r); [apply shrinks_inputs|done].
Qed.

Lemma shrinks_release sid e o : shrinks o (release_claim sid e o).
Proof.
  unfold release_claim. destruct (dget sid (ow_claims o)) as [[c x]|]; [|done]. destruct (is_event x e); [|done]. constructor; try done.
  intros k d. cbn. rewrite dget_ddel. by case_decide.
Qed.

Lemma shrinks_unpublish sid id o : shrinks o (drop_completion sid id o).
Proof. unfold drop_completion. destruct (dget _ _); [|done]. case_decide; [|done]. shrinks_frame. intros k x. rewrite dget_ddel. by case_decide. Qed.

(** Dropping an event of a session. *)
Lemma shrinks_drop sid o : shrinks o (set_pending (ddel sid (ow_pending o)) o).
Proof. constructor; try done; intros k; cbn; rewrite dget_ddel; by case_decide. Qed.

Lemma shrinks_unprepare id o : shrinks o (set_prepared (ddel id (ow_prepared o)) o).
Proof. constructor; try done. intros k. cbn. rewrite !dmem_true, dget_ddel. case_decide; [by intros [? [=]]|done]. Qed.

Lemma shrinks_retire e o : shrinks o (retire_event e o).
Proof.
  unfold retire_event. etransitivity; [|apply shrinks_unpublish]. etransitivity; [|apply shrinks_release]. etransitivity; [|apply shrinks_unprepare].
  destruct (dget _ (ow_pending o)) as [p|]; [|done]. destruct (is_event p e); [apply shrinks_drop|done].
Qed.

Lemma shrinks_cover key n o : shrinks o (cover key n o).
Proof. unfold cover. shrinks_frame. Qed.

Lemma shrinks_commit_event e o : shrinks o (commit_event e o).
Proof. unfold commit_event. etransitivity; [apply shrinks_cover|]. etransitivity; [apply shrinks_update|]. apply shrinks_retire. Qed.

Lemma shrinks_note_state call r turn_id o : shrinks o (note_tool_state call r turn_id o).
Proof.
  unfold note_tool_state. etransitivity; [apply (shrinks_record r)|]. destruct (dget (raw_sid r) (ow_latest (record r o))) as [p|]; [|done].
  destruct (py_eq _ _); [apply shrinks_update|done].
Qed.

Lemma shrinks_note_delivery call r turn_id o : shrinks o (note_tool_delivery call r turn_id o).
Proof.
  unfold note_tool_delivery. etransitivity; [apply (shrinks_note_state call r turn_id)|]. destruct (negb _); [done|].
  etransitivity; [apply shrinks_cover|]. etransitivity; [apply (shrinks_update (raw_sid r) (set_terminal_delivered r))|].
  destruct (dget (raw_sid r) (ow_pending _)); [|done]. destruct (_ <=? _); [apply shrinks_retire|done].
Qed.

Lemma shrinks_report e o : shrinks o (report_failure e o).
Proof.
  unfold report_failure. etransitivity; [apply shrinks_fail|]. etransitivity; [apply shrinks_update|].
  etransitivity; [|destruct (is_terminal _); [apply shrinks_retire|reflexivity]]. etransitivity; [|apply shrinks_release]. apply shrinks_same; done.
Qed.

Lemma shrinks_acknowledge e o : shrinks o (acknowledge_event e o).
Proof. unfold acknowledge_event. destruct (ow_closed o); [done|]. repeat (destruct (_ : bool); [done|]). shrinks_frame. Qed.

Lemma shrinks_forget sid o : shrinks o (forget_session sid o).
Proof.
  unfold forget_session. destruct (sid =? 0); [done|]. etransitivity; [apply (shrinks_inputs sid)|]. generalize (release_session_inputs sid o). clear o. intros o.
  unfold forget_observation.
  etransitivity; [apply (shrinks_same _ (match dget sid (ow_latest o) with Some old => set_covered (ddel (key_of (sn_raw old)) (ow_covered o)) (set_latest (ddel sid (ow_latest o)) o) | None => o end)); by destruct (dget sid (ow_latest o))|].
  generalize (match dget sid (ow_latest o) with Some old => set_covered (ddel (key_of (sn_raw old)) (ow_covered o)) (set_latest (ddel sid (ow_latest o)) o) | None => o end).
  clear o. intros o. set (o1 := match dget sid (ow_pending o) with Some e => _ | None => o end).
  assert (H1 : shrinks o o1 /\ dget sid (ow_pending o1) = None).
  { unfold o1. destruct (dget sid (ow_pending o)) as [e|] eqn:E; [|done]. split.
    - etransitivity; [apply (shrinks_drop sid)|]. exact (shrinks_unprepare (identity e) (set_pending (ddel sid (ow_pending o)) o)).
    - cbn. by rewrite dget_ddel_eq. }
  destruct H1 as [H1 Hn]. etransitivity; [exact H1|]. clearbody o1. constructor; try done.
  - intros k Hk [x Hx]. cbn in *. apply list_elem_of_filter. split; [|done]. intros ->. congruence.
  - intros k c. change (dget k (ddel sid (ow_claims o1)) = Some c -> dget k (ow_claims o1) = Some c). rewrite dget_ddel. by case_decide.
  - intros k Hk [x Hx]. change (is_Some (dget k (ddel sid (ow_sessions o1)))). change (dget k (ow_pending o1) = Some x) in Hx.
    rewrite dget_ddel. case_decide; [congruence|done].
Qed.

Lemma shrinks_ack_done e o : shrinks o (ack_done e o).
Proof.
  unfold ack_done. set (o1 := if _ && _ then _ else o). assert (H : shrinks o o1).
  { unfold o1. destruct (_ && _); [|done]. etransitivity; [apply (shrinks_forget (ev_session_id e))|]. shrinks_frame. }
  etransitivity; [exact H|]. destruct (dget _ (ow_acking o1)); [|done]. case_decide; [shrinks_frame|done].
Qed.

Lemma shrinks_outputs x o : shrinks o (set_outputs x o).
Proof. shrinks_frame. Qed.

Lemma shrinks_stage call turn_id r recovery_of borrowed o : shrinks o (stage_begin call turn_id r recovery_of borrowed o).
Proof.
  unfold stage_begin. transitivity (if borrowed then o else record r o); [destruct borrowed; [done|apply shrinks_record]|].
  destruct (_ && _); [etransitivity; apply shrinks_outputs|apply shrinks_outputs].
Qed.

Lemma shrinks_staged call value o : shrinks o (stage_done call value o).
Proof. unfold stage_done. destruct (dget call _); [shrinks_frame|done]. Qed.

Lemma shrinks_normalized call failure o : shrinks o (normalized call failure o).
Proof. unfold normalized. destruct (dget call _) as [p|]; [|done]. destruct (po_raw p); [shrinks_frame|done]. Qed.

Lemma shrinks_invalidate sid r o : shrinks o (invalidate sid r o).
Proof.
  unfold invalidate. destruct (dget sid (ow_pending o)) as [e|] eqn:E; [|done]. destruct (_ || _); [|done].
  etransitivity; [apply (shrinks_drop sid)|]. constructor; try done. intros k Hk [x Hx]. cbn in *. rewrite dget_ddel in Hx. case_decide; [done|].
  apply list_elem_of_filter. by split.
Qed.

Lemma shrinks_session_reply resident call turn_id action sid borrowed r o :
  shrinks o (session_reply resident call turn_id action sid borrowed r o).
Proof.
  unfold session_reply. set (o1 := if borrowed then o else _). assert (H1 : shrinks o o1).
  { unfold o1. destruct borrowed; [done|]. etransitivity; [apply (shrinks_record r)|apply shrinks_update]. }
  set (o2 := if resident && _ then _ else o1). assert (H2 : shrinks o o2).
  { unfold o2. destruct (resident && _); [|done]. etransitivity; [exact H1|apply shrinks_invalidate]. }
  etransitivity; [exact H2|]. case_decide.
  - etransitivity; [apply (shrinks_update sid)|]. etransitivity; [|apply shrinks_outputs]. destruct resident; [apply shrinks_invalidate|done].
  - case_decide; [apply shrinks_forget|apply shrinks_stage].
Qed.

Lemma shrinks_shell_reply call turn_id transient r o : shrinks o (shell_reply call turn_id transient r o).
Proof.
  unfold shell_reply. etransitivity; [|apply shrinks_stage].
  transitivity (if raw_sid r =? 0 then o else set_sessions (dset (raw_sid r) (new_session transient turn_id call) (ow_sessions o)) o);
    [|destruct (_ || _); [unfold release_input_lease; shrinks_frame|reflexivity]].
  destruct (raw_sid r =? 0); [done|]. shrinks_frame. intros k Hk. rewrite dget_dset. by case_decide.
Qed.

Lemma shrinks_borrowed fuel turn_id ref o : shrinks o (retire_borrowed fuel turn_id ref o).
Proof.
  revert ref o. induction fuel as [|fuel IH]; intros ref o; [done|]. cbn. destruct ref as [call|]; [|done]. destruct (dget call _) as [p|]; [|done].
  destruct (_ && _); [|done]. etransitivity; [|apply IH]. apply shrinks_outputs.
Qed.

Lemma shrinks_ancestry fuel ref o : shrinks o (retire_ancestry fuel ref o).
Proof.
  revert ref o. induction fuel as [|fuel IH]; intros ref o; [done|]. cbn. destruct ref as [call|]; [|done]. destruct (dget call _) as [p|]; [|done].
  etransitivity; [|apply IH]. apply shrinks_outputs.
Qed.

Lemma shrinks_commit_failure call p o : shrinks o (commit_failure call p o).
Proof.
  unfold commit_failure. etransitivity; [|apply shrinks_outputs]. etransitivity; [|apply shrinks_note_state]. destruct (dmem _ _); [|done].
  etransitivity; [apply shrinks_update|apply shrinks_fail].
Qed.

(** ** Collecting *)

(** Events, claims and completions are filed under their session, and a session with an
    event is known. *)
Record filed (o : owner) : Prop := {
  fl_pending : forall sid e, dget sid (ow_pending o) = Some e -> ev_session_id e = sid /\ is_Some (dget sid (ow_sessions o));
  fl_claims : forall sid c e, dget sid (ow_claims o) = Some (c, e) -> ev_session_id e = sid;
  fl_completions : forall sid e, dget sid (ow_completions o) = Some e -> ev_session_id e = sid
}.

(** An operation that claims nothing. *)
Record calm (o o' : owner) : Prop := {
  cm_filed : filed o -> filed o';
  cm_claims : forall sid c, dget sid (ow_claims o') = Some c -> dget sid (ow_claims o) = Some c;
  cm_closed : ow_closed o' = ow_closed o
}.

#[export] Instance calm_refl : Reflexive calm.
Proof. intros o. by constructor. Qed.
#[export] Instance calm_trans : Transitive calm.
Proof. intros a b c [F1 C1 X1] [F2 C2 X2]. constructor; [auto|auto|congruence]. Qed.

Lemma shrinks_calm o o' : shrinks o o' -> calm o o'.
Proof.
  intros [P R F C S D X]. constructor; [|done|done]. intros [H1 H2 H3]. constructor; [|eauto|eauto].
  intros sid e He. destruct (H1 sid e (P _ _ He)). split; [done|]. apply S; [done|by exists e].
Qed.

Lemma calm_clear sid o : calm o (clear_failure sid o).
Proof. constructor; try done. intros [H1 H2 H3]. by constructor. Qed.

Lemma calm_prepare e o : calm o (prepare e o).
Proof. unfold prepare. destruct (_ || _); [done|]. constructor; try done. intros [H1 H2 H3]. by constructor. Qed.

Lemma calm_collect_event o e : calm o (collect_event o e).
Proof.
  unfold collect_event. set (sid := ev_session_id e). set (same := match dget sid (ow_pending o) with Some old => is_event old e | None => false end).
  transitivity (if same then o else record (ev_result e) o); [destruct same; [done|apply shrinks_calm, shrinks_record]|].
  generalize (if same then o else record (ev_result e) o). clear same o. intros o.
  destruct (dget sid (ow_sessions o)) as [s|] eqn:Es; [|done]. destruct (negb _); [done|].
  set (newer := match dget sid (ow_pending o) with Some old => _ | None => true end).
  set (o2 := if newer then _ else o). assert (H2 : calm o o2).
  { unfold o2. destruct newer; [|done]. etransitivity; [|apply shrinks_calm, shrinks_update]. etransitivity; [|apply calm_clear].
    constructor; try done. intros [F1 F2 F3]. constructor; try done.
    intros k x. cbn. rewrite dget_dset. case_decide as E; [|apply F1]. intros [= <-]. subst k. by rewrite Es. }
  etransitivity; [exact H2|]. clearbody o2. destruct (eligible sid false true o2); [|done]. destruct (dget sid (ow_pending o2)); [apply calm_prepare|done].
Qed.

Lemma pending_dropped x k :
  dget k (ow_pending (drop_prepared (drop_ineligible x))) = if decide (eligible k false true x = true \/ k ∈ ow_failures x) then dget k (ow_pending x) else None.
Proof. exact (dget_filter_key (fun k => eligible k false true x = true \/ k ∈ ow_failures x) k (ow_pending x)). Qed.

Lemma calm_collect o : calm o (collect o).
Proof.
  unfold collect. destruct (ow_closed o) eqn:Ec; [done|].
  assert (Hf : forall l o, calm o (foldl collect_event o l)).
  { induction l as [|e l IH]; intros x; [done|]. cbn. etransitivity; [|apply IH]. apply calm_collect_event. }
  etransitivity; [apply (Hf (dvals (ow_completions o)))|]. generalize (foldl collect_event o (dvals (ow_completions o))). intros x.
  constructor; try done. intros [F1 F2 F3]. constructor; try done. intros sid e. rewrite pending_dropped. case_decide; [apply F1|done].
Qed.

(** What is left after [collect] can be shown once it is loaded and free, or has failed. *)
Lemma collect_settles o sid e : ow_closed o = false -> dget sid (ow_pending (collect o)) = Some e ->
  eligible sid false true (collect o) = true \/ sid ∈ ow_failures (collect o).
Proof.
  unfold collect. intros ->. generalize (foldl collect_event o (dvals (ow_completions o))). intros x.
  intros He. rewrite pending_dropped in He. case_decide as Hd; [|done]. destruct Hd as [Hd | Hd]; [left|by right].
  transitivity (eligible sid false true x); [|done]. unfold eligible at 1. rewrite pending_dropped, decide_True by (by left). reflexivity.
Qed.

(** ** [project] *)

(** The event is claimed no more. *)
Definition released (e : event) (o : owner) : Prop := forall c, dget (ev_session_id e) (ow_claims o) = Some c -> is_event c.2 e = false.

Lemma is_event_refl e : is_event e e = true.
Proof. apply Nat.eqb_refl. Qed.

Lemma release_claim_released e o : released e (release_claim (ev_session_id e) e o).
Proof.
  unfold released, release_claim. destruct (dget (ev_session_id e) (ow_claims o)) as [[c x]|] eqn:E.
  - destruct (is_event x e) eqn:Ex; intros d; cbn; [by rewrite dget_ddel_eq|rewrite E; by intros [= <-]].
  - intros d. by rewrite E.
Qed.

Lemma released_shrinks e o o' : shrinks o o' -> released e o -> released e o'.
Proof. intros H Hr c Hc. by apply Hr, (sh_claims _ _ H). Qed.

Lemma retire_released e o : released e (retire_event e o).
Proof. unfold retire_event. eapply released_shrinks; [apply shrinks_unpublish|]. apply release_claim_released. Qed.

Lemma commit_released e o : released e (commit_event e o).
Proof. apply retire_released. Qed.

Lemma report_released e o : released e (report_failure e o).
Proof.
  unfold report_failure. eapply released_shrinks; [destruct (is_terminal _); [apply shrinks_retire|reflexivity]|]. apply release_claim_released.
Qed.

(** Everything but the claims. *)
Definition fades (o o' : owner) : Prop := shrinks (set_claims [] o) (set_claims [] o').

Lemma shrinks_fades o o' : shrinks o o' -> fades o o'.
Proof. intros [P R F C S D X]. by constructor. Qed.

Lemma fades_trans a b c : fades a b -> fades b c -> fades a c.
Proof. apply shrinks_trans. Qed.

Lemma fades_shrinks o o' : fades o o' -> (forall sid c, dget sid (ow_claims o') = Some c -> dget sid (ow_claims o) = Some c) -> shrinks o o'.
Proof. intros [P R F C S D X] H. by constructor. Qed.

Section projecting.
Variable turn_id : string.
Variable failing : event_id -> bool.
Variable o0 : owner.

(** The claims during [project]: those from before, and those of the events it holds. *)
Record projecting (pj : projection) : Prop := {
  pr_fades : fades o0 (pj_owner pj);
  pr_claims : forall sid c, dget sid (ow_claims (pj_owner pj)) = Some c ->
    dget sid (ow_claims o0) = Some c \/ (c.2 ∈ pj_claimed pj /\ ev_session_id c.2 = sid /\ is_Some (dget (identity c.2) (pj_coverage pj)))
}.

Lemma claim_fades sid o o1 e : claim_event sid turn_id o = (o1, Some e) -> fades o o1 /\ o1 = set_claims (dset sid (turn_id, e) (ow_claims o)) o /\ dget sid (ow_pending o) = Some e.
Proof.
  unfold claim_event. destruct (eligible sid true false o); [|done]. destruct (dget sid (ow_pending o)) as [x|]; [|done]. intros [= <- ->].
  by split_and!.
Qed.

Lemma projecting_session pj sid : filed o0 -> projecting pj -> projecting (project_session turn_id failing pj sid).
Proof.
  intros Hf [Hfa Hc]. unfold project_session. destruct (negb _); [done|]. destruct (claim_event sid turn_id (pj_owner pj)) as [o [e|]] eqn:E; [|done].
  destruct (claim_fades _ _ _ _ E) as (F1 & -> & Hp). set (o := set_claims _ _) in *.
  assert (Hsid : ev_session_id e = sid) by (apply (fl_pending _ Hf); exact (sh_pending _ _ Hfa _ _ Hp)).
  assert (Hcl : forall (cov : dict event_id bool) k c, (forall id : event_id, is_Some (dget id (pj_coverage pj)) -> is_Some (dget id cov)) -> is_Some (dget (identity e) cov) ->
    dget k (ow_claims o) = Some c -> dget k (ow_claims o0) = Some c \/ (c.2 ∈ pj_claimed pj ++ [e] /\ ev_session_id c.2 = k /\ is_Some (dget (identity c.2) cov))).
  { intros cov k c Hcov He. unfold o. cbn. rewrite dget_dset. case_decide as Ek.
    - intros [= <-]. right. cbn. split_and!; [apply elem_of_app; right; left|congruence|done].
    - intros H. apply Hc in H as [H | (H1 & H2 & H3)]; [by left|]. right. split_and!; [apply elem_of_app; by left|done|by apply Hcov]. }
  assert (Fo : fades o0 o) by (by eapply fades_trans).
  destruct (dget (identity e) (pj_coverage pj)) as [[|]|] eqn:Ecov; constructor; cbn [pj_owner pj_claimed pj_coverage].
  - eapply fades_trans; [exact Fo|apply shrinks_fades, shrinks_report].
  - intros k c H. apply (sh_claims _ _ (shrinks_report e o)) in H. apply (Hcl (pj_coverage pj)); [done|by rewrite Ecov|exact H].
  - eapply fades_trans; [exact Fo|]. eapply fades_trans; [apply shrinks_fades, (shrinks_commit_event e)|apply shrinks_fades, shrinks_acknowledge].
  - intros k c H. apply (sh_claims _ _ (shrinks_acknowledge e _)), (sh_claims _ _ (shrinks_commit_event e o)) in H. apply (Hcl (pj_coverage pj)); [done|by rewrite Ecov|exact H].
  - eapply fades_trans; [exact Fo|]. apply shrinks_fades, shrinks_outputs.
  - intros k c H. apply Hcl; [|by rewrite dget_dset_eq|exact H]. intros id Hid. rewrite dget_dset. by case_decide.
Qed.

Lemma projecting_fold l pj : filed o0 -> projecting pj -> projecting (foldl (project_session turn_id failing) pj l).
Proof. intros Hf. revert pj. induction l as [|sid l IH]; intros pj H; [done|]. apply IH. by apply projecting_session. Qed.

(** Letting go of the claimed events. *)
Lemma letting_go (f : owner -> event -> owner) (P : event -> Prop) l o :
  (forall o e, shrinks o (f o e)) -> (forall o e, P e -> released e (f o e)) ->
  shrinks o (foldl f o l) /\ forall e, e ∈ l -> P e -> released e (foldl f o l).
Proof.
  intros Hs Hr. revert o. induction l as [|x l IH]; intros o; [split; [done|]; intros e He; by apply not_elem_of_nil in He|]. cbn.
  destruct (IH (f o x)) as [H1 H2]. split; [by transitivity (f o x)|]. intros e He Hp. apply elem_of_cons in He as [-> | He]; [|by apply H2].
  eapply released_shrinks; [exact H1|by apply Hr].
Qed.

Lemma let_go_shrinks f pj o :
  projecting pj -> shrinks (pj_owner pj) o -> (forall o e, shrinks o (f o e)) ->
  (forall o e, is_Some (dget (identity e) (pj_coverage pj)) -> released e (f o e)) -> shrinks o0 (foldl f o (pj_claimed pj)).
Proof.
  intros [Hfa Hc] Ho Hs Hr. destruct (letting_go f (fun e => is_Some (dget (identity e) (pj_coverage pj))) (pj_claimed pj) o Hs Hr) as [H1 H2].
  assert (H3 : shrinks (pj_owner pj) (foldl f o (pj_claimed pj))) by (by transitivity o).
  apply fades_shrinks; [eapply fades_trans; [exact Hfa|by apply shrinks_fades]|]. intros sid c Hcl.
  destruct (Hc sid c) as [H | (Hin & <- & Hcov)]; [by apply (sh_claims _ _ H3)|done|].
  by specialize (H2 _ Hin Hcov _ Hcl); rewrite is_event_refl in H2.
Qed.
End projecting.

Lemma settle_shrinks coverage o e : shrinks o (settle_event coverage o e).
Proof.
  unfold settle_event. destruct (dget _ coverage) as [[|]|]; [apply shrinks_report| |done].
  etransitivity; [apply (shrinks_commit_event e)|]. etransitivity; [|apply shrinks_acknowledge]. apply shrinks_outputs.
Qed.

Lemma settle_released coverage o e : is_Some (dget (identity e) coverage) -> released e (settle_event coverage o e).
Proof.
  intros [b Hb]. unfold settle_event. rewrite Hb. destruct b; [apply report_released|].
  eapply released_shrinks; [apply shrinks_acknowledge|]. eapply released_shrinks; [apply shrinks_outputs|]. apply commit_released.
Qed.

Lemma shrinks_append t coverage msgs o : shrinks o (append_coverage t coverage (emit msgs o)).
Proof. unfold append_coverage. apply shrinks_same; done. Qed.

(** [project] lets go of every event it claims. *)
Lemma project_ok turn_id active visible failing h o : filed o -> shrinks (collect o) (project turn_id active visible failing h o).
Proof.
  intros Hf. unfold project. apply (cm_filed _ _ (calm_collect o)) in Hf. revert Hf. generalize (collect o). clear o. intros o Hf.
  destruct active; [|done]. cbv zeta. cbn [negb].
  set (l := dkeys _). set (pj := foldl _ _ l).
  assert (Hp : projecting o pj) by (apply projecting_fold; [done|]; constructor; [apply shrinks_refl|by left]).
  destruct h.
  - apply let_go_shrinks; [done|done|intros; apply shrinks_release|intros; apply release_claim_released].
  - apply let_go_shrinks; [done|apply shrinks_append|intros; apply shrinks_release|intros; apply release_claim_released].
  - apply let_go_shrinks; [done|apply shrinks_append|intros; apply settle_shrinks|intros; by apply settle_released].
Qed.

(** ** The operations of the owner *)

(** Those that end without [collect]. *)
Inductive quiet_step : owner -> owner -> Prop :=
| qs_register o sid transient turn_id lease : quiet_step o (set_sessions (dset sid (new_session transient turn_id lease) (ow_sessions o)) o)
| qs_publish o e : quiet_step o (set_completions (dset (ev_session_id e) e (ow_completions o)) o)
| qs_unpublish o sid : quiet_step o (set_completions (ddel sid (ow_completions o)) o)
| qs_record o r : quiet_step o (record r o)
| qs_load_cancelled o e : quiet_step o (load_cancelled e o)
| qs_stage o call turn_id r recovery_of borrowed : quiet_step o (stage_begin call turn_id r recovery_of borrowed o)
| qs_staged o call value : quiet_step o (stage_done call value o)
| qs_normalized o call failure : quiet_step o (normalized call failure o)
| qs_shell o call turn_id transient r : quiet_step o (shell_reply call turn_id transient r o)
| qs_session o resident call turn_id action sid borrowed r : quiet_step o (session_reply resident call turn_id action sid borrowed r o)
| qs_ack_done o e : quiet_step o (ack_done e o)
| qs_forget o sid : quiet_step o (forget_session sid o)
| qs_drop o call : quiet_step o (set_outputs (ddel call (ow_outputs o)) o).

(** Those that end with it. *)
Inductive collecting_step : owner -> owner -> Prop :=
| cs_collect o : collecting_step o (collect o)
| cs_refreshed o r : collecting_step o (refreshed r o)
| cs_refresh_failed o sid report : collecting_step o (refresh_failed sid report o)
| cs_load_done o e value : collecting_step o (load_done e value o).

(** [commit] ends with it too, unless the result is borrowed, only a state, or failed. *)
Definition commit_collects (call : output_ref) (o : owner) : bool :=
  match dget call (ow_outputs o) with
  | Some p => negb (po_borrowed p) && ((negb (po_prepared p) && negb (po_failure p)) || (po_covers_output p && negb (po_failure p)))
  | None => false
  end.

(** Everything but the claims of the completion source. *)
Inductive owner_op : owner -> owner -> Prop :=
| oo_quiet o o' : quiet_step o o' -> owner_op o o'
| oo_collecting o o' : collecting_step o o' -> owner_op o o'
| oo_project o turn_id active visible failing h : owner_op o (project turn_id active visible failing h o)
| oo_commit o token call : owner_op o (commit_output token call o).

(** What the readiness of events depends on. *)
Definition keeps_events (o o' : owner) : Prop :=
  (forall sid e, dget sid (ow_pending o') = Some e -> dget sid (ow_pending o) = Some e) /\
  (forall id, dmem id (ow_prepared o') = true -> dmem id (ow_prepared o) = true) /\
  (forall sid, sid ∈ ow_failures o -> is_Some (dget sid (ow_pending o')) -> sid ∈ ow_failures o').

Lemma shrinks_keeps o o' : shrinks o o' -> calm o o' /\ keeps_events o o'.
Proof. intros H. split; [by apply shrinks_calm|]. destruct H. by split_and!. Qed.

Lemma quiet_step_calm o o' : quiet_step o o' -> calm o o' /\ keeps_events o o'.
Proof.
  destruct 1 as [| | | | | | | | | | | |].
  2: { split; [|done]. constructor; try done. intros [F1 F2 F3]. constructor; try done. intros k x. cbn. rewrite dget_dset. case_decide; [|apply F3].
       by intros [= <-]. }
  all: apply shrinks_keeps.
  - apply shrinks_same; try done. intros k Hk. cbn. rewrite dget_dset. by case_decide.
  - apply shrinks_same; try done. intros k x. cbn. rewrite dget_ddel. by case_decide.
  - apply shrinks_record.
  - by apply shrinks_same.
  - apply shrinks_stage.
  - apply shrinks_staged.
  - apply shrinks_normalized.
  - apply shrinks_shell_reply.
  - apply shrinks_session_reply.
  - apply shrinks_ack_done.
  - apply shrinks_forget.
  - apply shrinks_outputs.
Qed.

Lemma collecting_ok o o' : collecting_step o o' -> exists x, calm o x /\ o' = collect x.
Proof.
  destruct 1 as [o|o r|o sid report|o e value].
  - by exists o.
  - eexists. split; [|reflexivity]. destruct r; [apply shrinks_calm, shrinks_record|done].
  - eexists. split; [|reflexivity]. etransitivity; [apply shrinks_calm, shrinks_update|].
    destruct (dget sid (ow_sessions _)); [|done]. destruct (dget sid (ow_latest _)); [apply shrinks_calm, shrinks_record|done].
  - eexists. split; [|reflexivity]. transitivity (set_preparing (ddel (ev_session_id e) (ow_preparing o)) o); [by apply shrinks_calm, shrinks_same|].
    destruct (_ && _); [|done]. constructor; try done. intros [F1 F2 F3]. by constructor.
Qed.

Lemma commit_output_calm token call o :
  if commit_collects call o then exists x, calm o x /\ commit_output token call o = collect x else shrinks o (commit_output token call o).
Proof.
  unfold commit_collects, commit_output. destruct (dget call (ow_outputs o)) as [p|]; [|done]. destruct (po_borrowed p); cbn [negb andb].
  { destruct (_ && _); [done|]. destruct (po_failure p); [apply shrinks_outputs|]. etransitivity; [apply shrinks_outputs|apply shrinks_borrowed]. }
  set (o1 := update_session _ set_committed o). assert (H1 : shrinks o o1) by apply shrinks_update. clearbody o1.
  destruct (po_prepared p), (po_failure p); cbn [negb andb orb]; rewrite ?andb_false_r, ?andb_true_r; cbv beta iota zeta.
  all: try (destruct (po_covers_output p); cbn [negb]).
  all: try (etransitivity; [exact H1|]; etransitivity; [apply shrinks_outputs|]; first [apply shrinks_commit_failure|etransitivity; [apply shrinks_note_state|apply shrinks_outputs]]).
  - unfold commit_success. eexists. split; [|reflexivity].
    etransitivity; [apply shrinks_calm, H1|]. etransitivity; [apply shrinks_calm, (shrinks_outputs (dset call (delivered_output p) (ow_outputs o1)))|].
    set (o2 := set_outputs _ _). clearbody o2. set (o3 := emit _ o2). assert (H3 : calm o2 o3) by (apply shrinks_calm; by apply shrinks_same).
    etransitivity; [exact H3|]. clearbody o3. clear.
    set (o4 := if dmem _ _ then _ else o3). assert (H4 : calm o3 o4).
    { unfold o4. destruct (dmem _ _); [|done]. etransitivity; [apply shrinks_calm, shrinks_update|]. etransitivity; [apply calm_clear|].
      etransitivity; [apply shrinks_calm, shrinks_update|]. apply shrinks_calm, shrinks_note_delivery. }
    etransitivity; [exact H4|]. destruct (is_terminal _); apply shrinks_calm; [apply shrinks_acknowledge|apply shrinks_ancestry].
  - exists o1. split; [by apply shrinks_calm|done].
  - exists o1. split; [by apply shrinks_calm|done].
Qed.

Lemma owner_op_calm o o' : filed o -> owner_op o o' -> calm o o'.
Proof.
  intros Hf. destruct 1 as [o o' H|o o' H|o turn_id active visible failing h|o token call].
  - by apply quiet_step_calm.
  - destruct (collecting_ok _ _ H) as (x & Hx & ->). etransitivity; [exact Hx|apply calm_collect].
  - etransitivity; [apply calm_collect|]. by apply shrinks_calm, project_ok.
  - pose proof (commit_output_calm token call o) as H. destruct (commit_collects call o); [|by apply shrinks_calm].
    destruct H as (x & Hx & ->). etransitivity; [exact Hx|apply calm_collect].
Qed.

(** ** Roles *)

(** A role owns its observations alone: nothing claims an event between two operations.
    A future may also be woken early, or cancelled with its task. *)
Inductive role_step : role -> role -> Prop :=
| rs_quiet o o' w : quiet_step o o' -> role_step (Role o w) (Role o' w)
| rs_collecting o o' w : collecting_step o o' -> role_step (Role o w) (signal_waiters (Role o' w))
| rs_project o w turn_id active visible failing h :
    role_step (Role o w) (Role (project turn_id active visible failing h o) (ro_waiters (collect_role (Role o w))))
| rs_commit o w token call :
    role_step (Role o w) ((if commit_collects call o then signal_waiters else id) (Role (commit_output token call o) w))
| rs_loop r w : role_step r (role_loop w r).1
| rs_wait r w : role_step r (role_wait w r).1
| rs_woken o w w' : w' ⊆ w -> role_step (Role o w) (Role o w').

(** No event that is loaded could be shown. *)
Definition none_ready (o : owner) : Prop :=
  forall sid e, dget sid (ow_pending o) = Some e -> dmem (identity e) (ow_prepared o) = true -> sid ∈ ow_failures o.

Record role_ok (r : role) : Prop := {
  rk_filed : filed (ro_owner r);
  rk_claims : forall sid, dget sid (ow_claims (ro_owner r)) = None;
  rk_open : ow_closed (ro_owner r) = false;
  rk_waiting : ro_waiters r <> [] -> none_ready (ro_owner r)
}.

Lemma event_ready_spec o : event_ready o = true <-> exists sid, eligible sid true false o = true.
Proof.
  unfold event_ready. rewrite existsb_exists. split; [intros (sid & _ & H); by exists sid|]. intros [sid H]. exists sid. split; [|done].
  unfold eligible in H. destruct (dget sid (ow_pending o)) as [e|] eqn:E; [|done]. apply list_elem_of_In, dget_is_Some. by exists e.
Qed.

Lemma eligible_ready sid o : eligible sid true false o = eligible sid false true o && negb (dmem sid (ow_claims o)) &&
  match dget sid (ow_pending o) with Some e => dmem (identity e) (ow_prepared o) | None => false end.
Proof.
  unfold eligible. destruct (dget sid (ow_pending o)); [|done]. destruct (dget sid (ow_sessions o)); [|done].
  cbn. by rewrite !andb_true_r.
Qed.

Lemma none_ready_false o : none_ready o -> event_ready o = false.
Proof.
  intros H. apply not_true_iff_false. rewrite event_ready_spec. intros [sid He]. unfold eligible in He.
  destruct (dget sid (ow_pending o)) as [e|] eqn:Ep; [|done]. destruct (dget sid (ow_sessions o)); [|done]. bool_to_prop.
  specialize (H sid e Ep). tauto.
Qed.

Lemma keeps_none_ready o o' : keeps_events o o' -> none_ready o -> none_ready o'.
Proof. intros (H1 & H2 & H3) H sid e Hp Hm. apply H3; [|by exists e]. apply (H sid e); auto. Qed.

(** What [collect] leaves and does not announce cannot be shown. *)
Lemma collect_none_ready x : ow_closed x = false -> (forall sid, dget sid (ow_claims (collect x)) = None) ->
  event_ready (collect x) = false -> none_ready (collect x).
Proof.
  intros Hc Hn Hr sid e Hp Hm. destruct (collect_settles x sid e Hc Hp) as [He | He]; [|done]. exfalso.
  apply not_true_iff_false in Hr. apply Hr, event_ready_spec. exists sid. rewrite eligible_ready, He, Hp, Hm. unfold dmem. by rewrite Hn.
Qed.

Lemma calm_role o o' w w' : role_ok (Role o w) -> calm o o' -> (w' <> [] -> none_ready o') -> role_ok (Role o' w').
Proof.
  intros [F C X W] [F' C' X'] H. constructor; cbn in *; [auto| |congruence|done].
  intros sid. destruct (dget sid (ow_claims o')) as [c|] eqn:E; [|done]. apply C' in E. by rewrite C in E.
Qed.

Lemma role_signal o x w : role_ok (Role o w) -> calm o x -> role_ok (signal_waiters (Role (collect x) w)).
Proof.
  intros Hr Hx. assert (Hc : calm o (collect x)) by (etransitivity; [exact Hx|apply calm_collect]).
  unfold signal_waiters. cbn. destruct (event_ready (collect x)) eqn:E; eapply calm_role; [exact Hr|exact Hc|done|exact Hr|exact Hc|].
  intros _. apply collect_none_ready; [rewrite (cm_closed _ _ Hx); apply Hr| |done]. intros sid.
  destruct (dget sid _) as [c|] eqn:E'; [|done].
  apply (cm_claims _ _ Hc) in E'. pose proof (rk_claims _ Hr sid) as Hn. cbn in Hn. congruence.
Qed.

Lemma role_collect r : role_ok r -> role_ok (collect_role r).
Proof. intros Hr. unfold collect_role. destruct (ow_closed _); [done|]. destruct r as [o w]. by apply (role_signal o). Qed.

Lemma role_step_ok r r' : role_ok r -> role_step r r' -> role_ok r'.
Proof.
  intros Hr. destruct 1 as [o o' w H|o o' w H|o w turn_id active visible failing h|o w token call|r w|r w|o w w' H].
  - destruct (quiet_step_calm _ _ H) as [H1 H2]. eapply calm_role; [done..|]. intros Hw. eapply keeps_none_ready; [done|]. by apply Hr.
  - destruct (collecting_ok _ _ H) as (x & Hx & ->). by apply (role_signal o).
  - pose proof (project_ok turn_id active visible failing h o (rk_filed _ Hr)) as Hp. destruct (shrinks_keeps _ _ Hp) as [P1 P2].
    apply role_collect in Hr as Hc. eapply calm_role; [exact Hr|etransitivity; [apply calm_collect|exact P1]|]. intros Hw.
    eapply keeps_none_ready; [exact P2|]. unfold collect_role in *. pose proof (rk_open _ Hr) as Ho. cbn in Ho. cbn [ro_owner ro_waiters] in *. rewrite Ho in *.
    unfold signal_waiters in *. cbn [ro_owner ro_waiters] in *. destruct (event_ready (collect o)); [done|]. by apply Hc.
  - pose proof (commit_output_calm token call o) as H. destruct (commit_collects call o).
    + destruct H as (x & Hx & E). rewrite E. by apply (role_signal o).
    + destruct (shrinks_keeps _ _ H) as [H1 H2]. eapply calm_role; [done..|]. intros Hw. eapply keeps_none_ready; [done|]. by apply Hr.
  - unfold role_loop. destruct (negb (completion_blocked _)); [done|]. destruct (negb _); [done|]. cbn. unfold park_or_ready.
    apply role_collect in Hr as Hc. destruct (event_ready (ro_owner (collect_role r))) eqn:E; [done|]. pose proof (rk_open _ Hr) as Ho.
    unfold collect_role in *. rewrite Ho in *. unfold signal_waiters in *. cbn [ro_owner ro_waiters] in *.
    destruct (event_ready (collect (ro_owner r))) eqn:E2; cbn [ro_owner] in E; [congruence|].
    eapply calm_role; [exact Hc|done|]. intros _. apply collect_none_ready; [done|apply Hc|done].
  - unfold role_wait. case_bool_decide; [|by destruct (event_ready _); apply role_collect]. destruct (negb _); [|done]. destruct r as [o l].
    eapply calm_role; [done..|]. cbn. intros Hw. apply Hr. cbn. intros ->. done.
  - eapply calm_role; [done..|]. intros Hw. apply Hr. cbn. intros ->. destruct w' as [|x w']; [done|]. specialize (H x). set_solver.
Qed.

Definition idle_role : role := Role new_owner [].

Lemma idle_role_ok : role_ok idle_role.
Proof. by constructor. Qed.

(** C14: no waiting role misses an event.  Whatever commands, reads, loads, tool results, turns,
    failures and cancellations interleave with the waiting: in every state where a future
    of [park_or_ready] is not done, no event can be shown; the operation that makes one
    ready wakes every waiter. *)
Theorem parked_roles_are_woken r :
  rtc role_step idle_role r -> ro_waiters r <> [] -> event_ready (ro_owner r) = false.
Proof.
  intros Hrun Hw. apply none_ready_false. refine (rk_waiting _ _ Hw).
  apply (rtc_ind_r (R := role_step) role_ok idle_role); [apply idle_role_ok| |exact Hrun]. intros a b _ Hs Ha. by apply (role_step_ok a).
Qed.

(** ** Turns for events *)

(** Where the handling of an announced event is. *)
Inductive handling :=
| Announced                        (* the envelope is in the queue *)
| Locking                          (* [handle] waits for the lock *)
| Started                          (* the task of [_run] has not run yet *)
| Running (e : event)              (* the model's turn *)
| Lost.                            (* nobody: nothing is left that would clear the session *)

Record turns := Turns {
  tn_source : event_source;
  tn_active : list (Z * handling)
}.

Section turns.
Variable bound : Z -> bool.

(** A handler that can vanish: the envelope is dropped, [handle] is cancelled at its lock or
    starting the turn raises, the task is cancelled before its first step.  None of them
    has reached a [try]. *)
Definition can_vanish (h : handling) : bool :=
  match h with Announced | Locking | Started => true | Running _ | Lost => false end.

Definition moved (next : option handling) (sid : Z) : list (Z * handling) := match next with Some h => [(sid, h)] | None => [] end.

(** The operations of the owner, and the steps of the source; [idle]: what the core says. *)
Inductive turns_step : turns -> turns -> Prop :=
| ts_owner o o' f l : owner_op o o' -> turns_step (Turns (EventSource o f) l) (Turns (EventSource o' f) l)
| ts_drain idle s s' r l :
    drain_source bound idle s = (s', r) -> turns_step (Turns s l) (Turns s' (l ++ match r with Some sid => [(sid, Announced)] | None => [] end))
| ts_handle sid s s' go l1 l2 :
    handle_event sid s = (s', go) ->
    turns_step (Turns s (l1 ++ (sid, Announced) :: l2)) (Turns s' (l1 ++ moved (if go then Some Locking else None) sid ++ l2))
| ts_lock sid idle starts s s' go l1 l2 :
    start_turn idle starts sid s = (s', go) ->
    turns_step (Turns s (l1 ++ (sid, Locking) :: l2)) (Turns s' (l1 ++ moved (if go then Some Started else None) sid ++ l2))
| ts_run sid failing h s s' r l1 l2 :
    run_turn sid failing h s = (s', r) ->
    turns_step (Turns s (l1 ++ (sid, Started) :: l2)) (Turns s' (l1 ++ moved (Running <$> r) sid ++ l2))
| ts_done sid e failed s l1 l2 :
    turns_step (Turns s (l1 ++ (sid, Running e) :: l2)) (Turns (turn_done sid e failed s) (l1 ++ l2))
| ts_lost sid h s l1 l2 :
    can_vanish h = true -> turns_step (Turns s (l1 ++ (sid, h) :: l2)) (Turns s (l1 ++ (sid, Lost) :: l2)).

Record turns_ok (t : turns) : Prop := {
  tk_filed : filed (sc_owner (tn_source t));
  tk_once : NoDup (tn_active t).*1;
  tk_in_flight : forall sid, sid ∈ sc_in_flight (tn_source t) <-> sid ∈ (tn_active t).*1;
  tk_claims : forall sid c, dget sid (ow_claims (sc_owner (tn_source t))) = Some c -> sid ∈ (tn_active t).*1;
  tk_running : forall sid e, (sid, Running e) ∈ tn_active t -> ev_session_id e = sid /\ dget sid (ow_claims (sc_owner (tn_source t))) = None
}.

(** A handler goes on, or ends with nothing left. *)
Lemma turns_move sid h next o o' f l1 l2 :
  turns_ok (Turns (EventSource o f) (l1 ++ (sid, h) :: l2)) -> calm o o' ->
  (forall e, next = Some (Running e) -> ev_session_id e = sid /\ dget sid (ow_claims o') = None) ->
  (next = None -> dget sid (ow_claims o') = None) ->
  turns_ok (Turns (EventSource o' (if next then f else leave_flight sid f)) (l1 ++ moved next sid ++ l2)).
Proof.
  intros [F N I C R] [F' C' X'] Hr Hn. cbn in *.
  assert (Hnd : sid ∉ l1.*1 /\ sid ∉ l2.*1 /\ NoDup (l1.*1 ++ l2.*1)).
  { rewrite fmap_app, fmap_cons in N. apply NoDup_app in N as (N1 & N2 & N3). cbn in N3. apply NoDup_cons in N3 as [N3 N4]. split_and!; [|done|].
    - intros Hx. apply (N2 _ Hx). left.
    - apply NoDup_app. split_and!; [done| |done]. intros x Hx Hx2. apply (N2 x Hx). by right. }
  destruct Hnd as (Hn1 & Hn2 & Hnd).
  assert (Hin : forall k, k ∈ (l1 ++ (sid, h) :: l2).*1 <-> k = sid \/ k ∈ (l1 ++ l2).*1).
  { intros k. rewrite !fmap_app, fmap_cons, !elem_of_app, elem_of_cons. cbn. tauto. }
  assert (Hrest : forall k e, (k, Running e) ∈ l1 ++ l2 -> ev_session_id e = k /\ dget k (ow_claims o') = None).
  { intros k e He. destruct (R k e) as [R1 R2]; [apply elem_of_app in He as [He | He]; apply elem_of_app; [by left|right; by right]|]. split; [done|].
    destruct (dget k (ow_claims o')) as [c|] eqn:E; [|done]. apply C' in E. congruence. }
  destruct next as [h'|]; cbn [moved app]; constructor; cbn; auto.
  - rewrite fmap_app, fmap_cons. rewrite fmap_app, fmap_cons in N. exact N.
  - intros k. rewrite I, Hin. rewrite !fmap_app, fmap_cons, !elem_of_app, elem_of_cons. cbn. tauto.
  - intros k c Hc. apply C', C in Hc. apply Hin in Hc. rewrite fmap_app, fmap_cons, elem_of_app, elem_of_cons. rewrite fmap_app, elem_of_app in Hc. cbn. tauto.
  - intros k e He. apply elem_of_app in He as [He | He]; [apply Hrest, elem_of_app; by left|]. apply elem_of_cons in He as [[= -> <-] | He]; [by apply Hr|].
    apply Hrest, elem_of_app. by right.
  - by rewrite fmap_app.
  - intros k. unfold leave_flight. rewrite list_elem_of_filter, I, Hin. rewrite fmap_app, elem_of_app. split; [tauto|]. intros H. split; [|tauto].
    intros ->. tauto.
  - intros k c Hc. assert (k <> sid) by (intros ->; rewrite Hn in Hc; done). apply C', C, Hin in Hc. tauto.
Qed.

Lemma release_held_ok sid o : shrinks o (release_held sid o) /\ dget sid (ow_claims (release_held sid o)) = None.
Proof.
  unfold release_held. destruct (dget sid (ow_claims o)) as [[c e]|] eqn:E; [|done]. split; [apply shrinks_release|].
  unfold release_claim. rewrite E, is_event_refl. cbn. by rewrite dget_ddel_eq.
Qed.

Lemma calm_unclaimed sid o o' : calm o o' -> dget sid (ow_claims o) = None -> dget sid (ow_claims o') = None.
Proof. intros H Hn. destruct (dget sid (ow_claims o')) as [c|] eqn:E; [|done]. apply (cm_claims _ _ H) in E. congruence. Qed.

(** A claim that its event does not hold any more is gone. *)
Lemma released_unclaimed sid c e o o' : calm o o' -> dget sid (ow_claims o) = Some (c, e) -> ev_session_id e = sid -> released e o' ->
  dget sid (ow_claims o') = None.
Proof.
  intros H Ho <- Hr. destruct (dget _ (ow_claims o')) as [d|] eqn:E; [|done]. specialize (Hr d E). apply (cm_claims _ _ H) in E.
  assert (d = (c, e)) as -> by congruence. by rewrite is_event_refl in Hr.
Qed.

Lemma finally_ok sid c e o x : calm o x -> dget sid (ow_claims o) = Some (c, e) -> ev_session_id e = sid ->
  calm o (collect (release_claim sid e x)) /\ dget sid (ow_claims (collect (release_claim sid e x))) = None.
Proof.
  intros H Ho Hs. assert (H2 : calm o (release_claim sid e x)) by (etransitivity; [exact H|apply shrinks_calm, shrinks_release]).
  split; [etransitivity; [exact H2|apply calm_collect]|]. eapply calm_unclaimed; [apply calm_collect|].
  eapply released_unclaimed; [exact H2|exact Ho|done|]. rewrite <- Hs. apply release_claim_released.
Qed.

Lemma open_turn_ok sid c e value s failing h o x b : open_event_turn sid e value s failing h o = (x, b) ->
  dget sid (ow_claims o) = Some (c, e) -> ev_session_id e = sid -> calm o x /\ (b = true -> dget sid (ow_claims x) = None).
Proof.
  unfold open_event_turn. intros E Ho Hs. set (durable := append_coverage _ _ _) in E.
  assert (Hd : shrinks o durable) by apply shrinks_append. clearbody durable.
  destruct h.
  - injection E as <- <-. split; [apply shrinks_calm, shrinks_fail|done].
  - injection E as <- <-. split; [|done]. apply shrinks_calm. etransitivity; [exact Hd|apply shrinks_fail].
  - revert E. set (y := if (_ || _)%bool then report_failure e durable else _). intros [= <- <-]. assert (Hy : shrinks durable y /\ released e y).
    { unfold y. destruct (_ || _); [split; [apply shrinks_report|apply report_released]|]. split.
      - etransitivity; [apply (shrinks_commit_event e)|apply shrinks_acknowledge].
      - eapply released_shrinks; [apply shrinks_acknowledge|apply commit_released]. }
    destruct Hy as [Hy1 Hy2]. assert (Hc : calm o y) by (apply shrinks_calm; by transitivity durable).
    split; [exact Hc|]. intros _. by apply (released_unclaimed sid c e o).
Qed.

Lemma calm_newer sid e o : dget sid (ow_completions o) = Some e -> is_Some (dget sid (ow_sessions o)) -> calm o (set_pending (dset sid e (ow_pending o)) o).
Proof.
  intros He Hs. constructor; try done. intros [F1 F2 F3]. constructor; try done. intros k x. cbn. rewrite dget_dset. case_decide as Ek; [|apply F1].
  intros [= <-]. subst k. by split; [apply F3|].
Qed.

Lemma run_event_ok sid failing h o o' r : filed o -> run_event sid failing h o = (o', r) ->
  calm o o' /\ dget sid (ow_claims o') = None /\ forall e, r = Some e -> ev_session_id e = sid.
Proof.
  intros Hf. unfold run_event. destruct (dget sid (ow_claims o)) as [[c e]|] eqn:Ec.
  2: { intros [= <- <-]. split_and!; [apply calm_collect|eapply calm_unclaimed; [apply calm_collect|done]|done]. }
  assert (Hs : ev_session_id e = sid) by (by apply (fl_claims _ Hf _ c)).
  assert (Hfin : forall x, calm o x -> (collect (release_claim sid e x), None) = (o', r) ->
    calm o o' /\ dget sid (ow_claims o') = None /\ forall e, r = Some e -> ev_session_id e = sid).
  { intros x Hx [= <- <-]. destruct (finally_ok sid c e o x Hx Ec Hs). by split_and!. }
  cbv zeta. destruct (negb _); [by apply Hfin|]. destruct (dget sid (ow_sessions o)) as [ss|] eqn:Es; [|apply Hfin, shrinks_calm, shrinks_fail].
  destruct (dget _ (ow_memory o)) as [[|]|].
  { apply Hfin, shrinks_calm, shrinks_report. }
  { apply Hfin, shrinks_calm. etransitivity; [apply (shrinks_commit_event e)|apply shrinks_acknowledge]. }
  destruct (dget _ (ow_prepared o)) as [value|]; [|by apply Hfin].
  destruct (match dget sid (ow_completions o) with Some latest => _ | None => None end) as [latest|] eqn:El.
  { apply Hfin, calm_newer; [|by rewrite Es]. destruct (dget sid (ow_completions o)); [|done]. destruct (_ <? _); [|done]. congruence. }
  destruct (negb _); [by apply Hfin|]. destruct (open_event_turn _ _ _ _ _ _ o) as [x b] eqn:Eo.
  destruct (open_turn_ok _ _ _ _ _ _ _ _ _ _ Eo Ec Hs) as [Hx Hb]. destruct b; [|by apply Hfin].
  intros [= <- <-]. split_and!; [done|by apply Hb|]. by intros ? [= <-].
Qed.

Lemma run_ended_ok sid e failed o : calm o (run_ended e failed o) /\ (dget sid (ow_claims o) = None -> dget sid (ow_claims (run_ended e failed o)) = None).
Proof.
  assert (H : calm o (run_ended e failed o)).
  { unfold run_ended. etransitivity; [|apply calm_collect]. etransitivity; [|apply shrinks_calm, shrinks_release].
    destruct failed; [apply shrinks_calm, shrinks_fail|done]. }
  split; [done|]. by apply calm_unclaimed.
Qed.

Lemma drain_ok idle s s' r l : turns_ok (Turns s l) -> drain_source bound idle s = (s', r) ->
  turns_ok (Turns s' (l ++ match r with Some sid => [(sid, Announced)] | None => [] end)).
Proof.
  intros Ht. unfold drain_source, prepare_source. destruct s as [o f]. cbn [sc_owner sc_in_flight].
  assert (Hc : calm o (collect o)) by apply calm_collect.
  assert (H1 : turns_ok (Turns (EventSource (collect o) f) l)).
  { destruct Ht as [F N I C R]. destruct Hc as [F' C' X']. constructor; cbn in *; auto; [intros; eapply C, C'; done|].
    intros k e He. destruct (R k e He). split; [done|]. by eapply (calm_unclaimed k o), R. }
  destruct (ow_closed o); cbn [negb]; [intros [= <- <-]; by rewrite app_nil_r|]. clear Ht. generalize dependent (collect o). intros x Hx H1.
  destruct (negb _); [intros [= <- <-]; by rewrite app_nil_r|]. cbn [sc_owner sc_in_flight].
  destruct (List.find _ _) as [sid|] eqn:Ef; [|intros [= <- <-]; by rewrite app_nil_r].
  apply List.find_some in Ef as [_ Ef]. unfold claim_event. destruct (eligible sid true false x) eqn:Ee; [|intros [= <- <-]; by rewrite app_nil_r].
  destruct (dget sid (ow_pending x)) as [e|] eqn:Ep; [|intros [= <- <-]; by rewrite app_nil_r]. intros [= <- <-].
  unfold turn_eligible in Ef. cbn [sc_owner sc_in_flight] in Ef. bool_to_prop. destruct H1 as [[F1 F2 F3] N I C R]. cbn in *.
  assert (Hn : sid ∉ l.*1) by (by rewrite <- I).
  constructor; cbn.
  - constructor; try done. cbn. intros k c d. rewrite dget_dset. case_decide as Ek; [|apply F2]. intros [= <- <-]. subst k. by apply F1.
  - rewrite fmap_app. apply NoDup_app. split_and!; [done| |apply NoDup_singleton]. cbn. intros k Hk ->%list_elem_of_singleton. done.
  - intros k. rewrite fmap_app, !elem_of_app, I. done.
  - intros k c. rewrite fmap_app, elem_of_app, dget_dset. case_decide as Ek; [subst k; intros _; right; left|]. intros Hk. left. by eapply C.
  - intros k d Hd. apply elem_of_app in Hd as [Hd | Hd]; [|by apply list_elem_of_singleton in Hd]. destruct (R k d Hd) as [R1 R2]. split; [done|].
    rewrite dget_dset. case_decide as Ek; [|done]. subst k. destruct Hn. apply list_elem_of_fmap.
    eexists. by split; [|exact Hd].
Qed.

Lemma let_go_turn_calm sid s : calm (sc_owner s) (sc_owner (let_go_turn sid s)) /\ dget sid (ow_claims (sc_owner (let_go_turn sid s))) = None.
Proof. destruct (release_held_ok sid (sc_owner s)). split; [by apply shrinks_calm|done]. Qed.

Lemma turns_step_ok t t' : turns_ok t -> turns_step t t' -> turns_ok t'.
Proof.
  intros Ht. destruct 1 as [o o' f l H|idle s s' r l H|sid s s' go l1 l2 H|sid idle starts s s' go l1 l2 H|sid failing h s s' r l1 l2 H|sid e failed s l1 l2|sid h s l1 l2 H].
  - assert (Hc : calm o o') by (apply owner_op_calm; [apply Ht|done]). destruct Ht as [F N I C R]. constructor; cbn in *; auto.
    + by apply Hc.
    + intros k c Hk. apply (cm_claims _ _ Hc) in Hk. by eapply C.
    + intros k e He. destruct (R k e He). split; [done|]. by apply (calm_unclaimed k o).
  - by apply (drain_ok idle s).
  - assert (Hin : sid ∈ sc_in_flight s) by (apply (tk_in_flight _ Ht); cbn; rewrite fmap_app, elem_of_app; right; left).
    unfold handle_event in H. rewrite bool_decide_true in H by done. cbn [negb] in H. destruct s as [o f]. destruct (let_go_turn_calm sid (EventSource o f)) as [G1 G2].
    destruct (negb _); injection H as <- <-; [by apply (turns_move sid Announced None o)|]. by apply (turns_move sid Announced (Some Locking) o).
  - unfold start_turn in H. destruct s as [o f]. cbn [sc_owner sc_in_flight] in H. destruct (let_go_turn_calm sid (EventSource o f)) as [G1 G2].
    destruct (negb idle || _) eqn:Eh; [injection H as <- <-; by apply (turns_move sid Locking None o)|].
    destruct (negb (dmem sid (ow_sessions o))) eqn:Es.
    { exfalso. bool_to_prop. destruct (dget sid (ow_claims o)) as [[c e]|]; [|done]. destruct (dget sid (ow_pending o)) as [p|] eqn:Ep; [|done].
      destruct (fl_pending _ (tk_filed _ Ht) sid p Ep) as [_ Hk]. apply dmem_true in Hk. cbn in Hk. congruence. }
    destruct (negb starts); injection H as <- <-; [by apply (turns_move sid Locking None o)|]. by apply (turns_move sid Locking (Some Started) o).
  - unfold run_turn in H. destruct s as [o f]. cbn [sc_owner sc_in_flight] in H. destruct (run_event sid failing h o) as [o' [e|]] eqn:Er;
      destruct (run_event_ok _ _ _ _ _ _ (tk_filed _ Ht) Er) as (R1 & R2 & R3); injection H as <- <-.
    + apply (turns_move sid Started (Some (Running e)) o); [done|done| |done]. intros x [= <-]. split; [by apply R3|done].
    + by apply (turns_move sid Started None o).
  - destruct s as [o f]. destruct (run_ended_ok sid e failed o) as [R1 R2]. destruct (tk_running _ Ht sid e) as [_ Hn]; [cbn; apply elem_of_app; right; left|].
    apply (turns_move sid (Running e) None o); [done|done|done|]. intros _. by apply R2.
  - destruct s as [o f]. by apply (turns_move sid h (Some Lost) o).
Qed.

(** A session whose handler vanished stays in flight, and [drain] never announces it. *)
Lemma lost_stays t t' sid : turns_step t t' -> (sid, Lost) ∈ tn_active t -> (sid, Lost) ∈ tn_active t'.
Proof.
  assert (Hmid : forall k h mid l1 l2, h <> Lost -> (sid, Lost) ∈ l1 ++ (k, h) :: l2 -> (sid, Lost) ∈ l1 ++ mid ++ l2).
  { intros k h mid l1 l2 Hh. rewrite !elem_of_app, elem_of_cons. intros [?|[[= _ <-]|?]]; auto. done. }
  destruct 1; cbn; try done.
  - rewrite elem_of_app. by left.
  - by apply Hmid.
  - by apply Hmid.
  - by apply Hmid.
  - by apply (Hmid sid0 (Running e) []).
  - apply (Hmid sid0 h [(sid0, Lost)]). by intros ->.
Qed.

Lemma drain_skips_flight idle s sid : sid ∈ sc_in_flight s -> (drain_source bound idle s).2 <> Some sid.
Proof.
  intros Hs. unfold drain_source, prepare_source. destruct (ow_closed _); [done|]. cbn [sc_owner sc_in_flight].
  destruct (negb _); [done|]. destruct (List.find _ _) as [k|] eqn:Ef; [|done]. apply List.find_some in Ef as [_ Ef].
  unfold claim_event. destruct (eligible _ _ _ _); [|done]. destruct (dget k _); [|done]. cbn. intros [= ->].
  unfold turn_eligible in Ef. cbn [sc_in_flight] in Ef. bool_to_prop. done.
Qed.

Lemma eligible_free sid o : eligible sid true true o = true -> dget sid (ow_claims o) = None ->
  eligible sid true false o = true /\ sid ∉ ow_failures o /\ match dget sid (ow_sessions o) with Some x => ss_committed x = true | None => False end.
Proof.
  unfold eligible. intros He Hc. destruct (dget sid (ow_pending o)); [|done]. destruct (dget sid (ow_sessions o)); [|done].
  unfold dmem at 1. rewrite Hc. split; [exact He|]. bool_to_prop. done.
Qed.

Definition idle_turns : turns := Turns (EventSource new_owner []) [].

Lemma turns_reachable t : rtc turns_step idle_turns t -> turns_ok t.
Proof.
  intros H. apply (rtc_ind_r (R := turns_step) turns_ok idle_turns); [|intros a b _ Hs Ha; by apply (turns_step_ok a)|exact H].
  constructor; cbn; try done; [constructor|]. by intros ? ? ?%elem_of_nil.
Qed.

End turns.

(** ** Witnesses *)

(** The command of [ObservationSafety], whose event is loaded, for the source ... *)
Lemma demo_turns bound : rtc (turns_step bound) idle_turns (Turns (EventSource demo_owner4 []) []).
Proof.
  assert (Hstep : forall o o', owner_op o o' -> turns_step bound (Turns (EventSource o []) []) (Turns (EventSource o' []) [])) by (intros; by apply ts_owner).
  eapply rtc_l; [apply Hstep, oo_quiet, (qs_register new_owner 5 false "t1" "call")|].
  eapply rtc_l; [apply Hstep, oo_quiet, (qs_stage _ (OfCall "call") "t1" (demo_raw "running" 0 2) None false)|].
  eapply rtc_l; [apply Hstep, oo_quiet, (qs_staged _ (OfCall "call") (materialize_delivery None (0, 0) demo_source (demo_raw "running" 0 2)))|].
  eapply rtc_l; [apply Hstep, oo_quiet, (qs_normalized _ (OfCall "call") false)|].
  eapply rtc_l; [apply Hstep, (oo_commit _ 0 (OfCall "call"))|].
  eapply rtc_l; [apply Hstep, oo_quiet, (qs_publish _ demo_event)|].
  eapply rtc_l; [apply Hstep, oo_collecting, cs_collect|].
  apply rtc_once, Hstep, oo_collecting, (cs_load_done demo_owner3 demo_event (materialize_delivery None (2, 0) demo_source (ev_result demo_event))).
Qed.


(** [handle] is cancelled while it waits for its lock: the event is loaded and the core is
    idle, but the session stays in flight and claimed, and is not announced again, now or
    after any further steps. *)
Example cancelled_handle_blocks_session t :
  let s := (drain_source (fun _ => true) true (EventSource demo_owner4 [])).1 in
  rtc (turns_step (fun _ => true)) (Turns s [(5, Lost)]) t ->
  (exists t0, rtc (turns_step (fun _ => true)) idle_turns t0 /\ turns_step (fun _ => true) t0 (Turns s [(5, Lost)])) /\
  5 ∈ sc_in_flight (tn_source t) /\ (drain_source (fun _ => true) true (tn_source t)).2 <> Some 5.
Proof.
  intros s Hrun. assert (Hpre : rtc (turns_step (fun _ => true)) idle_turns (Turns s [(5, Locking)])).
  { etransitivity; [apply demo_turns|].
    eapply rtc_l; [eapply (ts_drain _ true _ s (Some 5)); vm_compute; reflexivity|].
    apply rtc_once, (ts_handle _ 5 s s true [] []). vm_compute. reflexivity. }
  assert (Hlost : turns_step (fun _ => true) (Turns s [(5, Locking)]) (Turns s [(5, Lost)])) by (by apply (ts_lost _ 5 Locking s [] [])).
  split; [by eexists|]. assert (Hin : (5, Lost) ∈ tn_active t).
  { assert (H0 : (5, Lost) ∈ tn_active (Turns s [(5, Lost)])) by left. revert H0. clear -Hrun.
    induction Hrun as [|x y z Hs _ IH]; [done|]. intros Hx. by eapply IH, lost_stays. }
  assert (Ht : turns_ok t) by (apply (turns_reachable (fun _ => true)); etransitivity; [exact Hpre|eapply rtc_l; [exact Hlost|exact Hrun]]).
  assert (Hf : 5 ∈ sc_in_flight (tn_source t)) by (apply (tk_in_flight _ Ht), list_elem_of_fmap; by exists (5, Lost)).
  split; [exact Hf|by apply drain_skips_flight].
Qed.

(** A role that waits while the output of its command's event is being loaded. *)
Lemma parked_roles_are_woken_witness : event_ready demo_owner3 = false.
Proof.
  refine (parked_roles_are_woken (Role demo_owner3 [0%nat]) _ _); [|done].
  assert (Hstep : forall o o', quiet_step o o' -> role_step (Role o []) (Role o' [])) by (intros; by apply rs_quiet).
  eapply rtc_l; [apply Hstep, (qs_register new_owner 5 false "t1" "call")|].
  eapply rtc_l; [apply Hstep, (qs_stage _ (OfCall "call") "t1" (demo_raw "running" 0 2) None false)|].
  eapply rtc_l; [apply Hstep, (qs_staged _ (OfCall "call") (materialize_delivery None (0, 0) demo_source (demo_raw "running" 0 2)))|].
  eapply rtc_l; [apply Hstep, (qs_normalized _ (OfCall "call") false)|].
  eapply rtc_l; [apply (rs_commit _ [] 0 (OfCall "call"))|].
  eapply rtc_l; [apply (Hstep demo_owner2 _ (qs_publish demo_owner2 demo_event))|].
  apply rtc_once. apply (rs_loop (Role (set_completions (dset 5 demo_event (ow_completions demo_owner2)) demo_owner2) []) 0).
Defined.
