(* ===== verification/Commands.v ===== *)
(** * From a tool call to the native runtime

    The arguments of a command or a control on their whole way: the input model of the
    tool ([tools.py], [inputs.py], [capabilities.py]), the local shell ([adapter.py]), and
    for a remote target the request of the router ([router.py]), what the slot sends of it
    ([slot.py]), and the call of the worker ([worker.py]).  [expanduser] and the version of
    the native extension are parameters. *)

From S2P Require Import Prelude Dict Utf8 PyValue Protocol Management Worker ToolContract.
Open Scope Z_scope.

(** A method of the native runtime with its arguments, after the number of the request. *)
Record native_command := NativeCommand { nc_method : string; nc_arguments : list json }.

(** ** The input model of a command *)

Record RunInput := mkRunInput {
  rn_cmd : string;
  rn_stdin : option string;
  rn_cwd : string;
  rn_tty : bool;
  rn_wait_ms : option Z;
  rn_timeout_ms : option Z;
  rn_sudo : bool
}.

Definition run_fields : list string := ["cmd"; "stdin"; "cwd"; "tty"; "wait_ms"; "timeout_ms"; "sudo"; "target"].

Definition bool_field (k : string) (args : obj) : option bool :=
  match dget k args with None => Some false | Some (JBool b) => Some b | Some _ => None end.

(** The fields of [NativeRunInput]; the target is a type of the host. *)
Definition parse_run (args : obj) : option RunInput :=
  if negb (forallb (fun k => bool_decide (k ∈ run_fields)) (dkeys args)) then None
  else
    cmd ← match dget "cmd" args with Some (JStr s) => if str_truthy s then Some s else None | _ => None end;
    stdin ← text_field 0 "stdin" args;
    cwd ← match dget "cwd" args with None => Some "" | Some (JStr s) => Some s | Some _ => None end;
    tty ← bool_field "tty" args;
    wait_ms ← int_field 0 300000 "wait_ms" args;
    timeout_ms ← int_field 1 2147483647 "timeout_ms" args;
    sudo ← bool_field "sudo" args;
    Some (mkRunInput cmd stdin cwd tty wait_ms timeout_ms sudo).

(** [inputs.validate_stdin] *)
Definition validate_stdin (value : json) : res py_error unit :=
  match stdin_bytes value with Some _ => Ok tt | None => Raise (ValueError "stdin must be valid UTF-8 text") end.

Definition json_of (value : option string) : json := match value with Some s => JStr s | None => JNull end.

(** [RunInput.validate_stdin] *)
Definition validate_run (ri : RunInput) : res py_error unit :=
  let! _ := validate_stdin (json_of (rn_stdin ri)) in
  raise_if negb (is_none (rn_stdin ri)) && rn_tty ri with ValueError "stdin requires tty=false" ;;
  Ok tt.

(** Its published rule. *)
Definition run_schema : json :=
  JObj [("allOf", JList [JObj
    [("if", JObj [("required", JList [JStr "stdin"]); ("properties", JObj [("stdin", JObj [("type", JStr "string")])])]);
     ("then", JObj [("properties", JObj [("tty", JObj [("const", JBool false)])])])]])].

(** ** The local shell *)

(** [_check_stdin]; [version]: [native.STDIN_VERSION]. *)
Definition _check_stdin (version : Z) (stdin : json) (tty : bool) : res string unit :=
  match validate_stdin stdin with
  | Raise _ => Raise "invalid_stdin"
  | Ok _ =>
      match stdin with
      | JNull => Ok tt
      | _ =>
          raise_if tty with "stdin_pty_conflict" ;;
          raise_if negb (version =? 1) with "stdin_unsupported" ;;
          Ok tt
      end
  end.

Definition given_stdin (stdin : json) : list json := match stdin with JNull => [] | _ => [stdin] end.

(** [kwargs.get(k)], of an argument with a default that is a boolean or a text. *)
Definition bool_argument (k : string) (args : obj) : bool := match dget k args with Some (JBool b) => b | _ => false end.
Definition text_argument (k : string) (args : obj) : string := match dget k args with Some (JStr s) => s | _ => "" end.

(** [ShellRuntime.run]: the call it makes. *)
Definition local_run_call (version : Z) (expanduser : string -> string) (shell : string) (authorized : bool) (inline_limit : Z) (cmd : string) (args : obj)
  : res string native_command :=
  let stdin := jget "stdin" args in
  let tty := bool_argument "tty" args in
  let! _ := _check_stdin version stdin tty in
  let operation := (if authorized then "run_authorized" else "run") +:+ (match stdin with JNull => "" | _ => "_with_stdin" end) in
  let wait := match jget "wait_ms" args with JNull => JInt (if tty then 1000 else 300000) | wait => wait end in
  let timeout := match jget "timeout_ms" args with JNull => JInt 0 | timeout => timeout end in
  Ok (NativeCommand operation ([JStr shell; JStr cmd; JStr (expanduser (text_argument "cwd" args)); JBool tty; wait; timeout; JInt inline_limit] ++ given_stdin stdin)).

(** [kwargs.get(k) or 0] *)
Definition or_zero (k : string) (args : obj) : json := jor (jget k args) (JInt 0).

(** [ShellRuntime.session_snapshot]: the call it makes. *)
Definition local_control (session : Z) (action : string) (args : obj) : option native_command :=
  arguments ← dget action
    [("read", [or_zero "wait_ms" args]); ("write", [jget "text" args]); ("resize", [jget "rows" args; jget "columns" args]);
     ("terminate", []); ("release", []); ("watch", [or_zero "wait_ms" args; or_zero "extend_by_ms" args]);
     ("extend", [or_zero "extend_by_ms" args]); ("unwatch", [])];
  Some (NativeCommand action (JInt session :: arguments)).

(** ** A remote target *)

(** [{k: kwargs[k] for k in fields if kwargs.get(k) is not None}] *)
Definition supplied_argument (args : obj) (k : string) : obj :=
  match jget k args with JNull => [] | v => [(k, v)] end.
Definition supplied_arguments (fields : list string) (args : obj) : obj := fields ≫= supplied_argument args.

(** The request of [_run_resolved]. *)
Definition submit_request (oid : string) (hold : bool) (cmd : string) (args : obj) : obj :=
  let d := supplied_arguments ["cwd"; "tty"; "timeout_ms"] args in
  let d := match jget "stdin" args with JNull => d | stdin => dset "stdin" stdin d end in
  let wait := match jget "wait_ms" args with JNull => JInt (if bool_argument "tty" d then 1000 else 300000) | wait => wait end in
  let d := dset "_hold_output" (JBool hold) (dset "wait_ms" wait d) in
  [("operation_id", JStr oid); ("cmd", JStr cmd)] ++ d.

(** The request of [session_snapshot] for a remote session. *)
Definition session_request (oid : string) (native_id : Z) (action : string) (args : obj) : obj :=
  [("operation_id", JStr oid); ("session_id", JInt native_id); ("action", JStr action)] ++
  supplied_arguments ["wait_ms"; "extend_by_ms"; "text"; "rows"; "columns"] args.

(** What [RemoteSlot.request] sends of it. *)
Definition sent_params (params : obj) : obj := ddel "_hold_output" params.

(** [Worker._execute]: the call it makes. *)
Definition worker_command (config : WorkerConfig) (expanduser : string -> string) (args : obj) : native_command :=
  let stdin := jget "stdin" args in
  NativeCommand (match stdin with JNull => "run_limited" | _ => "run_limited_with_stdin" end)
    ([JStr (cf_shell config); jget "cmd" args; JStr (expanduser (text_argument "cwd" args)); JBool (bool_argument "tty" args); jget "wait_ms" args;
      or_zero "timeout_ms" args; JInt 0; JInt (cf_output_limit config)] ++ given_stdin stdin).

Definition with_default (k : string) (v : json) (args : obj) : json := default v (dget k args).

Definition worker_control (args : obj) : option native_command :=
  match jget "action" args with
  | JStr action =>
      arguments ← dget action
        [("read", [with_default "wait_ms" (JInt 0) args]); ("write", [with_default "text" (JStr "") args]);
         ("resize", [jget "rows" args; jget "columns" args]); ("terminate", []);
         ("watch", [with_default "wait_ms" (JInt 0) args; with_default "extend_by_ms" (JInt 0) args]);
         ("extend", [with_default "extend_by_ms" (JInt 0) args]); ("unwatch", [])];
      Some (NativeCommand action (jget "session_id" args :: arguments))
  | _ => None
  end.
