(* ===== verification/CommandSafety.v ===== *)
(** * A command means the same on every target

    The properties of [Commands]. *)

From S2P Require Import Prelude Dict Utf8 PyValue Protocol Management Worker ToolContract ToolSafety Commands.
Open Scope Z_scope.

(** ** Fields *)

Definition json_int (x : option Z) : json := match x with Some z => JInt z | None => JNull end.

Lemma int_field_jget low high k args x : int_field low high k args = Some x ->
  jget k args = json_int x /\ forall z, x = Some z -> low <= z <= high.
Proof.
  unfold int_field, jget. destruct (dget k args) as [[| |z| | |]|]; try done; try (by intros [= <-]).
  destruct (_ && _) eqn:E; [|done]. bool_to_prop. intros [= <-]. split; [done|]. intros y [= <-]. lia.
Qed.

Lemma text_field_jget n k args x : text_field n k args = Some x -> jget k args = json_of x.
Proof.
  unfold text_field, jget. destruct (dget k args) as [[| | |s| |]|]; try done; try (by intros [= <-]). destruct (_ <=? _); [|done]. by intros [= <-].
Qed.

(** A field with a default is missing or given. *)
Definition defaulted (k : string) (v : json) (args : obj) : Prop := jget k args = JNull \/ jget k args = v.

Lemma bool_field_jget k args b : bool_field k args = Some b -> bool_argument k args = b /\ (jget k args = JNull /\ b = false \/ jget k args = JBool b).
Proof.
  unfold bool_field, bool_argument, jget. destruct (dget k args) as [[| | | | |]|]; try done; intros [= <-]; (split; [done|]); [by right|by left].
Qed.

Record run_arguments (args : obj) (ri : RunInput) : Prop := {
  ra_cmd : dget "cmd" args = Some (JStr (rn_cmd ri)) /\ str_truthy (rn_cmd ri) = true;
  ra_stdin : jget "stdin" args = json_of (rn_stdin ri);
  ra_cwd : text_argument "cwd" args = rn_cwd ri /\ (jget "cwd" args = JNull /\ rn_cwd ri = "" \/ jget "cwd" args = JStr (rn_cwd ri));
  ra_tty : bool_argument "tty" args = rn_tty ri /\ (jget "tty" args = JNull /\ rn_tty ri = false \/ jget "tty" args = JBool (rn_tty ri));
  ra_wait : jget "wait_ms" args = json_int (rn_wait_ms ri) /\ forall z, rn_wait_ms ri = Some z -> 0 <= z <= 300000;
  ra_timeout : jget "timeout_ms" args = json_int (rn_timeout_ms ri) /\ forall z, rn_timeout_ms ri = Some z -> 1 <= z <= 2147483647
}.

Lemma parse_run_arguments args ri : parse_run args = Some ri -> run_arguments args ri.
Proof.
  unfold parse_run. destruct (negb _); [done|]. intros H.
  apply bind_Some in H as (cmd & H1 & H). apply bind_Some in H as (stdin & H2 & H). apply bind_Some in H as (cwd & H3 & H).
  apply bind_Some in H as (tty & H4 & H). apply bind_Some in H as (wait & H5 & H). apply bind_Some in H as (timeout & H6 & H).
  apply bind_Some in H as (sudo & H7 & [= <-]). constructor; cbn.
  - destruct (dget "cmd" args) as [[| | |s| |]|]; try done. destruct (str_truthy s) eqn:E; [|done]. injection H1 as <-. done.
  - by eapply text_field_jget.
  - unfold text_argument, jget. destruct (dget "cwd" args) as [[| | |s| |]|]; try done; injection H3 as <-; (split; [done|]); [by right|by left].
  - by apply bool_field_jget.
  - by eapply int_field_jget.
  - by eapply int_field_jget.
Qed.

(** ** Commands *)

(** The wait and the deadline of a command. *)
Definition wait_of (ri : RunInput) : Z := match rn_wait_ms ri with Some z => z | None => if rn_tty ri then 1000 else 300000 end.
Definition timeout_of (ri : RunInput) : Z := default 0 (rn_timeout_ms ri).

(** What both runtimes are told of a command. *)
Definition common_arguments (expanduser : string -> string) (ri : RunInput) : list json :=
  [JStr (rn_cmd ri); JStr (expanduser (rn_cwd ri)); JBool (rn_tty ri); JInt (wait_of ri); JInt (timeout_of ri)].

Lemma local_run_call_runs version expanduser shell authorized inline args ri :
  run_arguments args ri -> validate_run ri = Ok tt -> (rn_stdin ri <> None -> version = 1) ->
  local_run_call version expanduser shell authorized inline (rn_cmd ri) args =
    Ok (NativeCommand ((if authorized then "run_authorized" else "run") +:+ (if is_none (rn_stdin ri) then "" else "_with_stdin"))
          ([JStr shell] ++ common_arguments expanduser ri ++ [JInt inline] ++ given_stdin (json_of (rn_stdin ri)))).
Proof.
  intros [_ Hs [Hcwd _] [Htty _] [Hw _] [Ht _]] Hv Hver. unfold local_run_call. rewrite Hs, Hcwd, Htty, Hw, Ht.
  unfold validate_run in Hv. apply rbind_ok in Hv as ([] & Hv & Hc). apply raise_if_ok in Hc as [Hc _].
  unfold _check_stdin. rewrite Hv. unfold common_arguments, wait_of, timeout_of.
  destruct (rn_stdin ri) as [s|]; cbn [json_of is_none negb andb] in *.
  - rewrite Hc, Hver by done. cbn. by destruct (rn_wait_ms ri), (rn_timeout_ms ri).
  - cbn. by destruct (rn_wait_ms ri), (rn_timeout_ms ri).
Qed.

Lemma integer_in z low high : low <= z <= high -> integer (JInt z) low high = Ok z.
Proof. intros H. by apply integer_ok. Qed.

Lemma submit_ok su req cmd cwd tty stdin wait timeout :
  let p := ddel "operation_id" req in
  let q := match stdin with Some _ => p | None => ddel "stdin" p end in
  only_keys ["cmd"; "cwd"; "tty"; "wait_ms"; "timeout_ms"; "stdin"] p = true ->
  jget "cmd" p = JStr cmd -> text_value (JStr cmd) false TEXT_LIMIT = Ok cmd ->
  default (JStr "") (dget "cwd" p) = JStr cwd -> text_value (JStr cwd) true TEXT_LIMIT = Ok cwd ->
  default (JBool false) (dget "tty" p) = JBool tty -> jget "stdin" p = json_of stdin -> is_Some (stdin_bytes (json_of stdin)) ->
  negb (is_none stdin) && tty = false -> (stdin <> None -> su_stdin_version su = 1) -> (su_windows su = true -> tty = false) ->
  dget "wait_ms" q = Some (JInt wait) -> 0 <= wait <= 300000 ->
  integer (jor (jget "timeout_ms" (dset "wait_ms" (JInt wait) q)) (JInt 0)) 0 MAX_INT = Ok timeout ->
  submit_params su req = Ok (dset "wait_ms" (JInt wait) q).
Proof.
  intros p q H1 H2 H3 H4 H5 H6 H7 [b H8] H9 H10 H11 H12 H13 H14. unfold submit_params. fold p. rewrite H1, H2, H3, H4, H5, H6, H7, H8. cbn [negb rguard rbind].
  assert (Hg : match json_of stdin with JNull => false | _ => true end = negb (is_none stdin)) by (by destruct stdin). rewrite Hg, H9. cbn [rguard rbind].
  assert (Hv : negb (is_none stdin) && negb (su_stdin_version su =? 1) = false).
  { destruct stdin; [|done]. by rewrite H10 by done. }
  rewrite Hv. cbn [rguard rbind]. assert (Hw : su_windows su && tty = false) by (destruct (su_windows su); [by rewrite H11|done]). rewrite Hw. cbn [rguard rbind].
  assert (Hq : (if negb (is_none stdin) then p else ddel "stdin" p) = q) by (unfold q; by destruct stdin). rewrite Hq, H12. cbn [default from_option id].
  rewrite (integer_in wait) by done. cbn [rbind]. by rewrite H14.
Qed.

(** What the worker receives. *)
Definition received (oid : string) (hold : bool) (args : obj) (ri : RunInput) : obj := sent_params (submit_request oid hold (rn_cmd ri) args).

Definition field (k : string) (v : json) : obj := match v with JNull => [] | _ => [(k, v)] end.

Lemma received_is oid hold args ri : run_arguments args ri -> exists cwd tty,
  received oid hold args ri = [("operation_id", JStr oid); ("cmd", JStr (rn_cmd ri))] ++ field "cwd" cwd ++ field "tty" tty ++
    field "timeout_ms" (json_int (rn_timeout_ms ri)) ++ field "stdin" (json_of (rn_stdin ri)) ++ [("wait_ms", JInt (wait_of ri))] /\
  (cwd = JNull /\ rn_cwd ri = "" \/ cwd = JStr (rn_cwd ri)) /\ (tty = JNull /\ rn_tty ri = false \/ tty = JBool (rn_tty ri)).
Proof.
  intros [_ Hs [_ Hcwd] [_ Htty] [Hw _] [Ht _]]. exists (jget "cwd" args), (jget "tty" args). split; [|done].
  unfold received, submit_request, supplied_arguments, supplied_argument. cbn [mbind list_bind]. rewrite Hs, Hw, Ht. unfold wait_of.
  destruct Hcwd as [[-> ?] | ->], Htty as [[-> Hf] | ->], (rn_stdin ri), (rn_wait_ms ri), (rn_timeout_ms ri); try rewrite Hf; reflexivity.
Qed.

Lemma worker_accepts su oid hold args ri :
  run_arguments args ri -> validate_run ri = Ok tt ->
  text_value (JStr (rn_cmd ri)) true TEXT_LIMIT = Ok (rn_cmd ri) -> text_value (JStr (rn_cwd ri)) true TEXT_LIMIT = Ok (rn_cwd ri) ->
  (rn_stdin ri <> None -> su_stdin_version su = 1) -> (su_windows su = true -> rn_tty ri = false) ->
  exists params, submit_params su (received oid hold args ri) = Ok params /\
    jget "cmd" params = JStr (rn_cmd ri) /\ jget "stdin" params = json_of (rn_stdin ri) /\ text_argument "cwd" params = rn_cwd ri /\
    bool_argument "tty" params = rn_tty ri /\ jget "wait_ms" params = JInt (wait_of ri) /\ or_zero "timeout_ms" params = JInt (timeout_of ri).
Proof.
  intros Ha Hv Hcmd Hcwd Hver Hwin. destruct (received_is oid hold args ri Ha) as (cwd & tty & -> & Hc & Ht).
  destruct Ha as [[_ Htr] _ _ _ [_ Hw] [_ Hto]]. apply rbind_ok in Hv as ([] & Hv & Hn). apply raise_if_ok in Hn as [Hn _].
  assert (Hcmd' : text_value (JStr (rn_cmd ri)) false TEXT_LIMIT = Ok (rn_cmd ri)).
  { unfold text_value in *. rewrite Htr in *. cbn [negb andb] in *. by rewrite orb_false_r in *. }
  assert (Hwait : 0 <= wait_of ri <= 300000) by (unfold wait_of; destruct (rn_wait_ms ri) as [z|]; [by apply Hw|destruct (rn_tty ri); lia]).
  assert (Htime : integer (jor (json_int (rn_timeout_ms ri)) (JInt 0)) 0 MAX_INT = Ok (timeout_of ri)).
  { unfold timeout_of. destruct (rn_timeout_ms ri) as [z|]; [|reflexivity]. specialize (Hto z eq_refl). cbn [json_int default].
    unfold jor. cbn [truthy]. rewrite (proj2 (Z.eqb_neq z 0)) by lia. cbn. apply integer_in. unfold MAX_INT. lia. }
  assert (Hb : is_Some (stdin_bytes (json_of (rn_stdin ri)))).
  { unfold validate_stdin in Hv. destruct (stdin_bytes _); [by eexists|done]. }
  eexists. split.
  - apply (submit_ok su _ (rn_cmd ri) (rn_cwd ri) (rn_tty ri) (rn_stdin ri) (wait_of ri) (timeout_of ri)); try done.
    all: destruct Hc as [[-> E1] | ->], Ht as [[-> E2] | ->], (rn_stdin ri), (rn_timeout_ms ri); cbn [json_of json_int field app] in *; rewrite ?E1, ?E2; try reflexivity.
    all: exact Htime.
  - unfold timeout_of in *. destruct Hc as [[-> E1] | ->], Ht as [[-> E2] | ->], (rn_stdin ri), (rn_timeout_ms ri) as [z|]; cbn [json_of json_int field app] in *;
      rewrite ?E1, ?E2; split_and!; try reflexivity.
    all: transitivity (jor (JInt z) (JInt 0)); [reflexivity|]; specialize (Hto z eq_refl); unfold jor; cbn [truthy];
      by rewrite (proj2 (Z.eqb_neq z 0)) by lia.
Qed.


(** ** Controls *)

Record control_arguments (args : obj) (si : SessionInput) : Prop := {
  ca_action : si_action si ∈ ACTIONS;
  ca_wait : jget "wait_ms" args = json_int (si_wait_ms si) /\ forall z, si_wait_ms si = Some z -> 0 <= z <= 300000;
  ca_extend : jget "extend_by_ms" args = json_int (si_extend_by_ms si) /\ forall z, si_extend_by_ms si = Some z -> 0 <= z <= 2147483647;
  ca_text : jget "text" args = json_of (si_text si);
  ca_rows : jget "rows" args = json_int (si_rows si) /\ forall z, si_rows si = Some z -> 1 <= z <= 65535;
  ca_columns : jget "columns" args = json_int (si_columns si) /\ forall z, si_columns si = Some z -> 1 <= z <= 65535
}.

Lemma parse_session_arguments args si : parse_session args = Some si -> control_arguments args si.
Proof.
  unfold parse_session. destruct (negb _); [done|]. intros H.
  apply bind_Some in H as (sid & H1 & H). apply bind_Some in H as (ref & H2 & H). apply bind_Some in H as (action & H3 & H).
  apply bind_Some in H as (wait & H4 & H). apply bind_Some in H as (extend & H5 & H). apply bind_Some in H as (text & H6 & H).
  apply bind_Some in H as (rows & H7 & H). apply bind_Some in H as (columns & H8 & [= <-]). constructor; cbn.
  - unfold action_field in H3. destruct (dget "action" args) as [[| | |a| |]|]; try done; [|injection H3 as <-; left].
    case_bool_decide; [|done]. by injection H3 as <-.
  - by eapply int_field_jget.
  - by eapply int_field_jget.
  - by eapply text_field_jget.
  - by eapply int_field_jget.
  - by eapply int_field_jget.
Qed.

(** The controls of an action, as the validators leave them. *)
Inductive control : string -> SessionInput -> Prop :=
| ct_read sid wait : control "read" (mkSessionInput sid None "read" wait None None None None)
| ct_write sid text : control "write" (mkSessionInput sid None "write" None None (Some text) None None)
| ct_resize sid rows columns : control "resize" (mkSessionInput sid None "resize" None None None (Some rows) (Some columns))
| ct_terminate sid : control "terminate" (mkSessionInput sid None "terminate" None None None None None)
| ct_release sid : control "release" (mkSessionInput sid None "release" None None None None None)
| ct_watch sid wait extend : wait <> 0 -> control "watch" (mkSessionInput sid None "watch" (Some wait) extend None None None)
| ct_extend sid extend : extend <> 0 -> control "extend" (mkSessionInput sid None "extend" None (Some extend) None None None)
| ct_unwatch sid : control "unwatch" (mkSessionInput sid None "unwatch" None None None None None).

Lemma validated_control si sid :
  si_action si ∈ ACTIONS -> si_session_id si = Some sid -> validate_session si = Ok tt -> control (si_action si) si.
Proof.
  destruct si as [osid ref action wait extend text rows columns]. cbn [si_action si_session_id]. intros Ha -> Hv.
  apply rbind_ok in Hv as ([] & Hv & Hr). assert (ref = None) as ->.
  { apply raise_if_ok in Hr as [Hr _]. by destruct ref. }
  apply raise_if_ok in Hv as [H1 Hv]. apply raise_if_ok in Hv as [H2 Hv]. apply raise_if_ok in Hv as [H3 _]. clear Hr.
  repeat (apply elem_of_cons in Ha as [-> | Ha]); [..|by apply elem_of_nil in Ha].
  all: destruct wait as [w|], extend as [x|], text, rows, columns; try (exfalso; vm_compute in H1; discriminate H1); try (by constructor).
  - constructor. change ((w =? 0) = false) in H2. lia.
  - constructor. change ((w =? 0) = false) in H2. lia.
  - constructor. change ((x =? 0) = false) in H3. lia.
Qed.

Lemma session_request_is oid native_id args si : control_arguments args si ->
  session_request oid native_id (si_action si) args =
    [("operation_id", JStr oid); ("session_id", JInt native_id); ("action", JStr (si_action si))] ++ field "wait_ms" (json_int (si_wait_ms si)) ++
    field "extend_by_ms" (json_int (si_extend_by_ms si)) ++ field "text" (json_of (si_text si)) ++ field "rows" (json_int (si_rows si)) ++
    field "columns" (json_int (si_columns si)).
Proof.
  intros [_ [W _] [X _] T [R _] [C _]]. unfold session_request, supplied_arguments, supplied_argument. cbn [mbind list_bind]. rewrite W, X, T, R, C, app_nil_r.
  by destruct (si_wait_ms si), (si_extend_by_ms si), (si_text si), (si_rows si), (si_columns si).
Qed.

Lemma session_accepts w req p native_id action allowed :
  ddel "operation_id" req = p -> jget "session_id" p = JInt native_id -> 1 <= native_id <= Worker.MAX_SESSION ->
  dmem native_id (wk_native_outputs w) = true -> default (JStr "read") (dget "action" p) = JStr action -> session_arguments action = Some allowed ->
  only_keys (["session_id"; "action"] ++ allowed) p = true -> dset "action" (JStr action) p = p ->
  session_action_ok w native_id action p = Ok tt -> session_params w req = Ok p.
Proof.
  intros H1 H2 H3 H4 H5 H6 H7 H8 H9. unfold session_params. rewrite H1, H2, integer_in by done. cbn [rbind]. rewrite H4. cbn [negb rguard rbind].
  rewrite H5, H6, H7. cbn [negb rguard rbind]. by rewrite H8, H9.
Qed.

Lemma jor_int z : jor (JInt z) (JInt 0) = JInt z.
Proof. by destruct z. Qed.

(** The checks of the worker on each control. *)
Lemma deadline_ok w native_id action p delta :
  action = "watch" \/ action = "extend" -> default (JInt 0) (dget "extend_by_ms" p) = JInt delta ->
  (if decide (action = "extend") then 1 else 0) <= delta <= MAX_INT ->
  (action = "watch" -> exists wait, jget "wait_ms" p = JInt wait /\ 1 <= wait <= 300000) ->
  (forall owner, dget (default "" (dget native_id (wk_native_owners w))) (wk_operations w) = Some owner -> op_method owner = "privileged" -> delta = 0) ->
  session_action_ok w native_id action p = Ok tt.
Proof.
  intros Ha Hd Hr Hw Ho. unfold session_action_ok. rewrite decide_True, Hd, integer_in by done. cbn [rbind].
  assert (E : match dget (default "" (dget native_id (wk_native_owners w))) (wk_operations w) with
              | Some owner => rguard (negb (delta =? 0) && bool_decide (op_method owner = "privileged")) (remote "deadline_not_extendable") | None => Ok tt end = Ok tt).
  { destruct (dget _ (wk_operations w)) as [owner|]; [|done]. case_bool_decide as Em; [|by rewrite andb_false_r]. by rewrite (Ho owner). }
  destruct Ha as [-> | ->].
  - destruct (Hw eq_refl) as (wait & -> & Hwait). rewrite decide_True, integer_in by done. cbn [rbind]. by rewrite E.
  - rewrite (decide_False (P := "extend" = "watch")) by done. cbn [rbind]. by rewrite E.
Qed.

(** A control that the tool accepts means the same for a local and a remote session: the
    worker accepts the request of the router, and the native runtimes get the same
    arguments for the session.  The worker refuses one only for a session it does not know, a
    text its protocol does not carry, or a longer deadline of a privileged command. *)
Theorem controls_mean_the_same w oid native_id sid args si :
  parse_session args = Some si -> validate_session si = Ok tt -> si_session_id si = Some sid -> si_action si <> "release" ->
  1 <= native_id <= Worker.MAX_SESSION -> dmem native_id (wk_native_outputs w) = true ->
  (forall t, si_text si = Some t -> text_value (JStr t) true TEXT_LIMIT = Ok t) ->
  (forall owner, dget (default "" (dget native_id (wk_native_owners w))) (wk_operations w) = Some owner ->
     op_method owner = "privileged" -> falsy (si_extend_by_ms si) = true) ->
  exists params arguments,
    session_params w (sent_params (session_request oid native_id (si_action si) args)) = Ok params /\
    worker_control params = Some (NativeCommand (si_action si) (JInt native_id :: arguments)) /\
    local_control sid (si_action si) args = Some (NativeCommand (si_action si) (JInt sid :: arguments)).
Proof.
  intros Hp Hv Hs Hr Hn Hk Ht Ho. apply parse_session_arguments in Hp as Ha. rewrite (session_request_is _ _ _ si) by done.
  pose proof (validated_control si sid (ca_action _ _ Ha) Hs Hv) as Hc. destruct Ha as [_ [W WR] [X XR] T [R RR] [C CR]].
  unfold local_control, or_zero. rewrite W, X, T, R, C. clear Hv Hs W X T R C.
  destruct Hc; cbn [si_action si_wait_ms si_extend_by_ms si_text si_rows si_columns json_int json_of field app] in *.
  - eexists (("session_id", JInt native_id) :: ("action", JStr "read") :: field "wait_ms" (json_int wait)), [JInt (default 0 wait)].
    split; [|destruct wait as [z|]; cbn [json_int]; rewrite ?jor_int; by split].
    eapply session_accepts; try done; destruct wait as [z|]; try reflexivity.
    transitivity (rbind (integer (JInt z) 0 300000) (fun _ => @Ok RemoteError unit tt)); [reflexivity|]. by rewrite integer_in by (by apply WR).
  - eexists [("session_id", JInt native_id); ("action", JStr "write"); ("text", JStr text)], _. split; [|by split].
    eapply session_accepts; try done.
    transitivity (rbind (text_value (JStr text) true TEXT_LIMIT) (fun _ => @Ok RemoteError unit tt)); [reflexivity|]. by rewrite Ht.
  - eexists [("session_id", JInt native_id); ("action", JStr "resize"); ("rows", JInt rows); ("columns", JInt columns)], _. split; [|by split].
    eapply session_accepts; try done.
    transitivity (rbind (integer (JInt rows) 1 65535) (fun _ => rbind (integer (JInt columns) 1 65535) (fun _ => @Ok RemoteError unit tt))); [reflexivity|].
    by rewrite !integer_in by auto.
  - eexists [("session_id", JInt native_id); ("action", JStr "terminate")], _. split; [|by split]. by eapply session_accepts.
  - done.
  - eexists (("session_id", JInt native_id) :: ("action", JStr "watch") :: ("wait_ms", JInt wait) :: field "extend_by_ms" (json_int extend)), [JInt wait; JInt (default 0 extend)].
    split; [|destruct extend as [z|]; cbn [json_int]; rewrite ?jor_int; by split].
    specialize (WR wait eq_refl). eapply session_accepts; try done; try (destruct extend; reflexivity).
    eapply (deadline_ok _ _ _ _ (default 0 extend)); [by left|by destruct extend| | |].
    + rewrite decide_False by done. destruct extend as [z|]; [specialize (XR z eq_refl)|]; cbn; unfold MAX_INT; lia.
    + intros _. exists wait. split; [by destruct extend|lia].
    + intros owner H1 H2. specialize (Ho owner H1 H2). destruct extend as [z|]; cbn in *; lia.
  - eexists [("session_id", JInt native_id); ("action", JStr "extend"); ("extend_by_ms", JInt extend)], _.
    rewrite ?jor_int. split; [|by split].
    specialize (XR extend eq_refl). eapply session_accepts; try done.
    eapply (deadline_ok _ _ _ _ extend); [by right|done|rewrite decide_True by done; unfold MAX_INT; lia|done|].
    intros owner H1 H2. specialize (Ho owner H1 H2). cbn in Ho. lia.
  - eexists [("session_id", JInt native_id); ("action", JStr "unwatch")], _. split; [|by split]. by eapply session_accepts.
Qed.

(** ** The published rule of a command *)

(** The schema of the tool and its validator agree on the input of a command. *)
Theorem run_schema_is_the_contract args ri :
  parse_run args = Some ri -> is_Some (stdin_bytes (json_of (rn_stdin ri))) ->
  (accepts run_schema (JObj args) = true <-> validate_run ri = Ok tt).
Proof.
  intros Hp [b Hb]. unfold parse_run in Hp. destruct (negb _); [done|].
  apply bind_Some in Hp as (cmd & _ & Hp). apply bind_Some in Hp as (stdin & H2 & Hp). apply bind_Some in Hp as (cwd & _ & Hp).
  apply bind_Some in Hp as (tty & H4 & Hp). do 3 (apply bind_Some in Hp as (? & _ & Hp)). injection Hp as <-. cbn [rn_stdin] in Hb.
  unfold validate_run, validate_stdin. cbn [rn_stdin rn_tty]. rewrite Hb. cbn [rbind].
  unfold run_schema.
  assert (Hall : forall s, accepts (JObj [("allOf", JList [s])]) (JObj args) = accepts s (JObj args) && true && true) by reflexivity.
  rewrite Hall, !andb_true_r, accepts_conditional, accepts_object, accepts_properties. cbn [texts omap list_omap forallb fst snd]. rewrite !andb_true_r.
  fold (type_is "string"). rewrite (reference_field_type _ _ _ _ H2). destruct (negb (is_none stdin)); [|done]. cbn [andb].
  unfold property_ok, bool_field in *. destruct (dget "tty" args) as [[| | | | |]|]; try done; injection H4 as <-; [|done]. by destruct b0.
Qed.

(** ** Witnesses *)

Definition script_arguments : obj := [("cmd", JStr "python3 -"); ("stdin", JStr "print(1)"); ("cwd", JStr "~"); ("wait_ms", JNull)].
Definition linux_worker : surroundings :=
  Surroundings false true 0 "" "" 1 1 (fun _ => true) (fun s => "/home" +:+ s) [] "" (fun _ _ _ => false) (fun _ => "") JNull.
Definition plain_config : WorkerConfig := Config "w" "c" "key" "/bin/sh" 1000 4000 64 [] [] "" "" "" "" [].


Definition watch_arguments : obj := [("session_id", JInt 7); ("action", JStr "watch"); ("wait_ms", JInt 2000)].
Definition one_session_worker : Worker := set_native_outputs [(9, "out")] (new_worker "epoch").

Lemma controls_mean_the_same_witness :
  exists params arguments, session_params one_session_worker (sent_params (session_request "op" 9 "watch" watch_arguments)) = Ok params /\
    worker_control params = Some (NativeCommand "watch" (JInt 9 :: arguments)) /\
    local_control 7 "watch" watch_arguments = Some (NativeCommand "watch" (JInt 7 :: arguments)).
Proof.
  apply (controls_mean_the_same one_session_worker "op" 9 7 watch_arguments (mkSessionInput (Some 7) None "watch" (Some 2000) None None None None));
    first [done | vm_compute; reflexivity | unfold Worker.MAX_SESSION; lia].
Defined.

Lemma run_schema_is_the_contract_witness : accepts run_schema (JObj (dset "tty" (JBool true) script_arguments)) = false.
Proof.
  apply not_true_iff_false. intros H.
  apply (run_schema_is_the_contract _ (mkRunInput "python3 -" (Some "print(1)") "~" true None None false)) in H;
    [vm_compute in H; discriminate H|vm_compute; reflexivity|by eexists].
Defined.

(** A null character (Ctrl-@) is typed into a local session and
    refused for a remote one. *)
Example null_character_is_local_only :
  let text := String (Ascii.ascii_of_nat 0) "" in
  let args := [("session_id", JInt 7); ("action", JStr "write"); ("text", JStr text)] in
  (exists si, parse_session args = Some si /\ validate_session si = Ok tt) /\
  local_control 7 "write" args = Some (NativeCommand "write" [JInt 7; JStr text]) /\
  session_params one_session_worker (sent_params (session_request "op" 9 "write" args)) = Raise (remote "invalid_request").
Proof. split_and!; [eexists; split|..]; vm_compute; reflexivity. Qed.
