(* ===== verification/Regex.v ===== *)
(** * Regular expressions

    The part of Python's [re] that the sources use.  An expression is matched by
    backtracking: the ways to match at a place are listed in the order in which [re] tries
    them, and a match is the first of the list.  Patterns have at most one group and match
    no empty text. *)

From S2P Require Import Prelude Dict Utf8.
Open Scope Z_scope.

Inductive regex :=
| RClass (p : Z -> bool)              (* a literal, a set, [.] *)
| REmpty
| RCat (a b : regex)
| RAlt (a b : regex)                  (* [a|b] *)
| RStar (a : regex)                   (* greedy *)
| RGroup (a : regex)                  (* the group of the pattern *)
| RNotAfter (p : Z -> bool).          (* [(?<!p)] *)

(** A way to match: the matched text and the text of the group. *)
Definition found : Type := text * option text.

Definition last_of (before : option Z) (x : text) : option Z := match last x with Some c => Some c | None => before end.

Definition then_found (x y : found) : found := (x.1 ++ y.1, match y.2 with Some g => Some g | None => x.2 end).

(** Repetitions that match something, the longest first. *)
Fixpoint star_matches (step : option Z -> text -> list found) (fuel : nat) (before : option Z) (t : text) : list found :=
  match fuel with
  | O => [([], None)]
  | S fuel =>
      (filter (fun x => x.1 <> []) (step before t) ≫= fun x => then_found x <$> star_matches step fuel (last_of before x.1) (drop (length x.1) t))
      ++ [([], None)]
  end.

(** [before]: the character before the text. *)
Fixpoint matches (r : regex) (before : option Z) (t : text) : list found :=
  match r with
  | RClass p => match t with c :: _ => if p c then [([c], None)] else [] | [] => [] end
  | REmpty => [([], None)]
  | RCat a b => matches a before t ≫= fun x => then_found x <$> matches b (last_of before x.1) (drop (length x.1) t)
  | RAlt a b => matches a before t ++ matches b before t
  | RStar a => star_matches (matches a) (length t) before t
  | RGroup a => (fun x : found => (x.1, Some x.1)) <$> matches a before t
  | RNotAfter p => match before with Some c => if p c then [] else [([], None)] | None => [([], None)] end
  end.

(** [re.sub(r, f, t)], after [skip] more characters of the last match. *)
Fixpoint sub_from (r : regex) (f : found -> text) (skip : nat) (before : option Z) (t : text) : text :=
  match t with
  | [] => []
  | c :: t' =>
      match skip with
      | S skip => sub_from r f skip (Some c) t'
      | O =>
          match matches r before t with
          | (d :: x, g) :: _ => f (d :: x, g) ++ sub_from r f (length x) (Some c) t'
          | _ => c :: sub_from r f 0 (Some c) t'
          end
      end
  end.

Definition re_sub (r : regex) (f : found -> text) (t : text) : text := sub_from r f 0 None t.

(** [re.fullmatch(r, t) is not None] *)
Definition fullmatch (r : regex) (t : text) : bool := existsb (fun x => bool_decide (x.1 = t)) (matches r None t).

(** ** Pieces of patterns *)

Definition optional (r : regex) : regex := RAlt r REmpty.
Definition plus (r : regex) : regex := RCat r (RStar r).
Definition all_of (l : list regex) : regex := foldr RCat REmpty l.
Definition any_of (r : regex) (l : list regex) : regex := foldl RAlt r l.

Definition one_of (l : text) : regex := RClass (fun c => bool_decide (c ∈ l)).

(** A letter without regard to case: the case mappings of Unicode add a few characters to the
    letters of ASCII. *)
Definition same_letter (a c : Z) : bool :=
  (c =? a) || ((97 <=? a) && (a <=? 122) && (c =? a - 32)) ||
  ((a =? 105) && ((c =? 304) || (c =? 305))) || ((a =? 115) && (c =? 383)) || ((a =? 107) && (c =? 8490)).

Definition word (s : string) : regex := all_of ((fun a => RClass (same_letter a)) <$> lit s).
Definition exact (s : string) : regex := all_of ((fun a => RClass (Z.eqb a)) <$> lit s).

(** ** Lemmas *)

(** A match is a beginning of the text. *)
Lemma star_matches_prefix step fuel before t x :
  (forall before t x, x ∈ step before t -> x.1 `prefix_of` t) -> x ∈ star_matches step fuel before t -> x.1 `prefix_of` t.
Proof.
  intros Hs. revert before t x. induction fuel as [|fuel IH]; intros before t x; cbn; [intros ->%list_elem_of_singleton; apply prefix_nil|].
  rewrite elem_of_app. intros [Hx | ->%list_elem_of_singleton]; [|apply prefix_nil].
  apply list_elem_of_bind in Hx as (y & Hx & [_ Hy]%list_elem_of_filter). apply list_elem_of_fmap in Hx as (z & -> & Hz).
  apply Hs in Hy. apply IH in Hz. destruct Hy as [u ->]. rewrite drop_app_length in Hz. cbn. by apply prefix_app.
Qed.

Lemma matches_prefix r before t x : x ∈ matches r before t -> x.1 `prefix_of` t.
Proof.
  revert before t x. induction r as [p| |a IHa b IHb|a IHa b IHb|a IHa|a IHa|p]; intros before t x; cbn.
  - destruct t as [|c t]; [by intros ?%elem_of_nil|]. destruct (p c); [|by intros ?%elem_of_nil].
    intros ->%list_elem_of_singleton. cbn. apply prefix_cons, prefix_nil.
  - intros ->%list_elem_of_singleton. apply prefix_nil.
  - intros Hx. apply list_elem_of_bind in Hx as (y & Hx & Hy). apply list_elem_of_fmap in Hx as (z & -> & Hz).
    apply IHa in Hy. apply IHb in Hz. destruct Hy as [u ->]. rewrite drop_app_length in Hz. cbn. by apply prefix_app.
  - rewrite elem_of_app. intros [Hx | Hx]; eauto.
  - intros Hx. by eapply star_matches_prefix.
  - intros Hx. apply list_elem_of_fmap in Hx as (y & -> & Hy). by apply IHa in Hy.
  - intros Hx. assert (x = ([], None)) as ->; [|apply prefix_nil]. destruct before as [c|]; [destruct (p c)|]; set_solver.
Qed.
