(* ===== verification/Diagnostics.v ===== *)
(** * Redacted diagnostics

    [_file_core/diagnostics.py]: the redaction of credentials in the texts that reach a
    model or a log, and the summary of tracebacks.  Exceptions are given by their type, their
    text and their cause. *)

From S2P Require Import Prelude Dict Utf8 JsonText JsonParse TextLines Privileged Regex.
Open Scope Z_scope.

(** ** The patterns *)

Definition blank : regex := RClass text_space.
(** [[^\s...]] *)
Definition other_than (l : text) : regex := RClass (fun c => negb (text_space c) && negb (bool_decide (c ∈ l))).
(** [[^...]] *)
Definition none_of (l : text) : regex := RClass (fun c => negb (bool_decide (c ∈ l))).
(** [.] *)
Definition any_char : regex := RClass (fun c => negb (c =? 10)).

Definition QUOTE : Z := 34.
Definition APOSTROPHE : Z := 39.
Definition BACKSLASH : Z := 92.

(** A string literal that does not follow a backslash. *)
Definition json_literal : regex :=
  all_of [RNotAfter (Z.eqb BACKSLASH); one_of [QUOTE]; RStar (RAlt (none_of [QUOTE; BACKSLASH]) (RCat (one_of [BACKSLASH]) any_char)); one_of [QUOTE]].

(** [(?i)(bearer\s+)[^\s,;]+] *)
Definition bearer : regex := RCat (RGroup (RCat (word "bearer") (plus blank))) (plus (other_than (lit ",;"))).

(** [(?:password|passwd|(?:access|refresh|auth)[_-]?token|token|api[_-]?key|secret)] *)
Definition separator : regex := optional (one_of (lit "_-")).
Definition key_names : list regex :=
  [word "password"; word "passwd";
   RCat (any_of (word "access") [word "refresh"; word "auth"]) (RCat separator (word "token"));
   word "token"; RCat (word "api") (RCat separator (word "key")); word "secret"].
Definition credential_name : regex := any_of (word "password") (tail key_names).

Definition quoted (q : Z) : regex := all_of [one_of [q]; RStar (RAlt (RCat (one_of [BACKSLASH]) any_char) (none_of [q; BACKSLASH])); one_of [q]].

Definition assignment : regex :=
  all_of [optional (one_of [QUOTE; APOSTROPHE]); credential_name; optional (one_of [QUOTE; APOSTROPHE]); RStar blank; one_of (lit "=:"); RStar blank].
Definition secret_value : regex := any_of (quoted QUOTE) [quoted APOSTROPHE; word "[redacted]"; plus (other_than (lit ",;}]"))].
Definition credential : regex := RCat (RGroup assignment) secret_value.

(** [(?<![a-zA-Z0-9+.-])([a-zA-Z][a-zA-Z0-9+.-]*://)[^/@\s]+:[^/@\s]+@] *)
Definition letter (c : Z) : bool := ((97 <=? c) && (c <=? 122)) || ((65 <=? c) && (c <=? 90)).
Definition scheme_char (c : Z) : bool := letter c || ((48 <=? c) && (c <=? 57)) || bool_decide (c ∈ lit "+.-").
Definition userinfo : regex :=
  RCat (RNotAfter scheme_char)
    (RCat (RGroup (all_of [RClass letter; RStar (RClass scheme_char); exact "://"]))
       (all_of [plus (other_than (lit "/@")); exact ":"; plus (other_than (lit "/@")); exact "@"])).

(** [re.fullmatch(..., str(key), re.IGNORECASE)] of [diagnostic_value]. *)
Definition authorization : regex := RCat (optional (RCat (word "proxy") separator)) (word "authorization").
Definition credential_key (key : text) : bool := fullmatch (RAlt credential_name authorization) key.

(** ** [diagnostic_text] *)

Definition REDACTED : text := lit "[redacted]".
Definition group_of (x : found) : text := default [] x.2.

Definition hide_bearer (t : text) : text := re_sub bearer (fun x => group_of x ++ REDACTED) t.
Definition hide_credentials (t : text) : text := re_sub credential (fun x => group_of x ++ REDACTED) t.
Definition hide_userinfo (t : text) : text := re_sub userinfo (fun x => group_of x ++ REDACTED ++ lit "@") t.
Definition hide_plain (t : text) : text := hide_userinfo (hide_credentials (hide_bearer t)).

(** [json.loads] of a string literal, after its opening quote; half of a surrogate pair stands
    for itself. *)
Definition scan_unicode (t : text) : option (Z * text) :=
  match parse_hex4 t with
  | Some (u, t) =>
      if (55296 <=? u) && (u <=? 56319) then
        match t with
        | b :: k :: t' =>
            if (b =? BACKSLASH) && (k =? 117) then
              match parse_hex4 t' with
              | Some (l, t'') => if (56320 <=? l) && (l <=? 57343) then Some (65536 + (u - 55296) * 1024 + (l - 56320), t'') else Some (u, t)
              | None => None
              end
            else Some (u, t)
        | _ => Some (u, t)
        end
      else Some (u, t)
  | None => None
  end.

Fixpoint scan_string (fuel : nat) (t : text) : option (text * text) :=
  match fuel, t with
  | S fuel, c :: t =>
      if c =? QUOTE then Some ([], t)
      else if c =? BACKSLASH then
        match t with
        | k :: t' =>
            match (if k =? 117 then scan_unicode t' else (fun c => (c, t')) <$> escaped k) with
            | Some (c, t) => match scan_string fuel t with Some (s, t) => Some (c :: s, t) | None => None end
            | None => None
            end
        | [] => None
        end
      else if c <? 32 then None
      else match scan_string fuel t with Some (s, t) => Some (c :: s, t) | None => None end
  | _, _ => None
  end.

Definition loads_string (encoded : text) : option text :=
  match encoded with
  | c :: t => if c =? QUOTE then match scan_string (length t) t with Some (s, []) => Some s | _ => None end else None
  | [] => None
  end.

Definition dumps_string (t : text) : text := [QUOTE] ++ (t ≫= json_char_plain) ++ [QUOTE].

(** [redact_escaped_string] *)
Definition redact_escaped_string (redact : text -> text) (x : found) : text :=
  let encoded := x.1 in
  if bool_decide (BACKSLASH ∉ encoded) then encoded
  else
    match loads_string encoded with
    | None => encoded
    | Some decoded => if decide (redact decoded = decoded) then encoded else dumps_string (redact decoded)
    end.

Definition hide_escaped (redact : text -> text) (t : text) : text :=
  if bool_decide (BACKSLASH ∈ t) then re_sub json_literal (redact_escaped_string redact) t else t.

(** Without a limit; a decoded text is shorter than its literal. *)
Fixpoint redact (fuel : nat) (t : text) : text :=
  match fuel with O => t | S fuel => hide_plain (hide_escaped (redact fuel) t) end.

Definition full_text (t : text) : text := redact (S (length t)) t.

(** The last [n] characters. *)
Definition text_tail (n : nat) (t : text) : text := drop (length t - n) t.

Definition TAIL_MARK : text := lit "[diagnostic tail] " ++ [8230; 32].
Definition CUT_MARK : text := [32; 8230] ++ lit " [diagnostic truncated]".

Definition diagnostic_text (t : text) (limit : option nat) (tail : bool) : text :=
  let text := full_text t in
  match limit with
  | None => text
  | Some limit =>
      if bool_decide (length text <= limit)%nat then text
      else if tail then TAIL_MARK ++ (if decide (limit = 0%nat) then text else text_tail limit text)
      else take limit text ++ CUT_MARK
  end.

(** ** [diagnostic_value] *)

(** Values as they are logged; a number stands for every scalar. *)
Inductive value :=
| VNull
| VBool (b : bool)
| VNumber (z : Z)
| VText (t : text)
| VList (l : list value)
| VMap (d : list (text * value)).

(** The beginning of a line that draws the tree of an exception group. *)
Definition gutter : regex := all_of [RStar (exact " "); exact "|"; optional (exact " ")].
Definition branch : regex := all_of [RStar (exact " "); exact "+-"; RStar (one_of (lit "-+ 0123456789"))].
Definition without_gutter (line : text) : text := match matches gutter None line with x :: _ => drop (length x.1) line | [] => line end.

(** [splitlines] of Python drops the line ends. *)
Definition line_text (line : text) : text :=
  match reverse line with
  | 10 :: 13 :: l => reverse l
  | c :: l => if boundary c then reverse l else line
  | [] => []
  end.
Definition text_lines (t : text) : list text := line_text <$> splitlines t.

Fixpoint starts_with (p t : text) : bool :=
  match p, t with [], _ => true | a :: p, c :: t => (a =? c) && starts_with p t | _ :: _, [] => false end.

Definition GROUP_HEADER : text := lit "+ Exception Group Traceback (most recent call last):".
Definition HEADER : text := lit "Traceback (most recent call last):".
Definition FRAME : text := lit "  File " ++ [QUOTE].
Definition LINKS : list text :=
  [lit "The above exception was the direct cause of the following exception:"; lit "During handling of the above exception, another exception occurred:"].

(** One line of the loop of [diagnostic_summary]: the flags, and whether the line is kept. *)
Definition summary_line (group : bool) (line : text) (in_traceback in_frame : bool) : bool * bool * option text :=
  let line := if group then without_gutter line else line in
  if group && fullmatch branch line then (in_traceback, in_frame, None)
  else if bool_decide (strip_text line = GROUP_HEADER) then (true, false, None)
  else if bool_decide (line = HEADER) then (true, false, None)
  else if in_traceback && starts_with FRAME line then (in_traceback, true, None)
  else if in_frame && starts_with (lit "    ") line then (in_traceback, in_frame, None)
  else (in_traceback, false, if bool_decide (line ∈ LINKS) then None else Some line).

Fixpoint summary_lines (group : bool) (in_traceback in_frame : bool) (l : list text) : list text :=
  match l with
  | [] => []
  | line :: l =>
      let '(in_traceback, in_frame, kept) := summary_line group line in_traceback in_frame in
      match kept with Some line => line :: summary_lines group in_traceback in_frame l | None => summary_lines group in_traceback in_frame l end
  end.

Fixpoint join_lines (l : list text) : text :=
  match l with [] => [] | [line] => line | line :: l => line ++ [10] ++ join_lines l end.

Definition diagnostic_summary (t : text) : text :=
  let lines := text_lines t in
  full_text (strip_text (join_lines (summary_lines (existsb (fullmatch branch) lines) false false lines))).

(** The scalars keep their values. *)
Fixpoint diagnostic_value (summarize : bool) (v : value) : value :=
  match v with
  | VMap d => VMap ((fix entries (d : list (text * value)) : list (text * value) :=
      match d with
      | [] => []
      | (k, item) :: d => (k, if credential_key k then VText REDACTED else diagnostic_value summarize item) :: entries d
      end) d)
  | VList l => VList ((fix items (l : list value) : list value := match l with [] => [] | item :: l => diagnostic_value summarize item :: items l end) l)
  | VText t => VText (if summarize then diagnostic_summary t else full_text t)
  | v => v
  end.

(** ** Exceptions *)

(** An exception with its identity, its type, its text, and the exceptions it came from. *)
Record exception := Exception {
  ex_type : text;
  ex_text : text;
  ex_lines : text;                    (* [traceback.format_exception_only], without the last line end *)
  ex_cause : option nat;
  ex_context : option nat;            (* [None] also when it is suppressed *)
  ex_children : list nat              (* of an exception group *)
}.

Section exceptions.
Variable exceptions : nat -> exception.

(** The chain of [exception_diagnostic]: at most three causes. *)
Fixpoint cause_chain (n : nat) (seen : list nat) (id : option nat) : list text :=
  match n, id with
  | S n, Some id =>
      if bool_decide (id ∈ seen) then []
      else (ex_type (exceptions id) ++ lit ": " ++ ex_text (exceptions id)) :: cause_chain n (id :: seen) (ex_cause (exceptions id))
  | _, _ => []
  end.

Fixpoint join_causes (l : list text) : text :=
  match l with [] => [] | [part] => part | part :: l => part ++ lit "; caused by " ++ join_causes l end.

Definition exception_diagnostic (id : nat) : text := diagnostic_text (join_causes (cause_chain 3 [] (Some id))) (Some 2000%nat) false.

(** [render] of [exception_summary], with the identities that were seen. *)
Definition cause_of (e : exception) : option nat := match ex_cause e with Some id => Some id | None => ex_context e end.

Fixpoint render (fuel : nat) (id : nat) (seen : list nat) : list text * list nat :=
  match fuel with
  | O => ([], seen)
  | S fuel =>
      if bool_decide (id ∈ seen) then ([], seen)
      else
        let e := exceptions id in
        let '(causes, seen) := match cause_of e with Some c => render fuel c (id :: seen) | None => ([], id :: seen) end in
        let '(children, seen) := foldl (fun acc c => let '(lines, seen) := render fuel c acc.2 in (acc.1 ++ lines, seen)) ([], seen) (ex_children e) in
        ([ex_lines e] ++ (((fun line => lit "Caused by: " ++ line) <$> causes) ++ children), seen)
  end.
End exceptions.

(** Among [n] exceptions. *)
Definition exception_summary (exceptions : nat -> exception) (n : nat) (id : nat) : text :=
  full_text (join_lines (render exceptions (S n) id []).1).

(** [exception_report], of the text that [traceback] makes of an exception. *)
Definition exception_report (report : text) : text := full_text (reverse (lstrip (reverse report))).
