(* ===== verification/DiagnosticSafety.v ===== *)
(** * What redaction hides

    The properties of [Diagnostics]: a text does not depend on the secrets that the patterns
    recognize, and every function ends. *)

From S2P Require Import Prelude Dict Utf8 JsonText JsonParse TextLines Privileged Regex Diagnostics.
Open Scope Z_scope.

(** ** The recursion ends *)

Lemma sub_from_ext r f g skip before t :
  (forall x, (length x.1 <= length t)%nat -> f x = g x) -> sub_from r f skip before t = sub_from r g skip before t.
Proof.
  revert skip before. induction t as [|c t IH]; intros skip before H; [done|]. assert (H' : forall x : found, (length x.1 <= length t)%nat -> f x = g x) by (intros x Hx; apply H; cbn; lia).
  cbn [sub_from]. destruct skip as [|skip]; [|by apply IH]. destruct (matches r before (c :: t)) as [|[[|d x] h] l] eqn:E; [by rewrite IH..|].
  rewrite IH by done. rewrite H; [done|]. apply (prefix_length (d :: x) (c :: t)). apply (matches_prefix r before (c :: t) (d :: x, h)). rewrite E. left.
Qed.

Lemma parse_hex4_length t u rest : parse_hex4 t = Some (u, rest) -> (length rest < length t)%nat.
Proof.
  unfold parse_hex4. destruct t as [|a [|b [|c [|d t]]]]; try done. repeat (destruct (hex_value _); [|done]). intros [= _ <-]. cbn. lia.
Qed.

Lemma scan_unicode_length t u rest : scan_unicode t = Some (u, rest) -> (length rest < length t)%nat.
Proof.
  unfold scan_unicode. destruct (parse_hex4 t) as [[v t1]|] eqn:E; [|done]. apply parse_hex4_length in E.
  destruct (_ && _); [|intros [= _ <-]; lia]. destruct t1 as [|b [|k t2]]; [intros [= _ <-]; lia..|].
  destruct (_ && _); [|intros [= _ <-]; lia]. destruct (parse_hex4 t2) as [[l t3]|] eqn:E2; [|done]. apply parse_hex4_length in E2. cbn in *.
  destruct (_ && _); intros [= _ <-]; cbn; lia.
Qed.

Lemma scan_string_length fuel t s rest : scan_string fuel t = Some (s, rest) -> (length s + length rest < length t)%nat.
Proof.
  revert t s rest. induction fuel as [|fuel IH]; intros t s rest; [done|]. cbn [scan_string]. destruct t as [|c t]; [done|].
  destruct (c =? QUOTE); [intros [= <- <-]; cbn; lia|]. destruct (c =? BACKSLASH).
  - destruct t as [|k t]; [done|]. destruct (if k =? 117 then _ else _) as [[d t1]|] eqn:E; [|done].
    assert (Hl : (length t1 <= length t)%nat).
    { destruct (k =? 117); [apply scan_unicode_length in E; lia|]. destruct (escaped k); [|done]. by injection E as _ <-. }
    destruct (scan_string fuel t1) as [[x y]|] eqn:E2; [|done]. apply IH in E2. intros [= <- <-]. cbn. lia.
  - destruct (c <? 32); [done|]. destruct (scan_string fuel t) as [[x y]|] eqn:E2; [|done]. apply IH in E2. intros [= <- <-]. cbn. lia.
Qed.

Lemma loads_string_length encoded t : loads_string encoded = Some t -> (length t + 2 <= length encoded)%nat.
Proof.
  unfold loads_string. destruct encoded as [|c e]; [done|]. destruct (c =? QUOTE); [|done].
  destruct (scan_string (length e) e) as [[s [|]]|] eqn:E; [|done..]. intros [= <-]. apply scan_string_length in E. cbn in *. lia.
Qed.

Lemma hide_escaped_ext f g t : (forall x, (length x < length t)%nat -> f x = g x) -> hide_escaped f t = hide_escaped g t.
Proof.
  intros H. unfold hide_escaped. destruct (bool_decide _); [|done]. apply sub_from_ext. intros x Hx. unfold redact_escaped_string.
  destruct (bool_decide _); [done|]. destruct (loads_string x.1) as [d|] eqn:E; [|done]. apply loads_string_length in E. by rewrite (H d) by lia.
Qed.

Lemma redact_enough n m t : (length t < n)%nat -> (length t < m)%nat -> redact n t = redact m t.
Proof.
  revert m t. induction n as [|n IH]; intros m t Hn Hm; [lia|]. destruct m as [|m]; [lia|]. cbn [redact]. f_equal.
  apply hide_escaped_ext. intros x Hx. apply IH; lia.
Qed.

(** [diagnostic_text] as it is written. *)
Lemma full_text_eq t : full_text t = hide_plain (hide_escaped full_text t).
Proof.
  unfold full_text at 1. cbn [redact]. f_equal. apply hide_escaped_ext. intros x Hx. apply redact_enough; lia.
Qed.

(** ** The first way to match *)

Definition heads (r : regex) (before : option Z) (t : text) (x : found) : Prop := exists l, matches r before t = x :: l.

Lemma heads_class p before c t : p c = true -> heads (RClass p) before (c :: t) ([c], None).
Proof. intros H. exists []. cbn. by rewrite H. Qed.

Lemma heads_cat a b before t u x y :
  heads a before (t ++ u) x -> x.1 = t -> heads b (last_of before t) u y -> heads (RCat a b) before (t ++ u) (then_found x y).
Proof.
  intros [l Ha] Hx [k Hb]. unfold heads. cbn [matches]. rewrite Ha, bind_cons, Hx, drop_app_length, Hb, fmap_cons. by eexists.
Qed.

Lemma heads_alt_left a b before t x : heads a before t x -> heads (RAlt a b) before t x.
Proof. intros [l H]. unfold heads. cbn [matches]. rewrite H. by eexists. Qed.

Lemma heads_alt_right a b before t x : matches a before t = [] -> heads b before t x -> heads (RAlt a b) before t x.
Proof. intros H [l Hb]. unfold heads. cbn [matches]. rewrite H, Hb. by eexists. Qed.

Lemma heads_group a before t x : heads a before t x -> heads (RGroup a) before t (x.1, Some x.1).
Proof. intros [l H]. unfold heads. cbn [matches]. rewrite H, fmap_cons. by eexists. Qed.

(** A repetition takes every character it can. *)
Lemma heads_star a before x rest :
  (forall before c u v, x = u ++ c :: v -> matches a before (c :: v ++ rest) = [([c], None)]) ->
  (forall before, filter (fun y => y.1 <> []) (matches a before rest) = []) -> heads (RStar a) before (x ++ rest) (x, None).
Proof.
  intros Hx Hr. unfold heads. cbn [matches]. rewrite length_app. revert Hx. generalize (length rest). intros n.
  revert before. induction x as [|c x IH]; intros before Hx.
  - cbn. destruct n as [|n]; cbn; [by eexists|]. rewrite Hr. by eexists.
  - cbn [length Nat.add star_matches app]. rewrite (Hx before c [] x) by done. rewrite filter_cons_True by done. rewrite bind_cons. cbn [fst length drop].
    destruct (IH (last_of before [c])) as [l Hl]; [intros b d u v ->; by apply (Hx b d (c :: u))|].
    rewrite drop_0, Hl, fmap_cons. by eexists.
Qed.

Lemma heads_star_class p before x rest :
  Forall (fun c => p c = true) x -> match rest with [] => True | c :: _ => p c = false end -> heads (RStar (RClass p)) before (x ++ rest) (x, None).
Proof.
  intros Hx Hr. apply heads_star.
  - intros b c u v ->. cbn. apply Forall_app in Hx as [_ Hx]. apply Forall_cons in Hx as [-> _]. done.
  - intros b. destruct rest as [|c rest]; [done|]. cbn. by rewrite Hr.
Qed.

Lemma heads_plus_class p before x rest :
  x <> [] -> Forall (fun c => p c = true) x -> match rest with [] => True | c :: _ => p c = false end -> heads (plus (RClass p)) before (x ++ rest) (x, None).
Proof.
  intros Hn Hx Hr. destruct x as [|c x]; [done|]. apply Forall_cons in Hx as [Hc Hx].
  apply (heads_cat _ _ _ [c] (x ++ rest) ([c], None) (x, None)); [by apply heads_class|done|]. by apply heads_star_class.
Qed.

(** ** Words *)

(** The text begins with the word, in any case. *)
Fixpoint spells (w t : text) : bool :=
  match w, t with
  | [], _ => true
  | a :: w, c :: t => same_letter a c && spells w t
  | _ :: _, [] => false
  end.

Lemma word_matches w before t :
  matches (all_of ((fun a => RClass (same_letter a)) <$> w)) before t = if spells w t then [(take (length w) t, None)] else [].
Proof.
  revert before t. induction w as [|a w IH]; intros before t; [done|]. rewrite fmap_cons. cbn [all_of foldr matches].
  destruct t as [|c t]; [done|]. cbn [spells]. destruct (same_letter a c); [|done]. cbn [andb]. rewrite bind_cons, app_nil_r. cbn [fst length]. rewrite skipn_cons, drop_0.
  fold (all_of ((fun a => RClass (same_letter a)) <$> w)). rewrite IH. by destruct (spells w t).
Qed.

Lemma spells_app w u v : (length w <= length u)%nat -> spells w (u ++ v) = spells w u.
Proof.
  revert u. induction w as [|a w IH]; intros u H; [done|]. destruct u as [|c u]; [cbn in H; lia|]. cbn in *. by rewrite IH by lia.
Qed.

Lemma spells_take w t : spells w t = true -> length (take (length w) t) = length w.
Proof.
  revert t. induction w as [|a w IH]; intros t H; [done|]. destruct t as [|c t]; [done|]. cbn in *. bool_to_prop. f_equal. by apply IH.
Qed.

(** The word is nowhere in the text. *)
Definition without (w t : text) : Prop := forall u v, t = u ++ v -> spells w v = false.

Lemma without_app_r w u v : without w (u ++ v) -> without w v.
Proof. intros H x y ->. apply (H (u ++ x) y). by rewrite app_assoc. Qed.

(** ** Patterns that do not look back *)

Fixpoint forward (r : regex) : bool :=
  match r with
  | RClass _ | REmpty => true
  | RCat a b | RAlt a b => forward a && forward b
  | RStar a | RGroup a => forward a
  | RNotAfter _ => false
  end.

Lemma forward_matches r b b' t : forward r = true -> matches r b t = matches r b' t.
Proof.
  revert b b' t. induction r as [p| |a IHa c IHc|a IHa c IHc|a IHa|a IHa|p]; intros b b' t H; cbn [forward] in H; bool_to_prop; try done.
  - cbn [matches]. rewrite (IHa b b') by done. apply list_bind_ext; [|done]. intros x. f_equal. by apply IHc.
  - cbn [matches]. by rewrite (IHa b b'), (IHc b b').
  - cbn [matches]. generalize (length t). intros n. revert b b' t. induction n as [|n IH]; intros b b' t; [done|]. cbn [star_matches].
    f_equal. rewrite (IHa b b') by done. apply list_bind_ext; [|done]. intros x. f_equal. apply IH.
  - cbn [matches]. by rewrite (IHa b b').
Qed.

Lemma forward_sub r f skip b b' t : forward r = true -> sub_from r f skip b t = sub_from r f skip b' t.
Proof.
  intros H. destruct t as [|c t]; [done|]. cbn [sub_from]. destruct skip; [|done]. by rewrite (forward_matches r b b').
Qed.

(** ** Substitution *)

(** Nothing is found: the text stays. *)
Lemma sub_from_quiet r f before t rest :
  forward r = true -> (forall u v, t = u ++ v -> v <> [] -> forall b, matches r b (v ++ rest) = []) ->
  sub_from r f 0 before (t ++ rest) = t ++ sub_from r f 0 before rest.
Proof.
  intros Hf. revert before. induction t as [|c t IH]; intros before H; [done|]. cbn [app sub_from].
  pose proof (H [] (c :: t) eq_refl ltac:(done) before) as H0. cbn [app] in H0. rewrite H0. f_equal.
  rewrite IH; [f_equal; by apply forward_sub|]. intros u v -> Hv b. by apply (H (c :: u)).
Qed.

Lemma sub_from_skip r f before x rest : forward r = true -> sub_from r f (length x) before (x ++ rest) = sub_from r f 0 before rest.
Proof. intros Hf. revert before. induction x as [|c x IH]; intros before; [done|]. cbn [length app sub_from]. rewrite IH. by apply forward_sub. Qed.

(** The first match is replaced, and the rest does not depend on it. *)
Lemma sub_from_found r f before x g rest :
  forward r = true -> x <> [] -> heads r before (x ++ rest) (x, g) -> sub_from r f 0 before (x ++ rest) = f (x, g) ++ sub_from r f 0 None rest.
Proof.
  intros Hf Hn [l H]. destruct x as [|c x]; [done|]. cbn [app] in *. cbn [sub_from]. rewrite H. f_equal. rewrite sub_from_skip by done. by apply forward_sub.
Qed.

(** ** Bearer tokens *)

Definition BEARER : text := lit "bearer".
Definition token_char (c : Z) : bool := negb (text_space c) && negb (bool_decide (c ∈ lit ",;")).

Lemma bearer_none before t : spells BEARER t = false -> matches bearer before t = [].
Proof. intros H. unfold bearer. cbn [matches]. unfold word. fold BEARER. by rewrite word_matches, H. Qed.

(** [rest] ends a run of such characters. *)
Definition ends (p : Z -> bool) (rest : text) : Prop := match rest with [] => True | c :: _ => p c = false end.

Lemma bearer_found before b sp tok rest :
  spells BEARER b = true -> length b = 6%nat -> sp <> [] -> Forall (fun c => text_space c = true) sp ->
  tok <> [] -> Forall (fun c => token_char c = true) tok -> ends token_char rest ->
  heads bearer before ((b ++ sp ++ tok) ++ rest) (b ++ sp ++ tok, Some (b ++ sp)).
Proof.
  intros Hb Hl Hsp Hs Htok Ht Hr. rewrite <- !app_assoc. rewrite (app_assoc b sp (tok ++ rest)).
  assert (Hg : heads (RGroup (RCat (word "bearer") (plus blank))) before ((b ++ sp) ++ tok ++ rest) (b ++ sp, Some (b ++ sp))).
  { apply (heads_group _ _ _ (b ++ sp, None)). rewrite <- app_assoc. apply (heads_cat _ _ _ b (sp ++ tok ++ rest) (b, None) (sp, None)); [|done|].
    - unfold heads, word. fold BEARER. rewrite word_matches, spells_app, Hb by (by rewrite Hl). change (length BEARER) with 6%nat. rewrite take_app_le, take_ge by lia. by eexists.
    - apply heads_plus_class; [done|done|]. destruct tok as [|c tok]; [done|]. apply Forall_cons in Ht as [Hc _]. cbn. unfold token_char in Hc. by bool_to_prop. }
  pose proof (heads_cat _ (plus (other_than (lit ",;"))) before (b ++ sp) (tok ++ rest) _ (tok, None) Hg eq_refl) as H.
  unfold then_found in H. cbn [fst snd] in H. rewrite (app_assoc b sp tok). apply H. by apply heads_plus_class.
Qed.

(** A token of its own word begins nowhere earlier. *)
Lemma bearer_apart pre b z u v : without BEARER pre -> spells BEARER b = true -> pre = u ++ v -> v <> [] -> spells BEARER (v ++ b ++ z) = false.
Proof.
  intros Hw Hb Hu Hv. destruct (decide (6 <= length v)%nat) as [Hl | Hl]; [rewrite spells_app by done; by apply (Hw u)|].
  destruct b as [|d b]; [done|]. assert (Hd : same_letter 98 d = true) by (cbn [spells BEARER] in Hb; change BEARER with [98; 101; 97; 114; 101; 114] in Hb; cbn [spells] in Hb; by bool_to_prop).
  assert (Hd' : d = 98 \/ d = 66) by (unfold same_letter in Hd; cbn -[Z.eqb] in Hd; rewrite !orb_false_r in Hd; apply orb_true_iff in Hd; lia).
  change BEARER with [98; 101; 97; 114; 101; 114]. clear Hb Hd Hw Hu.
  destruct v as [|c1 [|c2 [|c3 [|c4 [|c5 [|c6 v]]]]]]; [done|..|cbn in Hl; lia]; cbn [app spells]; destruct Hd' as [-> | ->];
    change (same_letter 101 98) with false; change (same_letter 97 98) with false; change (same_letter 114 98) with false;
    change (same_letter 101 66) with false; change (same_letter 97 66) with false; change (same_letter 114 66) with false; cbn [andb]; by rewrite ?andb_false_r.
Qed.

Lemma hide_bearer_found pre b sp tok rest :
  without BEARER pre -> spells BEARER b = true -> length b = 6%nat -> sp <> [] -> Forall (fun c => text_space c = true) sp ->
  tok <> [] -> Forall (fun c => token_char c = true) tok -> ends token_char rest ->
  hide_bearer (pre ++ b ++ sp ++ tok ++ rest) = pre ++ ((b ++ sp) ++ REDACTED) ++ hide_bearer rest.
Proof.
  intros Hw Hb Hl Hsp Hs Htok Ht Hr. unfold hide_bearer, re_sub. rewrite sub_from_quiet; [|done|].
  - f_equal. assert (E : b ++ sp ++ tok ++ rest = (b ++ sp ++ tok) ++ rest) by (by rewrite <- !app_assoc).
    rewrite E, (sub_from_found bearer _ None (b ++ sp ++ tok) (Some (b ++ sp)) rest); [reflexivity|reflexivity|by destruct b|by apply bearer_found].
  - intros u v Hu Hv c. apply bearer_none. by apply (bearer_apart pre b _ u v).
Qed.

(** Without a backslash only the plain patterns apply. *)
Lemma full_text_plain t : BACKSLASH ∉ t -> full_text t = hide_plain t.
Proof. intros H. rewrite full_text_eq. unfold hide_escaped. by rewrite bool_decide_eq_false_2. Qed.

(** ** Credentials *)

(** The names the pattern knows. *)
Definition NAMES : list text :=
  lit <$> ["password"; "passwd"; "token"; "secret"; "access_token"; "access-token"; "accesstoken"; "refresh_token"; "refresh-token"; "refreshtoken";
           "auth_token"; "auth-token"; "authtoken"; "api_key"; "api-key"; "apikey"].

Lemma name_found key before z : key ∈ NAMES -> heads credential_name before (key ++ z) (key, None).
Proof.
  intros H. unfold NAMES in H. cbn [fmap list_fmap] in H.
  repeat (apply elem_of_cons in H as [-> | H]); [..|by apply elem_of_nil in H]; eexists; reflexivity.
Qed.

Lemma heads_cons a l before x z y :
  heads a before (x ++ z) (x, None) -> heads (all_of l) (last_of before x) z (y, None) -> heads (all_of (a :: l)) before (x ++ z) (x ++ y, None).
Proof. intros Ha Hl. exact (heads_cat a (all_of l) before x z (x, None) (y, None) Ha eq_refl Hl). Qed.

Lemma heads_done before z : heads (all_of []) before z ([], None).
Proof. by eexists. Qed.

Definition quote_mark (c : Z) : bool := bool_decide (c ∈ [QUOTE; APOSTROPHE]).

Lemma quote_found o before z : o = [] \/ (exists q, o = [q] /\ quote_mark q = true) -> (o = [] -> ends quote_mark z) ->
  heads (optional (one_of [QUOTE; APOSTROPHE])) before (o ++ z) (o, None).
Proof.
  intros [-> | (q & -> & Hq)] Hz; [|by apply heads_alt_left, heads_class]. apply heads_alt_right; [|by eexists].
  specialize (Hz eq_refl). destruct z as [|c z]; [done|]. cbn in Hz |- *. unfold quote_mark in Hz. by rewrite Hz.
Qed.

(** What stands before a secret. *)
Record assigns (g key : text) : Prop := {
  as_name : key ∈ NAMES;
  as_parts : exists o o' sp e sp', g = o ++ key ++ o' ++ sp ++ [e] ++ sp' /\ (e = 61 \/ e = 58) /\
    Forall (fun c => text_space c = true) sp /\ Forall (fun c => text_space c = true) sp' /\
    (o = [] \/ exists q, o = [q] /\ quote_mark q = true) /\ (o' = [] \/ exists q, o' = [q] /\ quote_mark q = true)
}.

Lemma space_no_quote c : text_space c = true -> quote_mark c = false.
Proof.
  intros H. apply bool_decide_eq_false_2. intros Hc. repeat (apply elem_of_cons in Hc as [-> | Hc]); [vm_compute in H; discriminate H..|by apply elem_of_nil in Hc].
Qed.

Lemma assignment_found g key before z : assigns g key -> ends text_space z -> heads assignment before (g ++ z) (g, None).
Proof.
  intros [Hk (o & o' & sp & e & sp' & -> & He & Hsp & Hsp' & Ho & Ho')] Hz. unfold assignment.
  assert (E : (o ++ key ++ o' ++ sp ++ [e] ++ sp') ++ z = o ++ key ++ o' ++ sp ++ [e] ++ sp' ++ z) by (by rewrite <- !app_assoc). rewrite E.
  assert (Hn : exists c k, key = c :: k /\ quote_mark c = false).
  { unfold NAMES in Hk. cbn [fmap list_fmap] in Hk. repeat (apply elem_of_cons in Hk as [-> | Hk]); [..|by apply elem_of_nil in Hk]; eexists _, _; split; reflexivity. }
  destruct Hn as (c & k & Ek & Hc). apply heads_cons; [apply quote_found; [done|]; intros _; by rewrite Ek|].
  apply heads_cons; [by apply name_found|]. apply heads_cons.
  { apply quote_found; [done|]. intros _. destruct Hsp as [|x sp Hx Hsp]; [by destruct He as [-> | ->]|]. cbn. by apply space_no_quote. }
  apply heads_cons. { apply heads_star_class; [done|]. by destruct He as [-> | ->]. }
  apply heads_cons. { apply heads_class. by destruct He as [-> | ->]. }
  rewrite <- (app_nil_r sp') at 2. apply (heads_cons _ [] _ sp' z []); [|apply heads_done]. by apply heads_star_class.
Qed.

(** A secret: one word that begins with a plain character, or a quoted text. *)
Definition secret_char (c : Z) : bool := negb (text_space c) && negb (bool_decide (c ∈ lit ",;}]")).
Definition plain_start (c : Z) : bool := negb (bool_decide (c ∈ [QUOTE; APOSTROPHE; 91])).

Inductive secret (rest : text) : text -> Prop :=
| bare_secret c s : plain_start c = true -> Forall (fun c => secret_char c = true) (c :: s) -> ends secret_char rest -> secret rest (c :: s)
| quoted_secret q body : quote_mark q = true -> Forall (fun c => bool_decide (c ∈ [q; BACKSLASH]) = false) body -> secret rest ([q] ++ body ++ [q]).

Lemma quoted_none q before c t : c <> q -> matches (quoted q) before (c :: t) = [].
Proof. intros H. unfold quoted, one_of. cbn [all_of foldr matches]. by rewrite bool_decide_eq_false_2 by (by intros ->%list_elem_of_singleton). Qed.

Lemma quoted_found q body before rest : quote_mark q = true -> Forall (fun c => bool_decide (c ∈ [q; BACKSLASH]) = false) body ->
  heads (quoted q) before ([q] ++ body ++ [q] ++ rest) ([q] ++ body ++ [q], None).
Proof.
  intros Hq Hb. assert (Hqb : q <> BACKSLASH) by (intros ->; vm_compute in Hq; discriminate Hq).
  unfold quoted. apply heads_cons; [apply heads_class, bool_decide_eq_true_2; left|]. apply heads_cons.
  - apply heads_star.
    + intros b c u v ->. apply Forall_app in Hb as [_ Hb]. apply Forall_cons in Hb as [Hc _]. cbn [app matches one_of none_of].
      rewrite Hc. apply bool_decide_eq_false in Hc. rewrite bool_decide_eq_false_2; [done|]. intros ->%list_elem_of_singleton. apply Hc. right. left.
    + intros b. cbn [app matches one_of none_of]. rewrite (bool_decide_eq_false_2 (q ∈ [BACKSLASH])) by (by intros ?%list_elem_of_singleton).
      by rewrite (bool_decide_eq_true_2 (q ∈ [q; BACKSLASH])) by left.
  - apply (heads_cons _ [] _ [q] rest []); [apply heads_class, bool_decide_eq_true_2; left|apply heads_done].
Qed.

Lemma secret_found before s rest : secret rest s -> heads secret_value before (s ++ rest) (s, None).
Proof.
  unfold secret_value, any_of. cbn [foldl]. destruct 1 as [c s Hc Hs Hr|q body Hq Hb].
  - apply bool_decide_eq_false in Hc || apply negb_true_iff, bool_decide_eq_false in Hc.
    apply heads_alt_right; [|by apply heads_plus_class]. cbn [matches app]. rewrite !quoted_none by (intros ->; apply Hc; set_solver).
    unfold word. rewrite word_matches. cbn [app]. change (spells (lit "[redacted]") (c :: s ++ rest)) with (same_letter 91 c && spells (lit "redacted]") (s ++ rest)).
    assert (same_letter 91 c = false) as ->; [|done]. unfold same_letter. rewrite (proj2 (Z.eqb_neq c 91)) by (intros ->; apply Hc; set_solver). reflexivity.
  - apply heads_alt_left, heads_alt_left. rewrite <- !app_assoc. destruct (decide (q = QUOTE)) as [-> | Hne].
    + by apply heads_alt_left, quoted_found.
    + assert (q = APOSTROPHE) as ->. { unfold quote_mark in Hq. apply bool_decide_eq_true in Hq. set_solver. }
      apply heads_alt_right; [by apply quoted_none|by apply quoted_found].
Qed.

Lemma secret_starts rest s z : secret rest s -> ends text_space (s ++ z).
Proof.
  destruct 1 as [c s Hc Hs Hr|q body Hq Hb]; cbn.
  - apply Forall_cons in Hs as [Hs _]. unfold secret_char in Hs. by bool_to_prop.
  - destruct (text_space q) eqn:E; [|done]. apply space_no_quote in E. congruence.
Qed.

Lemma credential_found g key before s rest : assigns g key -> secret rest s -> heads credential before ((g ++ s) ++ rest) (g ++ s, Some g).
Proof.
  intros Hg Hs. rewrite <- app_assoc. unfold credential.
  apply (heads_cat _ _ _ g (s ++ rest) (g, Some g) (s, None)); [|done|by apply secret_found].
  apply (heads_group _ _ _ (g, None)). eapply assignment_found; [done|by eapply secret_starts].
Qed.

(** No credential begins earlier. *)
Definition first_credential (pre rest : text) : Prop := forall u v, pre = u ++ v -> v <> [] -> matches credential None (v ++ rest) = [].

Lemma hide_credentials_found pre g key s rest :
  assigns g key -> secret rest s -> first_credential pre (g ++ s ++ rest) ->
  hide_credentials (pre ++ g ++ s ++ rest) = pre ++ (g ++ REDACTED) ++ hide_credentials rest.
Proof.
  intros Hg Hs Hp. unfold hide_credentials, re_sub. rewrite sub_from_quiet; [|reflexivity|].
  - f_equal. rewrite (app_assoc g s rest), (sub_from_found credential _ None (g ++ s) (Some g) rest); [reflexivity|reflexivity| |by eapply credential_found].
    intros [_ ->]%app_eq_nil. inversion Hs.
  - intros u v Hu Hv b. rewrite (forward_matches credential b None) by reflexivity. by apply (Hp u v).
Qed.

Lemma hide_bearer_none t : without BEARER t -> hide_bearer t = t.
Proof.
  intros H. unfold hide_bearer, re_sub. rewrite <- (app_nil_r t) at 1. rewrite sub_from_quiet; [apply app_nil_r|reflexivity|].
  intros u v Hu Hv b. rewrite app_nil_r. by apply bearer_none, (H u v).
Qed.

(** ** Secrets that are recognized *)

Inductive kind := Bearer | Assigned.

(** The secret [s] stands between [before] and [rest]. *)
Inductive recognized (rest : text) : kind -> text -> text -> Prop :=
| bearer_token pre b sp tok :
    BACKSLASH ∉ (pre ++ b ++ sp) ++ tok ++ rest -> without BEARER pre -> spells BEARER b = true -> length b = 6%nat ->
    sp <> [] -> Forall (fun c => text_space c = true) sp -> tok <> [] -> Forall (fun c => token_char c = true) tok -> ends token_char rest ->
    recognized rest Bearer (pre ++ b ++ sp) tok
| assigned_secret pre g key s :
    BACKSLASH ∉ (pre ++ g) ++ s ++ rest -> without BEARER ((pre ++ g) ++ s ++ rest) -> assigns g key -> secret rest s ->
    first_credential pre (g ++ s ++ rest) -> recognized rest Assigned (pre ++ g) s.

Lemma recognized_hidden rest k before s : recognized rest k before s ->
  full_text (before ++ s ++ rest) =
    match k with
    | Bearer => hide_userinfo (hide_credentials (before ++ REDACTED ++ hide_bearer rest))
    | Assigned => hide_userinfo (before ++ REDACTED ++ hide_credentials rest)
    end.
Proof.
  destruct 1 as [pre b sp tok Hn Hw Hb Hl Hsp Hs Htok Ht Hr|pre g key s Hn Hw Hg Hs Hp]; rewrite full_text_plain by done; unfold hide_plain.
  - do 2 f_equal. rewrite <- !app_assoc, hide_bearer_found by done. by rewrite <- !app_assoc.
  - rewrite hide_bearer_none by done. f_equal. rewrite <- !app_assoc, (hide_credentials_found _ _ key) by done. by rewrite <- !app_assoc.
Qed.


(** With a limit the text is at most a mark longer. *)
Theorem diagnostics_are_bounded t limit tail : (0 < limit)%nat -> (length (diagnostic_text t (Some limit) tail) <= limit + 25)%nat.
Proof.
  intros Hl. unfold diagnostic_text. case_bool_decide; [lia|]. destruct tail.
  - rewrite decide_False by lia. rewrite length_app. unfold text_tail. rewrite length_drop. change (length TAIL_MARK) with 20%nat. lia.
  - rewrite length_app, length_take. change (length CUT_MARK) with 25%nat. lia.
Qed.

(** ** Structured values *)

Section value_ind.
Variable P : value -> Prop.
Hypothesis P_null : P VNull.
Hypothesis P_bool : forall b, P (VBool b).
Hypothesis P_number : forall z, P (VNumber z).
Hypothesis P_text : forall t, P (VText t).
Hypothesis P_list : forall l, Forall P l -> P (VList l).
Hypothesis P_map : forall d, Forall (fun p => P p.2) d -> P (VMap d).

Fixpoint value_nested (v : value) : P v :=
  match v with
  | VNull => P_null
  | VBool b => P_bool b
  | VNumber z => P_number z
  | VText t => P_text t
  | VList l => P_list l ((fix go (l : list value) : Forall P l :=
      match l with [] => Forall_nil_2 _ | v :: l => Forall_cons_2 _ _ _ (value_nested v) (go l) end) l)
  | VMap d => P_map d ((fix go (d : list (text * value)) : Forall (fun p => P p.2) d :=
      match d with [] => Forall_nil_2 _ | p :: d => Forall_cons_2 (fun p => P p.2) p d (value_nested p.2) (go d) end) d)
  end.
End value_ind.

(** The two values differ at most below keys that name a credential. *)
Inductive same_public : value -> value -> Prop :=
| sp_refl v : same_public v v
| sp_list l l' : Forall2 same_public l l' -> same_public (VList l) (VList l')
| sp_map d d' : Forall2 (fun p q => p.1 = q.1 /\ (credential_key p.1 = true \/ same_public p.2 q.2)) d d' -> same_public (VMap d) (VMap d').

Definition redacted_entry (summarize : bool) (p : text * value) : text * value :=
  (p.1, if credential_key p.1 then VText REDACTED else diagnostic_value summarize p.2).

Lemma diagnostic_map summarize d : diagnostic_value summarize (VMap d) = VMap (redacted_entry summarize <$> d).
Proof. cbn [diagnostic_value]. f_equal. by induction d as [|[k v] d ->]. Qed.

Lemma diagnostic_list summarize l : diagnostic_value summarize (VList l) = VList (diagnostic_value summarize <$> l).
Proof. reflexivity. Qed.

(** What stands below the key of a credential, at any depth, does not show. *)
Theorem credential_values_are_hidden summarize v v' :
  same_public v v' -> diagnostic_value summarize v = diagnostic_value summarize v'.
Proof.
  revert v'. induction v as [| | | |l IH|d IH] using value_nested; intros v' H; inversion H as [|l1 l2 Hl|d1 d2 Hd]; subst; try done.
  - rewrite !diagnostic_list. f_equal. clear H. induction Hl as [|x y l1 l2 Hx Hl IHl]; [done|]. apply Forall_cons in IH as [I1 I2].
    rewrite !fmap_cons. f_equal; [by apply I1|by apply IHl].
  - rewrite !diagnostic_map. f_equal. clear H. induction Hd as [|x y d1 d2 [Hk Hx] Hd IHd]; [done|]. apply Forall_cons in IH as [I1 I2].
    rewrite !fmap_cons. f_equal; [|by apply IHd]. unfold redacted_entry. rewrite <- Hk. destruct (credential_key x.1) eqn:E; [done|].
    destruct Hx as [? | Hx]; [congruence|]. f_equal. by apply I1.
Qed.

(** ** Chains of exceptions *)

Section chains.
Variable exceptions : nat -> exception.
Variable n : nat.
Hypothesis closed : forall id, (id < n)%nat -> forall c, cause_of (exceptions id) = Some c \/ c ∈ ex_children (exceptions id) -> (c < n)%nat.

Definition unseen (seen : list nat) : nat := length (filter (fun id => id ∉ seen) (seq 0 n)).

Lemma unseen_mono seen seen' : (forall id, id ∈ seen -> id ∈ seen') -> (unseen seen' <= unseen seen)%nat.
Proof.
  intros H. unfold unseen. induction (seq 0 n) as [|x l IH]; [done|]. rewrite !filter_cons. repeat case_decide; cbn; try lia. exfalso. auto.
Qed.

Lemma unseen_cons id seen : (id < n)%nat -> id ∉ seen -> (unseen (id :: seen) < unseen seen)%nat.
Proof.
  intros Hn Hs. unfold unseen. assert (Hin : id ∈ seq 0 n) by (apply elem_of_seq; lia).
  revert Hin. induction (seq 0 n) as [|x l IH]; [by intros ?%elem_of_nil|]. intros Hin. rewrite !filter_cons.
  assert (Hle : (length (filter (fun y => y ∉ id :: seen) l) <= length (filter (fun y => y ∉ seen) l))%nat).
  { clear. induction l as [|y l IH]; [done|]. rewrite !filter_cons. repeat case_decide; cbn; try lia. set_solver. }
  destruct (decide (x = id)) as [-> | Hne].
  - rewrite decide_False by (intros H; apply H; left). rewrite decide_True by done. cbn. lia.
  - apply elem_of_cons in Hin as [-> | Hin]; [done|]. specialize (IH Hin). repeat case_decide; cbn; try lia; set_solver.
Qed.

Lemma render_seen fuel id seen x : x ∈ seen -> x ∈ (render exceptions fuel id seen).2.
Proof.
  revert id seen x. induction fuel as [|fuel IH]; intros id seen x Hx; [done|]. cbn [render]. case_bool_decide; [done|]. cbv zeta.
  destruct (match cause_of (exceptions id) with Some c => _ | None => _ end) as [causes seen1] eqn:E.
  assert (H1 : x ∈ seen1). { destruct (cause_of _); [|injection E as _ <-; by right]. eapply (f_equal snd) in E. cbn in E. rewrite <- E. apply IH. by right. }
  assert (Hf : forall l acc, x ∈ acc.2 ->
    x ∈ (foldl (fun acc c => let '(lines, seen) := render exceptions fuel c acc.2 in (acc.1 ++ lines, seen)) acc l).2).
  { induction l as [|c l IHl]; intros acc Ha; [done|]. cbn [foldl]. apply IHl. destruct (render exceptions fuel c acc.2) as [lines seen2] eqn:E2.
    eapply (f_equal snd) in E2. cbn in E2 |- *. rewrite <- E2. by apply IH. }
  specialize (Hf (ex_children (exceptions id)) ([], seen1) H1). by destruct (foldl _ _ _).
Qed.

(** With as much fuel as there are exceptions, more does not change the result. *)
Lemma render_enough fuel fuel' id seen : (id < n)%nat -> (unseen seen < fuel)%nat -> (unseen seen < fuel')%nat ->
  render exceptions fuel id seen = render exceptions fuel' id seen.
Proof.
  revert fuel' id seen. induction fuel as [|fuel IH]; intros fuel' id seen Hid H1 H2; [lia|]. destruct fuel' as [|fuel']; [lia|]. cbn [render].
  case_bool_decide as Hs; [done|]. pose proof (unseen_cons id seen Hid Hs) as Hu.
  assert (E : match cause_of (exceptions id) with Some c => render exceptions fuel c (id :: seen) | None => ([], id :: seen) end =
              match cause_of (exceptions id) with Some c => render exceptions fuel' c (id :: seen) | None => ([], id :: seen) end).
  { destruct (cause_of (exceptions id)) as [c|] eqn:Ec; [|done]. apply IH; [by apply (closed id Hid); left|lia..]. }
  cbv zeta. rewrite E. destruct (match cause_of (exceptions id) with Some c => render exceptions fuel' c _ | None => _ end) as [causes seen1] eqn:E1.
  assert (Hle : (unseen seen1 <= unseen (id :: seen))%nat).
  { apply unseen_mono. intros x Hx. destruct (cause_of _); [|by injection E1 as _ <-]. eapply (f_equal snd) in E1. cbn in E1. rewrite <- E1. by apply render_seen. }
  assert (Hf : forall l acc, (forall c, c ∈ l -> (c < n)%nat) -> (unseen acc.2 <= unseen (id :: seen))%nat ->
    foldl (fun acc c => let '(lines, seen) := render exceptions fuel c acc.2 in (acc.1 ++ lines, seen)) acc l =
    foldl (fun acc c => let '(lines, seen) := render exceptions fuel' c acc.2 in (acc.1 ++ lines, seen)) acc l).
  { induction l as [|c l IHl]; intros acc Hl Ha; [done|]. cbn [foldl]. rewrite (IH fuel' c acc.2) by (lia || by apply Hl; left).
    destruct (render exceptions fuel' c acc.2) as [lines seen2] eqn:E2. apply IHl; [intros d Hd; apply Hl; by right|]. cbn.
    etransitivity; [|exact Ha]. apply unseen_mono. intros x Hx. eapply (f_equal snd) in E2. cbn in E2. rewrite <- E2. by apply render_seen. }
  rewrite (Hf _ ([], seen1)); [done| |done]. intros c Hc. apply (closed id Hid). by right.
Qed.

(** A summary of exceptions that refer to each other, in cycles too, is complete. *)
Theorem exception_summary_ends id fuel : (id < n)%nat -> (n < fuel)%nat ->
  exception_summary exceptions n id = full_text (join_lines (render exceptions fuel id []).1).
Proof.
  intros Hid Hf. unfold exception_summary. rewrite (render_enough (S n) fuel); [done|done|..].
  all: assert (unseen [] <= n)%nat by (unfold unseen; etransitivity; [apply length_filter|by rewrite length_seq]); lia.
Qed.
End chains.

(** ** Witnesses *)

Lemma without_check w t : forallb (fun n => negb (spells w (drop n t))) (seq 0 (S (length t))) = true -> without w t.
Proof.
  intros H u v ->. rewrite forallb_forall in H. specialize (H (length u)). rewrite drop_app_length in H. apply negb_true_iff, H, in_seq. rewrite length_app. lia.
Qed.

Lemma first_check pre rest : forallb (fun n => bool_decide (matches credential None (drop n pre ++ rest) = [])) (seq 0 (length pre)) = true -> first_credential pre rest.
Proof.
  intros H u v -> Hv. rewrite forallb_forall in H. specialize (H (length u)). rewrite drop_app_length in H. eapply bool_decide_eq_true_1, H, in_seq.
  rewrite length_app. destruct v; [done|]. cbn. lia.
Qed.

Lemma password_recognized s : s ∈ [lit "hunter2"; lit "x"] -> recognized (lit " (retry)") Assigned (lit "login failed: " ++ lit "password=") s.
Proof.
  intros Hs. repeat (apply elem_of_cons in Hs as [-> | Hs]); [..|by apply elem_of_nil in Hs].
  all: apply (assigned_secret _ _ _ (lit "password")); [apply (bool_decide_eq_true_1 _); vm_compute; reflexivity|apply without_check; vm_compute; reflexivity| | |apply first_check; vm_compute; reflexivity].
  all: try (apply bare_secret; [reflexivity|repeat constructor|reflexivity]).
  all: split; [left|exists [], [], [], 61, []]; split_and!; first [done | by left | constructor].
Qed.


Lemma diagnostics_are_bounded_witness : (length (diagnostic_text (lit "a long report") (Some 4) false) <= 29)%nat.
Proof. apply (diagnostics_are_bounded (lit "a long report") 4 false). lia. Defined.

(** Two exceptions, each the cause of the other. *)
Definition looping (id : nat) : exception := Exception (lit "E") (lit "x") (lit "E: x") (Some (1 - id)%nat) None [].

Lemma exception_summary_ends_witness : exception_summary looping 2 0 = full_text (join_lines (render looping 7 0 []).1).
Proof.
  apply (exception_summary_ends looping 2); [|lia..]. intros id Hid c [[= <-] | Hc]; [lia|by apply elem_of_nil in Hc].
Defined.

Lemma credential_values_are_hidden_witness :
  diagnostic_value false (VMap [(lit "api_key", VText (lit "k1"))]) = diagnostic_value false (VMap [(lit "api_key", VNumber 2)]).
Proof. apply credential_values_are_hidden, sp_map. repeat constructor; left; vm_compute; reflexivity. Defined.

(** The three patterns on one line. *)
Example hides_tokens :
  full_text (lit "GET failed: Authorization: Bearer abc.def, retry token=xyz; https://me:pw@host/x") =
    lit "GET failed: Authorization: Bearer [redacted], retry token=[redacted]; https://[redacted]@host/x".
Proof. vm_compute. reflexivity. Qed.

(** ** What is not recognized *)

(** A value that begins with a bracket, a brace, a comma or a semicolon stays as it is, ... *)
Example bracket_is_not_hidden : full_text (lit "password=}hunter2") = lit "password=}hunter2".
Proof. vm_compute. reflexivity. Qed.

(** ... and after a repeated word the token stays. *)
Example repeated_bearer_is_not_hidden : full_text (lit "Authorization: Bearer bearer abc") = lit "Authorization: Bearer [redacted] abc".
Proof. vm_compute. reflexivity. Qed.
